(* ===== verification/_CoqProject ===== *)
-Q . S2P
Prelude.v
GoInt.v
GoString.v
GoBase64.v
Glob.v
PlayerCodec.v
MapExchange.v
GoPath.v
GoTime.v
PlayerDB.v
PlayerFile.v
PlayerDBSafety.v
PlayerFileSafety.v
Moderation.v
GoCalendar.v
ResetSchedule.v
ConfigTree.v
ConfigFile.v
WebSchema.v
WebSettings.v
WebSafety.v
VoteMap.v
OperationStatus.v
Lifecycle.v
LifecycleInvariant.v
LifecycleSafety.v
LifecycleAnswers.v
LifecycleEnds.v
WebProtocol.v
Jobs.v
JobsSafety.v
JobsLookup.v
Auth.v
AuthSafety.v
ModVersion.v
ModDeps.v
ModPlan.v
ModHistory.v
ModDownload.v
ModUpdate.v
ModBuiltin.v
Fetch.v
FactUpdater.v
FactUpdaterSafety.v
Control.v
ControlSafety.v
Uploads.v
UploadsSafety.v
MapReset.v
MapResetSafety.v
Sanitize.v
SanitizeSafety.v
OutputLine.v
OutputChat.v
OutputAccess.v
OutputPlayers.v
OutputServer.v
Output.v
OutputSafety.v
OutputChatSafety.v
OutputPanics.v
OutputRelay.v
OutputRegister.v
Console.v
MessageQueue.v
MessageQueueSafety.v
CommandTable.v
Commands.v
CommandsSafety.v
ConfigCommand.v
Whitelist.v
Firewall.v
Hours.v
Launcher.v
DiscordMsg.v
MapList.v
Channel.v
EditMods.v
