(* ===== verification/Prelude.v ===== *)
(** * ChatWire: a verification library

    ChatWire runs beside one Factorio server.  It starts and stops the game, reads what the
    game prints and writes to its console, relays the chat to a Discord channel, keeps the
    players and their levels in a file it shares with the other servers of the host, resets
    the map on a schedule or by vote, updates the game and its mods, and can be managed by
    slash commands and by a web control.  This library models the parts of [src/] that decide
    something, in the words of the source, and proves what makes them correct.

    ** How the parts interact

    The life cycle manager ([src/fact/lifecycle.go]) is the one goroutine that owns the game
    process; commands, the web control, votes, schedule and updater only submit requests to
    it.  The output handlers ([src/support/pipe*.go]) read the game's lines, change the player
    list, tell the manager what the game said, and queue messages for Discord
    ([src/disc/discUtils.go], [src/support/mainLoops_cms.go]).  Everything that is said to the
    game goes through [WriteFact].  The web control is a second process: it talks to the
    control runtime ([src/controlruntime]), whose operations are jobs ([src/webcontrol]) of
    users with a session ([src/webapi]).

    The files, by part of the program, each after what it uses:

    - Shared: this file (errors as values, record updates, the tactics and the lemmas every
      component uses); [GoInt], [GoString], [GoBase64], [GoPath], [GoTime], [GoCalendar], what
      the source uses of Go and its standard library, written out on bytes and machine-width
      integers; [Glob], the records of [src/glob/struct.go]; [Sanitize], [src/sclean], with
      [SanitizeSafety].
    - Players: [PlayerCodec] ([src/fact/playerdb_codec.go]), [PlayerDB] and [PlayerFile]
      ([src/fact/playerDB.go]: the list of a process; the file the processes share),
      [PlayerDBSafety], [PlayerFileSafety], [Moderation] ([src/fact/moderation.go]).
    - The map: [MapExchange] ([mapExchange.go]), [MapReset] and [MapResetSafety]
      ([mapReset.go], [src/cfg/pathutil.go]), [VoteMap] ([voteMap.go]), [ResetSchedule]
      ([newCron.go], [setSchedule.go], [src/support/reset.go]), [Hours]
      ([src/support/hours.go], [hourLimits.go]).
    - Configuration: [ConfigTree], [ConfigFile], [WebSchema], [WebSettings], [WebSafety]
      ([src/cfg]: [web_settings.go], [web_fields.go], [struct.go]).
    - The game process: [Lifecycle], [LifecycleInvariant], [LifecycleSafety],
      [LifecycleAnswers], [LifecycleEnds] ([lifecycle.go], [save_transition.go],
      [runtime_state.go]), [OperationStatus] ([operation_status.go], [status_messages.go]),
      [Launcher] ([src/support/launcher_*.go]: the save, the soft mod, the command line),
      [Whitelist] (the lists the game starts with, [src/fact/util.go]), [Console]
      ([WriteFact], [FactChat], [softmod_protocol.go]).
    - What the game prints: [OutputLine], [OutputChat], [OutputAccess], [OutputPlayers],
      [OutputServer], [Output] ([src/support/pipe*.go], [idiotProtect.go],
      [src/commands/user/register.go], the look-up of [src/banlist]), with [OutputSafety],
      [OutputChatSafety], [OutputPanics], [OutputRelay], [OutputRegister].
    - Discord: [MessageQueue], [MessageQueueSafety]; [DiscordMsg] ([src/discordMsg.go]);
      [Channel] and [MapList] (the name of the channel and the menu of the maps,
      [src/fact/util.go]); [CommandTable], [Commands], [CommandsSafety] ([src/commands],
      [src/support/cmdUtil.go]); [ConfigCommand] ([config.go], [newGConfig.go]); [EditMods]
      ([editMods.go]); [Firewall] ([src/firewall], [ipBan.go]).
    - The web control: [WebProtocol], [Jobs], [JobsSafety], [JobsLookup] ([src/webcontrol]),
      [Auth], [AuthSafety] ([src/webapi/auth.go]), [Control], [ControlSafety]
      ([src/controlruntime/server.go]), [Uploads], [UploadsSafety]
      ([src/controlruntime/files.go]).
    - Updates: [Fetch], [FactUpdater], [FactUpdaterSafety] ([src/factUpdater]), [ModVersion],
      [ModDeps], [ModPlan], [ModHistory], [ModDownload], [ModUpdate], [ModBuiltin]
      ([src/modupdate], [versionprefs.go]).

    ** How state and operations correspond

    A component's state is a record with the fields of the Go structs and package variables it
    owns, under their names with a prefix; a function of the source is a definition of the
    same name.  [(A, error)] is [result E A].  A function that changes state is a function on
    the record, or runs in a small monad where many calls thread it ([LM] of Lifecycle.v,
    [M] of MapExchange.v, the handlers' monad of OutputLine.v, where a result can also be a
    panic or a lock that is never released).  What is sent, written or run outside is an
    effect, recorded in order.  Goroutines that share state are step relations or schedules:
    [env_point] of the life cycle, [cluster_does] of the database, [host] of the configuration
    files, the workers of the job store, the calls in flight of the sessions, [slash_step] of
    the commands, [cms_step] of the message queue (where a producer that finds the queue
    full makes room and tries again in two steps), [channel_step] of the name of the channel.  A region under one mutex is one step; a
    function that unlocks in the middle is as many steps as it has regions.

    ** What is proved

    - Refinement: the processes of a host, their locks and the player file they share do
      what one table of players does with their lists: every run of the host is, event for
      event, a run of the table, in which a save applies the marked records at one moment or
      not at all.  Equivalence: the incremental tally of votes is the count; versions are
      compared lexicographically; playing hours are an interval of the clock.  Round trips:
      the player database, base64, configuration trees, the cache of the map generators.
    - Safety over all interleavings: one game process at a time; a key of the job store is
      executed once; nothing runs that was not confirmed; an edit of the settings survives
      the other writers; a command runs only for who may run it, one at a time; a member who
      keeps the user name has one vote; a line of chat is relayed and changes only the
      records the chat rules name; chat can not become a command of the game.
    - Errors: a failed save leaves the file and the marks, a failed generation the saves, the
      settings and the schedule, a failed patch the settings; an upload that fails says how
      far it came, and what was announced is closed.  What fails and what succeeds is told
      exactly: a save and a generation succeed when, and only when, every step of them does.
      The lines of output that stop the program are characterised, and so are the options a
      command can crash on.
    - Invariants and types of the player list, the settings, the tables of the sessions, the
      queue of messages, in which every line waits, is sent, has failed or was dropped; bounds of
      tables, uploads, message sizes and rates.
    - Termination and liveness: every wait of a stop ends, and every request is answered
      once, when the reports sent to the manager are finitely many; missed
      resets are skipped; the wait for the players ends.

    ** Fuel and bounds

    The loops whose recursion is not structural carry fuel, and are proved to end within it:
    a variable-length integer has nine bytes of continuation at most; the loops that remove
    tags take one step more than the text is long; the closure of bundled mods visits one
    more than there are; a fetch has six attempts; the mod resolver stops at depth ten, as the
    source does; the three waits of a stop go round once per report and once per poll before
    their deadlines ([executeStop_ends]); the wait for players looks at most six hundred and two times.  Other
    bounds are those of the source: a queue of 1024 messages, five tokens and the one that is
    handed to a waiting loop, messages of 2000 bytes, twenty uploads.

    ** What is a parameter

    Code outside [src/] is never defined here.  Zstandard ([Zstd], with the law that
    decompression inverts compression), JSON ([Sonic], [ConfigJSON], [SoftModFormats] and the
    like), zlib ([Inflate]), SHA-256 ([Hashing]), archive formats ([Archives]), durations in
    words ([Durafmt]), the Unicode tables ([UnicodeTables], [PrintTable]), HTTP, the Discord
    library, the firewall tool and the name server are classes or variables of the sections
    that use them.  Their laws are hypotheses that state documented behaviour, and every
    theorem that has one is applied to a concrete instance in a witness.  The clock, the
    iteration order of Go maps, unstable sorts, the operating system and every operation that
    can fail are arguments.  The host's time zone is taken to be UTC where the schedule uses
    the local clock.

    ** Not modelled

    - Input and output without decisions of its own: the log files ([src/cwlog]), the start
      and the end of the program ([src/main.go], [runtime_selftest.go], [src/cmd]), the worker
      pool, the watcher of files, the HTTP server, its assets and its audit log
      ([src/webapi/server.go]), the sockets and clients of the control protocol, RCON, the map
      previews, and the tickers that only call a modelled operation.
    - The clock of the game ([gametime.go]): its rates are floating-point quotients of
      measured times, of which nothing exact can be said.
    - The reading of the configuration files with their defaults ([localCfg.go],
      [globalCfg.go]): a list of constants over the JSON decoder; the merge, the schema and
      every change of a setting are modelled.
    - The commands that only show something ([whois], [info], [players], [score-board],
      [mod-pack] and their like), and the tables of roles, which mirror the Discord library. *)
From Stdlib Require Import Ascii.
From Stdlib Require Export ZArith Lia.
From stdpp Require Export base gmap sets list strings sorting.
#[global] Open Scope Z_scope.

(** ** Errors as values

    A Go function that returns [(A, error)] becomes a function into
    [result E A]; [E] is the component's own error type. *)
Inductive result (E A : Type) : Type :=
  | Ok (a : A)
  | Err (e : E).
Arguments Ok {E A} a.
Arguments Err {E A} e.

#[export] Instance result_ret E : MRet (result E) := fun A a => Ok a.
#[export] Instance result_bind E : MBind (result E) := fun A B f m =>
  match m with Ok a => f a | Err e => Err e end.
#[export] Instance result_fmap E : FMap (result E) := fun A B f m =>
  match m with Ok a => Ok (f a) | Err e => Err e end.

Definition map_err {E F A} (f : E -> F) (m : result E A) : result F A :=
  match m with Ok a => Ok a | Err e => Err (f e) end.

Definition is_ok {E A} (m : result E A) : bool :=
  match m with Ok _ => true | Err _ => false end.

(** [guard_err b e]: the early return [if !b { return e }]. *)
Definition guard_err {E} (b : bool) (e : E) : result E unit :=
  if b then Ok tt else Err e.

Lemma result_bind_ok {E A B} (f : A -> result E B) (m : result E A) b :
  m ≫= f = Ok b <-> exists a, m = Ok a /\ f a = Ok b.
Proof. destruct m as [a|e]; simpl; naive_solver. Qed.

Lemma result_bind_assoc {E A B C} (m : result E A) (f : A -> result E B) (g : B -> result E C) :
  (m ≫= f) ≫= g = m ≫= (fun a => f a ≫= g).
Proof. by destruct m. Qed.

Lemma guard_err_ok {E} b (e : E) u : guard_err b e = Ok u <-> b = true.
Proof. destruct b, u; simpl; unfold guard_err; naive_solver. Qed.

(** Pass a check of which the condition holds. *)
Lemma guard_err_bind {E A} b (e : E) (k : unit -> result E A) :
  b = true -> guard_err b e ≫= k = k tt.
Proof. by intros ->. Qed.

(** Fail at a check of which the condition does not hold. *)
Lemma guard_err_fail {E A} b (e : E) (k : unit -> result E A) :
  b = false -> guard_err b e ≫= k = Err e.
Proof. by intros ->. Qed.

Lemma is_ok_true {E A} (m : result E A) : is_ok m = true <-> exists a, m = Ok a.
Proof. destruct m; simpl; naive_solver. Qed.

(** ** Updating one field of a record

    [Settable R] gives the record rebuilt from its projections; the setter of a
    projection is that term with the projection replaced. *)
Class Settable (R : Type) := mkSettable { rebuild : R -> R }.
Arguments mkSettable {R} rebuild.
Class Setter {R E : Type} (proj : R -> E) := mkSetter { setf : (E -> E) -> R -> R }.
Arguments setf {R E} proj {_} f r.
#[export] Hint Mode Setter + - - : typeclass_instances.

Ltac derive_setter :=
  lazymatch goal with
  | |- @Setter ?R ?E ?proj =>
      let full := eval cbv beta iota delta [rebuild] in (@rebuild R _) in
      let full := eval hnf in full in
      refine (mkSetter _ _ _ _);
      let f := fresh in let r := fresh in intros f r;
      let body := eval cbv beta in (full r) in
      lazymatch eval pattern (proj r) in body with
      | ?F _ => let t := eval cbv beta in (F (f (proj r))) in exact t
      end
  end.
#[export] Hint Extern 1 (Setter _) => derive_setter : typeclass_instances.

Declare Scope update_scope.
#[global] Open Scope update_scope.
Notation "r <| proj := v |>" := (setf proj (fun _ => v) r)
  (at level 12, left associativity, v at level 99) : update_scope.
Notation "r <| proj ::= f |>" := (setf proj f r)
  (at level 12, left associativity, f at level 99) : update_scope.

(** ** Automation shared by the components *)
Create HintDb chatwire.
#[export] Hint Rewrite @length_app @length_nil @length_cons : chatwire.

(** Split every boolean test of the context and turn it into arithmetic. *)
Ltac bool_hyps :=
  repeat match goal with
  | H : _ && _ = true |- _ => apply andb_true_iff in H as [? ?]
  | H : _ || _ = false |- _ => apply orb_false_iff in H as [? ?]
  | H : negb _ = true |- _ => apply negb_true_iff in H
  | H : negb _ = false |- _ => apply negb_false_iff in H
  | H : (_ <? _) = true |- _ => apply Z.ltb_lt in H
  | H : (_ <? _) = false |- _ => apply Z.ltb_ge in H
  | H : (_ <=? _) = true |- _ => apply Z.leb_le in H
  | H : (_ <=? _) = false |- _ => apply Z.leb_gt in H
  | H : (_ =? _) = true |- _ => apply Z.eqb_eq in H
  | H : (_ =? _) = false |- _ => apply Z.eqb_neq in H
  | H : bool_decide _ = true |- _ => apply bool_decide_eq_true in H
  | H : bool_decide _ = false |- _ => apply bool_decide_eq_false in H
  end.

(** Case analysis on the first [if]/[match] scrutinee of the goal. *)
Ltac case_goal :=
  match goal with
  | |- context [if ?b then _ else _] => destruct b eqn:?
  | |- context [match ?x with _ => _ end] => destruct x eqn:?
  end.

(** Invert every successful bind of the context. *)
Ltac inv_ok :=
  repeat match goal with
  | H : _ ≫= _ = Ok _ |- _ => apply result_bind_ok in H as (? & ? & ?)
  | H : guard_err _ _ = Ok _ |- _ => apply guard_err_ok in H
  | H : Ok _ = Ok _ |- _ => injection H as H
  | H : Err _ = Ok _ |- _ => discriminate H
  | H : Ok _ = Err _ |- _ => discriminate H
  end; simplify_eq.

#[export] Instance result_eq_dec {E A} `{EqDecision E, EqDecision A} : EqDecision (result E A).
Proof. solve_decision. Defined.

(** [lia] on goals with divisions and remainders. *)
Ltac div_lia := Z.to_euclidean_division_equations; lia.

(** Evaluate a closed decidable proposition. *)
Ltac vm_decide :=
  match goal with |- ?P => refine (bool_decide_eq_true_1 P _); vm_compute; reflexivity end.

(** ** Lists *)
Section lists.
Context {A : Type}.
Implicit Types l : list A.

Lemma take_app_exact l k : take (length l) (l ++ k) = l.
Proof. by rewrite take_app_length. Qed.

Lemma drop_app_exact l k : drop (length l) (l ++ k) = k.
Proof. by rewrite drop_app_length. Qed.

Lemma drop_take_app l k m n :
  n = length k -> take n (drop (length l) (l ++ k ++ m)) = k.
Proof. intros ->. by rewrite drop_app_exact, take_app_exact. Qed.

(** Go's [for i, x := range l { if p(x) { return i } }]. *)
Fixpoint find_index (p : A -> bool) l : option nat :=
  match l with
  | [] => None
  | x :: k => if p x then Some 0%nat else S <$> find_index p k
  end.

Lemma find_index_Some p l i :
  find_index p l = Some i ->
  exists x, l !! i = Some x /\ p x = true /\
    forall j y, (j < i)%nat -> l !! j = Some y -> p y = false.
Proof.
  revert i. induction l as [|x k IH]; simpl; intros i Hi; [done|].
  destruct (p x) eqn:Hp; simplify_eq.
  - exists x. split_and!; [done..|]. intros; lia.
  - destruct (find_index p k) as [i'|] eqn:E; simplify_eq/=.
    destruct (IH i' eq_refl) as (y & Hy & Hpy & Hmin). exists y. split_and!; [done..|].
    intros [|j] z Hj Hz; simplify_eq/=; [done|]. eapply Hmin; [|done]. lia.
Qed.

Lemma find_index_None p l : find_index p l = None <-> Forall (fun x => p x = false) l.
Proof.
  induction l as [|x k IH]; simpl; [by split|]. destruct (p x) eqn:E.
  - split; [done|]. intros H. inversion_clear H. congruence.
  - rewrite Forall_cons, fmap_None, IH. naive_solver.
Qed.

(** Members that a list without repetitions gives the same key are the same. *)
Lemma NoDup_fmap_eq {B} (f : A -> B) (l : list A) x y : NoDup (f <$> l) -> x ∈ l -> y ∈ l -> f x = f y -> x = y.
Proof.
  intros Hn Hx Hy E. induction l as [|z l IH]; [by apply elem_of_nil in Hx|]. cbn in Hn. apply NoDup_cons in Hn as [Hz Hn].
  rewrite elem_of_cons in Hx, Hy. destruct Hx as [->|Hx], Hy as [->|Hy]; [done| | |by apply IH]; exfalso; apply Hz, list_elem_of_fmap; eauto.
Qed.
End lists.

Lemma elem_of_list_delete {A} (x : A) (i : nat) (l : list A) : x ∈ delete i l -> x ∈ l.
Proof.
  revert i. induction l as [|y l IH]; intros [|i]; simpl; [done..| |].
  - by right.
  - intros [->|?]%elem_of_cons; [left|right; eauto].
Qed.

Lemma elem_of_list_insert_inv {A} (x y : A) (i : nat) (l : list A) : x ∈ <[i := y]> l -> x = y \/ x ∈ l.
Proof.
  revert i. induction l as [|z l IH]; intros [|i]; simpl; [tauto..| |].
  - intros [->|?]%elem_of_cons; [by left|right; by right].
  - intros [->|[?|?]%IH]%elem_of_cons; [right; left|by left|right; by right].
Qed.

Lemma elem_of_fst {A B} (l : list (A * B)) a : a ∈ l.*1 <-> exists b, (a, b) ∈ l.
Proof.
  rewrite list_elem_of_fmap. split; [intros ([a' b] & -> & ?); by exists b|intros [b ?]; by exists (a, b)].
Qed.
Lemma elem_of_snd {A B} (l : list (A * B)) b : b ∈ l.*2 <-> exists a, (a, b) ∈ l.
Proof.
  rewrite list_elem_of_fmap. split; [intros ([a b'] & -> & ?); by exists a|intros [a ?]; by exists (a, b)].
Qed.
#[export] Hint Rewrite @take_app_exact @drop_app_exact : chatwire.

(** ** A loop that may fail *)
Section foldM.
Context {E S A : Type}.
Implicit Types (f : S -> A -> result E S) (l : list A) (s : S).

Fixpoint foldM f s l : result E S :=
  match l with
  | [] => Ok s
  | a :: l => s' ← f s a; foldM f s' l
  end.

Lemma foldM_app f s l k : foldM f s (l ++ k) = s' ← foldM f s l; foldM f s' k.
Proof. revert s. induction l as [|a l IH]; intros s; simpl; [done|]. destruct (f s a); simpl; [apply IH|done]. Qed.

(** The loop rule. *)
Lemma foldM_inv (P : S -> Prop) f l s s' :
  P s -> (forall s a s', a ∈ l -> P s -> f s a = Ok s' -> P s') -> foldM f s l = Ok s' -> P s'.
Proof.
  intros Hs Hstep. revert s Hs. induction l as [|a l IH]; intros s Hs; simpl; [by intros [= <-]|].
  intros (s1 & H1 & Hl)%result_bind_ok. apply (IH ltac:(intros; eapply Hstep; eauto; by right) s1); [|done].
  eapply Hstep; [by left|done|done].
Qed.

(** The loop rule with the part of the list that is done. *)
Lemma foldM_inv_prefix (P : list A -> S -> Prop) f l s s' :
  P [] s -> (forall done s a s', P done s -> a ∈ l -> f s a = Ok s' -> P (done ++ [a]) s') ->
  foldM f s l = Ok s' -> P l s'.
Proof.
  intros H0 Hstep. revert s'. induction l as [|a l IH] using rev_ind; intros s'; [by intros [= <-]|].
  rewrite foldM_app. simpl. intros (s1 & H1 & (s2 & H2 & [= <-])%result_bind_ok)%result_bind_ok.
  eapply Hstep; [apply IH; [|done]|set_solver|done].
  intros. eapply Hstep; [done|set_solver|done].
Qed.
End foldM.

(** A loop of checks passes when every check does. *)
Lemma foldM_checks {E A} (f : A -> result E unit) (l : list A) :
  foldM (fun _ => f) tt l = Ok tt <-> Forall (fun a => f a = Ok tt) l.
Proof.
  induction l as [|a l IH]; simpl; [by split|]. rewrite Forall_cons.
  destruct (f a) as [[]|e]; simpl; [|naive_solver]. rewrite IH. naive_solver.
Qed.

(** ** Maps *)
Lemma insert_size {A} (key : string) (v : A) (m : gmap string A) : (size (<[key := v]> m) <= S (size m))%nat.
Proof. rewrite map_size_insert. destruct (m !! key); simpl; lia. Qed.
