(* ===== verification/GoInt.v ===== *)
(** * Go integers and [encoding/binary]

    Machine integers are [Z] with their wrap-around written out ([wrap],
    [swrap]); a byte is an [ascii] and a byte slice a [list ascii].  The file
    models the little-endian accessors and the variable-length integers that
    the player-database codec and the map-exchange parser are built on. *)
From Stdlib Require Import Ascii.
From S2P Require Import Prelude.

Abbreviation bytes := (list ascii).

Definition wrap (w z : Z) : Z := z mod 2 ^ w.
Definition swrap (w z : Z) : Z := (z + 2 ^ (w - 1)) mod 2 ^ w - 2 ^ (w - 1).
Definition in_u (w z : Z) : Prop := 0 <= z < 2 ^ w.
Definition in_s (w z : Z) : Prop := - 2 ^ (w - 1) <= z < 2 ^ (w - 1).

Lemma wrap_small w z : in_u w z -> wrap w z = z.
Proof. intros. by apply Z.mod_small. Qed.

Lemma wrap_range w z : 0 <= w -> in_u w (wrap w z).
Proof. intros. apply Z.mod_pos_bound. lia. Qed.

Lemma swrap_small w z : 1 <= w -> in_s w z -> swrap w z = z.
Proof.
  unfold in_s, swrap. intros Hw Hz.
  assert (2 ^ w = 2 * 2 ^ (w - 1)) by (rewrite <-Z.pow_succ_r by lia; f_equal; lia).
  rewrite Z.mod_small; lia.
Qed.

Lemma swrap_range w z : 1 <= w -> in_s w (swrap w z).
Proof.
  unfold in_s, swrap. intros Hw.
  assert (2 ^ w = 2 * 2 ^ (w - 1)) by (rewrite <-Z.pow_succ_r by lia; f_equal; lia).
  pose proof (Z.mod_pos_bound (z + 2 ^ (w - 1)) (2 ^ w)). lia.
Qed.

Lemma swrap_wrap w z : 1 <= w -> swrap w (wrap w z) = swrap w z.
Proof. intros. unfold swrap, wrap. by rewrite Zplus_mod_idemp_l. Qed.

(** ** Bytes *)
Definition byte_of (z : Z) : ascii := ascii_of_N (Z.to_N (z mod 256)).
Definition byte_val (a : ascii) : Z := Z.of_N (N_of_ascii a).

Lemma byte_val_range a : 0 <= byte_val a < 256.
Proof. unfold byte_val. pose proof (N_ascii_bounded a). lia. Qed.

Lemma byte_val_of z : byte_val (byte_of z) = z mod 256.
Proof.
  unfold byte_val, byte_of. pose proof (Z.mod_pos_bound z 256).
  rewrite N_ascii_embedding by lia. lia.
Qed.

Lemma byte_of_val a : byte_of (byte_val a) = a.
Proof.
  unfold byte_of. rewrite Z.mod_small by apply byte_val_range.
  unfold byte_val. rewrite N2Z.id. apply ascii_N_embedding.
Qed.

Lemma byte_val_inj a b : byte_val a = byte_val b -> a = b.
Proof. intros H. rewrite <-(byte_of_val a), <-(byte_of_val b). by rewrite H. Qed.

(** Disjoint bit ranges: or is addition. *)
Lemma lor_shiftl_add x y s :
  0 <= s -> 0 <= x < 2 ^ s -> Z.lor x (Z.shiftl y s) = x + y * 2 ^ s.
Proof.
  intros Hs Hx. rewrite <-Z.shiftl_mul_pow2 by done.
  assert (Hland : Z.land x (Z.shiftl y s) = 0).
  { apply Z.bits_inj'. intros n Hn. rewrite Z.land_spec, Z.bits_0, Z.shiftl_spec by done.
    destruct (Z.lt_ge_cases n s).
    - rewrite (Z.testbit_neg_r y) by lia. apply andb_false_r.
    - rewrite <-(Z.mod_small x (2 ^ s)) by done. by rewrite Z.mod_pow2_bits_high by lia. }
  rewrite Z.add_nocarry_lxor by done. by rewrite Z.lxor_lor.
Qed.

Lemma land_127 x : Z.land x 127 = x mod 128.
Proof. change 127 with (Z.ones 7). by rewrite Z.land_ones. Qed.

Lemma land_255 x : Z.land x 255 = x mod 256.
Proof. change 255 with (Z.ones 8). by rewrite Z.land_ones. Qed.

Lemma lor_128 x : 0 <= x < 256 -> Z.lor x 128 = x mod 128 + 128.
Proof.
  intros Hx. assert (H : forallb (fun n => Z.lor (Z.of_nat n) 128 =? Z.of_nat n mod 128 + 128) (seq 0 256) = true)
    by by vm_compute.
  rewrite forallb_forall in H. specialize (H (Z.to_nat x)).
  rewrite Z2Nat.id in H by lia. apply Z.eqb_eq, H, in_seq. lia.
Qed.

(** ** [binary.LittleEndian] *)
Fixpoint le_put (n : nat) (z : Z) : bytes :=
  match n with
  | O => []
  | S n => byte_of z :: le_put n (Z.shiftr z 8)
  end.

Fixpoint le_get (b : bytes) : Z :=
  match b with
  | [] => 0
  | a :: b => Z.lor (byte_val a) (Z.shiftl (le_get b) 8)
  end.

Lemma length_le_put n z : length (le_put n z) = n.
Proof. revert z. induction n; intros; simpl; congruence. Qed.

Lemma le_get_cons a b : le_get (a :: b) = byte_val a + le_get b * 256.
Proof. simpl. apply (lor_shiftl_add _ _ 8); [lia|]. apply byte_val_range. Qed.

Lemma le_get_put n z : le_get (le_put n z) = z mod 2 ^ (8 * Z.of_nat n).
Proof.
  revert z. induction n as [|n IH]; intros z.
  - simpl. by rewrite Z.mod_1_r.
  - cbn [le_put]. rewrite le_get_cons, IH, byte_val_of, Z.shiftr_div_pow2 by lia.
    replace (8 * Z.of_nat (S n)) with (8 + 8 * Z.of_nat n) by lia.
    rewrite Z.pow_add_r, Z.rem_mul_r by lia. change (2 ^ 8) with 256. lia.
Qed.

Lemma le_get_range b : 0 <= le_get b < 2 ^ (8 * Z.of_nat (length b)).
Proof.
  induction b as [|a b IH]; [simpl; lia|].
  rewrite le_get_cons. pose proof (byte_val_range a). simpl length.
  replace (8 * Z.of_nat (S (length b))) with (8 + 8 * Z.of_nat (length b)) by lia.
  rewrite Z.pow_add_r by lia. change (2 ^ 8) with 256. lia.
Qed.

Lemma le_put_get b n : length b = n -> le_put n (le_get b) = b.
Proof.
  revert n. induction b as [|a b IH]; intros n <-; [done|]. cbn [length le_put].
  rewrite le_get_cons. pose proof (byte_val_range a).
  rewrite Z.shiftr_div_pow2, Z.div_add, (Z.div_small (byte_val a)), Z.add_0_l, (IH (length b)) by (simpl; lia).
  f_equal. apply byte_val_inj. rewrite byte_val_of, Z.mod_add by lia. by apply Z.mod_small.
Qed.

Lemma le_get_put_u n z : in_u (8 * Z.of_nat n) z -> le_get (le_put n z) = z.
Proof. intros. rewrite le_get_put. by apply Z.mod_small. Qed.

(** ** [binary.AppendUvarint] and [binary.Uvarint] *)
Fixpoint put_uvarint (fuel : nat) (x : Z) : bytes :=
  match fuel with
  | O => [byte_of x]
  | S f =>
      if 128 <=? x
      then byte_of (Z.lor (Z.land x 255) 128) :: put_uvarint f (Z.shiftr x 7)
      else [byte_of x]
  end.

(** Nine continuation bytes carry 63 bits, so fuel nine is enough for a
    [uint64]. *)
Definition AppendUvarint (buf : bytes) (x : Z) : bytes := buf ++ put_uvarint 9 x.

Fixpoint uvarint_from (i s x : Z) (buf : bytes) : Z * Z :=
  match buf with
  | [] => (0, 0)
  | c :: rest =>
      let b := byte_val c in
      if i =? 10 then (0, - (i + 1))
      else if b <? 128 then
        if (i =? 9) && (1 <? b) then (0, - (i + 1))
        else (Z.lor x (wrap 64 (Z.shiftl b s)), i + 1)
      else uvarint_from (i + 1) (s + 7) (Z.lor x (wrap 64 (Z.shiftl (Z.land b 127) s))) rest
  end.

(** The pair is Go's [(value, n)]: [n = 0] is a short buffer, [n < 0] an
    overflow. *)
Definition Uvarint (buf : bytes) : Z * Z := uvarint_from 0 0 0 buf.

Definition zigzag (x : Z) : Z :=
  let ux := wrap 64 (Z.shiftl x 1) in
  if x <? 0 then wrap 64 (Z.lnot ux) else ux.

Definition AppendVarint (buf : bytes) (x : Z) : bytes := AppendUvarint buf (zigzag x).

Definition unzigzag (ux : Z) : Z :=
  let x := Z.shiftr ux 1 in
  if Z.land ux 1 =? 0 then x else Z.lnot x.

Definition Varint (buf : bytes) : Z * Z :=
  let '(ux, n) := Uvarint buf in (unzigzag ux, n).

Lemma wrap64_shift b s k :
  0 <= s -> 0 <= b < 2 ^ k -> 0 <= k -> s + k <= 64 -> wrap 64 (Z.shiftl b s) = b * 2 ^ s.
Proof.
  intros. rewrite Z.shiftl_mul_pow2 by done. apply wrap_small. unfold in_u.
  split; [nia|]. apply Z.lt_le_trans with (2 ^ k * 2 ^ s); [nia|].
  rewrite <-Z.pow_add_r by lia. apply Z.pow_le_mono_r; lia.
Qed.

Lemma uvarint_from_put f x i acc rest :
  0 <= i -> i + Z.of_nat f = 9 -> 0 <= x < 2 ^ (64 - 7 * i) -> 0 <= acc < 2 ^ (7 * i) ->
  uvarint_from i (7 * i) acc (put_uvarint f x ++ rest)
  = (acc + x * 2 ^ (7 * i), i + Z.of_nat (length (put_uvarint f x))).
Proof.
  revert x i acc. induction f as [|f IH]; intros x i acc Hi Hf Hx Hacc.
  - assert (i = 9) as -> by lia. cbn [put_uvarint app uvarint_from]. rewrite byte_val_of.
    change (64 - 7 * 9) with 1 in Hx. rewrite (Z.mod_small x) by lia.
    change (9 =? 10) with false. rewrite (proj2 (Z.ltb_lt x 128)) by lia.
    rewrite (proj2 (Z.ltb_ge 1 x)) by lia. rewrite andb_false_r.
    rewrite (wrap64_shift _ _ 1) by (lia || done).
    rewrite <-Z.shiftl_mul_pow2, lor_shiftl_add by (lia || done).
    rewrite Z.shiftl_mul_pow2 by lia. done.
  - cbn [put_uvarint]. assert (Hi9 : (i =? 10) = false) by (apply Z.eqb_neq; lia).
    destruct (Z.leb_spec 128 x) as [Hge|Hlt].
    + cbn [app uvarint_from]. rewrite Hi9.
      assert (Hv : byte_val (byte_of (Z.lor (Z.land x 255) 128)) = x mod 128 + 128).
      { rewrite land_255, lor_128 by (apply Z.mod_pos_bound; lia). rewrite byte_val_of.
        rewrite <-(Znumtheory.Zmod_div_mod 128 256 x) by (try lia; by exists 2).
        apply Z.mod_small. pose proof (Z.mod_pos_bound x 128). lia. }
      rewrite Hv. pose proof (Z.mod_pos_bound x 128).
      destruct (Z.ltb_spec (x mod 128 + 128) 128); [lia|].
      rewrite land_127. replace ((x mod 128 + 128) mod 128) with (x mod 128)
        by (rewrite <-Zplus_mod_idemp_r, Z_mod_same_full, Z.add_0_r, Zmod_mod; done).
      rewrite (wrap64_shift _ _ 7) by (try lia; change (2^7) with 128; lia).
      rewrite <-Z.shiftl_mul_pow2, lor_shiftl_add by lia.
      replace (7 * i + 7) with (7 * (i + 1)) by lia.
      rewrite Z.shiftr_div_pow2 by lia. change (2 ^ 7) with 128.
      assert (Hsplit : 2 ^ (7 * (i + 1)) = 2 ^ (7 * i) * 128)
        by (replace (7 * (i + 1)) with (7 * i + 7) by lia; by rewrite Z.pow_add_r by lia).
      rewrite IH; [|lia|lia| |rewrite Hsplit; nia].
      * rewrite Hsplit. pose proof (Z.div_mod x 128 ltac:(lia)) as Hd.
        cbn [length]. apply (f_equal2 pair); [|lia].
        set (q := x / 128) in *. set (r := x mod 128) in *. clearbody q r.
        rewrite Hd. ring.
      * split; [apply Z.div_pos; lia|]. apply Z.div_lt_upper_bound; [lia|].
        replace (64 - 7 * i) with (7 + (64 - 7 * (i + 1))) in Hx by lia.
        rewrite Z.pow_add_r in Hx by lia. change (2 ^ 7) with 128 in Hx. lia.
    + cbn [app uvarint_from length]. rewrite byte_val_of, Z.mod_small by lia. rewrite Hi9.
      rewrite (proj2 (Z.ltb_lt x 128)) by lia.
      rewrite (proj2 (Z.eqb_neq i 9)) by lia. cbn [andb].
      rewrite (wrap64_shift _ _ 7) by (try lia; change (2^7) with 128; lia).
      rewrite <-Z.shiftl_mul_pow2, lor_shiftl_add by lia.
      rewrite Z.shiftl_mul_pow2 by lia. done.
Qed.

Lemma Uvarint_put x rest :
  in_u 64 x -> Uvarint (put_uvarint 9 x ++ rest) = (x, Z.of_nat (length (put_uvarint 9 x))).
Proof.
  intros Hx. pose proof (uvarint_from_put 9 x 0 0 rest) as H.
  change (7 * 0) with 0 in H. unfold Uvarint. rewrite H by (unfold in_u in *; lia).
  rewrite Z.mul_1_r. done.
Qed.

Lemma put_uvarint_nonempty f x : (1 <= length (put_uvarint f x))%nat.
Proof. destruct f; simpl; [lia|]. destruct (128 <=? x); simpl; lia. Qed.

Lemma zigzag_range x : in_s 64 x -> in_u 64 (zigzag x).
Proof. intros. unfold zigzag. destruct (x <? 0); apply wrap_range; lia. Qed.

Lemma unzigzag_zigzag x : in_s 64 x -> unzigzag (zigzag x) = x.
Proof.
  unfold in_s, zigzag, unzigzag. change (2 ^ (64 - 1)) with 9223372036854775808. intros Hx.
  rewrite Z.shiftl_mul_pow2 by lia. change (2 ^ 1) with 2.
  unfold wrap. change (2 ^ 64) with 18446744073709551616.
  rewrite (Z.land_ones _ 1) by lia. change (2 ^ 1) with 2.
  rewrite Z.shiftr_div_pow2 by lia. change (2 ^ 1) with 2.
  unfold Z.lnot. destruct (Z.ltb_spec x 0).
  - replace ((x * 2) mod _) with (2 * x + 18446744073709551616)
      by (apply Z.mod_unique with (-1); lia).
    replace (Z.pred _ mod _) with (- 2 * x - 1) by (apply Z.mod_unique with (-1); lia).
    replace ((-2 * x - 1) mod 2) with 1 by (apply Z.mod_unique with (- x - 1); lia).
    replace ((-2 * x - 1) / 2) with (- x - 1) by (apply Z.div_unique with 1; lia).
    simpl. lia.
  - rewrite (Z.mod_small (x * 2)) by lia. rewrite Z_mod_mult. simpl. by rewrite Z_div_mult by lia.
Qed.

Lemma Varint_put x rest :
  in_s 64 x ->
  Varint (put_uvarint 9 (zigzag x) ++ rest) = (x, Z.of_nat (length (put_uvarint 9 (zigzag x)))).
Proof.
  intros Hx. unfold Varint. rewrite Uvarint_put by by apply zigzag_range.
  by rewrite unzigzag_zigzag.
Qed.

(** [n] never exceeds the buffer: a positive count consumes that many bytes. *)
Lemma uvarint_from_count i s x buf v n :
  0 <= i -> uvarint_from i s x buf = (v, n) -> 0 < n -> i < n <= i + Z.of_nat (length buf).
Proof.
  revert i s x. induction buf as [|c buf IH]; simpl; intros i s x Hi H Hn; [simplify_eq; lia|].
  destruct (i =? 10); [simplify_eq; lia|].
  destruct (byte_val c <? 128).
  - destruct ((i =? 9) && (1 <? byte_val c)); simplify_eq; lia.
  - apply IH in H; lia.
Qed.

Lemma uvarint_from_range i s x buf v n :
  0 <= i -> 0 <= s -> uvarint_from i s x buf = (v, n) -> in_u 64 x -> in_u 64 v.
Proof.
  revert i s x. induction buf as [|c buf IH]; simpl; intros i s x Hi Hs H Hx.
  { simplify_eq. unfold in_u. lia. }
  assert (Hlor : forall y, in_u 64 (Z.lor x (wrap 64 y))).
  { intros y. pose proof (wrap_range 64 y ltac:(lia)) as Hw. unfold in_u in *.
    split; [apply Z.lor_nonneg; lia|].
    destruct (Z.eq_dec (Z.lor x (wrap 64 y)) 0) as [->|Hne]; [lia|].
    assert (0 <= Z.lor x (wrap 64 y)) by (apply Z.lor_nonneg; lia).
    apply Z.log2_lt_pow2; [lia|]. rewrite Z.log2_lor by lia.
    assert (forall z, 0 <= z < 2 ^ 64 -> Z.log2 z < 64) as Hl.
    { intros z Hz. destruct (Z.eq_dec z 0) as [->|]; [simpl; lia|]. apply Z.log2_lt_pow2; lia. }
    apply Z.max_lub_lt; apply Hl; lia. }
  destruct (i =? 10); [simplify_eq; unfold in_u; lia|].
  destruct (byte_val c <? 128).
  - destruct ((i =? 9) && (1 <? byte_val c)); simplify_eq; [unfold in_u; lia|apply Hlor].
  - eapply IH in H; [done|lia|lia|apply Hlor].
Qed.

Lemma Uvarint_count buf v n : Uvarint buf = (v, n) -> 0 < n -> n <= Z.of_nat (length buf).
Proof. intros H Hn. apply uvarint_from_count in H; lia. Qed.

Lemma Uvarint_range buf v n : Uvarint buf = (v, n) -> in_u 64 v.
Proof. intros H. eapply uvarint_from_range; [..|exact H|]; unfold in_u; lia. Qed.

(** ** [hash/crc32], for a reflected polynomial *)
Section crc32.
Context (poly : Z).

Definition crc32_step (crc : Z) : Z :=
  if Z.land crc 1 =? 1 then Z.lxor (Z.shiftr crc 1) poly else Z.shiftr crc 1.

Definition crc32_entry (i : Z) : Z := Nat.iter 8 crc32_step i.

Definition crc32_update (crc : Z) (v : ascii) : Z :=
  Z.lxor (crc32_entry (Z.lxor (Z.land crc 255) (byte_val v))) (Z.shiftr crc 8).

Definition crc32_of (data : bytes) : Z :=
  wrap 32 (Z.lnot (fold_left crc32_update data (wrap 32 (Z.lnot 0)))).

Lemma crc32_of_range data : in_u 32 (crc32_of data).
Proof. apply wrap_range. lia. Qed.
End crc32.

Definition crc32_castagnoli : Z := 2197175160. (* 0x82f63b78 *)
Definition crc32_ieee : Z := 3988292384.       (* 0xedb88320 *)

Lemma unzigzag_range ux : in_u 64 ux -> in_s 64 (unzigzag ux).
Proof.
  unfold in_u, in_s, unzigzag. change (2 ^ 64) with 18446744073709551616.
  change (2 ^ (64 - 1)) with 9223372036854775808. intros Hx.
  rewrite Z.shiftr_div_pow2 by lia. change (2 ^ 1) with 2. unfold Z.lnot.
  assert (0 <= ux / 2 < 9223372036854775808).
  { split; [apply Z.div_pos; lia|apply Z.div_lt_upper_bound; lia]. }
  destruct (_ =? 0); lia.
Qed.

Lemma Varint_range buf v n : Varint buf = (v, n) -> in_s 64 v.
Proof.
  unfold Varint. destruct (Uvarint buf) as [ux m] eqn:E. intros. simplify_eq.
  eapply unzigzag_range, Uvarint_range, E.
Qed.

#[global] Arguments put_uvarint : simpl never.
#[global] Arguments wrap : simpl never.
#[global] Arguments swrap : simpl never.
