(* ===== verification/GoString.v ===== *)
(** * Go's [strings] and [strconv], on byte strings

    A Go string is a byte sequence, here a [string] of [ascii].  The functions
    of the standard library the program calls are defined on bytes; where Go
    decodes UTF-8 the definitions match on the encoded bytes.  The Unicode case
    tables are the one part that is not written out: [UnicodeTables] supplies
    them for strings that hold a non-ASCII byte. *)
From Stdlib Require Import Ascii.
From stdpp Require Import pretty.
From S2P Require Import Prelude.
From S2P Require Import GoInt.

Class UnicodeTables := {
  uni_lower : string -> string;             (* [strings.ToLower], non-ASCII argument *)
  uni_fold : string -> string -> bool       (* [strings.EqualFold], a non-ASCII argument *)
}.

(** The tables of a build without case pairs beyond ASCII: used to evaluate. *)
Definition ascii_tables : UnicodeTables :=
  {| uni_lower := fun s => s; uni_fold := fun s t => String.eqb s t |}.

Definition slen (s : string) : Z := Z.of_nat (String.length s).
Definition to_bytes (s : string) : bytes := String.list_ascii_of_string s.
Definition of_bytes (b : bytes) : string := String.string_of_list_ascii b.

Lemma of_to_bytes s : of_bytes (to_bytes s) = s.
Proof. apply String.string_of_list_ascii_of_string. Qed.
Lemma to_of_bytes b : to_bytes (of_bytes b) = b.
Proof. apply String.list_ascii_of_string_of_list_ascii. Qed.
Lemma length_to_bytes s : Z.of_nat (length (to_bytes s)) = slen s.
Proof. unfold slen, to_bytes. f_equal. induction s; simpl; congruence. Qed.
Lemma to_bytes_app s t : to_bytes (s +:+ t) = to_bytes s ++ to_bytes t.
Proof. unfold to_bytes. induction s; simpl; [done|]. rewrite <-IHs. done. Qed.
Lemma to_bytes_inj s t : to_bytes s = to_bytes t -> s = t.
Proof. intros H. rewrite <-(of_to_bytes s), <-(of_to_bytes t). by rewrite H. Qed.

#[export] Hint Rewrite of_to_bytes to_of_bytes : chatwire.

(** ** Bytes and classes of bytes *)
Definition in_range (lo hi : Z) (c : ascii) : bool := (lo <=? byte_val c) && (byte_val c <=? hi).
Definition is_digit : ascii -> bool := in_range 48 57.
Definition is_lower : ascii -> bool := in_range 97 122.
Definition is_upper : ascii -> bool := in_range 65 90.
Definition is_ascii_byte (c : ascii) : bool := byte_val c <? 128.

Fixpoint all_bytes (p : ascii -> bool) (s : string) : bool :=
  match s with
  | EmptyString => true
  | String c s => p c && all_bytes p s
  end.

Fixpoint map_bytes (f : ascii -> ascii) (s : string) : string :=
  match s with
  | EmptyString => EmptyString
  | String c s => String (f c) (map_bytes f s)
  end.

Lemma all_bytes_forall p s : all_bytes p s = true <-> Forall (fun c => p c = true) (to_bytes s).
Proof.
  induction s as [|c s IH]; simpl; [by split|].
  rewrite andb_true_iff, IH, Forall_cons. done.
Qed.

(** ** [strings.ToLower], [strings.EqualFold] *)
Definition lower_byte (c : ascii) : ascii :=
  if is_upper c then byte_of (byte_val c + 32) else c.

Section case_folding.
Context `{UnicodeTables}.

Definition ToLower (s : string) : string :=
  if all_bytes is_ascii_byte s then map_bytes lower_byte s else uni_lower s.

Definition EqualFold (s t : string) : bool :=
  if all_bytes is_ascii_byte s && all_bytes is_ascii_byte t
  then String.eqb (map_bytes lower_byte s) (map_bytes lower_byte t)
  else uni_fold s t.
End case_folding.

Lemma byte_cases (P : ascii -> bool) :
  forallb (fun n => P (byte_of (Z.of_nat n))) (seq 0 256) = true -> forall c, P c = true.
Proof.
  intros H c. rewrite forallb_forall in H.
  specialize (H (Z.to_nat (byte_val c))). pose proof (byte_val_range c).
  rewrite Z2Nat.id, byte_of_val in H by lia. apply H, in_seq. lia.
Qed.

Lemma lower_byte_idem c : lower_byte (lower_byte c) = lower_byte c.
Proof.
  apply byte_val_inj, Z.eqb_eq. revert c.
  apply (byte_cases (fun c => byte_val (lower_byte (lower_byte c)) =? byte_val (lower_byte c))).
  by vm_compute.
Qed.

Lemma lower_byte_ascii c : is_ascii_byte c = true -> is_ascii_byte (lower_byte c) = true.
Proof.
  intros Hc. apply (implb_true_iff (is_ascii_byte c)); [|done]. clear Hc. revert c.
  apply byte_cases. by vm_compute.
Qed.

Lemma map_lower_idem s : map_bytes lower_byte (map_bytes lower_byte s) = map_bytes lower_byte s.
Proof. induction s; simpl; [done|]. by rewrite lower_byte_idem, IHs. Qed.

Lemma map_lower_ascii s :
  all_bytes is_ascii_byte s = true -> all_bytes is_ascii_byte (map_bytes lower_byte s) = true.
Proof.
  induction s; simpl; [done|]. rewrite !andb_true_iff. intros [??].
  split; [by apply lower_byte_ascii|auto].
Qed.

Lemma ToLower_idem_ascii `{UnicodeTables} s :
  all_bytes is_ascii_byte s = true -> ToLower (ToLower s) = ToLower s.
Proof.
  intros Hs. unfold ToLower at 2 3. rewrite Hs. unfold ToLower.
  rewrite map_lower_ascii by done. apply map_lower_idem.
Qed.

Lemma EqualFold_refl_ascii `{UnicodeTables} s :
  all_bytes is_ascii_byte s = true -> EqualFold s s = true.
Proof. intros Hs. unfold EqualFold. rewrite Hs. apply String.eqb_refl. Qed.

(** ** Prefixes and suffixes *)
Definition HasPrefix (s p : string) : bool := String.prefix p s.

Fixpoint string_drop (n : nat) (s : string) : string :=
  match n, s with
  | O, _ => s
  | S n, String _ s => string_drop n s
  | S _, EmptyString => EmptyString
  end.

Fixpoint string_take (n : nat) (s : string) : string :=
  match n, s with
  | S n, String c s => String c (string_take n s)
  | _, _ => EmptyString
  end.

Definition TrimPrefix (s p : string) : string :=
  if HasPrefix s p then string_drop (String.length p) s else s.

Definition HasSuffix (s p : string) : bool :=
  (String.length p <=? String.length s)%nat &&
  String.eqb (string_drop (String.length s - String.length p) s) p.

Definition TrimSuffix (s p : string) : string :=
  if HasSuffix s p then string_take (String.length s - String.length p) s else s.

(** [strings.Contains]. *)
Fixpoint Contains (s sub : string) : bool :=
  HasPrefix s sub ||
  match s with
  | EmptyString => false
  | String _ s => Contains s sub
  end.

(** [strings.ContainsAny] for a set of ASCII bytes. *)
Fixpoint ContainsAny (s : string) (chars : list ascii) : bool :=
  match s with
  | EmptyString => false
  | String c s => existsb (Ascii.eqb c) chars || ContainsAny s chars
  end.

Lemma string_app_nil_r s : s +:+ "" = s.
Proof. induction s as [|c s IH]; [done|]. change (String c (s +:+ "") = String c s). by rewrite IH. Qed.

Lemma string_app_assoc s t u : (s +:+ t) +:+ u = s +:+ t +:+ u.
Proof.
  induction s as [|c s IH]; [done|].
  change (String c ((s +:+ t) +:+ u) = String c (s +:+ t +:+ u)). by rewrite IH.
Qed.

Lemma string_take_drop n s : string_take n s +:+ string_drop n s = s.
Proof. revert s. induction n; intros [|c s]; simpl; try done. by rewrite <-(IHn s) at 3. Qed.

Lemma string_drop_app s t : string_drop (String.length s) (s +:+ t) = t.
Proof. by induction s. Qed.

Lemma string_take_app s t : string_take (String.length s) (s +:+ t) = s.
Proof.
  induction s as [|c s IH]; simpl; [by destruct t|]. by rewrite IH.
Qed.

Lemma string_length_app s t : String.length (s +:+ t) = (String.length s + String.length t)%nat.
Proof. induction s; [done|]. simpl. by f_equal. Qed.

Lemma HasPrefix_app s t : HasPrefix (s +:+ t) s = true.
Proof.
  unfold HasPrefix. induction s as [|c s IH]; [by destruct t|].
  simpl. by destruct (ascii_dec c c).
Qed.

Lemma HasPrefix_spec s p : HasPrefix s p = true <-> exists t, s = p +:+ t.
Proof.
  split; [|intros [t ->]; apply HasPrefix_app].
  unfold HasPrefix. revert s. induction p as [|c p IH]; simpl; intros s H.
  { exists s. done. }
  destruct s as [|c' s]; [done|]. simpl in H. destruct (ascii_dec c c') as [->|]; [|done].
  destruct (IH _ H) as [t ->]. exists t. reflexivity.
Qed.

Lemma HasSuffix_spec s p : HasSuffix s p = true <-> exists t, s = t +:+ p.
Proof.
  unfold HasSuffix. rewrite andb_true_iff, Nat.leb_le, String.eqb_eq. split.
  - intros [Hle He]. exists (string_take (String.length s - String.length p) s).
    rewrite <-He at 2. by rewrite string_take_drop.
  - intros [t ->]. rewrite string_length_app. split; [lia|].
    replace (_ + _ - _)%nat with (String.length t) by lia. apply string_drop_app.
Qed.

Lemma TrimSuffix_app s p : TrimSuffix (s +:+ p) p = s.
Proof.
  unfold TrimSuffix. rewrite (proj2 (HasSuffix_spec _ _)) by eauto.
  rewrite string_length_app. replace (_ + _ - _)%nat with (String.length s) by lia.
  apply string_take_app.
Qed.

Lemma TrimPrefix_app s p : TrimPrefix (p +:+ s) p = s.
Proof. unfold TrimPrefix. rewrite HasPrefix_app. apply string_drop_app. Qed.

(** ** [strings.TrimSpace]

    The encodings of the code points [unicode.IsSpace] accepts, longest match
    being irrelevant since none is a prefix of another. *)
Definition byte_strings (l : list (list Z)) : list string :=
  (fun b => of_bytes (byte_of <$> b)) <$> l.

Definition space_encodings : list string := Eval vm_compute in byte_strings
  ([[9]; [10]; [11]; [12]; [13]; [32]; [194; 133]; [194; 160]; [225; 154; 128]]
   ++ ((fun k => [226; 128; k]) <$> [128; 129; 130; 131; 132; 133; 134; 135; 136; 137; 138; 168; 169; 175])
   ++ [[226; 129; 159]; [227; 128; 128]]).

Definition trim_left1 (s : string) : option string :=
  match list_find (fun p => HasPrefix s p = true) space_encodings with
  | Some (_, p) => Some (string_drop (String.length p) s)
  | None => None
  end.

Definition trim_right1 (s : string) : option string :=
  match list_find (fun p => HasSuffix s p = true) space_encodings with
  | Some (_, p) => Some (string_take (String.length s - String.length p) s)
  | None => None
  end.

Fixpoint trim_iter (f : string -> option string) (fuel : nat) (s : string) : string :=
  match fuel with
  | O => s
  | S n => match f s with Some s' => trim_iter f n s' | None => s end
  end.

Definition TrimSpace (s : string) : string :=
  let l := trim_iter trim_left1 (String.length s) s in
  trim_iter trim_right1 (String.length l) l.

(** ** [strings.Split] on a one-byte separator *)
Fixpoint split_go (sep : ascii) (cur s : string) : list string :=
  match s with
  | EmptyString => [cur]
  | String c s =>
      if Ascii.eqb c sep then cur :: split_go sep EmptyString s
      else split_go sep (cur +:+ String c EmptyString) s
  end.

Definition Split (s : string) (sep : ascii) : list string := split_go sep EmptyString s.

Fixpoint Join (l : list string) (sep : string) : string :=
  match l with
  | [] => EmptyString
  | [x] => x
  | x :: k => x +:+ sep +:+ Join k sep
  end.

(** ** [strconv.ParseUint] and [strconv.ParseInt], base 10, 64 bits *)
Fixpoint digits_val (acc : Z) (s : string) : option Z :=
  match s with
  | EmptyString => Some acc
  | String c s => if is_digit c then digits_val (acc * 10 + (byte_val c - 48)) s else None
  end.

Definition ParseUint (s : string) : option Z :=
  match s with
  | EmptyString => None
  | _ => n ← digits_val 0 s; if n <? 2 ^ 64 then Some n else None
  end.

Definition ParseInt (s : string) : option Z :=
  match s with
  | EmptyString => None
  | String c r =>
      let neg := Ascii.eqb c "-"%char in
      let body := if neg || Ascii.eqb c "+"%char then r else s in
      n ← ParseUint body;
      if neg then (if n <=? 2 ^ 63 then Some (- n) else None)
      else (if n <? 2 ^ 63 then Some n else None)
  end.

(** [strconv.Itoa]. *)
Definition Itoa (z : Z) : string := pretty z.

Lemma digits_val_range acc s n :
  0 <= acc -> digits_val acc s = Some n -> acc <= n.
Proof.
  revert acc. induction s as [|c s IH]; simpl; intros acc Ha H; [simplify_eq; lia|].
  destruct (is_digit c) eqn:E; [|done]. unfold is_digit, in_range in E.
  bool_hyps. apply IH in H; lia.
Qed.

Lemma ParseUint_range s n : ParseUint s = Some n -> in_u 64 n.
Proof.
  unfold ParseUint. destruct s as [|c s]; [done|]. intros H.
  apply bind_Some in H as (m & E & Em). apply (digits_val_range 0) in E; [|done].
  unfold in_u. destruct (m <? _) eqn:L; simplify_eq. bool_hyps. lia.
Qed.

Lemma ParseInt_range s n : ParseInt s = Some n -> in_s 64 n.
Proof.
  unfold ParseInt. destruct s as [|c s]; [done|]. intros H.
  apply bind_Some in H as (m & E & Em).
  apply ParseUint_range in E. unfold in_u, in_s in *. change (64 - 1) with 63.
  destruct (Ascii.eqb c "-"%char); [destruct (m <=? _) eqn:L|destruct (m <? _) eqn:L];
    simplify_eq; bool_hyps; lia.
Qed.

(** ** Order of strings, for [sort.Strings] *)
Definition sort_strings (l : list string) : list string := merge_sort String.le l.

Lemma sort_strings_perm l : sort_strings l ≡ₚ l.
Proof. apply merge_sort_Permutation. Qed.

Lemma elem_of_sort_strings x l : x ∈ sort_strings l <-> x ∈ l.
Proof. by rewrite sort_strings_perm. Qed.

Lemma NoDup_sort_strings l : NoDup (sort_strings l) <-> NoDup l.
Proof. by rewrite sort_strings_perm. Qed.
