(* ===== verification/GoBase64.v ===== *)
(** * [encoding/base64]

    The encoder and the non-strict decoder of the standard library, for the
    standard and the URL alphabet, with and without padding.  The decoder skips
    carriage returns and line feeds and ignores the unused low bits of the last
    digit, as Go's does outside [Strict] mode. *)
From Stdlib Require Import Ascii.
From S2P Require Import Prelude.
From S2P Require Import GoInt.
From S2P Require Import GoString.

Inductive alphabet := StdAlphabet | URLAlphabet.

Definition char_62 (a : alphabet) : Z := match a with StdAlphabet => 43 | URLAlphabet => 45 end.
Definition char_63 (a : alphabet) : Z := match a with StdAlphabet => 47 | URLAlphabet => 95 end.

Definition enc_digit (a : alphabet) (d : Z) : ascii :=
  byte_of (if d <? 26 then 65 + d else if d <? 52 then 97 + (d - 26)
           else if d <? 62 then 48 + (d - 52) else if d =? 62 then char_62 a else char_63 a).

Definition dec_digit (a : alphabet) (c : ascii) : option Z :=
  let v := byte_val c in
  if (65 <=? v) && (v <=? 90) then Some (v - 65)
  else if (97 <=? v) && (v <=? 122) then Some (v - 97 + 26)
  else if (48 <=? v) && (v <=? 57) then Some (v - 48 + 52)
  else if v =? char_62 a then Some 62
  else if v =? char_63 a then Some 63
  else None.

Lemma dec_enc_digit a d : 0 <= d < 64 -> dec_digit a (enc_digit a d) = Some d.
Proof.
  intros Hd.
  assert (H : forallb (fun n => match dec_digit a (enc_digit a (Z.of_nat n)) with
                                | Some e => e =? Z.of_nat n | None => false end) (seq 0 64) = true)
    by (destruct a; by vm_compute).
  rewrite forallb_forall in H. specialize (H (Z.to_nat d)).
  rewrite Z2Nat.id in H by lia. specialize (H ltac:(apply in_seq; lia)).
  destruct (dec_digit _ _); [|done]. by apply Z.eqb_eq in H as ->.
Qed.

Definition pad_char : ascii := "="%char.

Fixpoint b64_encode (a : alphabet) (pad : bool) (b : bytes) : bytes :=
  match b with
  | x :: y :: z :: b =>
      let v := byte_val x * 65536 + byte_val y * 256 + byte_val z in
      enc_digit a (v / 262144) :: enc_digit a (v / 4096 mod 64) :: enc_digit a (v / 64 mod 64)
      :: enc_digit a (v mod 64) :: b64_encode a pad b
  | [x; y] =>
      let v := byte_val x * 65536 + byte_val y * 256 in
      [enc_digit a (v / 262144); enc_digit a (v / 4096 mod 64); enc_digit a (v / 64 mod 64)]
      ++ (if pad then [pad_char] else [])
  | [x] =>
      let v := byte_val x * 65536 in
      [enc_digit a (v / 262144); enc_digit a (v / 4096 mod 64)]
      ++ (if pad then [pad_char; pad_char] else [])
  | [] => []
  end.

Definition quantum1 (d0 d1 : Z) : bytes := [byte_of ((d0 * 262144 + d1 * 4096) / 65536)].
Definition quantum2 (d0 d1 d2 : Z) : bytes :=
  let v := d0 * 262144 + d1 * 4096 + d2 * 64 in [byte_of (v / 65536); byte_of (v / 256)].
Definition quantum3 (d0 d1 d2 d3 : Z) : bytes :=
  let v := d0 * 262144 + d1 * 4096 + d2 * 64 + d3 in
  [byte_of (v / 65536); byte_of (v / 256); byte_of v].

Fixpoint b64_quanta (a : alphabet) (pad : bool) (l : bytes) : option bytes :=
  match l with
  | [] => Some []
  | [_] => None
  | c0 :: c1 :: l =>
      d0 ← dec_digit a c0;
      d1 ← dec_digit a c1;
      match l with
      | [] => if pad then None else Some (quantum1 d0 d1)
      | [c2] => if pad then None else (d2 ← dec_digit a c2; Some (quantum2 d0 d1 d2))
      | c2 :: c3 :: l =>
          if pad && Ascii.eqb c2 pad_char then
            if Ascii.eqb c3 pad_char then
              match l with [] => Some (quantum1 d0 d1) | _ => None end
            else None
          else
            d2 ← dec_digit a c2;
            if pad && Ascii.eqb c3 pad_char then
              match l with [] => Some (quantum2 d0 d1 d2) | _ => None end
            else
              d3 ← dec_digit a c3;
              rest ← b64_quanta a pad l;
              Some (quantum3 d0 d1 d2 d3 ++ rest)
      end
  end.

Definition is_newline (c : ascii) : bool := (byte_val c =? 10) || (byte_val c =? 13).

Definition b64_decode (a : alphabet) (pad : bool) (s : bytes) : option bytes :=
  b64_quanta a pad (List.filter (fun c => negb (is_newline c)) s).

(** The encodings the program uses. *)
Definition StdEncoding_Decode := b64_decode StdAlphabet true.
Definition RawStdEncoding_Decode := b64_decode StdAlphabet false.
Definition RawURLEncoding_Decode := b64_decode URLAlphabet false.
Definition RawURLEncoding_Encode := b64_encode URLAlphabet false.

Lemma enc_digit_not_newline a d : 0 <= d < 64 -> is_newline (enc_digit a d) = false.
Proof.
  intros Hd.
  assert (H : forallb (fun n => negb (is_newline (enc_digit a (Z.of_nat n)))) (seq 0 64) = true)
    by (destruct a; by vm_compute).
  rewrite forallb_forall in H. specialize (H (Z.to_nat d)).
  rewrite Z2Nat.id in H by lia. apply negb_true_iff, H, in_seq. lia.
Qed.

(** Three-byte steps through a byte list. *)
Lemma bytes_ind3 (P : bytes -> Prop) :
  P [] -> (forall x, P [x]) -> (forall x y, P [x; y]) ->
  (forall x y z b, P b -> P (x :: y :: z :: b)) -> forall b, P b.
Proof.
  intros H0 H1 H2 H3.
  exact (fix IH b := match b with
    | [] => H0 | [x] => H1 x | [x; y] => H2 x y
    | x :: y :: z :: b => H3 x y z b (IH b) end).
Qed.

Lemma pad_char_not_newline : is_newline pad_char = false.
Proof. done. Qed.

Lemma b64_encode_bytes (P : ascii -> Prop) a pad b :
  (forall d, 0 <= d < 64 -> P (enc_digit a d)) -> P pad_char -> Forall P (b64_encode a pad b).
Proof.
  intros Hd Hp.
  assert (Hmod : forall z, 0 <= z mod 64 < 64) by (intros; apply Z.mod_pos_bound; lia).
  assert (Hv : forall v, 0 <= v < 16777216 -> 0 <= v / 262144 < 64) by (intros; div_lia).
  induction b as [|x|x y|x y z b IH] using bytes_ind3; [apply Forall_nil_2|..];
    pose proof (byte_val_range x);
    [| pose proof (byte_val_range y) | pose proof (byte_val_range y); pose proof (byte_val_range z)];
    cbn [b64_encode app]; cbv zeta;
    repeat (apply Forall_cons; split; [apply Hd; first [apply Hmod | apply Hv; lia]|]).
  - destruct pad; [by repeat constructor|apply Forall_nil_2].
  - destruct pad; [by repeat constructor|apply Forall_nil_2].
  - exact IH.
Qed.

Lemma b64_encode_no_newline a pad b :
  Forall (fun c => is_newline c = false) (b64_encode a pad b).
Proof. apply b64_encode_bytes; [apply enc_digit_not_newline|apply pad_char_not_newline]. Qed.

Lemma filter_all_true {A} (f : A -> bool) l : Forall (fun x => f x = true) l -> List.filter f l = l.
Proof. induction 1 as [|x l Hx _ IH]; simpl; [done|]. by rewrite Hx, IH. Qed.

Lemma enc_digit_not_pad a d : 0 <= d < 64 -> Ascii.eqb (enc_digit a d) pad_char = false.
Proof.
  intros Hd. apply Ascii.eqb_neq. intros He.
  pose proof (dec_enc_digit a d Hd) as H. rewrite He in H. by destruct a.
Qed.

Lemma byte_of_eq z x : z mod 256 = byte_val x -> byte_of z = x.
Proof. intros H. apply byte_val_inj. by rewrite byte_val_of. Qed.

Lemma quanta_encode a pad b : b64_quanta a pad (b64_encode a pad b) = Some b.
Proof.
  induction b as [|x|x y|x y z b IH] using bytes_ind3; [done|..];
    pose proof (byte_val_range x);
    [| pose proof (byte_val_range y) | pose proof (byte_val_range y); pose proof (byte_val_range z)].
  - cbn [b64_encode].
    set (v := byte_val x * 65536).
    assert (Hd0 : 0 <= v / 262144 < 64) by (subst v; div_lia). assert (Hd1 : 0 <= v / 4096 mod 64 < 64) by (subst v; div_lia).
    assert (Hq : quantum1 (v / 262144) (v / 4096 mod 64) = [x]).
    { unfold quantum1. cbv zeta. f_equal; apply byte_of_eq; subst v; div_lia. }
    destruct pad; cbn [app b64_quanta]; rewrite !dec_enc_digit by done; cbn [mbind option_bind];
      rewrite ?andb_true_l, ?Ascii.eqb_refl; by rewrite Hq.
  - cbn [b64_encode].
    set (v := byte_val x * 65536 + byte_val y * 256).
    assert (Hd0 : 0 <= v / 262144 < 64) by (subst v; div_lia). assert (Hd1 : 0 <= v / 4096 mod 64 < 64) by (subst v; div_lia).
    assert (Hd2 : 0 <= v / 64 mod 64 < 64) by (subst v; div_lia).
    assert (Hq : quantum2 (v / 262144) (v / 4096 mod 64) (v / 64 mod 64) = [x; y]).
    { unfold quantum2. cbv zeta. f_equal; [|f_equal]; apply byte_of_eq; subst v; div_lia. }
    destruct pad; cbn [app b64_quanta]; rewrite !dec_enc_digit by done; cbn [mbind option_bind];
      rewrite ?andb_true_l, ?andb_false_l, ?enc_digit_not_pad, ?Ascii.eqb_refl by done; by rewrite Hq.
  - cbn [b64_encode].
    set (v := byte_val x * 65536 + byte_val y * 256 + byte_val z).
    assert (Hd0 : 0 <= v / 262144 < 64) by (subst v; div_lia). assert (Hd1 : 0 <= v / 4096 mod 64 < 64) by (subst v; div_lia).
    assert (Hd2 : 0 <= v / 64 mod 64 < 64) by (subst v; div_lia). assert (Hd3 : 0 <= v mod 64 < 64) by (subst v; div_lia).
    assert (Hq : quantum3 (v / 262144) (v / 4096 mod 64) (v / 64 mod 64) (v mod 64) = [x; y; z]).
    { unfold quantum3. cbv zeta. f_equal; [|f_equal; [|f_equal]]; apply byte_of_eq; subst v; div_lia. }
    cbn [b64_quanta]. rewrite !dec_enc_digit by done. cbn [mbind option_bind].
    rewrite !enc_digit_not_pad by done. rewrite andb_false_r. cbv zeta.
    rewrite IH. cbn [mbind option_bind].
    by rewrite Hq.
Qed.

Lemma b64_roundtrip a pad b : b64_decode a pad (b64_encode a pad b) = Some b.
Proof.
  unfold b64_decode. rewrite filter_all_true; [apply quanta_encode|].
  eapply Forall_impl; [apply b64_encode_no_newline|]. simpl. by intros c ->.
Qed.
