(* ===== verification/Glob.v ===== *)
(** * Shared data: [src/glob/struct.go] and the constants the components read *)
From S2P Require Import Prelude.

(** [glob.PlayerData]. *)
Record PlayerData := mkPlayer {
  pd_Name : string;
  pd_Level : Z;
  pd_ID : string;
  pd_BanReason : string;
  pd_Creation : Z;
  pd_LastSeen : Z;
  pd_Minutes : Z;
  pd_SusScore : Z;
  pd_AlreadyBanned : bool;
  pd_SpamScore : Z
}.

#[export] Instance PlayerData_eq_dec : EqDecision PlayerData.
Proof. solve_decision. Defined.

(** The zero value of the struct. *)
Definition zeroPlayer : PlayerData := mkPlayer "" 0 "" "" 0 0 0 0 false 0.

(** The fields that reach the disk: [Name], [AlreadyBanned] and [SpamScore] are
    tagged [json:"-"] and are not part of the binary record either. *)
Definition persisted (p : PlayerData) : PlayerData :=
  mkPlayer "" (pd_Level p) (pd_ID p) (pd_BanReason p) (pd_Creation p) (pd_LastSeen p)
    (pd_Minutes p) (pd_SusScore p) false 0.

Lemma persisted_idem p : persisted (persisted p) = persisted p.
Proof. done. Qed.

(** ** Constants of [src/constants/consts.go] *)
Definition SeenDivisor : Z := 60.
Definition SeenEpoch : Z := 1546326000.
Definition MaxNameLength : Z := 64.
Definition MaxBanReasonLength : Z := 1024.
Definition VeteranThresh : Z := 60 * 24 * 3.
