(* ===== verification/PlayerCodec.v ===== *)
(** * The player-database codec: [src/fact/playerdb_codec.go]

    The binary envelope (magic, version, codec, size, CRC32C, compressed
    payload), the record payload and its reader.  Zstandard and the JSON
    library are third-party packages: they are the classes [Zstd] and [Sonic],
    and [ZstdLaws] is what the code relies on. *)
From Stdlib Require Import Ascii.
From S2P Require Import Prelude.
From S2P Require Import GoInt.
From S2P Require Import GoString.
From S2P Require Import Glob.

(** ** Third-party packages *)
Class Zstd := {
  zstd_init : option string;                 (* error of [zstd.NewWriter]/[NewReader] *)
  zstd_EncodeAll : bytes -> bytes;
  zstd_DecodeAll : bytes -> option bytes
}.

Class Sonic := {
  sonic_MarshalIndent : gmap string (option PlayerData) -> bytes;
  sonic_Unmarshal : bytes -> option (gmap string (option PlayerData))
}.

(** ** Constants *)
Definition playerDBBinaryVersion : Z := 1.
Definition playerDBCodecZstd : Z := 1.
Definition playerDBHeaderSize : nat := 24.
Definition maxPlayerDBPayload : Z := Z.shiftl 512 20.
Definition maxPlayerDBRecords : Z := 5000000.
Definition maxPlayerDBString : Z := Z.shiftl 16 20.
Definition playerDBMagic : bytes := Eval vm_compute in to_bytes "CWPLAYER".

(** Decompression undoes compression for every payload within the memory limit
    the decoder is configured with. *)
Class ZstdLaws `{Zstd} : Prop :=
  zstd_roundtrip : forall p, Z.of_nat (length p) <= maxPlayerDBPayload ->
    zstd_DecodeAll (zstd_EncodeAll p) = Some p.

(** [crc32.Checksum(payload, playerDBCRC)]. *)
Definition crc32_Checksum : bytes -> Z := crc32_of crc32_castagnoli.

(** ** Errors *)
Inductive codec_err :=
  | UnsupportedFormat (format : string)
  | TooManyRecords (n : Z)
  | PlayerNull (name : string)
  | StringTooLong (name field : string) (len : Z)
  | PayloadTooLarge
  | CodecInit (msg : string)
  | HeaderTruncated
  | UnsupportedVersion (v : Z)
  | UnsupportedCodec (c : Z)
  | UnsupportedFlags (f : Z)
  | DeclaredTooLarge (n : Z)
  | DecompressFailed
  | SizeMismatch (got want : Z)
  | ChecksumMismatch (got want : Z)
  | UnexpectedEnd
  | IntegerOverflow
  | StringPastEnd
  | CountCannotFit (n : Z)
  | NameEmpty (i : Z)
  | DuplicateName (name : string)
  | LevelRange
  | TrailingBytes (n : Z)
  | DecodeJSON.

#[export] Instance codec_err_eq_dec : EqDecision codec_err.
Proof. solve_decision. Defined.

(** ** Format selection *)
Definition normalizePlayerDBFormat `{UnicodeTables} (format : string) : result codec_err string :=
  let f := ToLower (TrimSpace format) in
  if bool_decide (f = "") || bool_decide (f = "binary") then Ok "binary"
  else if bool_decide (f = "json") then Ok "json"
  else Err (UnsupportedFormat format).

(** ** Encoding *)
Definition appendPlayerDBString (name field : string) (dst : bytes) (value : string)
    : result codec_err bytes :=
  if maxPlayerDBString <? slen value then Err (StringTooLong name field (slen value))
  else Ok (AppendUvarint dst (slen value) ++ to_bytes value).

Definition encode_record (payload : bytes) (name : string) (player : PlayerData)
    : result codec_err bytes :=
  payload ← appendPlayerDBString name "name" payload name;
  let payload := AppendVarint payload (pd_Level player) in
  payload ← appendPlayerDBString name "ID" payload (pd_ID player);
  payload ← appendPlayerDBString name "ban reason" payload (pd_BanReason player);
  let payload := AppendVarint payload (pd_Creation player) in
  let payload := AppendVarint payload (pd_LastSeen player) in
  let payload := AppendVarint payload (pd_Minutes player) in
  let payload := AppendVarint payload (pd_SusScore player) in
  if maxPlayerDBPayload <? Z.of_nat (length payload) then Err PayloadTooLarge else Ok payload.

Fixpoint encode_records (players : gmap string (option PlayerData)) (keys : list string)
    (payload : bytes) : result codec_err bytes :=
  match keys with
  | [] => Ok payload
  | name :: keys =>
      match players !! name with
      | Some (Some p) =>
          payload ← encode_record payload name p;
          encode_records players keys payload
      | _ => Err (PlayerNull name)
      end
  end.

(** The loop that collects the keys stops at the first null player the map
    iteration meets; the iteration order is the one of [map_to_list]. *)
Fixpoint collect_keys (l : list (string * option PlayerData)) : result codec_err (list string) :=
  match l with
  | [] => Ok []
  | (name, None) :: _ => Err (PlayerNull name)
  | (name, Some _) :: l => keys ← collect_keys l; Ok (name :: keys)
  end.

Definition encode_payload (players : gmap string (option PlayerData)) : result codec_err bytes :=
  if maxPlayerDBRecords <? Z.of_nat (size players)
  then Err (TooManyRecords (Z.of_nat (size players)))
  else
    keys ← collect_keys (map_to_list players);
    let keys := sort_strings keys in
    encode_records players keys (AppendUvarint [] (Z.of_nat (length keys))).

Definition playerDBEnvelope (payload compressed : bytes) : bytes :=
  playerDBMagic ++ le_put 2 playerDBBinaryVersion ++ [byte_of playerDBCodecZstd; byte_of 0]
  ++ le_put 8 (Z.of_nat (length payload)) ++ le_put 4 (crc32_Checksum payload) ++ compressed.

Definition encodeBinaryPlayerDatabase `{Zstd} (players : gmap string (option PlayerData))
    : result codec_err bytes :=
  payload ← encode_payload players;
  match zstd_init with
  | Some msg => Err (CodecInit msg)
  | None => Ok (playerDBEnvelope payload (zstd_EncodeAll payload))
  end.

Definition encodePlayerDatabase `{UnicodeTables, Zstd, Sonic}
    (players : gmap string (option PlayerData)) (format : string) : result codec_err bytes :=
  format ← normalizePlayerDBFormat format;
  if bool_decide (format = "json") then Ok (sonic_MarshalIndent players)
  else encodeBinaryPlayerDatabase players.

(** ** The reader *)
Record playerDBReader := mkReader { rd_data : bytes; rd_off : nat }.

Definition rd_advance (r : playerDBReader) (n : Z) : playerDBReader :=
  mkReader (rd_data r) (rd_off r + Z.to_nat n).

Definition rd_varint_of (dec : bytes -> Z * Z) (r : playerDBReader)
    : result codec_err (Z * playerDBReader) :=
  let '(value, size) := dec (drop (rd_off r) (rd_data r)) in
  if size =? 0 then Err UnexpectedEnd
  else if size <? 0 then Err IntegerOverflow
  else Ok (value, rd_advance r size).

Definition rd_uvarint : playerDBReader -> result codec_err (Z * playerDBReader) := rd_varint_of Uvarint.
Definition rd_varint : playerDBReader -> result codec_err (Z * playerDBReader) := rd_varint_of Varint.

Definition rd_string (r : playerDBReader) : result codec_err (string * playerDBReader) :=
  '(size, r) ← rd_uvarint r;
  if maxPlayerDBString <? size then Err (StringTooLong "" "" size)
  else if Z.of_nat (length (rd_data r)) - Z.of_nat (rd_off r) <? size then Err StringPastEnd
  else Ok (of_bytes (take (Z.to_nat size) (drop (rd_off r) (rd_data r))), rd_advance r size).

(** ** Decoding *)
Definition decode_record (i : Z) (players : gmap string (option PlayerData)) (r : playerDBReader)
    : result codec_err (gmap string (option PlayerData) * playerDBReader) :=
  '(name, r) ← rd_string r;
  guard_err (bool_decide (name <> "")) (NameEmpty i);;
  guard_err (bool_decide (players !! name = None)) (DuplicateName name);;
  '(level, r) ← rd_varint r;
  guard_err (swrap 64 level =? level) LevelRange;;
  '(id, r) ← rd_string r;
  '(banReason, r) ← rd_string r;
  '(creation, r) ← rd_varint r;
  '(lastSeen, r) ← rd_varint r;
  '(minutes, r) ← rd_varint r;
  '(susScore, r) ← rd_varint r;
  Ok (<[name := Some (mkPlayer "" level id banReason creation lastSeen minutes susScore false 0)]> players, r).

Fixpoint decode_records (n : nat) (i : Z) (players : gmap string (option PlayerData))
    (r : playerDBReader) : result codec_err (gmap string (option PlayerData) * playerDBReader) :=
  match n with
  | O => Ok (players, r)
  | S n =>
      '(players, r) ← decode_record i players r;
      decode_records n (i + 1) players r
  end.

Definition minimumRecordSize : Z := 9.

Definition decodePlayerDBPayload (payload : bytes)
    : result codec_err (gmap string (option PlayerData)) :=
  '(count, r) ← rd_uvarint (mkReader payload 0);
  guard_err (count <=? maxPlayerDBRecords) (TooManyRecords count);;
  guard_err (count <=? 2 ^ 63 - 1) (CountCannotFit count);;
  guard_err (count <=? (Z.of_nat (length payload) - Z.of_nat (rd_off r)) / minimumRecordSize)
    (CountCannotFit count);;
  '(players, r) ← decode_records (Z.to_nat count) 0 ∅ r;
  guard_err (Z.of_nat (rd_off r) =? Z.of_nat (length payload))
    (TrailingBytes (Z.of_nat (length payload) - Z.of_nat (rd_off r)));;
  Ok players.

Definition slice (i j : nat) (b : bytes) : bytes := take (j - i) (drop i b).
Definition byte_at (i : nat) (b : bytes) : Z := le_get (slice i (S i) b).

Definition decodeBinaryPlayerDatabase `{Zstd} (data : bytes)
    : result codec_err (gmap string (option PlayerData)) :=
  guard_err (bool_decide (playerDBHeaderSize <= length data)%nat) HeaderTruncated;;
  let version := le_get (slice 8 10 data) in
  guard_err (version =? playerDBBinaryVersion) (UnsupportedVersion version);;
  guard_err (byte_at 10 data =? playerDBCodecZstd) (UnsupportedCodec (byte_at 10 data));;
  guard_err (byte_at 11 data =? 0) (UnsupportedFlags (byte_at 11 data));;
  let expectedSize := le_get (slice 12 20 data) in
  guard_err (expectedSize <=? maxPlayerDBPayload) (DeclaredTooLarge expectedSize);;
  match zstd_init with
  | Some msg => Err (CodecInit msg)
  | None =>
      match zstd_DecodeAll (drop playerDBHeaderSize data) with
      | None => Err DecompressFailed
      | Some payload =>
          guard_err (Z.of_nat (length payload) =? expectedSize)
            (SizeMismatch (Z.of_nat (length payload)) expectedSize);;
          let want := le_get (slice 20 24 data) in
          guard_err (crc32_Checksum payload =? want) (ChecksumMismatch (crc32_Checksum payload) want);;
          decodePlayerDBPayload payload
      end
  end.

(** [decodePlayerDatabase] returns the players, the format it detected and the
    error; the format is returned on failure too. *)
Definition decodePlayerDatabase `{Zstd, Sonic} (data : bytes)
    : result codec_err (gmap string (option PlayerData)) * string :=
  if bool_decide (length data = 0%nat) then (Ok ∅, "")
  else if bool_decide (length playerDBMagic <= length data)%nat
       && bool_decide (take (length playerDBMagic) data = playerDBMagic)
  then (decodeBinaryPlayerDatabase data, "binary")
  else
    (match sonic_Unmarshal data with
     | None => Err DecodeJSON
     | Some players =>
         match collect_keys (map_to_list players) with
         | Err e => Err e
         | Ok _ => Ok players
         end
     end, "json").

(** ** Lemmas on the reader

    [at_suffix d r s]: the reader of [d] stands at the start of [s]. *)
Definition at_suffix (d : bytes) (r : playerDBReader) (s : bytes) : Prop :=
  rd_data r = d /\ exists pre, d = pre ++ s /\ rd_off r = length pre.

Lemma at_suffix_drop d r s : at_suffix d r s -> drop (rd_off r) (rd_data r) = s.
Proof. intros (-> & pre & -> & ->). apply drop_app_exact. Qed.

Lemma at_suffix_advance d r s t n :
  at_suffix d r (s ++ t) -> n = Z.of_nat (length s) -> at_suffix d (rd_advance r n) t.
Proof.
  intros (Hd & pre & Hp & Ho) ->. split; [done|]. exists (pre ++ s). simpl.
  rewrite Hp, Ho, app_assoc, length_app, Nat2Z.id. done.
Qed.

Lemma rd_varint_of_put d dec r put x rest :
  at_suffix d r (put ++ rest) -> (1 <= length put)%nat ->
  dec (put ++ rest) = (x, Z.of_nat (length put)) ->
  exists r', rd_varint_of dec r = Ok (x, r') /\ at_suffix d r' rest.
Proof.
  intros Hr Hlen Hdec. unfold rd_varint_of. rewrite (at_suffix_drop _ _ _ Hr), Hdec.
  rewrite (proj2 (Z.eqb_neq _ _)), (proj2 (Z.ltb_ge _ _)) by lia.
  eexists. split; [done|]. by eapply at_suffix_advance.
Qed.

Lemma rd_uvarint_put d r x rest :
  at_suffix d r (put_uvarint 9 x ++ rest) -> in_u 64 x ->
  exists r', rd_uvarint r = Ok (x, r') /\ at_suffix d r' rest.
Proof.
  intros. eapply rd_varint_of_put; [done|apply put_uvarint_nonempty|by apply Uvarint_put].
Qed.

Lemma rd_varint_put d r x rest :
  at_suffix d r (put_uvarint 9 (zigzag x) ++ rest) -> in_s 64 x ->
  exists r', rd_varint r = Ok (x, r') /\ at_suffix d r' rest.
Proof.
  intros. eapply rd_varint_of_put; [done|apply put_uvarint_nonempty|by apply Varint_put].
Qed.

Definition put_string (s : string) : bytes := put_uvarint 9 (slen s) ++ to_bytes s.

Lemma slen_nonneg s : 0 <= slen s.
Proof. unfold slen. lia. Qed.

Lemma rd_string_put d r s rest :
  at_suffix d r (put_string s ++ rest) -> slen s <= maxPlayerDBString ->
  exists r', rd_string r = Ok (s, r') /\ at_suffix d r' rest.
Proof.
  unfold put_string. rewrite <-app_assoc. intros Hr Hs.
  assert (Hu : in_u 64 (slen s)).
  { pose proof (slen_nonneg s). unfold in_u, maxPlayerDBString in *.
    change (Z.shiftl 16 20) with 16777216 in Hs. lia. }
  destruct (rd_uvarint_put _ _ _ _ Hr Hu) as (r1 & H1 & Hr1).
  unfold rd_string. rewrite H1. simpl.
  rewrite (proj2 (Z.ltb_ge _ _)) by done.
  pose proof Hr1 as (Hd & pre & Hp & Ho).
  rewrite (proj2 (Z.ltb_ge _ _)) by (rewrite Hd, Hp, Ho, !length_app, <-length_to_bytes; lia).
  eexists. split.
  - rewrite (at_suffix_drop _ _ _ Hr1), <-length_to_bytes, Nat2Z.id, take_app_exact.
    by rewrite of_to_bytes.
  - apply (at_suffix_advance _ _ (to_bytes s)); [done|]. by rewrite length_to_bytes.
Qed.

(** ** The record format *)
Definition put_record (name : string) (p : PlayerData) : bytes :=
  put_string name ++ put_uvarint 9 (zigzag (pd_Level p)) ++ put_string (pd_ID p)
  ++ put_string (pd_BanReason p) ++ put_uvarint 9 (zigzag (pd_Creation p))
  ++ put_uvarint 9 (zigzag (pd_LastSeen p)) ++ put_uvarint 9 (zigzag (pd_Minutes p))
  ++ put_uvarint 9 (zigzag (pd_SusScore p)).

(** What Go's types and the size limits guarantee of an encodable record. *)
Record valid_player (p : PlayerData) : Prop := {
  vp_level : in_s 64 (pd_Level p);
  vp_creation : in_s 64 (pd_Creation p);
  vp_seen : in_s 64 (pd_LastSeen p);
  vp_minutes : in_s 64 (pd_Minutes p);
  vp_sus : in_s 64 (pd_SusScore p);
  vp_id : slen (pd_ID p) <= maxPlayerDBString;
  vp_ban : slen (pd_BanReason p) <= maxPlayerDBString
}.

Lemma appendPlayerDBString_ok n f dst v out :
  appendPlayerDBString n f dst v = Ok out <->
  slen v <= maxPlayerDBString /\ out = dst ++ put_string v.
Proof.
  unfold appendPlayerDBString, AppendUvarint, put_string. rewrite <-app_assoc.
  destruct (Z.ltb_spec maxPlayerDBString (slen v)); split.
  - intros [=].
  - intros [? _]. lia.
  - intros [= <-]. done.
  - by intros [_ ->].
Qed.

Lemma encode_record_ok payload name p out :
  encode_record payload name p = Ok out ->
  slen name <= maxPlayerDBString /\ slen (pd_ID p) <= maxPlayerDBString /\
  slen (pd_BanReason p) <= maxPlayerDBString /\ out = payload ++ put_record name p /\
  Z.of_nat (length out) <= maxPlayerDBPayload.
Proof.
  unfold encode_record, AppendVarint, AppendUvarint, put_record. intros H.
  apply result_bind_ok in H as (? & [? ->]%appendPlayerDBString_ok & E1).
  apply result_bind_ok in E1 as (? & [? ->]%appendPlayerDBString_ok & E2).
  apply result_bind_ok in E2 as (? & [? ->]%appendPlayerDBString_ok & E3).
  rewrite <-!app_assoc in *.
  destruct (_ <? _) eqn:L; simplify_eq. apply Z.ltb_ge in L. done.
Qed.

Lemma put_record_length name p : name <> "" -> (9 <= length (put_record name p))%nat.
Proof.
  intros Hn. unfold put_record, put_string. rewrite !length_app.
  pose proof (put_uvarint_nonempty 9 (slen name)).
  pose proof (put_uvarint_nonempty 9 (slen (pd_ID p))).
  pose proof (put_uvarint_nonempty 9 (slen (pd_BanReason p))).
  pose proof (put_uvarint_nonempty 9 (zigzag (pd_Level p))).
  pose proof (put_uvarint_nonempty 9 (zigzag (pd_Creation p))).
  pose proof (put_uvarint_nonempty 9 (zigzag (pd_LastSeen p))).
  pose proof (put_uvarint_nonempty 9 (zigzag (pd_Minutes p))).
  pose proof (put_uvarint_nonempty 9 (zigzag (pd_SusScore p))).
  assert (1 <= length (to_bytes name))%nat by (destruct name; [done|simpl; lia]). lia.
Qed.

Lemma decode_record_put d i players r name p rest :
  at_suffix d r (put_record name p ++ rest) ->
  name <> "" -> slen name <= maxPlayerDBString -> valid_player p -> players !! name = None ->
  exists r', decode_record i players r = Ok (<[name := Some (persisted p)]> players, r') /\
             at_suffix d r' rest.
Proof.
  intros Hr Hn Hl [] Hnone. unfold put_record in Hr. rewrite <-!app_assoc in Hr.
  unfold decode_record.
  destruct (rd_string_put _ _ _ _ Hr Hl) as (r1 & -> & Hr1). simpl.
  rewrite bool_decide_eq_true_2 by done. simpl. rewrite bool_decide_eq_true_2 by done. simpl.
  destruct (rd_varint_put _ _ _ _ Hr1) as (r2 & -> & Hr2); [done|]. simpl.
  rewrite swrap_small, Z.eqb_refl by (done || lia). simpl.
  destruct (rd_string_put _ _ _ _ Hr2) as (r3 & -> & Hr3); [done|]. simpl.
  destruct (rd_string_put _ _ _ _ Hr3) as (r4 & -> & Hr4); [done|]. simpl.
  destruct (rd_varint_put _ _ _ _ Hr4) as (r5 & -> & Hr5); [done|]. simpl.
  destruct (rd_varint_put _ _ _ _ Hr5) as (r6 & -> & Hr6); [done|]. simpl.
  destruct (rd_varint_put _ _ _ _ Hr6) as (r7 & -> & Hr7); [done|]. simpl.
  destruct (rd_varint_put _ _ _ _ Hr7) as (r8 & -> & Hr8); [done|]. simpl.
  exists r8. done.
Qed.

(** ** Records in key order *)
Lemma collect_keys_ok l keys :
  collect_keys l = Ok keys -> keys = l.*1 /\ Forall (fun x => is_Some x.2) l.
Proof.
  revert keys. induction l as [|[name [p|]] l IH]; simpl; intros keys H; [by simplify_eq| |done].
  inv_ok. destruct (IH _ H) as [-> ?]. split; [done|]. constructor; [by eexists|done].
Qed.

(** The players of a key list, read back from the map. *)
Definition all_valid (players : gmap string (option PlayerData)) : Prop :=
  map_Forall (fun name p => name <> "" /\ slen name <= maxPlayerDBString /\
                 exists q, p = Some q /\ valid_player q) players.

Definition persisted_db (players : gmap string (option PlayerData)) : gmap string (option PlayerData) :=
  (fun p : option PlayerData => persisted <$> p) <$> players.

Fixpoint records_of (players : gmap string (option PlayerData)) (keys : list string) : bytes :=
  match keys with
  | [] => []
  | name :: keys =>
      match players !! name with
      | Some (Some p) => put_record name p
      | _ => []
      end ++ records_of players keys
  end.

Lemma encode_records_ok players keys payload out :
  encode_records players keys payload = Ok out -> out = payload ++ records_of players keys.
Proof.
  revert payload. induction keys as [|name keys IH]; simpl; intros payload H.
  { simplify_eq. by rewrite app_nil_r. }
  destruct (players !! name) as [[p|]|]; try done.
  apply result_bind_ok in H as (a & Ha & Hrec).
  apply encode_record_ok in Ha as (_ & _ & _ & -> & _).
  apply IH in Hrec as ->. by rewrite app_assoc.
Qed.

Lemma records_of_length players keys :
  all_valid players -> (forall k, k ∈ keys -> is_Some (players !! k)) ->
  (9 * length keys <= length (records_of players keys))%nat.
Proof.
  intros Hv. induction keys as [|name keys IH]; intros Hk; simpl; [lia|].
  destruct (Hk name) as [p Hp]; [by left|].
  destruct (Hv _ _ Hp) as (Hn & _ & q & -> & _). rewrite Hp, length_app.
  pose proof (put_record_length name q Hn). specialize (IH (fun k Hk' => Hk k (list_elem_of_further _ _ _ Hk'))).
  lia.
Qed.

Lemma decode_records_put d players keys i acc r :
  all_valid players -> NoDup keys -> (forall k, k ∈ keys -> is_Some (players !! k)) ->
  (forall k, k ∈ keys -> acc !! k = None) ->
  at_suffix d r (records_of players keys) ->
  exists r', decode_records (length keys) i acc r =
      Ok (list_to_map (omap (fun k => p ← players !! k; Some (k, persisted <$> p)) keys) ∪ acc, r')
    /\ at_suffix d r' [].
Proof.
  intros Hv. revert i acc r. induction keys as [|name keys IH]; intros i acc r Hnd Hk Hacc Hr.
  { exists r. simpl. rewrite map_empty_union. done. }
  apply NoDup_cons in Hnd as [Hnotin Hnd].
  destruct (Hk name) as [p Hp]; [by left|].
  destruct (Hv _ _ Hp) as (Hn & Hl & q & -> & Hq). simpl in Hr. rewrite Hp in Hr.
  destruct (decode_record_put d i acc r name q _ Hr Hn Hl Hq) as (r1 & H1 & Hr1);
    [by apply Hacc; left|].
  cbn [length decode_records]. rewrite H1. simpl.
  destruct (IH (i + 1) (<[name := Some (persisted q)]> acc) r1) as (r2 & H2 & Hr2); [done|..|done|].
  - intros k ?. apply Hk. by right.
  - intros k ?. rewrite lookup_insert_ne by (intros ->; done). apply Hacc. by right.
  - exists r2. split; [|done]. rewrite H2. f_equal. f_equal.
    rewrite Hp. simpl. rewrite <-insert_union_l, insert_union_r; [done|].
    apply not_elem_of_list_to_map_1. rewrite list_elem_of_fmap.
    intros ([k v] & -> & Hin). apply list_elem_of_omap in Hin as (k' & Hk' & E).
    destruct (players !! k'); simplify_eq/=.
Qed.

Lemma list_to_map_keys players keys :
  NoDup keys -> (forall k, k ∈ keys <-> is_Some (players !! k)) ->
  list_to_map (omap (fun k => p ← players !! k; Some (k, persisted <$> p)) keys)
  = persisted_db players.
Proof.
  intros Hnd Hk. apply map_eq. intros k. unfold persisted_db. rewrite lookup_fmap.
  set (l := omap _ keys).
  assert (Hfst : l.*1 = keys).
  { subst l. assert (forall k, k ∈ keys -> is_Some (players !! k)) as Hs by naive_solver.
    clear -Hs. induction keys as [|x keys IH]; [done|]. simpl.
    destruct (Hs x) as [p ->]; [by left|]. simpl. f_equal. apply IH.
    intros; apply Hs; by right. }
  destruct (players !! k) as [p|] eqn:Hp; simpl.
  - apply elem_of_list_to_map_1; [by rewrite Hfst|].
    apply list_elem_of_omap. exists k. rewrite Hp. split; [by apply Hk; eexists|done].
  - apply not_elem_of_list_to_map_1. rewrite Hfst, Hk, Hp. by intros [].
Qed.

(** ** The envelope *)
Lemma slice_mid pre mid post i j :
  length pre = i -> length mid = (j - i)%nat -> slice i j (pre ++ mid ++ post) = mid.
Proof. intros <- H. unfold slice. by apply drop_take_app. Qed.

Section envelope.
Context (payload compressed : bytes).
Notation env := (playerDBEnvelope payload compressed).

Lemma envelope_magic : take 8 env = playerDBMagic.
Proof. done. Qed.

Lemma envelope_version : le_get (slice 8 10 env) = playerDBBinaryVersion.
Proof. done. Qed.

Lemma envelope_codec : byte_at 10 env = playerDBCodecZstd /\ byte_at 11 env = 0.
Proof. done. Qed.

Lemma envelope_split :
  env = (playerDBMagic ++ le_put 2 playerDBBinaryVersion ++ [byte_of playerDBCodecZstd; byte_of 0])
        ++ le_put 8 (Z.of_nat (length payload)) ++ le_put 4 (crc32_Checksum payload) ++ compressed.
Proof. unfold playerDBEnvelope. by rewrite <-!app_assoc. Qed.

Lemma envelope_size :
  Z.of_nat (length payload) < 2 ^ 64 ->
  le_get (slice 12 20 env) = Z.of_nat (length payload).
Proof.
  intros H. rewrite envelope_split, slice_mid by (done || by rewrite length_le_put).
  apply le_get_put_u. unfold in_u. change (8 * Z.of_nat 8) with 64. lia.
Qed.

Lemma crc32_range : in_u 32 (crc32_Checksum payload).
Proof. apply crc32_of_range. Qed.

Lemma envelope_crc : le_get (slice 20 24 env) = crc32_Checksum payload.
Proof.
  rewrite envelope_split, app_assoc, slice_mid;
    [|by rewrite !length_app, length_le_put|by rewrite length_le_put].
  apply le_get_put_u, crc32_range.
Qed.

Lemma envelope_body : drop playerDBHeaderSize env = compressed.
Proof.
  rewrite envelope_split, !app_assoc.
  replace playerDBHeaderSize with (length (((playerDBMagic ++ le_put 2 playerDBBinaryVersion ++
    [byte_of playerDBCodecZstd; byte_of 0]) ++ le_put 8 (Z.of_nat (length payload)))
    ++ le_put 4 (crc32_Checksum payload))); [apply drop_app_exact|].
  rewrite !length_app, !length_le_put. done.
Qed.

Lemma envelope_length : (playerDBHeaderSize <= length env)%nat.
Proof. rewrite envelope_split, !length_app, !length_le_put. unfold playerDBHeaderSize. simpl. lia. Qed.
End envelope.
#[export] Hint Rewrite envelope_version envelope_crc envelope_body : chatwire.

(** ** Payload round trip *)
(** Their integers that are on disk; the score of spam is not. *)
Definition int_fields_ok (p : PlayerData) : Prop :=
  in_s 64 (pd_Level p) /\ in_s 64 (pd_Creation p) /\ in_s 64 (pd_LastSeen p) /\
  in_s 64 (pd_Minutes p) /\ in_s 64 (pd_SusScore p).

(** Go's field types, for the players a database holds. *)
Definition db_typed (players : gmap string (option PlayerData)) : Prop :=
  map_Forall (fun _ p => forall q, p = Some q -> int_fields_ok q) players.

Lemma encode_records_valid players keys payload out :
  encode_records players keys payload = Ok out ->
  Z.of_nat (length payload) <= maxPlayerDBPayload ->
  Z.of_nat (length out) <= maxPlayerDBPayload /\
  forall k, k ∈ keys -> exists q, players !! k = Some (Some q) /\ slen k <= maxPlayerDBString /\
    slen (pd_ID q) <= maxPlayerDBString /\ slen (pd_BanReason q) <= maxPlayerDBString.
Proof.
  revert payload. induction keys as [|name keys IH]; simpl; intros payload H Hlen.
  { simplify_eq. split; [done|]. intros k Hk. by apply not_elem_of_nil in Hk. }
  destruct (players !! name) as [[p|]|] eqn:Hp; try done.
  apply result_bind_ok in H as (a & Ha & Hrec).
  apply encode_record_ok in Ha as (? & ? & ? & -> & ?).
  destruct (IH _ Hrec) as [? Hk]; [done|]. split; [done|].
  intros k [->|Hin]%elem_of_cons; [|by apply Hk]. by exists p.
Qed.

Lemma encode_payload_ok players payload :
  encode_payload players = Ok payload ->
  let keys := sort_strings (map_to_list players).*1 in
  payload = put_uvarint 9 (Z.of_nat (length keys)) ++ records_of players keys /\
  Z.of_nat (length keys) <= maxPlayerDBRecords /\
  Z.of_nat (length payload) <= maxPlayerDBPayload /\
  forall k, k ∈ keys -> exists q, players !! k = Some (Some q) /\ slen k <= maxPlayerDBString /\
    slen (pd_ID q) <= maxPlayerDBString /\ slen (pd_BanReason q) <= maxPlayerDBString.
Proof.
  unfold encode_payload. intros H. destruct (_ <? _) eqn:L; [done|]. apply Z.ltb_ge in L.
  apply result_bind_ok in H as (ks & Hks & H). apply collect_keys_ok in Hks as [-> _].
  set (keys := sort_strings (map_to_list players).*1) in *.
  assert (Hlen : length keys = size players).
  { subst keys. rewrite sort_strings_perm, length_fmap, length_map_to_list. done. }
  apply encode_records_valid in H as Hv.
  - destruct Hv as [Hsz Hv]. apply encode_records_ok in H as ->.
    unfold AppendUvarint in *. simpl in *. rewrite Hlen in *. done.
  - unfold AppendUvarint. simpl. clear -L Hlen.
    assert (length (put_uvarint 9 (Z.of_nat (length keys))) <= 10)%nat.
    { generalize (Z.of_nat (length keys)). intros z.
      assert (forall f x, (length (put_uvarint f x) <= S f)%nat) as Hf; [|apply Hf].
      clear. induction f; intros; unfold put_uvarint; [simpl; lia|]. fold put_uvarint.
      destruct (128 <=? x); simpl; [|lia]. specialize (IHf (Z.shiftr x 7)). lia. }
    unfold maxPlayerDBPayload. change (Z.shiftl 512 20) with 536870912. lia.
Qed.

Lemma keys_iff (players : gmap string (option PlayerData)) k :
  k ∈ sort_strings (map_to_list players).*1 <-> is_Some (players !! k).
Proof.
  rewrite elem_of_sort_strings, list_elem_of_fmap. split.
  - intros ([k' v] & -> & H). apply elem_of_map_to_list in H. by eexists.
  - intros [v H]. exists (k, v). by rewrite elem_of_map_to_list.
Qed.

Lemma decode_encode_payload players payload :
  players !! "" = None -> db_typed players -> encode_payload players = Ok payload ->
  decodePlayerDBPayload payload = Ok (persisted_db players).
Proof.
  intros Hempty Htyped Henc. apply encode_payload_ok in Henc as (Hp & Hcnt & Hsz & Hvalid).
  set (keys := sort_strings (map_to_list players).*1) in *.
  assert (Hnd : NoDup keys) by apply NoDup_sort_strings, NoDup_fst_map_to_list.
  assert (Hall : all_valid players).
  { intros k p Hk. destruct (Hvalid k) as (q & Hq & ? & ? & ?); [by apply keys_iff; eexists|].
    simplify_eq. split; [by intros ->; simplify_eq|]. split; [done|]. exists q. split; [done|].
    destruct (Htyped _ _ Hk q eq_refl) as (?&?&?&?&?). by constructor. }
  assert (Hu : in_u 64 (Z.of_nat (length keys))).
  { unfold in_u, maxPlayerDBRecords in *. lia. }
  unfold decodePlayerDBPayload.
  destruct (rd_uvarint_put payload (mkReader payload 0) (Z.of_nat (length keys)) (records_of players keys))
    as (r1 & H1 & Hr1); [split; [done|by exists []]|done|].
  rewrite H1. cbn [mbind result_bind].
  rewrite guard_err_bind by by apply Z.leb_le.
  rewrite guard_err_bind by (apply Z.leb_le; unfold maxPlayerDBRecords in Hcnt; lia).
  pose proof (records_of_length players keys Hall (fun k => proj1 (keys_iff players k))) as Hrl.
  rewrite guard_err_bind.
  2: { apply Z.leb_le. unfold minimumRecordSize. apply Z.div_le_lower_bound; [lia|].
       destruct Hr1 as (_ & pre & Hpre & ->). rewrite Hpre, length_app. lia. }
  rewrite Nat2Z.id.
  destruct (decode_records_put payload players keys 0 ∅ r1) as (r2 & -> & Hr2); try done.
  { intros k. apply keys_iff. }
  cbn [mbind result_bind]. rewrite (list_to_map_keys players keys); [|done|intros k; apply keys_iff].
  rewrite map_union_empty. rewrite guard_err_bind; [done|].
  destruct Hr2 as (_ & pre & Hpre & Ho). rewrite Ho, Hpre, app_nil_r. apply Z.eqb_refl.
Qed.

(** ** What decoding guarantees *)
Lemma rd_varint_range r v r' : rd_varint r = Ok (v, r') -> in_s 64 v.
Proof.
  unfold rd_varint, rd_varint_of. destruct (Varint _) as [x n] eqn:E. intros H.
  destruct (n =? 0); [done|]. destruct (n <? 0); [done|]. simplify_eq. by eapply Varint_range.
Qed.

Lemma rd_string_limit r v r' : rd_string r = Ok (v, r') -> slen v <= maxPlayerDBString.
Proof.
  unfold rd_string. intros H. apply result_bind_ok in H as ([size r1] & H1 & H).
  destruct (maxPlayerDBString <? size) eqn:L; [done|]. apply Z.ltb_ge in L.
  destruct (_ <? size); [done|]. injection H as <- <-.
  rewrite <-length_to_bytes, to_of_bytes, length_take.
  unfold rd_uvarint, rd_varint_of in H1. destruct (Uvarint _) as [x n] eqn:E.
  destruct (n =? 0); [done|]. destruct (n <? 0); [done|]. injection H1 as -> <-.
  apply Uvarint_range in E. unfold in_u in E. lia.
Qed.

(** The shape of a decoded player: the fields not on disk are zero. *)
Definition decoded_player (p : option PlayerData) : Prop :=
  exists q, p = Some q /\ valid_player q /\ persisted q = q.

Definition decoded_db (players : gmap string (option PlayerData)) : Prop :=
  map_Forall (fun name p => name <> "" /\ slen name <= maxPlayerDBString /\ decoded_player p) players.

Lemma decode_record_decoded i players r players' r' :
  decode_record i players r = Ok (players', r') -> decoded_db players ->
  decoded_db players' /\ exists name p, players !! name = None /\ players' = <[name := p]> players.
Proof.
  unfold decode_record. intros H Hdb.
  apply result_bind_ok in H as ([name r1] & Hname & H).
  apply result_bind_ok in H as ([] & Hne & H).
  apply result_bind_ok in H as ([] & Hnone & H).
  apply result_bind_ok in H as ([level r2] & Hlevel & H).
  apply result_bind_ok in H as ([] & _ & H).
  apply result_bind_ok in H as ([id r3] & Hid & H).
  apply result_bind_ok in H as ([ban r4] & Hban & H).
  apply result_bind_ok in H as ([creation r5] & Hc & H).
  apply result_bind_ok in H as ([seen r6] & Hs & H).
  apply result_bind_ok in H as ([minutes r7] & Hm & H).
  apply result_bind_ok in H as ([sus r8] & Hu & H).
  apply guard_err_ok, bool_decide_eq_true in Hne. apply guard_err_ok, bool_decide_eq_true in Hnone.
  injection H as <- <-. split; [|by eauto].
  apply map_Forall_insert_2; [|done]. split_and!; [done|by eapply rd_string_limit|].
  eexists. split_and!; [done| |done].
  constructor; simpl; eauto using rd_varint_range, rd_string_limit.
Qed.

Lemma decode_records_decoded n i players r players' r' :
  decode_records n i players r = Ok (players', r') -> decoded_db players ->
  decoded_db players' /\ size players' = (n + size players)%nat.
Proof.
  revert i players r. induction n as [|n IH]; simpl; intros i players r H Hdb; [by simplify_eq|].
  apply result_bind_ok in H as ([players1 r1] & H1 & H2).
  destruct (decode_record_decoded _ _ _ _ _ H1 Hdb) as (Hdb1 & name & p & Hnone & ->).
  destruct (IH _ _ _ H2 Hdb1) as [? ->]. split; [done|].
  rewrite map_size_insert_None by done. lia.
Qed.

Lemma decodePlayerDBPayload_decoded payload players :
  decodePlayerDBPayload payload = Ok players ->
  decoded_db players /\ Z.of_nat (size players) <= maxPlayerDBRecords.
Proof.
  unfold decodePlayerDBPayload. intros H.
  apply result_bind_ok in H as ([count r] & Hcount & H).
  apply result_bind_ok in H as ([] & Hmax%guard_err_ok%Z.leb_le & H).
  apply result_bind_ok in H as ([] & _ & H).
  apply result_bind_ok in H as ([] & _ & H).
  apply result_bind_ok in H as ([players1 r1] & H1 & H).
  apply result_bind_ok in H as ([] & _ & H). injection H as <-.
  destruct (decode_records_decoded _ _ _ _ _ _ H1) as [Hdb Hsize]; [apply map_Forall_empty|].
  split; [done|]. rewrite Hsize, map_size_empty.
  unfold rd_uvarint, rd_varint_of in Hcount. destruct (Uvarint _) as [x n] eqn:E.
  destruct (n =? 0); [done|]. destruct (n <? 0); [done|]. injection Hcount as -> <-.
  apply Uvarint_range in E. unfold in_u in E. lia.
Qed.

Lemma decoded_db_typed players : decoded_db players -> db_typed players.
Proof.
  intros Hdb k p Hk q ->. destruct (Hdb _ _ Hk) as (_ & _ & q' & Hq & [] & _).
  simplify_eq. by unfold int_fields_ok.
Qed.

Lemma decoded_db_persisted players : decoded_db players -> persisted_db players = players.
Proof.
  intros Hdb. apply map_eq. intros k. unfold persisted_db. rewrite lookup_fmap.
  destruct (players !! k) as [p|] eqn:Hk; [|done].
  destruct (Hdb _ _ Hk) as (_ & _ & q & -> & _ & Hp). simpl. by rewrite Hp.
Qed.

Lemma decoded_db_no_empty players : decoded_db players -> players !! "" = None.
Proof. intros Hdb. apply eq_None_not_Some. intros [p Hp]. by destruct (Hdb _ _ Hp). Qed.

Lemma decodeBinary_envelope `{ZstdLaws} payload :
  zstd_init = None -> Z.of_nat (length payload) <= maxPlayerDBPayload ->
  decodeBinaryPlayerDatabase (playerDBEnvelope payload (zstd_EncodeAll payload))
  = decodePlayerDBPayload payload.
Proof.
  intros Hinit Hlen. unfold decodeBinaryPlayerDatabase.
  assert (Hsz : Z.of_nat (length payload) < 2 ^ 64).
  { unfold maxPlayerDBPayload in Hlen. change (Z.shiftl 512 20) with 536870912 in Hlen. lia. }
  rewrite guard_err_bind by (apply bool_decide_eq_true, envelope_length).
  rewrite guard_err_bind by by rewrite envelope_version.
  rewrite guard_err_bind by by rewrite (proj1 (envelope_codec _ _)).
  rewrite guard_err_bind by by rewrite (proj2 (envelope_codec _ _)).
  rewrite envelope_size by done. rewrite guard_err_bind by by apply Z.leb_le.
  rewrite Hinit, envelope_body, zstd_roundtrip by done.
  rewrite guard_err_bind by apply Z.eqb_refl.
  rewrite guard_err_bind by (rewrite envelope_crc; apply Z.eqb_refl). done.
Qed.

Lemma decode_envelope `{Zstd, Sonic} payload compressed :
  decodePlayerDatabase (playerDBEnvelope payload compressed)
  = (decodeBinaryPlayerDatabase (playerDBEnvelope payload compressed), "binary").
Proof.
  pose proof (envelope_length payload compressed) as Hl. unfold playerDBHeaderSize in Hl.
  unfold decodePlayerDatabase. rewrite bool_decide_eq_false_2 by lia.
  rewrite bool_decide_eq_true_2 by (simpl; lia). by rewrite bool_decide_eq_true_2.
Qed.

Lemma encode_binary_ok `{UnicodeTables, Zstd, Sonic} players data :
  encodePlayerDatabase players "binary" = Ok data ->
  exists payload, encode_payload players = Ok payload /\ zstd_init = None /\
    data = playerDBEnvelope payload (zstd_EncodeAll payload).
Proof.
  unfold encodePlayerDatabase, encodeBinaryPlayerDatabase. simpl. intros H'.
  apply result_bind_ok in H' as (payload & Hp & H'). exists payload.
  destruct zstd_init; [done|]. by injection H' as <-.
Qed.

(** The empty name sorts first. *)
Lemma sort_strings_empty_first l :
  "" ∈ l -> exists k, sort_strings l = "" :: k.
Proof.
  intros Hin. rewrite <-elem_of_sort_strings in Hin.
  pose proof (StronglySorted_merge_sort String.le l) as Hs. fold (sort_strings l) in Hs.
  destruct (sort_strings l) as [|x k]; [by apply not_elem_of_nil in Hin|].
  exists k. f_equal. apply elem_of_cons in Hin as [<-|Hin]; [done|].
  apply StronglySorted_inv in Hs as [_ Hx]. rewrite Forall_forall in Hx.
  apply (anti_symm String.le); [by apply Hx|]. destruct x; exact I.
Qed.

Lemma decode_record_empty_name i players r p rest :
  forall d, at_suffix d r (put_record "" p ++ rest) -> decode_record i players r = Err (NameEmpty i).
Proof.
  intros d Hr. unfold put_record in Hr. rewrite <-!app_assoc in Hr. unfold decode_record.
  destruct (rd_string_put _ _ _ _ Hr) as (r1 & -> & Hr1); [by vm_compute|]. done.
Qed.

(** ** Properties *)

(** C37: a database in which no player has the empty name, written in the
    binary format, reads back, record for record, as the players it was written from,
    less the fields that are not on disk.  (A database with the empty name is written,
    too, but cannot be read: [empty_name_unreadable].) *)
Theorem playerdb_roundtrip `{UnicodeTables, ZstdLaws, Sonic} players data :
  players !! "" = None -> db_typed players ->
  encodePlayerDatabase players "binary" = Ok data ->
  decodePlayerDatabase data = (Ok (persisted_db players), "binary").
Proof.
  intros Hne Hty (payload & Hp & Hinit & ->)%encode_binary_ok.
  rewrite decode_envelope. f_equal.
  destruct (encode_payload_ok _ _ Hp) as (_ & _ & Hlen & _).
  rewrite decodeBinary_envelope by done. by apply decode_encode_payload.
Qed.

Definition zstd_id : Zstd :=
  {| zstd_init := None; zstd_EncodeAll := fun p => p; zstd_DecodeAll := fun p => Some p |}.
Definition sonic_none : Sonic :=
  {| sonic_MarshalIndent := fun _ => []; sonic_Unmarshal := fun _ => None |}.
Definition sample_player : PlayerData := mkPlayer "alice" 2 "1234" "" 17 (-3) 400 1 true 9.
Definition sample_db : gmap string (option PlayerData) :=
  {["bob" := Some sample_player; "alice" := Some sample_player]}.

Lemma sample_db_typed : db_typed sample_db.
Proof.
  unfold sample_db. repeat apply map_Forall_insert_2; try apply map_Forall_empty;
  intros q [= <-]; unfold int_fields_ok, in_s; by vm_compute.
Defined.

Lemma playerdb_roundtrip_witness :
  exists data, @encodePlayerDatabase ascii_tables zstd_id sonic_none sample_db "binary" = Ok data
    /\ @decodePlayerDatabase zstd_id sonic_none data = (Ok (persisted_db sample_db), "binary").
Proof.
  eexists. split; [vm_compute; reflexivity|].
  apply (@playerdb_roundtrip ascii_tables zstd_id (fun _ _ => eq_refl) sonic_none sample_db);
    [reflexivity|exact sample_db_typed|vm_compute; reflexivity].
Defined.

(** whatever the bytes, a payload that decodes yields a database whose names
    are non-empty and within the limits, whose integers fit their Go types, and
    which encoding and decoding leave unchanged. *)
Theorem decoded_payload_stable payload players payload' :
  decodePlayerDBPayload payload = Ok players ->
  Z.of_nat (size players) <= maxPlayerDBRecords /\ decoded_db players /\
  (encode_payload players = Ok payload' -> decodePlayerDBPayload payload' = Ok players).
Proof.
  intros H. apply decodePlayerDBPayload_decoded in H as [Hdb ?]. split_and!; [done..|].
  intros Henc. rewrite <-(decoded_db_persisted players Hdb) at 1.
  apply decode_encode_payload; [by apply decoded_db_no_empty|by apply decoded_db_typed|done].
Qed.

Definition sample_payload : bytes :=
  match encode_payload sample_db with Ok p => p | Err _ => [] end.

Lemma decoded_payload_stable_witness :
  decodePlayerDBPayload sample_payload = Ok (persisted_db sample_db) /\
  Z.of_nat (size (persisted_db sample_db)) <= maxPlayerDBRecords /\
  decoded_db (persisted_db sample_db).
Proof.
  assert (H : decodePlayerDBPayload sample_payload = Ok (persisted_db sample_db)) by vm_decide.
  split; [exact H|]. destruct (decoded_payload_stable _ _ [] H) as (H1 & H2 & _). exact (conj H1 H2).
Defined.

(** a file the binary decoder accepts has the magic, the supported version,
    codec and flags, a declared size within the limit, and a payload of exactly
    that size whose CRC32C is the stored one; anything else is an error. *)
Theorem decodeBinary_checked `{Zstd} data players :
  decodeBinaryPlayerDatabase data = Ok players ->
  (24 <= length data)%nat /\ le_get (slice 8 10 data) = 1 /\ byte_at 10 data = 1 /\
  byte_at 11 data = 0 /\
  exists payload, zstd_DecodeAll (drop 24 data) = Some payload /\
    Z.of_nat (length payload) = le_get (slice 12 20 data) /\
    Z.of_nat (length payload) <= maxPlayerDBPayload /\
    crc32_Checksum payload = le_get (slice 20 24 data) /\
    decodePlayerDBPayload payload = Ok players.
Proof.
  unfold decodeBinaryPlayerDatabase. intros Hd.
  apply result_bind_ok in Hd as ([] & Hlen%guard_err_ok%bool_decide_eq_true & Hd).
  apply result_bind_ok in Hd as ([] & Hv%guard_err_ok%Z.eqb_eq & Hd).
  apply result_bind_ok in Hd as ([] & Hc%guard_err_ok%Z.eqb_eq & Hd).
  apply result_bind_ok in Hd as ([] & Hf%guard_err_ok%Z.eqb_eq & Hd).
  apply result_bind_ok in Hd as ([] & Hs%guard_err_ok%Z.leb_le & Hd).
  split_and!; [done..|]. destruct zstd_init; [done|].
  destruct (zstd_DecodeAll _) as [payload|] eqn:E; [|done]. exists payload.
  apply result_bind_ok in Hd as ([] & Hz%guard_err_ok%Z.eqb_eq & Hd).
  apply result_bind_ok in Hd as ([] & Hcrc%guard_err_ok%Z.eqb_eq & Hd).
  rewrite Hz. done.
Qed.

Definition sample_file : bytes :=
  match @encodePlayerDatabase ascii_tables zstd_id sonic_none sample_db "binary" with
  | Ok d => d | Err _ => []
  end.

Lemma decodeBinary_checked_witness :
  @decodeBinaryPlayerDatabase zstd_id sample_file = Ok (persisted_db sample_db) /\
  byte_at 11 sample_file = 0.
Proof.
  assert (H : @decodeBinaryPlayerDatabase zstd_id sample_file = Ok (persisted_db sample_db))
    by vm_decide.
  split; [exact H|].
  destruct (@decodeBinary_checked zstd_id _ _ H) as (_ & _ & _ & H1 & _). exact H1.
Defined.

(** a database that holds a player under the empty name (a JSON file can)
    is written in the binary format without an error, and the file written is
    then refused by the decoder. *)
Theorem empty_name_unreadable `{UnicodeTables, ZstdLaws, Sonic} players p data :
  players !! "" = Some p -> encodePlayerDatabase players "binary" = Ok data ->
  exists e, decodePlayerDatabase data = (Err e, "binary").
Proof.
  intros He (payload & Hp & Hinit & ->)%encode_binary_ok. rewrite decode_envelope.
  destruct (encode_payload_ok _ _ Hp) as (Hpay & Hcnt & Hlen & Hvalid).
  rewrite decodeBinary_envelope by done.
  destruct (sort_strings_empty_first (map_to_list players).*1) as [k Hk].
  { rewrite <-elem_of_sort_strings. apply keys_iff. by eexists. }
  rewrite Hk in *. destruct (Hvalid "") as (q & Hq & _); [by left|].
  destruct (rd_uvarint_put payload (mkReader payload 0) (Z.of_nat (length ("" :: k))) (records_of players ("" :: k)))
    as (r1 & Hrd & Hr1).
  { split; [done|]. by exists []. }
  { unfold in_u, maxPlayerDBRecords in *. lia. }
  destruct (decodePlayerDBPayload payload) as [players'|e] eqn:Hdec; [exfalso|by exists e].
  unfold decodePlayerDBPayload in Hdec.
  apply result_bind_ok in Hdec as ([count r] & Hr & Hdec). rewrite Hrd in Hr. injection Hr as <- <-.
  apply result_bind_ok in Hdec as ([] & _ & Hdec).
  apply result_bind_ok in Hdec as ([] & _ & Hdec).
  apply result_bind_ok in Hdec as ([] & _ & Hdec).
  apply result_bind_ok in Hdec as ([players1 r2] & Hloop & _).
  rewrite Nat2Z.id in Hloop. simpl in Hloop, Hr1. rewrite Hq in Hr1.
  by rewrite (decode_record_empty_name _ _ _ _ _ _ Hr1) in Hloop.
Qed.

Definition empty_name_db : gmap string (option PlayerData) := {["" := Some sample_player]}.

Lemma empty_name_unreadable_witness :
  exists data, @encodePlayerDatabase ascii_tables zstd_id sonic_none empty_name_db "binary" = Ok data
    /\ exists e, @decodePlayerDatabase zstd_id sonic_none data = (Err e, "binary").
Proof.
  eexists. split; [vm_compute; reflexivity|].
  apply (@empty_name_unreadable ascii_tables zstd_id (fun _ _ => eq_refl) sonic_none
           empty_name_db (Some sample_player)); [vm_decide|vm_compute; reflexivity].
Defined.
