(* ===== verification/MapExchange.v ===== *)
(** * The map exchange string parser: [src/fact/mapExchange.go]

    The sticky-error binary parser as a state monad over [mapExchangeParser],
    the readers of every settings table in the order the code calls them, and
    [ParseMapExchangeString].  Values of Go's [interface{}] are [mval]; a
    [float64] is kept in the exact form it was read or computed in ([gofloat]).
    Decompression (package zlib) and the JSON branch are the class [Inflate]. *)
From Stdlib Require Import Ascii.
From S2P Require Import Prelude.
From S2P Require Import GoInt.
From S2P Require Import GoString.
From S2P Require Import GoBase64.

(** ** Values *)
Inductive gofloat :=
  | F32 (bits : Z)          (* [float64(math.Float32frombits(bits))] *)
  | F64 (bits : Z)          (* [math.Float64frombits(bits)] *)
  | Fix256 (n : Z).         (* the float64 [n / 256], exact below [2^53] *)

Inductive mval :=
  | VNil
  | VBool (b : bool)
  | VInt (z : Z)
  | VFloat (f : gofloat)
  | VStr (s : string)
  | VArr (l : list mval)
  | VNilArr                 (* a nil [[]interface{}] *)
  | VMap (l : list (string * mval))
  | VNilMap.                (* a nil [map[string]interface{}] *)

Inductive mx_err :=
  | EndedUnexpectedly (pos : Z)
  | StringTooBig (size : Z)
  | ArrayTooLarge (size : Z)
  | DictTooLarge (size : Z)
  | BadResearchQueue (index : Z).

Record mapExchangeParser := mkMx {
  mx_data : bytes;
  mx_pos : Z;
  mx_err_ : option mx_err;
  mx_X : Z;                 (* [lastPosition], in units of 1/256 *)
  mx_Y : Z
}.

Definition newMapExchangeParser (data : bytes) : mapExchangeParser := mkMx data 0 None 0 0.

Definition with_pos (n : Z) (p : mapExchangeParser) := mkMx (mx_data p) n (mx_err_ p) (mx_X p) (mx_Y p).
Definition with_err (e : option mx_err) (p : mapExchangeParser) := mkMx (mx_data p) (mx_pos p) e (mx_X p) (mx_Y p).
Definition with_last (x y : Z) (p : mapExchangeParser) := mkMx (mx_data p) (mx_pos p) (mx_err_ p) x y.

(** The methods of [*mapExchangeParser]: a result and the parser they leave. *)
Definition M (A : Type) : Type := mapExchangeParser -> A * mapExchangeParser.
#[export] Instance M_ret : MRet M := fun A a p => (a, p).
#[export] Instance M_bind : MBind M := fun A B f m p => let '(a, q) := m p in f a q.

(** ** Primitive readers *)
Definition setErr (e : mx_err) : M unit := fun p =>
  (tt, match mx_err_ p with None => with_err (Some e) p | Some _ => p end).

Definition readBytes (n : Z) : M (option bytes) := fun p =>
  match mx_err_ p with
  | Some _ => (None, p)
  | None =>
      if (n <? 0) || (Z.of_nat (length (mx_data p)) <? mx_pos p + n)
      then (None, snd (setErr (EndedUnexpectedly (mx_pos p)) p))
      else (Some (take (Z.to_nat n) (drop (Z.to_nat (mx_pos p)) (mx_data p))),
            with_pos (mx_pos p + n) p)
  end.

Definition readUint8 : M Z := b ← readBytes 1; mret (match b with None => 0 | Some b => le_get b end).
Definition readBool : M bool := v ← readUint8; mret (negb (v =? 0)).
Definition readInt16 : M Z := b ← readBytes 2; mret (match b with None => 0 | Some b => swrap 16 (le_get b) end).
Definition readUint16 : M Z := b ← readBytes 2; mret (match b with None => 0 | Some b => le_get b end).
Definition readInt32 : M Z := b ← readBytes 4; mret (match b with None => 0 | Some b => swrap 32 (le_get b) end).
Definition readUint32 : M Z := b ← readBytes 4; mret (match b with None => 0 | Some b => le_get b end).

Definition readUint32SO : M Z :=
  value ← readUint8;
  if value =? 255 then readUint32 else mret value.

Definition readFloat : M gofloat := v ← readUint32; mret (F32 v).
Definition readDouble : M gofloat :=
  b ← readBytes 8; mret (match b with None => F64 0 | Some b => F64 (le_get b) end).

Definition remaining : M Z := fun p => (wrap 32 (Z.of_nat (length (mx_data p)) - mx_pos p), p).

Definition readString : M string :=
  size ← readUint32SO;
  rest ← remaining;
  if rest <? size then setErr (StringTooBig size);; mret ""
  else b ← readBytes size; mret (match b with None => "" | Some b => of_bytes b end).

Definition readVersion : M (Z * Z * Z * Z) :=
  a ← readUint16; b ← readUint16; c ← readUint16; d ← readUint16; mret (a, b, c, d).

Fixpoint versionAtLeast (version target : list Z) : bool :=
  match version, target with
  | v :: version, t :: target =>
      if t <? v then true else if v <? t then false else versionAtLeast version target
  | _, _ => true
  end.

(** ** Combinators *)
Definition readOptional (readValue : M mval) : M mval :=
  b ← readBool;
  if (b : bool) then readValue else mret VNil.

Definition failed : M bool := fun p => (match mx_err_ p with None => false | Some _ => true end, p).

(** [for i := 0; i < size && p.err == nil; i++]. *)
Fixpoint loop_items {A} (n : nat) (item : A -> M A) (acc : A) : M A :=
  match n with
  | O => mret acc
  | S n =>
      e ← failed;
      if (e : bool) then mret acc
      else acc ← item acc; loop_items n item acc
  end.

Definition readArray (readItem : M mval) : M mval :=
  size ← readUint32SO;
  if 100000 <? size then setErr (ArrayTooLarge size);; mret VNilArr
  else
    out ← loop_items (Z.to_nat size) (fun out => v ← readItem; mret (out ++ [v])) [];
    mret (VArr out).

Definition readStringArray : M mval := readArray (s ← readString; mret (VStr s)).

(** [m[key] = v] on the entries of a map. *)
Fixpoint map_put (key : string) (v : mval) (m : list (string * mval)) : list (string * mval) :=
  match m with
  | [] => [(key, v)]
  | (k, w) :: m => if String.eqb k key then (k, v) :: m else (k, w) :: map_put key v m
  end.

Definition readStringDict (readValue : M mval) : M mval :=
  size ← readUint32SO;
  if 100000 <? size then setErr (DictTooLarge size);; mret VNilMap
  else
    out ← loop_items (Z.to_nat size)
            (fun out => key ← readString; v ← readValue; mret (map_put key v out)) [];
    mret (VMap out).

(** A map literal or a run of [settings[key] = p.read...()] statements: the
    readers run in the order they are written. *)
Fixpoint read_fields (l : list (string * M mval)) (m : list (string * mval)) : M (list (string * mval)) :=
  match l with
  | [] => mret m
  | (k, r) :: l => v ← r; read_fields l (map_put k v m)
  end.

Definition map_of (l : list (string * M mval)) : M mval := m ← read_fields l []; mret (VMap m).

Definition vbool : M mval := b ← readBool; mret (VBool b).
Definition vfloat : M mval := f ← readFloat; mret (VFloat f).
Definition vdouble : M mval := f ← readDouble; mret (VFloat f).
Definition vu32 : M mval := z ← readUint32; mret (VInt z).
Definition vi16 : M mval := z ← readInt16; mret (VInt z).
Definition vi32 : M mval := z ← readInt32; mret (VInt z).
Definition vstring : M mval := s ← readString; mret (VStr s).
Definition vconst (v : mval) : M mval := mret v.
Definition optb : M mval := readOptional vbool.
Definition optd : M mval := readOptional vdouble.
Definition optu : M mval := readOptional vu32.

(** ** Map generation settings *)
Definition readFrequencySizeRichness : M mval :=
  map_of [("frequency", vfloat); ("size", vfloat); ("richness", vfloat)].

Definition readAutoplaceSetting : M mval :=
  map_of [("treat_missing_as_default", vbool); ("settings", readStringDict readFrequencySizeRichness)].

Definition setLast (x y : Z) : M unit := fun p => (tt, with_last x y p).
Definition getLast : M (Z * Z) := fun p => ((mx_X p, mx_Y p), p).

Definition readMapPosition : M mval :=
  xDiff ← readInt16;
  '(x, y) ← (if xDiff =? 32767
             then x ← readInt32; y ← readInt32; mret (x, y)
             else yDiff ← readInt16; '(lx, ly) ← getLast; mret (lx + xDiff, ly + yDiff));
  setLast x y;;
  mret (VMap [("x", VFloat (Fix256 x)); ("y", VFloat (Fix256 y))]).

Definition readBoundingBox : M mval :=
  map_of [("left_top", readMapPosition); ("right_bottom", readMapPosition);
          ("orientation", map_of [("x", vi16); ("y", vi16)])].

Definition readCliffSettings (atLeastV2 : bool) : M mval :=
  settings ← read_fields [("name", vstring)] [];
  (if atLeastV2 then readUint8;; mret tt else mret tt);;
  settings ← read_fields [("cliff_elevation_0", vfloat); ("cliff_elevation_interval", vfloat);
                          ("richness", vfloat)] settings;
  settings ← (if atLeastV2 then read_fields [("cliff_smoothing", vfloat)] settings else mret settings);
  mret (VMap settings).

Definition readTerritorySettings : M mval :=
  map_of [("units", readStringArray); ("territory_index_expression", vstring);
          ("territory_variation_expression", vstring); ("minimum_territory_size", vu32)].

Definition readMapGenSettings (atLeastV2 : bool) : M (list (string * mval)) :=
  '(terrainSegmentation, water) ←
    (if atLeastV2 then mret (F64 0, F64 0)
     else t ← readFloat; w ← readFloat; mret (t, w));
  settings ← read_fields [
    ("autoplace_controls", readStringDict readFrequencySizeRichness);
    ("autoplace_settings", readStringDict readAutoplaceSetting);
    ("default_enable_all_autoplace_controls", vbool);
    ("seed", vu32); ("width", vu32); ("height", vu32);
    ("area_to_generate_at_start", readBoundingBox);
    ("starting_area", vfloat);
    ("peaceful_mode", vbool);
    ("starting_points", vconst VNil);
    ("property_expression_names", vconst VNil);
    ("cliff_settings", vconst VNil)] [];
  settings ← (if atLeastV2 then read_fields [("no_enemies_mode", vbool)] settings else mret settings);
  settings ← read_fields [
    ("starting_points", readArray readMapPosition);
    ("property_expression_names", readStringDict vstring);
    ("cliff_settings", readCliffSettings atLeastV2)] settings;
  if atLeastV2 then
    territorySettings ← readOptional readTerritorySettings;
    mret (match territorySettings with
          | VNil => settings
          | v => map_put "territory_settings" v settings
          end)
  else mret (map_put "water" (VFloat water)
               (map_put "terrain_segmentation" (VFloat terrainSegmentation) settings)).

(** ** Map settings *)
Definition readPollution : M mval :=
  map_of [("enabled", optb); ("diffusion_ratio", optd); ("min_to_diffuse", optd); ("ageing", optd);
          ("expected_max_per_chunk", optd); ("min_to_show_per_chunk", optd);
          ("min_pollution_to_damage_trees", optd); ("pollution_with_max_forest_damage", optd);
          ("pollution_per_tree_damage", optd); ("pollution_restored_per_tree_damage", optd);
          ("max_pollution_to_restore_trees", optd);
          ("enemy_attack_pollution_consumption_modifier", optd)].

Definition readRealSteering : M mval :=
  map_of [("radius", optd); ("separation_factor", optd); ("separation_force", optd);
          ("force_unit_fuzzy_goto_behavior", optb)].

Definition readSteering : M mval :=
  map_of [("default", readRealSteering); ("moving", readRealSteering)].

Definition readEnemyEvolution : M mval :=
  map_of [("enabled", optb); ("time_factor", optd); ("destroy_factor", optd); ("pollution_factor", optd)].

Definition readEnemyExpansion (atLeastV21 : bool) : M mval :=
  settings ← read_fields [("enabled", optb); ("max_expansion_distance", optu)] [];
  settings ← (if atLeastV21 then read_fields [("min_expansion_distance", optu)] settings else mret settings);
  settings ← read_fields [
    ("friendly_base_influence_radius", optu); ("enemy_building_influence_radius", optu);
    ("building_coefficient", optd); ("other_base_coefficient", optd);
    ("neighbouring_chunk_coefficient", optd); ("neighbouring_base_chunk_coefficient", optd);
    ("max_colliding_tiles_coefficient", optd); ("settler_group_min_size", optu);
    ("settler_group_max_size", optu)] settings;
  settings ← (if atLeastV21 then read_fields [("evolution_group_size_factor", optd)] settings else mret settings);
  settings ← read_fields [("min_expansion_cooldown", optu); ("max_expansion_cooldown", optu)] settings;
  mret (VMap settings).

Definition readUnitGroup : M mval :=
  map_of [("min_group_gathering_time", optu); ("max_group_gathering_time", optu);
          ("max_wait_time_for_late_members", optu); ("max_group_radius", optd);
          ("min_group_radius", optd); ("max_member_speedup_when_behind", optd);
          ("max_member_slowdown_when_ahead", optd); ("max_group_slowdown_factor", optd);
          ("max_group_member_fallback_factor", optd); ("member_disown_distance", optd);
          ("tick_tolerance_when_member_arrives", optu); ("max_gathering_unit_groups", optu);
          ("max_unit_group_size", optu)].

Definition readPathFinder : M mval :=
  map_of [("fwd2bwd_ratio", readOptional vi32); ("goal_pressure_ratio", optd); ("use_path_cache", optb);
          ("max_steps_worked_per_tick", optd); ("max_work_done_per_tick", optu);
          ("short_cache_size", optu); ("long_cache_size", optu);
          ("short_cache_min_cacheable_distance", optd); ("short_cache_min_algo_steps_to_cache", optu);
          ("long_cache_min_cacheable_distance", optd);
          ("cache_max_connect_to_cache_steps_multiplier", optu);
          ("cache_accept_path_start_distance_ratio", optd);
          ("cache_accept_path_end_distance_ratio", optd);
          ("negative_cache_accept_path_start_distance_ratio", optd);
          ("negative_cache_accept_path_end_distance_ratio", optd);
          ("cache_path_start_distance_rating_multiplier", optd);
          ("cache_path_end_distance_rating_multiplier", optd);
          ("stale_enemy_with_same_destination_collision_penalty", optd);
          ("ignore_moving_enemy_collision_distance", optd);
          ("enemy_with_different_destination_collision_penalty", optd);
          ("general_entity_collision_penalty", optd);
          ("general_entity_subsequent_collision_penalty", optd);
          ("extended_collision_penalty", optd);
          ("max_clients_to_accept_any_new_request", optu);
          ("max_clients_to_accept_short_new_request", optu);
          ("direct_distance_to_consider_short_request", optu);
          ("short_request_max_steps", optu); ("short_request_ratio", optd);
          ("min_steps_to_check_path_find_termination", optu);
          ("start_to_goal_cost_multiplier_to_terminate_path_find", optd);
          ("overload_levels", readOptional (readArray vu32));
          ("overload_multipliers", readOptional (readArray vdouble));
          ("negative_path_cache_delay_interval", optu)].

Definition researchQueue : list string := ["always"; "after-victory"; "never"].

Definition readDifficultySettings (atLeastV2 : bool) : M mval :=
  if atLeastV2 then map_of [("technology_price_multiplier", vdouble); ("spoil_time_modifier", vdouble)]
  else
    recipeDifficulty ← readUint8;
    technologyDifficulty ← readUint8;
    technologyPriceMultiplier ← readDouble;
    queueIndex ← readUint8;
    queueSetting ← match researchQueue !! Z.to_nat queueIndex with
                   | Some q => mret q
                   | None => setErr (BadResearchQueue queueIndex);; mret ""
                   end;
    mret (VMap [("recipe_difficulty", VInt recipeDifficulty);
                ("technology_difficulty", VInt technologyDifficulty);
                ("technology_price_multiplier", VFloat technologyPriceMultiplier);
                ("research_queue_setting", VStr queueSetting)]).

Definition readAsteroidsSettings : M mval :=
  map_of [("spawning_rate", optd); ("max_ray_portals_expanded_per_tick", optu)].

Definition readMapSettings (atLeastV2 atLeastV21 : bool) : M (list (string * mval)) :=
  settings ← read_fields [("pollution", readPollution)] [];
  settings ← (if atLeastV21 then mret settings else read_fields [("steering", readSteering)] settings);
  settings ← read_fields [
    ("enemy_evolution", readEnemyEvolution); ("enemy_expansion", readEnemyExpansion atLeastV21);
    ("unit_group", readUnitGroup); ("path_finder", readPathFinder);
    ("max_failed_behavior_count", vu32);
    ("difficulty_settings", readDifficultySettings atLeastV2)] settings;
  if atLeastV2 then read_fields [("asteroids", readAsteroidsSettings)] settings else mret settings.

(** ** The exchange string *)
Definition version4 : Type := (Z * Z * Z * Z)%type.
Definition version_list (v : version4) : list Z := let '(a, b, c, d) := v in [a; b; c; d].

Record MapExchangeData := mkMxData {
  md_Version : version4;
  md_MapGenSettings : list (string * mval);
  md_MapSettings : list (string * mval);
  md_Checksum : Z;
  md_ChecksumOK : bool
}.

(** Failures of [zlib.NewReader], of reading, of closing. *)
Inductive inflate_err := BadHeader | BadStream | BadClose.

(** The decompressor, and the JSON decoding of the four recognised tables:
    [map_settings], [map_gen_settings], [mapSettings], [mapGenSettings]. *)
Class Inflate := {
  zlib_ReadAll : bytes -> result inflate_err bytes;
  json_tables : string -> option (option (list (string * mval)) * option (list (string * mval))
                                  * option (list (string * mval)) * option (list (string * mval)))
}.

Inductive exchange_err :=
  | BadDelimiters
  | BadBase64
  | BadCompression (e : inflate_err)
  | DataTooShort
  | BadPayload (e : mx_err)
  | UnexpectedData (n : Z)
  | BadJSON
  | MissingTables.

(** [strings.Map] dropping every [unicode.IsSpace] code point. *)
Fixpoint drop_spaces (fuel : nat) (s : string) : string :=
  match fuel, s with
  | S n, String c r =>
      match trim_left1 s with
      | Some r' => drop_spaces n r'
      | None => String c (drop_spaces n r)
      end
  | _, _ => s
  end.

Definition decodeMapExchangeBase64 (encoded : bytes) : option bytes :=
  match StdEncoding_Decode encoded with
  | Some decoded => Some decoded
  | None =>
      let padded := encoded ++ match Nat.modulo (length encoded) 4 with
                               | 2%nat => [pad_char; pad_char]
                               | 3%nat => [pad_char]
                               | _ => []
                               end in
      match (if bool_decide (padded = encoded) then None else StdEncoding_Decode padded) with
      | Some decoded => Some decoded
      | None => RawStdEncoding_Decode encoded
      end
  end.

Definition parseMapExchangeJSON `{Inflate} (input : string) : result exchange_err MapExchangeData :=
  match json_tables input with
  | None => Err BadJSON
  | Some (ms, mgs, msCamel, mgsCamel) =>
      let ms := match ms with None => msCamel | Some _ => ms end in
      let mgs := match mgs with None => mgsCamel | Some _ => mgs end in
      match ms, mgs with
      | Some ms, Some mgs => Ok (mkMxData (0, 0, 0, 0) mgs ms 0 true)
      | _, _ => Err MissingTables
      end
  end.

(** Everything read from the payload, in order: the tables, then the checksum. *)
Definition read_tables : M (version4 * list (string * mval) * list (string * mval)) :=
  version ← readVersion;
  let atLeastV2 := versionAtLeast (version_list version) [2; 0; 0; 0] in
  let atLeastV21 := versionAtLeast (version_list version) [2; 1; 0; 0] in
  readUint8;;
  mgs ← readMapGenSettings atLeastV2;
  ms ← readMapSettings atLeastV2 atLeastV21;
  mret (version, mgs, ms).

Definition read_payload : M (version4 * list (string * mval) * list (string * mval) * Z) :=
  tables ← read_tables;
  checksum ← readUint32;
  mret (tables, checksum).

Definition parse_payload (raw : bytes) : result exchange_err MapExchangeData :=
  if bool_decide (length raw < 4)%nat then Err DataTooShort
  else
    let '((version, mgs, ms, checksum), p) := read_payload (newMapExchangeParser raw) in
    match mx_err_ p with
    | Some e => Err (BadPayload e)
    | None =>
        if negb (mx_pos p =? Z.of_nat (length raw))
        then Err (UnexpectedData (Z.of_nat (length raw) - mx_pos p))
        else
          let crcIndex := (length raw - 4)%nat in
          let actual := le_get (drop crcIndex raw) in
          let expected := crc32_of crc32_ieee (take crcIndex raw) in
          Ok (mkMxData version mgs ms checksum (actual =? expected))
    end.

Definition ParseMapExchangeString `{Inflate} (input : string) : result exchange_err MapExchangeData :=
  let trimmed := TrimSpace input in
  if HasPrefix trimmed "{" then parseMapExchangeJSON trimmed
  else
    let compact := drop_spaces (String.length trimmed) trimmed in
    if negb (HasPrefix compact ">>>") || negb (HasSuffix compact "<<<") then Err BadDelimiters
    else
      let encoded := TrimSuffix (TrimPrefix compact ">>>") "<<<" in
      match decodeMapExchangeBase64 (to_bytes encoded) with
      | None => Err BadBase64
      | Some decoded =>
          match zlib_ReadAll decoded with
          | Err e => Err (BadCompression e)
          | Ok raw => parse_payload raw
          end
      end.

(** ** Well-behaved readers

    Every reader keeps the first error and stops consuming after it, stays
    within the data, and, when it succeeds, does the same on the data extended
    at the end.  The class is closed under the combinators, so that it holds of
    every reader above by resolution. *)
Definition small (p : mapExchangeParser) : Prop := Z.of_nat (length (mx_data p)) < 2 ^ 32.
Definition in_data (p : mapExchangeParser) : Prop := 0 <= mx_pos p <= Z.of_nat (length (mx_data p)).
Definition extend (extra : bytes) (p : mapExchangeParser) : mapExchangeParser :=
  mkMx (mx_data p ++ extra) (mx_pos p) (mx_err_ p) (mx_X p) (mx_Y p).

Class Good {A} (m : M A) : Prop := {
  good_sticky : forall p a q e, m p = (a, q) -> mx_err_ p = Some e ->
    mx_err_ q = Some e /\ mx_pos q = mx_pos p;
  good_bounds : forall p a q, m p = (a, q) -> in_data p ->
    mx_data q = mx_data p /\ mx_pos p <= mx_pos q /\ in_data q;
  good_extend : forall p a q extra, m p = (a, q) -> mx_err_ q = None -> in_data p ->
    small (extend extra p) -> m (extend extra p) = (a, extend extra q)
}.

#[export] Instance Good_ret {A} (a : A) : Good (mret a : M A).
Proof. constructor; cbv [mret M_ret]; intros; simplify_eq; eauto with lia. Qed.

#[export] Instance Good_bind {A B} (m : M A) (f : A -> M B) :
  Good m -> (forall a, Good (f a)) -> Good (m ≫= f).
Proof.
  intros Hm Hf. constructor; cbv [mbind M_bind]; intros p b q.
  - intros e H He. destruct (m p) as [a p1] eqn:E.
    destruct (good_sticky _ _ _ _ E He) as [He1 <-]. eapply good_sticky; eauto.
  - intros H Hp. destruct (m p) as [a p1] eqn:E.
    destruct (good_bounds _ _ _ E Hp) as (Hd & ? & Hp1).
    destruct (good_bounds _ _ _ H Hp1) as (Hd' & ? & ?). rewrite Hd', Hd. split_and!; [done|lia|done].
  - intros extra H He Hp Hs. destruct (m p) as [a p1] eqn:E.
    destruct (good_bounds _ _ _ E Hp) as (Hd & ? & Hp1).
    assert (He1 : mx_err_ p1 = None).
    { destruct (mx_err_ p1) as [e|] eqn:Ee; [|done].
      destruct (good_sticky _ _ _ _ H Ee) as [? _]. congruence. }
    rewrite (good_extend _ _ _ _ E He1 Hp Hs). apply good_extend; [done..|].
    unfold small, extend in *. simpl in *. by rewrite Hd.
Qed.

#[export] Instance Good_if {A} (b : bool) (m1 m2 : M A) : Good m1 -> Good m2 -> Good (if b then m1 else m2).
Proof. by destruct b. Qed.

#[export] Instance Good_pair {A B C} (z : A * B) (f : A -> B -> M C) :
  (forall x y, Good (f x y)) -> Good (let '(x, y) := z in f x y).
Proof. by destruct z. Qed.

#[export] Instance Good_option {A B} (o : option A) (f : A -> M B) m :
  (forall a, Good (f a)) -> Good m -> Good (match o with Some a => f a | None => m end).
Proof. by destruct o. Qed.

#[export] Instance Good_setErr e : Good (setErr e).
Proof.
  constructor; unfold setErr, in_data; intros p a q; destruct (mx_err_ p) eqn:E; intros; simplify_eq/=;
    split_and?; auto; lia.
Qed.

#[export] Instance Good_setLast x y : Good (setLast x y).
Proof. constructor; unfold setLast, in_data; intros; simplify_eq/=; eauto with lia. Qed.

#[export] Instance Good_getLast : Good getLast.
Proof. constructor; unfold getLast, in_data; intros; simplify_eq/=; eauto with lia. Qed.

#[export] Instance Good_failed : Good failed.
Proof. constructor; unfold failed, in_data; intros; simplify_eq/=; eauto with lia. Qed.

#[export] Instance Good_readBytes n : Good (readBytes n).
Proof.
  constructor; unfold readBytes, in_data, small; intros p a q.
  - intros e H He. rewrite He in H. by simplify_eq.
  - intros H Hp. destruct (mx_err_ p) eqn:E; [simplify_eq; eauto with lia|].
    destruct (_ || _) eqn:B; simplify_eq/=.
    + rewrite E. simpl. eauto with lia.
    + bool_hyps. split_and!; [done|lia..].
  - intros extra H He Hp Hs. simpl. destruct (mx_err_ p) eqn:E.
    { by simplify_eq. }
    destruct (_ || _) eqn:B; [injection H as <- <-; rewrite E in He; done|injection H as <- <-].
    bool_hyps. rewrite length_app, Nat2Z.inj_add.
    rewrite (proj2 (Z.ltb_ge n 0)), (proj2 (Z.ltb_ge _ (mx_pos p + n))) by lia. simpl.
    rewrite drop_app_le by lia. rewrite take_app_le by (rewrite length_drop; lia). done.
Qed.


#[export] Instance Good_readUint8 : Good readUint8. Proof. unfold readUint8. apply _. Qed.
#[export] Instance Good_readBool : Good readBool. Proof. unfold readBool. apply _. Qed.
#[export] Instance Good_readInt16 : Good readInt16. Proof. unfold readInt16. apply _. Qed.
#[export] Instance Good_readUint16 : Good readUint16. Proof. unfold readUint16. apply _. Qed.
#[export] Instance Good_readInt32 : Good readInt32. Proof. unfold readInt32. apply _. Qed.
#[export] Instance Good_readUint32 : Good readUint32. Proof. unfold readUint32. apply _. Qed.
#[export] Instance Good_readUint32SO : Good readUint32SO. Proof. unfold readUint32SO. apply _. Qed.
#[export] Instance Good_readFloat : Good readFloat. Proof. unfold readFloat. apply _. Qed.
#[export] Instance Good_readDouble : Good readDouble. Proof. unfold readDouble. apply _. Qed.

#[export] Instance Good_readString : Good readString.
Proof.
  unfold readString. apply Good_bind; [apply _|]. intros size.
  constructor; cbv [mbind M_bind]; unfold remaining; intros p s q.
  - intros e H He. destruct (_ <? size).
    + refine (good_sticky (m := setErr (StringTooBig size);; mret "") p s q e H He).
    + refine (good_sticky (m := b ← readBytes size; mret _) p s q e H He).
  - intros H Hp. destruct (_ <? size).
    + refine (good_bounds (m := setErr (StringTooBig size);; mret "") p s q H Hp).
    + refine (good_bounds (m := b ← readBytes size; mret _) p s q H Hp).
  - intros extra H He Hp Hs. destruct (_ <? size) eqn:L.
    + exfalso. cbv [mbind M_bind mret M_ret] in H. unfold setErr in H.
      destruct (mx_err_ p) eqn:E; injection H as <- <-; simpl in He; congruence.
    + unfold in_data, small in *. bool_hyps. simpl in Hs |- *.
      rewrite length_app, Nat2Z.inj_add in Hs |- *.
      rewrite wrap_small in L by (unfold in_u; lia). rewrite wrap_small by (unfold in_u; lia).
      rewrite (proj2 (Z.ltb_ge _ _)) by lia.
      refine (good_extend (m := b ← readBytes size; mret _) p s q extra H He _ _).
      * unfold in_data. lia.
      * unfold small. simpl. rewrite length_app. lia.
Qed.

#[export] Instance Good_readVersion : Good readVersion. Proof. unfold readVersion. apply _. Qed.
#[export] Instance Good_readOptional m : Good m -> Good (readOptional m).
Proof. unfold readOptional. apply _. Qed.

#[export] Instance Good_loop {A} n (item : A -> M A) acc :
  (forall a, Good (item a)) -> Good (loop_items n item acc).
Proof. intros Hi. revert acc. induction n as [|n IH]; intros acc; simpl; apply _. Qed.

#[export] Instance Good_readArray m : Good m -> Good (readArray m).
Proof. unfold readArray. apply _. Qed.
#[export] Instance Good_readStringDict m : Good m -> Good (readStringDict m).
Proof. unfold readStringDict. apply _. Qed.

(** The readers of a table, all of them well-behaved. *)
Class GoodFields (l : list (string * M mval)) : Prop := good_fields : Forall (fun x => Good x.2) l.
#[export] Instance GoodFields_nil : GoodFields []. Proof. constructor. Qed.
#[export] Instance GoodFields_cons k m l : Good m -> GoodFields l -> GoodFields ((k, m) :: l).
Proof. by constructor. Qed.

#[export] Instance Good_read_fields l m : GoodFields l -> Good (read_fields l m).
Proof.
  intros H. revert m. induction H as [|[k r] l Hr _ IH]; intros m; simpl in *; apply _.
Qed.

#[export] Instance Good_map_of l : GoodFields l -> Good (map_of l). Proof. unfold map_of. apply _. Qed.
#[export] Instance Good_readStringArray : Good readStringArray. Proof. unfold readStringArray. apply _. Qed.
#[export] Instance Good_vbool : Good vbool. Proof. unfold vbool. apply _. Qed.
#[export] Instance Good_vfloat : Good vfloat. Proof. unfold vfloat. apply _. Qed.
#[export] Instance Good_vdouble : Good vdouble. Proof. unfold vdouble. apply _. Qed.
#[export] Instance Good_vu32 : Good vu32. Proof. unfold vu32. apply _. Qed.
#[export] Instance Good_vi16 : Good vi16. Proof. unfold vi16. apply _. Qed.
#[export] Instance Good_vi32 : Good vi32. Proof. unfold vi32. apply _. Qed.
#[export] Instance Good_vstring : Good vstring. Proof. unfold vstring. apply _. Qed.
#[export] Instance Good_vconst v : Good (vconst v). Proof. unfold vconst. apply _. Qed.
#[export] Instance Good_optb : Good optb. Proof. unfold optb. apply _. Qed.
#[export] Instance Good_optd : Good optd. Proof. unfold optd. apply _. Qed.
#[export] Instance Good_optu : Good optu. Proof. unfold optu. apply _. Qed.
#[export] Instance Good_fsr : Good readFrequencySizeRichness.
Proof. unfold readFrequencySizeRichness. apply _. Qed.
#[export] Instance Good_autoplace : Good readAutoplaceSetting.
Proof. unfold readAutoplaceSetting. apply _. Qed.
#[export] Instance Good_position : Good readMapPosition. Proof. unfold readMapPosition. apply _. Qed.
#[export] Instance Good_box : Good readBoundingBox. Proof. unfold readBoundingBox. apply _. Qed.
#[export] Instance Good_cliff b : Good (readCliffSettings b). Proof. unfold readCliffSettings. apply _. Qed.
#[export] Instance Good_territory : Good readTerritorySettings. Proof. unfold readTerritorySettings. apply _. Qed.
#[export] Instance Good_mapgen b : Good (readMapGenSettings b).
Proof. unfold readMapGenSettings. destruct b; apply _. Qed.
#[export] Instance Good_pollution : Good readPollution. Proof. unfold readPollution. apply _. Qed.
#[export] Instance Good_realsteering : Good readRealSteering. Proof. unfold readRealSteering. apply _. Qed.
#[export] Instance Good_steering : Good readSteering. Proof. unfold readSteering. apply _. Qed.
#[export] Instance Good_evolution : Good readEnemyEvolution. Proof. unfold readEnemyEvolution. apply _. Qed.
#[export] Instance Good_expansion b : Good (readEnemyExpansion b).
Proof. unfold readEnemyExpansion. destruct b; apply _. Qed.
#[export] Instance Good_unitgroup : Good readUnitGroup. Proof. unfold readUnitGroup. apply _. Qed.
#[export] Instance Good_pathfinder : Good readPathFinder. Proof. unfold readPathFinder. apply _. Qed.
#[export] Instance Good_difficulty b : Good (readDifficultySettings b).
Proof. unfold readDifficultySettings. destruct b; apply _. Qed.
#[export] Instance Good_asteroids : Good readAsteroidsSettings. Proof. unfold readAsteroidsSettings. apply _. Qed.
#[export] Instance Good_mapsettings b c : Good (readMapSettings b c).
Proof. unfold readMapSettings. destruct b, c; apply _. Qed.
#[export] Instance Good_tables : Good read_tables. Proof. unfold read_tables. apply _. Qed.
#[export] Instance Good_payload : Good read_payload. Proof. unfold read_payload. apply _. Qed.

(** ** Primitive reads at a position *)
Definition at_bytes (p : mapExchangeParser) (b : bytes) : Prop :=
  exists pre rest, mx_data p = pre ++ b ++ rest /\ mx_pos p = Z.of_nat (length pre) /\ mx_err_ p = None.

Definition advance (n : Z) (p : mapExchangeParser) : mapExchangeParser := with_pos (mx_pos p + n) p.

Lemma readBytes_at n p b c :
  n = Z.of_nat (length b) -> at_bytes p (b ++ c) ->
  readBytes n p = (Some b, advance n p) /\ at_bytes (advance n p) c.
Proof.
  intros -> (pre & rest & Hd & Hp & He). unfold readBytes, advance. rewrite He, Hd, Hp.
  rewrite (proj2 (Z.ltb_ge (Z.of_nat (length b)) 0)) by lia.
  rewrite (proj2 (Z.ltb_ge _ _)) by (rewrite !length_app; lia).
  split.
  - cbn [orb]. do 2 f_equal. rewrite !Nat2Z.id, <-app_assoc. apply drop_take_app. done.
  - exists (pre ++ b), rest. simpl. rewrite Hd, <-!app_assoc, length_app. split_and!; [done|lia|done].
Qed.

Lemma readUint8_at p v c :
  in_u 8 v -> at_bytes p (byte_of v :: c) ->
  readUint8 p = (v, advance 1 p) /\ at_bytes (advance 1 p) c.
Proof.
  intros Hv Hp. destruct (readBytes_at 1 p [byte_of v] c eq_refl Hp) as [H ?]. split; [|done].
  unfold readUint8. cbv [mbind M_bind]. rewrite H. simpl. f_equal.
  rewrite byte_val_of, Z.lor_0_r. by apply Z.mod_small.
Qed.

Lemma readBytes_le p n v c :
  in_u (8 * Z.of_nat n) v -> at_bytes p (le_put n v ++ c) ->
  exists b, readBytes (Z.of_nat n) p = (Some b, advance (Z.of_nat n) p) /\ le_get b = v /\
    at_bytes (advance (Z.of_nat n) p) c.
Proof.
  intros Hv Hp. exists (le_put n v).
  destruct (readBytes_at (Z.of_nat n) _ _ _ ltac:(by rewrite length_le_put) Hp).
  split_and!; [done|by apply le_get_put_u|done].
Qed.

Lemma readUint32_at p v c :
  in_u 32 v -> at_bytes p (le_put 4 v ++ c) ->
  readUint32 p = (v, advance 4 p) /\ at_bytes (advance 4 p) c.
Proof.
  intros Hv Hp. destruct (readBytes_le p 4 v c Hv Hp) as (b & H & Hb & ?). split; [|done].
  change (Z.of_nat 4) with 4 in H.
  unfold readUint32. cbv [mbind M_bind]. rewrite H. by rewrite Hb.
Qed.

Lemma signed_le_at w n p v c :
  w = 8 * Z.of_nat n -> 1 <= w -> in_s w v -> at_bytes p (le_put n v ++ c) ->
  exists b, readBytes (Z.of_nat n) p = (Some b, advance (Z.of_nat n) p) /\ swrap w (le_get b) = v /\
    at_bytes (advance (Z.of_nat n) p) c.
Proof.
  intros -> Hw Hv Hp. exists (le_put n v).
  destruct (readBytes_at (Z.of_nat n) _ _ _ ltac:(by rewrite length_le_put) Hp). split_and!; [done| |done].
  rewrite le_get_put. fold (wrap (8 * Z.of_nat n) v). rewrite swrap_wrap by done.
  by apply swrap_small.
Qed.

Lemma readInt16_at p v c :
  in_s 16 v -> at_bytes p (le_put 2 v ++ c) ->
  readInt16 p = (v, advance 2 p) /\ at_bytes (advance 2 p) c.
Proof.
  intros Hv Hp. destruct (signed_le_at 16 2 p v c) as (b & H & Hb & ?); [done|lia|done|done|].
  split; [|done]. change (Z.of_nat 2) with 2 in H. unfold readInt16. cbv [mbind M_bind]. rewrite H. by rewrite Hb.
Qed.

Lemma readInt32_at p v c :
  in_s 32 v -> at_bytes p (le_put 4 v ++ c) ->
  readInt32 p = (v, advance 4 p) /\ at_bytes (advance 4 p) c.
Proof.
  intros Hv Hp. destruct (signed_le_at 32 4 p v c) as (b & H & Hb & ?); [done|lia|done|done|].
  split; [|done]. change (Z.of_nat 4) with 4 in H. unfold readInt32. cbv [mbind M_bind]. rewrite H. by rewrite Hb.
Qed.

(** ** The encoder a map position is read back from

    A position is stored relative to the last one when both differences fit an
    [int16] and the first is not the escape value [0x7fff]; otherwise the
    escape is followed by absolute coordinates. *)
Definition fits_delta (lx ly x y : Z) : bool :=
  (-32768 <=? x - lx) && (x - lx <? 32767) && (-32768 <=? y - ly) && (y - ly <=? 32767).

Definition put_position (lx ly x y : Z) : bytes :=
  if fits_delta lx ly x y then le_put 2 (x - lx) ++ le_put 2 (y - ly)
  else le_put 2 32767 ++ le_put 4 x ++ le_put 4 y.

Lemma advance_advance m n p : advance n (advance m p) = advance (m + n) p.
Proof. unfold advance, with_pos. simpl. f_equal. lia. Qed.

Lemma readMapPosition_at p x y c :
  in_s 32 x -> in_s 32 y -> at_bytes p (put_position (mx_X p) (mx_Y p) x y ++ c) ->
  exists q, readMapPosition p = (VMap [("x", VFloat (Fix256 x)); ("y", VFloat (Fix256 y))], q)
    /\ at_bytes q c /\ mx_X q = x /\ mx_Y q = y.
Proof.
  intros Hx Hy Hp. unfold readMapPosition, put_position in *. cbv [mbind M_bind mret M_ret].
  destruct (fits_delta _ _ _ _) eqn:F; rewrite <-?app_assoc in Hp.
  - unfold fits_delta in F. bool_hyps.
    destruct (readInt16_at p (x - mx_X p) _ ltac:(unfold in_s; simpl; lia) Hp) as [-> Hp1].
    rewrite (proj2 (Z.eqb_neq _ _)) by lia.
    destruct (readInt16_at _ (y - mx_Y p) _ ltac:(unfold in_s; simpl; lia) Hp1) as [-> Hp2].
    unfold getLast, setLast. simpl.
    replace (mx_X p + (x - mx_X p)) with x by lia. replace (mx_Y p + (y - mx_Y p)) with y by lia.
    eexists. split_and!; [done|..|done|done]. exact Hp2.
  - destruct (readInt16_at p 32767 _ ltac:(unfold in_s; simpl; lia) Hp) as [-> Hp1]. simpl.
    destruct (readInt32_at _ x _ Hx Hp1) as [-> Hp2].
    destruct (readInt32_at _ y _ Hy Hp2) as [-> Hp3].
    unfold setLast. eexists. split_and!; [done|..|done|done]. exact Hp3.
Qed.


(** Positions written one after the other, each relative to the one before. *)
Fixpoint put_positions (lx ly : Z) (l : list (Z * Z)) : bytes :=
  match l with
  | [] => []
  | (x, y) :: l => put_position lx ly x y ++ put_positions x y l
  end.

Definition position_val (xy : Z * Z) : mval :=
  VMap [("x", VFloat (Fix256 xy.1)); ("y", VFloat (Fix256 xy.2))].

Lemma loop_positions_at l p c acc :
  Forall (fun xy => in_s 32 xy.1 /\ in_s 32 xy.2) l ->
  at_bytes p (put_positions (mx_X p) (mx_Y p) l ++ c) ->
  exists q, loop_items (length l) (fun out => v ← readMapPosition; mret (out ++ [v])) acc p
              = (acc ++ map position_val l, q) /\ at_bytes q c.
Proof.
  revert p acc. induction l as [|[x y] l IH]; intros p acc Hl Hp; simpl.
  - exists p. by rewrite app_nil_r.
  - apply Forall_cons in Hl as [[Hx Hy] Hl]. simpl in Hp, Hx, Hy. rewrite <-app_assoc in Hp.
    assert (He : mx_err_ p = None) by (by destruct Hp as (? & ? & ? & ? & ?)).
    cbv [mbind M_bind mret M_ret failed]. rewrite He.
    destruct (readMapPosition_at p x y _ Hx Hy Hp) as (q & -> & Hq & Eqx & Eqy).
    rewrite <-Eqx, <-Eqy in Hq. destruct (IH q (acc ++ [position_val (x, y)]) Hl Hq) as (q' & H & ?).
    exists q'. cbv [mbind M_bind mret M_ret] in H. unfold position_val at 1 in H. simpl in H.
    rewrite H, <-app_assoc. done.
Qed.

(** A version 2.1 payload with every table empty or zero, and its checksum. *)
Definition sample_body : bytes := [byte_of 2; byte_of 0; byte_of 1; byte_of 0] ++ repeat zero 158.
Definition sample_payload : bytes := sample_body ++ le_put 4 (crc32_of crc32_ieee sample_body).
Definition sample_map : MapExchangeData :=
  Eval vm_compute in match parse_payload sample_payload with
                     | Ok d => d
                     | Err _ => mkMxData (0, 0, 0, 0) [] [] 0 false
                     end.

Example sample_accepted :
  parse_payload sample_payload = Ok sample_map /\ md_ChecksumOK sample_map = true.
Proof. split; vm_compute; reflexivity. Qed.

(** ** Properties *)

(** (safety) on every payload, whatever its bytes, the parser ends inside
    the data it was given, never moves its position backwards past the start,
    and leaves the data as it is: no reader runs past the end. *)
Theorem read_payload_in_bounds raw :
  let p := (read_payload (newMapExchangeParser raw)).2 in
  mx_data p = raw /\ 0 <= mx_pos p <= Z.of_nat (length raw).
Proof.
  destruct (read_payload _) as [a p] eqn:E. simpl.
  destruct (good_bounds _ _ _ E) as (Hd & ? & Hb); [split; simpl; lia|].
  simpl in Hd. unfold in_data in Hb. rewrite Hd in Hb. done.
Qed.

(** (functional) an accepted payload is a body followed by its four-byte
    checksum: the checksum reported is those last four bytes, little endian, and
    the flag says whether it is the CRC-32 of everything before them. *)
Theorem parse_payload_checksum raw d :
  parse_payload raw = Ok d ->
  exists body, raw = body ++ le_put 4 (md_Checksum d) /\
    md_ChecksumOK d = (md_Checksum d =? crc32_of crc32_ieee body).
Proof.
  unfold parse_payload. case_bool_decide as Hl; [done|].
  unfold read_payload at 1. cbv [mbind M_bind mret M_ret].
  destruct (read_tables _) as [tables p1] eqn:E1.
  destruct (readUint32 p1) as [ck p2] eqn:E2. destruct tables as [[v mgs] ms].
  destruct (mx_err_ p2) as [e|] eqn:He; [done|].
  destruct (mx_pos p2 =? _) eqn:Hp; cbn [negb]; [|done]. intros [= <-]. cbn [md_Checksum md_ChecksumOK]. bool_hyps.
  destruct (good_bounds _ _ _ E1) as (Hd & ? & Hb); [split; simpl; lia|]. simpl in Hd.
  unfold readUint32 in E2. cbv [mbind M_bind mret M_ret] in E2. unfold readBytes in E2.
  destruct (mx_err_ p1) eqn:He1; [simplify_eq|]. destruct (_ || _) eqn:B.
  { unfold setErr in E2. simpl in E2. rewrite He1 in E2. injection E2 as <- <-. done. }
  injection E2 as <- <-. simpl in Hp. rewrite Hd in *. exists (take (length raw - 4) raw).
  replace (Z.to_nat (mx_pos p1)) with (length raw - 4)%nat by lia.
  replace (take (Z.to_nat 4)) with (take (A := ascii) 4) by done.
  rewrite (take_ge (drop _ _)) by (rewrite length_drop; lia).
  rewrite le_put_get by (rewrite length_drop; lia). by rewrite take_drop.
Qed.

Lemma parse_payload_checksum_witness :
  exists body, sample_payload = body ++ le_put 4 (md_Checksum sample_map) /\
    md_ChecksumOK sample_map = (md_Checksum sample_map =? crc32_of crc32_ieee body).
Proof. apply (parse_payload_checksum sample_payload). vm_compute. reflexivity. Defined.

(** (safety) no accepted payload is a proper prefix of an accepted one:
    more data after a payload is reported as that many bytes of unexpected
    data, so a truncated payload is never accepted as a complete one. *)
Theorem parse_payload_prefix_free raw extra d :
  parse_payload raw = Ok d -> extra <> [] -> Z.of_nat (length (raw ++ extra)) < 2 ^ 32 ->
  parse_payload (raw ++ extra) = Err (UnexpectedData (Z.of_nat (length extra))).
Proof.
  unfold parse_payload. case_bool_decide as Hl; [done|]. intros H Hne Hs.
  destruct (read_payload (newMapExchangeParser raw)) as [[[[v mgs] ms] ck] p] eqn:E.
  destruct (mx_err_ p) as [e|] eqn:He; [done|]. destruct (mx_pos p =? _) eqn:Hp; [|done]. bool_hyps.
  rewrite bool_decide_eq_false_2 by (rewrite length_app; lia).
  assert (E' : read_payload (newMapExchangeParser (raw ++ extra)) = (v, mgs, ms, ck, extend extra p)).
  { apply (good_extend (newMapExchangeParser raw) _ p extra E He); [split; simpl; lia|exact Hs]. }
  rewrite E'. simpl. rewrite He, Hp, length_app.
  destruct extra; [done|]. simpl length. rewrite (proj2 (Z.eqb_neq _ _)) by lia. simpl. do 2 f_equal. lia.
Qed.

Lemma parse_payload_prefix_free_witness :
  parse_payload (sample_payload ++ [zero; zero]) = Err (UnexpectedData 2).
Proof.
  apply (parse_payload_prefix_free sample_payload [zero; zero] sample_map);
    [vm_compute; reflexivity|discriminate|vm_compute; reflexivity].
Defined.

(** (roundtrip) a list of map positions, written as the differences to the
    position before where these fit and in full behind the escape value where
    they do not, reads back as the same coordinates, and nothing after it is consumed. *)
Theorem starting_points_roundtrip l rest :
  (length l < 255)%nat -> Forall (fun xy => in_s 32 xy.1 /\ in_s 32 xy.2) l ->
  exists q, readArray readMapPosition
      (newMapExchangeParser (byte_of (Z.of_nat (length l)) :: put_positions 0 0 l ++ rest))
    = (VArr (map position_val l), q) /\ at_bytes q rest.
Proof.
  intros Hn Hl. unfold readArray, readUint32SO. cbv [mbind M_bind mret M_ret].
  destruct (readUint8_at (newMapExchangeParser (byte_of (Z.of_nat (length l)) :: put_positions 0 0 l ++ rest))
    (Z.of_nat (length l)) (put_positions 0 0 l ++ rest)) as [-> Hp].
  { unfold in_u. simpl. lia. }
  { exists [], []. simpl. by rewrite app_nil_r. }
  rewrite (proj2 (Z.eqb_neq _ _)) by lia. rewrite (proj2 (Z.ltb_ge _ _)) by lia. rewrite Nat2Z.id.
  destruct (loop_positions_at l _ rest [] Hl Hp) as (q & H & ?).
  cbv [mbind M_bind mret M_ret] in H. rewrite H. by exists q.
Qed.

Lemma starting_points_roundtrip_witness :
  exists q, readArray readMapPosition
      (newMapExchangeParser (byte_of 3 :: put_positions 0 0 [(5, -9); (40000, 7); (39000, -32000)] ++ [zero]))
    = (VArr (map position_val [(5, -9); (40000, 7); (39000, -32000)]), q) /\ at_bytes q [zero].
Proof.
  apply (starting_points_roundtrip [(5, -9); (40000, 7); (39000, -32000)] [zero]); [simpl; lia|].
  repeat constructor; simpl; lia.
Defined.
