(* ===== verification/GoPath.v ===== *)
(** * Go's [path/filepath] on Unix: [Clean], [Join], [Base], [Dir], [Ext], [IsAbs]

    A path is a byte string; [Clean] works on its elements. *)
From Stdlib Require Import Ascii.
From stdpp Require Import pretty.
From S2P Require Import Prelude.
From S2P Require Import GoInt.
From S2P Require Import GoString.

Definition slash : ascii := "/"%char.

Definition IsAbs (p : string) : bool := HasPrefix p "/".

(** The elements [Clean] keeps, newest first: an empty element and ["."] are
    dropped, [".."] removes the element before it, or is dropped at the root. *)
Fixpoint clean_elems (rooted : bool) (acc : list string) (l : list string) : list string :=
  match l with
  | [] => acc
  | e :: l =>
      let acc :=
        if bool_decide (e = "") || bool_decide (e = ".") then acc
        else if bool_decide (e = "..") then
          match acc with
          | a :: rest => if bool_decide (a = "..") then e :: acc else rest
          | [] => if rooted then [] else [e]
          end
        else e :: acc in
      clean_elems rooted acc l
  end.

Definition Clean (p : string) : string :=
  if bool_decide (p = "") then "."
  else
    let rooted := IsAbs p in
    let body := Join (rev (clean_elems rooted [] (Split p slash))) "/" in
    if rooted then String slash body
    else if bool_decide (body = "") then "." else body.

Fixpoint path_Join (l : list string) : string :=
  match l with
  | [] => ""
  | e :: l' => if bool_decide (e = "") then path_Join l' else Clean (Join l "/")
  end.

Fixpoint strip_slashes (fuel : nat) (p : string) : string :=
  match fuel with
  | O => p
  | S n => if HasSuffix p "/" then strip_slashes n (TrimSuffix p "/") else p
  end.

(** The text behind the last separator, the whole string when there is none. *)
Definition after_last (sep : ascii) (p : string) : string := default "" (last (Split p sep)).

Definition Base (p : string) : string :=
  if bool_decide (p = "") then "."
  else
    let q := strip_slashes (String.length p) p in
    let e := after_last slash q in
    if bool_decide (e = "") then "/" else e.

(** Everything up to and including the last separator. *)
Definition upto_last (sep : ascii) (p : string) : string :=
  string_take (String.length p - String.length (after_last sep p)) p.

Definition Dir (p : string) : string := Clean (upto_last slash p).

(** The suffix from the last dot of the last element. *)
Definition Ext (p : string) : string :=
  let e := after_last slash p in
  if Contains e "." then String "."%char (after_last "."%char e) else "".

Example Clean_1 : Clean "a//b/./../c/" = "a/c". Proof. reflexivity. Qed.
Example Clean_2 : Clean "/../a/../.." = "/". Proof. reflexivity. Qed.
Example Clean_3 : Clean "../../a/.." = "../..". Proof. reflexivity. Qed.
Example Clean_4 : Clean "./" = ".". Proof. reflexivity. Qed.
Example Base_1 : Base "/x/y.zip//" = "y.zip". Proof. reflexivity. Qed.
Example Base_2 : Base "///" = "/". Proof. reflexivity. Qed.
Example Dir_1 : Dir "/x/y.zip" = "/x". Proof. reflexivity. Qed.
Example Dir_2 : Dir "y" = ".". Proof. reflexivity. Qed.
Example Ext_1 : Ext "a.b/c.tar.gz" = ".gz". Proof. reflexivity. Qed.
Example Join_1 : path_Join ["saves"; "a.zip"] = "saves/a.zip". Proof. reflexivity. Qed.

(** ** Elements and separators *)
Definition no_byte (c : ascii) (s : string) : Prop := c ∉ to_bytes s.

Lemma split_go_no_sep sep cur s : no_byte sep s -> split_go sep cur s = [cur +:+ s].
Proof.
  unfold no_byte. revert cur. induction s as [|c s IH]; intros cur H; simpl in *.
  - by rewrite string_app_nil_r.
  - apply not_elem_of_cons in H as [Hc H]. destruct (Ascii.eqb_spec c sep); [congruence|].
    rewrite IH by done. by rewrite string_app_assoc.
Qed.

Lemma Split_no_sep sep s : no_byte sep s -> Split s sep = [s].
Proof. intros. unfold Split. by rewrite split_go_no_sep. Qed.

Lemma split_go_nonempty sep cur s : split_go sep cur s <> [].
Proof. revert cur. induction s as [|c s IH]; intros cur; simpl; [done|]. by case_match. Qed.

Lemma split_go_no_byte sep cur s e :
  no_byte sep cur -> e ∈ split_go sep cur s -> no_byte sep e.
Proof.
  revert cur. induction s as [|c s IH]; intros cur Hc; simpl.
  - by intros ->%list_elem_of_singleton.
  - destruct (Ascii.eqb_spec c sep) as [->|Hne].
    + intros [->|He]%elem_of_cons; [done|]. apply (IH ""); [|done]. unfold no_byte. simpl. set_solver.
    + apply IH. unfold no_byte in *. rewrite to_bytes_app. simpl. set_solver.
Qed.

Lemma Split_no_byte sep s e : e ∈ Split s sep -> no_byte sep e.
Proof. apply split_go_no_byte. unfold no_byte. simpl. set_solver. Qed.

(** * Decimal numbers and joined fields: reading back what [strconv] and
    [strings.Join] print *)
(** ** [Itoa] then [ParseUint] *)
Lemma pretty_digit n : (n < 10)%N ->
  is_digit (pretty_N_char n) = true /\ byte_val (pretty_N_char n) - 48 = Z.of_N n.
Proof.
  intros H. destruct n as [|p]; [done|].
  do 4 (destruct p as [p|p|]; try done); lia.
Qed.

Lemma digits_val_pretty_go n : forall s, digits_val 0 (pretty_N_go n s) = digits_val (Z.of_N n) s.
Proof.
  induction (N.lt_wf_0 n) as [n _ IH]; intros s.
  destruct (decide (n = 0)%N) as [->|Hn]; [by rewrite pretty_N_go_0|].
  rewrite pretty_N_go_step by lia. rewrite IH by (apply N.div_lt; lia). simpl.
  destruct (pretty_digit (n `mod` 10)%N) as [-> ->]; [by apply N.mod_lt|]. f_equal.
  rewrite N2Z.inj_div, N2Z.inj_mod. pose proof (Z.div_mod (Z.of_N n) 10). lia.
Qed.

Lemma pretty_Z_of_N n : pretty (Z.of_N n) = pretty n.
Proof. destruct n; done. Qed.

Lemma digits_val_Itoa z : 0 <= z -> digits_val 0 (Itoa z) = Some z.
Proof.
  intros Hz. unfold Itoa. rewrite <-(Z2N.id z) by done. rewrite pretty_Z_of_N.
  unfold pretty, pretty_N. case_decide as Hd; [by rewrite Hd|].
  by rewrite digits_val_pretty_go.
Qed.

Lemma ParseUint_digits s n :
  digits_val 0 s = Some n -> s <> "" -> n < 2 ^ 64 -> ParseUint s = Some n.
Proof.
  intros Hs Hne Hn. unfold ParseUint. destruct s; [done|]. rewrite Hs. simpl.
  by rewrite (proj2 (Z.ltb_lt _ _) Hn).
Qed.

Lemma Itoa_nonempty z : Itoa z <> "".
Proof.
  destruct (decide (0 <= z)) as [Hz|Hz].
  - unfold Itoa. rewrite <-(Z2N.id z) by done. rewrite pretty_Z_of_N. unfold pretty, pretty_N.
    case_decide as Hd; [done|]. intros He. pose proof (digits_val_pretty_go (Z.to_N z) "") as H.
    rewrite He in H. simpl in H. injection H. lia.
  - destruct z; [lia|lia|]. unfold Itoa, pretty, pretty_Z. done.
Qed.

Lemma ParseUint_Itoa z : in_u 64 z -> ParseUint (Itoa z) = Some z.
Proof. intros [??]. apply ParseUint_digits; [by apply digits_val_Itoa|apply Itoa_nonempty|done]. Qed.

Lemma digits_no_byte c s acc n : is_digit c = false -> digits_val acc s = Some n -> no_byte c s.
Proof.
  intros Hc. revert acc. induction s as [|ch s IH]; intros acc; simpl; [intros _; unfold no_byte; simpl; set_solver|].
  destruct (is_digit ch) eqn:E; [|done]. intros Hs%IH. unfold no_byte in *. simpl.
  rewrite not_elem_of_cons. split; [congruence|done].
Qed.

Lemma Itoa_no_byte c z : is_digit c = false -> 0 <= z -> no_byte c (Itoa z).
Proof. intros Hc Hz. eapply digits_no_byte; [done|]. by apply digits_val_Itoa. Qed.

(** ** [Join] then [Split] *)
Lemma split_go_app sep cur s t :
  no_byte sep s -> split_go sep cur (s +:+ String sep t) = (cur +:+ s) :: split_go sep "" t.
Proof.
  unfold no_byte. revert cur. induction s as [|c s IH]; intros cur H; simpl in *.
  - by rewrite Ascii.eqb_refl, string_app_nil_r.
  - apply not_elem_of_cons in H as [Hc H]. destruct (Ascii.eqb_spec c sep); [congruence|].
    rewrite IH by done. by rewrite string_app_assoc.
Qed.

Lemma Split_app sep s t : no_byte sep s -> Split (s +:+ String sep t) sep = s :: Split t sep.
Proof. intros. unfold Split. by rewrite split_go_app. Qed.

Lemma Split_Join sep l :
  l <> [] -> Forall (no_byte sep) l -> Split (Join l (String sep "")) sep = l.
Proof.
  induction l as [|x l IH]; [done|]. intros _ [Hx Hl]%Forall_cons.
  destruct l as [|y l]; [by apply Split_no_sep|].
  change (Join (x :: y :: l) (String sep "")) with (x +:+ String sep (Join (y :: l) (String sep ""))).
  rewrite Split_app by done. by rewrite IH.
Qed.
