(* ===== verification/GoTime.v ===== *)
(** * Go's [time.Time] and [time.Duration]

    A [time.Time] is the number of nanoseconds since the Unix epoch, in [Z]; the
    zero [time.Time] is the first instant of year 1.  A [time.Duration] is a
    64-bit number of nanoseconds: [Time.Sub] saturates, as in Go. *)
From Stdlib Require Import Ascii.
From S2P Require Import Prelude.
From S2P Require Import GoInt.
From S2P Require Import GoString.

Definition time : Type := Z.
Definition duration : Type := Z.

Definition Millisecond : duration := 1000000.
Definition Second : duration := 1000000000.
Definition Minute : duration := 60 * Second.
Definition Hour : duration := 60 * Minute.
Definition Day : duration := 24 * Hour.

Definition zeroTime : time := -62135596800 * 1000000000.
Definition IsZero (t : time) : bool := t =? zeroTime.
Definition maxDuration : duration := 2 ^ 63 - 1.
Definition minDuration : duration := - 2 ^ 63.

Definition clamp_duration (d : Z) : duration := Z.max minDuration (Z.min maxDuration d).
Definition Sub (t u : time) : duration := clamp_duration (t - u).
Definition Add (t : time) (d : duration) : time := t + d.
Definition After (t u : time) : bool := u <? t.
Definition Before (t u : time) : bool := t <? u.

(** A point of time of the running program: later than 1970, earlier than 2262. *)
Definition modern (t : time) : Prop := 0 <= t <= maxDuration.

Lemma Sub_modern t u : modern t -> modern u -> Sub t u = t - u.
Proof. unfold modern, Sub, clamp_duration, minDuration, maxDuration. lia. Qed.

Lemma Sub_zero t : modern t -> Sub t zeroTime = maxDuration.
Proof. unfold modern, Sub, clamp_duration, minDuration, maxDuration, zeroTime. lia. Qed.

Lemma modern_not_zero t : modern t -> IsZero t = false.
Proof. unfold modern, IsZero, zeroTime, maxDuration. intros. apply Z.eqb_neq. lia. Qed.

Lemma Sub_lt t u d : minDuration < d <= maxDuration -> (Sub t u <? d) = (t - u <? d).
Proof.
  unfold Sub, clamp_duration, minDuration, maxDuration, time, duration in *. intros.
  apply eq_true_iff_eq. rewrite !Z.ltb_lt. lia.
Qed.

Lemma Sub_le t u d : minDuration <= d < maxDuration -> (Sub t u <=? d) = (t - u <=? d).
Proof.
  unfold Sub, clamp_duration, minDuration, maxDuration, time, duration in *. intros.
  apply eq_true_iff_eq. rewrite !Z.leb_le. lia.
Qed.

(** * Go's [time.Duration]: [Round] and [String] *)
Definition Round (d m : duration) : duration :=
  if m <=? 0 then d
  else
    let r := Z.abs (Z.rem d m) in
    if d <? 0 then
      if r + r <? m then d + r
      else let d1 := d - m + r in if minDuration <=? d1 then d1 else minDuration
    else
      if r + r <? m then d - r
      else let d1 := d + m - r in if d1 <=? maxDuration then d1 else maxDuration.

(** [Time.Round] counts from the zero time and rounds half up. *)
Definition Time_Round (t : time) (d : duration) : time :=
  if d <=? 0 then t else let r := (t - zeroTime) mod d in if r + r <? d then t - r else t + (d - r).

(** The [n] low decimal digits of [v], the highest first. *)
Fixpoint low_digits (n : nat) (v : Z) : list Z :=
  match n with O => [] | S n => low_digits n (v / 10) ++ [v mod 10] end.

Fixpoint drop_zeros (l : list Z) : list Z :=
  match l with 0 :: l => drop_zeros l | _ => l end.

Definition fmtFrac (v : Z) (prec : nat) : string :=
  match rev (drop_zeros (rev (low_digits prec v))) with
  | [] => ""
  | l => "." +:+ of_bytes ((fun d => byte_of (48 + d)) <$> l)
  end.

Definition duration_String (d : duration) : string :=
  let u := Z.abs d in
  let neg := if d <? 0 then "-" else "" in
  if u =? 0 then "0s"
  else if u <? 1000 then neg +:+ Itoa u +:+ "ns"
  else if u <? Millisecond then neg +:+ Itoa (u / 1000) +:+ fmtFrac u 3 +:+ of_bytes [byte_of 194; byte_of 181] +:+ "s"
  else if u <? Second then neg +:+ Itoa (u / 1000000) +:+ fmtFrac u 6 +:+ "ms"
  else
    let s := u / Second in
    let secs := Itoa (s mod 60) +:+ fmtFrac u 9 +:+ "s" in
    let m := s / 60 in
    if m =? 0 then neg +:+ secs
    else
      let h := m / 60 in
      let mins := Itoa (m mod 60) +:+ "m" +:+ secs in
      if h =? 0 then neg +:+ mins else neg +:+ Itoa h +:+ "h" +:+ mins.

Example String_1 : duration_String (Round (Hour + 90 * Second + 499999999) Second) = "1h1m30s". Proof. vm_compute. reflexivity. Qed.
Example String_2 : duration_String (- 1500 * Millisecond) = "-1.5s". Proof. vm_compute. reflexivity. Qed.

Lemma Round_near d m : 0 < m -> minDuration + m <= d <= maxDuration - m -> 2 * Z.abs (Round d m - d) <= m.
Proof.
  intros Hm Hd. unfold Round. rewrite (proj2 (Z.leb_gt _ _)) by lia.
  pose proof (Z.rem_bound_abs d m ltac:(lia)) as Hr. pose proof (Z.abs_nonneg (Z.rem d m)) as H0. set (r := Z.abs (Z.rem d m)) in *. clearbody r.
  destruct (d <? 0), (Z.ltb_spec (r + r) m); try lia.
  - destruct (Z.leb_spec minDuration (d - m + r)); lia.
  - destruct (Z.leb_spec (d + m - r) maxDuration); lia.
Qed.
