(* ===== verification/PlayerDB.v ===== *)
(** * The player list: [src/fact/playerDB.go] and the game commands of [src/fact/util.go]

    The list of one process with its dirty marks, as a record; every function of the
    file that changes it is a function on the record.  The lines written to the game
    and the Discord roles asked for are recorded in the order they are sent.  What
    the code reads from the clock, the configuration and the game is [game]. *)
From Stdlib Require Import Ascii.
From S2P Require Import Prelude.
From S2P Require Import GoInt.
From S2P Require Import GoString.
From S2P Require Import GoTime.
From S2P Require Import Glob.
From S2P Require Import PlayerCodec.

#[export] Instance PlayerData_settable : Settable PlayerData := mkSettable (fun r =>
  mkPlayer (pd_Name r) (pd_Level r) (pd_ID r) (pd_BanReason r) (pd_Creation r) (pd_LastSeen r)
    (pd_Minutes r) (pd_SusScore r) (pd_AlreadyBanned r) (pd_SpamScore r)).

(** ** What is read *)
Record roles := { role_New : string; role_Member : string; role_Regular : string; role_Veteran : string; role_Moderator : string }.

Record game := {
  g_now : time;
  g_date : string;              (* the day, month first *)
  g_running : bool;             (* FactorioBooted && FactIsRunning *)
  g_CustomWhitelist : bool; g_RegularsOnly : bool; g_MembersOnly : bool;
  g_online : list string;       (* the names of OnlinePlayers *)
  g_roles : roles }.

(** ** What is kept *)
Inductive game_cmd :=
  | GameLine (s : string)
  | SoftModLevel (name : string) (level : Z)
  | AssignRole (discid role : string).
#[export] Instance game_cmd_eq_dec : EqDecision game_cmd.
Proof. solve_decision. Defined.

Record playerdb := mkDB {
  PlayerList : gmap string PlayerData;
  next : Z;
  versions : gmap string Z;
  PlayerListDirty : bool;
  PlayerStatsDirty : bool;
  signalled : bool;             (* playerListDirtyCh holds its one message *)
  lastBanName : string;
  sent : list game_cmd }.
#[export] Instance playerdb_settable : Settable playerdb := mkSettable (fun r =>
  mkDB (PlayerList r) (next r) (versions r) (PlayerListDirty r) (PlayerStatsDirty r) (signalled r) (lastBanName r) (sent r)).

Definition emptyDB : playerdb := mkDB ∅ 0 ∅ false false false "" [].

Definition DeletedLevel : Z := -255.
Definition BannedLevel : Z := -1.

Section playerdb.
Context `{UnicodeTables}.
Implicit Types (d : playerdb) (g : game) (p : PlayerData).

(** ** The game *)
Definition WriteFact (s : string) d : playerdb := d <| sent ::= fun l => l ++ [GameLine s] |>.

Definition doBan (name outString : string) d : playerdb :=
  WriteFact ("/purge " +:+ name) (WriteFact ("/ban " +:+ outString) (d <| lastBanName := name |>)).

Definition WriteBan (name reason : string) d : playerdb := doBan name (name +:+ " " +:+ reason) d.

Definition WriteUnban (name : string) d : playerdb :=
  WriteFact ("/unban " +:+ name) (if EqualFold (lastBanName d) name then d <| lastBanName := "" |> else d).

Definition WhitelistPlayer g (pname : string) (level : Z) d : playerdb :=
  if negb (g_running g) then d
  else if g_CustomWhitelist g then
    if 254 <=? level then WriteFact ("/whitelist add " +:+ pname) d else d
  else
    let requiredLevel := if g_RegularsOnly g then 2 else if g_MembersOnly g then 1 else 0 in
    if requiredLevel =? 0 then d
    else if requiredLevel <=? level then WriteFact ("/whitelist add " +:+ pname) d
    else WriteFact ("/whitelist remove " +:+ pname) d.

Definition syncPlayerAdminAccess g (name : string) (previousLevel level : Z) d : playerdb :=
  if negb (g_running g) || Bool.eqb (254 <=? previousLevel) (254 <=? level) then d
  else if 254 <=? level then WriteFact ("/promote " +:+ name) d
  else WriteFact ("/demote " +:+ name) d.

Definition applyPlayerLevelInGame (pname : string) (previousLevel level : Z) d : playerdb :=
  if level <? 0 then d
  else if (level =? 0) && (previousLevel =? 0) then d
  else d <| sent ::= fun l => l ++ [SoftModLevel pname level] |>.

Definition onlinePlayerName g (who : string) : option string :=
  if bool_decide (who = "") then None else list_find (fun n => EqualFold n who = true) (g_online g) ≫= fun x => Some x.2.

Definition syncOnlinePlayerLevel g (pname : string) (previousLevel level : Z) d : playerdb :=
  match onlinePlayerName g pname with
  | Some onlineName => applyPlayerLevelInGame onlineName previousLevel level d
  | None => d
  end.

(** ** Dirty marks *)
Definition compactNow g : Z := Z.quot (swrap 64 (g_now g / Second - SeenEpoch)) SeenDivisor.

Definition ExpandTime (input : Z) : Z := swrap 64 (swrap 64 (input * SeenDivisor) + SeenEpoch).

Definition markPlayerDirty (pname : string) d : playerdb :=
  let pname := ToLower (TrimSpace pname) in
  if bool_decide (pname = "") then d
  else
    let n := wrap 64 (next d + 1) in
    d <| next := n |> <| versions ::= <[pname := n]> |>.

Definition playerChangePending (pname : string) d : bool := bool_decide (is_Some (versions d !! ToLower pname)).

Definition signalPlayerListDirty d : playerdb := d <| PlayerListDirty := true |> <| signalled := true |>.

Definition SetPlayerListDirty (pname : string) d : playerdb := signalPlayerListDirty (markPlayerDirty pname d).

Definition SetPlayerStatsDirty (pname : string) d : playerdb := markPlayerDirty pname d <| PlayerStatsDirty := true |>.

(** A record that is in the list. *)
Definition with_player (pname : string) (f : PlayerData -> PlayerData) d : playerdb :=
  d <| PlayerList ::= alter f pname |>.

Definition bad_name (pname : string) : bool := bool_decide (pname = "") || (MaxNameLength <? slen pname).

(** ** The operations *)
Definition PlayerSetBanReason g (pname reason : string) (doban : bool) d : bool * playerdb :=
  if bad_name pname || (MaxBanReasonLength <? slen reason) then (false, d)
  else
    let pname := ToLower pname in
    match PlayerList d !! pname with
    | Some p =>
        let d := if doban && negb (pd_AlreadyBanned p) then WriteBan pname reason d else d in
        let d := with_player pname (fun p =>
          (if bool_decide (reason = "") then p <| pd_Level := -1 |> else p <| pd_Level := -1 |> <| pd_BanReason := reason |>)
            <| pd_LastSeen := 0 |> <| pd_Creation := 0 |> <| pd_AlreadyBanned := true |>) d in
        (true, SetPlayerListDirty pname d)
    | None =>
        let newplayer := zeroPlayer <| pd_Name := pname |> <| pd_Level := -1 |> <| pd_BanReason := reason |>
          <| pd_AlreadyBanned := true |> <| pd_LastSeen := compactNow g |> <| pd_Creation := compactNow g |> in
        let d := d <| PlayerList ::= <[pname := newplayer]> |> in
        let d := if doban then WriteBan pname reason d else d in
        (false, SetPlayerListDirty pname d)
    end.

Definition PlayerSetID g (pname id : string) (level : Z) d : bool * playerdb :=
  if bool_decide (id = "") || bad_name pname then (false, d)
  else
    let pname := ToLower pname in
    match PlayerList d !! pname with
    | Some p =>
        let d := with_player pname (fun p => p <| pd_ID := id |>) d in
        let d := WhitelistPlayer g pname level (syncPlayerAdminAccess g pname (pd_Level p) level d) in
        let d := with_player pname (fun p => p <| pd_Level := level |> <| pd_LastSeen := compactNow g |>) d in
        (true, SetPlayerListDirty pname d)
    | None =>
        let newplayer := zeroPlayer <| pd_Name := pname |> <| pd_Level := level |> <| pd_ID := id |>
          <| pd_LastSeen := compactNow g |> <| pd_Creation := compactNow g |> in
        let d := SetPlayerListDirty pname (d <| PlayerList ::= <[pname := newplayer]> |>) in
        (false, WhitelistPlayer g pname level (syncPlayerAdminAccess g pname 0 level d))
    end.

Definition UpdateSeen g (pname : string) d : playerdb :=
  if bad_name pname then d
  else
    let pname := ToLower pname in
    match PlayerList d !! pname with
    | Some _ => SetPlayerStatsDirty pname (with_player pname (fun p => p <| pd_LastSeen := compactNow g |>) d)
    | None => d
    end.

Definition playerLevelSet g (pname : string) (level : Z) (modifyOnly touchUnchanged : bool) d : bool * playerdb :=
  if bad_name pname then (false, d)
  else
    let pname := ToLower pname in
    match PlayerList d !! pname with
    | Some p =>
        let d :=
          if negb (pd_Level p =? level) then
            let d := with_player pname (fun p => p <| pd_LastSeen := compactNow g |>) d in
            let d := syncPlayerAdminAccess g pname (pd_Level p) level d in
            let d := with_player pname (fun p => p <| pd_Level := level |>) d in
            WhitelistPlayer g pname level (SetPlayerListDirty pname d)
          else if touchUnchanged then
            SetPlayerStatsDirty pname (with_player pname (fun p => p <| pd_LastSeen := compactNow g |>) d)
          else d in
        (true, if level <=? DeletedLevel then with_player pname (fun p => p <| pd_ID := "0" |>) d else d)
    | None =>
        if modifyOnly then (false, d)
        else
          let newplayer := zeroPlayer <| pd_Name := pname |> <| pd_Level := level |>
            <| pd_LastSeen := compactNow g |> <| pd_Creation := compactNow g |> in
          let d := SetPlayerListDirty pname (d <| PlayerList ::= <[pname := newplayer]> |>) in
          (false, WhitelistPlayer g pname level (syncPlayerAdminAccess g pname 0 level d))
    end.

Definition PlayerLevelSet g pname level modifyOnly d := playerLevelSet g pname level modifyOnly true d.
Definition PlayerLevelSetFromGame g pname level d := playerLevelSet g pname level false false d.

Definition PlayerLevelGet g (pname : string) (modifyOnly : bool) d : Z * playerdb :=
  if bad_name pname then (0, d)
  else
    let pname := ToLower pname in
    match PlayerList d !! pname with
    | Some p =>
        (pd_Level p, SetPlayerStatsDirty pname (with_player pname (fun p => p <| pd_LastSeen := compactNow g |>) d))
    | None =>
        if modifyOnly then (0, d)
        else
          let newplayer := zeroPlayer <| pd_Name := pname |> <| pd_LastSeen := compactNow g |> <| pd_Creation := compactNow g |> in
          (0, SetPlayerListDirty pname (d <| PlayerList ::= <[pname := newplayer]> |>))
    end.

(** One round of the play-time loop: the minutes are counted under the lock; the
    names it collected, in the order of the map, are marked after. *)
Definition seen_lately g p : bool := Sub (g_now g) (ExpandTime (pd_LastSeen p) * Second) <=? Minute.

Definition count_minutes g d : playerdb :=
  d <| PlayerList ::= fmap (fun p => if seen_lately g p then p <| pd_Minutes ::= fun m => swrap 64 (m + 1) |> else p) |>.

Definition updatedPlayers g (order : list string) d : list string :=
  omap (fun pname => p ← PlayerList d !! pname; if seen_lately g p then Some (pd_Name p) else None) order.

Definition mark_updated (names : list string) d : playerdb := foldl (fun d pname => SetPlayerStatsDirty pname d) d names.

(** *** The lists the server is given when it boots *)
Definition admin_names d : list string :=
  sort_strings (pd_Name <$> (filter (fun p => 254 <= pd_Level p) (map_to_list (PlayerList d)).*2)).

(** *** [addPlayer]: what a load does with one record *)
Definition keep_loaded (p0 : PlayerData) (level : Z) (id : string) (creation seen : Z) (reason : string) (susScore mins : Z) : PlayerData :=
  let p := if level <=? -254 then p0 <| pd_ID := "0" |> else p0 in
  let p := if negb (level =? pd_Level p0) then p <| pd_Level := level |> else p in
  let p := if 0 <? creation then p <| pd_Creation := creation |> else p in
  let p := if pd_LastSeen p0 <? seen then p <| pd_LastSeen := seen |> else p in
  let p := if (0 <=? level) && negb (bool_decide (id = "")) then p <| pd_ID := id |> else p in
  let p := if (level <? 2) && (0 <=? level) && negb (susScore =? 0) then p <| pd_SusScore := susScore |> else p in
  if (0 <=? level) && (0 <? mins) && (pd_Minutes p0 <? mins) then p <| pd_Minutes := mins |> else p.

Definition addPlayer g (iname : string) (level : Z) (id : string) (creation seen : Z) (reason : string) (susScore mins : Z)
    (doBan : bool) d : bool * playerdb :=
  if bad_name iname then (false, d)
  else
    let pname := ToLower iname in
    match PlayerList d !! pname with
    | Some p =>
        let bans := (level =? -1) && (0 <=? pd_Level p) && doBan in
        let d :=
          if level <=? -254 then d
          else if bans then WriteBan pname reason d
          else if (0 <=? level) && (pd_Level p =? -1) then WriteUnban pname d
          else d in
        let d :=
          if negb (level =? pd_Level p)
          then WhitelistPlayer g pname level (syncPlayerAdminAccess g pname (pd_Level p) level d) else d in
        let d := if pd_LastSeen p <? seen then WhitelistPlayer g pname level d else d in
        (bans, with_player pname (fun p => keep_loaded p level id creation seen reason susScore mins) d)
    | None =>
        let newplayer := mkPlayer pname level id reason creation seen mins susScore false 0 in
        let d := d <| PlayerList ::= <[pname := newplayer]> |> in
        let bans := (level =? -1) && doBan in
        let d := if bans then WriteBan pname reason d else d in
        (bans, WhitelistPlayer g pname level (syncPlayerAdminAccess g pname 0 level d))
    end.

(** *** [LoadPlayers] *)
Record load_flags := { f_bootMode : bool; f_minimize : bool; f_clearBans : bool }.

Record load_state := mkLoad {
  ls_db : playerdb; ls_temp : gmap string PlayerData; ls_banCount : Z; ls_doBan : bool;
  ls_changed : gset string; ls_levels : gmap string Z }.
#[local] Instance load_state_settable : Settable load_state := mkSettable (fun r =>
  mkLoad (ls_db r) (ls_temp r) (ls_banCount r) (ls_doBan r) (ls_changed r) (ls_levels r)).

(** The cleaning of one record by [-cleanDB]. *)
Definition minimized p : PlayerData :=
  let p := if 0 <? pd_Level p then p <| pd_SusScore := 0 |> <| pd_BanReason := "" |> <| pd_SpamScore := 0 |> else p in
  let p := match ParseUint (pd_ID p) with
           | None | Some 0 => p <| pd_BanReason := pd_ID p |> <| pd_ID := "" |>
           | Some _ => p
           end in
  if bool_decide (pd_ID p = "0") then p <| pd_ID := "" |> else p.

Definition load_drop (pname : string) (s : load_state) : load_state :=
  s <| ls_temp ::= delete pname |> <| ls_db ::= (fun d => d <| PlayerList ::= delete pname |>) |> <| ls_changed ::= union {[pname]} |>.

Definition ordinary (fl : load_flags) : bool := negb (f_bootMode fl) && negb (f_minimize fl) && negb (f_clearBans fl).

(** The rest of the loop body, once the record is neither skipped nor dropped. *)
Definition load_keep g (fl : load_flags) (pname : string) (previous : option PlayerData) p (s : load_state) : load_state :=
  let s := if f_minimize fl then s <| ls_changed ::= union {[pname]} |> else s in
  let p := if f_minimize fl then minimized p else p in
  let s := if 5 <? ls_banCount s then s <| ls_doBan := false |> else s in
  let promoted := (pd_Level p =? 2) && (VeteranThresh <? pd_Minutes p) in
  let p := if promoted then p <| pd_Level := 3 |> else p in
  let s := if promoted then s <| ls_changed ::= union {[pname]} |> else s in
  let previousLevel := match previous with Some q => pd_Level q | None => 0 end in
  let s :=
    if ordinary fl && (bool_decide (previous = None) || negb (previousLevel =? pd_Level p))
    then s <| ls_levels ::= <[pname := previousLevel]> |> else s in
  let '(didBan, d) := addPlayer g pname (pd_Level p) (pd_ID p) (pd_Creation p) (pd_LastSeen p) (pd_BanReason p)
    (pd_SusScore p) (pd_Minutes p) (if f_bootMode fl then false else ls_doBan s) (ls_db s) in
  s <| ls_temp ::= <[pname := p]> |> <| ls_db := d |> <| ls_banCount ::= fun n => if didBan then n + 1 else n |>.

Definition load_one g (fl : load_flags) (s : load_state) (pname : string) : load_state :=
  match ls_temp s !! pname with
  | None => s
  | Some p =>
      if ordinary fl && playerChangePending pname (ls_db s) then s
      else if f_clearBans fl && (pd_Level p <? 0) then load_drop pname s
      else if f_minimize fl && ((pd_Level p =? 0) || (pd_Level p =? -255)) then load_drop pname s
      else load_keep g fl pname (PlayerList (ls_db s) !! pname) p s
  end.

(** The three maps are iterated in orders the language does not fix. *)
Definition load_players g (fl : load_flags) (order names : list string) (temp : gmap string PlayerData) d : playerdb :=
  let s := foldl (load_one g fl) (mkLoad d temp 0 true ∅ ∅) order in
  let d := foldl (fun d pname => match ls_levels s !! pname, ls_temp s !! pname with
                                 | Some previousLevel, Some p => syncOnlinePlayerLevel g pname previousLevel (pd_Level p) d
                                 | _, _ => d end) (ls_db s) names in
  foldl (fun d pname => if bool_decide (pname ∈ ls_changed s) then SetPlayerListDirty pname d else d) d names.

(** *** Saving: the changes, and what a completed save forgets *)
Definition snapshotPlayerChanges d : gmap string (option PlayerData) * gmap string Z :=
  (map_imap (fun pname _ => Some (PlayerList d !! pname)) (versions d), versions d).

Definition completePlayerChanges (saved : gmap string Z) d : playerdb :=
  d <| versions ::= filter (fun kv : string * Z => saved !! kv.1 <> Some kv.2) |>.

Definition mergePlayerChanges (players changes : gmap string (option PlayerData)) : gmap string (option PlayerData) :=
  map_fold (fun pname (player : option PlayerData) players =>
              match player with
              | None => delete pname players
              | Some _ => <[pname := player]> players
              end) players changes.
End playerdb.
