(* ===== verification/PlayerFile.v ===== *)
(** * The shared database file: [WritePlayers] and [LoadPlayers] of [src/fact/playerDB.go]

    Every server of a host keeps its own list (PlayerDB.v) and shares one file.  A
    save takes a snapshot of the marked records, waits for the lock of the file,
    reads it, merges its records in, writes the file with a rename and forgets the
    marks it saved.  Between these steps the process goes on changing its list, and
    so do the others: [WritePlayers] is given twice, as the code runs it alone, and
    as a machine that makes one step at a time.  [cluster] is the host: the file, its
    kernel lock, and the processes with their saves.

    The abstract specification is a table of players on which a save acts at one moment
    between its begin and its end, with the records that were marked when it began:
    [spec_does].  Both machines say what they do with the same events. *)
From Stdlib Require Import Ascii.
From stdpp Require Import relations.
From S2P Require Import Prelude.
From S2P Require Import GoInt.
From S2P Require Import GoString.
From S2P Require Import GoTime.
From S2P Require Import Glob.
From S2P Require Import PlayerCodec.
From S2P Require Import PlayerDB.

Notation players := (gmap string (option PlayerData)).
Notation changes := (gmap string (option PlayerData)) (only parsing).

(** What a file can hold: names are not empty, and Go's field types. *)
Definition storable (m : players) : Prop := m !! "" = None /\ db_typed m.

(** ** The codec, as the database relies on it *)
Class DatabaseFormat `{UnicodeTables, Zstd, Sonic} (format : string) : Prop :=
  format_roundtrip : forall m data, storable m -> encodePlayerDatabase m format = Ok data ->
    data <> [] /\ (decodePlayerDatabase data).1 = Ok (persisted_db m).

Section file.
Context `{UnicodeTables, Zstd, Sonic}.
Variable format : string.

(** The content of the file: a missing or empty file has no players. *)
Definition read_players (file : option bytes) : option players :=
  match file with
  | None => Some ∅
  | Some filedata =>
      if bool_decide (filedata = []) then Some ∅
      else match (decodePlayerDatabase filedata).1 with Ok m => Some m | Err _ => None end
  end.

(** ** [WritePlayers] on its own *)
Record write_env := { we_lock : bool; we_read : bool; we_write : bool }.

Definition WritePlayers (e : write_env) (file : option bytes) (d : playerdb) : option bytes * playerdb :=
  let '(chs, saved) := snapshotPlayerChanges d in
  if bool_decide (chs = ∅) then (file, d)
  else if negb (we_lock e) then (file, signalPlayerListDirty d)
  else if negb (we_read e) then (file, signalPlayerListDirty d)
  else
    match read_players file with
    | None => (file, signalPlayerListDirty d)
    | Some m =>
        match encodePlayerDatabase (mergePlayerChanges m chs) format with
        | Err _ => (file, signalPlayerListDirty d)
        | Ok data =>
            if negb (we_write e) then (file, signalPlayerListDirty d)
            else (Some data, completePlayerChanges saved d)
        end
    end.

(** ** [WritePlayers], a step at a time *)
Inductive writer :=
  | WLock (chs : changes) (saved : gmap string Z)
  | WRead (chs : changes) (saved : gmap string Z)
  | WCommit (chs : changes) (data : bytes) (saved : gmap string Z)
  | WComplete (saved : gmap string Z).

Definition write_begin (d : playerdb) : option writer :=
  let '(chs, saved) := snapshotPlayerChanges d in
  if bool_decide (chs = ∅) then None else Some (WLock chs saved).

(** [ok] is what the call of the step answers: the lock, the read, the rename. *)
Definition write_next (ok : bool) (w : writer) (file : option bytes) (d : playerdb)
    : option writer * option bytes * playerdb :=
  let fails := (None, file, signalPlayerListDirty d) in
  match w with
  | WLock chs saved => if ok then (Some (WRead chs saved), file, d) else fails
  | WRead chs saved =>
      if negb ok then fails
      else
        match read_players file with
        | None => fails
        | Some m =>
            match encodePlayerDatabase (mergePlayerChanges m chs) format with
            | Err _ => fails
            | Ok data => (Some (WCommit chs data saved), file, d)
            end
        end
  | WCommit _ data saved => if ok then (Some (WComplete saved), Some data, d) else fails
  | WComplete saved => (None, file, completePlayerChanges saved d)
  end.

(** Run alone, the machine is [WritePlayers]. *)
Definition write_all (e : write_env) (file : option bytes) (d : playerdb) : option bytes * playerdb :=
  let step ok (x : option writer * option bytes * playerdb) :=
    match x with (Some w, file, d) => write_next ok w file d | _ => x end in
  let '(_, file, d) := step true (step (we_write e) (step (we_read e) (step (we_lock e) (write_begin d, file, d)))) in
  (file, d).

Lemma WritePlayers_machine e file d : write_all e file d = WritePlayers e file d.
Proof.
  unfold write_all, WritePlayers, write_begin. destruct (snapshotPlayerChanges d) as [chs saved].
  destruct (bool_decide (chs = ∅)); [done|]. destruct (we_lock e); [|done]. cbn -[read_players].
  destruct (we_read e); cbn -[read_players]; [|done]. destruct (read_players file) as [m|]; [|done].
  destruct (encodePlayerDatabase _ _); [|done]. cbn. by destruct (we_write e).
Qed.

(** ** [LoadPlayers] *)
Definition LoadPlayers (g : game) (fl : load_flags) (read_ok : bool) (order names : list string)
    (file : option bytes) (d : playerdb) : playerdb :=
  match file with
  | Some filedata =>
      if negb read_ok then d
      else match (decodePlayerDatabase filedata).1 with
           | Err _ => d
           | Ok temp => load_players g fl order names (omap id temp) d
           end
  | None => d
  end.

(** ** The operations of one process between two steps of a save *)
Inductive local_op :=
  | LBan (pname reason : string) (doban : bool)
  | LSetID (pname id : string) (level : Z)
  | LSeen (pname : string)
  | LLevel (pname : string) (level : Z) (modifyOnly touchUnchanged : bool)
  | LLevelGet (pname : string) (modifyOnly : bool)
  | LMinutes
  | LMark (names : list string).

Definition run_local (g : game) (p : local_op) (d : playerdb) : playerdb :=
  match p with
  | LBan pname reason doban => (PlayerSetBanReason g pname reason doban d).2
  | LSetID pname id level => (PlayerSetID g pname id level d).2
  | LSeen pname => UpdateSeen g pname d
  | LLevel pname level modifyOnly touch => (playerLevelSet g pname level modifyOnly touch d).2
  | LLevelGet pname modifyOnly => (PlayerLevelGet g pname modifyOnly d).2
  | LMinutes => count_minutes g d
  | LMark names => mark_updated names d
  end.

(** The levels given are of Go's type. *)
Definition local_ok (p : local_op) : Prop :=
  match p with LSetID _ _ level | LLevel _ level _ _ => in_s 64 level | _ => True end.

(** ** The host *)
Record process := mkProc { pr_db : playerdb; pr_writer : option writer }.
#[export] Instance process_settable : Settable process := mkSettable (fun r => mkProc (pr_db r) (pr_writer r)).

Record cluster := mkCluster { c_file : option bytes; c_lock : option nat; c_procs : gmap nat process }.
#[export] Instance cluster_settable : Settable cluster := mkSettable (fun r => mkCluster (c_file r) (c_lock r) (c_procs r)).

Definition holds_lock (w : writer) : bool := match w with WLock _ _ => false | _ => true end.

(** The lock after a step of process [i]'s save: the descriptor is closed when the
    function returns. *)
Definition lock_after (i : nat) (w' : option writer) (c : cluster) : option nat :=
  match w' with
  | Some w => if holds_lock w then Some i else c_lock c
  | None => if bool_decide (c_lock c = Some i) then None else c_lock c
  end.

Definition set_proc (i : nat) (p : process) (c : cluster) : cluster := c <| c_procs ::= <[i := p]> |>.

(** What can be seen of the host: its processes come and go, their owners and the game
    make them change their lists, they read the file, and their saves begin and are
    reported as done or failed.  The steps of a save in between are silent. *)
Inductive event :=
  | EBoot (i : nat)
  | EDie (i : nat)
  | ELocal (i : nat) (g : game) (op : local_op)
  | ELoad (i : nat) (g : game) (fl : load_flags) (read_ok : bool) (order names : list string)
  | ESave (i : nat)
  | ESaved (i : nat) (ok : bool).

(** [saved] is reported when the last step is over; any other end is a failure. *)
Definition is_complete (w : writer) : bool := match w with WComplete _ => true | _ => false end.
Definition write_event (i : nat) (w : writer) (w' : option writer) : option event :=
  match w' with Some _ => None | None => Some (ESaved i (is_complete w)) end.

Inductive cluster_does : option event -> cluster -> cluster -> Prop :=
  | step_boot c i : c_procs c !! i = None -> cluster_does (Some (EBoot i)) c (set_proc i (mkProc emptyDB None) c)
  | step_die c i p : c_procs c !! i = Some p ->
      cluster_does (Some (EDie i)) c (c <| c_procs ::= delete i |> <| c_lock := lock_after i None c |>)
  | step_local c i p g op : c_procs c !! i = Some p -> local_ok op ->
      cluster_does (Some (ELocal i g op)) c (set_proc i (p <| pr_db ::= run_local g op |>) c)
  | step_load c i p g fl read_ok order names : c_procs c !! i = Some p -> pr_writer p = None ->
      cluster_does (Some (ELoad i g fl read_ok order names)) c
        (set_proc i (p <| pr_db ::= LoadPlayers g fl read_ok order names (c_file c) |>) c)
  | step_begin c i p : c_procs c !! i = Some p -> pr_writer p = None ->
      cluster_does (Some (ESave i)) c (set_proc i (p <| pr_writer := write_begin (pr_db p) |>) c)
  | step_write c i p w ok w' file' d' : c_procs c !! i = Some p -> pr_writer p = Some w ->
      (holds_lock w = false -> ok = true -> c_lock c = None) ->
      write_next ok w (c_file c) (pr_db p) = (w', file', d') ->
      cluster_does (write_event i w w') c (set_proc i (mkProc d' w') (c <| c_file := file' |> <| c_lock := lock_after i w' c |>)).

Definition cluster_step (c c' : cluster) : Prop := exists e, cluster_does e c c'.

Definition initial_cluster (file : option bytes) : cluster := mkCluster file None ∅.

Definition cluster_reachable (file : option bytes) : cluster -> Prop := rtc cluster_step (initial_cluster file).

(** ** The abstract table *)
(** One table of players, and the lists of the processes.  There is no lock, no file and
    no reading before writing: a save takes the marked records when it begins, and they
    are in the table at one moment before it is reported as done. *)
Inductive saving :=
  | Waiting (chs : changes) (saved : gmap string Z)
  | Applied (saved : gmap string Z).

Record sproc := mkSproc { sp_db : playerdb; sp_save : option saving }.
Record spec := mkSpec { s_players : players; s_procs : gmap nat sproc }.
#[export] Instance spec_settable : Settable spec := mkSettable (fun r => mkSpec (s_players r) (s_procs r)).

(** What a save makes of the table. *)
Definition saved_in (m : players) (chs : changes) : players := persisted_db (mergePlayerChanges m chs).

(** Nothing marked: nothing to save. *)
Definition spec_save (d : playerdb) : option saving :=
  let '(chs, saved) := snapshotPlayerChanges d in
  if bool_decide (chs = ∅) then None else Some (Waiting chs saved).

(** A list after the process has read the table; a read that fails, or of a file that is
    not there yet, changes nothing. *)
Definition spec_load (g : game) (fl : load_flags) (order names : list string) (m : players) (d : playerdb) : playerdb :=
  load_players g fl order names (omap id m) d.

Definition set_sproc (i : nat) (p : sproc) (s : spec) : spec := s <| s_procs ::= <[i := p]> |>.

Inductive spec_does : option event -> spec -> spec -> Prop :=
  | spec_boot s i : s_procs s !! i = None -> spec_does (Some (EBoot i)) s (set_sproc i (mkSproc emptyDB None) s)
  | spec_die s i p : s_procs s !! i = Some p -> spec_does (Some (EDie i)) s (s <| s_procs ::= delete i |>)
  | spec_local s i d sv g op : s_procs s !! i = Some (mkSproc d sv) ->
      spec_does (Some (ELocal i g op)) s (set_sproc i (mkSproc (run_local g op d) sv) s)
  | spec_loaded s i d g fl order names : s_procs s !! i = Some (mkSproc d None) ->
      spec_does (Some (ELoad i g fl true order names)) s (set_sproc i (mkSproc (spec_load g fl order names (s_players s) d) None) s)
  | spec_not_loaded s i p g fl read_ok order names : s_procs s !! i = Some p -> read_ok = false \/ s_players s = ∅ ->
      spec_does (Some (ELoad i g fl read_ok order names)) s s
  | spec_begin s i d : s_procs s !! i = Some (mkSproc d None) ->
      spec_does (Some (ESave i)) s (set_sproc i (mkSproc d (spec_save d)) s)
  | spec_apply s i d chs saved : s_procs s !! i = Some (mkSproc d (Some (Waiting chs saved))) ->
      spec_does None s (set_sproc i (mkSproc d (Some (Applied saved))) (s <| s_players := saved_in (s_players s) chs |>))
  | spec_done s i d saved : s_procs s !! i = Some (mkSproc d (Some (Applied saved))) ->
      spec_does (Some (ESaved i true)) s (set_sproc i (mkSproc (completePlayerChanges saved d) None) s)
  | spec_failed s i d chs saved : s_procs s !! i = Some (mkSproc d (Some (Waiting chs saved))) ->
      spec_does (Some (ESaved i false)) s (set_sproc i (mkSproc (signalPlayerListDirty d) None) s).

(** The part of a process that the table knows. *)
Definition saving_of (w : writer) : saving :=
  match w with
  | WLock chs saved | WRead chs saved | WCommit chs _ saved => Waiting chs saved
  | WComplete saved => Applied saved
  end.
Definition sproc_of (p : process) : sproc := mkSproc (pr_db p) (saving_of <$> pr_writer p).

(** The state of the host stands for a state of the table: the file holds the table, and
    every process has the same list, marks and save. *)
Definition abstracts (c : cluster) (s : spec) : Prop :=
  read_players (c_file c) = Some (s_players s) /\ s_procs s = sproc_of <$> c_procs c.
End file.

(** ** Runs and what is seen of them *)
Inductive runs {S} (step : option event -> S -> S -> Prop) : list event -> S -> S -> Prop :=
  | runs_nil s : runs step [] s s
  | runs_event e tr s1 s2 s3 : runs step tr s1 s2 -> step (Some e) s2 s3 -> runs step (tr ++ [e]) s1 s3
  | runs_silent tr s1 s2 s3 : runs step tr s1 s2 -> step None s2 s3 -> runs step tr s1 s3.
