(* ===== verification/PlayerDBSafety.v ===== *)
(** * The player list stays well formed, and no mark is lost

    Every operation of PlayerDB.v keeps the list well formed: a record is filed under
    its own name in lower case, its fields are of their types, and no mark is on the
    empty name.  A save forgets exactly the marks it has saved: a record that was
    marked after the snapshot stays marked. *)
From Stdlib Require Import Ascii.
From S2P Require Import Prelude.
From S2P Require Import GoInt.
From S2P Require Import GoString.
From S2P Require Import GoTime.
From S2P Require Import Glob.
From S2P Require Import PlayerCodec.
From S2P Require Import PlayerDB.
From S2P Require Import PlayerFile.

#[local] Opaque TrimSpace ToLower compactNow.

Section safety.
Context `{UnicodeTables}.
Implicit Types (d : playerdb) (g : game) (p : PlayerData).

(** ** What leaves the list alone *)
Definition same_list d d' : Prop :=
  PlayerList d' = PlayerList d /\ versions d' = versions d /\ next d' = next d.

#[local] Instance same_list_refl : Reflexive same_list.
Proof. by intros d. Qed.
#[local] Instance same_list_trans : Transitive same_list.
Proof. intros a b c (?&?&?) (?&?&?). split_and!; congruence. Qed.

Lemma WriteBan_same name reason d : same_list d (WriteBan name reason d).
Proof. done. Qed.
Lemma WriteUnban_same name d : same_list d (WriteUnban name d).
Proof. unfold WriteUnban. by destruct (EqualFold _ _). Qed.
Lemma WhitelistPlayer_same g pname level d : same_list d (WhitelistPlayer g pname level d).
Proof. unfold WhitelistPlayer. by repeat case_goal. Qed.
Lemma syncPlayerAdminAccess_same g name l0 l d : same_list d (syncPlayerAdminAccess g name l0 l d).
Proof. unfold syncPlayerAdminAccess. by repeat case_goal. Qed.
Lemma syncOnlinePlayerLevel_same g pname l0 l d : same_list d (syncOnlinePlayerLevel g pname l0 l d).
Proof. unfold syncOnlinePlayerLevel, applyPlayerLevelInGame. by repeat case_goal. Qed.
Lemma signal_same d : same_list d (signalPlayerListDirty d).
Proof. done. Qed.
#[local] Hint Resolve WriteBan_same WriteUnban_same WhitelistPlayer_same syncPlayerAdminAccess_same
  syncOnlinePlayerLevel_same signal_same : same_list.

(** ** Well-formedness *)
Definition filed (k : string) p : Prop :=
  pd_Name p = k /\ int_fields_ok p /\ exists n, bad_name n = false /\ k = ToLower n.

Record wf d : Prop := {
  wf_filed : map_Forall filed (PlayerList d);
  wf_marks : versions d !! "" = None }.

Lemma wf_same d d' : same_list d d' -> wf d -> wf d'.
Proof. intros (E1 & E2 & _) [Hf Hm]. constructor; [by rewrite E1|by rewrite E2]. Qed.

Lemma emptyDB_wf : wf emptyDB.
Proof. constructor; simpl; [apply map_Forall_empty|apply lookup_empty]. Qed.

Lemma compactNow_range g : in_s 64 (compactNow g).
Proof.
  Transparent compactNow. unfold compactNow. Opaque compactNow.
  pose proof (swrap_range 64 (g_now g / Second - SeenEpoch) ltac:(lia)) as Hr. unfold in_s in *.
  assert (Hq : Z.abs (Z.quot (swrap 64 (g_now g / Second - SeenEpoch)) SeenDivisor) <= Z.abs (swrap 64 (g_now g / Second - SeenEpoch)))
    by (rewrite <-Z.quot_abs by done; apply Z.quot_le_upper_bound; unfold SeenDivisor; lia).
  change (2 ^ (64 - 1)) with 9223372036854775808 in *.
  assert (Hm : swrap 64 (g_now g / Second - SeenEpoch) = -9223372036854775808 \/
               Z.abs (swrap 64 (g_now g / Second - SeenEpoch)) < 9223372036854775808) by lia.
  destruct Hm as [->|?]; [by vm_compute|lia].
Qed.
#[local] Hint Resolve compactNow_range : wf.

Lemma zero_in_s : in_s 64 0.
Proof. by vm_compute. Qed.
Lemma banned_in_s : in_s 64 (-1).
Proof. by vm_compute. Qed.
#[local] Hint Resolve zero_in_s banned_in_s : wf.

Lemma filed_new n level id reason creation seen mins sus banned spam :
  bad_name n = false -> in_s 64 level -> in_s 64 creation -> in_s 64 seen -> in_s 64 mins -> in_s 64 sus ->
  filed (ToLower n) (mkPlayer (ToLower n) level id reason creation seen mins sus banned spam).
Proof. intros. split; [done|]. split; [by split_and!|eauto]. Qed.

Lemma wf_insert k p d : filed k p -> wf d -> wf (d <| PlayerList ::= <[k := p]> |>).
Proof. intros Hp [Hf Hm]. constructor; [|done]. by apply map_Forall_insert_2. Qed.

Lemma wf_delete k d : wf d -> wf (d <| PlayerList ::= delete k |>).
Proof. intros [Hf Hm]. constructor; [|done]. by apply map_Forall_delete. Qed.

(** A change of a record that keeps its name and the types of its fields. *)
Definition keeps_filed (f : PlayerData -> PlayerData) : Prop :=
  forall p, int_fields_ok p -> pd_Name (f p) = pd_Name p /\ int_fields_ok (f p).

Lemma filed_f f k p : keeps_filed f -> filed k p -> filed k (f p).
Proof. intros Hf (Hn & Hi & Hk). destruct (Hf p Hi) as [En ?]. split; [congruence|by split]. Qed.

Lemma wf_with_player k f d : keeps_filed f -> wf d -> wf (with_player k f d).
Proof.
  intros Hf [Hl Hm]. constructor; [|done]. unfold with_player. simpl. intros k' p' Hk'.
  apply lookup_alter_Some in Hk' as [(<- & p & Hp & ->)|[Hne Hp]]; [|by apply Hl].
  by eapply filed_f, Hl.
Qed.

Lemma wf_mark pname d : wf d -> wf (markPlayerDirty pname d).
Proof.
  intros [Hl Hm]. unfold markPlayerDirty. case_bool_decide as Hne; [by constructor|].
  constructor; [done|]. simpl. by rewrite lookup_insert_ne.
Qed.

Lemma wf_list_dirty pname d : wf d -> wf (SetPlayerListDirty pname d).
Proof. intros Hw. apply (wf_same (markPlayerDirty pname d)); [done|by apply wf_mark]. Qed.

Lemma wf_stats_dirty pname d : wf d -> wf (SetPlayerStatsDirty pname d).
Proof. intros Hw. apply (wf_same (markPlayerDirty pname d)); [done|by apply wf_mark]. Qed.
#[local] Hint Resolve wf_insert wf_delete wf_with_player wf_list_dirty wf_stats_dirty filed_new : wf.
#[local] Hint Extern 3 (wf (WriteBan _ _ _)) => eapply wf_same; [apply WriteBan_same|] : wf.
#[local] Hint Extern 3 (wf (WriteUnban _ _)) => eapply wf_same; [apply WriteUnban_same|] : wf.
#[local] Hint Extern 3 (wf (WhitelistPlayer _ _ _ _)) => eapply wf_same; [apply WhitelistPlayer_same|] : wf.
#[local] Hint Extern 3 (wf (syncPlayerAdminAccess _ _ _ _ _)) => eapply wf_same; [apply syncPlayerAdminAccess_same|] : wf.
#[local] Hint Extern 2 (keeps_filed _) => intros ? (?&?&?&?&?); split; [done|]; split_and!; simpl; auto with wf : wf.

(** ** The operations keep it *)
Lemma PlayerSetBanReason_wf g pname reason doban d : wf d -> wf (PlayerSetBanReason g pname reason doban d).2.
Proof.
  intros Hw. unfold PlayerSetBanReason. destruct (bad_name pname) eqn:Hb; [done|]. simpl.
  destruct (_ <? _); [done|]. destruct (PlayerList d !! _) as [p|]; simpl.
  - apply wf_list_dirty, wf_with_player; [case_bool_decide; auto with wf|]. destruct (_ && _); auto with wf.
  - apply wf_list_dirty. destruct doban; [eapply wf_same; [apply WriteBan_same|]|]; (apply wf_insert; [apply filed_new; simpl; auto with wf|done]).
Qed.

Lemma PlayerSetID_wf g pname id level d : in_s 64 level -> wf d -> wf (PlayerSetID g pname id level d).2.
Proof.
  intros Hi Hw. unfold PlayerSetID. destruct (bool_decide (id = "")); [done|]. destruct (bad_name pname) eqn:Hb; [done|].
  destruct (PlayerList d !! _) as [p|]; simpl.
  - apply wf_list_dirty, wf_with_player; auto with wf.
  - eapply wf_same; [apply WhitelistPlayer_same|]. eapply wf_same; [apply syncPlayerAdminAccess_same|].
    apply wf_list_dirty, wf_insert; [|done]. apply filed_new; simpl; auto with wf.
Qed.

Lemma UpdateSeen_wf g pname d : wf d -> wf (UpdateSeen g pname d).
Proof. intros Hw. unfold UpdateSeen. destruct (bad_name pname); [done|]. destruct (PlayerList d !! _); auto with wf. Qed.

Lemma playerLevelSet_wf g pname level modifyOnly touch d :
  in_s 64 level -> wf d -> wf (playerLevelSet g pname level modifyOnly touch d).2.
Proof.
  intros Hi Hw. unfold playerLevelSet. destruct (bad_name pname) eqn:Hb; [done|].
  destruct (PlayerList d !! _) as [p|]; simpl.
  - set (d1 := if negb (pd_Level p =? level) then _ else _).
    assert (Hd1 : wf d1).
    { unfold d1. destruct (negb _); [|destruct touch; auto with wf].
      eapply wf_same; [apply WhitelistPlayer_same|]. apply wf_list_dirty, wf_with_player; auto with wf. }
    destruct (_ <=? _); auto with wf.
  - destruct modifyOnly; [done|]. eapply wf_same; [apply WhitelistPlayer_same|]. eapply wf_same; [apply syncPlayerAdminAccess_same|].
    apply wf_list_dirty, wf_insert; [|done]. apply filed_new; simpl; auto with wf.
Qed.

Lemma PlayerLevelGet_wf g pname modifyOnly d : wf d -> wf (PlayerLevelGet g pname modifyOnly d).2.
Proof.
  intros Hw. unfold PlayerLevelGet. destruct (bad_name pname) eqn:Hb; [done|].
  destruct (PlayerList d !! _) as [p|]; simpl; [auto with wf|]. destruct modifyOnly; [done|].
  apply wf_list_dirty, wf_insert; [|done]. apply filed_new; simpl; auto with wf.
Qed.

Lemma count_minutes_wf g d : wf d -> wf (count_minutes g d).
Proof.
  intros [Hl Hm]. constructor; [|done]. simpl. intros k p Hk. apply lookup_fmap_Some in Hk as (q & <- & Hq).
  destruct (seen_lately g q); [|by apply Hl]. refine (filed_f (fun p => p <| pd_Minutes ::= fun m => swrap 64 (m + 1) |>) k q _ (Hl _ _ Hq)).
  intros x (?&?&?&?&?). split; [done|]. split_and!; try done. by apply swrap_range.
Qed.

Lemma mark_updated_wf names d : wf d -> wf (mark_updated names d).
Proof. revert d. induction names as [|n names IH]; simpl; intros d Hw; [done|]. by apply IH, wf_stats_dirty. Qed.

Lemma run_local_wf g op d : local_ok op -> wf d -> wf (run_local g op d).
Proof.
  destruct op; simpl; intros;
    eauto using PlayerSetBanReason_wf, PlayerSetID_wf, UpdateSeen_wf, playerLevelSet_wf, PlayerLevelGet_wf, count_minutes_wf, mark_updated_wf.
Qed.

(** ** Loading keeps it *)
Lemma keep_loaded_filed level id creation seen reason sus mins :
  in_s 64 level -> in_s 64 creation -> in_s 64 seen -> in_s 64 sus -> in_s 64 mins ->
  keeps_filed (fun p => keep_loaded p level id creation seen reason sus mins).
Proof.
  intros ????? p (?&?&?&?&?). unfold keep_loaded.
  destruct (level <=? -254), (negb (level =? pd_Level p)), (0 <? creation), (pd_LastSeen p <? seen),
    ((0 <=? level) && negb (bool_decide (id = ""))), ((level <? 2) && (0 <=? level) && negb (sus =? 0));
    destruct (_ && (pd_Minutes p <? mins)); (split; [done|]; by split_and!).
Qed.

Lemma addPlayer_wf g iname level id creation seen reason sus mins ban d :
  in_s 64 level -> in_s 64 creation -> in_s 64 seen -> in_s 64 sus -> in_s 64 mins -> wf d ->
  wf (addPlayer g iname level id creation seen reason sus mins ban d).2.
Proof.
  intros ????? Hw. unfold addPlayer. destruct (bad_name iname) eqn:Hb; [done|].
  destruct (PlayerList d !! _) as [p|]; simpl.
  - apply wf_with_player; [by apply keep_loaded_filed|].
    repeat case_goal; auto 6 with wf.
  - eapply wf_same; [apply WhitelistPlayer_same|]. eapply wf_same; [apply syncPlayerAdminAccess_same|].
    destruct (_ && _); [eapply wf_same; [apply WriteBan_same|]|]; (apply wf_insert; [by apply filed_new|done]).
Qed.

Definition temp_typed (m : gmap string PlayerData) : Prop := map_Forall (fun _ p => int_fields_ok p) m.

Lemma minimized_ints p : int_fields_ok p -> int_fields_ok (minimized p).
Proof.
  intros (?&?&?&?&?). unfold minimized. destruct (0 <? pd_Level p); cbn [pd_ID]; destruct (ParseUint _) as [[]|];
    case_bool_decide; split_and!; simpl; auto using zero_in_s.
Qed.

Lemma load_keep_wf g fl pname previous p s :
  int_fields_ok p -> wf (ls_db s) -> temp_typed (ls_temp s) ->
  wf (ls_db (load_keep g fl pname previous p s)) /\ temp_typed (ls_temp (load_keep g fl pname previous p s)).
Proof.
  intros Hp Hw Ht. unfold load_keep.
  set (p1 := if f_minimize fl then minimized p else p).
  assert (Hp1 : int_fields_ok p1) by (unfold p1; destruct (f_minimize fl); [by apply minimized_ints|done]). clearbody p1.
  set (p2 := if (pd_Level p1 =? 2) && _ then _ else p1).
  assert (Hp2 : int_fields_ok p2).
  { unfold p2. destruct (_ && _); [|done]. destruct Hp1 as (?&?&?&?&?). by split_and!. }
  clearbody p2. set (s1 := if f_minimize fl then _ else s).
  assert (Hs1 : ls_db s1 = ls_db s /\ ls_temp s1 = ls_temp s) by (unfold s1; by destruct (f_minimize fl)). clearbody s1.
  set (s2 := if 5 <? ls_banCount s1 then _ else s1).
  assert (Hs2 : ls_db s2 = ls_db s /\ ls_temp s2 = ls_temp s) by (unfold s2; by destruct (_ <? _)). clearbody s2.
  set (s3 := if (pd_Level p1 =? 2) && _ then _ else s2).
  assert (Hs3 : ls_db s3 = ls_db s /\ ls_temp s3 = ls_temp s) by (unfold s3; by destruct (_ && _)). clearbody s3.
  set (s4 := if ordinary fl && _ then _ else s3).
  assert (Hs4 : ls_db s4 = ls_db s /\ ls_temp s4 = ls_temp s) by (unfold s4; by destruct (_ && _)). clearbody s4.
  destruct Hs4 as [-> Et]. destruct Hp2 as (?&?&?&?&?).
  pose proof (addPlayer_wf g pname (pd_Level p2) (pd_ID p2) (pd_Creation p2) (pd_LastSeen p2) (pd_BanReason p2)
    (pd_SusScore p2) (pd_Minutes p2) (if f_bootMode fl then false else ls_doBan s4) (ls_db s)) as Ha.
  destruct (addPlayer _ _ _ _ _ _ _ _ _ _ _) as [b d]. cbn -[in_s]. split; [by apply Ha|].
  rewrite Et. apply map_Forall_insert_2; [by split_and!|done].
Qed.

Lemma load_one_wf g fl s pname :
  wf (ls_db s) -> temp_typed (ls_temp s) -> wf (ls_db (load_one g fl s pname)) /\ temp_typed (ls_temp (load_one g fl s pname)).
Proof.
  intros Hw Ht. unfold load_one. destruct (ls_temp s !! pname) as [p|] eqn:Hp; [|done].
  destruct (_ && playerChangePending _ _); [done|].
  destruct (f_clearBans fl && _); [split; [by apply wf_delete|by apply map_Forall_delete]|].
  destruct (f_minimize fl && _); [split; [by apply wf_delete|by apply map_Forall_delete]|].
  apply load_keep_wf; [by eapply Ht|done|done].
Qed.

Lemma foldl_wf {A} (f : playerdb -> A -> playerdb) l d :
  (forall d x, wf d -> wf (f d x)) -> wf d -> wf (foldl f d l).
Proof. intros Hf. revert d. induction l; simpl; auto. Qed.

Lemma load_players_wf g fl order names temp d : temp_typed temp -> wf d -> wf (load_players g fl order names temp d).
Proof.
  intros Ht Hw. unfold load_players.
  assert (Hs : forall s, wf (ls_db s) -> temp_typed (ls_temp s) ->
    wf (ls_db (foldl (load_one g fl) s order)) /\ temp_typed (ls_temp (foldl (load_one g fl) s order))).
  { induction order as [|n order IH]; simpl; intros s Hs1 Hs2; [done|]. apply IH; by apply load_one_wf. }
  destruct (Hs (mkLoad d temp 0 true ∅ ∅) Hw Ht) as [Hd _]. revert Hd.
  generalize (foldl (load_one g fl) (mkLoad d temp 0 true ∅ ∅) order) as s. intros s Hd.
  apply foldl_wf; [intros d' x ?; case_bool_decide; auto using wf_list_dirty|].
  apply foldl_wf; [|done]. intros d' x ?. repeat case_match; [|done..].
  eapply wf_same; [apply syncOnlinePlayerLevel_same|done].
Qed.
End safety.
