(* ===== verification/PlayerFileSafety.v ===== *)
(** * The shared database behaves as one table

    The reads, merges and writes of the servers of a host, interleaved in any way and
    cut short by failures and crashes, refine [spec_does]: a save acts on the table at
    one moment or not at all.  A save forgets exactly the marks it saved, and a reload does
    not touch a record with a change that is not saved. *)
From Stdlib Require Import Ascii.
From stdpp Require Import relations.
From S2P Require Import Prelude.
From S2P Require Import GoInt.
From S2P Require Import GoString.
From S2P Require Import GoTime.
From S2P Require Import Glob.
From S2P Require Import PlayerCodec.
From S2P Require Import PlayerDB.
From S2P Require Import PlayerFile.
From S2P Require Import PlayerDBSafety.

#[local] Opaque TrimSpace ToLower compactNow.

(** ** The binary format is one the database can rely on *)
#[export] Instance binary_DatabaseFormat `{UnicodeTables, ZstdLaws, Sonic} : DatabaseFormat "binary".
Proof.
  intros m data [Hne Hty] (payload & Hp & Hinit & ->)%encode_binary_ok. split; [done|].
  rewrite decode_envelope. cbn [fst]. destruct (encode_payload_ok _ _ Hp) as (_ & _ & Hlen & _).
  rewrite decodeBinary_envelope by done. by apply decode_encode_payload.
Qed.

(** ** Merging *)
Lemma merge_lookup (m chs : players) k :
  mergePlayerChanges m chs !! k = match chs !! k with Some (Some p) => Some (Some p) | Some None => None | None => m !! k end.
Proof.
  unfold mergePlayerChanges. revert k. apply (map_fold_weak_ind (fun r chs => forall k, r !! k =
    match chs !! k with Some (Some p) => Some (Some p) | Some None => None | None => m !! k end)); [done|].
  intros j o chs' r Hj Hr k. destruct o as [p|]; destruct (decide (j = k)) as [->|Hne].
  - by rewrite !lookup_insert_eq.
  - by rewrite !lookup_insert_ne.
  - by rewrite lookup_delete_eq, lookup_insert_eq.
  - by rewrite lookup_delete_ne, lookup_insert_ne.
Qed.

Lemma merge_storable m chs : storable m -> storable chs -> storable (mergePlayerChanges m chs).
Proof.
  intros [Hm Htm] [Hc Htc]. split; [by rewrite merge_lookup, Hc|].
  intros k p. rewrite merge_lookup. destruct (chs !! k) as [[q|]|] eqn:E; [intros [= <-]|done|].
  - by eapply Htc.
  - intros Hk. by eapply Htm.
Qed.

Lemma persisted_storable m : storable m -> storable (persisted_db m).
Proof.
  intros [Hm Ht]. split; [unfold persisted_db; by rewrite lookup_fmap, Hm|].
  intros k p Hk q ->. unfold persisted_db in Hk. rewrite lookup_fmap in Hk. apply fmap_Some in Hk as ([p|] & Hp & [= ->]).
  exact (Ht _ _ Hp p eq_refl).
Qed.

Lemma storable_empty : storable ∅.
Proof. split; [apply lookup_empty|apply map_Forall_empty]. Qed.

Section marks.
Context `{UnicodeTables}.
Implicit Types (d : playerdb) (g : game).

(** ** The snapshot *)
Lemma snapshot_lookup d k :
  (snapshotPlayerChanges d).1 !! k = match versions d !! k with Some _ => Some (PlayerList d !! k) | None => None end.
Proof. unfold snapshotPlayerChanges. simpl. rewrite map_lookup_imap. by destruct (versions d !! k). Qed.

Lemma snapshot_storable d : wf d -> storable (snapshotPlayerChanges d).1.
Proof.
  intros [Hf Hm]. split; [by rewrite snapshot_lookup, Hm|].
  intros k p. rewrite snapshot_lookup. destruct (versions d !! k); [|done]. intros [= <-] q Hq. by apply (Hf _ _ Hq).
Qed.

Lemma snapshot_empty d : (snapshotPlayerChanges d).1 = ∅ <-> versions d = ∅.
Proof.
  split; intros E; apply map_eq; intros k; rewrite lookup_empty.
  - apply (f_equal (fun m : changes => m !! k)) in E. rewrite snapshot_lookup, lookup_empty in E. by destruct (versions d !! k).
  - by rewrite snapshot_lookup, E, lookup_empty.
Qed.

(** ** Marks are numbered upwards *)
Definition marks_of (p : local_op) : Z := match p with LMark names => Z.of_nat (length names) | _ => 1 end.

(** [d'] comes after [d] with at most [n] marks in between. *)
Record newer (n : Z) d d' : Prop := {
  nw_next : next d <= next d' <= next d + n;
  nw_marks : forall k, versions d' !! k = versions d !! k \/ exists v, versions d' !! k = Some v /\ next d < v <= next d' }.

Lemma newer_trans m n a b c : newer m a b -> newer n b c -> newer (m + n) a c.
Proof.
  intros [H1 M1] [H2 M2]. split; [lia|]. intros k.
  destruct (M2 k) as [->|(v & -> & ?)]; [|right; exists v; split; [done|lia]].
  destruct (M1 k) as [->|(v & -> & ?)]; [by left|]. right. exists v. split; [done|lia].
Qed.

Lemma newer_more m n d d' : m <= n -> newer m d d' -> newer n d d'.
Proof. intros ? [? ?]. split; [lia|done]. Qed.

Lemma mark_newer pname d : 0 <= next d -> next d + 1 < 2 ^ 64 -> newer 1 d (markPlayerDirty pname d).
Proof.
  intros H0 Hw. unfold markPlayerDirty. case_bool_decide; [split; [lia|intros k; by left]|].
  assert (E : wrap 64 (next d + 1) = next d + 1) by (apply wrap_small; unfold in_u; lia).
  split; simpl; rewrite E; [lia|]. intros k.
  destruct (decide (ToLower (TrimSpace pname) = k)) as [->|Hne]; [|left; by rewrite lookup_insert_ne].
  right. exists (next d + 1). rewrite lookup_insert_eq. split; [done|lia].
Qed.

(** Only the marks of the list matter here. *)
Definition same_marks d d' : Prop := versions d' = versions d /\ next d' = next d.
Lemma newer_frame n d d1 d2 d' : same_marks d d1 -> same_marks d2 d' -> newer n d1 d2 -> newer n d d'.
Proof.
  intros [Ev En] [Ev' En'] [Hn Hm]. split; [lia|]. intros k. rewrite Ev', En', <-En.
  destruct (Hm k) as [E|?]; [|by right]. left. by rewrite E, Ev.
Qed.

Lemma with_marks d d1 pname d' :
  0 <= next d -> next d + 1 < 2 ^ 64 -> same_marks d d1 -> same_marks (markPlayerDirty pname d1) d' -> newer 1 d d'.
Proof.
  intros H0 Hw Hs Hs'. apply (newer_frame 1 d d1 (markPlayerDirty pname d1)); [done..|].
  destruct Hs as [_ En]. apply mark_newer; lia.
Qed.

Lemma marks_refl d d' : same_marks d d' -> newer 1 d d'.
Proof. intros [Ev En]. split; [lia|]. intros k. left. by rewrite Ev. Qed.

Lemma newer_after n d d1 d' : same_list d1 d' -> newer n d d1 -> newer n d d'.
Proof. intros (_ & ? & ?). by apply newer_frame. Qed.

Section one_op.
Context (g : game) (d : playerdb) (H0 : 0 <= next d) (Hw : next d + 1 < 2 ^ 64).

Lemma list_dirty_newer pname d1 : same_marks d d1 -> newer 1 d (SetPlayerListDirty pname d1).
Proof. intros. by eapply with_marks. Qed.
Lemma stats_dirty_newer pname d1 : same_marks d d1 -> newer 1 d (SetPlayerStatsDirty pname d1).
Proof. intros. by eapply with_marks. Qed.

Lemma effects_marks :
  (forall name reason d1, same_marks d d1 -> same_marks d (WriteBan name reason d1)) /\
  (forall pname level d1, same_marks d d1 -> same_marks d (WhitelistPlayer g pname level d1)) /\
  (forall name l0 l d1, same_marks d d1 -> same_marks d (syncPlayerAdminAccess g name l0 l d1)) /\
  (forall pname f d1, same_marks d d1 -> same_marks d (with_player pname f d1)).
Proof.
  split_and!; intros; try done.
  - destruct (WhitelistPlayer_same g pname level d1) as (_ & ? & ?). destruct H1. split; congruence.
  - destruct (syncPlayerAdminAccess_same g name l0 l d1) as (_ & ? & ?). destruct H1. split; congruence.
Qed.

Ltac effects := destruct effects_marks as (?&?&?&?); repeat first [done | match goal with h : context [same_marks] |- _ => apply h end].
Ltac dirty := repeat (eapply newer_after; [first [apply WhitelistPlayer_same | apply syncPlayerAdminAccess_same]|]);
  first [apply list_dirty_newer | apply stats_dirty_newer | apply marks_refl]; effects.

Lemma run_local_once op : (forall names, op <> LMark names) -> newer 1 d (run_local g op d).
Proof.
  intros Hop. destruct op as [pname reason doban|pname id level|pname|pname level modifyOnly touch|pname modifyOnly| |names]; simpl.
  - unfold PlayerSetBanReason. destruct (bad_name pname || _); [by apply marks_refl|].
    destruct (PlayerList d !! _) as [p|]; simpl; [destruct (doban && _)|destruct doban]; dirty.
  - unfold PlayerSetID. destruct (_ || bad_name pname); [by apply marks_refl|]. destruct (PlayerList d !! _) as [p|]; simpl; dirty.
  - unfold UpdateSeen. destruct (bad_name pname); [by apply marks_refl|]. destruct (PlayerList d !! _); dirty.
  - unfold playerLevelSet. destruct (bad_name pname); [by apply marks_refl|]. destruct (PlayerList d !! _) as [p|]; simpl.
    + set (d1 := if negb (pd_Level p =? level) then _ else _).
      assert (newer 1 d d1) by (unfold d1; destruct (negb _); [|destruct touch]; dirty).
      destruct (_ <=? _); [by apply (newer_frame 1 d d d1)|done].
    + destruct modifyOnly; [by apply marks_refl|]. dirty.
  - unfold PlayerLevelGet. destruct (bad_name pname); [by apply marks_refl|]. destruct (PlayerList d !! _) as [p|]; simpl; [dirty|].
    destruct modifyOnly; [by apply marks_refl|]. dirty.
  - by apply marks_refl.
  - by destruct (Hop names).
Qed.
End one_op.

Lemma mark_updated_newer names d :
  0 <= next d -> next d + Z.of_nat (length names) < 2 ^ 64 -> newer (Z.of_nat (length names)) d (mark_updated names d).
Proof.
  revert d. induction names as [|n names IH]; simpl length; intros d H0 Hw.
  - split; [simpl; lia|]. intros k. by left.
  - assert (Hd : newer 1 d (SetPlayerStatsDirty n d)) by (apply stats_dirty_newer; [done|lia|done]).
    destruct Hd as [Hn Hm]. eapply newer_more; [|eapply newer_trans; [by split|apply IH]]; lia.
Qed.

Lemma run_local_newer g op d :
  0 <= next d -> next d + marks_of op < 2 ^ 64 -> newer (marks_of op) d (run_local g op d).
Proof.
  intros H0 Hw. destruct op; try (apply run_local_once; [done|done|by intros ??]). by apply mark_updated_newer.
Qed.

(** A process that goes on working. *)
Fixpoint run_locals (l : list (game * local_op)) d : playerdb :=
  match l with [] => d | (g, op) :: l => run_locals l (run_local g op d) end.
Definition total_marks (l : list (game * local_op)) : Z := foldr (fun x n => marks_of x.2 + n) 0 l.

Lemma total_marks_nonneg l : 0 <= total_marks l.
Proof. induction l as [|[g op] l IH]; simpl; [done|]. destruct op; simpl; lia. Qed.

Lemma run_locals_newer l d : 0 <= next d -> next d + total_marks l < 2 ^ 64 -> newer (total_marks l) d (run_locals l d).
Proof.
  revert d. induction l as [|[g op] l IH]; simpl; intros d H0 Hw; [split; [lia|]; intros k; by left|].
  pose proof (total_marks_nonneg l) as Hp.
  assert (Hd : newer (marks_of op) d (run_local g op d)) by (apply run_local_newer; lia).
  eapply newer_trans; [done|]. destruct Hd as [Hn _]. apply IH; lia.
Qed.

(** (safety) no change is lost between a save and what happens during it: when a save
    completes, the marks that are left are exactly those that were given after it took
    its snapshot, whatever the process did in the meantime. *)
Theorem newer_marks_survive_save l d k v :
  (forall k v, versions d !! k = Some v -> v <= next d) -> 0 <= next d -> next d + total_marks l < 2 ^ 64 ->
  versions (completePlayerChanges (snapshotPlayerChanges d).2 (run_locals l d)) !! k = Some v <->
  versions (run_locals l d) !! k = Some v /\ next d < v.
Proof.
  intros Hb H0 Hw. destruct (run_locals_newer l d H0 Hw) as [_ Hm].
  unfold completePlayerChanges, snapshotPlayerChanges. simpl. rewrite map_lookup_filter_Some. simpl.
  split; intros [Hv Hn]; (split; [done|]).
  - destruct (Hm k) as [E|(v' & E & Hr)]; [|rewrite E in Hv; injection Hv as <-; lia]. rewrite E in Hv. congruence.
  - intros Hd. specialize (Hb k v Hd). lia.
Qed.
End marks.

(** ** One save, alone *)
Section file.
Context `{DatabaseFormat format}.
Notation read_players := (@read_players _ _).
Implicit Types (d : playerdb) (m chs : players) (c : cluster).

Lemma read_written m data : storable m -> encodePlayerDatabase m format = Ok data -> read_players (Some data) = Some (persisted_db m).
Proof.
  intros Hs He. destruct (format_roundtrip m data Hs He) as [Hne Hd]. unfold PlayerFile.read_players.
  by rewrite bool_decide_eq_false_2, Hd.
Qed.

(** C2: (error) a save is all or nothing, and each of its steps decides: it does nothing when
    nothing is marked; otherwise it succeeds exactly when the lock is taken, the file is
    read, its content decodes, the merged table encodes and the file is written.  When it
    succeeds the file holds what the marked records make of the table, the list stays and
    no mark is left; when it fails the file and every mark stay and the list is marked
    for another save. *)
Theorem WritePlayers_all_or_nothing e file d :
  wf d -> (forall m, read_players file = Some m -> storable m) ->
  let '(file', d') := WritePlayers format e file d in
  let succeeds := exists m data, we_lock e = true /\ we_read e = true /\ we_write e = true /\ read_players file = Some m /\
    encodePlayerDatabase (mergePlayerChanges m (snapshotPlayerChanges d).1) format = Ok data in
  (versions d = ∅ -> file' = file /\ d' = d) /\
  (versions d <> ∅ -> succeeds ->
    versions d' = ∅ /\ PlayerList d' = PlayerList d /\
    exists m, read_players file = Some m /\ read_players file' = Some (saved_in m (snapshotPlayerChanges d).1)) /\
  (versions d <> ∅ -> ~ succeeds -> file' = file /\ d' = signalPlayerListDirty d).
Proof.
  intros Hw Hst. unfold WritePlayers.
  pose proof (snapshot_empty d) as Hemp. pose proof (snapshot_storable d Hw) as Hchs.
  assert (Hsnd : (snapshotPlayerChanges d).2 = versions d) by done.
  destruct (snapshotPlayerChanges d) as [chs saved]. simpl in *. subst saved.
  case_bool_decide as Hc; cbv beta iota; [by split_and!; try (intros []; by apply Hemp)|].
  assert (Hne : versions d <> ∅) by (intros E; by apply Hc, Hemp).
  destruct (we_lock e); simpl; [|split_and!; try done; intros _ (? & ? & ? & _); done].
  destruct (we_read e); simpl; [|split_and!; try done; intros _ (? & ? & _ & ? & _); done].
  destruct (read_players file) as [m|] eqn:Hm; [|split_and!; try done; by intros _ (? & ? & _ & _ & _ & ? & _)].
  destruct (encodePlayerDatabase (mergePlayerChanges m chs) format) as [data|err] eqn:He;
    [|split_and!; try done; intros _ (? & ? & _ & _ & _ & [= <-] & ?); congruence].
  destruct (we_write e); simpl; [|split_and!; try done; by intros _ (? & ? & _ & _ & ? & _)].
  split_and!; [done| |intros _ Hf; destruct Hf; by exists m, data]. intros _ _. split_and!; [|done|].
  - unfold completePlayerChanges. simpl. apply map_empty_filter. intros k v Hk Hn. by apply Hn.
  - exists m. split; [done|]. apply read_written; [|done]. by apply merge_storable; [apply Hst|].
Qed.

(** ** The host *)
Definition writer_ok c (i : nat) (w : writer) : Prop :=
  match w with
  | WLock chs _ => storable chs
  | WRead chs _ => storable chs /\ c_lock c = Some i
  | WCommit chs data _ => storable chs /\ c_lock c = Some i /\
      exists m, read_players (c_file c) = Some m /\ encodePlayerDatabase (mergePlayerChanges m chs) format = Ok data
  | WComplete _ => c_lock c = Some i
  end.

Record CInv c : Prop := {
  ci_file : exists m, read_players (c_file c) = Some m /\ storable m;
  ci_procs : forall i p, c_procs c !! i = Some p -> wf (pr_db p);
  ci_writers : forall i p w, c_procs c !! i = Some p -> pr_writer p = Some w -> writer_ok c i w;
  ci_lock : forall i, c_lock c = Some i -> exists p w, c_procs c !! i = Some p /\ pr_writer p = Some w /\ holds_lock w = true }.

Lemma holds_locked c i w : writer_ok c i w -> holds_lock w = true -> c_lock c = Some i.
Proof. destruct w; simpl; by intros; destruct_and?. Qed.

(** Another process's save does not depend on the lock changing hands. *)
Lemma writer_ok_file c c' i w : c_file c' = c_file c -> (holds_lock w = true -> c_lock c' = c_lock c) -> writer_ok c i w -> writer_ok c' i w.
Proof. intros Ef El. destruct w; simpl in *; rewrite ?Ef, ?El by done; done. Qed.

(** A process whose save is left alone. *)
Lemma set_db_CInv c i p d' : CInv c -> c_procs c !! i = Some p -> wf d' -> CInv (set_proc i (p <| pr_db := d' |>) c).
Proof.
  intros [Hf Hp Hw Hl] Hi Hd. constructor; simpl; [done| | |].
  - intros j q [[<- <-]|[_ ?]]%lookup_insert_Some; [done|by eapply Hp].
  - intros j q w [[<- <-]|[_ ?]]%lookup_insert_Some; simpl; intros; [by eapply Hw|by eapply Hw].
  - intros j (q & w & Hq & Hqw & Hh)%Hl. destruct (decide (i = j)) as [<-|Hne].
    + exists (p <| pr_db := d' |>), w. rewrite lookup_insert_eq. simplify_eq. done.
    + exists q, w. by rewrite lookup_insert_ne.
Qed.

Lemma LoadPlayers_wf g fl ok order names c d : CInv c -> wf d -> wf (LoadPlayers g fl ok order names (c_file c) d).
Proof.
  intros Hc Hd. destruct (ci_file _ Hc) as (m & Hm & _ & Hty). unfold LoadPlayers.
  destruct (c_file c) as [data|]; [|done]. destruct ok; [|done]. simpl in *.
  case_bool_decide as E.
  - subst data. simpl. apply load_players_wf; [|done]. intros k p Hk. by rewrite lookup_omap, lookup_empty in Hk.
  - destruct (decodePlayerDatabase data).1 as [temp|] eqn:Ed; [|done]. injection Hm as ->.
    apply load_players_wf; [|done]. intros k p. rewrite lookup_omap. destruct (m !! k) as [[q|]|] eqn:Ek; [|done..].
    intros [= <-]. by apply (Hty _ _ Ek).
Qed.

(** The save of a process ends, or goes one step on. *)
Lemma replace_writer c i p p' file' lock' :
  CInv c -> c_procs c !! i = Some p -> wf (pr_db p') ->
  (exists m, read_players file' = Some m /\ storable m) ->
  (file' <> c_file c -> c_lock c = Some i) ->
  (forall j, j <> i -> c_lock c = Some j -> lock' = Some j) ->
  (forall w, pr_writer p' = Some w -> writer_ok (mkCluster file' lock' ∅) i w) ->
  (forall j, lock' = Some j -> if decide (j = i) then exists w, pr_writer p' = Some w /\ holds_lock w = true else c_lock c = Some j) ->
  CInv (set_proc i p' (c <| c_file := file' |> <| c_lock := lock' |>)).
Proof.
  intros [Hf Hp Hw Hl] Hi Hd Hm Hfile Hlock Hw' Hl'. constructor; simpl; [done| | |].
  - intros j q [[<- <-]|[_ ?]]%lookup_insert_Some; [done|by eapply Hp].
  - intros j q w [[<- <-]|[Hne Hq]]%lookup_insert_Some Hqw.
    + specialize (Hw' w Hqw). by destruct w.
    + specialize (Hw j q w Hq Hqw). destruct (holds_lock w) eqn:Hh; [|by destruct w].
      pose proof (holds_locked _ _ _ Hw Hh) as Hj.
      assert (Ef : file' = c_file c) by (destruct (decide (file' = c_file c)) as [|Hn]; [done|]; apply Hfile in Hn; congruence).
      apply (writer_ok_file c); [done| |done]. intros _. simpl. rewrite Hj. by apply Hlock.
  - intros j Hj. specialize (Hl' j Hj). destruct (decide (j = i)) as [->|Hne].
    + destruct Hl' as (w & ? & ?). exists p', w. by rewrite lookup_insert_eq.
    + destruct (Hl j Hl') as (q & w & ? & ? & ?). exists q, w. by rewrite lookup_insert_ne.
Qed.

(** The lock once a save of process [i] has ended. *)
Lemma released c i : CInv c -> (forall j, j <> i -> c_lock c = Some j -> lock_after i None c = Some j) /\
  (forall j, lock_after i None c = Some j -> j <> i /\ c_lock c = Some j).
Proof. intros Hc. unfold lock_after. split; intros j; case_bool_decide; intros; try congruence. split; congruence. Qed.

Lemma save_ends_CInv c i p d' :
  CInv c -> c_procs c !! i = Some p -> wf d' ->
  CInv (set_proc i (mkProc d' None) (c <| c_file := c_file c |> <| c_lock := lock_after i None c |>)).
Proof.
  intros Hc Hi Hd. destruct (released c i Hc) as [H1' H2'].
  apply (replace_writer c i p); try done; [apply Hc|].
  intros j Hj. apply H2' in Hj as [? ?]. by rewrite decide_False.
Qed.
Lemma write_begin_ok c i d w : wf d -> write_begin d = Some w -> writer_ok c i w.
Proof.
  unfold write_begin. intros Hst%snapshot_storable. destruct (snapshotPlayerChanges d) as [chs saved].
  case_bool_decide; [done|]. by intros [= <-].
Qed.

Lemma cluster_step_CInv c c' : CInv c -> cluster_step format c c' -> CInv c'.
Proof.
  intros Hc [e Hs]. destruct Hs as [c i Hi|c i p Hi|c i p g op Hi Hop|c i p g fl ok order names Hi Hpw|c i p Hi Hpw
    |c i p w ok w' file' d' Hi Hpw Hfree Hn].
  - destruct Hc as [Hf Hp Hw Hl]. constructor; simpl; [done| | |].
    + intros j q [[<- <-]|[_ ?]]%lookup_insert_Some; [apply emptyDB_wf|by eapply Hp].
    + intros j q w [[<- <-]|[_ ?]]%lookup_insert_Some; simpl; intros; [done|by eapply Hw].
    + intros j (q & w & Hq & ? & ?)%Hl. exists q, w. rewrite lookup_insert_ne; [done|]. intros ->. congruence.
  - destruct (released c i Hc) as [H1' H2']. destruct Hc as [Hf Hp Hw Hl]. constructor; simpl; [done| | |].
    + intros j q [_ Hq]%lookup_delete_Some. by eapply Hp.
    + intros j q w [Hne Hq]%lookup_delete_Some Hqw. specialize (Hw j q w Hq Hqw).
      apply (writer_ok_file c); [done| |done]. intros Hh.
      pose proof (holds_locked _ _ _ Hw Hh) as Hj. trans (Some j); [by apply H1'|done].
    + intros j Hj. apply H2' in Hj as [Hne Hj]. destruct (Hl j Hj) as (q & w & ? & ? & ?).
      exists q, w. by rewrite lookup_delete_ne.
  - apply (set_db_CInv c i p); [done..|]. apply run_local_wf; [done|]. by eapply ci_procs.
  - apply (set_db_CInv c i p); [done..|]. apply LoadPlayers_wf; [done|]. by eapply ci_procs.
  - assert (Hwf : wf (pr_db p)) by by eapply ci_procs.
    assert (Hnl : c_lock c <> Some i) by (intros (q & w & Hq & Hqw & _)%(ci_lock _ Hc); simplify_eq; congruence).
    replace (set_proc _ _ _) with (set_proc i (p <| pr_writer := write_begin (pr_db p) |>)
      (c <| c_file := c_file c |> <| c_lock := c_lock c |>)) by by destruct c.
    apply (replace_writer c i p); try done; [apply Hc| |].
    + intros w. by apply write_begin_ok.
    + intros j Hj. by rewrite decide_False by congruence.
  - assert (Hwf : wf (pr_db p)) by by eapply ci_procs.
    pose proof (ci_writers _ Hc i p w Hi Hpw) as Hok. destruct (ci_file _ Hc) as (m & Hm & Hst).
    assert (Hends : forall d, wf d -> CInv (set_proc i (mkProc d None) (c <| c_file := c_file c |> <| c_lock := lock_after i None c |>)))
      by (intros; by apply (save_ends_CInv c i p)).
    assert (Hfails : (None, c_file c, signalPlayerListDirty (pr_db p)) = (w', file', d') ->
      CInv (set_proc i (mkProc d' w') (c <| c_file := file' |> <| c_lock := lock_after i w' c |>))).
    { intros [= <- <- <-]. apply Hends. by apply (wf_same (pr_db p)). }
    assert (Hgoes : forall v, holds_lock v = true -> writer_ok (mkCluster file' (Some i) ∅) i v ->
      (exists m, read_players file' = Some m /\ storable m) -> (file' <> c_file c -> c_lock c = Some i) ->
      (c_lock c = None \/ c_lock c = Some i) ->
      CInv (set_proc i (mkProc (pr_db p) (Some v)) (c <| c_file := file' |> <| c_lock := Some i |>))).
    { intros v Hv Hvok Hm' Hfile Hlk. apply (replace_writer c i p); try done.
      - intros j Hne Hj. destruct Hlk; congruence.
      - simpl. by intros ? [= <-].
      - intros j [= <-]. rewrite decide_True by done. by exists v. }
    destruct w as [chs saved|chs saved|chs data saved|saved]; simpl in Hn, Hok.
    + destruct ok; [|by apply Hfails]. injection Hn as <- <- <-. simpl. apply Hgoes; try done; [by exists m|]. left. by apply Hfree.
    + destruct Hok as [Hchs Hlk]. destruct ok; [|by apply Hfails]. simpl in Hn. rewrite Hm in Hn.
      destruct (encodePlayerDatabase _ _) as [data|] eqn:He; [|by apply Hfails]. injection Hn as <- <- <-. simpl.
      apply Hgoes; try done; [|by exists m|by right]. split_and!; [done..|]. by exists m.
    + destruct Hok as (Hchs & Hlk & m' & Hm' & He). rewrite Hm in Hm'. injection Hm' as <-. destruct ok; [|by apply Hfails]. injection Hn as <- <- <-. simpl.
      apply Hgoes; try done; [|by right]. exists (saved_in m chs). pose proof (merge_storable m chs Hst Hchs).
      split; [by apply read_written|by apply persisted_storable].
    + injection Hn as <- <- <-. apply Hends. destruct Hwf as [? Hmk]. constructor; [done|]. simpl.
      apply map_lookup_filter_None_2. by left.
Qed.

Lemma cluster_reachable_CInv file m c :
  read_players file = Some m -> storable m -> cluster_reachable format file c -> CInv c.
Proof.
  intros Hm Hst Hc. eapply (rtc_ind_r (fun c => CInv c)); [| |exact Hc].
  - constructor; simpl; [by exists m|..]; intros i; intros; by rewrite ?lookup_empty in *.
  - intros y z _ Hyz Hy. by eapply cluster_step_CInv.
Qed.








Section one_write.
Context (c : cluster) (i : nat) (p : process) (w : writer) (m : players) (Hc : CInv c) (Hm : read_players (c_file c) = Some m).
Context (Hi : c_procs c !! i = Some p) (Hpw : pr_writer p = Some w).



End one_write.


Lemma runs_reachable tr c0 c : runs (cluster_does format) tr c0 c -> rtc (cluster_step format) c0 c.
Proof. induction 1; [done|..]; (eapply rtc_r; [done|by eexists]). Qed.


(** (safety) a step of the host changes the record of a player in the file only when a
    server saves that player, and then to what that server had when it took its
    snapshot: two servers that save different players never undo each other. *)
Theorem save_touches_only_its_records file m c c' m1 m2 k :
  read_players file = Some m -> storable m -> cluster_reachable format file c -> cluster_step format c c' ->
  read_players (c_file c) = Some m1 -> read_players (c_file c') = Some m2 ->
  m2 !! k = m1 !! k \/ m2 !! k = persisted_db m1 !! k \/
  exists i p chs data saved, c_procs c !! i = Some p /\ pr_writer p = Some (WCommit chs data saved) /\
    is_Some (chs !! k) /\ m2 !! k = persisted_db (mergePlayerChanges ∅ chs) !! k.
Proof.
  intros Hm Hst Hc%(cluster_reachable_CInv file m) Hs Hm1 Hm2; [|done..].
  destruct (decide (m2 !! k = m1 !! k)) as [|Hne]; [by left|right].
  destruct (decide (m2 !! k = persisted_db m1 !! k)) as [|Hk]; [by left|right].
  destruct Hs as [e Hs]. destruct Hs as [c i Hi|c i p Hi|c i p g op Hi Hop|c i p g fl ok order names Hi Hpw|c i p Hi Hpw
    |c i p w ok w' file' d' Hi Hpw Hfree Hn]; simpl in Hm2; try congruence.
  pose proof (ci_writers _ Hc i p w Hi Hpw) as Hok.
  assert (Hch : file' <> c_file c) by congruence.
  destruct w as [chs saved|chs saved|chs data saved|saved]; simpl in Hn, Hok.
  - destruct ok; injection Hn as <- <- <-; done.
  - destruct ok; [|by injection Hn as <- <- <-]. simpl in Hn. rewrite Hm1 in Hn.
    destruct (encodePlayerDatabase _ _); injection Hn as <- <- <-; done.
  - destruct ok; [|by injection Hn as <- <- <-]. injection Hn as <- <- <-.
    destruct Hok as (Hchs & _ & m' & Hm' & He). rewrite Hm1 in Hm'. injection Hm' as <-.
    assert (Hst1 : storable m1) by (destruct (ci_file _ Hc) as (x & Hx & ?); congruence).
    rewrite (read_written _ _ (merge_storable m1 chs Hst1 Hchs) He) in Hm2. injection Hm2 as <-.
    exists i, p, chs, data, saved. split_and!; [done..| |].
    + destruct (chs !! k) as [o|] eqn:E; [by eexists|]. exfalso. apply Hk.
      unfold persisted_db. by rewrite !lookup_fmap, merge_lookup, E.
    + destruct (chs !! k) as [o|] eqn:E.
      * unfold persisted_db. by rewrite !lookup_fmap, !merge_lookup, E.
      * exfalso. apply Hk. unfold persisted_db. by rewrite !lookup_fmap, merge_lookup, E.
  - injection Hn as <- <- <-. done.
Qed.

(** C3: (type) in every state the host can reach, a server's list holds each player under
    the lower-case name it was given, the record says the same name, the name was
    neither empty nor longer than 64 bytes, and every number is of its Go type. *)
Theorem player_lists_well_formed file m c i p k q :
  read_players file = Some m -> storable m -> cluster_reachable format file c ->
  c_procs c !! i = Some p -> PlayerList (pr_db p) !! k = Some q ->
  pd_Name q = k /\ int_fields_ok q /\ exists n, 0 < slen n <= MaxNameLength /\ k = ToLower n.
Proof.
  intros Hm Hst Hc%(cluster_reachable_CInv file m) Hi Hk; [|done..].
  destruct (wf_filed _ (ci_procs _ Hc i p Hi) k q Hk) as (? & ? & n & Hn & ->). split_and!; [done..|].
  exists n. split; [|done]. unfold bad_name in Hn. bool_hyps.
  assert (slen n <> 0) by (unfold slen; destruct n; simpl; [done|lia]). pose proof (slen_nonneg n). lia.
Qed.
End file.

(** ** Reloading *)
Section reload.
Context `{UnicodeTables}.
Implicit Types (d : playerdb) (g : game) (s : load_state).

Lemma addPlayer_frame g iname level id creation seen reason sus mins ban d k :
  k <> ToLower iname ->
  let d' := (addPlayer g iname level id creation seen reason sus mins ban d).2 in
  PlayerList d' !! k = PlayerList d !! k /\ versions d' = versions d.
Proof.
  intros Hk. unfold addPlayer. destruct (bad_name iname); [done|].
  assert (Hf : forall d' l0 l b, PlayerList (WhitelistPlayer g (ToLower iname) l (syncPlayerAdminAccess g (ToLower iname) l0 l
      (if b : bool then WriteBan (ToLower iname) reason d' else d'))) = PlayerList d' /\
    versions (WhitelistPlayer g (ToLower iname) l (syncPlayerAdminAccess g (ToLower iname) l0 l
      (if b then WriteBan (ToLower iname) reason d' else d'))) = versions d').
  { intros d' l0 l b. destruct (WhitelistPlayer_same g (ToLower iname) l (syncPlayerAdminAccess g (ToLower iname) l0 l
      (if b then WriteBan (ToLower iname) reason d' else d'))) as (-> & -> & _).
    destruct (syncPlayerAdminAccess_same g (ToLower iname) l0 l (if b then WriteBan (ToLower iname) reason d' else d')) as (-> & -> & _).
    by destruct b. }
  destruct (PlayerList d !! ToLower iname) as [p|]; cbn [snd].
  - unfold with_player. simpl. rewrite lookup_alter_ne by done.
    set (d1 := if level <=? -254 then d else _).
    assert (H1 : same_list d d1) by (unfold d1; repeat case_match; try done; apply WriteUnban_same). clearbody d1.
    set (d2 := if negb _ then _ else d1).
    assert (H2 : same_list d1 d2).
    { unfold d2. destruct (negb _); [|done].
      destruct (WhitelistPlayer_same g (ToLower iname) level (syncPlayerAdminAccess g (ToLower iname) (pd_Level p) level d1)) as (E1 & E2 & E3).
      destruct (syncPlayerAdminAccess_same g (ToLower iname) (pd_Level p) level d1) as (E4 & E5 & E6). split_and!; congruence. }
    clearbody d2. destruct H1 as (<- & <- & _), H2 as (<- & <- & _).
    destruct (_ <? seen); [|done]. by destruct (WhitelistPlayer_same g (ToLower iname) level d2) as (-> & -> & _).
  - edestruct Hf as [-> ->]. simpl. by rewrite lookup_insert_ne.
Qed.

Definition ordinary_load : load_flags := {| f_bootMode := false; f_minimize := false; f_clearBans := false |}.

(** What is kept of a record goes through [addPlayer]. *)
Lemma load_keep_adds g fl pname previous p s :
  exists q ban, ls_db (load_keep g fl pname previous p s) =
    (addPlayer g pname (pd_Level q) (pd_ID q) (pd_Creation q) (pd_LastSeen q) (pd_BanReason q) (pd_SusScore q) (pd_Minutes q)
       ban (ls_db s)).2.
Proof.
  unfold load_keep.
  set (p1 := if (_ : bool) && _ then _ else _). clearbody p1.
  match goal with |- context [addPlayer _ _ _ _ _ _ _ _ _ ?ban ?d] => exists p1, ban; assert (Hd : d = ls_db s) by (by repeat case_match); rewrite Hd end.
  by destruct (addPlayer _ _ _ _ _ _ _ _ _ _ _).
Qed.

Lemma load_one_frame g s pname k :
  is_Some (versions (ls_db s) !! k) ->
  PlayerList (ls_db (load_one g ordinary_load s pname)) !! k = PlayerList (ls_db s) !! k /\
  versions (ls_db (load_one g ordinary_load s pname)) = versions (ls_db s).
Proof.
  intros Hk. unfold load_one. destruct (ls_temp s !! pname) as [p|]; [|done]. simpl.
  unfold playerChangePending. case_bool_decide as Hp; [done|].
  assert (Hne : k <> ToLower pname) by (by intros ->).
  destruct (load_keep_adds g ordinary_load pname (PlayerList (ls_db s) !! pname) p s) as (q & ban & ->).
  by apply addPlayer_frame.
Qed.

Lemma load_loop_frame g order s k :
  is_Some (versions (ls_db s) !! k) ->
  PlayerList (ls_db (foldl (load_one g ordinary_load) s order)) !! k = PlayerList (ls_db s) !! k.
Proof.
  revert s. induction order as [|n order IH]; simpl; intros s Hk; [done|].
  destruct (load_one_frame g s n k Hk) as [E1 E2]. rewrite IH; [done|by rewrite E2].
Qed.

(** (safety) a reload never undoes a change that is not saved yet: whatever the file
    says, the record of a player with a pending change stays exactly as it is in
    memory. *)
Theorem reload_keeps_pending_changes g order names temp d k :
  is_Some (versions d !! k) ->
  PlayerList (load_players g ordinary_load order names temp d) !! k = PlayerList d !! k.
Proof.
  intros Hk. unfold load_players.
  rewrite <-(load_loop_frame g order (mkLoad d temp 0 true ∅ ∅) k Hk).
  generalize (foldl (load_one g ordinary_load) (mkLoad d temp 0 true ∅ ∅) order) as s. intros s.
  assert (Hfold : forall (f : playerdb -> string -> playerdb) l d0, (forall d x, PlayerList (f d x) = PlayerList d) ->
    PlayerList (foldl f d0 l) = PlayerList d0).
  { intros f l d0 Hf. revert d0. induction l as [|x l IH]; simpl; intros d0; [done|]. by rewrite IH, Hf. }
  rewrite !Hfold; [done|..]; intros d0 x.
  - repeat case_match; try done. by destruct (syncOnlinePlayerLevel_same g x z (pd_Level p) d0) as (-> & _).
  - case_bool_decide; [|done]. unfold SetPlayerListDirty, markPlayerDirty. by case_bool_decide.
Qed.
End reload.

(** ** Two servers on one file *)
#[local] Existing Instance ascii_tables.
#[local] Existing Instance zstd_id.
#[local] Existing Instance sonic_none.
#[local] Instance zstd_id_laws : ZstdLaws := fun _ _ => eq_refl.

Module PlayerDemo.
Definition at_time (n : Z) : game := {|
  g_now := (SeenEpoch + 600 + n) * Second; g_date := "01-01-2026"; g_running := true; g_CustomWhitelist := false;
  g_RegularsOnly := false; g_MembersOnly := false; g_online := [];
  g_roles := {| role_New := "New"; role_Member := "Members"; role_Regular := "Regulars"; role_Veteran := "Veterans"; role_Moderator := "Moderators" |} |}.
Definition fine : write_env := {| we_lock := true; we_read := true; we_write := true |}.
Definition save (x : option bytes * playerdb) : option bytes * playerdb := WritePlayers "binary" fine x.1 x.2.
Definition reload (n : Z) (file : option bytes) (d : playerdb) : playerdb :=
  LoadPlayers (at_time n) ordinary_load true ["alice"; "mallory"] ["alice"; "mallory"] file d.
Definition ban_reason (k : string) (m : option players) : option string := m ← m; p ← m !! k; pd_BanReason <$> p.

(** Mallory is known to both servers.  Server one bans her and says why; server two
    reloads, sees her once more and saves what it has. *)
Definition known : playerdb := Eval vm_compute in (PlayerLevelGet (at_time 0) "Mallory" false emptyDB).2.
Definition file0 : option bytes := Eval vm_compute in (save (None, known)).1.
Definition banned : option bytes * playerdb :=
  Eval vm_compute in save (file0, (PlayerSetBanReason (at_time 60) "mallory" "griefing" true (save (None, known)).2).2).
Definition second : option bytes * playerdb :=
  Eval vm_compute in save (banned.1, UpdateSeen (at_time 120) "mallory" (reload 90 banned.1 (save (None, known)).2)).

(** A ban reason that another server wrote is not taken over by a reload, and the next
    save of this server erases it from the file. *)
Theorem ban_reason_erased :
  ban_reason "mallory" (read_players banned.1) = Some "griefing" /\
  (pd_Level <$> PlayerList second.2 !! "mallory") = Some (-1) /\
  ban_reason "mallory" (read_players second.1) = Some "".
Proof. split_and!; vm_compute; reflexivity. Qed.

(** The cleaning of the database moves a Discord ID that is not a number to the ban
    reason, and an ID that is not there counts as one: the reason is erased. *)
Theorem cleaning_erases_ban_reasons :
  let p := zeroPlayer <| pd_Level := -1 |> <| pd_BanReason := "griefing" |> in
  pd_BanReason (minimized p) = "" /\
  (pd_BanReason <$> PlayerList (load_players (at_time 0) {| f_bootMode := false; f_minimize := true; f_clearBans := false |}
     ["mallory"] ["mallory"] {["mallory" := p]} emptyDB) !! "mallory") = Some "".
Proof. split; vm_compute; reflexivity. Qed.

(** *** A run of the host *)
Definition alice : process := mkProc (run_local (at_time 0) (LSetID "Alice" "100" 2) emptyDB) None.
Definition bob : process := mkProc (run_local (at_time 1) (LSetID "Bob" "200" 1) emptyDB) None.

Definition step_of (i : nat) (ok : bool) (c : cluster) : cluster :=
  match c_procs c !! i with
  | Some (mkProc d (Some w)) =>
      let '(w', f, d') := write_next "binary" ok w (c_file c) d in
      set_proc i (mkProc d' w') (c <| c_file := f |> <| c_lock := lock_after i w' c |>)
  | Some (mkProc d None) => set_proc i (mkProc d (write_begin d)) c
  | None => c
  end.

Definition both : cluster := set_proc 2 bob (set_proc 2 (mkProc emptyDB None) (set_proc 1 alice (set_proc 1 (mkProc emptyDB None) (initial_cluster None)))).
(** Both begin to save; the first gets the lock and is about to write.  Then it
    writes and is done, and the second does the same. *)
Definition run_steps (l : list nat) (c : cluster) : cluster := foldl (fun c i => step_of i true c) c l.
Definition ready : cluster := Eval vm_compute in run_steps [1; 2; 1; 1]%nat both.

Definition step_allowed (i : nat) (c : cluster) : bool :=
  match c_procs c !! i with
  | Some (mkProc _ (Some w)) => holds_lock w || bool_decide (c_lock c = None)
  | Some _ => true
  | None => false
  end.

Fixpoint all_allowed (l : list nat) (c : cluster) : bool :=
  match l with [] => true | i :: l => step_allowed i c && all_allowed l (step_of i true c) end.

(** What is seen of such a step. *)
Definition event_of (i : nat) (c : cluster) : option event :=
  match c_procs c !! i with
  | Some (mkProc d (Some w)) => write_event i w (write_next "binary" true w (c_file c) d).1.1
  | _ => Some (ESave i)
  end.
Definition add_event (e : option event) (tr : list event) : list event := match e with Some e => tr ++ [e] | None => tr end.
Fixpoint run_events (l : list nat) (c : cluster) (tr : list event) : list event :=
  match l with [] => tr | i :: l => run_events l (step_of i true c) (add_event (event_of i c) tr) end.

Lemma step_of_step i c : step_allowed i c = true -> cluster_does "binary" (event_of i c) c (step_of i true c).
Proof.
  unfold step_allowed, step_of, event_of. destruct (c_procs c !! i) as [[d [w|]]|] eqn:Hi; [| |done].
  - intros Hl. destruct (write_next "binary" true w (c_file c) d) as [[w' f] d'] eqn:E.
    eapply step_write; [done|done| |done]. intros Hh _. rewrite Hh in Hl. by apply bool_decide_eq_true in Hl.
  - intros _. by apply (step_begin _ c i (mkProc d None)).
Qed.

Lemma run_steps_runs l tr c0 c :
  runs (cluster_does "binary") tr c0 c -> all_allowed l c = true ->
  runs (cluster_does "binary") (run_events l c tr) c0 (run_steps l c).
Proof.
  revert tr c. induction l as [|i l IH]; simpl; intros tr c Hc Hl; [done|]. apply andb_true_iff in Hl as [Hi Hl].
  apply step_of_step in Hi. apply IH; [|done]. destruct (event_of i c); simpl; [by eapply runs_event|by eapply runs_silent].
Qed.

Definition both_events : list event :=
  [EBoot 1; ELocal 1 (at_time 0) (LSetID "Alice" "100" 2); EBoot 2; ELocal 2 (at_time 1) (LSetID "Bob" "200" 1)].
Lemma both_runs : runs (cluster_does "binary") both_events (initial_cluster None) both.
Proof.
  apply (runs_event _ _ [_; _; _] _ (set_proc 2 (mkProc emptyDB None) (set_proc 1 alice (set_proc 1 (mkProc emptyDB None) (initial_cluster None))))).
  - apply (runs_event _ _ [_; _] _ (set_proc 1 alice (set_proc 1 (mkProc emptyDB None) (initial_cluster None)))); [|by apply step_boot].
    apply (runs_event _ _ [_] _ (set_proc 1 (mkProc emptyDB None) (initial_cluster None))).
    + apply (runs_event _ _ [] _ (initial_cluster None)); [constructor|by apply step_boot].
    + by apply (step_local _ _ 1 (mkProc emptyDB None) (at_time 0) (LSetID "Alice" "100" 2)).
  - by apply (step_local _ _ 2 (mkProc emptyDB None) (at_time 1) (LSetID "Bob" "200" 1)).
Qed.


Lemma ready_reachable : cluster_reachable "binary" None ready.
Proof.
  apply (runs_reachable (format := "binary") (run_events [1; 2; 1; 1]%nat both both_events)).
  change ready with (run_steps [1; 2; 1; 1]%nat both). apply run_steps_runs; [exact both_runs|by vm_compute].
Qed.
End PlayerDemo.


Lemma save_touches_only_its_records_witness :
  exists m2, read_players (c_file (PlayerDemo.step_of 1 true PlayerDemo.ready)) = Some m2 /\ m2 !! "bob" = None /\
    exists i p chs data saved, c_procs PlayerDemo.ready !! i = Some p /\ pr_writer p = Some (WCommit chs data saved) /\
      is_Some (chs !! "alice") /\ m2 !! "alice" = persisted_db (mergePlayerChanges ∅ chs) !! "alice".
Proof.
  destruct (read_players (c_file (PlayerDemo.step_of 1 true PlayerDemo.ready))) as [m2|] eqn:E; [|vm_compute in E; discriminate E].
  exists m2. split; [done|].
  assert (Hal : m2 !! "alice" <> None /\ m2 !! "bob" = None) by (vm_compute in E; injection E as <-; by vm_compute).
  split; [apply Hal|].
  destruct (save_touches_only_its_records (format := "binary") None ∅ PlayerDemo.ready (PlayerDemo.step_of 1 true PlayerDemo.ready)
    ∅ m2 "alice") as [Hx|[Hx|Hx]].
  - done.
  - exact storable_empty.
  - exact PlayerDemo.ready_reachable.
  - eexists. apply PlayerDemo.step_of_step. by vm_compute.
  - by vm_compute.
  - exact E.
  - exfalso. apply (proj1 Hal). rewrite Hx. apply lookup_empty.
  - exfalso. apply (proj1 Hal). rewrite Hx. unfold persisted_db. rewrite fmap_empty. apply lookup_empty.
  - exact Hx.
Defined.

Lemma player_lists_well_formed_witness :
  exists p q, c_procs PlayerDemo.ready !! 1%nat = Some p /\ PlayerList (pr_db p) !! "alice" = Some q /\ pd_Name q = "alice".
Proof.
  destruct (c_procs PlayerDemo.ready !! 1%nat) as [p|] eqn:E; [|vm_compute in E; discriminate E].
  destruct (PlayerList (pr_db p) !! "alice") as [q|] eqn:Eq; [|vm_compute in E; injection E as <-; vm_compute in Eq; discriminate Eq].
  exists p, q. split_and!; [done|exact Eq|].
  apply (player_lists_well_formed (format := "binary") None ∅ PlayerDemo.ready 1 p "alice" q);
    [done|exact storable_empty|exact PlayerDemo.ready_reachable|exact E|exact Eq].
Defined.

Lemma newer_marks_survive_save_witness :
  let d := pr_db PlayerDemo.alice in let l := [(PlayerDemo.at_time 5, LSeen "Alice"); (PlayerDemo.at_time 6, LLevel "Carol" 1 false true)] in
  versions (completePlayerChanges (snapshotPlayerChanges d).2 (run_locals l d)) !! "alice" = Some 2.
Proof.
  cbv zeta. apply (newer_marks_survive_save [(PlayerDemo.at_time 5, LSeen "Alice"); (PlayerDemo.at_time 6, LLevel "Carol" 1 false true)]
    (pr_db PlayerDemo.alice)).
  - intros k v Hk. assert (Hv : forall k v, versions (pr_db PlayerDemo.alice) !! k = Some v -> v = 1).
    { intros k' v'. change (versions (pr_db PlayerDemo.alice)) with (<["alice" := 1]> (∅ : gmap string Z)).
      intros [[_ <-]|[_ Hx]]%lookup_insert_Some; [done|by rewrite lookup_empty in Hx]. }
    rewrite (Hv k v Hk). by vm_compute.
  - by vm_compute.
  - by vm_compute.
  - split; by vm_compute.
Defined.

Lemma reload_keeps_pending_changes_witness :
  PlayerList (load_players (PlayerDemo.at_time 9) ordinary_load ["alice"] ["alice"] {["alice" := zeroPlayer]} (pr_db PlayerDemo.alice)) !! "alice"
  = PlayerList (pr_db PlayerDemo.alice) !! "alice".
Proof.
  apply (reload_keeps_pending_changes (PlayerDemo.at_time 9) ["alice"] ["alice"] {["alice" := zeroPlayer]} (pr_db PlayerDemo.alice) "alice").
  exists 1. by vm_compute.
Defined.

Lemma WritePlayers_all_or_nothing_witness :
  let '(file, d) := WritePlayers "binary" PlayerDemo.fine None (pr_db PlayerDemo.alice) in
  versions d = ∅ /\ exists m, read_players None = Some m /\ read_players file = Some (saved_in m (snapshotPlayerChanges (pr_db PlayerDemo.alice)).1).
Proof.
  assert (Hwf : wf (pr_db PlayerDemo.alice)) by (apply run_local_wf; [by vm_compute|apply emptyDB_wf]).
  pose proof (WritePlayers_all_or_nothing (format := "binary") PlayerDemo.fine None (pr_db PlayerDemo.alice) Hwf) as Hx.
  destruct (WritePlayers "binary" PlayerDemo.fine None (pr_db PlayerDemo.alice)) as [file d] eqn:E.
  destruct Hx as (_ & Hx & _).
  - intros m [= <-]. exact storable_empty.
  - destruct Hx as (Hv & _ & Hm); [| |by split].
    { intros Hz. apply (f_equal (fun m : gmap string Z => m !! "alice")) in Hz. vm_compute in Hz. discriminate Hz. }
    destruct (encodePlayerDatabase (mergePlayerChanges ∅ (snapshotPlayerChanges (pr_db PlayerDemo.alice)).1) "binary") as [data|err] eqn:Ee;
      [|vm_compute in Ee; discriminate Ee].
    exists ∅, data. split_and!; [reflexivity..|exact Ee].
Defined.
