(* ===== verification/Moderation.v ===== *)
(** * Moderation: [src/fact/moderation.go] and the promotions of [src/fact/util.go]

    A moderator sets the level of a player, from Discord or from the web: the record,
    the game, the Discord role and the shared file follow. *)
From Stdlib Require Import Ascii.
From S2P Require Import Prelude.
From S2P Require Import GoInt.
From S2P Require Import GoString.
From S2P Require Import GoTime.
From S2P Require Import Glob.
From S2P Require Import PlayerCodec.
From S2P Require Import PlayerDB.
From S2P Require Import PlayerFile.
From S2P Require Import PlayerDBSafety.

#[local] Opaque TrimSpace ToLower compactNow.

Definition LevelToString (level : Z) : string :=
  if level <=? -254 then "Deleted"
  else if level =? -1 then "Banned"
  else if level =? 0 then "New"
  else if level =? 1 then "Member"
  else if level =? 2 then "Regular"
  else if level =? 3 then "Veteran"
  else if 255 <=? level then "Moderator"
  else "Invalid".

Section moderation.
Context `{UnicodeTables, Zstd, Sonic}.
Implicit Types (d : playerdb) (g : game).

Definition StringToLevel (input : string) : Z :=
  let input := ToLower input in
  if HasPrefix input "new" then 0
  else if HasPrefix input "members" then 1
  else if HasPrefix input "regulars" then 2
  else if HasPrefix input "veterans" then 3
  else if HasPrefix input "banished" then 0
  else if HasPrefix input "moderator" then 255
  else 0.

(** ** Discord names: [src/disc/discUtils.go] *)
Definition GetDiscordIDFromFactorioName (input : string) d : string :=
  let pname := ToLower input in
  if bool_decide (pname = "") then ""
  else match PlayerList d !! pname with
       | Some p => if 0 <? pd_Level p then pd_ID p else ""
       | None => ""
       end.

(** The first match in the order of the map. *)
Definition GetFactorioNameFromDiscordID (order : list string) (id : string) d : string :=
  if bool_decide (id = "") then ""
  else match omap (fun n => p ← PlayerList d !! n; if EqualFold (pd_ID p) id && (0 <? pd_Level p) then Some (pd_Name p) else None) order with
       | name :: _ => name
       | [] => ""
       end.

(** ** Promotions *)
Definition level_text (plevel : Z) : string :=
  if plevel <=? -254 then " **(Deleted Player)** "
  else if plevel =? -1 then " **(Banned)**"
  else if plevel =? 1 then " *(Member)*"
  else if plevel =? 2 then " *(Regular)*"
  else if plevel =? 3 then " *(Veteran)*"
  else if plevel =? 255 then " *(Moderator)*"
  else " *(New Player)* ".

Definition level_role (r : roles) (plevel : Z) : string :=
  if plevel =? 0 then role_New r
  else if plevel =? 1 then role_Member r
  else if plevel =? 2 then role_Regular r
  else if plevel =? 3 then role_Veteran r
  else if plevel =? 255 then role_Moderator r
  else "".

(** The Discord role is asked for when the player is registered; finding and adding it
    is the Discord client's. *)
Definition assign_role g (order : list string) (pname : string) (plevel : Z) d : playerdb :=
  let discid := GetDiscordIDFromFactorioName pname d in
  if EqualFold (GetFactorioNameFromDiscordID order discid d) pname && negb (bool_decide (discid = ""))
  then d <| sent ::= fun l => l ++ [AssignRole discid (level_role (g_roles g) plevel)] |>
  else d.

Definition autoPromote g (order : list string) (pname : string) (bootMode doBan : bool) (previous : option Z) d : string * playerdb :=
  if bool_decide (pname = "") then (" *(New Player)* ", d)
  else
    let '(plevel, d) := PlayerLevelGet g pname false d in
    let previousLevel := match previous with Some l => l | None => plevel end in
    let d :=
      if bootMode then d
      else
        let d :=
          if (plevel =? -1) && doBan then
            match PlayerList d !! ToLower pname with
            | Some p => WriteBan (ToLower pname) (pd_BanReason p) d
            | None => d
            end
          else d in
        applyPlayerLevelInGame pname previousLevel plevel d in
    (if bootMode then " *(New Player)* " else level_text plevel, assign_role g order pname plevel d).

Definition AutoPromote g order pname bootMode doBan d := autoPromote g order pname bootMode doBan None d.
Definition AutoPromoteFromLevel g order pname bootMode doBan (previousLevel : Z) d :=
  autoPromote g order pname bootMode doBan (Some previousLevel) d.

(** ** [SetPlayerLevelByModerator] *)
Definition valid_level (level : Z) : bool := bool_decide (level ∈ [-255; -1; 0; 1; 2; 3; 255]).

Inductive moderation_err := InvalidLevel | ReasonTooLong | NameRequired | PlayerNotFound.

Definition moderate g (order : list string) (name : string) (level : Z) (reason actor : string) d : result moderation_err playerdb :=
  if negb (valid_level level) then Err InvalidLevel
  else if 500 <? slen reason then Err ReasonTooLong
  else
    let reason := if bool_decide (reason = "") then "No reason given" else reason in
    let name := ToLower (TrimSpace name) in
    if bool_decide (name = "") then Err NameRequired
    else
      let '(old, d) := PlayerLevelGet g name false d in
      let playerName := match PlayerList d !! name with Some p => pd_Name p | None => "" end in
      if bool_decide (playerName = "") then Err PlayerNotFound
      else
        let d := if (0 <=? level) && (old =? -1) then WriteUnban name d else d in
        let d :=
          if (level =? -1) && negb (old =? -1) then
            let reason := reason +:+ " -- " +:+ actor +:+ " " +:+ g_date g in
            with_player name (fun p => p <| pd_BanReason := reason |>) (WriteBan name reason d)
          else d in
        let d := (PlayerLevelSet g playerName level true d).2 in
        Ok (AutoPromoteFromLevel g order playerName false false old d).2.

(** With the save at the end. *)
Definition SetPlayerLevelByModerator g (order : list string) (format : string) (e : write_env) (file : option bytes)
    (name : string) (level : Z) (reason actor : string) d : result moderation_err (option bytes * playerdb) :=
  d ← moderate g order name level reason actor d;
  Ok (WritePlayers format e file d).

(** ** What a moderator can rely on *)

(** Only the record of [n] changes, and what was sent stays sent. *)
Definition touches (n : string) d d' : Prop :=
  (forall k, k <> n -> PlayerList d' !! k = PlayerList d !! k) /\ exists l, sent d' = sent d ++ l.

Lemma touches_refl n d : touches n d d.
Proof. split; [done|]. exists []. by rewrite app_nil_r. Qed.

Lemma touches_trans n a b c : touches n a b -> touches n b c -> touches n a c.
Proof.
  intros [H1' [l E1]] [H2' [k E2]]. split; [intros x Hx; rewrite H2', H1'; done|].
  exists (l ++ k). by rewrite E2, E1, app_assoc.
Qed.

Lemma touches_sends n d l : touches n d (d <| sent ::= fun x => x ++ l |>).
Proof. split; [done|]. by exists l. Qed.

Lemma touches_with n f d : touches n d (with_player n f d).
Proof. split; [|exists []; by rewrite app_nil_r]. intros k Hk. unfold with_player. simpl. by rewrite lookup_alter_ne. Qed.

Lemma touches_insert n p d : touches n d (d <| PlayerList ::= <[n := p]> |>).
Proof. split; [|exists []; by rewrite app_nil_r]. intros k Hk. simpl. by rewrite lookup_insert_ne. Qed.

Lemma touches_list_dirty n m d : touches n d (SetPlayerListDirty m d).
Proof. unfold SetPlayerListDirty, markPlayerDirty. case_bool_decide; (split; [done|]); exists []; by rewrite app_nil_r. Qed.

Lemma touches_stats_dirty n m d : touches n d (SetPlayerStatsDirty m d).
Proof. unfold SetPlayerStatsDirty, markPlayerDirty. case_bool_decide; (split; [done|]); exists []; by rewrite app_nil_r. Qed.

Lemma touches_WriteBan n name reason d : touches n d (WriteBan name reason d).
Proof. split; [done|]. eexists. unfold WriteBan, doBan, WriteFact. simpl. by rewrite <-app_assoc. Qed.

Ltac by_effects := repeat case_match; try apply touches_refl; (split; [done|by eexists]).

Lemma touches_whitelist n g name l d : touches n d (WhitelistPlayer g name l d).
Proof. unfold WhitelistPlayer. by_effects. Qed.
Lemma touches_admin n g name l0 l d : touches n d (syncPlayerAdminAccess g name l0 l d).
Proof. unfold syncPlayerAdminAccess. by_effects. Qed.
Lemma touches_softmod n name l0 l d : touches n d (applyPlayerLevelInGame name l0 l d).
Proof. unfold applyPlayerLevelInGame. by_effects. Qed.
Lemma touches_unban n name d : touches n d (WriteUnban name d).
Proof. unfold WriteUnban. by_effects. Qed.

Lemma with_player_lookup n f d : PlayerList (with_player n f d) !! n = f <$> PlayerList d !! n.
Proof. unfold with_player. simpl. apply lookup_alter_eq. Qed.

Lemma marks_lookup d m k : PlayerList (SetPlayerListDirty m d) !! k = PlayerList d !! k /\ PlayerList (SetPlayerStatsDirty m d) !! k = PlayerList d !! k.
Proof. unfold SetPlayerListDirty, SetPlayerStatsDirty, markPlayerDirty. by case_bool_decide. Qed.

Section names.
Context (n : string) (Hlow : ToLower n = n) (Hn : bad_name n = false).

Lemma PlayerLevelGet_at g d :
  let '(l, d') := PlayerLevelGet g n false d in
  touches n d d' /\ exists p, PlayerList d' !! n = Some p /\ pd_Level p = l /\
    pd_Name p = match PlayerList d !! n with Some q => pd_Name q | None => n end /\
    l = match PlayerList d !! n with Some q => pd_Level q | None => 0 end /\
    pd_BanReason p = match PlayerList d !! n with Some q => pd_BanReason q | None => "" end.
Proof.
  unfold PlayerLevelGet. rewrite Hn, Hlow. destruct (PlayerList d !! n) as [p|] eqn:Hp.
  - split; [eapply touches_trans; [apply touches_with|apply touches_stats_dirty]|].
    exists (p <| pd_LastSeen := compactNow g |>). split; [|done].
    by rewrite (proj2 (marks_lookup _ _ _)), with_player_lookup, Hp.
  - split; [eapply touches_trans; [apply touches_insert|apply touches_list_dirty]|].
    eexists. split; [rewrite (proj1 (marks_lookup _ _ _)); simpl; apply lookup_insert_eq|done].
Qed.

Lemma PlayerLevelSet_at g level p d :
  PlayerList d !! n = Some p ->
  let d' := (PlayerLevelSet g n level true d).2 in
  touches n d d' /\ exists q, PlayerList d' !! n = Some q /\ pd_Level q = level /\ pd_BanReason q = pd_BanReason p.
Proof.
  intros Hp. unfold PlayerLevelSet, playerLevelSet. rewrite Hn, Hlow, Hp. cbv zeta. cbn [snd].
  set (d1 := if negb (pd_Level p =? level) then _ else _).
  assert (H1' : touches n d d1 /\ exists q, PlayerList d1 !! n = Some q /\ pd_Level q = level /\ pd_BanReason q = pd_BanReason p).
  { unfold d1. destruct (Z.eqb_spec (pd_Level p) level) as [El|Hne]; cbn [negb].
    - split; [eapply touches_trans; [apply touches_with|apply touches_stats_dirty]|].
      eexists. split; [rewrite (proj2 (marks_lookup _ _ _)), with_player_lookup, Hp; done|done].
    - split.
      + eapply touches_trans; [apply (touches_with n)|]. eapply touches_trans; [apply touches_admin|].
        eapply touches_trans; [apply (touches_with n)|]. eapply touches_trans; [apply touches_list_dirty|].
        apply touches_whitelist.
      + destruct (WhitelistPlayer_same g n level (SetPlayerListDirty n (with_player n (fun p => p <| pd_Level := level |>)
          (syncPlayerAdminAccess g n (pd_Level p) level (with_player n (fun p => p <| pd_LastSeen := compactNow g |>) d))))) as (-> & _).
        rewrite (proj1 (marks_lookup _ _ _)), with_player_lookup.
        destruct (syncPlayerAdminAccess_same g n (pd_Level p) level (with_player n (fun p => p <| pd_LastSeen := compactNow g |>) d)) as (-> & _).
        rewrite with_player_lookup, Hp. by eexists. }
  clearbody d1. destruct H1' as [Ht (q & Hq & Hl & Hb)]. destruct (level <=? DeletedLevel); [|eauto].
  split; [eapply touches_trans; [done|apply touches_with]|]. rewrite with_player_lookup, Hq. by eexists.
Qed.

Lemma autoPromote_at g order prev p d :
  PlayerList d !! n = Some p ->
  let d' := (autoPromote g order n false false (Some prev) d).2 in
  touches n d d' /\ exists q, PlayerList d' !! n = Some q /\ pd_Level q = pd_Level p /\ pd_BanReason q = pd_BanReason p.
Proof.
  intros Hp. unfold autoPromote. rewrite bool_decide_eq_false_2 by (intros E; unfold bad_name in Hn; by rewrite E in Hn).
  pose proof (PlayerLevelGet_at g d) as Hg. rewrite Hp in Hg. destruct (PlayerLevelGet g n false d) as [l d1].
  destruct Hg as [Ht (q & Hq & Hl & _ & El & Eb)]. rewrite andb_false_r. cbn [snd].
  assert (Hsame : forall d2, PlayerList (assign_role g order n l d2) = PlayerList d2 /\ touches n d2 (assign_role g order n l d2)).
  { intros d2. unfold assign_role. destruct (_ && _); [split; [done|apply touches_sends]|split; [done|apply touches_refl]]. }
  destruct (Hsame (applyPlayerLevelInGame n prev l d1)) as [-> Hs]. split.
  - eapply touches_trans; [done|]. eapply touches_trans; [apply touches_softmod|done].
  - exists q. split; [|split; congruence]. by unfold applyPlayerLevelInGame; repeat case_match.
Qed.
End names.

(** C4: (functional) a level that a moderator sets is set: whenever the call does not refuse,
    the player's record has the level, a player who was not banned before and is now
    carries the reason given with the moderator's name and the day and the game is told
    to ban the player for it, and no other player's record changes. *)
Theorem moderate_sets_level g order name level reason actor d d' :
  let n := ToLower (TrimSpace name) in
  ToLower n = n -> slen n <= MaxNameLength ->
  (forall p, PlayerList d !! n = Some p -> pd_Name p = n) ->
  moderate g order name level reason actor d = Ok d' ->
  valid_level level = true /\ slen reason <= 500 /\ touches n d d' /\
  exists p, PlayerList d' !! n = Some p /\ pd_Level p = level /\
    (level = -1 -> (forall q, PlayerList d !! n = Some q -> pd_Level q <> -1) ->
     let text := (if bool_decide (reason = "") then "No reason given" else reason) +:+ " -- " +:+ actor +:+ " " +:+ g_date g in
     pd_BanReason p = text /\ GameLine ("/ban " +:+ n +:+ " " +:+ text) ∈ sent d').
Proof.
  cbv zeta. unfold moderate. generalize (ToLower (TrimSpace name)) as n. intros n Hlow Hlen Hname.
  destruct (valid_level level) eqn:Hv; cbn [negb]; [|done]. destruct (500 <? slen reason) eqn:Hr; [done|].
  apply Z.ltb_ge in Hr. generalize (if bool_decide (reason = "") then "No reason given" else reason) as why. intros why.
  case_bool_decide as Hne; [done|].
  assert (Hn : bad_name n = false).
  { unfold bad_name. rewrite bool_decide_eq_false_2 by done. by apply Z.ltb_ge. }
  pose proof (PlayerLevelGet_at n Hlow Hn g d) as Hg. destruct (PlayerLevelGet g n false d) as [old d1].
  destruct Hg as [Ht1 (p & Hp & Hl & Hnm & Hold & Hb)]. rewrite Hp.
  assert (E : pd_Name p = n) by (rewrite Hnm; destruct (PlayerList d !! n) eqn:E; [by apply Hname|done]). rewrite E.
  rewrite bool_decide_eq_false_2 by done. intros [= <-].
  set (d2 := if (0 <=? level) && (old =? -1) then WriteUnban n d1 else d1).
  assert (Ht2 : touches n d1 d2 /\ PlayerList d2 = PlayerList d1).
  { unfold d2. destruct (_ && _); [|split; [apply touches_refl|done]]. split; [apply touches_unban|apply (WriteUnban_same n d1)]. }
  clearbody d2. destruct Ht2 as [Ht2 E2]. set (text := why +:+ " -- " +:+ actor +:+ " " +:+ g_date g).
  set (d3 := if (level =? -1) && negb (old =? -1) then _ else d2).
  assert (Ht3 : touches n d2 d3 /\ exists q, PlayerList d3 !! n = Some q /\
    (level = -1 -> old <> -1 -> pd_BanReason q = text /\ GameLine ("/ban " +:+ n +:+ " " +:+ text) ∈ sent d3)).
  { unfold d3. destruct (_ && _) eqn:Ec.
    - split; [eapply touches_trans; [apply touches_WriteBan|apply touches_with]|]. rewrite with_player_lookup.
      change (PlayerList (WriteBan n text d2)) with (PlayerList d2). rewrite E2, Hp. eexists. split; [done|]. intros _ _. split; [done|].
      unfold WriteFact. simpl. rewrite !elem_of_app. left. right. by left.
    - split; [apply touches_refl|]. exists p. rewrite E2. split; [done|]. intros -> Ho.
      apply andb_false_iff in Ec as [?|Ec]; [done|]. apply negb_false_iff, Z.eqb_eq in Ec. done. }
  clearbody d3. destruct Ht3 as [Ht3 (q & Hq & Hban)].
  destruct (PlayerLevelSet_at n Hlow Hn g level q d3 Hq) as [Ht4 (q4 & Hq4 & Hl4 & Hb4)].
  set (d4 := (PlayerLevelSet g n level true d3).2) in *. clearbody d4.
  destruct (autoPromote_at n Hlow Hn g order old q4 d4 Hq4) as [Ht5 (q5 & Hq5 & Hl5 & Hb5)].
  unfold AutoPromoteFromLevel. set (d5 := (autoPromote g order n false false (Some old) d4).2) in *. clearbody d5.
  assert (Ht35 : touches n d3 d5) by (by eapply touches_trans).
  split_and!; [done|done| |].
  - eapply touches_trans; [exact Ht1|]. eapply touches_trans; [exact Ht2|]. by eapply touches_trans.
  - exists q5. split_and!; [done|congruence|]. intros Hl1 Hnot.
    destruct Hban as [Hb1 Hin]; [done| |].
    + rewrite Hold. destruct (PlayerList d !! n) as [x|]; [by apply Hnot|done].
    + split; [congruence|]. destruct Ht35 as [_ [l ->]]. apply elem_of_app. by left.
Qed.
End moderation.

Module ModerationDemo.
#[local] Existing Instance ascii_tables.
Definition noon : game := {|
  g_now := (SeenEpoch + 6000) * Second; g_date := "01-02-2026"; g_running := true; g_CustomWhitelist := false;
  g_RegularsOnly := false; g_MembersOnly := false; g_online := [];
  g_roles := {| role_New := "New"; role_Member := "Members"; role_Regular := "Regulars"; role_Veteran := "Veterans"; role_Moderator := "Moderators" |} |}.
Definition known : playerdb := Eval vm_compute in (PlayerSetID noon "Mallory" "42" 1 emptyDB).2.
Definition after : playerdb := Eval vm_compute in
  match moderate noon ["mallory"] " Mallory " (-1) "griefing" "alice" known with Ok d => d | Err _ => known end.

Example banned_line : GameLine "/ban mallory griefing -- alice 01-02-2026" ∈ sent after.
Proof. by repeat (left || right). Qed.
End ModerationDemo.

Lemma moderate_sets_level_witness :
  exists p, PlayerList ModerationDemo.after !! "mallory" = Some p /\ pd_Level p = -1 /\
    pd_BanReason p = "griefing -- alice 01-02-2026".
Proof.
  destruct (moderate_sets_level (H := ascii_tables) ModerationDemo.noon ["mallory"] " Mallory " (-1) "griefing" "alice"
    ModerationDemo.known ModerationDemo.after) as (_ & _ & _ & p & Hp & Hl & Hb).
  - by vm_compute.
  - by vm_compute.
  - intros p Hp. vm_compute in Hp. by injection Hp as <-.
  - by vm_compute.
  - exists p. split_and!; [exact Hp|exact Hl|].
    apply Hb; [done|]. intros q Hq. vm_compute in Hq. by injection Hq as <-.
Defined.
