(* ===== verification/GoCalendar.v ===== *)
(** * Go's calendar: [time.Date], [Time.Date], [Time.Clock], [Time.AddDate],
    [Time.Format] and [time.Parse] for RFC 3339

    A day is the number of days since 1970-01-01 and a month the number of months
    since January of year 0, both in the proleptic Gregorian calendar; [time.Date]
    accepts a month and a day out of their ranges and carries them over. *)
From Stdlib Require Import Ascii.
From S2P Require Import Prelude.
From S2P Require Import GoInt.
From S2P Require Import GoString.
From S2P Require Import GoPath.
From S2P Require Import GoTime.

(** ** Days and months *)

(** The first day of month [M].  The years are counted from March, so that a leap
    day is the last day of its year. *)
Definition month_start (M : Z) : Z :=
  let y := (M - 2) / 12 in
  let p := (M - 2) mod 12 in
  365 * y + y / 4 - y / 100 + y / 400 + (153 * p + 2) / 5 - 719468.

Record civil := mkCivil { c_year : Z; c_month : Z; c_day : Z }.

Definition month_of (y m : Z) : Z := 12 * y + (m - 1).
Definition day_number (c : civil) : Z := month_start (month_of (c_year c) (c_month c)) + (c_day c - 1).

(** The year, month and day of a day number. *)
Definition civil_of_day (z : Z) : civil :=
  let z := z + 719468 in
  let doe := z mod 146097 in
  let yoe := (doe - doe / 1460 + doe / 36524 - doe / 146096) / 365 in
  let doy := doe - (365 * yoe + yoe / 4 - yoe / 100) in
  let p := (5 * doy + 2) / 153 in
  let m := if p <? 10 then p + 3 else p - 9 in
  mkCivil (yoe + 400 * (z / 146097) + (if m <=? 2 then 1 else 0)) m (doy - (153 * p + 2) / 5 + 1).

Definition daysIn (m y : Z) : Z := month_start (month_of y m + 1) - month_start (month_of y m).

Lemma month_step M : 28 <= month_start (M + 1) - month_start M <= 31.
Proof.
  unfold month_start. replace (M + 1 - 2) with ((M - 2) + 1) by lia. set (n := M - 2). clearbody n.
  pose proof (Z.mod_pos_bound n 12 ltac:(lia)) as Hp. pose proof (Z.div_mod n 12 ltac:(lia)) as Hn.
  set (y := n / 12) in *. set (p := n mod 12) in *. clearbody y p.
  destruct (decide (p = 11)) as [->|Hne].
  - rewrite <-(Z.div_unique (n + 1) 12 (y + 1) 0), <-(Z.mod_unique (n + 1) 12 (y + 1) 0) by lia.
    Z.div_mod_to_equations. lia.
  - rewrite <-(Z.div_unique (n + 1) 12 y (p + 1)), <-(Z.mod_unique (n + 1) 12 y (p + 1)) by lia.
    Z.div_mod_to_equations. lia.
Qed.

Lemma month_start_mono M k : 0 <= k -> month_start M + 28 * k <= month_start (M + k).
Proof.
  intros Hk. pattern k. revert k Hk. apply natlike_ind.
  - rewrite (Z.add_0_r M). lia.
  - intros k Hk IH. pose proof (month_step (M + k)) as Hs.
    replace (M + Z.succ k) with (M + k + 1) by lia.
    set (a := month_start _) in *. set (b := month_start _) in *. set (c := month_start _) in *. clearbody a b c. lia.
Qed.

(** [civil_of_day] inverts [day_number]: it finds a year of the right era, and in it
    a month that has begun. *)
Lemma civil_year doe : 0 <= doe < 146097 ->
  let yoe := (doe - doe / 1460 + doe / 36524 - doe / 146096) / 365 in
  0 <= yoe < 400 /\ 0 <= doe - (365 * yoe + yoe / 4 - yoe / 100) <= 365.
Proof. intros H yoe. subst yoe. Z.div_mod_to_equations. lia. Qed.

Lemma civil_month doy : 0 <= doy <= 365 ->
  let p := (5 * doy + 2) / 153 in 0 <= p < 12 /\ 1 <= doy - (153 * p + 2) / 5 + 1 <= 31.
Proof. intros H p. subst p. Z.div_mod_to_equations. lia. Qed.

Lemma day_of_civil z : day_number (civil_of_day z) = z.
Proof.
  unfold civil_of_day, day_number, month_of, month_start. cbn zeta. cbn [c_year c_month c_day].
  pose proof (Z.mod_pos_bound (z + 719468) 146097 ltac:(lia)) as Hd.
  pose proof (Z.div_mod (z + 719468) 146097 ltac:(lia)) as Hz.
  set (doe := (z + 719468) mod 146097) in *. set (era := (z + 719468) / 146097) in *. clearbody doe era.
  pose proof (civil_year doe Hd) as [Hy Hdoy]. cbn zeta in *.
  set (yoe := (doe - doe / 1460 + doe / 36524 - doe / 146096) / 365) in *.
  set (doy := doe - (365 * yoe + yoe / 4 - yoe / 100)) in *.
  pose proof (civil_month doy Hdoy) as [Hp _]. cbn zeta in *.
  set (p := (5 * doy + 2) / 153) in *.
  set (M := 12 * (yoe + 400 * era + (if (if p <? 10 then p + 3 else p - 9) <=? 2 then 1 else 0)) + ((if p <? 10 then p + 3 else p - 9) - 1) - 2).
  assert (M = 12 * (yoe + 400 * era) + p) as ->.
  { unfold M. destruct (Z.ltb_spec p 10); [destruct (Z.leb_spec (p + 3) 2)|destruct (Z.leb_spec (p - 9) 2)]; lia. }
  rewrite <-(Z.div_unique _ 12 (yoe + 400 * era) p), <-(Z.mod_unique _ 12 (yoe + 400 * era) p) by lia.
  clearbody yoe p. subst doy. Z.div_mod_to_equations. lia.
Qed.

Definition valid_date (c : civil) : Prop := 1 <= c_month c <= 12 /\ 1 <= c_day c <= daysIn (c_month c) (c_year c).

(** The day of a date lies in its month, so the month is known from the day. *)
Lemma month_unique M N z : month_start M <= z < month_start (M + 1) -> month_start N <= z < month_start (N + 1) -> M = N.
Proof.
  intros HM HN. destruct (Z.lt_trichotomy M N) as [H|[H|H]]; [|done|].
  - pose proof (month_start_mono (M + 1) (N - (M + 1)) ltac:(lia)) as Hm. replace (M + 1 + (N - (M + 1))) with N in Hm by lia. lia.
  - pose proof (month_start_mono (N + 1) (M - (N + 1)) ltac:(lia)) as Hm. replace (N + 1 + (M - (N + 1))) with M in Hm by lia. lia.
Qed.

Lemma civil_leap doe : 0 <= doe < 146097 ->
  let yoe := (doe - doe / 1460 + doe / 36524 - doe / 146096) / 365 in
  doe < 365 * (yoe + 1) + (yoe + 1) / 4 - (yoe + 1) / 100 + (yoe + 1) / 400.
Proof. intros H yoe. subst yoe. Z.div_mod_to_equations. lia. Qed.

Lemma civil_of_day_valid z : valid_date (civil_of_day z).
Proof.
  pose proof (day_of_civil z) as Hz. revert Hz.
  unfold civil_of_day, valid_date, daysIn, day_number, month_of. cbn zeta. cbn [c_year c_month c_day]. intros Hn.
  pose proof (Z.mod_pos_bound (z + 719468) 146097 ltac:(lia)) as Hd.
  pose proof (Z.div_mod (z + 719468) 146097 ltac:(lia)) as Hz.
  set (doe := (z + 719468) mod 146097) in *. set (era := (z + 719468) / 146097) in *. clearbody doe era.
  pose proof (civil_year doe Hd) as [Hy Hdoy]. pose proof (civil_leap doe Hd) as Hl. cbn zeta in *.
  set (yoe := (doe - doe / 1460 + doe / 36524 - doe / 146096) / 365) in *.
  set (doy := doe - (365 * yoe + yoe / 4 - yoe / 100)) in *.
  pose proof (civil_month doy Hdoy) as [Hp Hday]. cbn zeta in *.
  assert (Hnext : doy < (153 * ((5 * doy + 2) / 153 + 1) + 2) / 5) by (clear; Z.div_mod_to_equations; lia).
  set (p := (5 * doy + 2) / 153) in *.
  set (m := if p <? 10 then p + 3 else p - 9) in *.
  assert (Hm : 1 <= m <= 12) by (unfold m; destruct (Z.ltb_spec p 10); lia).
  split; [done|]. split; [lia|].
  set (M := 12 * (yoe + 400 * era + (if m <=? 2 then 1 else 0)) + (m - 1)) in *.
  assert (z < month_start (M + 1)); [|lia].
  assert (M + 1 - 2 = 12 * (yoe + 400 * era) + p + 1) as HM.
  { unfold M, m. destruct (Z.ltb_spec p 10); [destruct (Z.leb_spec (p + 3) 2)|destruct (Z.leb_spec (p - 9) 2)]; lia. }
  unfold month_start. rewrite HM. destruct (decide (p = 11)) as [E|E].
  - rewrite <-(Z.div_unique _ 12 (yoe + 400 * era + 1) 0), <-(Z.mod_unique _ 12 (yoe + 400 * era + 1) 0) by lia.
    clearbody yoe. clear - Hz Hl Hy. Z.div_mod_to_equations. lia.
  - rewrite <-(Z.div_unique _ 12 (yoe + 400 * era) (p + 1)), <-(Z.mod_unique _ 12 (yoe + 400 * era) (p + 1)) by lia.
    clearbody p yoe. subst doy. clear - Hz Hnext Hy. Z.div_mod_to_equations. lia.
Qed.

Lemma civil_of_day_number c : valid_date c -> civil_of_day (day_number c) = c.
Proof.
  intros [Hm Hd]. pose proof (civil_of_day_valid (day_number c)) as [Hm' Hd']. pose proof (day_of_civil (day_number c)) as Hn.
  destruct (civil_of_day (day_number c)) as [y' m' d'], c as [y m d]. unfold daysIn, day_number in *. cbn [c_year c_month c_day] in *.
  assert (month_of y' m' = month_of y m) as HM by (eapply month_unique with (z := month_start (month_of y m) + (d - 1)); lia).
  rewrite HM in Hn. unfold month_of in HM. assert (y' = y) as -> by lia. f_equal; lia.
Qed.

(** ** Times *)

(** [time.Date(y, m, d, hh, mm, ss, ns, time.UTC)]. *)
Definition Date (y m d hh mm ss ns : Z) : time :=
  (((day_number (mkCivil y m d) * 24 + hh) * 60 + mm) * 60 + ss) * Second + ns.

(** [Time.Date] of a UTC time, and what is left of the day. *)
Definition date_of (t : time) : civil := civil_of_day (t / Day).
Definition clock_of (t : time) : duration := t mod Day.

(** [Time.AddDate(0, months, days)] in the zone that is [off] east of UTC: the same
    clock on the day that is so many months and days later. *)
Definition AddDate (off : duration) (t : time) (months days : Z) : time :=
  let l := t + off in
  let c := date_of l in
  Date (c_year c) (c_month c + months) (c_day c + days) 0 0 0 (clock_of l) - off.

Lemma day_number_add y m d k j : day_number (mkCivil y (m + k) (d + j)) = month_start (month_of y m + k) + (d + j - 1).
Proof. unfold day_number, month_of. cbn [c_year c_month c_day]. replace (12 * y + (m + k - 1)) with (12 * y + (m - 1) + k) by lia. lia. Qed.

Lemma time_split t : t = (t / Day) * 86400000000000 + clock_of t.
Proof.
  assert (86400000000000 = Day) as -> by reflexivity. unfold clock_of. rewrite (Z.mul_comm _ Day).
  apply Z.div_mod. discriminate.
Qed.

Lemma AddDate_start off t months days :
  AddDate off t months days
  = (month_start (month_of (c_year (date_of (t + off))) (c_month (date_of (t + off))) + months) + (c_day (date_of (t + off)) + days - 1)) * 86400000000000
    + clock_of (t + off) - off.
Proof. unfold AddDate, Date. rewrite day_number_add. change Second with 1000000000. lia. Qed.

Lemma day_number_eq c : month_start (month_of (c_year c) (c_month c)) + (c_day c - 1) = day_number c.
Proof. reflexivity. Qed.
Lemma day_of_date t : day_number (date_of t) = t / Day.
Proof. exact (day_of_civil (t / Day)). Qed.
Lemma date_of_valid t : valid_date (date_of t).
Proof. exact (civil_of_day_valid (t / Day)). Qed.
Lemma clock_range t : 0 <= clock_of t < Day.
Proof. exact (Z.mod_pos_bound t Day eq_refl). Qed.
Lemma date_start t : month_start (month_of (c_year (date_of t)) (c_month (date_of t))) + (c_day (date_of t) - 1) = t / Day.
Proof. rewrite <-day_of_date. apply day_number_eq. Qed.

(** Adding months and days never goes back. *)
Lemma AddDate_ge off t months days : 0 <= months -> 0 <= days -> t + (28 * months + days) * 86400000000000 <= AddDate off t months days.
Proof.
  intros Hm Hd. rewrite AddDate_start. pose proof (date_start (t + off)) as Hn. pose proof (time_split (t + off)) as Hdm.
  set (M := month_of _ _) in *. pose proof (month_start_mono M months Hm) as Hs.
  generalize dependent ((t + off) / Day). generalize dependent (clock_of (t + off)). generalize dependent (c_day (date_of (t + off))).
  generalize dependent (month_start M). generalize dependent (month_start (M + months)). clear M. intros. unfold time, duration in *. lia.
Qed.

Lemma month_start_upper M k : 0 <= k -> month_start (M + k) <= month_start M + 31 * k.
Proof.
  intros Hk. pattern k. revert k Hk. apply natlike_ind.
  - rewrite (Z.add_0_r M). lia.
  - intros k Hk IH. pose proof (month_step (M + k)) as Hs. replace (M + Z.succ k) with (M + k + 1) by lia.
    set (a := month_start _) in *. set (b := month_start _) in *. set (c := month_start _) in *. clearbody a b c. lia.
Qed.

Lemma AddDate_le off t months days : 0 <= months -> 0 <= days -> AddDate off t months days <= t + (31 * months + days) * 86400000000000.
Proof.
  intros Hm Hd. rewrite AddDate_start. pose proof (date_start (t + off)) as Hn. pose proof (time_split (t + off)) as Hdm.
  set (M := month_of _ _) in *. pose proof (month_start_upper M months Hm) as Hs.
  generalize dependent ((t + off) / Day). generalize dependent (clock_of (t + off)). generalize dependent (c_day (date_of (t + off))).
  generalize dependent (month_start M). generalize dependent (month_start (M + months)). clear M. intros. unfold time, duration in *. lia.
Qed.

Lemma AddDate_0 off t : AddDate off t 0 0 = t.
Proof.
  rewrite AddDate_start, !Z.add_0_r. pose proof (date_start (t + off)) as Hn. pose proof (time_split (t + off)) as Hdm.
  set (M := month_of _ _) in *. generalize dependent ((t + off) / Day). generalize dependent (clock_of (t + off)).
  generalize dependent (c_day (date_of (t + off))). generalize dependent (month_start M). clear M. intros. unfold time, duration in *. lia.
Qed.

(** ** RFC 3339 *)

(** A number with at least [n] digits. *)
Definition digit (d : Z) : ascii := byte_of (48 + d).
Definition pad (n : nat) (v : Z) : string :=
  if (0 <=? v) && (v <? 10 ^ Z.of_nat n) then of_bytes (digit <$> low_digits n v) else Itoa v.

Definition clock_text (c : duration) (sep : string) : string :=
  pad 2 (c / Hour) +:+ sep +:+ pad 2 (c / Minute mod 60) +:+ sep +:+ pad 2 (c / Second mod 60).
Definition date_text (c : civil) : string := pad 4 (c_year c) +:+ "-" +:+ pad 2 (c_month c) +:+ "-" +:+ pad 2 (c_day c).

(** [t.Format(time.RFC3339)] of a UTC time of the years 0 to 9999. *)
Definition FormatRFC3339 (t : time) : string := date_text (date_of t) +:+ "T" +:+ clock_text (clock_of t) ":" +:+ "Z".

(** [getnum]: two digits, or one when [fixed] is false. *)
Definition digit_at (s : string) (i : nat) : option Z :=
  match String.get i s with Some c => if is_digit c then Some (byte_val c - 48) else None | None => None end.
Definition getnum (fixed : bool) (s : string) : option (Z * string) :=
  match digit_at s 0, digit_at s 1 with
  | None, _ => None
  | Some a, None => if fixed then None else Some (a, string_drop 1 s)
  | Some a, Some b => Some (10 * a + b, string_drop 2 s)
  end.
Definition bounded (lo hi : Z) (p : option (Z * string)) : option (Z * string) :=
  match p with Some (v, s) => if (lo <=? v) && (v <=? hi) then Some (v, s) else None | None => None end.
Definition skip (c : ascii) (s : string) : option string :=
  match s with String d s => if Ascii.eqb c d then Some s else None | EmptyString => None end.

(** The four digits of a year. *)
Definition get_year (s : string) : option (Z * string) :=
  match getnum true s with
  | Some (a, s) => match getnum true s with Some (b, s) => Some (100 * a + b, s) | None => None end
  | None => None
  end.

(** [parseNanoseconds] behind the seconds: a fraction the layout does not mention is
    read and cut at nine digits. *)
Fixpoint take_digits (s : string) : string :=
  match s with String c r => if is_digit c then String c (take_digits r) else EmptyString | EmptyString => EmptyString end.
Definition get_fraction (s : string) : Z * string :=
  match s with
  | String c r =>
      let ds := take_digits r in
      if (Ascii.eqb c "."%char || Ascii.eqb c ","%char) && negb (bool_decide (ds = "")) then
        (default 0 (digits_val 0 (string_take 9 (ds +:+ "00000000"))), string_drop (String.length ds) r)
      else (0, s)
  | EmptyString => (0, s)
  end.

(** [Z07:00]: the offset in seconds. *)
Definition get_zone (s : string) : option (Z * string) :=
  match s with
  | String c r =>
      if Ascii.eqb c "Z"%char then Some (0, r)
      else
        match bounded 0 24 (getnum true r) with
        | Some (hr, r) =>
            match skip ":" r with
            | Some r =>
                match bounded 0 60 (getnum true r) with
                | Some (mm, r) =>
                    let o := (hr * 60 + mm) * 60 in
                    if Ascii.eqb c "+"%char then Some (o, r) else if Ascii.eqb c "-"%char then Some (- o, r) else None
                | None => None
                end
            | None => None
            end
        | None => None
        end
  | EmptyString => None
  end.

Definition get_date (s : string) : option (civil * string) :=
  '(y, s) ← get_year s; s ← skip "-" s;
  '(m, s) ← bounded 1 12 (getnum true s); s ← skip "-" s;
  '(d, s) ← getnum true s; Some (mkCivil y m d, s).
Definition get_clock (sep : ascii) (s : string) : option (Z * string) :=
  '(hh, s) ← bounded 0 23 (getnum false s); s ← skip sep s;
  '(mm, s) ← bounded 0 59 (getnum true s); s ← skip sep s;
  '(ss, s) ← bounded 0 59 (getnum true s);
  let '(ns, s) := get_fraction s in Some (((hh * 60 + mm) * 60 + ss) * Second + ns, s).
Definition good_date (c : civil) : bool := (1 <=? c_day c) && (c_day c <=? daysIn (c_month c) (c_year c)).

(** [time.Parse(time.RFC3339, s)]: the instant and the offset of its zone. *)
Definition ParseRFC3339 (s : string) : option (time * duration) :=
  '(c, s) ← get_date s; s ← skip "T" s;
  '(k, s) ← get_clock ":" s;
  '(o, s) ← get_zone s;
  if bool_decide (s = "") && good_date c then Some (day_number c * Day + k - o * Second, o * Second) else None.

Example Format_1 : FormatRFC3339 (Date 2026 2 31 25 0 7 0) = "2026-03-04T01:00:07Z". Proof. vm_compute. reflexivity. Qed.
Example Format_2 : FormatRFC3339 zeroTime = "0001-01-01T00:00:00Z". Proof. vm_compute. reflexivity. Qed.
Example Parse_1 : ParseRFC3339 "2024-02-29T5:04:06.25+01:30" = Some (Date 2024 2 29 3 34 6 250000000, 90 * Minute). Proof. vm_compute. reflexivity. Qed.
Example Parse_2 : ParseRFC3339 "2023-02-29T05:04:06Z" = None. Proof. vm_compute. reflexivity. Qed.
Example Parse_3 : ParseRFC3339 (FormatRFC3339 zeroTime) = Some (zeroTime, 0). Proof. vm_compute. reflexivity. Qed.
Example AddDate_1 : FormatRFC3339 (AddDate 0 (Date 2025 1 31 6 0 0 0) 1 0) = "2025-03-03T06:00:00Z". Proof. vm_compute. reflexivity. Qed.

(** ** A date that was formatted is parsed back *)
Lemma digit_ok d : 0 <= d < 10 -> is_digit (digit d) = true /\ byte_val (digit d) - 48 = d.
Proof.
  intros Hd. unfold is_digit, in_range, digit. rewrite byte_val_of, Z.mod_small by lia.
  split; [apply andb_true_iff; split; apply Z.leb_le; lia|lia].
Qed.

Lemma pad2 v : 0 <= v < 100 -> pad 2 v = String (digit (v / 10 mod 10)) (String (digit (v mod 10)) "").
Proof. intros Hv. unfold pad. change (10 ^ Z.of_nat 2) with 100. destruct (Z.leb_spec 0 v), (Z.ltb_spec v 100); try lia. reflexivity. Qed.

Lemma pad4 v : 0 <= v < 10000 -> pad 4 v = pad 2 (v / 100) +:+ pad 2 (v mod 100).
Proof.
  intros Hv. pose proof (Z.mod_pos_bound v 100 ltac:(lia)). rewrite !pad2 by (Z.div_mod_to_equations; lia).
  unfold pad. change (10 ^ Z.of_nat 4) with 10000. destruct (Z.leb_spec 0 v), (Z.ltb_spec v 10000); try lia.
  change (String (digit (v / 10 / 10 / 10 mod 10)) (String (digit (v / 10 / 10 mod 10)) (String (digit (v / 10 mod 10)) (String (digit (v mod 10)) "")))
    = String (digit (v / 100 / 10 mod 10)) (String (digit (v / 100 mod 10)) (String (digit (v mod 100 / 10 mod 10)) (String (digit (v mod 100 mod 10)) "")))).
  assert (v / 10 / 10 / 10 mod 10 = v / 100 / 10 mod 10) as -> by (Z.div_mod_to_equations; lia).
  assert (v / 10 / 10 mod 10 = v / 100 mod 10) as -> by (Z.div_mod_to_equations; lia).
  assert (v mod 100 / 10 mod 10 = v / 10 mod 10) as -> by (Z.div_mod_to_equations; lia).
  assert (v mod 100 mod 10 = v mod 10) as -> by (Z.div_mod_to_equations; lia). reflexivity.
Qed.

Lemma getnum_pad2 fixed v s : 0 <= v < 100 -> getnum fixed (pad 2 v +:+ s) = Some (v, s).
Proof.
  intros Hv. rewrite pad2 by done. unfold getnum, digit_at. simpl.
  destruct (digit_ok (v / 10 mod 10)) as [H1 E1]; [Z.div_mod_to_equations; lia|].
  destruct (digit_ok (v mod 10)) as [H2 E2]; [Z.div_mod_to_equations; lia|].
  rewrite H1, H2, E1, E2. do 2 f_equal. Z.div_mod_to_equations. lia.
Qed.

Lemma bounded_pad2 fixed lo hi v s : 0 <= v < 100 -> lo <= v <= hi -> bounded lo hi (getnum fixed (pad 2 v +:+ s)) = Some (v, s).
Proof.
  intros Hv Hb. rewrite getnum_pad2 by done. simpl. destruct (Z.leb_spec lo v), (Z.leb_spec v hi); try lia. done.
Qed.

Lemma get_year_pad v s : 0 <= v < 10000 -> get_year (pad 4 v +:+ s) = Some (v, s).
Proof.
  intros Hv. unfold get_year. rewrite pad4, string_app_assoc by done. rewrite getnum_pad2 by (Z.div_mod_to_equations; lia).
  rewrite getnum_pad2 by (Z.div_mod_to_equations; lia). do 2 f_equal. Z.div_mod_to_equations. lia.
Qed.

Lemma skip_char c s : skip c (String c "" +:+ s) = Some s.
Proof. simpl. by rewrite Ascii.eqb_refl. Qed.

Lemma clock_parts c : 0 <= c < Day ->
  0 <= c / Hour < 24 /\ 0 <= c / Minute mod 60 < 60 /\ 0 <= c / Second mod 60 < 60
  /\ ((c / Hour * 60 + c / Minute mod 60) * 60 + c / Second mod 60) * Second = c / Second * Second.
Proof.
  intros Hc. change Day with 86400000000000 in Hc. change Hour with 3600000000000. change Minute with 60000000000. change Second with 1000000000.
  replace (c / 3600000000000) with (c / 1000000000 / 3600) by (rewrite Z.div_div by lia; reflexivity).
  replace (c / 60000000000) with (c / 1000000000 / 60) by (rewrite Z.div_div by lia; reflexivity).
  set (s := c / 1000000000). assert (0 <= s < 86400) by (unfold s; Z.div_mod_to_equations; lia). clearbody s. Z.div_mod_to_equations. lia.
Qed.

Definition in_RFC3339 (t : time) : Prop := 0 <= c_year (date_of t) < 10000.

(** The years RFC 3339 can write, as instants. *)
Lemma year_range t : 0 <= t < 250000000000000000000 -> in_RFC3339 t.
Proof.
  intros Ht. unfold in_RFC3339. pose proof (date_start t) as Hn. destruct (date_of_valid t) as [Hm Hd]. pose proof (time_split t) as Hs.
  pose proof (clock_range t) as Hk. set (c := clock_of t) in *. set (z := t / Day) in *.
  assert (Day = 86400000000000) as HD by reflexivity. rewrite HD in Hk. clearbody c z.
  assert (0 <= z < 2893519) as Hz by (unfold time, duration in *; lia). clear Hs HD Ht Hk.
  destruct (date_of t) as [y m d]. unfold daysIn in Hd. cbn [c_year c_month c_day] in *. unfold month_of in *.
  assert (month_start 120000 = 2932897) as H1 by reflexivity. assert (month_start 0 = -719528) as H0 by reflexivity.
  destruct (Z.lt_ge_cases y 0) as [Hy|Hy].
  { pose proof (month_start_mono (12 * y + (m - 1) + 1) (0 - (12 * y + (m - 1) + 1)) ltac:(lia)) as Hmono.
    replace (12 * y + (m - 1) + 1 + (0 - (12 * y + (m - 1) + 1))) with 0 in Hmono by lia. lia. }
  split; [done|]. destruct (Z.lt_ge_cases y 10000) as [|Hy2]; [done|].
  pose proof (month_start_mono 120000 (12 * y + (m - 1) - 120000) ltac:(lia)) as Hmono.
  replace (120000 + (12 * y + (m - 1) - 120000)) with (12 * y + (m - 1)) in Hmono by lia. lia.
Qed.

Lemma some_bind {A B} (x : A) (f : A -> option B) : Some x ≫= f = f x.
Proof. reflexivity. Qed.

Lemma get_date_text c s : 0 <= c_year c < 10000 -> valid_date c -> get_date (date_text c +:+ s) = Some (c, s).
Proof.
  intros Hy [Hm Hd]. assert (c_day c <= 31) by (unfold daysIn in Hd; pose proof (month_step (month_of (c_year c) (c_month c))); lia).
  unfold get_date, date_text. rewrite !string_app_assoc.
  rewrite get_year_pad, some_bind by lia. rewrite skip_char, some_bind. rewrite bounded_pad2, some_bind by lia.
  rewrite skip_char, some_bind. rewrite getnum_pad2, some_bind by lia. by destruct c.
Qed.

Lemma get_clock_text k s : 0 <= k < Day -> get_fraction s = (0, s) ->
  get_clock ":" (clock_text k ":" +:+ s) = Some (k / Second * Second, s).
Proof.
  intros Hk Hs. destruct (clock_parts k Hk) as (Hh & Hmi & Hse & Hsum). unfold get_clock, clock_text. rewrite !string_app_assoc.
  rewrite bounded_pad2, some_bind by lia. rewrite skip_char, some_bind. rewrite bounded_pad2, some_bind by lia.
  rewrite skip_char, some_bind. rewrite bounded_pad2, some_bind by lia. rewrite Hs, Hsum, Z.add_0_r. reflexivity.
Qed.

Lemma seconds_split t : (t / Day) * Day + clock_of t / Second * Second = t / Second * Second.
Proof.
  pose proof (time_split t) as Hsp. assert (Day = 86400000000000) as -> by reflexivity. assert (Second = 1000000000) as -> by reflexivity.
  unfold time, duration in *. set (q := t / 86400000000000) in *. generalize dependent (clock_of t). intros k Hsp.
  assert (t = q * 86400000000000 + k) as Ht by exact Hsp. clearbody q. clear Hsp. subst t. Z.div_mod_to_equations. lia.
Qed.

Lemma parse_format t : in_RFC3339 t -> ParseRFC3339 (FormatRFC3339 t) = Some (t / Second * Second, 0).
Proof.
  intros Hy. unfold FormatRFC3339, ParseRFC3339. rewrite get_date_text, some_bind by (done || apply date_of_valid).
  change "T" with (String "T" ""). rewrite skip_char, some_bind. rewrite get_clock_text, some_bind by (apply clock_range || done).
  assert (get_zone "Z" = Some (0, "")) as -> by reflexivity. rewrite some_bind.
  assert (good_date (date_of t) = true) as ->.
  { destruct (date_of_valid t) as [_ [H1 H2]]. unfold good_date. apply andb_true_iff. split; by apply Z.leb_le. }
  rewrite bool_decide_eq_true_2 by done. rewrite day_of_date, seconds_split. simpl andb. cbn iota. by rewrite Z.mul_0_l, Z.sub_0_r.
Qed.

Lemma pad2_length v : 0 <= v < 100 -> String.length (pad 2 v) = 2%nat.
Proof. intros. by rewrite pad2. Qed.
Lemma date_text_length c : 0 <= c_year c < 10000 -> valid_date c -> String.length (date_text c) = 10%nat.
Proof.
  intros Hy [Hm Hd]. assert (c_day c <= 31) by (unfold daysIn in Hd; pose proof (month_step (month_of (c_year c) (c_month c))); lia).
  unfold date_text. rewrite pad4 by done. rewrite !string_length_app, !pad2_length by (lia || Z.div_mod_to_equations; lia). reflexivity.
Qed.
Lemma clock_text_length k : 0 <= k < Day -> String.length (clock_text k ":") = 8%nat.
Proof.
  intros Hk. destruct (clock_parts k Hk) as (Hh & Hmi & Hse & _). unfold clock_text. rewrite !string_length_app, !pad2_length by lia. reflexivity.
Qed.
Lemma format_length t : in_RFC3339 t -> slen (FormatRFC3339 t) = 20.
Proof.
  intros Hy. unfold slen, FormatRFC3339. rewrite !string_length_app, date_text_length, clock_text_length by (done || apply date_of_valid || apply clock_range).
  reflexivity.
Qed.
