(* ===== verification/ResetSchedule.v ===== *)
(** * The schedule of map resets: [src/fact/newCron.go], [src/commands/moderator/setSchedule.go],
    [src/support/reset.go]

    The next reset, the interval between resets and the memory of a failed attempt;
    every function that changes them is a function on [schedule].  The reset itself
    belongs to the life cycle: what it does to the schedule ([commit_reset], the end
    of [GenNewMap]) and whether it failed are the outcome [CheckMapReset] is given.
    The names of durations come from the third-party package durafmt. *)
From Stdlib Require Import Ascii.
From S2P Require Import Prelude.
From S2P Require Import GoInt.
From S2P Require Import GoString.
From S2P Require Import GoTime.
From S2P Require Import GoCalendar.

(** ** State *)
Record ResetInterval := mkInterval { ri_Months : Z; ri_Weeks : Z; ri_Days : Z; ri_Hours : Z }.
#[export] Instance ResetInterval_eq_dec : EqDecision ResetInterval.
Proof. solve_decision. Defined.
#[export] Instance ResetInterval_settable : Settable ResetInterval := mkSettable (fun r =>
  mkInterval (ri_Months r) (ri_Weeks r) (ri_Days r) (ri_Hours r)).

Inductive reset_effect :=
  | WriteLCfg
  | LogCMS (text : string)
  | LogGameCMS (text : string)
  | FactWarn (color text : string)      (* a line in the chat of the game *)
  | MapReset                            (* an attempt to reset the map *)
  | ConfigSoftMod
  | Respond (text : string).
#[export] Instance reset_effect_eq_dec : EqDecision reset_effect.
Proof. solve_decision. Defined.

(** The options of the server the schedule is made of ([sc_zone] is the offset of the
    zone [NextReset] is in), the memory of a failed reset, and what was done. *)
Record schedule := mkSchedule {
  sc_NextReset : time; sc_zone : duration;
  sc_ResetInterval : ResetInterval; sc_ResetHour : Z; sc_SkipReset : bool;
  resetRetryAt : time; resetRetryFor : time;
  sc_out : list reset_effect }.
#[export] Instance schedule_settable : Settable schedule := mkSettable (fun r =>
  mkSchedule (sc_NextReset r) (sc_zone r) (sc_ResetInterval r) (sc_ResetHour r) (sc_SkipReset r)
    (resetRetryAt r) (resetRetryFor r) (sc_out r)).

Class Durafmt := {
  units_fail : bool;                     (* decoding the names of the units fails *)
  durafmt_Format : duration -> string;   (* [durafmt.Parse(d).Format(units)] *)
  durafmt_First2 : duration -> string    (* the same after [LimitFirstN(2)] *) }.

Definition emit (e : reset_effect) (s : schedule) : schedule := s <| sc_out ::= fun l => l ++ [e] |>.
Definition set_next (t : time) (zone : duration) (s : schedule) : schedule := s <| sc_NextReset := t |> <| sc_zone := zone |>.
Definition clear_next (s : schedule) : schedule := set_next zeroTime 0 s.

(** ** Reading the schedule *)
Definition HasResetInterval (s : schedule) : bool :=
  let i := sc_ResetInterval s in
  negb ((ri_Months i =? 0) && (ri_Weeks i =? 0) && (ri_Days i =? 0) && (ri_Hours i =? 0)).
Definition HasResetTime (s : schedule) : bool := 0 <? sc_NextReset s / Second.

Definition plural (i : Z) : string := if 1 <? i then "s" else "".

Definition interval_part (i : Z) (name : string) : list string :=
  if 0 <? i then [Itoa i +:+ " " +:+ name +:+ plural i] else [].
Definition FormatResetInterval (s : schedule) : string :=
  if negb (HasResetInterval s) then "No reset interval is set"
  else
    let i := sc_ResetInterval s in
    "Every " +:+ Join (interval_part (ri_Months i) "month" ++ interval_part (ri_Weeks i) "week"
                       ++ interval_part (ri_Days i) "day" ++ interval_part (ri_Hours i) "hour") ", ".

Section durations.
Context `{Durafmt}.

Definition TimeTillReset (now : time) (s : schedule) : string :=
  if negb (HasResetTime s) then "No reset is scheduled"
  else
    let next := Sub (sc_NextReset s) now in
    let next := if Minute <? next then Round next Minute else Round next Second in
    if units_fail then duration_String next else durafmt_First2 next.

Definition month_names : list string :=
  ["Jan"; "Feb"; "Mar"; "Apr"; "May"; "Jun"; "Jul"; "Aug"; "Sep"; "Oct"; "Nov"; "Dec"].

(** [Format("Jan 02, 03:04PM UTC")] of a UTC time. *)
Definition FormatResetTime (s : schedule) : string :=
  if negb (HasResetTime s) then "No reset is scheduled"
  else
    let c := date_of (sc_NextReset s) in
    let k := clock_of (sc_NextReset s) in
    let h := k / Hour in
    let h12 := if h mod 12 =? 0 then 12 else h mod 12 in
    default "" (month_names !! Z.to_nat (c_month c - 1)) +:+ " " +:+ pad 2 (c_day c) +:+ ", " +:+
    pad 2 h12 +:+ ":" +:+ pad 2 (k / Minute mod 60) +:+ (if 12 <=? h then "PM" else "AM") +:+ " UTC".

(** ** Moving the schedule *)

(** A Go [int] times a duration, in 64 bits. *)
Definition times (n : Z) (d : duration) : duration := swrap 64 (n * d).

Definition advance (i : ResetInterval) (zone : duration) (t : time) : time :=
  let partA := AddDate zone t (ri_Months i) (ri_Days i) in
  let partB := Add partA (times (ri_Weeks i) (Hour * 24 * 7)) in
  let partC := Add partB (times (ri_Hours i) Hour) in
  Time_Round partC Second.

Definition AdvanceReset (s : schedule) : schedule :=
  if negb (HasResetInterval s) then s
  else emit WriteLCfg (set_next (advance (sc_ResetInterval s) (sc_zone s) (sc_NextReset s)) (sc_zone s) s).

(** The instant an interval is counted from: now, or today at the configured hour. *)
Definition reset_base (hour : Z) (now : time) : time :=
  if 0 <? hour then let c := date_of now in Date (c_year c) (c_month c) (c_day c) hour 0 0 0 else now.

Definition SetResetDate (now : time) (s : schedule) : schedule :=
  if negb (HasResetInterval s) then s
  else emit WriteLCfg (set_next (advance (sc_ResetInterval s) 0 (reset_base (sc_ResetHour s) now)) 0 s).

(** The schedule after a new map was generated: the end of [GenNewMap]. *)
Definition commit_reset (now : time) (s : schedule) : schedule :=
  let s := SetResetDate now (s <| sc_SkipReset := false |>) in
  let s := if negb (HasResetInterval s) && HasResetTime s && negb (After (sc_NextReset s) now) then clear_next s else s in
  emit WriteLCfg s.

(** ** The check *)
Definition upper_byte (c : ascii) : ascii := if is_lower c then byte_of (byte_val c - 32) else c.
Definition ToUpper_ascii (s : string) : string := map_bytes upper_byte s.

Definition warnMapReset (players : Z) (now : time) (s : schedule) : schedule :=
  let buf := ToUpper_ascii ("Map reset in " +:+ TimeTillReset now s) in
  let s := emit (LogCMS ("⚠️ **" +:+ buf +:+ "**")) s in
  if 0 <? players then
    emit (FactWarn "black" buf) (emit (FactWarn "cyan" buf) (emit (FactWarn "red" buf) s))
  else s.

Definition warnTimes : list duration := [Minute * 30; Minute * 10; Minute * 5; Minute; Second * 30; Second * 10].
Definition maxResetWindow : duration := Hour * 3.

(** The loop over the times of a warning. *)
Definition warn_due (players : Z) (until : duration) : bool :=
  existsb (fun t => (until =? t) && negb ((players =? 0) && (until <? Minute * 5))) warnTimes.

(** What became of the reset [CheckMapReset] asked for: whether the map was generated,
    at what time, and whether the call failed (it may fail after the map exists).  The
    clock is read once for the new schedule. *)
Record reset_outcome := mkOutcome {
  ro_begin : time;               (* the clock before the attempt *)
  ro_generated : option time; ro_error : bool;
  ro_end : time                  (* the clock after it *) }.

Definition until_reset (now : time) (s : schedule) : duration :=
  Round (Sub (sc_NextReset s) (Time_Round now Second)) Second.

Definition skip_reset (s : schedule) : schedule :=
  let s := if HasResetInterval s then AdvanceReset s else emit WriteLCfg (clear_next s) in
  let window := if units_fail then duration_String maxResetWindow else durafmt_Format maxResetWindow in
  emit (LogCMS ("❇️ Scheduled map reset was over " +:+ window +:+ " ago. Skipping.")) s.

Definition try_reset (o : reset_outcome) (s : schedule) : schedule :=
  let due := sc_NextReset s in
  if (due =? resetRetryFor s) && Before (ro_begin o) (resetRetryAt s) then s
  else
    let s := emit MapReset s in
    let s := match ro_generated o with Some t => commit_reset t s | None => s end in
    if ro_error o then s <| resetRetryFor := due |> <| resetRetryAt := Add (ro_end o) Minute |>
    else
      let s := s <| resetRetryFor := zeroTime |> <| resetRetryAt := zeroTime |> in
      if negb (HasResetInterval s) && (sc_NextReset s =? due) then emit WriteLCfg (clear_next s) else s.

Definition CheckMapReset (players : Z) (now : time) (o : reset_outcome) (s : schedule) : schedule :=
  if negb (HasResetTime s) then s
  else
    let until := until_reset now s in
    let s := if warn_due players until then warnMapReset players now s else s in
    if until <? 0 then
      if until <? - maxResetWindow then skip_reset s else try_reset o s
    else s.

(** [startMapResetLoop]: how long the loop sleeps after a check. *)
Definition loop_interval (checkSec : Z) (now : time) (s : schedule) : duration :=
  let interval := times checkSec Second in
  let interval := if HasResetTime s && (Sub (sc_NextReset s) now <=? Minute) then Second else interval in
  if interval <=? 0 then Minute else interval.

(** ** Commands *)

(** [DoChangeMap("skip-reset")]. *)
Definition skip_next (s : schedule) : schedule :=
  if HasResetInterval s && HasResetTime s && negb (sc_SkipReset s) then
    AdvanceReset (emit (LogGameCMS "❇️ NOTICE: The upcoming map reset has been skipped.") (emit WriteLCfg (s <| sc_SkipReset := true |>)))
  else s.

(** [time.Parse("2006-01-02 15-04-05", s)]. *)
Fixpoint cut_spaces (s : string) : string :=
  match s with String c r => if Ascii.eqb c " "%char then cut_spaces r else s | EmptyString => s end.
Definition parse_reset_layout (input : string) : option time :=
  '(c, s) ← get_date input;
  s ← match s with String d _ => if Ascii.eqb d " "%char then Some (cut_spaces s) else None | EmptyString => Some s end;
  '(k, s) ← get_clock "-" s;
  if bool_decide (s = "") && good_date c then Some (day_number c * Day + k) else None.

Definition parseResetDate (now : time) (input : string) (s : schedule) : string * schedule :=
  match parse_reset_layout input with
  | None => ("Unable to parse date provided. Format is 'YYYY-MM-DD HH-MM-SS' (24-hour UTC)", s)
  | Some parsedTime =>
      if Sub parsedTime now <? 0 then ("That date is in the past, rejecting.", s)
      else
        let s := set_next parsedTime 0 s in
        ("Date accepted: " +:+ FormatResetTime s +:+ " (" +:+ TimeTillReset now s +:+ ")" +:+ of_bytes [byte_of 10]
         +:+ "Changing the interval will override the new reset date.", s)
  end.

(** The options of the command, as the Discord library hands them over. *)
Inductive option_value := OUint (n : Z) | OString (s : string).
Definition UintValue (v : option_value) : Z := match v with OUint n => n | OString _ => 0 end.
Definition StringValue (v : option_value) : string := match v with OString s => s | OUint _ => "" end.

Definition interval_option (name : string) (v : Z) (n : ResetInterval) : option ResetInterval :=
  if bool_decide (name = "interval-months") then Some (n <| ri_Months := v |>)
  else if bool_decide (name = "interval-weeks") then Some (n <| ri_Weeks := v |>)
  else if bool_decide (name = "interval-days") then Some (n <| ri_Days := v |>)
  else if bool_decide (name = "interval-hours") then Some (n <| ri_Hours := v |>)
  else None.

(** The state of the command: the interval read so far, whether an interval and a date
    were given, and the text of the answer. *)
Record set_schedule := mkSet { ss_n : ResetInterval; ss_interval : bool; ss_date : bool; ss_buf : string; ss_sched : schedule }.
#[export] Instance set_schedule_settable : Settable set_schedule := mkSettable (fun r =>
  mkSet (ss_n r) (ss_interval r) (ss_date r) (ss_buf r) (ss_sched r)).

Definition read_interval (c : set_schedule) (item : string * option_value) : set_schedule :=
  match interval_option item.1 (swrap 64 (UintValue item.2)) (ss_n c) with
  | Some n => c <| ss_n := n |> <| ss_interval := true |>
  | None => c
  end.

Definition read_date (now : time) (c : set_schedule) (item : string * option_value) : set_schedule :=
  if bool_decide (item.1 = "reset-hour") then
    c <| ss_sched ::= (fun s => s <| sc_ResetHour := swrap 64 (UintValue item.2) |>) |> <| ss_date := true |>
  else if bool_decide (item.1 = "reset-date") then
    let '(t, s) := parseResetDate now (StringValue item.2) (ss_sched c) in
    c <| ss_buf ::= (fun b => b +:+ t) |> <| ss_sched := s |> <| ss_date := true |>
  else if bool_decide (item.1 = "disable") then
    c <| ss_n := mkInterval 0 0 0 0 |> <| ss_sched ::= clear_next |> <| ss_date := true |> <| ss_interval := true |>
  else c.

Definition SetSchedule (now : time) (options : list (string * option_value)) (s : schedule) : schedule :=
  let c := mkSet (mkInterval 0 0 0 0) false false (if bool_decide (options = []) then "You must pick an option." else "") s in
  let c := foldl read_interval c options in
  let c := foldl (read_date now) c options in
  let s := ss_sched c in
  let s := if ss_interval c then SetResetDate now (s <| sc_ResetInterval := ss_n c |>) else s in
  let s := emit ConfigSoftMod (emit WriteLCfg s) in
  let s := if ss_interval c then
      emit (LogGameCMS (if HasResetInterval s then "❇️ Map reset interval changed: " +:+ FormatResetInterval s
                        else "❇️ Map reset interval disabled")) s else s in
  let s := if ss_date c then
      emit (LogGameCMS (if HasResetTime s then "❇️ Map reset date changed: " +:+ FormatResetTime s +:+ "(" +:+ TimeTillReset now s +:+ ")"
                        else "❇️ Map reset date disabled")) s else s in
  emit (Respond (if bool_decide (ss_buf c = "") then "Accepted" else ss_buf c)) s.

(** [resetDurationText] and [resetDateText]: what the game is told. *)
Definition resetDurationText (now : time) (s : schedule) : string :=
  if negb (HasResetTime s) then ""
  else TimeTillReset now s +:+ (if HasResetInterval s then " (" +:+ FormatResetInterval s +:+ ")" else "").
Definition resetDateText (s : schedule) : string := if negb (HasResetInterval s) then "" else FormatResetTime s.
End durations.

(** * What the schedule of map resets guarantees

    An advance moves the next reset by at least an hour; the schedule catches up after
    any outage without resetting the map on the way; a failed reset is tried again
    after a minute and not before; and after a reset that succeeded the next one is in
    the future, unless the interval is shorter than a day and an hour of the day is
    configured: then the map is reset over and over. *)
(** ** Arithmetic of the schedule *)

(** An interval the commands and the web settings accept, with room to spare. *)
Definition good_interval (i : ResetInterval) : Prop :=
  0 <= ri_Months i /\ 0 <= ri_Days i /\ 0 <= ri_Weeks i <= 10000 /\ 0 <= ri_Hours i <= 2000000.

(** The least time an interval spans, in hours. *)
Definition interval_hours (i : ResetInterval) : Z := (28 * ri_Months i + ri_Days i + 7 * ri_Weeks i) * 24 + ri_Hours i.

Lemma Time_Round_near t d : 0 < d -> - d <= 2 * (Time_Round t d - t) <= d.
Proof.
  intros Hd. unfold Time_Round. destruct (Z.leb_spec d 0); [lia|].
  pose proof (Z.mod_pos_bound (t - zeroTime) d Hd) as Hr. set (r := (t - zeroTime) mod d) in *. clearbody r.
  destruct (Z.ltb_spec (r + r) d); lia.
Qed.

Lemma times_small n d : 0 <= n -> 0 <= d -> n * d < 2 ^ 63 -> times n d = n * d.
Proof. intros Hn Hd H. apply swrap_small; [lia|]. unfold in_s. change (64 - 1) with 63. nia. Qed.

Lemma advance_ge i zone t : good_interval i -> 2 * (t + interval_hours i * 3600000000000) - Second <= 2 * advance i zone t.
Proof.
  intros (Hm & Hd & Hw & Hh). unfold advance, Add.
  rewrite !times_small by (change Hour with 3600000000000; lia).
  set (a := AddDate zone t _ _). pose proof (AddDate_ge zone t _ _ Hm Hd) as Ha. fold a in Ha. clearbody a.
  set (b := a + _ + _). pose proof (Time_Round_near b Second ltac:(done)) as Hr.
  unfold interval_hours. change Second with 1000000000 in *. change Hour with 3600000000000 in b. subst b.
  unfold time, duration in *. lia.
Qed.

Lemma has_interval_hours s : good_interval (sc_ResetInterval s) -> HasResetInterval s = true -> 1 <= interval_hours (sc_ResetInterval s).
Proof.
  unfold HasResetInterval, good_interval, interval_hours. intros (Hm & Hd & Hw & Hh) H. apply negb_true_iff in H.
  destruct (Z.eqb_spec (ri_Months (sc_ResetInterval s)) 0), (Z.eqb_spec (ri_Weeks (sc_ResetInterval s)) 0),
    (Z.eqb_spec (ri_Days (sc_ResetInterval s)) 0), (Z.eqb_spec (ri_Hours (sc_ResetInterval s)) 0); simpl in H; try discriminate H; lia.
Qed.

(** A time between 1970 and 2116. *)
Definition recent (t : time) : Prop := 0 <= t <= 2 ^ 62.

Lemma until_near now s : recent now -> recent (sc_NextReset s) ->
  - Second <= until_reset now s - (sc_NextReset s - now) <= Second.
Proof.
  unfold recent, until_reset. intros Hn Ht. pose proof (Time_Round_near now Second ltac:(done)) as Hr.
  set (n := Time_Round now Second) in *. clearbody n. change Second with 1000000000 in *.
  set (d := Sub (sc_NextReset s) n).
  assert (d = sc_NextReset s - n) as Hd by (unfold d, Sub, clamp_duration, minDuration, maxDuration; unfold time in *; lia).
  pose proof (Round_near d 1000000000 ltac:(done)) as Hrd. rewrite Hd in *.
  unfold minDuration, maxDuration, time, duration in *. lia.
Qed.

(** ** The outputs *)
Definition resets (s : schedule) : nat := length (filter (fun e => e = MapReset) (sc_out s)).

Section safety.
Context `{Durafmt}.

Lemma resets_emit e s : resets (emit e s) = (resets s + (if decide (e = MapReset) then 1 else 0))%nat.
Proof. unfold resets, emit. simpl. rewrite filter_app, length_app. f_equal. rewrite filter_cons, filter_nil. by case_decide. Qed.

Lemma resets_other e s : e <> MapReset -> resets (emit e s) = resets s.
Proof. intros He. rewrite resets_emit, decide_False by done. lia. Qed.

Lemma resets_warn players now s : resets (warnMapReset players now s) = resets s.
Proof. unfold warnMapReset. case_match; rewrite !resets_other; done. Qed.

Lemma resets_advance s : resets (AdvanceReset s) = resets s.
Proof. unfold AdvanceReset. case_match; [done|]. by rewrite resets_other. Qed.

Lemma resets_SetResetDate now s : resets (SetResetDate now s) = resets s.
Proof. unfold SetResetDate. case_match; [done|]. by rewrite resets_other. Qed.

Lemma resets_commit now s : resets (commit_reset now s) = resets s.
Proof.
  unfold commit_reset. rewrite resets_other by done. case_match.
  - exact (resets_SetResetDate now (s <| sc_SkipReset := false |>)).
  - exact (resets_SetResetDate now (s <| sc_SkipReset := false |>)).
Qed.

Lemma resets_skip s : resets (skip_reset s) = resets s.
Proof. unfold skip_reset. rewrite resets_other by done. case_match; [apply resets_advance|]. by rewrite resets_other. Qed.

Lemma next_warn players now s :
  sc_NextReset (warnMapReset players now s) = sc_NextReset s /\ sc_ResetInterval (warnMapReset players now s) = sc_ResetInterval s
  /\ sc_zone (warnMapReset players now s) = sc_zone s /\ resetRetryFor (warnMapReset players now s) = resetRetryFor s
  /\ resetRetryAt (warnMapReset players now s) = resetRetryAt s.
Proof. unfold warnMapReset. by case_match. Qed.

(** What a check does, apart from the warnings. *)
Definition warned (players : Z) (now : time) (s : schedule) : schedule :=
  if warn_due players (until_reset now s) then warnMapReset players now s else s.

Lemma warned_same players now s :
  sc_NextReset (warned players now s) = sc_NextReset s /\ sc_ResetInterval (warned players now s) = sc_ResetInterval s
  /\ sc_zone (warned players now s) = sc_zone s /\ resetRetryFor (warned players now s) = resetRetryFor s
  /\ resetRetryAt (warned players now s) = resetRetryAt s /\ resets (warned players now s) = resets s.
Proof.
  unfold warned. case_match; [|done]. destruct (next_warn players now s) as (? & ? & ? & ? & ?).
  rewrite resets_warn. done.
Qed.

Lemma check_cases players now o s :
  CheckMapReset players now o s =
  if negb (HasResetTime s) then s
  else if until_reset now s <? 0 then
    if until_reset now s <? - maxResetWindow then skip_reset (warned players now s) else try_reset o (warned players now s)
  else warned players now s.
Proof. done. Qed.

Lemma SetResetDate_next now s : HasResetInterval s = true ->
  sc_NextReset (SetResetDate now s) = advance (sc_ResetInterval s) 0 (reset_base (sc_ResetHour s) now)
  /\ sc_ResetInterval (SetResetDate now s) = sc_ResetInterval s.
Proof. intros E. unfold SetResetDate. rewrite E. done. Qed.

Lemma reset_base_ge hour now : 0 < hour -> now - 23 * 3600000000000 <= reset_base hour now.
Proof.
  intros Hh. unfold reset_base. destruct (Z.ltb_spec 0 hour); [|lia]. unfold Date.
  assert (day_number (mkCivil (c_year (date_of now)) (c_month (date_of now)) (c_day (date_of now))) = now / Day) as ->.
  { rewrite <-day_of_date. generalize (date_of now). intros []. reflexivity. }
  pose proof (time_split now) as Hs. assert (clock_of now < 86400000000000) by (unfold clock_of; apply (Z.mod_pos_bound now Day); done).
  set (q := now / Day) in *. set (k := clock_of now) in *. clearbody q k. change Second with 1000000000. unfold time, duration in *. nia.
Qed.

(** Resets that follow the interval lie in the future of the moment they are set. *)
Definition interval_fits_hour (s : schedule) : Prop := sc_ResetHour s <= 0 \/ 24 <= interval_hours (sc_ResetInterval s).

Lemma SetResetDate_future now s :
  good_interval (sc_ResetInterval s) -> interval_fits_hour s -> HasResetInterval s = true ->
  now < sc_NextReset (SetResetDate now s).
Proof.
  intros Hg Hf Hi. destruct (SetResetDate_next now s Hi) as [-> _].
  pose proof (advance_ge _ 0 (reset_base (sc_ResetHour s) now) Hg) as Ha. pose proof (has_interval_hours s Hg Hi) as H1.
  change Second with 1000000000 in Ha. set (a := advance _ _ _) in *. clearbody a.
  destruct (Z.le_gt_cases (sc_ResetHour s) 0) as [Hh|Hh].
  - unfold reset_base in Ha. destruct (Z.ltb_spec 0 (sc_ResetHour s)); [lia|]. unfold time, duration in *. lia.
  - destruct Hf as [?|Hf]; [lia|]. pose proof (reset_base_ge _ now Hh). unfold time, duration in *. lia.
Qed.

Lemma commit_future now s :
  good_interval (sc_ResetInterval s) -> interval_fits_hour s -> HasResetTime (commit_reset now s) = true ->
  now < sc_NextReset (commit_reset now s).
Proof.
  intros Hg Hf. unfold commit_reset. set (s1 := s <| sc_SkipReset := false |>).
  destruct (HasResetInterval s) eqn:Ei.
  - pose proof (SetResetDate_future now s1 Hg Hf Ei) as Hlt. set (s2 := SetResetDate now s1) in *.
    destruct (negb (HasResetInterval s2)) eqn:E2; [|intros _; exact Hlt].
    exfalso. revert E2. subst s2. unfold SetResetDate. change (HasResetInterval s1) with (HasResetInterval s). rewrite Ei. simpl.
    change (negb (HasResetInterval s) = true -> False). by rewrite Ei.
  - unfold SetResetDate. change (HasResetInterval s1) with (HasResetInterval s). rewrite Ei. cbn [negb].
    change (HasResetInterval s1) with (HasResetInterval s). change (HasResetTime s1) with (HasResetTime s).
    change (sc_NextReset s1) with (sc_NextReset s). rewrite Ei. cbn [negb andb]. unfold After.
    destruct (HasResetTime s) eqn:Et, (Z.ltb_spec now (sc_NextReset s)); cbn [negb andb].
    + intros _. assumption.
    + discriminate.
    + change (HasResetTime s = true -> now < sc_NextReset s). by rewrite Et.
    + change (HasResetTime s = true -> now < sc_NextReset s). by rewrite Et.
Qed.

(** ** Runs of checks *)
Record check := mkCheck { k_players : Z; k_now : time; k_outcome : reset_outcome }.
Definition run (l : list check) (s : schedule) : schedule := foldl (fun s k => CheckMapReset (k_players k) (k_now k) (k_outcome k) s) s l.

(** No reset is attempted before its date. *)
Lemma check_early players now o s : recent now -> recent (sc_NextReset s) -> now + Second < sc_NextReset s ->
  resets (CheckMapReset players now o s) = resets s /\ sc_NextReset (CheckMapReset players now o s) = sc_NextReset s
  /\ sc_ResetInterval (CheckMapReset players now o s) = sc_ResetInterval s.
Proof.
  intros Hn Hr Hlt. pose proof (until_near now s Hn Hr) as Hu. rewrite check_cases.
  destruct (warned_same players now s) as (E1 & E2 & _ & _ & _ & E6).
  destruct (negb _); [done|]. destruct (Z.ltb_spec (until_reset now s) 0); [|by rewrite E1, E2, E6].
  unfold time, duration in *. lia.
Qed.

Lemma run_idle l s : HasResetTime s = false -> run l s = s.
Proof.
  intros E. induction l as [|k l IH]; [done|]. unfold run in *. simpl.
  assert (CheckMapReset (k_players k) (k_now k) (k_outcome k) s = s) as -> by (rewrite check_cases, E; done). exact IH.
Qed.

Lemma run_early l s : recent (sc_NextReset s) ->
  Forall (fun k => recent (k_now k) /\ k_now k + Second < sc_NextReset s) l -> resets (run l s) = resets s.
Proof.
  revert s. induction l as [|k l IH]; intros s Hr Hl; [done|]. apply Forall_cons in Hl as [[Hk1 Hk2] Hl].
  destruct (check_early (k_players k) (k_now k) (k_outcome k) s Hk1 Hr Hk2) as (E1 & E2 & _).
  unfold run in *. simpl. rewrite IH, E1; rewrite ?E2; done.
Qed.

Lemma try_resets o s : resets (try_reset o s) <> resets s ->
  negb ((sc_NextReset s =? resetRetryFor s) && Before (ro_begin o) (resetRetryAt s)) = true /\ resets (try_reset o s) = S (resets s).
Proof.
  unfold try_reset. destruct (_ && _); [done|]. intros _. split; [done|].
  set (s1 := match ro_generated o with Some _ => _ | None => _ end).
  assert (resets s1 = S (resets s)) as E1.
  { assert (resets (emit MapReset s) = S (resets s)) as E by (rewrite resets_emit, decide_True by done; lia).
    unfold s1. destruct (ro_generated o); [rewrite resets_commit|]; exact E. }
  destruct (ro_error o); [exact E1|]. destruct (_ && _); [|exact E1]. rewrite resets_other by done. exact E1.
Qed.

(** What an attempt that succeeded leaves. *)
Lemma try_success o s t : ro_generated o = Some t -> ro_error o = false -> resets (try_reset o s) <> resets s ->
  sc_NextReset (try_reset o s) = sc_NextReset (commit_reset t (emit MapReset s)) \/ HasResetTime (try_reset o s) = false.
Proof.
  intros Eg Ee Hr. destruct (try_resets o s Hr) as [Hw _]. unfold try_reset. apply negb_true_iff in Hw. rewrite Hw, Eg, Ee. clear Hw Hr.
  set (c := _ <| resetRetryAt := _ |>). destruct (_ && _); [right; reflexivity|left; reflexivity].
Qed.

(** A check that attempts a reset is [try_reset] on the warned schedule. *)
Lemma check_attempts players now o s : resets (CheckMapReset players now o s) <> resets s ->
  HasResetTime s = true /\ - maxResetWindow <= until_reset now s < 0
  /\ CheckMapReset players now o s = try_reset o (warned players now s).
Proof.
  rewrite check_cases. destruct (warned_same players now s) as (_ & _ & _ & _ & _ & E6).
  destruct (HasResetTime s); simpl; [|done].
  destruct (Z.ltb_spec (until_reset now s) 0); [|by rewrite E6].
  destruct (Z.ltb_spec (until_reset now s) (- maxResetWindow)); [by rewrite resets_skip, E6|]. intros _. split_and!; [done|lia..|done].
Qed.

(** C29: After a reset that succeeded the next one is in the future, and none is
    attempted before it is due.  The interval must last a day when an hour of the day
    is configured. *)
Theorem successful_reset_not_repeated players now o s t l :
  good_interval (sc_ResetInterval s) -> interval_fits_hour s ->
  ro_generated o = Some t -> ro_error o = false ->
  let s' := CheckMapReset players now o s in
  resets s' <> resets s -> recent (sc_NextReset s') \/ HasResetTime s' = false ->
  Forall (fun k => recent (k_now k) /\ k_now k + Second < sc_NextReset s') l \/ HasResetTime s' = false ->
  (HasResetTime s' = true -> t < sc_NextReset s') /\ resets s' = S (resets s) /\ resets (run l s') = resets s'.
Proof.
  intros Hg Hf Eg Ee s' Hres Hrec Hl. destruct (check_attempts players now o s Hres) as (_ & _ & E).
  destruct (warned_same players now s) as (E1 & E2 & _ & _ & _ & E6).
  assert (sc_ResetHour (warned players now s) = sc_ResetHour s) as E7 by (unfold warned, warnMapReset; repeat case_match; done).
  assert (Hres2 : resets (try_reset o (warned players now s)) <> resets (warned players now s)) by (rewrite E6, <-E; exact Hres).
  split_and!.
  - intros Ht. unfold s' in *. rewrite E in Ht |- *. destruct (try_success o _ t Eg Ee Hres2) as [Hn|Hn]; [|congruence].
    assert (HasResetTime (commit_reset t (emit MapReset (warned players now s))) = true) by (unfold HasResetTime in *; by rewrite <-Hn).
    rewrite Hn. apply commit_future; [| |done]; unfold interval_fits_hour; simpl; by rewrite ?E2, ?E7.
  - unfold s'. rewrite E, <-E6. by apply (try_resets o _ Hres2).
  - destruct (HasResetTime s') eqn:Et; [|by rewrite run_idle]. destruct Hrec as [Hrec|?], Hl as [Hl|?]; try done. by apply run_early.
Qed.

(** ** A reset that fails is tried again after a minute *)
Lemma try_throttled o s : resetRetryFor s = sc_NextReset s -> ro_begin o < resetRetryAt s -> try_reset o s = s.
Proof. intros E1 E2. unfold try_reset, Before. rewrite E1, Z.eqb_refl. apply Z.ltb_lt in E2. unfold time in *. by rewrite E2. Qed.

(** No attempt for the same date is made in the minute after one that failed. *)
Theorem failed_reset_waits players now o s l :
  ro_error o = true -> ro_generated o = None -> recent (sc_NextReset s) ->
  let s' := CheckMapReset players now o s in
  resets s' <> resets s ->
  Forall (fun k => recent (k_now k) /\ k_now k + Second <= sc_NextReset s + maxResetWindow /\ ro_begin (k_outcome k) < ro_end o + Minute) l ->
  resets (run l s') = resets s' /\ sc_NextReset (run l s') = sc_NextReset s.
Proof.
  intros Ee Eg Hrec s' Hres Hl. destruct (check_attempts players now o s Hres) as (_ & _ & E).
  destruct (warned_same players now s) as (E1 & _ & _ & _ & _ & E6).
  assert (Hres2 : resets (try_reset o (warned players now s)) <> resets (warned players now s)) by (rewrite E6, <-E; exact Hres).
  destruct (try_resets o _ Hres2) as [Hw _]. apply negb_true_iff in Hw.
  assert (sc_NextReset s' = sc_NextReset s /\ resetRetryFor s' = sc_NextReset s /\ resetRetryAt s' = ro_end o + Minute) as (H1 & H2 & H3).
  { unfold s'. rewrite E. unfold try_reset. rewrite Hw, Eg, Ee, <-E1. done. }
  clear E Hres Hres2 Hw E1 E6. clearbody s'. revert s' H1 H2 H3. induction Hl as [|k l (Hk1 & Hk2 & Hk3) Hl IH]; intros s' H1 H2 H3; [done|].
  unfold run. simpl. set (s2 := CheckMapReset _ _ _ s').
  destruct (warned_same (k_players k) (k_now k) s') as (F1 & _ & _ & F4 & F5 & F6).
  assert (sc_NextReset s2 = sc_NextReset s /\ resetRetryFor s2 = sc_NextReset s /\ resetRetryAt s2 = ro_end o + Minute /\ resets s2 = resets s') as (G1 & G2 & G3 & G4).
  { unfold s2. rewrite check_cases. destruct (negb _); [done|].
    pose proof (until_near (k_now k) s' Hk1 ltac:(by rewrite H1)) as Hu. rewrite H1 in Hu.
    destruct (Z.ltb_spec (until_reset (k_now k) s') 0); [|by rewrite F1, F4, F5, F6].
    destruct (Z.ltb_spec (until_reset (k_now k) s') (- maxResetWindow)); [unfold time, duration in *; lia|].
    rewrite try_throttled by (rewrite ?F4, ?F1, ?F5; congruence || lia). by rewrite F1, F4, F5, F6. }
  destruct (IH s2 G1 G2 G3) as [Ha Hb]. unfold run in Ha, Hb. by rewrite Ha, Hb, G4.
Qed.

(** ** After an outage the schedule catches up *)
Lemma until_low now s : recent now -> now <= sc_NextReset s -> - maxResetWindow <= until_reset now s.
Proof.
  unfold recent, until_reset. intros Hn Hle. pose proof (Time_Round_near now Second ltac:(done)) as Hr.
  set (n := Time_Round now Second) in *. clearbody n. set (d := Sub _ _).
  assert (- 1000000000 <= d) as Hd.
  { unfold d, Sub, clamp_duration, minDuration, maxDuration. change Second with 1000000000 in Hr. unfold time in *. lia. }
  clearbody d. unfold Round. change maxResetWindow with 10800000000000. change Second with 1000000000.
  change (1000000000 <=? 0) with false. cbn iota.
  pose proof (Z.rem_bound_abs d 1000000000 ltac:(done)) as Hrem. set (r := Z.abs (Z.rem d 1000000000)) in *.
  assert (0 <= r) by (unfold r; lia). clearbody r. unfold minDuration, maxDuration.
  destruct (Z.ltb_spec d 0), (Z.ltb_spec (r + r) 1000000000); try lia.
  - destruct (Z.leb_spec (- 2 ^ 63) (d - 1000000000 + r)); lia.
  - destruct (Z.leb_spec (d + 1000000000 - r) (2 ^ 63 - 1)); lia.
Qed.

Lemma HasResetTime_ge s t : HasResetTime s = true -> sc_NextReset s <= t -> 0 < t / Second.
Proof.
  unfold HasResetTime. intros H1%Z.ltb_lt H2. pose proof (Z.div_le_mono _ _ Second ltac:(done) H2). lia.
Qed.

Lemma check_skips players now o s :
  good_interval (sc_ResetInterval s) -> HasResetInterval s = true -> HasResetTime s = true -> until_reset now s < - maxResetWindow ->
  let s' := CheckMapReset players now o s in
  sc_NextReset s + 3599000000000 <= sc_NextReset s' /\ sc_ResetInterval s' = sc_ResetInterval s /\ HasResetTime s' = true
  /\ resets s' = resets s.
Proof.
  intros Hg Hi Ht Hu s'. destruct (warned_same players now s) as (E1 & E2 & E3 & _ & _ & E6).
  assert (s' = skip_reset (warned players now s)) as ->.
  { assert (until_reset now s < 0) as H0 by (change maxResetWindow with 10800000000000 in Hu; unfold duration in *; lia).
    unfold s'. rewrite check_cases, Ht, (proj2 (Z.ltb_lt _ _) Hu), (proj2 (Z.ltb_lt _ _) H0). done. }
  set (w := warned players now s) in *.
  assert (HasResetInterval w = true) as Hw by (unfold HasResetInterval in *; by rewrite E2).
  assert (sc_NextReset (skip_reset w) = advance (sc_ResetInterval s) (sc_zone s) (sc_NextReset s)
          /\ sc_ResetInterval (skip_reset w) = sc_ResetInterval s) as [En Ei].
  { unfold skip_reset, AdvanceReset. rewrite Hw. cbn [negb]. rewrite <-E1, <-E2, <-E3. done. }
  pose proof (advance_ge (sc_ResetInterval s) (sc_zone s) (sc_NextReset s) Hg) as Ha. pose proof (has_interval_hours s Hg Hi) as H1.
  rewrite <-En in Ha. change Second with 1000000000 in Ha.
  assert (sc_NextReset s + 3599000000000 <= sc_NextReset (skip_reset w)) as Hge by (unfold time, duration in *; lia).
  split_and!; [done|done| |by rewrite resets_skip]. apply Z.ltb_lt. eapply HasResetTime_ge; [exact Ht|]. lia.
Qed.

(** C35: However long the server was down, a bounded number of checks moves the schedule
    to a date that is not over for more than three hours, and none of them resets the
    map. *)
Theorem missed_resets_skipped l : forall (n : nat) (T : time) s,
  good_interval (sc_ResetInterval s) -> HasResetInterval s = true -> HasResetTime s = true ->
  Forall (fun k => recent (k_now k) /\ k_now k <= T) l ->
  T - sc_NextReset s < Z.of_nat n * 3599000000000 -> (n < length l)%nat ->
  exists l1 k l2, l = l1 ++ k :: l2 /\ (length l1 <= n)%nat
    /\ - maxResetWindow <= until_reset (k_now k) (run l1 s) /\ resets (run l1 s) = resets s.
Proof.
  induction l as [|k l IH]; intros n T s Hg Hi Ht Hl Hn Hlen; [simpl in Hlen; lia|].
  apply Forall_cons in Hl as [[Hk HkT] Hl].
  destruct (Z.le_gt_cases (- maxResetWindow) (until_reset (k_now k) s)) as [Hu|Hu].
  { exists [], k, l. split_and!; [done|simpl; lia|exact Hu|done]. }
  assert (sc_NextReset s < k_now k) as Hlt.
  { destruct (Z.le_gt_cases (k_now k) (sc_NextReset s)) as [Hle|]; [|done]. pose proof (until_low _ _ Hk Hle). unfold duration in *. lia. }
  destruct n as [|n]; [unfold time in *; lia|].
  destruct (check_skips (k_players k) (k_now k) (k_outcome k) s Hg Hi Ht Hu) as (G1 & G2 & G3 & G4).
  set (s2 := CheckMapReset _ _ _ s) in *.
  assert (HasResetInterval s2 = true) as Hi2 by (unfold HasResetInterval in *; by rewrite G2).
  destruct (IH n T s2) as (l1 & k' & l2 & -> & Hl1 & Hu' & Hr'); [by rewrite G2|done|done|done|unfold time in *; lia|simpl in Hlen; lia|].
  exists (k :: l1), k', l2. split_and!; [done|simpl; lia|exact Hu'|]. unfold run in *. simpl. by rewrite <-G4.
Qed.
End safety.

(** ** Concrete schedules *)
Definition demo_durafmt : Durafmt := {| units_fail := false; durafmt_Format := fun _ => "3 hours"; durafmt_First2 := fun _ => "some time" |}.
Definition demo_schedule (i : ResetInterval) (hour : Z) (next : time) : schedule := mkSchedule next 0 i hour false zeroTime zeroTime [].
Definition evening : time := Date 2026 1 10 20 0 0 0.
Definition weekly : ResetInterval := mkInterval 0 1 0 0.
Definition four_hours : ResetInterval := mkInterval 0 0 0 4.
Definition generated (t : time) : reset_outcome := mkOutcome t (Some t) false t.
Definition failed (t : time) : reset_outcome := mkOutcome t None true t.

Definition after_success : schedule :=
  CheckMapReset (H := demo_durafmt) 0 evening (generated (evening + Second)) (demo_schedule weekly 5 (evening - Minute)).

Lemma successful_reset_not_repeated_witness :
  (HasResetTime after_success = true -> evening + Second < sc_NextReset after_success) /\ resets after_success = 1%nat
  /\ resets (run (H := demo_durafmt) [mkCheck 3 (evening + Minute) (generated (evening + Minute))] after_success) = resets after_success.
Proof.
  refine (@successful_reset_not_repeated demo_durafmt 0 evening (generated (evening + Second)) (demo_schedule weekly 5 (evening - Minute)) (evening + Second)
            [mkCheck 3 (evening + Minute) (generated (evening + Minute))] _ _ _ _ _ _ _).
  - vm_compute. intuition discriminate.
  - right. vm_compute. discriminate.
  - reflexivity.
  - reflexivity.
  - vm_compute. discriminate.
  - left. vm_compute. intuition discriminate.
  - left. constructor; [|constructor]. vm_compute. intuition discriminate.
Defined.

Definition after_failure : schedule := CheckMapReset (H := demo_durafmt) 0 evening (failed evening) (demo_schedule weekly 5 (evening - Minute)).

Lemma failed_reset_waits_witness :
  resets after_failure = 1%nat /\ resets (run (H := demo_durafmt) [mkCheck 0 (evening + 2 * Second) (failed (evening + 2 * Second))] after_failure) = resets after_failure
  /\ sc_NextReset (run (H := demo_durafmt) [mkCheck 0 (evening + 2 * Second) (failed (evening + 2 * Second))] after_failure) = evening - Minute.
Proof.
  split; [vm_compute; reflexivity|].
  refine (@failed_reset_waits demo_durafmt 0 evening (failed evening) (demo_schedule weekly 5 (evening - Minute))
            [mkCheck 0 (evening + 2 * Second) (failed (evening + 2 * Second))] _ _ _ _ _).
  - reflexivity.
  - reflexivity.
  - vm_compute. intuition discriminate.
  - vm_compute. discriminate.
  - constructor; [|constructor]. vm_compute. intuition discriminate.
Defined.

(** The server was down for three weeks; the schedule is weekly. *)
Definition outage : list check := repeat (mkCheck 0 evening (failed evening)) 600.
Definition outage_start : schedule := demo_schedule weekly 5 (evening - 21 * Day).

Lemma missed_resets_skipped_witness : exists l1 k l2, outage = l1 ++ k :: l2 /\ (length l1 <= 590)%nat
  /\ - maxResetWindow <= until_reset (k_now k) (run (H := demo_durafmt) l1 outage_start) /\ resets (run (H := demo_durafmt) l1 outage_start) = 0%nat.
Proof.
  refine (@missed_resets_skipped demo_durafmt outage 590 evening outage_start _ _ _ _ _ _).
  - vm_compute. intuition discriminate.
  - reflexivity.
  - reflexivity.
  - apply List.Forall_forall. intros k Hk. apply List.repeat_spec in Hk. subst k. vm_compute. intuition discriminate.
  - vm_compute. reflexivity.
  - vm_compute. lia.
Defined.

(** With an hour of the day and an interval of four hours the date set by a reset at
    20:00 is 10:00 of the same day: two checks skip it to 18:00, which is not over for
    more than three hours, and the third resets the map again. *)
Theorem short_interval_resets_again :
  let s := commit_reset evening (demo_schedule four_hours 6 (evening - Second)) in
  FormatRFC3339 (sc_NextReset s) = "2026-01-10T10:00:00Z"
  /\ resets (run (H := demo_durafmt) (repeat (mkCheck 0 (evening + Second) (generated (evening + Second))) 3) s) = S (resets s)
  /\ FormatRFC3339 (sc_NextReset (run (H := demo_durafmt) (repeat (mkCheck 0 (evening + Second) (generated (evening + Second))) 4) s)) = "2026-01-10T14:00:00Z".
Proof. vm_compute. auto. Qed.
