(* ===== verification/ConfigTree.v ===== *)
(** * Configuration trees: [flatten] and [unflatten] of [src/cfg/web_settings.go]

    A configuration file is a JSON object; the settings code works on the map from
    dotted keys to the values below them.  A JSON number is the float64 it decodes to,
    [n_m * 2 ^ n_e] with an odd [n_m], or zero.  The fields of an object are listed in
    the order the program meets them in. *)
From Stdlib Require Import Ascii.
From S2P Require Import Prelude.
From S2P Require Import GoInt.
From S2P Require Import GoString.
From S2P Require Import GoPath.

(** ** Values *)
Record num := mkNum { n_m : Z; n_e : Z }.
#[export] Instance num_eq_dec : EqDecision num.
Proof. solve_decision. Defined.

#[local] Unset Elimination Schemes.
Inductive json :=
  | JNull
  | JBool (b : bool)
  | JNum (n : num)
  | JStr (s : string)
  | JArr (l : list json)
  | JObj (l : list (string * json)).
#[local] Set Elimination Schemes.

Section json_ind.
Variable P : json -> Prop.
Hypothesis Hnull : P JNull.
Hypothesis Hbool : forall b, P (JBool b).
Hypothesis Hnum : forall n, P (JNum n).
Hypothesis Hstr : forall s, P (JStr s).
Hypothesis Harr : forall l, Forall P l -> P (JArr l).
Hypothesis Hobj : forall l, Forall (fun f => P f.2) l -> P (JObj l).

Fixpoint json_ind (j : json) : P j :=
  match j with
  | JNull => Hnull
  | JBool b => Hbool b
  | JNum n => Hnum n
  | JStr s => Hstr s
  | JArr l => Harr l ((fix go l : Forall P l := match l with [] => Forall_nil_2 _ | x :: l => Forall_cons_2 _ _ _ (json_ind x) (go l) end) l)
  | JObj l => Hobj l ((fix go l : Forall (fun f => P f.2) l :=
                         match l with [] => Forall_nil_2 _ | f :: l => Forall_cons_2 _ _ _ (json_ind f.2) (go l) end) l)
  end.
End json_ind.

#[export] Instance json_eq_dec : EqDecision json.
Proof.
  refine (fix go (a b : json) : Decision (a = b) :=
    match a, b with
    | JNull, JNull => left eq_refl
    | JBool x, JBool y => cast_if (decide (x = y))
    | JNum x, JNum y => cast_if (decide (x = y))
    | JStr x, JStr y => cast_if (decide (x = y))
    | JArr x, JArr y => cast_if (@list_eq_dec json go x y)
    | JObj x, JObj y => cast_if (@list_eq_dec (string * json) (@prod_eq_dec string _ json go) x y)
    | _, _ => right _
    end); clear go; congruence.
Defined.

Abbreviation fields := (list (string * json)).
Abbreviation settings := (gmap string json).

(** ** [flatten] *)
Definition dot : ascii := "."%char.
Definition dotted (prefix k : string) : string := if bool_decide (prefix = "") then k else prefix +:+ String dot k.

Fixpoint flatten_value (key : string) (x : json) (out : settings) : settings :=
  match x with
  | JObj l => (fix go l out := match l with [] => out | (k, x) :: l => go l (flatten_value (dotted key k) x out) end) l out
  | _ => <[key := x]> out
  end.

Definition flatten (v : fields) (prefix : string) (out : settings) : settings :=
  foldl (fun out f => flatten_value (dotted prefix f.1) f.2 out) out v.

(** [readConfigValues] of a file that holds the object [v]. *)
Definition config_values (v : fields) : settings := flatten v "" ∅.

(** ** [unflatten] *)
Fixpoint field (p : string) (l : fields) : option json :=
  match l with [] => None | (k, x) :: l => if bool_decide (p = k) then Some x else field p l end.
Fixpoint set_field (p : string) (v : json) (l : fields) : fields :=
  match l with
  | [] => [(p, v)]
  | (k, x) :: l => if bool_decide (p = k) then (k, v) :: l else (k, x) :: set_field p v l
  end.

(** The walk along the parts of one key; [None] is the panic of a type assertion on a
    value that is not an object. *)
Fixpoint put (parts : list string) (v : json) (m : fields) : option fields :=
  match parts with
  | [] => Some m
  | [p] => Some (set_field p v m)
  | p :: ps =>
      match field p m with
      | None => sub ← put ps v []; Some (set_field p (JObj sub) m)
      | Some (JObj sub) => sub ← put ps v sub; Some (set_field p (JObj sub) m)
      | Some _ => None
      end
  end.

(** [unflatten], for the values in the order of the iteration. *)
Definition unflatten_list (l : list (string * json)) : option fields :=
  foldl (fun m kv => m ← m; put (Split kv.1 dot) kv.2 m) (Some []) l.
Definition unflatten (values : settings) : option fields := unflatten_list (map_to_list values).

(** ** The leaves of a tree *)
Fixpoint leaves (x : json) : list (list string * json) :=
  match x with
  | JObj l => (fix go l := match l with [] => [] | (k, x) :: l => ((fun q => (k :: q.1, q.2)) <$> leaves x) ++ go l end) l
  | _ => [([], x)]
  end.
Definition leaves_of (m : fields) : list (list string * json) := leaves (JObj m).

Definition is_leaf (x : json) : Prop := match x with JObj _ => False | _ => True end.

(** Every object below the top has a field, and no object has a key twice. *)
Fixpoint tidy (x : json) : Prop :=
  match x with
  | JObj l => l <> [] /\ NoDup l.*1 /\ (fix go l := match l with [] => True | (_, x) :: l => tidy x /\ go l end) l
  | _ => True
  end.
Definition tidy_fields (m : fields) : Prop := NoDup m.*1 /\ Forall (fun f => tidy f.2) m.

Lemma tidy_obj l : tidy (JObj l) <-> l <> [] /\ tidy_fields l.
Proof.
  unfold tidy_fields. simpl. split; intros (Hl & Hn & Hf); split_and!; try done.
  - clear Hl Hn. induction l as [|[k x] l IH]; [constructor|]. destruct Hf as [Hx Hf]. constructor; [exact Hx|by apply IH].
  - clear Hl Hn. induction Hf as [|[k x] l Hx Hf IH]; done.
Qed.

Lemma leaves_of_nil : leaves_of [] = [].
Proof. done. Qed.
Lemma leaves_of_cons k x m : leaves_of ((k, x) :: m) = ((fun q => (k :: q.1, q.2)) <$> leaves x) ++ leaves_of m.
Proof. done. Qed.
Lemma leaves_of_app m1 m2 : leaves_of (m1 ++ m2) = leaves_of m1 ++ leaves_of m2.
Proof. induction m1 as [|[k x] m1 IH]; [done|]. simpl app. by rewrite !leaves_of_cons, IH, app_assoc. Qed.
Lemma leaves_leaf x : is_leaf x -> leaves x = [([], x)].
Proof. by destruct x. Qed.

Lemma tidy_has_leaf x : tidy x -> leaves x <> [].
Proof.
  induction x as [| | | | |l IH] using json_ind; try done. intros [Hl [Hn Hf]]%tidy_obj.
  destruct l as [|[k x] l]; [done|]. change (leaves (JObj ((k, x) :: l))) with (leaves_of ((k, x) :: l)). rewrite leaves_of_cons.
  apply Forall_cons in IH as [IH _]. apply Forall_cons in Hf as [Hf _]. specialize (IH Hf). simpl in IH.
  destruct (leaves x); [done|]. discriminate.
Qed.

Lemma field_leaf p x m : tidy_fields m -> field p m = Some x -> forall q, q ∈ leaves x -> (p :: q.1, q.2) ∈ leaves_of m.
Proof.
  intros _ Hp q Hq. induction m as [|[k y] m IH]; [done|]. rewrite leaves_of_cons, elem_of_app. simpl in Hp.
  case_bool_decide as E; [left|right; by apply IH]. simplify_eq. apply list_elem_of_fmap. by exists q.
Qed.

Lemma field_tidy p x m : tidy_fields m -> field p m = Some x -> tidy x.
Proof.
  intros [_ Hf] Hp. induction Hf as [|[k y] m Hy Hf IH]; [done|]. simpl in Hp. case_bool_decide; [by simplify_eq|by apply IH].
Qed.

Lemma set_field_fresh p v m : field p m = None -> set_field p v m = m ++ [(p, v)].
Proof. induction m as [|[k y] m IH]; [done|]. simpl. case_bool_decide; [done|]. intros Hm. by rewrite IH. Qed.

Lemma field_None p m : field p m = None <-> p ∉ m.*1.
Proof.
  induction m as [|[k y] m IH]; simpl; [set_solver|]. rewrite not_elem_of_cons. case_bool_decide; [naive_solver|]. rewrite IH. naive_solver.
Qed.

Lemma field_split p x v m : field p m = Some x -> exists m1 m2, m = m1 ++ (p, x) :: m2 /\ set_field p v m = m1 ++ (p, v) :: m2.
Proof.
  induction m as [|[k y] m IH]; [done|]. simpl. case_bool_decide as E.
  - intros ?. simplify_eq. by exists [], m.
  - intros Hm. destruct (IH Hm) as (m1 & m2 & -> & ->). by exists ((k, y) :: m1), m2.
Qed.

(** ** What [put] adds *)
Definition apart (a b : list string) : Prop := ~ a `prefix_of` b /\ ~ b `prefix_of` a.

Lemma apart_cons p a b : apart (p :: a) (p :: b) -> apart a b.
Proof. intros [H1 H2]. split; intros Hp; [apply H1|apply H2]; by apply prefix_cons. Qed.

Lemma tidy_snoc p v m : tidy_fields m -> field p m = None -> tidy v -> tidy_fields (m ++ [(p, v)]).
Proof.
  intros [Hn Hf] Hp%field_None Hv. split.
  - rewrite fmap_app. apply NoDup_app. split_and!; [done| |apply NoDup_singleton]. simpl. set_solver.
  - apply Forall_app. split; [done|]. by repeat constructor.
Qed.

Lemma put_leaves ps v : is_leaf v -> ps <> [] -> forall m, tidy_fields m ->
  Forall (fun q => apart q.1 ps) (leaves_of m) ->
  exists m', put ps v m = Some m' /\ m' <> [] /\ tidy_fields m' /\ leaves_of m' ≡ₚ (ps, v) :: leaves_of m.
Proof.
  intros Hv. induction ps as [|p ps IH]; [done|]. intros _ m Hm Hq.
  assert (Hvt : tidy v) by (by destruct v).
  assert (Hno : forall x, field p m = Some x -> is_leaf x -> False).
  { intros x Hx Hlx. pose proof (field_leaf p x m Hm Hx ([], x)) as Hin. rewrite leaves_leaf in Hin by done.
    specialize (Hin ltac:(set_solver)). rewrite Forall_forall in Hq. destruct (Hq _ Hin) as [Ha _]. apply Ha. simpl. by exists ps. }
  destruct ps as [|p' ps].
  - (* the last part is a new field *)
    destruct (field p m) as [x|] eqn:Ex.
    { exfalso. pose proof (tidy_has_leaf x (field_tidy _ _ _ Hm Ex)) as Hne. destruct (leaves x) as [|q lx] eqn:El; [done|].
      pose proof (field_leaf p x m Hm Ex q ltac:(rewrite El; set_solver)) as Hin.
      rewrite Forall_forall in Hq. destruct (Hq _ Hin) as [_ Hb]. apply Hb. simpl. by exists q.1. }
    exists (m ++ [(p, v)]). simpl put. rewrite set_field_fresh by done. split_and!; [done|by destruct m|by apply tidy_snoc|].
    rewrite leaves_of_app, leaves_of_cons, leaves_leaf by done. simpl. by rewrite Permutation_app_comm.
  - specialize (IH ltac:(done)). change (put (p :: p' :: ps) v m) with
      (match field p m with None => sub ← put (p' :: ps) v []; Some (set_field p (JObj sub) m)
       | Some (JObj sub) => sub ← put (p' :: ps) v sub; Some (set_field p (JObj sub) m) | Some _ => None end).
    destruct (field p m) as [x|] eqn:Ex.
    + destruct x as [| | | | |sub]; try (exfalso; by eapply Hno).
      pose proof (field_tidy _ _ _ Hm Ex) as [_ Hsub]%tidy_obj.
      destruct (IH sub Hsub) as (sub' & Hput & Hne & Hsub' & Hl).
      { apply Forall_forall. intros q Hin. pose proof (field_leaf p _ m Hm Ex q Hin) as Hin2. rewrite Forall_forall in Hq.
        apply (apart_cons p), (Hq _ Hin2). }
      destruct (field_split p _ (JObj sub') m Ex) as (m1 & m2 & -> & Es). rewrite Hput. simpl. rewrite Es.
      exists (m1 ++ (p, JObj sub') :: m2). split_and!; [done|by destruct m1| |].
      * destruct Hm as [Hn Hf]. split; [by rewrite fmap_app in *|]. rewrite Forall_app, Forall_cons in *. destruct Hf as (H1 & _ & H2).
        split_and!; [done|by apply tidy_obj|done].
      * rewrite !leaves_of_app, !leaves_of_cons. change (leaves (JObj ?s)) with (leaves_of s). rewrite Hl. simpl.
        by rewrite <-Permutation_middle.
    + destruct (IH []) as (sub' & Hput & Hne & Hsub' & Hl); [split; constructor|constructor|].
      rewrite Hput. simpl. exists (m ++ [(p, JObj sub')]). rewrite set_field_fresh by done.
      split_and!; [done|by destruct m|apply tidy_snoc; [done|done|by apply tidy_obj]|].
      rewrite leaves_of_app, leaves_of_cons. change (leaves (JObj ?s)) with (leaves_of s). rewrite Hl. simpl. by rewrite Permutation_app_comm.
Qed.

(** ** [unflatten] builds a tree with the given leaves *)
Definition separate (L : list (list string)) : Prop := forall i j a b, L !! i = Some a -> L !! j = Some b -> i <> j -> apart a b.

Lemma separate_cons a L : separate (a :: L) -> Forall (apart a) L /\ separate L.
Proof.
  intros Hs. split.
  - apply Forall_forall. intros b [j Hj]%list_elem_of_lookup. apply (Hs 0%nat (S j)); done.
  - intros i j b c Hi Hj Hij. apply (Hs (S i) (S j)); naive_solver.
Qed.

Definition entry (kv : string * json) : list string * json := (Split kv.1 dot, kv.2).

Lemma unflatten_go l : forall m, tidy_fields m ->
  Forall (fun kv => is_leaf kv.2) l -> separate ((fun kv => Split kv.1 dot) <$> l) ->
  Forall (fun kv => Forall (fun q => apart q.1 (Split kv.1 dot)) (leaves_of m)) l ->
  exists m', foldl (fun m kv => m ← m; put (Split kv.1 dot) kv.2 m) (Some m) l = Some m' /\ tidy_fields m'
    /\ leaves_of m' ≡ₚ (entry <$> l) ++ leaves_of m.
Proof.
  induction l as [|kv l IH]; intros m Hm Hl Hs Ha; [by exists m|].
  apply Forall_cons in Hl as [Hv Hl]. apply Forall_cons in Ha as [Hkv Ha]. rewrite fmap_cons in Hs. apply separate_cons in Hs as [Hkl Hs].
  destruct (put_leaves (Split kv.1 dot) kv.2 Hv (split_go_nonempty _ _ _) m Hm Hkv) as (m1 & Hput & _ & Hm1 & Hp).
  destruct (IH m1 Hm1 Hl Hs) as (m' & Hm' & Ht & Hlv).
  { apply Forall_forall. intros kv' Hin. rewrite Hp. apply Forall_cons. split.
    - apply (proj1 (Forall_forall _ _) Hkl). apply list_elem_of_fmap. by exists kv'.
    - exact (proj1 (Forall_forall _ _) Ha kv' Hin). }
  exists m'. split_and!; [|exact Ht|].
  - change (foldl (fun m kv => m ← m; put (Split kv.1 dot) kv.2 m) (put (Split kv.1 dot) kv.2 m) l = Some m'). rewrite Hput. exact Hm'.
  - rewrite Hlv, Hp. change (entry <$> kv :: l) with (entry kv :: (entry <$> l)). symmetry. apply Permutation_middle.
Qed.

(** ** [flatten] as insertions of the leaves *)
Definition insert_all (l : list (string * json)) (out : settings) : settings := foldl (fun out kv => <[kv.1 := kv.2]> out) out l.

Definition extend (key : string) (path : list string) : string := foldl (fun key p => dotted key p) key path.

Lemma flatten_value_leaves x : forall key out,
  flatten_value key x out = insert_all ((fun q => (extend key q.1, q.2)) <$> leaves x) out.
Proof.
  induction x as [| | | | |l IH] using json_ind; try done. intros key out. simpl. revert out.
  induction IH as [|[k x] l Hx Hl IH]; intros out; [done|]. simpl in Hx |- *. rewrite Hx, IH, fmap_app.
  unfold insert_all at 3. rewrite foldl_app. unfold insert_all. do 2 f_equal. by rewrite <-list_fmap_compose.
Qed.

Lemma config_values_leaves m : config_values m = insert_all ((fun q => (extend "" q.1, q.2)) <$> leaves_of m) ∅.
Proof.
  unfold config_values, flatten. generalize (∅ : settings). induction m as [|[k x] m IH]; intros out; [done|].
  simpl foldl. rewrite IH, flatten_value_leaves, leaves_of_cons, fmap_app. unfold insert_all. rewrite foldl_app.
  do 2 f_equal. by rewrite <-list_fmap_compose.
Qed.

Lemma insert_all_None l out k : k ∉ l.*1 -> insert_all l out !! k = out !! k.
Proof.
  revert out. induction l as [|[k' v'] l IH]; intros out Hk; [done|]. unfold insert_all in *. simpl in *. apply not_elem_of_cons in Hk as [Hne Hk].
  rewrite IH by done. by apply lookup_insert_ne.
Qed.

Lemma insert_all_lookup l out k v : NoDup l.*1 -> (k, v) ∈ l -> insert_all l out !! k = Some v.
Proof.
  revert out. induction l as [|[k' v'] l IH]; intros out Hn Hin; [set_solver|]. apply NoDup_cons in Hn as [Hk' Hn].
  apply elem_of_cons in Hin as [E|Hin]; [|by apply IH]. injection E as <- <-.
  change (insert_all l (<[k := v]> out) !! k = Some v). rewrite insert_all_None by done. apply lookup_insert_eq.
Qed.

Lemma insert_all_values (values : settings) l : l ≡ₚ map_to_list values -> insert_all l ∅ = values.
Proof.
  intros Hl. assert (Hn : NoDup l.*1) by (rewrite Hl; apply NoDup_fst_map_to_list).
  apply map_eq. intros k. destruct (values !! k) as [v|] eqn:E.
  - apply insert_all_lookup; [done|]. rewrite Hl. by apply elem_of_map_to_list.
  - rewrite insert_all_None; [apply lookup_empty|]. rewrite Hl. intros [v Hv]%elem_of_fst. apply elem_of_map_to_list in Hv. congruence.
Qed.

(** ** The round trip *)

(** The keys of a configuration: none begins with a dot, and none is a section of
    another. *)
Definition key_ok (k : string) : Prop := head (Split k dot) <> Some "".
Definition regular (values : settings) : Prop :=
  map_Forall (fun k v => key_ok k /\ is_leaf v) values
  /\ forall k1 k2, is_Some (values !! k1) -> is_Some (values !! k2) -> k1 <> k2 -> apart (Split k1 dot) (Split k2 dot).

Lemma extend_cons key ps : key <> "" -> extend key ps = foldl (fun key p => key +:+ String dot p) key ps.
Proof.
  unfold extend. revert key. induction ps as [|p ps IH]; intros key Hk; [done|]. simpl.
  assert (dotted key p = key +:+ String dot p) as -> by (unfold dotted; by rewrite bool_decide_eq_false_2).
  apply IH. destruct key; done.
Qed.

Lemma extend_split cur s : forall key, key <> "" ->
  foldl (fun key p => key +:+ String dot p) key (split_go dot cur s) = key +:+ String dot (cur +:+ s).
Proof.
  revert cur. induction s as [|c s IH]; intros cur key Hk; simpl; [by rewrite string_app_nil_r|].
  destruct (Ascii.eqb_spec c dot) as [->|Hne].
  - simpl. rewrite IH by (destruct key; done). rewrite string_app_assoc. done.
  - rewrite IH by done. by rewrite string_app_assoc.
Qed.

Lemma Split_first cur s : exists p ps, split_go dot cur s = p :: ps /\
  (ps = [] /\ p = cur +:+ s \/ exists t, s = t /\ exists u v, t = u +:+ String dot v /\ p = cur +:+ u /\ ps = split_go dot "" v).
Proof.
  revert cur. induction s as [|c s IH]; intros cur; simpl.
  - eexists _, _. split; [done|left]. by rewrite string_app_nil_r.
  - destruct (Ascii.eqb_spec c dot) as [->|Hne].
    + eexists _, _. split; [done|right]. eexists. split; [done|]. exists "", s. by rewrite string_app_nil_r.
    + destruct (IH (cur +:+ String c "")) as (p & ps & Es & [[-> ->]|(t & <- & u & v & Eu & -> & ->)]).
      * exists ((cur +:+ String c "") +:+ s), []. split; [done|left]. by rewrite string_app_assoc.
      * eexists _, _. split; [exact Es|right]. eexists. split; [done|]. exists (String c u), v. subst s. by rewrite string_app_assoc.
Qed.

Lemma extend_key k : key_ok k -> extend "" (Split k dot) = k.
Proof.
  unfold key_ok, Split. intros Hk. destruct (Split_first "" k) as (p & ps & Es & Hp). rewrite Es in *. simpl in Hk |- *.
  assert (Hpne : p <> "") by congruence. change (dotted "" p) with p. rewrite extend_cons by done.
  destruct Hp as [[-> ->]|(t & <- & u & v & -> & -> & ->)]; [done|]. by rewrite extend_split.
Qed.

(** Writing the settings and reading the file gives the settings back, whatever the
    order the map is iterated in; the walk never meets a value where it needs an
    object. *)
Lemma unflatten_flatten values l : regular values -> l ≡ₚ map_to_list values ->
  exists m, unflatten_list l = Some m /\ config_values m = values.
Proof.
  intros [Hr Ha] Hl.
  assert (Hin : forall k v, (k, v) ∈ l <-> values !! k = Some v) by (intros; rewrite Hl; apply elem_of_map_to_list).
  assert (Hn : NoDup l.*1) by (rewrite Hl; apply NoDup_fst_map_to_list).
  destruct (unflatten_go l []) as (m & Hm & _ & Hlv).
  - split; constructor.
  - apply Forall_forall. intros [k v] H%Hin. by apply (Hr k v).
  - intros i j a b Hi Hj Hij. rewrite list_lookup_fmap in Hi, Hj.
    destruct (l !! i) as [[k1 v1]|] eqn:E1; [|done]. destruct (l !! j) as [[k2 v2]|] eqn:E2; [|done]. simplify_eq/=.
    apply Ha; [exists v1; apply Hin; by eapply list_elem_of_lookup_2|exists v2; apply Hin; by eapply list_elem_of_lookup_2|].
    intros ->. apply Hij. eapply (NoDup_lookup _ _ _ _ Hn); rewrite list_lookup_fmap; [rewrite E1|rewrite E2]; done.
  - apply Forall_forall. intros. constructor.
  - exists m. split; [exact Hm|]. rewrite config_values_leaves. apply insert_all_values.
    rewrite <-Hl. rewrite Hlv, leaves_of_nil, app_nil_r. rewrite <-list_fmap_compose.
    assert (Forall (fun kv => key_ok kv.1) l) as Hk by (apply Forall_forall; intros [k v] H%Hin; by apply (Hr k v)).
    clear - Hk. induction Hk as [|[k v] l Hk Hl IH]; [done|]. simpl. unfold entry at 1. simpl. rewrite extend_key by done. by f_equiv.
Qed.
