(* ===== verification/ConfigFile.v ===== *)
(** * Configuration files shared by the servers: [writeConfigMerged] and [rememberConfig]
    of [src/cfg/web_settings.go]

    A process keeps its configuration in memory and remembers the values it last read
    or wrote (its baseline).  A write is a merge of three: a value the process has not
    changed since its baseline stays as the file has it.  The global file is shared by
    all servers of a host, and the web control edits the files too; [host] is a file
    with its processes.  The lock of the file makes a write or an edit one step. *)
From Stdlib Require Import Ascii.
From S2P Require Import Prelude.
From S2P Require Import GoInt.
From S2P Require Import GoString.
From S2P Require Import ConfigTree.

(** ** The write of one process *)
Record process := mkProcess {
  p_values : settings;              (* [jsonValues] of the configuration in memory *)
  p_base : option settings          (* [configBaselines[path]] *) }.
#[export] Instance process_settable : Settable process := mkSettable (fun r => mkProcess (p_values r) (p_base r)).

Inductive file :=
  | Missing
  | Unreadable                      (* it cannot be read or is not JSON *)
  | Has (v : fields).

(** The value a Go map gives for a key: [nil] when it has none. *)
Definition any_of (x : option json) : json := default JNull x.

(** The two loops that merge the values of the file in. *)
Definition merge_value (base disk : settings) (k : string) (x : json) : option json :=
  Some (if decide (x = any_of (base !! k)) then default x (disk !! k) else x).
Definition merge_values (base disk values : settings) : settings := map_imap (merge_value base disk) values ∪ disk.

Definition merge_config (base disk : option settings) (values : settings) : settings :=
  match base, disk with Some b, Some d => merge_values b d values | _, _ => values end.

(** What can fail: the lock, and writing the file. *)
Record io := mkIO { io_lock : bool; io_write : bool }.

Inductive written := Written | Failed | Panicked.

Definition read_file (f : file) : option (option settings) :=
  match f with Missing => Some None | Unreadable => None | Has v => Some (Some (config_values v)) end.

Definition writeConfigMerged (i : io) (f : file) (p : process) : written * file * process :=
  if negb (io_lock i) then (Failed, f, p)
  else
    match read_file f with
    | None => (Failed, f, p)
    | Some disk =>
        match unflatten (merge_config (p_base p) disk (p_values p)) with
        | None => (Panicked, f, p)
        | Some v => if negb (io_write i) then (Failed, f, p) else (Written, Has v, p <| p_base := Some (p_values p) |>)
        end
    end.

(** [rememberConfig], after the file was decoded into the values [values]. *)
Definition rememberConfig (values : settings) : process := mkProcess values (Some values).

(** [RuntimeConfigRevision] and [revision] (a digest of the JSON text). *)
Class Revision := { revision : settings -> string }.
Definition RuntimeConfigRevision `{Revision} (p : process) : string :=
  match p_base p with Some b => revision b | None => "" end.

(** ** A host *)
Record host := mkHost { h_file : file; h_procs : gmap nat process }.
#[export] Instance host_settable : Settable host := mkSettable (fun r => mkHost (h_file r) (h_procs r)).

Inductive host_op :=
  | OpChange (i : nat) (values : settings)       (* a process changes its configuration in memory *)
  | OpWrite (i : nat) (o : io)
  | OpReload (i : nat) (values : settings)       (* it reads the file; [values] is what it makes of it *)
  | OpEdit (values : settings).                  (* the web control saves these settings *)

Definition host_step (h : host) (o : host_op) : host :=
  match o with
  | OpChange i values => h <| h_procs ::= alter (fun p => p <| p_values := values |>) i |>
  | OpWrite i io =>
      match h_procs h !! i with
      | Some p => let '(_, f, p) := writeConfigMerged io (h_file h) p in mkHost f (<[i := p]> (h_procs h))
      | None => h
      end
  | OpReload i values => h <| h_procs ::= <[i := rememberConfig values]> |>
  | OpEdit values => match unflatten values with Some v => h <| h_file := Has v |> | None => h end
  end.

Definition host_run (ops : list host_op) (h : host) : host := foldl host_step h ops.
Definition file_values (f : file) : option settings := match f with Has v => Some (config_values v) | _ => None end.

(** ** The merge *)
Lemma merge_values_lookup b d v k :
  merge_values b d v !! k =
  match v !! k with
  | Some x => Some (if decide (x = any_of (b !! k)) then default x (d !! k) else x)
  | None => d !! k
  end.
Proof.
  unfold merge_values. rewrite lookup_union, map_lookup_imap. destruct (v !! k) as [x|]; simpl.
  - unfold merge_value. by destruct (d !! k).
  - by destruct (d !! k).
Qed.

Lemma merge_keeps b d v k : v !! k = b !! k -> is_Some (d !! k) -> merge_values b d v !! k = d !! k.
Proof.
  intros Hk [y Hy]. rewrite merge_values_lookup, Hk, Hy. destruct (b !! k) as [x|]; [|done]. simpl. by rewrite decide_True.
Qed.

Lemma merge_changed b d v k x : v !! k = Some x -> x <> any_of (b !! k) -> merge_values b d v !! k = Some x.
Proof. intros Hx Hb. rewrite merge_values_lookup, Hx. by rewrite decide_False. Qed.

Lemma merge_dom b d v : dom (merge_values b d v) = dom v ∪ dom d.
Proof.
  apply set_eq. intros k. rewrite elem_of_union, !elem_of_dom, merge_values_lookup. destruct (v !! k); [|set_solver].
  split; [intros; by left|by eexists].
Qed.

(** ** Keys of a schema

    The settings of one file have their keys in a set in which no key is a section of
    another; then every merge can be written. *)
Section keys.
Variable keys : gset string.
Hypothesis keys_ok : forall k, k ∈ keys -> key_ok k.
Hypothesis keys_apart : forall k1 k2, k1 ∈ keys -> k2 ∈ keys -> k1 <> k2 -> apart (Split k1 dot) (Split k2 dot).

Definition conforms (v : settings) : Prop := dom v ⊆ keys /\ map_Forall (fun _ x => is_leaf x) v.

Lemma conforms_regular v : conforms v -> regular v.
Proof.
  intros [Hd Hl]. split.
  - intros k x Hx. split; [|exact (Hl k x Hx)]. apply keys_ok, Hd, elem_of_dom. by exists x.
  - intros k1 k2 H1 H2 Hne. apply keys_apart; [apply Hd, elem_of_dom; done|apply Hd, elem_of_dom; done|done].
Qed.

Lemma merge_conforms b d v : conforms v -> conforms d -> conforms (merge_values b d v).
Proof.
  intros [Hv1 Hv2] [Hd1 Hd2]. split; [rewrite merge_dom; set_solver|]. intros k x. rewrite merge_values_lookup.
  destruct (v !! k) as [y|] eqn:Ey; [|apply Hd2]. intros ?. simplify_eq. case_decide; [|exact (Hv2 k y Ey)].
  destruct (d !! k) as [z|] eqn:Ez; [exact (Hd2 k z Ez)|exact (Hv2 k y Ey)].
Qed.

Lemma unflatten_conforms v : conforms v -> exists m, unflatten v = Some m /\ config_values m = v.
Proof. intros Hv. apply unflatten_flatten; [by apply conforms_regular|done]. Qed.

(** A write over a file of the schema succeeds, and the file has the merged values. *)
Theorem write_merges i v p b :
  io_lock i = true -> io_write i = true -> p_base p = Some b -> conforms (p_values p) -> conforms (config_values v) ->
  exists m, writeConfigMerged i (Has v) p = (Written, Has m, p <| p_base := Some (p_values p) |>)
    /\ config_values m = merge_values b (config_values v) (p_values p).
Proof.
  intros Hl Hw Hb Hp Hv. unfold writeConfigMerged. rewrite Hl, Hb. simpl.
  destruct (unflatten_conforms (merge_values b (config_values v) (p_values p))) as (m & Hm & Hc); [by apply merge_conforms|].
  exists m. by rewrite Hm, Hw.
Qed.

(** ** Runs of a host *)

(** The operations are of the schema, and from here on nobody changes the setting [k]:
    no process in memory, and no other edit. *)
Definition leaves_alone (k : string) (h : host) (o : host_op) : Prop :=
  match o with
  | OpChange i values => conforms values /\ forall p, h_procs h !! i = Some p -> values !! k = p_values p !! k
  | OpWrite _ _ => True
  | OpReload _ values => conforms values
  | OpEdit values => conforms values /\ forall d, file_values (h_file h) = Some d -> values !! k = d !! k
  end.
Fixpoint all_leave_alone (k : string) (h : host) (ops : list host_op) : Prop :=
  match ops with [] => True | o :: ops => leaves_alone k h o /\ all_leave_alone k (host_step h o) ops end.

(** Nobody has a change of [k] that is not written yet. *)
Definition settled_proc (k : string) (p : process) : Prop := exists b, p_base p = Some b /\ p_values p !! k = b !! k.
Record host_ok (k : string) (h : host) : Prop := {
  hk_file : forall d, file_values (h_file h) = Some d -> conforms d;
  hk_procs : map_Forall (fun _ p => conforms (p_values p) /\ settled_proc k p) (h_procs h) }.

Lemma write_cases i f p : (writeConfigMerged i f p = (Failed, f, p) \/ writeConfigMerged i f p = (Panicked, f, p))
  \/ exists disk m, read_file f = Some disk /\ unflatten (merge_config (p_base p) disk (p_values p)) = Some m
     /\ writeConfigMerged i f p = (Written, Has m, p <| p_base := Some (p_values p) |>).
Proof.
  unfold writeConfigMerged. destruct (io_lock i); [|by left; left]. destruct (read_file f) as [disk|] eqn:Er; [|by left; left].
  destruct (unflatten _) as [m|] eqn:Eu; [|by left; right]. destruct (io_write i); [|by left; left]. right. by exists disk, m.
Qed.

Lemma host_step_keeps k x h o : host_ok k h -> leaves_alone k h o ->
  file_values (h_file h) ≫= (fun d => d !! k) = Some x ->
  host_ok k (host_step h o) /\ file_values (h_file (host_step h o)) ≫= (fun d => d !! k) = Some x.
Proof.
  intros [Hf Hp] Ho Hx. destruct o as [i values|i io|i values|values]; simpl in Ho |- *.
  - destruct Ho as [Hc Hk]. split; [|exact Hx]. split; [exact Hf|]. simpl. intros j p Hj.
    destruct (decide (j = i)) as [->|Hne].
    + rewrite lookup_alter_eq in Hj. destruct (h_procs h !! i) as [q|] eqn:Eq; [|done]. simplify_eq/=.
      destruct (Hp i q Eq) as [_ (b & Hb & Hkb)]. split; [done|]. exists b. split; [exact Hb|]. transitivity (p_values q !! k); [exact (Hk q eq_refl)|exact Hkb].
    + rewrite lookup_alter_ne in Hj by done. by apply Hp in Hj.
  - destruct (h_procs h !! i) as [p|] eqn:Ep; [|by split]. destruct (Hp i p Ep) as [Hc (b & Hb & Hk)].
    destruct (write_cases io (h_file h) p) as [[->| ->]|(disk & m & Hr & Hm & ->)].
    + split; [|exact Hx]. split; [exact Hf|]. simpl. apply map_Forall_insert_2; [by split; [|exists b]|done].
    + split; [|exact Hx]. split; [exact Hf|]. simpl. apply map_Forall_insert_2; [by split; [|exists b]|done].
    + destruct (h_file h) as [| |v] eqn:Efile; try discriminate. simpl in Hr, Hx. injection Hr as <-. rewrite Hb in Hm. simpl in Hm.
      assert (Hcv : conforms (config_values v)) by (by apply Hf).
      destruct (unflatten_conforms (merge_values b (config_values v) (p_values p))) as (m' & Hm' & Hcm); [by apply merge_conforms|].
      assert (m' = m) as -> by congruence. split.
      * split; simpl; [intros d [= <-]; rewrite Hcm; by apply merge_conforms|].
        apply map_Forall_insert_2; [|done]. split; [exact Hc|]. by exists (p_values p).
      * simpl. rewrite Hcm, merge_keeps; [exact Hx|done|by rewrite Hx; eexists].
  - split; [|exact Hx]. split; [exact Hf|]. simpl. apply map_Forall_insert_2; [|done]. split; [exact Ho|]. by exists values.
  - destruct Ho as [Hc Hk]. destruct (unflatten_conforms values Hc) as (m & -> & Hm). split.
    + split; simpl; [intros d [= <-]; by rewrite Hm|exact Hp].
    + simpl. rewrite Hm. destruct (file_values (h_file h)) as [d|]; [|done]. simpl in Hx. by rewrite (Hk d eq_refl).
Qed.

(** C28: An edit of the web control stays in the file through every write of every process
    that has not changed the setting itself, until it is edited again: a process that
    still has the old value in memory cannot erase it. *)
Theorem web_edit_survives k x values h ops :
  host_ok k h -> conforms values -> values !! k = Some x -> all_leave_alone k (host_step h (OpEdit values)) ops ->
  exists d, file_values (h_file (host_run (OpEdit values :: ops) h)) = Some d /\ d !! k = Some x.
Proof.
  intros [Hf Hp] Hc Hx Hall. change (host_run (OpEdit values :: ops) h) with (host_run ops (host_step h (OpEdit values))).
  assert (host_ok k (host_step h (OpEdit values)) /\ file_values (h_file (host_step h (OpEdit values))) ≫= (fun d => d !! k) = Some x) as [Hok Hk].
  { simpl. destruct (unflatten_conforms values Hc) as (m & -> & Hm). split; [split|]; simpl; [intros d [= <-]; by rewrite Hm|exact Hp|by rewrite Hm]. }
  revert Hall Hok Hk. generalize (host_step h (OpEdit values)). clear -keys_ok keys_apart.
  induction ops as [|o ops IH]; intros g Hall Hok Hk.
  { unfold host_run. simpl. destruct (file_values (h_file g)) as [d|]; [|done]. by exists d. }
  destruct Hall as [Ho Hall]. destruct (host_step_keeps k x g o Hok Ho Hk) as [Hok' Hk']. by apply IH.
Qed.
End keys.

(** ** A web edit of the port, then two writes of the server *)
Module ConfigDemo.
Definition demo_keys : gset string := {["Port"; "Settings.Seed"]}.
Definition config (port seed : Z) : settings := {[ "Port" := JNum (mkNum port 0); "Settings.Seed" := JNum (mkNum seed 0) ]}.

Definition apart_b (a b : list string) : bool := bool_decide (~ a `prefix_of` b) && bool_decide (~ b `prefix_of` a).
Lemma config_keys_ok k : k ∈ demo_keys -> key_ok k.
Proof. unfold demo_keys. rewrite elem_of_union, !elem_of_singleton. by intros [-> | ->]. Qed.
Lemma config_keys_apart k1 k2 : k1 ∈ demo_keys -> k2 ∈ demo_keys -> k1 <> k2 -> apart (Split k1 dot) (Split k2 dot).
Proof.
  assert (forall a b, apart_b a b = true -> apart a b) as Hb.
  { unfold apart_b, apart. intros a b H. bool_hyps. done. }
  unfold demo_keys. rewrite !elem_of_union, !elem_of_singleton. intros [-> | ->] [-> | ->] Hne; try done; by apply Hb.
Qed.
Lemma config_conforms port seed : conforms demo_keys (config port seed).
Proof.
  split; [unfold config, demo_keys; set_solver|]. unfold config. apply map_Forall_insert_2; [done|]. by apply map_Forall_singleton.
Qed.

Definition start : host := mkHost (Has [("Port", JNum (mkNum 1 0))]) {[ 0%nat := rememberConfig (config 1 5) ]}.
Definition ops : list host_op :=
  [OpWrite 0 (mkIO true true); OpChange 0 (config 1 9); OpWrite 0 (mkIO true false); OpWrite 0 (mkIO true true)].

Lemma web_edit_survives_witness :
  exists d, file_values (h_file (host_run (OpEdit (config 2 5) :: ops) start)) = Some d /\ d !! "Port" = Some (JNum (mkNum 2 0)).
Proof.
  apply (web_edit_survives demo_keys config_keys_ok config_keys_apart "Port" (JNum (mkNum 2 0)) (config 2 5) start ops).
  - split.
    + intros d [= <-]. assert (config_values [("Port", JNum (mkNum 1 0))] = {[ "Port" := JNum (mkNum 1 0) ]}) as -> by (vm_compute; reflexivity).
      split; [vm_decide|]. by apply map_Forall_singleton.
    + apply map_Forall_singleton. split; [apply config_conforms|]. by exists (config 1 5).
  - apply config_conforms.
  - reflexivity.
  - split; [exact I|]. split; [split; [apply config_conforms|]|split; [exact I|split; exact I]].
    intros p Hp. vm_compute in Hp. injection Hp as <-. vm_compute. reflexivity.
Defined.

(** The file after it: the edited port and the seed the server set itself. *)
Example edited_file : file_values (h_file (host_run (OpEdit (config 2 5) :: ops) start)) = Some (config 2 9).
Proof. vm_compute. reflexivity. Qed.

(** A section of the file that holds [null] is accepted when the file is loaded, and the
    next write panics or loses every setting below it, as the map is iterated. *)
Theorem null_section_breaks_write :
  let bad : fields := [("Settings", JNull)] in
  let p := rememberConfig {[ "Settings.Seed" := JNum (mkNum 5 0) ]} in
  let merged := merge_config (p_base p) (Some (config_values bad)) (p_values p) in
  merged !! "Settings.Seed" = Some (JNum (mkNum 5 0))
  /\ unflatten_list [("Settings", JNull); ("Settings.Seed", JNum (mkNum 5 0))] = None
  /\ unflatten_list [("Settings.Seed", JNum (mkNum 5 0)); ("Settings", JNull)] = Some [("Settings", JNull)]
  /\ [("Settings", JNull); ("Settings.Seed", JNum (mkNum 5 0))] ≡ₚ map_to_list merged.
Proof. vm_compute. split_and!; try reflexivity. apply perm_swap || apply perm_skip; reflexivity. Qed.
End ConfigDemo.
