(* ===== verification/WebSchema.v ===== *)
(** * The schema of the web settings: [WebSchema] of [src/cfg/web_settings.go]

    The code walks the Go types of the two configurations; here the types are data
    ([gotype]), and the walk is a function on them.  The schema says of every setting
    its type, its range, who may change it and whether it is secret. *)
From Stdlib Require Import Ascii.
From S2P Require Import Prelude.
From S2P Require Import GoInt.
From S2P Require Import GoString.
From S2P Require Import GoTime.
From S2P Require Import ConfigTree.

(** ** The configuration types: [src/cfg/struct.go]

    A field has its name, its [web] tag and whether its [json] tag is ["-"]. *)
Inductive gotype :=
  | TBool | TInt | TFloat32 | TString | TTime | TSlice
  | TStruct (l : list (string * string * bool * gotype)).
Definition fld (name web : string) (hidden : bool) (t : gotype) : string * string * bool * gotype := (name, web, hidden, t).

Definition settings_type : gotype := TStruct
  [fld "NewMap" "" false TBool;
   fld "Scenario" "Scenario Name" false TString;
   fld "MapGenerator" "Map Generator Name" false TString;
   fld "MapPreset" "Map Preset Name" false TString;
   fld "Seed" "Map Seed" false TInt;
   fld "AFKMin" "AFK Minutes" false TInt;
   fld "AutosaveMin" "Autosave Minutes" false TInt;
   fld "AutoPause" "Pause When Empty" false TBool;
   fld "AdminOnlyPause" "Admin-Only Pause" false TBool;
   fld "Heartbeats" "Heartbeats per second" false TInt].

Definition channel_type : gotype := TStruct
  [fld "Comment" "" false TString;
   fld "ChatChannel" "Channel ID" false TString].

Definition ResetInterval_type : gotype := TStruct
  [fld "Months" "" false TInt;
   fld "Weeks" "" false TInt;
   fld "Days" "" false TInt;
   fld "Hours" "" false TInt].

Definition softmodOptions_type : gotype := TStruct
  [fld "Restrict" "More Restrictions For New Players" false TBool;
   fld "FriendlyFire" "Friendly Fire" false TBool;
   fld "OneLife" "One-Life Permadeath" false TBool;
   fld "DisableBlueprints" "No Blueprints" false TBool;
   fld "Cheats" "Cheats Sandbox Mode" false TBool;
   fld "InjectSoftMod" "Inject Softmod" false TBool;
   fld "SoftModPath" "" false TString].

Definition localOptions_type : gotype := TStruct
  [fld "LocalDescription" "Factorio Description" false TString;
   fld "AutoStart" "Auto Boot" false TBool;
   fld "AutoUpdate" "Auto Updates" false TBool;
   fld "ExpUpdates" "Experimental Updates" false TBool;
   fld "ModUpdate" "Auto Mod Updates" false TBool;
   fld "Speed" "Game Speed" false TFloat32;
   fld "HideAutosaves" "Hide Autosaves" false TBool;
   fld "HideResearch" "Hide Research" false TBool;
   fld "PlayHourEnable" "Limit Open Hours" false TBool;
   fld "PlayStartHour" "Open Hour" false TInt;
   fld "PlayEndHour" "Close Hour" false TInt;
   fld "ResetInterval" "Reset interval" false ResetInterval_type;
   fld "NextReset" "Next map reset" false TTime;
   fld "ResetHour" "Map Reset Hour" false TInt;
   fld "SkipReset" "Skip Map Reset" false TBool;
   fld "ResetPingRole" "" false TString;
   fld "PlayerPollIntervalSec" "Player Poll Interval Sec" false TInt;
   fld "RoleRefreshIntervalSec" "Role Refresh Interval Sec" false TInt;
   fld "MapResetCheckIntervalSec" "Map Reset Check Interval Sec" false TInt;
   fld "MembersOnly" "-" false TBool;
   fld "RegularsOnly" "-" false TBool;
   fld "CustomWhitelist" "Private Whitelist" false TBool;
   fld "Whitelist" "" false TBool;
   fld "SoftModOptions" "" false softmodOptions_type].

Definition local_type : gotype := TStruct
  [fld "Callsign" "" false TString;
   fld "Name" "" false TString;
   fld "Port" "" false TInt;
   fld "RCONPass" "" true TString;
   fld "LastSaveBackup" "Last Backup Slot" false TInt;
   fld "PendingSave" "" false TString;
   fld "Settings" "" false settings_type;
   fld "Channel" "" false channel_type;
   fld "Options" "" false localOptions_type;
   fld "ModPackList" "" false TSlice].

Definition roleCache_type : gotype := TStruct
  [fld "Comment" "" false TString;
   fld "Admin" "" false TString;
   fld "Moderator" "" false TString;
   fld "Regular" "" false TString;
   fld "Veteran" "" false TString;
   fld "Member" "" false TString;
   fld "New" "" false TString;
   fld "Patreon" "" false TString;
   fld "Supporter" "" false TString;
   fld "Nitro" "" false TString].

Definition roles_type : gotype := TStruct
  [fld "Comment" "" false TString;
   fld "Admin" "" false TString;
   fld "Moderator" "" false TString;
   fld "Regular" "" false TString;
   fld "Veteran" "" false TString;
   fld "Member" "" false TString;
   fld "New" "" false TString;
   fld "Patreon" "" false TString;
   fld "Supporter" "" false TString;
   fld "Nitro" "" false TString;
   fld "RoleCache" "" false roleCache_type].

Definition discord_type : gotype := TStruct
  [fld "Token" "" false TString;
   fld "Guild" "" false TString;
   fld "Application" "" false TString;
   fld "ReportChannel" "Report Channel ID" false TString;
   fld "AnnounceChannel" "Announce Channel ID" false TString;
   fld "Roles" "" false roles_type;
   fld "Comment" "" false TString;
   fld "SusPingRole" "Suspicious Ping RoleID" false TString;
   fld "BanishPingRole" "Banish Ping RoleID" false TString].

Definition factData_type : gotype := TStruct
  [fld "Username" "" false TString;
   fld "Token" "" false TString].

Definition folderPaths_type : gotype := TStruct
  [fld "FactorioDir" "" false TString;
   fld "ServersRoot" "" false TString;
   fld "Saves" "" false TString;
   fld "Mods" "" false TString;
   fld "MapGenerators" "" false TString;
   fld "MapArchives" "" false TString;
   fld "ModPack" "" false TString].

Definition binaryPaths_type : gotype := TStruct
  [fld "FactBinary" "" false TString].

Definition urlPaths_type : gotype := TStruct
  [fld "Domain" "Domain Name" false TString;
   fld "PathPrefix" "" false TString;
   fld "LogPath" "" false TString;
   fld "LogsPathWeb" "" false TString;
   fld "ArchivePath" "" false TString;
   fld "ModPackPath" "" false TString;
   fld "EnableSteamURL" "Enable Steam URL" false TBool;
   fld "SteamURLDomain" "Steam URL Domain" false TString].

Definition dataFiles_type : gotype := TStruct
  [fld "DBFile" "" false TString;
   fld "DBFormat" "" false TString;
   fld "Bans" "" false TString].

Definition dataPaths_type : gotype := TStruct
  [fld "ChatWirePrefix" "" false TString;
   fld "Folders" "" false folderPaths_type;
   fld "Binaries" "" false binaryPaths_type;
   fld "URLs" "" false urlPaths_type;
   fld "DataFiles" "" false dataFiles_type].

Definition globalOptions_type : gotype := TStruct
  [fld "Description" "Factorio Description" false TString;
   fld "Comment" "" false TString;
   fld "ResetPingRole" "" false TString;
   fld "UseAuthserver" "Use Authserver Bans" false TBool;
   fld "AutosaveMax" "Max Autosaves" false TInt;
   fld "RconOffset" "Rcon Port Offset" false TInt;
   fld "ShutupSusWarn" "Suspicious Warning Mute" false TBool;
   fld "DisableSpamProtect" "Disable Chat Spam AutoBan" false TBool;
   fld "FCLWarnOnly" "FCL-Ban Warn-Only" false TBool;
   fld "FCLWarnRegulars" "FCL-Ban Warning For Regulars" false TBool;
   fld "NonBlockSave" "" false TBool].

Definition global_type : gotype := TStruct
  [fld "GroupName" "Group Name" false TString;
   fld "PrimaryServer" "Primary Server" false TString;
   fld "Discord" "" false discord_type;
   fld "Factorio" "" false factData_type;
   fld "Paths" "" false dataPaths_type;
   fld "Options" "" false globalOptions_type].

(** ** Constants *)

(** [constants.MapTypes]. *)
Definition MapTypes : list string := ["default"; "rich-resources"; "marathon"; "death-world"; "death-world-marathon"; "rail-world"; "ribbon-world"; "island"; "lakes"].

(** [src/cfg/web_fields.go]. *)
Definition classified_list : list string :=
  ["local.Callsign";
   "local.Channel.ChatChannel";
   "local.Channel.Comment";
   "local.LastSaveBackup";
   "local.ModPackList";
   "local.Name";
   "local.Options.AutoStart";
   "local.Options.AutoUpdate";
   "local.Options.CustomWhitelist";
   "local.Options.ExpUpdates";
   "local.Options.HideAutosaves";
   "local.Options.HideResearch";
   "local.Options.LocalDescription";
   "local.Options.MapResetCheckIntervalSec";
   "local.Options.MembersOnly";
   "local.Options.ModUpdate";
   "local.Options.NextReset";
   "local.Options.PlayEndHour";
   "local.Options.PlayHourEnable";
   "local.Options.PlayStartHour";
   "local.Options.PlayerPollIntervalSec";
   "local.Options.RegularsOnly";
   "local.Options.ResetHour";
   "local.Options.ResetInterval.Days";
   "local.Options.ResetInterval.Hours";
   "local.Options.ResetInterval.Months";
   "local.Options.ResetInterval.Weeks";
   "local.Options.ResetPingRole";
   "local.Options.RoleRefreshIntervalSec";
   "local.Options.SkipReset";
   "local.Options.SoftModOptions.Cheats";
   "local.Options.SoftModOptions.DisableBlueprints";
   "local.Options.SoftModOptions.FriendlyFire";
   "local.Options.SoftModOptions.InjectSoftMod";
   "local.Options.SoftModOptions.OneLife";
   "local.Options.SoftModOptions.Restrict";
   "local.Options.SoftModOptions.SoftModPath";
   "local.Options.Speed";
   "local.Options.Whitelist";
   "local.PendingSave";
   "local.Port";
   "local.Settings.AFKMin";
   "local.Settings.AdminOnlyPause";
   "local.Settings.AutoPause";
   "local.Settings.AutosaveMin";
   "local.Settings.Heartbeats";
   "local.Settings.MapGenerator";
   "local.Settings.MapPreset";
   "local.Settings.NewMap";
   "local.Settings.Scenario";
   "local.Settings.Seed";
   "global.Discord.AnnounceChannel";
   "global.Discord.Application";
   "global.Discord.BanishPingRole";
   "global.Discord.Comment";
   "global.Discord.Guild";
   "global.Discord.ReportChannel";
   "global.Discord.Roles.Admin";
   "global.Discord.Roles.Comment";
   "global.Discord.Roles.Member";
   "global.Discord.Roles.Moderator";
   "global.Discord.Roles.New";
   "global.Discord.Roles.Nitro";
   "global.Discord.Roles.Patreon";
   "global.Discord.Roles.Regular";
   "global.Discord.Roles.RoleCache.Admin";
   "global.Discord.Roles.RoleCache.Comment";
   "global.Discord.Roles.RoleCache.Member";
   "global.Discord.Roles.RoleCache.Moderator";
   "global.Discord.Roles.RoleCache.New";
   "global.Discord.Roles.RoleCache.Nitro";
   "global.Discord.Roles.RoleCache.Patreon";
   "global.Discord.Roles.RoleCache.Regular";
   "global.Discord.Roles.RoleCache.Supporter";
   "global.Discord.Roles.RoleCache.Veteran";
   "global.Discord.Roles.Supporter";
   "global.Discord.Roles.Veteran";
   "global.Discord.SusPingRole";
   "global.Discord.Token";
   "global.Factorio.Token";
   "global.Factorio.Username";
   "global.GroupName";
   "global.Options.AutosaveMax";
   "global.Options.Comment";
   "global.Options.Description";
   "global.Options.DisableSpamProtect";
   "global.Options.FCLWarnOnly";
   "global.Options.FCLWarnRegulars";
   "global.Options.NonBlockSave";
   "global.Options.RconOffset";
   "global.Options.ResetPingRole";
   "global.Options.ShutupSusWarn";
   "global.Options.UseAuthserver";
   "global.Paths.Binaries.FactBinary";
   "global.Paths.ChatWirePrefix";
   "global.Paths.DataFiles.Bans";
   "global.Paths.DataFiles.DBFile";
   "global.Paths.DataFiles.DBFormat";
   "global.Paths.Folders.FactorioDir";
   "global.Paths.Folders.MapArchives";
   "global.Paths.Folders.MapGenerators";
   "global.Paths.Folders.ModPack";
   "global.Paths.Folders.Mods";
   "global.Paths.Folders.Saves";
   "global.Paths.Folders.ServersRoot";
   "global.Paths.URLs.ArchivePath";
   "global.Paths.URLs.Domain";
   "global.Paths.URLs.EnableSteamURL";
   "global.Paths.URLs.LogPath";
   "global.Paths.URLs.LogsPathWeb";
   "global.Paths.URLs.ModPackPath";
   "global.Paths.URLs.PathPrefix";
   "global.Paths.URLs.SteamURLDomain";
   "global.PrimaryServer"].
Definition classifiedWebFields : gset string := list_to_set classified_list.

#[global] Typeclasses Opaque classifiedWebFields.

(** ** Numbers *)
Fixpoint strip_twos (fuel : nat) (m e : Z) : num :=
  match fuel with
  | O => mkNum m e
  | S fuel => if Z.even m then strip_twos fuel (m / 2) (e + 1) else mkNum m e
  end.
(** [float64(z)] of an integer below 2^53; [m * 2 ^ e] in the form of [num]. *)
Definition num_dyadic (m e : Z) : num := if m =? 0 then mkNum 0 0 else strip_twos (Z.to_nat (Z.log2 (Z.abs m))) m e.
Definition num_of_Z (z : Z) : num := num_dyadic z 0.

Definition num_scaled (n : num) (e : Z) : Z := n_m n * 2 ^ (n_e n - e).
Definition num_lt (a b : num) : bool := let e := Z.min (n_e a) (n_e b) in num_scaled a e <? num_scaled b e.

(** The integer part of a float64, as a conversion to [int] of a value in its range. *)
Definition num_trunc (n : num) : Z := if 0 <=? n_e n then n_m n * 2 ^ n_e n else Z.quot (n_m n) (2 ^ (- n_e n)).

(** ** Fields *)
Record WebField := mkWebField {
  f_Label : string; f_Key : string; f_Type : string; f_Admin : bool; f_Secret : bool; f_ReadOnly : bool;
  f_Effect : string; f_Min : option num; f_Max : option num; f_Choices : list string }.
#[export] Instance WebField_settable : Settable WebField := mkSettable (fun r =>
  mkWebField (f_Label r) (f_Key r) (f_Type r) (f_Admin r) (f_Secret r) (f_ReadOnly r) (f_Effect r) (f_Min r) (f_Max r) (f_Choices r)).
#[export] Instance WebField_eq_dec : EqDecision WebField.
Proof. solve_decision. Defined.

(** [Type.Kind().String()]; a [time.Time] is called ["datetime"]. *)
Definition kind_name (t : gotype) : string :=
  match t with
  | TBool => "bool" | TInt => "int" | TFloat32 => "float32" | TString => "string"
  | TTime => "datetime" | TSlice => "slice" | TStruct _ => "struct"
  end.

Definition one_hundredth : num := mkNum 5764607523034235 (-59).
Definition limits : list (string * (num * num)) :=
  let r (lo hi : Z) := (num_of_Z lo, num_of_Z hi) in
  [("Port", r 1024 65535); ("Settings.AFKMin", r 5 120); ("Settings.AutosaveMin", r 5 30); ("Settings.Heartbeats", r 1 240);
   ("Settings.Seed", r 0 4294967295); ("Options.Speed", (one_hundredth, num_of_Z 10)); ("Options.AutosaveMax", r 64 1024);
   ("Options.RconOffset", r 1 64511); ("Options.PlayStartHour", r 0 23); ("Options.PlayEndHour", r 0 23); ("Options.ResetHour", r 0 23);
   ("Options.ResetInterval.Months", r 0 6); ("Options.ResetInterval.Weeks", r 0 26); ("Options.ResetInterval.Days", r 0 182);
   ("Options.ResetInterval.Hours", r 0 4320); ("Options.PlayerPollIntervalSec", r 1 86400);
   ("Options.RoleRefreshIntervalSec", r 1 86400); ("Options.MapResetCheckIntervalSec", r 1 86400)].

Definition find_limits (key : string) : option (num * num) := snd <$> List.find (fun l => bool_decide (l.1 = key)) limits.
Definition key_in (key : string) (l : list string) : bool := existsb (fun k => bool_decide (key = k)) l.

Definition secret_keys : list string := ["Discord.Token"; "Factorio.Token"].
Definition is_readonly (name key : string) : bool :=
  bool_decide (name = "Comment") || HasPrefix key "Discord.Roles.RoleCache." ||
  key_in key ["LastSaveBackup"; "PendingSave"; "Settings.NewMap"; "ModPackList"; "Options.Whitelist"].
Definition is_admin_key (key : string) : bool :=
  bool_decide (key = "Callsign") || HasPrefix key "Paths." || bool_decide (key = "PrimaryServer") || HasPrefix key "Discord.Roles." ||
  key_in key ["Discord.Guild"; "Discord.Application"; "Discord.Token"; "Factorio.Token"; "Factorio.Username"; "Options.SoftModOptions.SoftModPath"].

Definition web_field (global : bool) (name key web : string) (t : gotype) : WebField :=
  let label := if bool_decide (web = "") || bool_decide (web = "-") then name else web in
  let f := mkWebField label key (kind_name t) global (key_in key secret_keys) (is_readonly name key) "config_reload" None None [] in
  let f := if is_admin_key key then f <| f_Admin := true |> <| f_Effect := "chatwire_restart" |> else f in
  let f := if key_in key ["Port"; "Options.SoftModOptions.InjectSoftMod"] then f <| f_Effect := "factorio_restart" |> else f in
  let f := if HasPrefix key "Settings.Map" || key_in key ["Settings.Scenario"; "Settings.Seed"] then f <| f_Effect := "next_map" |> else f in
  let f := if key_in (f_Type f) ["int"; "float32"] then f <| f_Min := Some (num_of_Z 0) |> <| f_Max := Some (num_of_Z 2147483647) |> else f in
  let f := match find_limits key with Some (lo, hi) => f <| f_Min := Some lo |> <| f_Max := Some hi |> | None => f end in
  let f := if bool_decide (key = "Settings.MapPreset") then f <| f_Choices := MapTypes |> else f in
  let f := if bool_decide (key = "Paths.DataFiles.DBFormat") then f <| f_Choices := ["binary"; "json"] |> else f in
  let scope := if global then "global" else "local" in
  if bool_decide (scope +:+ "." +:+ key ∈ classifiedWebFields) then f
  else f <| f_ReadOnly := true |> <| f_Admin := true |> <| f_Secret := true |>.

(** [walk]: the fields of a type, in the order they are declared. *)
Fixpoint walk (global : bool) (name web : string) (t : gotype) (key : string) : list WebField :=
  match t with
  | TStruct l =>
      (fix go (l : list (string * string * bool * gotype)) : list WebField :=
         match l with
         | [] => []
         | (name, web, hidden, t) :: l =>
             (if hidden : bool then [] else walk global name web t (dotted key name)) ++ go l
         end) l
  | _ => [web_field global name key web t]
  end.

Definition field_le (a b : WebField) : Prop := String.le (f_Key a) (f_Key b).
#[export] Instance field_le_dec a b : Decision (field_le a b) := decide (String.le (f_Key a) (f_Key b)).

Definition WebSchema (global : bool) : list WebField :=
  merge_sort field_le (walk global "" "" (if global then global_type else local_type) "").

(** The schemas, computed. *)
Definition local_schema : list WebField := Eval vm_compute in WebSchema false.
Definition global_schema : list WebField := Eval vm_compute in WebSchema true.
Lemma WebSchema_computed g : WebSchema g = if g then global_schema else local_schema.
Proof. destruct g; vm_compute; reflexivity. Qed.

(** [fields[f.Key] = f] for the fields of the schema. *)
Definition schema_field (g : bool) (key : string) : option WebField :=
  List.find (fun f => bool_decide (f_Key f = key)) (WebSchema g).

(** The same, on the computed schema. *)
Definition field_of (l : list WebField) (key : string) : option WebField := List.find (fun f => String.eqb (f_Key f) key) l.
Lemma schema_field_computed g key : schema_field g key = field_of (if g then global_schema else local_schema) key.
Proof.
  unfold schema_field, field_of. rewrite WebSchema_computed. generalize (if g then global_schema else local_schema).
  induction l as [|f l IH]; [done|]. cbn. rewrite IH. destruct (String.eqb_spec (f_Key f) key); [by rewrite bool_decide_eq_true_2|by rewrite bool_decide_eq_false_2].
Qed.
