(* ===== verification/WebSettings.v ===== *)
(** * Reading and changing settings over the web: [WebRead] and [WebPatch] of
    [src/cfg/web_settings.go]

    [WebPatch] checks every value of a patch against the schema, then the settings as a
    whole, and writes the file.  A patch lists its keys in the order the map is
    iterated in.  What the JSON library makes of a raw value and of the whole file
    ([decodes], the final decode into the Go types), the digest of a revision, the
    clock and the failures of the file system are parameters. *)
From Stdlib Require Import Ascii.
From S2P Require Import Prelude.
From S2P Require Import GoInt.
From S2P Require Import GoString.
From S2P Require Import GoTime.
From S2P Require Import GoCalendar.
From S2P Require Import ResetSchedule.
From S2P Require Import ConfigTree.
From S2P Require Import ConfigFile.
From S2P Require Import WebSchema.

Class ConfigJSON := {
  Unmarshal : string -> option json;         (* [json.Unmarshal] of a raw value into [any] *)
  decodes : bool -> settings -> bool         (* the settings decode into [global] or [local] *) }.

Record WebSettings := mkWebSettings { ws_Revision : string; ws_Values : settings }.

(** ** [WebRead] *)
Definition configured (x : option json) : bool := negb (bool_decide (any_of x = JNull)) && negb (bool_decide (any_of x = JStr "")).

Definition web_value (values : settings) (f : WebField) : option (string * json) :=
  if f_Secret f then Some (f_Key f, JObj [("configured", JBool (configured (values !! f_Key f)))])
  else if negb (HasSuffix (f_Key f) ".Comment") && negb (Contains (f_Key f) "RoleCache")
  then Some (f_Key f, any_of (values !! f_Key f)) else None.

Definition web_values (global : bool) (values : settings) : settings :=
  foldl (fun out f => match web_value values f with Some (k, x) => <[k := x]> out | None => out end) ∅ (WebSchema global).

Section web.
Context `{Revision, ConfigJSON}.

Definition WebRead (global : bool) (f : file) : result string WebSettings :=
  match file_values f with
  | None => Err "cannot read configuration"
  | Some values => Ok (mkWebSettings (revision values) (web_values global values))
  end.

(** ** One value of a patch *)
Definition str_of (v : json) : string := match v with JStr s => s | _ => "" end.

Definition check_number (f : WebField) (key : string) (v : json) : result string unit :=
  let bad := Err (key +:+ " is outside its numeric range") in
  match v, f_Min f, f_Max f with
  | JNum n, Some lo, Some hi =>
      if num_lt n lo || num_lt hi n || (bool_decide (f_Type f = "int") && negb (bool_decide (n = num_of_Z (num_trunc n)))) then bad else Ok tt
  | _, _, _ => bad
  end.

Definition check_text (f : WebField) (key : string) (v : json) : result string unit :=
  match v with
  | JStr s =>
      if 4096 <? slen s then Err (key +:+ " must be text of at most 4096 bytes")
      else if bool_decide (f_Type f = "datetime") && bool_decide (ParseRFC3339 s = None) then Err (key +:+ " must be RFC3339")
      else if negb (bool_decide (f_Choices f = [])) && negb (key_in s (f_Choices f)) then Err (key +:+ " is not a supported choice")
      else Ok tt
  | _ => Err (key +:+ " must be text of at most 4096 bytes")
  end.

Definition check_type (f : WebField) (key : string) (v : json) : result string unit :=
  if bool_decide (f_Type f = "bool") then match v with JBool _ => Ok tt | _ => Err (key +:+ " must be boolean") end
  else if key_in (f_Type f) ["int"; "float32"] then check_number f key v
  else if key_in (f_Type f) ["string"; "datetime"] then check_text f key v
  else Err (key +:+ " cannot be edited").

Definition nul : ascii := ascii_of_nat 0.
Definition backslash : ascii := ascii_of_nat 92.

Definition check_special (key : string) (v : json) (values : settings) : result string unit :=
  let s := str_of v in
  if bool_decide (key = "Name") && ((slen s <? 1) || (64 <? slen s) || ContainsAny s ["/"%char; backslash; nul])
  then Err "Name must be 1-64 characters without path separators"
  else if key_in key ["Callsign"; "PrimaryServer"] && ((slen s <? 1) || (2 <? slen s) || ContainsAny s ["/"%char; backslash; "."%char])
  then Err "callsign must be 1-2 characters without path separators"
  else if key_in key ["Settings.MapGenerator"; "Settings.Scenario"] && (ContainsAny s ["/"%char; backslash] || bool_decide (v = JStr ".."))
  then Err "generator/scenario must be a name"
  else if bool_decide (key = "Options.SoftModOptions.OneLife") && bool_decide (values !! key = Some (JBool true)) && bool_decide (v = JBool false)
  then Err "one-life mode cannot be disabled on the current map"
  else Ok tt.

Definition editable (admin : bool) (f : WebField) : bool := negb (f_ReadOnly f) && (negb (f_Admin f) || admin).

(** The body of the loop over the patch. *)
Definition patch_one (global admin : bool) (values : settings) (kr : string * string) : result string settings :=
  let '(key, raw) := kr in
  match schema_field global key with
  | Some f =>
      if negb (editable admin f) then Err (key +:+ " is not editable with your permissions")
      else if bool_decide (raw = "null") then Err (key +:+ " cannot be null")
      else
        match Unmarshal raw with
        | None => Err "invalid value"
        | Some v => check_type f key v ≫= fun _ => check_special key v values ≫= fun _ => Ok (<[key := v]> values)
        end
  | None => Err (key +:+ " is not editable with your permissions")
  end.

Definition patch_all (global admin : bool) (values : settings) (patch : list (string * string)) : result string settings :=
  foldM (patch_one global admin) values patch.

(** ** The settings as a whole *)
Definition num_of (x : option json) : num := match x with Some (JNum n) => n | _ => num_of_Z 0 end.

(** The sum of two float64, rounded to 53 bits, ties to even. *)
Definition round53 (m e : Z) : num :=
  let k := Z.log2 (Z.abs m) + 1 - 53 in
  if k <=? 0 then num_dyadic m e
  else
    let a := Z.abs m in
    let q := a / 2 ^ k in
    let r := a mod 2 ^ k in
    let q := if (2 ^ (k - 1) <? r) || ((r =? 2 ^ (k - 1)) && Z.odd q) then q + 1 else q in
    num_dyadic (Z.sgn m * q) (e + k).
Definition num_add (a b : num) : num := let e := Z.min (n_e a) (n_e b) in round53 (num_scaled a e + num_scaled b e) e.

(** [int(v)] of a float64; out of range it is the least integer. *)
Definition int_of_num (n : num) : Z := let z := num_trunc n in if (- 2 ^ 63 <=? z) && (z <? 2 ^ 63) then z else - 2 ^ 63.
Definition get_int (values : settings) (key : string) : Z := int_of_num (num_of (values !! key)).

Definition check_exclusive (values : settings) : result string unit :=
  if bool_decide (values !! "Options.MembersOnly" = Some (JBool true)) && bool_decide (values !! "Options.RegularsOnly" = Some (JBool true))
  then Err "members-only and regulars-only are mutually exclusive" else Ok tt.

(** [global_values] is the global configuration, read for the offset of the RCON port. *)
Definition check_scope (global : bool) (global_values : option settings) (values : settings) : result string unit :=
  if global then
    match values !! "GroupName" with
    | Some (JStr v) => if (slen v <? 2) || (5 <? slen v) then Err "GroupName must be 2-5 characters" else Ok tt
    | _ => Ok tt
    end
  else
    match global_values with
    | None => Err "cannot validate global port settings"
    | Some g =>
        if num_lt (num_of_Z 65535) (num_add (num_of (values !! "Port")) (num_of (g !! "Options.RconOffset")))
        then Err "computed RCON port exceeds 65535" else Ok tt
    end.

Definition interval_changed (patch : list (string * string)) : bool := existsb (fun kr => HasPrefix kr.1 "Options.ResetInterval.") patch.
Definition reset_explicit (patch : list (string * string)) : bool := existsb (fun kr => bool_decide (kr.1 = "Options.NextReset")) patch.

(** The date that follows a change of the interval. *)
Definition next_reset (now : time) (values : settings) : time :=
  let months := get_int values "Options.ResetInterval.Months" in
  let weeks := get_int values "Options.ResetInterval.Weeks" in
  let days := get_int values "Options.ResetInterval.Days" in
  let hours := get_int values "Options.ResetInterval.Hours" in
  if 0 <? swrap 64 (months + weeks + days + hours) then
    let base := reset_base (get_int values "Options.ResetHour") now in
    Time_Round (Add (AddDate 0 base months (swrap 64 (days + weeks * 7))) (times hours Hour)) Second
  else zeroTime.

Definition patch_reset (now : time) (patch : list (string * string)) (values : settings) : result string settings :=
  if interval_changed patch then
    if reset_explicit patch then Err "change the reset interval or the explicit reset date in separate saves"
    else Ok (<["Options.NextReset" := JStr (FormatRFC3339 (next_reset now values))]> values)
  else if reset_explicit patch then
    match ParseRFC3339 (str_of (any_of (values !! "Options.NextReset"))) with
    | Some (next, _) =>
        if negb (IsZero next) && negb (After next now) then Err "reset date must be in the future, or the zero date to disable it" else Ok values
    | None => Err "reset date must be in the future, or the zero date to disable it"
    end
  else Ok values.

(** Everything between the loop and the write. *)
Definition check_whole (global : bool) (global_values : option settings) (now : time) (patch : list (string * string)) (values : settings) : result string settings :=
  check_exclusive values ≫= fun _ =>
  check_scope global global_values values ≫= fun _ =>
  (if global then Ok values else patch_reset now patch values) ≫= fun values =>
  if decodes global values then Ok values else Err (if global then "invalid global settings" else "invalid local settings").

(** ** [WebPatch] *)
Record web_call := mkCall { wc_io : io; wc_global : option settings; wc_now : time }.

Definition ErrRevision : string := "configuration changed; refresh before saving".

Definition patched (global admin : bool) (expected : string) (patch : list (string * string)) (c : web_call) (values : settings) : result string settings :=
  if negb (bool_decide (expected = revision values)) then Err ErrRevision
  else patch_all global admin values patch ≫= check_whole global (wc_global c) (wc_now c) patch.

Definition WebPatch (global admin : bool) (expected : string) (patch : list (string * string)) (c : web_call) (f : file)
    : result string WebSettings * file :=
  if negb (io_lock (wc_io c)) then (Err "cannot lock configuration", f)
  else
    match file_values f with
    | None => (Err "cannot read configuration", f)
    | Some values =>
        match patched global admin expected patch c values with
        | Err e => (Err e, f)
        | Ok values =>
            match unflatten values with
            | Some v => if io_write (wc_io c) then (WebRead global (Has v), Has v) else (Err "unable to persist settings", f)
            | None => (Err "unable to persist settings", f)
            end
        end
    end.
End web.
