(* ===== verification/WebSafety.v ===== *)
(** * What the web settings guarantee

    No answer depends on a secret; a patch changes only what its author may change, to
    values of the schema; members-only and regulars-only are never both on, and
    one-life mode is never switched off; and a patch that fails leaves the file. *)
From Stdlib Require Import Ascii.
From S2P Require Import Prelude.
From S2P Require Import GoInt.
From S2P Require Import GoString.
From S2P Require Import GoTime.
From S2P Require Import GoCalendar.
From S2P Require Import ResetSchedule.
From S2P Require Import ConfigTree.
From S2P Require Import ConfigFile.
From S2P Require Import WebSchema.
From S2P Require Import WebSettings.

(** ** Secrets *)

(** The two tokens, and every setting nobody has classified. *)
Definition secret_key (g : bool) (k : string) : Prop :=
  k ∈ secret_keys \/ (if g then "global" else "local") +:+ "." +:+ k ∉ classifiedWebFields.

Definition secret_key_b (g : bool) (k : string) : bool :=
  existsb (String.eqb k) secret_keys || negb (existsb (String.eqb ((if g then "global" else "local") +:+ "." +:+ k)) classified_list).
Lemma key_in_spec k l : key_in k l = true <-> k ∈ l.
Proof.
  unfold key_in. rewrite existsb_exists. split.
  - intros (x & Hx & Hk). apply bool_decide_eq_true in Hk as ->. by apply list_elem_of_In.
  - intros Hk. exists k. split; [by apply list_elem_of_In|by apply bool_decide_eq_true].
Qed.
Lemma existsb_eqb k l : existsb (String.eqb k) l = true <-> k ∈ l.
Proof.
  rewrite existsb_exists, list_elem_of_In. split; [by intros (x & Hx & ->%String.eqb_eq)|]. intros Hk. exists k. by rewrite String.eqb_refl.
Qed.
Lemma secret_key_spec g k : secret_key g k -> secret_key_b g k = true.
Proof.
  unfold secret_key_b. intros [Hk|Hk]; apply orb_true_iff; [left; by apply existsb_eqb|right].
  apply negb_true_iff, not_true_iff_false. rewrite existsb_eqb. unfold classifiedWebFields in Hk. by rewrite elem_of_list_to_set in Hk.
Qed.

Lemma schema_forall (P : WebField -> bool) (g : bool) : forallb P (if g then global_schema else local_schema) = true -> forall f : WebField, f ∈ WebSchema g -> P f = true.
Proof. rewrite WebSchema_computed. intros Hf f Hin. rewrite forallb_forall in Hf. apply Hf. by apply list_elem_of_In. Qed.

Lemma schema_secret (g : bool) (f : WebField) : f ∈ WebSchema g -> secret_key g (f_Key f) -> f_Secret f = true.
Proof.
  intros Hf Hk%secret_key_spec.
  assert (implb (secret_key_b g (f_Key f)) (f_Secret f) = true) as Hi; [|by rewrite Hk in Hi].
  revert f Hf Hk. intros f Hf _. apply (schema_forall (fun f => implb (secret_key_b g (f_Key f)) (f_Secret f)) g); [|done].
  destruct g; vm_compute; reflexivity.
Qed.

(** The keys of a schema are distinct. *)
Definition found_again (g : bool) (f : WebField) : bool := bool_decide (field_of (if g then global_schema else local_schema) (f_Key f) = Some f).
Lemma schema_field_key (g : bool) (f : WebField) : f ∈ WebSchema g -> schema_field g (f_Key f) = Some f.
Proof.
  intros Hf. rewrite schema_field_computed. apply (bool_decide_eq_true_1 (field_of _ (f_Key f) = Some f)).
  apply (schema_forall (found_again g) g); [destruct g; vm_compute; reflexivity|exact Hf].
Qed.

Lemma foldl_ext_in {A B} (f1 f2 : A -> B -> A) l a : (forall a x, x ∈ l -> f1 a x = f2 a x) -> foldl f1 a l = foldl f2 a l.
Proof.
  revert a. induction l as [|x l IH]; intros a Hf; [done|]. simpl. rewrite Hf by set_solver. apply IH. intros. apply Hf. set_solver.
Qed.

(** The answer to a reader says of a secret only whether it is set: another token gives
    the same answer (apart from the digest of the file). *)
Theorem secrets_never_shown g values k x y :
  secret_key g k -> configured (Some x) = configured (Some y) ->
  web_values g (<[k := x]> values) = web_values g (<[k := y]> values).
Proof.
  intros Hk Hc. unfold web_values. apply foldl_ext_in. intros out f Hf.
  assert (web_value (<[k := x]> values) f = web_value (<[k := y]> values) f) as ->; [|done]. unfold web_value.
  destruct (decide (f_Key f = k)) as [E|Hne].
  - rewrite (schema_secret g f Hf) by (by rewrite E). rewrite E, !lookup_insert_eq. by rewrite Hc.
  - by rewrite !lookup_insert_ne by done.
Qed.

(** ** Values of the schema *)
Inductive value_ok (f : WebField) : json -> Prop :=
  | ok_bool b : f_Type f = "bool" -> value_ok f (JBool b)
  | ok_int lo hi z : f_Type f = "int" -> f_Min f = Some (num_of_Z lo) -> f_Max f = Some (num_of_Z hi) -> lo <= z <= hi ->
      value_ok f (JNum (num_of_Z z))
  | ok_float lo hi n : f_Type f = "float32" -> f_Min f = Some lo -> f_Max f = Some hi -> num_lt n lo = false -> num_lt hi n = false ->
      value_ok f (JNum n)
  | ok_string s : f_Type f = "string" -> slen s <= 4096 -> f_Choices f = [] \/ s ∈ f_Choices f -> value_ok f (JStr s)
  | ok_date s t : f_Type f = "datetime" -> slen s <= 4096 -> ParseRFC3339 s = Some t -> value_ok f (JStr s).

(** Integers as float64. *)
Lemma strip_twos_value fuel : forall m e, 0 <= e -> n_e (strip_twos fuel m e) >= e /\ n_m (strip_twos fuel m e) * 2 ^ n_e (strip_twos fuel m e) = m * 2 ^ e.
Proof.
  induction fuel as [|fuel IH]; intros m e He; simpl; [lia|]. destruct (Z.even m) eqn:Em; [|simpl; lia].
  destruct (IH (m / 2) (e + 1) ltac:(lia)) as [H1 H2]. split; [lia|]. rewrite H2, Z.pow_add_r by lia.
  apply Z.even_spec in Em as [k ->]. replace (2 * k) with (k * 2) by lia. rewrite Z.div_mul by lia. lia.
Qed.

Lemma num_of_Z_value z : 0 <= n_e (num_of_Z z) /\ n_m (num_of_Z z) * 2 ^ n_e (num_of_Z z) = z.
Proof.
  unfold num_of_Z, num_dyadic. destruct (Z.eqb_spec z 0) as [->|Hz]; [simpl; lia|].
  destruct (strip_twos_value (Z.to_nat (Z.log2 (Z.abs z))) z 0 ltac:(lia)). split; [lia|]. rewrite H0. lia.
Qed.

Lemma num_lt_Z a b : num_lt (num_of_Z a) (num_of_Z b) = (a <? b).
Proof.
  unfold num_lt, num_scaled. destruct (num_of_Z_value a) as [Ha1 Ha2], (num_of_Z_value b) as [Hb1 Hb2].
  set (na := num_of_Z a) in *. set (nb := num_of_Z b) in *. set (e := Z.min (n_e na) (n_e nb)).
  assert (Ea : a = n_m na * 2 ^ (n_e na - e) * 2 ^ e) by (rewrite <-Z.mul_assoc, <-Z.pow_add_r by lia; rewrite Z.sub_add; lia).
  assert (Eb : b = n_m nb * 2 ^ (n_e nb - e) * 2 ^ e) by (rewrite <-Z.mul_assoc, <-Z.pow_add_r by lia; rewrite Z.sub_add; lia).
  rewrite Ea at 1. rewrite Eb at 1. pose proof (Z.pow_pos_nonneg 2 e ltac:(lia) ltac:(lia)).
  apply eq_true_iff_eq. rewrite !Z.ltb_lt. clear - H. nia.
Qed.

Definition int_range_ok (f : WebField) : bool :=
  implb (bool_decide (f_Type f = "int"))
    match f_Min f, f_Max f with
    | Some lo, Some hi => bool_decide (lo = num_of_Z (num_trunc lo)) && bool_decide (hi = num_of_Z (num_trunc hi))
    | _, _ => false
    end.
Lemma int_ranges g (f : WebField) : f ∈ WebSchema g -> f_Type f = "int" ->
  exists lo hi, f_Min f = Some (num_of_Z lo) /\ f_Max f = Some (num_of_Z hi).
Proof.
  intros Hf Ht. pose proof (schema_forall int_range_ok g ltac:(destruct g; vm_compute; reflexivity) f Hf) as Hr.
  unfold int_range_ok in Hr. rewrite bool_decide_eq_true_2 in Hr by done. cbn [implb] in Hr.
  destruct (f_Min f) as [lo|]; [|done]. destruct (f_Max f) as [hi|]; [|done]. bool_hyps. rewrite H, H0.
  exists (num_trunc lo), (num_trunc hi). by rewrite <-H, <-H0.
Qed.

Lemma check_type_ok g (f : WebField) key v : f ∈ WebSchema g -> check_type f key v = Ok tt -> value_ok f v.
Proof.
  intros Hf. unfold check_type. case_bool_decide as Eb.
  { destruct v; try done. intros _. by constructor. }
  destruct (key_in (f_Type f) ["int"; "float32"]) eqn:En.
  { unfold check_number. destruct v as [| |n| | |]; try done. destruct (f_Min f) as [lo|] eqn:Elo; [|done]. destruct (f_Max f) as [hi|] eqn:Ehi; [|done].
    destruct (num_lt n lo) eqn:E1; [done|]. destruct (num_lt hi n) eqn:E2; [done|]. cbn [orb].
    apply key_in_spec in En. apply elem_of_cons in En as [Ei|En].
    - rewrite bool_decide_eq_true_2 by done. cbn [andb]. case_bool_decide as E3; [|done]. intros _.
      destruct (int_ranges g f Hf Ei) as (zl & zh & El & Eh). rewrite Elo in El. rewrite Ehi in Eh. injection El as ->. injection Eh as ->.
      rewrite E3 in E1, E2 |- *. rewrite num_lt_Z in E1, E2. apply (ok_int f zl zh); [done..|]. bool_hyps. lia.
    - apply list_elem_of_singleton in En. intros _. by apply (ok_float f lo hi). }
  destruct (key_in (f_Type f) ["string"; "datetime"]) eqn:Es; [|done].
  unfold check_text. destruct v as [| | |s| |]; try done. destruct (4096 <? slen s) eqn:El; [done|].
  case_bool_decide as Ed; cbn [andb].
  - case_bool_decide as Ep; [done|]. destruct (_ && _); [done|]. intros _. destruct (ParseRFC3339 s) as [t|] eqn:Et; [|done].
    apply (ok_date f s t); [done|bool_hyps; lia|done].
  - apply key_in_spec in Es. apply elem_of_cons in Es as [Es|Es]; [|by apply list_elem_of_singleton in Es].
    destruct (negb (bool_decide (f_Choices f = [])) && negb (key_in s (f_Choices f))) eqn:Ec; [done|]. intros _.
    apply ok_string; [done|bool_hyps; lia|]. apply andb_false_iff in Ec as [Ec|Ec]; apply negb_false_iff in Ec;
      [left; by apply bool_decide_eq_true in Ec|right; by apply key_in_spec].
Qed.

(** ** The date that follows a change of the interval *)
Lemma num_trunc_Z z : num_trunc (num_of_Z z) = z.
Proof. unfold num_trunc. destruct (num_of_Z_value z) as [H1 H2]. destruct (Z.leb_spec 0 (n_e (num_of_Z z))); lia. Qed.

Lemma num_of_Z_inj a b : num_of_Z a = num_of_Z b -> a = b.
Proof. intros E. apply (f_equal num_trunc) in E. by rewrite !num_trunc_Z in E. Qed.

Lemma int_of_num_Z z : - 2 ^ 63 <= z < 2 ^ 63 -> int_of_num (num_of_Z z) = z.
Proof. intros Hz. unfold int_of_num. rewrite num_trunc_Z. destruct (Z.leb_spec (- 2 ^ 63) z), (Z.ltb_spec z (2 ^ 63)); try lia. done. Qed.

Definition ints_typed (values : settings) : Prop :=
  forall f : WebField, f ∈ WebSchema false -> f_Type f = "int" -> forall v, values !! f_Key f = Some v -> value_ok f v.

Lemma value_ok_int (f : WebField) v lo hi : value_ok f v -> f_Type f = "int" -> f_Min f = Some (num_of_Z lo) -> f_Max f = Some (num_of_Z hi) ->
  exists z, v = JNum (num_of_Z z) /\ lo <= z <= hi.
Proof.
  intros [b Hf|lo' hi' z Hf Hl Hh Hz|? ? ? Hf|? Hf|? ? Hf] Ht Hlo Hhi; try (rewrite Ht in Hf; discriminate Hf).
  exists z. rewrite Hlo in Hl. rewrite Hhi in Hh. injection Hl as Hl. injection Hh as Hh.
  apply num_of_Z_inj in Hl, Hh. subst. done.
Qed.

(** An integer setting of the local file, by its range; a setting that is absent is 0. *)
Lemma get_int_range values key (f : WebField) lo hi : ints_typed values -> schema_field false key = Some f -> f_Type f = "int" ->
  f_Min f = Some (num_of_Z lo) -> f_Max f = Some (num_of_Z hi) -> 0 <= lo -> 0 <= hi < 2 ^ 63 -> 0 <= get_int values key <= hi.
Proof.
  intros Hi Hf Ht Hlo Hhi H0 H1. unfold schema_field in Hf. apply List.find_some in Hf as [Hin Hk%bool_decide_eq_true].
  unfold get_int. destruct (values !! key) as [v|] eqn:Ev; [|simpl; rewrite int_of_num_Z; lia].
  rewrite <-Hk in Ev. pose proof (Hi f (proj2 (list_elem_of_In _ _) Hin) Ht v Ev) as Hv.
  destruct (value_ok_int f v lo hi Hv Ht Hlo Hhi) as (z & -> & Hz). simpl. rewrite int_of_num_Z; lia.
Qed.

Lemma interval_ranges values : ints_typed values ->
  0 <= get_int values "Options.ResetInterval.Months" <= 6 /\ 0 <= get_int values "Options.ResetInterval.Weeks" <= 26
  /\ 0 <= get_int values "Options.ResetInterval.Days" <= 182 /\ 0 <= get_int values "Options.ResetInterval.Hours" <= 4320
  /\ 0 <= get_int values "Options.ResetHour" <= 23.
Proof.
  intros Hi.
  assert (forall key hi f, schema_field false key = Some f -> (f_Type f, f_Min f, f_Max f) = ("int", Some (num_of_Z 0), Some (num_of_Z hi)) ->
    0 <= hi < 2 ^ 63 -> 0 <= get_int values key <= hi) as Hr.
  { intros key hi f Hf [= Ht Hlo Hhi] Hb. apply (get_int_range values key f 0 hi Hi); try done. }
  split; [|split; [|split; [|split]]].
  - eapply (Hr _ 6); [rewrite schema_field_computed; vm_compute; reflexivity|vm_compute; reflexivity|lia].
  - eapply (Hr _ 26); [rewrite schema_field_computed; vm_compute; reflexivity|vm_compute; reflexivity|lia].
  - eapply (Hr _ 182); [rewrite schema_field_computed; vm_compute; reflexivity|vm_compute; reflexivity|lia].
  - eapply (Hr _ 4320); [rewrite schema_field_computed; vm_compute; reflexivity|vm_compute; reflexivity|lia].
  - eapply (Hr _ 23); [rewrite schema_field_computed; vm_compute; reflexivity|vm_compute; reflexivity|lia].
Qed.

Lemma reset_base_range hour now : 0 <= hour <= 23 -> 0 <= now -> 0 <= reset_base hour now <= now + 86400000000000.
Proof.
  intros Hh Hn. unfold reset_base. destruct (Z.ltb_spec 0 hour); [|lia]. unfold Date.
  assert (day_number (mkCivil (c_year (date_of now)) (c_month (date_of now)) (c_day (date_of now))) = now / Day) as ->.
  { rewrite <-day_of_date. generalize (date_of now). intros []. reflexivity. }
  pose proof (time_split now) as Hs. pose proof (clock_range now) as Hc. assert (Day = 86400000000000) as HD by reflexivity. rewrite HD in Hc.
  assert (0 <= now / Day) by (apply Z.div_pos; [exact Hn|done]).
  set (q := now / Day) in *. set (k := clock_of now) in *. clearbody q k. change Second with 1000000000. unfold time, duration in *. nia.
Qed.

Lemma next_reset_year now values : recent now -> ints_typed values -> in_RFC3339 (next_reset now values).
Proof.
  intros Hn Hi. destruct (interval_ranges values Hi) as (Hm & Hw & Hd & Hh & Hr). unfold next_reset.
  set (months := get_int values "Options.ResetInterval.Months") in *. set (weeks := get_int values "Options.ResetInterval.Weeks") in *.
  set (days := get_int values "Options.ResetInterval.Days") in *. set (hours := get_int values "Options.ResetInterval.Hours") in *.
  set (hour := get_int values "Options.ResetHour") in *. clearbody months weeks days hours hour.
  destruct (0 <? _) eqn:E; [|vm_compute; intuition discriminate].
  rewrite swrap_small in E by (unfold in_s; lia). apply Z.ltb_lt in E. rewrite swrap_small by (unfold in_s; lia).
  rewrite times_small by (change Hour with 3600000000000; lia).
  destruct (reset_base_range hour now Hr (proj1 Hn)) as [Hb1 Hb2]. set (base := reset_base hour now) in *. clearbody base.
  pose proof (AddDate_ge 0 base months (days + weeks * 7) ltac:(lia) ltac:(lia)) as H1.
  pose proof (AddDate_le 0 base months (days + weeks * 7) ltac:(lia) ltac:(lia)) as H2.
  set (a := AddDate _ _ _ _) in *. clearbody a. unfold Add, recent in *.
  pose proof (Time_Round_near (a + hours * Hour) Second ltac:(done)) as Hround. change Second with 1000000000 in *. change Hour with 3600000000000 in *.
  apply year_range. set (r := Time_Round _ _) in *. clearbody r. unfold time, duration in *. lia.
Qed.

Lemma next_reset_ok now values (f : WebField) : recent now -> ints_typed values -> f_Type f = "datetime" ->
  value_ok f (JStr (FormatRFC3339 (next_reset now values))).
Proof.
  intros Hn Hi Hf. pose proof (next_reset_year now values Hn Hi) as Hy.
  eapply ok_date; [done|rewrite format_length by done; lia|by apply parse_format].
Qed.

(** ** The loop over a patch *)
Section patch.
Context `{Revision, ConfigJSON}.

(** The patch names the setting, and its author may change it. *)
Definition may_change (g admin : bool) (patch : list (string * string)) (k : string) (f : WebField) : Prop :=
  k ∈ patch.*1 /\ schema_field g k = Some f /\ editable admin f = true.

Lemma schema_field_spec g k (f : WebField) : schema_field g k = Some f -> f ∈ WebSchema g /\ f_Key f = k.
Proof.
  unfold schema_field. intros Hf. apply List.find_some in Hf as [Hin Hk]. split; [by apply list_elem_of_In|]. by apply bool_decide_eq_true in Hk.
Qed.

Lemma patch_one_ok g admin values kr values' : patch_one g admin values kr = Ok values' ->
  exists f v, schema_field g kr.1 = Some f /\ editable admin f = true /\ value_ok f v /\ check_special kr.1 v values = Ok tt
    /\ check_type f kr.1 v = Ok tt /\ values' = <[kr.1 := v]> values.
Proof.
  destruct kr as [key raw]. unfold patch_one. simpl. destruct (schema_field g key) as [f|] eqn:Ef; [|done].
  destruct (negb (editable admin f)) eqn:Ee; [done|]. case_bool_decide; [done|]. destruct (Unmarshal raw) as [v|]; [|done].
  intros Hp. apply result_bind_ok in Hp as ([] & Ht & Hp). apply result_bind_ok in Hp as ([] & Hs & [= <-]).
  exists f, v. split_and!; try done; [by apply negb_false_iff in Ee|]. eapply check_type_ok; [|exact Ht]. by apply (schema_field_spec g key).
Qed.

(** The loop changes what it may change, to values of the schema. *)
Lemma patch_all_ok g admin values patch values' : patch_all g admin values patch = Ok values' ->
  forall k, values' !! k = values !! k \/ exists f v, may_change g admin patch k f /\ value_ok f v /\ values' !! k = Some v.
Proof.
  unfold patch_all. apply (foldM_inv (fun d : settings => forall k, d !! k = values !! k \/ exists f v, may_change g admin patch k f /\ value_ok f v /\ d !! k = Some v)).
  { by left. }
  intros d kr d' Hin Hd Hone k. destruct (patch_one_ok _ _ _ _ _ Hone) as (f & v & Hf & He & Hv & _ & _ & ->).
  destruct (decide (k = kr.1)) as [->|Hne]; [|by rewrite lookup_insert_ne].
  right. exists f, v. rewrite lookup_insert_eq. split_and!; try done. split_and!; try done. apply list_elem_of_fmap. by exists kr.
Qed.

Definition OneLife : string := "Options.SoftModOptions.OneLife".
Lemma OneLife_bool g f : schema_field g OneLife = Some f -> f_Type f = "bool".
Proof. rewrite schema_field_computed. destruct g; vm_compute; by intros [= <-]. Qed.

Lemma patch_all_one_life g admin values patch values' : patch_all g admin values patch = Ok values' ->
  values !! OneLife = Some (JBool true) -> values' !! OneLife = Some (JBool true).
Proof.
  intros Hp Ho. revert Hp. unfold patch_all. apply (foldM_inv (fun d : settings => d !! OneLife = Some (JBool true))); [done|].
  intros d kr d' _ Hd Hone. destruct (patch_one_ok _ _ _ _ _ Hone) as (f & v & Hf & _ & Hv & Hs & _ & ->).
  destruct (decide (kr.1 = OneLife)) as [E|Hne]; [|by rewrite lookup_insert_ne]. rewrite E in *. rewrite lookup_insert_eq.
  pose proof (OneLife_bool g f Hf) as Ht. inversion Hv; subst; try congruence. destruct b; [done|]. exfalso. revert Hs.
  unfold check_special. rewrite Hd. vm_compute. discriminate.
Qed.

(** ** The checks on the whole *)
Definition NextReset_key : string := "Options.NextReset".

Lemma patch_reset_ok now patch values values' : patch_reset now patch values = Ok values' ->
  values' = values \/ interval_changed patch = true /\ values' = <[NextReset_key := JStr (FormatRFC3339 (next_reset now values))]> values.
Proof.
  unfold patch_reset. destruct (interval_changed patch).
  - destruct (reset_explicit patch); [done|]. intros [= <-]. by right.
  - destruct (reset_explicit patch); [|intros [= <-]; by left]. destruct (ParseRFC3339 _) as [[n o]|]; [|done]. destruct (_ && _); [done|].
    intros [= <-]. by left.
Qed.

Lemma check_whole_ok g gv now patch values values' : check_whole g gv now patch values = Ok values' ->
  check_exclusive values = Ok tt /\ decodes g values' = true /\
  (values' = values \/ g = false /\ interval_changed patch = true /\ values' = <[NextReset_key := JStr (FormatRFC3339 (next_reset now values))]> values).
Proof.
  unfold check_whole. intros Hc. apply result_bind_ok in Hc as ([] & He & Hc). apply result_bind_ok in Hc as ([] & _ & Hc).
  apply result_bind_ok in Hc as (v & Hr & Hd). destruct (decodes g v) eqn:Ed; [|done]. injection Hd as <-. split_and!; [done|done|].
  destruct g; [injection Hr as <-; by left|]. destruct (patch_reset_ok _ _ _ _ Hr) as [->|[Hi ->]]; [by left|by right].
Qed.

(** ** What a patch does to the file *)
Section file.
Variable keys : gset string.
Hypothesis keys_ok : forall k, k ∈ keys -> key_ok k.
Hypothesis keys_apart : forall k1 k2, k1 ∈ keys -> k2 ∈ keys -> k1 <> k2 -> apart (Split k1 dot) (Split k2 dot).
Hypothesis schema_keys : forall g (f : WebField), f ∈ WebSchema g -> f_Key f ∈ keys.

Lemma value_ok_leaf f v : value_ok f v -> is_leaf v.
Proof. by intros []. Qed.

Lemma patch_conforms g admin values patch values' : conforms keys values -> patch_all g admin values patch = Ok values' -> conforms keys values'.
Proof.
  intros [Hd Hl] Hp. pose proof (patch_all_ok _ _ _ _ _ Hp) as Hk. split.
  - intros k [v Hv]%elem_of_dom. destruct (Hk k) as [E|(f & v' & [_ [Hf _]] & _ & _)].
    + apply Hd, elem_of_dom. exists v. by rewrite <-E.
    + destruct (schema_field_spec g k f Hf) as [Hin <-]. by apply (schema_keys g).
  - intros k v Hv. destruct (Hk k) as [E|(f & v' & _ & Hok & Hv')]; [apply (Hl k v); by rewrite <-E|].
    rewrite Hv in Hv'. injection Hv' as <-. by apply value_ok_leaf in Hok.
Qed.

Lemma WebPatch_ok g admin expected patch c f r f' : WebPatch g admin expected patch c f = (Ok r, f') ->
  exists d d1 d' v, file_values f = Some d /\ expected = revision d /\ patch_all g admin d patch = Ok d1
    /\ check_whole g (wc_global c) (wc_now c) patch d1 = Ok d' /\ unflatten d' = Some v /\ f' = Has v.
Proof.
  unfold WebPatch. destruct (negb (io_lock (wc_io c))); [done|]. destruct (file_values f) as [d|]; [|done].
  unfold patched. case_bool_decide as Er; [|done]. cbn [negb].
  destruct (patch_all g admin d patch) as [d1|e] eqn:Ep; [|done]. simpl mbind. 
  destruct (check_whole g (wc_global c) (wc_now c) patch d1) as [d'|e] eqn:Ec; [|done].
  destruct (unflatten d') as [v|] eqn:Eu; [|done]. destruct (io_write (wc_io c)); [|done]. intros [= _ <-]. by exists d, d1, d', v.
Qed.

Lemma NextReset_field : exists f, schema_field false NextReset_key = Some f /\ f_Type f = "datetime".
Proof. rewrite schema_field_computed. eexists. split; vm_compute; reflexivity. Qed.

Lemma patched_file g admin d d1 d' patch c v :
  conforms keys d -> patch_all g admin d patch = Ok d1 -> check_whole g (wc_global c) (wc_now c) patch d1 = Ok d' -> unflatten d' = Some v ->
  config_values v = d'.
Proof.
  intros Hd Hp Hc Hu. assert (conforms keys d1) as Hd1 by (by eapply patch_conforms). assert (conforms keys d') as Hd'.
  { destruct (check_whole_ok _ _ _ _ _ _ Hc) as (_ & _ & [->|(_ & _ & ->)]); [done|]. destruct Hd1 as [H1 H2]. split.
    - rewrite dom_insert. destruct NextReset_field as (f & Hf & _). destruct (schema_field_spec _ _ _ Hf) as [Hin Hk].
      pose proof (schema_keys false f Hin) as Hin2. rewrite Hk in Hin2.
      apply union_subseteq. split; [by apply singleton_subseteq_l|exact H1].
    - by apply map_Forall_insert_2. }
  destruct (unflatten_conforms keys keys_ok keys_apart d' Hd') as (m & Hm & Hcm). congruence.
Qed.

(** C9: A patch that is accepted started from the revision its author saw.  It changes
    only settings it names and its author may change, and the date of the next reset
    when it changes the interval; each to a value of the schema. *)
Theorem patch_changes_permitted g admin expected patch c f r f' d :
  file_values f = Some d -> conforms keys d -> recent (wc_now c) -> (g = false -> ints_typed d) ->
  WebPatch g admin expected patch c f = (Ok r, f') ->
  expected = revision d /\
  exists d', file_values f' = Some d' /\ forall k, d' !! k = d !! k
    \/ (exists fd v, may_change g admin patch k fd /\ value_ok fd v /\ d' !! k = Some v)
    \/ (g = false /\ k = NextReset_key /\ interval_changed patch = true
        /\ exists fd v, schema_field false k = Some fd /\ value_ok fd v /\ d' !! k = Some v).
Proof.
  intros Hf Hd Hn Hi Hw. destruct (WebPatch_ok _ _ _ _ _ _ _ _ Hw) as (d0 & d1 & d' & v & Hf0 & Hr & Hp & Hc & Hu & ->).
  assert (d0 = d) as -> by congruence. split; [done|]. exists d'. split.
  { simpl. f_equal. by eapply patched_file. }
  intros k. pose proof (patch_all_ok _ _ _ _ _ Hp) as Hk.
  destruct (check_whole_ok _ _ _ _ _ _ Hc) as (_ & _ & [->|(-> & Hic & ->)]).
  { destruct (Hk k) as [?|?]; [by left|right; by left]. }
  destruct (decide (k = NextReset_key)) as [->|Hne].
  - right; right. split; [reflexivity|]. split; [reflexivity|]. split; [exact Hic|]. destruct NextReset_field as (fd & Hfd & Ht). exists fd, (JStr (FormatRFC3339 (next_reset (wc_now c) d1))).
    split; [exact Hfd|]. split; [|apply lookup_insert_eq]. apply next_reset_ok; [exact Hn| |exact Ht].
    intros f2 Hin2 Ht2 v2 Hv2. destruct (Hk (f_Key f2)) as [E|(f3 & v3 & (_ & Hf3 & _) & Hok & E)].
    + rewrite E in Hv2. by apply Hi.
    + assert (f3 = f2) as ->.
      { pose proof (schema_field_key false f2 Hin2) as Hs. congruence. }
      rewrite E in Hv2. by injection Hv2 as <-.
  - rewrite lookup_insert_ne by done. destruct (Hk k) as [?|?]; [by left|right; by left].
Qed.

(** C36: Settings that were accepted never have members-only and regulars-only both on,
    decode into the types of the program, and keep one-life mode when it was on. *)
Theorem accepted_settings_consistent g admin expected patch c f r f' d :
  file_values f = Some d -> conforms keys d -> WebPatch g admin expected patch c f = (Ok r, f') ->
  exists d', file_values f' = Some d' /\ decodes g d' = true
    /\ (d' !! "Options.MembersOnly" = Some (JBool true) -> d' !! "Options.RegularsOnly" <> Some (JBool true))
    /\ (d !! OneLife = Some (JBool true) -> d' !! OneLife = Some (JBool true)).
Proof.
  intros Hf Hd Hw. destruct (WebPatch_ok _ _ _ _ _ _ _ _ Hw) as (d0 & d1 & d' & v & Hf0 & Hr & Hp & Hc & Hu & ->).
  assert (d0 = d) as -> by congruence. exists d'. split; [simpl; f_equal; by eapply patched_file|].
  destruct (check_whole_ok _ _ _ _ _ _ Hc) as (He & Hdec & Hcase). split; [exact Hdec|].
  assert (Hother : forall k, k <> NextReset_key -> d' !! k = d1 !! k).
  { intros k Hk. destruct Hcase as [->|(_ & _ & ->)]; [done|by rewrite lookup_insert_ne]. }
  split.
  - rewrite !Hother by discriminate. unfold check_exclusive in He. intros Hm Hr'. rewrite Hm, Hr', !bool_decide_eq_true_2 in He by done. discriminate He.
  - intros Ho. rewrite Hother by discriminate. by apply (patch_all_one_life g admin d patch).
Qed.

(** A patch that is refused leaves the file as it is, whatever the reason. *)
Theorem refused_patch_changes_nothing g admin expected patch c f e f' :
  WebPatch g admin expected patch c f = (Err e, f') -> f' = f.
Proof.
  unfold WebPatch. destruct (negb (io_lock (wc_io c))); [congruence|]. destruct (file_values f) as [d|] eqn:Ef; [|congruence].
  destruct (patched g admin expected patch c d) as [d'|] eqn:Ep; [|congruence].
  destruct (unflatten d') as [v|] eqn:Eu; [|congruence]. destruct (io_write (wc_io c)); [|congruence]. unfold WebRead. simpl. discriminate.
Qed.
End file.
End patch.

(** ** A moderator changes the interval of a server *)
Module WebDemo.
Definition all_keys : list string := Eval vm_compute in (f_Key <$> local_schema) ++ (f_Key <$> global_schema).
Definition demo_keys : gset string := list_to_set all_keys.

Lemma demo_keys_spec k : k ∈ demo_keys -> In k all_keys.
Proof. unfold demo_keys. rewrite elem_of_list_to_set. apply list_elem_of_In. Qed.

Definition key_ok_b (k : string) : bool := negb (bool_decide (head (Split k dot) = Some "")).
Lemma demo_keys_ok k : k ∈ demo_keys -> key_ok k.
Proof.
  intros Hk%demo_keys_spec. assert (Hall : forallb key_ok_b all_keys = true) by (vm_compute; reflexivity).
  rewrite forallb_forall in Hall. specialize (Hall k Hk). unfold key_ok_b in Hall. by apply negb_true_iff, bool_decide_eq_false in Hall.
Qed.

Fixpoint prefix_b (a b : list string) : bool :=
  match a, b with [], _ => true | x :: a, y :: b => String.eqb x y && prefix_b a b | _, _ => false end.
Lemma prefix_b_spec a b : a `prefix_of` b -> prefix_b a b = true.
Proof.
  intros [t ->]. induction a as [|x a IH]; [done|]. simpl. by rewrite String.eqb_refl, IH.
Qed.
Definition apart_ok (ka kb : string * list string) : bool :=
  String.eqb ka.1 kb.1 || negb (prefix_b ka.2 kb.2).
Lemma demo_keys_apart k1 k2 : k1 ∈ demo_keys -> k2 ∈ demo_keys -> k1 <> k2 -> apart (Split k1 dot) (Split k2 dot).
Proof.
  intros H1%demo_keys_spec H2%demo_keys_spec Hne.
  assert (Hall : (let l := (fun k => (k, Split k dot)) <$> all_keys in forallb (fun a => forallb (apart_ok a) l) l) = true) by (vm_compute; reflexivity).
  cbv zeta in Hall. rewrite forallb_forall in Hall.
  assert (Hin : forall k, In k all_keys -> In (k, Split k dot) ((fun k => (k, Split k dot)) <$> all_keys)).
  { intros k Hk. apply list_elem_of_In, list_elem_of_fmap. exists k. split; [done|]. by apply list_elem_of_In. }
  assert (Hone : forall a b, In a all_keys -> In b all_keys -> a <> b -> ~ Split a dot `prefix_of` Split b dot).
  { intros a b Ha Hb Hab Hp%prefix_b_spec. specialize (Hall _ (Hin a Ha)). rewrite forallb_forall in Hall. specialize (Hall _ (Hin b Hb)).
    unfold apart_ok in Hall. simpl in Hall. rewrite Hp in Hall. destruct (String.eqb_spec a b); [done|discriminate Hall]. }
  split; apply Hone; done.
Qed.
Lemma demo_schema_keys g (f : WebField) : f ∈ WebSchema g -> f_Key f ∈ demo_keys.
Proof.
  rewrite WebSchema_computed. intros Hf. unfold demo_keys. apply elem_of_list_to_set. change all_keys with ((f_Key <$> local_schema) ++ (f_Key <$> global_schema)).
  apply elem_of_app. destruct g; [right|left]; by apply list_elem_of_fmap_2.
Qed.

Definition demo_revision : Revision := {| revision := fun v => "r" +:+ Itoa (Z.of_nat (size v)) |}.
Definition demo_json : ConfigJSON := {|
  Unmarshal := fun raw => if bool_decide (raw = "true") then Some (JBool true) else match ParseUint raw with Some n => Some (JNum (num_of_Z n)) | None => None end;
  decodes := fun _ _ => true |}.
Definition demo_values : settings := {[ "Port" := JNum (num_of_Z 30000); "Options.SoftModOptions.OneLife" := JBool true ]}.
Definition demo_file : file := Has (default [] (unflatten demo_values)).
Definition demo_call : web_call := mkCall (mkIO true true) (Some ∅) evening.
Definition demo_patch : list (string * string) := [("Options.ResetInterval.Hours", "12"); ("Options.MembersOnly", "true")].
Definition demo_result := @WebPatch demo_revision demo_json false false "r2" demo_patch demo_call demo_file.

Lemma demo_file_values : file_values demo_file = Some demo_values.
Proof. vm_compute. reflexivity. Qed.
Lemma in_demo_keys g k (f : WebField) : schema_field g k = Some f -> k ∈ demo_keys.
Proof. intros Hf. destruct (schema_field_spec g k f Hf) as [Hin <-]. by apply (demo_schema_keys g). Qed.
Lemma demo_conforms : conforms demo_keys demo_values.
Proof.
  split; [|apply map_Forall_insert_2; [done|]; by apply map_Forall_singleton]. unfold demo_values.
  rewrite dom_insert_L, dom_singleton_L. intros k [->%elem_of_singleton | ->%elem_of_singleton]%elem_of_union.
  - eapply (in_demo_keys false). rewrite schema_field_computed. vm_compute. reflexivity.
  - eapply (in_demo_keys false). rewrite schema_field_computed. vm_compute. reflexivity.
Qed.
Definition port_field : WebField := Eval vm_compute in match schema_field false "Port" with Some f => f | None => web_field false "" "" "" TBool end.
Lemma port_field_eq : schema_field false "Port" = Some port_field.
Proof. rewrite schema_field_computed. vm_compute. reflexivity. Qed.
Lemma demo_ints : ints_typed demo_values.
Proof.
  intros f Hf Ht v Hv. pose proof (schema_field_key false f Hf) as Hs. unfold demo_values in Hv. apply lookup_insert_Some in Hv as [[Hk <-]|[_ Hv]].
  - rewrite <-Hk, port_field_eq in Hs. injection Hs as <-. apply (ok_int port_field 1024 65535 30000); [reflexivity|reflexivity|reflexivity|lia].
  - apply lookup_singleton_Some in Hv as [Hk <-]. exfalso. rewrite <-Hk in Hs. apply OneLife_bool in Hs. congruence.
Qed.

Definition the_answer (r : result string WebSettings) : WebSettings := match r with Ok r => r | Err _ => mkWebSettings "" ∅ end.
Definition demo_answer : WebSettings := the_answer demo_result.1.
Definition demo_written : file := demo_result.2.
Lemma answer_ok (x : result string WebSettings * file) : is_ok x.1 = true -> x = (Ok (the_answer x.1), x.2).
Proof. by destruct x as [[r|e] f]. Qed.
Lemma demo_result_eq : demo_result = (Ok demo_answer, demo_written).
Proof. apply answer_ok. vm_compute. reflexivity. Qed.

Lemma patch_changes_permitted_witness :
  "r2" = @revision demo_revision demo_values /\
  exists d', file_values demo_written = Some d' /\ forall k, d' !! k = demo_values !! k
    \/ (exists fd v, may_change false false demo_patch k fd /\ value_ok fd v /\ d' !! k = Some v)
    \/ (false = false /\ k = NextReset_key /\ interval_changed demo_patch = true
        /\ exists fd v, schema_field false k = Some fd /\ value_ok fd v /\ d' !! k = Some v).
Proof.
  apply (@patch_changes_permitted demo_revision demo_json demo_keys demo_keys_ok demo_keys_apart demo_schema_keys false false "r2" demo_patch demo_call
           demo_file demo_answer demo_written demo_values demo_file_values demo_conforms).
  - vm_compute. intuition discriminate.
  - intros _. exact demo_ints.
  - exact demo_result_eq.
Defined.

Lemma accepted_settings_consistent_witness :
  exists d', file_values demo_written = Some d' /\ @decodes demo_json false d' = true
    /\ (d' !! "Options.MembersOnly" = Some (JBool true) -> d' !! "Options.RegularsOnly" <> Some (JBool true))
    /\ (demo_values !! OneLife = Some (JBool true) -> d' !! OneLife = Some (JBool true)).
Proof.
  exact (@accepted_settings_consistent demo_revision demo_json demo_keys demo_keys_ok demo_keys_apart demo_schema_keys false false "r2" demo_patch demo_call
           demo_file demo_answer demo_written demo_values demo_file_values demo_conforms demo_result_eq).
Defined.

(** Twelve hours after eight in the evening. *)
Example demo_next : ws_Values demo_answer !! NextReset_key = Some (JStr "2026-01-11T08:00:00Z").
Proof. vm_compute. reflexivity. Qed.

Lemma secrets_never_shown_witness :
  web_values true (<["Discord.Token" := JStr "abc"]> ∅) = web_values true (<["Discord.Token" := JStr "xyz"]> ∅).
Proof. apply secrets_never_shown; [left; vm_compute; by left|reflexivity]. Defined.

Lemma refused_patch_changes_nothing_witness :
  (@WebPatch demo_revision demo_json false false "r2" [("Callsign", "true")] demo_call demo_file).2 = demo_file.
Proof.
  apply (@refused_patch_changes_nothing demo_revision demo_json false false "r2" [("Callsign", "true")] demo_call demo_file
           "Callsign is not editable with your permissions"). vm_compute. reflexivity.
Defined.
End WebDemo.
