(* ===== verification/VoteMap.v ===== *)
(** * Map votes: [src/fact/voteMap.go]

    The vote box, the tally and the whole vote, with what it answers and sends.  The
    rights of the voter come from Discord and the save from the disk: they are what
    [vote_input] says. *)
From Stdlib Require Import Ascii.
From S2P Require Import Prelude.
From S2P Require Import GoInt.
From S2P Require Import GoString.
From S2P Require Import GoTime.

(** ** The vote box: [src/glob/struct.go] *)
Record MapVoteData := mkVote {
  v_Name : string; v_DiscID : string; v_Moderator : bool; v_Supporter : bool; v_Veteran : bool;
  v_TotalVotes : Z; v_Selection : string; v_NumChanges : Z; v_Time : time; v_Voided : bool; v_Expired : bool }.
#[export] Instance MapVoteData_eq_dec : EqDecision MapVoteData.
Proof. solve_decision. Defined.
#[export] Instance MapVoteData_settable : Settable MapVoteData := mkSettable (fun r =>
  mkVote (v_Name r) (v_DiscID r) (v_Moderator r) (v_Supporter r) (v_Veteran r) (v_TotalVotes r) (v_Selection r)
    (v_NumChanges r) (v_Time r) (v_Voided r) (v_Expired r)).

Record VoteTallyData := mkTally { t_Selection : string; t_Count : Z }.
#[export] Instance VoteTallyData_eq_dec : EqDecision VoteTallyData.
Proof. solve_decision. Defined.

Record VoteContainerData := mkBox {
  Votes : list MapVoteData; Tally : list VoteTallyData; LastMapChange : time; NumChanges : Z }.
#[export] Instance VoteContainerData_settable : Settable VoteContainerData := mkSettable (fun r =>
  mkBox (Votes r) (Tally r) (LastMapChange r) (NumChanges r)).

(** ** Constants: [src/constants/consts.go] *)
Definition VotesNeeded : Z := 2.
Definition MapCooldownMins : Z := 1.
Definition VoteCooldown : Z := 5.
Definition VoteExpire : Z := 6.
Definition MaxVoteChanges : Z := 2.
Definition MaxVotesPerMap : Z := 10.

Definition Since (now t : time) : duration := Sub now t.

(** ** The tally *)
Definition privileged (v : MapVoteData) : bool := v_Moderator v || v_Supporter v || v_Veteran v.
Definition weight (v : MapVoteData) : Z := if privileged v then 2 else 1.
Definition live (v : MapVoteData) : bool := negb (v_Voided v) && negb (v_Expired v).

Definition PrintVote (now : time) (v : MapVoteData) : string :=
  let '(typeStr, points) :=
    if v_Moderator v then (" (Moderator)", 2) else if v_Supporter v then (" (Supporter)", 2) else ("", 1) in
  v_Name v +:+ ": Points: " +:+ Itoa points +:+ ": " +:+ v_Selection v +:+ " (" +:+
  duration_String (Round (Since now (v_Time v)) Second) +:+ " ago)" +:+ typeStr.

(** The first pass over the votes: what becomes of a vote, its line, and its points. *)
Definition newline : string := of_bytes [byte_of 10].

Definition stale (now : time) (v : MapVoteData) : bool := (VoteExpire * Hour <? Since now (v_Time v)) || v_Expired v.

Definition tally_vote (now : time) (v : MapVoteData) : MapVoteData * string * Z :=
  if v_Voided v then (v <| v_NumChanges := 0 |>, PrintVote now v +:+ " (VOID)" +:+ newline, 0)
  else if stale now v then
    (v <| v_Expired := true |> <| v_NumChanges := 0 |>, PrintVote now v +:+ " (EXPIRED)" +:+ newline, 0)
  else (v, PrintVote now v +:+ newline, weight v).

Fixpoint tally_votes (now : time) (l : list MapVoteData) : list MapVoteData * string * Z :=
  match l with
  | [] => ([], "", 0)
  | v :: l =>
      let '(v, s, n) := tally_vote now v in
      let '(l, s', n') := tally_votes now l in
      (v :: l, s +:+ s', n + n')
  end.

(** The second pass: a selection that is in the tally already is counted there,
    wherever it occurs. *)
Definition tally_add (tally : list VoteTallyData) (v : MapVoteData) : list VoteTallyData :=
  if negb (live v) then tally
  else if existsb (fun a => bool_decide (v_Selection v = t_Selection a)) tally then
    (fun a => if bool_decide (v_Selection v = t_Selection a) then mkTally (t_Selection a) (t_Count a + weight v) else a) <$> tally
  else tally ++ [mkTally (v_Selection v) (weight v)].

Definition recount (l : list MapVoteData) : list VoteTallyData := foldl tally_add [] l.

(** [regular] is the name of the role in upper case. *)
Definition TallyMapVotes (regular : string) (now : time) (b : VoteContainerData) : string * Z * VoteContainerData :=
  let '(votes, lines, validVotes) := tally_votes now (Votes b) in
  let buf := if bool_decide (votes = []) then "" else "VOTE-MAP: votes cast" +:+ newline +:+ "```" +:+ lines +:+ " ```" +:+ newline in
  let buf := buf +:+ "`Points: " +:+ Itoa validVotes +:+ " -- (need " +:+ Itoa VotesNeeded +:+ " of same selection)`" +:+ newline in
  let buf := buf +:+ "If you have the `" +:+ regular +:+ "` Discord role, use `/vote-map` to vote." in
  (buf, validVotes, b <| Votes := votes |> <| Tally := recount votes |>).

Definition VoidAllVotes (b : VoteContainerData) : VoteContainerData := b <| Votes := [] |> <| Tally := [] |>.

(** ** The vote *)
Record vote_input := {
  i_now : time; i_arg : string; i_id : string; i_username : string;
  i_running : bool;              (* FactorioBooted && FactIsRunning *)
  i_Veteran : bool; i_Regular : bool; i_Moderator : bool; i_Admin : bool; i_Supporter : bool;
  i_notfound : bool;             (* os.Stat says the save does not exist *)
  i_good : bool;                 (* CheckSave *)
  i_callsign : string; i_server : string; i_regularRole : string }.

Inductive vote_effect :=
  | Respond (msg : string)       (* the ephemeral response *)
  | LogGameCMS (msg : string)
  | LogCMS (msg : string)
  | ReportStatus (msg : string)
  | FactChat (msg : string)
  | WriteVotes (b : VoteContainerData)
  | DoChangeMap (arg : string).

Section vote.
Context `{UnicodeTables}.
Implicit Types (i : vote_input) (b : VoteContainerData).

Definition same_voter i (v : MapVoteData) : bool := EqualFold (v_DiscID v) (i_id i) && EqualFold (v_Name v) (i_username i).

(** The guard for names that are not to be voted for, as it is written. *)
Definition bypasses i (autoSaveStr : string) : bool :=
  negb (HasSuffix autoSaveStr ".zip") && HasSuffix autoSaveStr "tmp.zip" && HasSuffix autoSaveStr (i_server i +:+ "_new.zip").

Definition may_vote i : bool := i_Veteran i || i_Regular i || i_Moderator i || i_Admin i.

(** The checks before any vote is looked at: the answer of the one that fails. *)
Definition vote_checks i b : option string :=
  if negb (i_running i) then Some "Factorio is not running."
  else if negb (may_vote i) then
    Some ("You must have the `" +:+ i_regularRole i +:+ "` Discord role to use this command. See /register and the read-this-first channel for more info.")
  else
    let autoSaveStr := i_arg i +:+ ".zip" in
    let notfound := i_notfound i || bypasses i autoSaveStr in
    let special := EqualFold (i_arg i) "new-map" || EqualFold (i_arg i) "skip-reset" in
    if negb special && notfound then Some "That save doesn't exist."
    else if negb special && negb (i_good i) then
      Some ("The save game '" +:+ autoSaveStr +:+ "' does not appear to be valid.")
    else
      let cooldown := MapCooldownMins * Minute in
      if negb (IsZero (LastMapChange b)) && (Since (i_now i) (LastMapChange b) <? cooldown) then
        let left := swrap 64 (Round cooldown Second - Since (i_now i) (LastMapChange b)) in
        Some ("Votes are not allowed for another " +:+ duration_String (Round left Second) +:+ ". (cooldown)")
      else None.

Definition change_vote i (v : MapVoteData) : MapVoteData :=
  v <| v_Selection := i_arg i |> <| v_Time := i_now i |> <| v_Voided := false |> <| v_Expired := false |>
    <| v_NumChanges ::= Z.add 1 |> <| v_TotalVotes ::= Z.add 1 |>.

Definition new_vote i : MapVoteData :=
  mkVote (i_username i) (i_id i) (i_Moderator i) (i_Supporter i) (i_Veteran i) 0 (i_arg i) 0 (i_now i) false false.

(** What a vote of this voter does to the votes: the votes with what is said, or the
    refusal.  The voter's vote is the first that carries the name and the ID. *)
Definition cast i (votes : list MapVoteData) : result string (list MapVoteData * list vote_effect) :=
  let has verb := [Respond ("You have " +:+ verb +:+ i_arg i)] in
  let voted := [Respond ("You have voted for: " +:+ i_arg i); LogGameCMS (i_username i +:+ " has voted for: " +:+ i_arg i)] in
  match list_find (fun v => same_voter i v = true) votes with
  | None => Ok (votes ++ [new_vote i], voted)
  | Some (vpos, v) =>
      let left := swrap 64 (Round (VoteCooldown * Minute) Second - Since (i_now i) (v_Time v)) in
      if negb (bool_decide (v_Selection v = i_arg i)) && negb (v_Voided v) && (v_NumChanges v <? MaxVoteChanges) then
        Ok (<[vpos := change_vote i v]> votes,
            has "changed your vote to: " ++ [LogGameCMS (i_username i +:+ " has changed their vote to: " +:+ i_arg i)])
      else if MaxVoteChanges <=? v_NumChanges v then Err "You can not change your vote anymore until it expires."
      else if 0 <? left then Err ("You can not vote again yet, you must wait " +:+ duration_String (Round left Second) +:+ ".")
      else if negb (i_Moderator i) && (MaxVotesPerMap <=? v_TotalVotes v) then
        Err "You have used all of your allotted votes for this cycle."
      else Ok (<[vpos := new_vote i <| v_TotalVotes ::= Z.add 1 |>]> votes, voted)
  end.

(** The selection the tally elects: the first that has the votes. *)
Definition elected b : option string :=
  t_Selection <$> head (filter (fun t => VotesNeeded <= t_Count t) (Tally b)).

(** [CheckVote]. *)
Definition CheckVote i b : VoteContainerData * list vote_effect :=
  if EqualFold (i_arg i) "already-skipped" then (b, [])
  else
    match vote_checks i b with
    | Some refusal => (b, [Respond refusal])
    | None =>
        let '(_, _, b) := TallyMapVotes (i_regularRole i) (i_now i) b in
        match cast i (Votes b) with
        | Err refusal => (b, [Respond refusal])
        | Ok (votes, said) =>
            let '(str, count, b) := TallyMapVotes (i_regularRole i) (i_now i) (b <| Votes := votes |>) in
            let said := said ++ (if 0 <? count then [LogCMS str] else []) in
            match elected b with
            | None => (b, said)
            | Some chosenMap =>
                let msg := i_callsign i +:+ "-" +:+ i_server i +:+ ": Players voted for: " +:+ chosenMap in
                let b := b <| LastMapChange := Time_Round (i_now i) Second |> <| NumChanges ::= Z.add 1 |> in
                let b := VoidAllVotes b in
                (b, said ++ [ReportStatus msg; FactChat msg; WriteVotes b; LogGameCMS ("VOTE MAP: " +:+ chosenMap); DoChangeMap chosenMap])
            end
        end
    end.

(** ** The moderators' commands: [src/commands/user/voteMap.go] *)
Definition erase_all (regular : string) (now : time) b : VoteContainerData := (TallyMapVotes regular now (VoidAllVotes b)).2.
Definition void_all (regular : string) (now : time) b : VoteContainerData :=
  (TallyMapVotes regular now (b <| Votes ::= fmap (fun v => v <| v_Voided := true |>) |>)).2.
End vote.

(** * The vote counts every voter once

    The tally is the sum of the points of the live votes, selection by selection; a
    map changes only when its selection has the votes, and then every vote is void;
    and no member has two votes while the user names stay. *)
#[local] Opaque duration_String PrintVote Itoa.

(** ** The tally *)

(** The points of a selection: what the count should be. *)
Definition points (sel : string) (l : list MapVoteData) : Z :=
  foldr (fun v n => (if live v && bool_decide (v_Selection v = sel) then weight v else 0) + n) 0 l.
Definition total_points (l : list MapVoteData) : Z := foldr (fun v n => (if live v then weight v else 0) + n) 0 l.

Lemma points_app sel l k : points sel (l ++ k) = points sel l + points sel k.
Proof. unfold points. induction l as [|v l IH]; simpl; [done|]. rewrite IH. lia. Qed.

Definition voted_for (sel : string) (l : list MapVoteData) : Prop := exists v, v ∈ l /\ live v = true /\ v_Selection v = sel.

(** The tally of a list of votes: one entry for each selection, with its points. *)
Definition counts (tally : list VoteTallyData) (l : list MapVoteData) : Prop :=
  NoDup (t_Selection <$> tally) /\ forall sel n, mkTally sel n ∈ tally <-> voted_for sel l /\ n = points sel l.

Lemma voted_for_snoc sel l v : voted_for sel (l ++ [v]) <-> voted_for sel l \/ live v = true /\ v_Selection v = sel.
Proof.
  unfold voted_for. split.
  - intros (u & Hu & ? & ?). apply elem_of_app in Hu as [?| ->%list_elem_of_singleton]; [left; eauto|by right].
  - intros [(u & ? & ? & ?)|[? ?]]; [exists u|exists v]; (split; [|done]); apply elem_of_app; [by left|right; by left].
Qed.

Lemma tally_add_selections tally v :
  t_Selection <$> tally_add tally v = t_Selection <$> tally \/
  t_Selection <$> tally_add tally v = (t_Selection <$> tally) ++ [v_Selection v] /\ v_Selection v ∉ (t_Selection <$> tally).
Proof.
  unfold tally_add. destruct (negb (live v)); [by left|]. destruct (existsb _ tally) eqn:E.
  - left. rewrite <-list_fmap_compose. apply list_fmap_ext. intros ? a _. unfold compose. by case_bool_decide.
  - right. rewrite fmap_app. split; [done|]. intros (a & Ha & Hin)%list_elem_of_fmap.
    assert (Ht : existsb (fun a => bool_decide (v_Selection v = t_Selection a)) tally = true).
    { apply existsb_exists. exists a. split; [by apply list_elem_of_In|by apply bool_decide_eq_true]. }
    congruence.
Qed.

Lemma counts_add tally l v : counts tally l -> counts (tally_add tally v) (l ++ [v]).
Proof.
  intros [Hnd Hc]. split.
  - destruct (tally_add_selections tally v) as [->|[-> Hn]]; [done|].
    apply NoDup_app. split_and!; [done| |by apply NoDup_singleton]. by intros x Hx ->%list_elem_of_singleton.
  - intros sel n. rewrite voted_for_snoc, points_app. unfold tally_add. simpl.
    destruct (live v) eqn:Hl; cbn [negb andb]; [|rewrite Hc, !Z.add_0_r; naive_solver].
    destruct (existsb _ tally) eqn:E.
    + apply existsb_exists in E as ([s0 n0] & Hin%list_elem_of_In & Hs%bool_decide_eq_true). simpl in Hs. subst s0.
      rewrite list_elem_of_fmap. split.
      * intros ([s1 n1] & He & H1). simpl in He. apply Hc in H1 as [Hv ->].
        case_bool_decide as Hs; injection He as -> ->; (split; [by left|]); case_bool_decide; try done; lia.
      * intros [Hv ->]. case_bool_decide as Hs.
        -- subst sel. exists (mkTally (v_Selection v) (points (v_Selection v) l)). simpl. rewrite bool_decide_eq_true_2 by done.
           split; [f_equal; lia|]. apply Hc. split; [|done]. by apply Hc in Hin as [? _].
        -- exists (mkTally sel (points sel l)). simpl. rewrite bool_decide_eq_false_2 by done. split; [f_equal; lia|].
           apply Hc. split; [|done]. by destruct Hv as [|[_ ?]].
    + assert (Hno : forall a, a ∈ tally -> v_Selection v <> t_Selection a).
      { intros a Ha Heq. apply Bool.not_true_iff_false in E. apply E, existsb_exists. exists a.
        split; [by apply list_elem_of_In|by apply bool_decide_eq_true]. }
      assert (Hzero : ~ voted_for (v_Selection v) l) by (intros Hv; by apply (Hno (mkTally (v_Selection v) (points (v_Selection v) l))); [apply Hc|]).
      assert (Hp : points (v_Selection v) l = 0).
      { clear -Hzero. induction l as [|u l IH]; simpl; [done|]. rewrite IH.
        - destruct (live u && bool_decide (v_Selection u = v_Selection v)) eqn:E; [|done]. apply andb_true_iff in E as [? ?%bool_decide_eq_true].
          exfalso. apply Hzero. exists u. split; [by left|done].
        - intros (x & ? & ?). apply Hzero. exists x. split; [by right|done]. }
      rewrite elem_of_app, list_elem_of_singleton, Hc. case_bool_decide as Hs.
      * subst sel. rewrite Hp. split.
        -- intros [[Hv _]|[= ->]]; [done|]. split; [by right|lia].
        -- intros [_ ->]. right. f_equal. lia.
      * split; [intros [[? ->]|[= -> _]]; [split; [by left|lia]|done]|]. intros [[?|[_ ?]] ->]; [left; split; [done|lia]|done].
Qed.

Lemma recount_counts l : counts (recount l) l.
Proof.
  induction l as [|v l IH] using rev_ind.
  - split; [by apply NoDup_nil_2|]. intros sel n. split; [by intros ?%not_elem_of_nil|]. by intros [(v & ?%not_elem_of_nil & _) _].
  - unfold recount. rewrite foldl_app. by apply counts_add.
Qed.

(** Once tallied, a vote is live exactly when it is neither void nor stale. *)
Lemma tally_vote_points now v :
  let '(v', _, n) := tally_vote now v in n = (if live v' then weight v' else 0) /\
  live v' = negb (v_Voided v) && negb (stale now v) /\ v_Selection v' = v_Selection v /\ weight v' = weight v /\
  v_DiscID v' = v_DiscID v /\ v_Name v' = v_Name v.
Proof.
  unfold tally_vote, live. destruct (v_Voided v) eqn:Hv; cbn; [by rewrite Hv|].
  unfold stale. destruct (v_Expired v) eqn:He; rewrite ?orb_true_r, ?orb_false_r; cbn; [by rewrite Hv|].
  destruct (_ <? _); cbn; rewrite ?Hv, ?He; done.
Qed.

Lemma tally_votes_points now l : let '(l', _, n) := tally_votes now l in n = total_points l' /\ length l' = length l.
Proof.
  induction l as [|v l IH]; simpl; [done|]. pose proof (tally_vote_points now v) as Hv.
  destruct (tally_vote now v) as [[v' s] n]. destruct (tally_votes now l) as [[l' s'] n']. simpl. destruct IH as [-> ->]. split; [lia|done].
Qed.

(** C5: (equivalence) the tally is the plain count: after a tally every selection that a
    live vote is for has exactly one entry, whose number is the sum of the points of the
    live votes for it, two for a moderator, a supporter or a veteran and one for anyone
    else; no other selection has an entry; and the number that is shown is the sum. *)
Theorem tally_is_the_count regular now b :
  let '(_, validVotes, b') := TallyMapVotes regular now b in
  counts (Tally b') (Votes b') /\ validVotes = total_points (Votes b') /\ length (Votes b') = length (Votes b).
Proof.
  unfold TallyMapVotes. pose proof (tally_votes_points now (Votes b)) as Hp.
  destruct (tally_votes now (Votes b)) as [[votes lines] n]. destruct Hp as [-> Hl]. simpl. split_and!; [apply recount_counts|done..].
Qed.

Section vote.
Context `{UnicodeTables}.
Implicit Types (i : vote_input) (b : VoteContainerData).

(** ** The election *)
Lemma elected_points b sel : counts (Tally b) (Votes b) -> elected b = Some sel -> VotesNeeded <= points sel (Votes b) /\ voted_for sel (Votes b).
Proof.
  intros [_ Hc]. unfold elected. intros He. apply fmap_Some in He as ([s n] & Hh & ->). simpl.
  assert (Hin : mkTally s n ∈ filter (fun t => VotesNeeded <= t_Count t) (Tally b)).
  { destruct (filter _ _); [done|]. injection Hh as ->. by left. }
  apply list_elem_of_filter in Hin as [Hn Hin]. simpl in Hn. apply Hc in Hin as [Hv ->]. done.
Qed.

Lemma not_elected b sel : counts (Tally b) (Votes b) -> elected b = None -> points sel (Votes b) < VotesNeeded.
Proof.
  intros [_ Hc] He. destruct (Z.lt_ge_cases (points sel (Votes b)) VotesNeeded) as [|Hge]; [done|]. exfalso.
  assert (Hv : voted_for sel (Votes b)).
  { revert Hge. clear. intros Hge. assert (Hp : points sel (Votes b) <> 0) by (unfold VotesNeeded in Hge; lia). revert Hp.
    generalize (Votes b) as l. induction l as [|u l IH]; simpl; [done|].
    destruct (live u && bool_decide (v_Selection u = sel)) eqn:E.
    - intros _. apply andb_true_iff in E as [? ?%bool_decide_eq_true]. exists u. split; [by left|done].
    - intros (x & ? & ?)%IH. exists x. split; [by right|done]. }
  unfold elected in He. apply fmap_None in He.
  assert (Hin : mkTally sel (points sel (Votes b)) ∈ filter (fun t => VotesNeeded <= t_Count t) (Tally b)).
  { apply list_elem_of_filter. split; [done|]. apply Hc. done. }
  destruct (filter _ _); [by apply not_elem_of_nil in Hin|done].
Qed.

(** (safety) the map changes exactly when a selection has the votes: a vote changes the
    map only to a selection that has at least two points among the votes as they stand
    after it, at most once, and then no vote is left and the cooldown has started; and
    a vote that is accepted and changes nothing leaves no selection with the votes. *)
Theorem map_changes_when_elected i b :
  let '(b', effects) := CheckVote i b in
  (exists chosen votes, effects = take (length effects - 1) effects ++ [DoChangeMap chosen] /\
     VotesNeeded <= points chosen votes /\ voted_for chosen votes /\
     Votes b' = [] /\ Tally b' = [] /\ LastMapChange b' = Time_Round (i_now i) Second /\ NumChanges b' = NumChanges b + 1) \/
  ((forall m, DoChangeMap m ∉ effects) /\ LastMapChange b' = LastMapChange b /\ NumChanges b' = NumChanges b /\
   ((exists refusal, effects = [Respond refusal]) \/ effects = [] \/ forall sel, points sel (Votes b') < VotesNeeded)).
Proof.
  unfold CheckVote. destruct (EqualFold (i_arg i) "already-skipped").
  { right. split_and!; [by intros m ?%not_elem_of_nil|done..|by right; left]. }
  destruct (vote_checks i b) as [refusal|].
  { right. split_and!; [by intros m ?%list_elem_of_singleton|done..|left; by eexists]. }
  destruct (TallyMapVotes (i_regularRole i) (i_now i) b) as [[s1 n1] b1] eqn:E1.
  assert (Hb1 : LastMapChange b1 = LastMapChange b /\ NumChanges b1 = NumChanges b).
  { unfold TallyMapVotes in E1. destruct (tally_votes _ _) as [[? ?] ?]. by injection E1 as _ _ <-. }
  destruct (cast i (Votes b1)) as [[votes said]|refusal] eqn:Ec.
  2: { right. split_and!; [by intros m ?%list_elem_of_singleton|apply Hb1..|left; by eexists]. }
  assert (Hsaid : forall m, DoChangeMap m ∉ said).
  { intros m Hm. unfold cast in Ec. destruct (list_find _ _) as [[vpos v]|]; [|injection Ec as _ <-; set_solver].
    repeat case_match; try done; injection Ec as _ <-; set_solver. }
  pose proof (tally_is_the_count (i_regularRole i) (i_now i) (b1 <| Votes := votes |>)) as Ht.
  destruct (TallyMapVotes (i_regularRole i) (i_now i) (b1 <| Votes := votes |>)) as [[str count] b2] eqn:E2.
  destruct Ht as (Hcounts & _ & _).
  assert (Hb2 : LastMapChange b2 = LastMapChange b /\ NumChanges b2 = NumChanges b).
  { unfold TallyMapVotes in E2. destruct (tally_votes _ _) as [[? ?] ?]. injection E2 as _ _ <-. apply Hb1. }
  assert (Hsaid' : forall m, DoChangeMap m ∉ said ++ (if 0 <? count then [LogCMS str] else [])).
  { intros m [Hm|Hm]%elem_of_app; [by eapply Hsaid|]. destruct (0 <? count); [by apply list_elem_of_singleton in Hm|by apply not_elem_of_nil in Hm]. }
  destruct (elected b2) as [chosen|] eqn:Ee.
  - left. exists chosen, (Votes b2). destruct (elected_points b2 chosen Hcounts Ee) as [Hp Hv].
    split_and!; [|done|done|done|done|done|simpl; destruct Hb2 as [_ ->]; lia].
    generalize (said ++ (if 0 <? count then [LogCMS str] else [])) as l. intros l.
    rewrite !length_app. simpl. replace (length l + 5 - 1)%nat with (length l + 4)%nat by lia.
    by rewrite take_app_add, <-app_assoc.
  - right. split_and!; [done|apply Hb2..|]. right. right. intros sel. by apply not_elected.
Qed.

(** ** One voter, one vote *)
Definition ident : Type := string * string.
Definition same_ident (x y : ident) : bool := EqualFold x.1 y.1 && EqualFold x.2 y.2.
Definition ident_of (v : MapVoteData) : ident := (v_DiscID v, v_Name v).

(** Names that differ only in case are the same name: what Unicode's folding promises. *)
Class FoldEquivalence : Prop := fold_equivalence : Equivalence (fun s t => EqualFold s t = true).

Definition distinct (l : list ident) : Prop :=
  forall j k x y, l !! j = Some x -> l !! k = Some y -> j <> k -> same_ident x y = false.

Section distinct.
Context {FE : FoldEquivalence}.

Lemma same_ident_refl x : same_ident x x = true.
Proof. destruct fold_equivalence as [Hr _ _]. apply andb_true_iff. split; apply Hr. Qed.

Lemma same_ident_flip x y : same_ident x y = true -> same_ident y x = true.
Proof.
  destruct fold_equivalence as [_ Hs _]. unfold same_ident. intros [? ?]%andb_true_iff. apply andb_true_iff. split; by apply Hs.
Qed.

Lemma same_ident_trans x y z : same_ident x y = true -> same_ident y z = true -> same_ident x z = true.
Proof.
  destruct fold_equivalence as [_ _ Ht]. unfold same_ident. intros [? ?]%andb_true_iff [? ?]%andb_true_iff.
  apply andb_true_iff. split; by eapply Ht.
Qed.

Lemma same_ident_sym x y : same_ident x y = same_ident y x.
Proof. apply eq_true_iff_eq. split; apply same_ident_flip. Qed.

Lemma same_ident_replace x y z : same_ident x y = true -> same_ident y z = same_ident x z.
Proof.
  intros Hxy. apply eq_true_iff_eq. split; intros Hz; [by eapply same_ident_trans|].
  eapply same_ident_trans; [by apply same_ident_flip|done].
Qed.

Lemma distinct_insert l p x y : distinct l -> l !! p = Some x -> same_ident x y = true -> distinct (<[p := y]> l).
Proof.
  intros Hd Hp Hxy j k u v Hu Hv Hne.
  apply list_lookup_insert_Some in Hu as [(<- & <- & _)|[Hj Hu]]; apply list_lookup_insert_Some in Hv as [(<- & <- & _)|[Hk Hv]].
  - done.
  - rewrite (same_ident_replace x); [|done]. by eapply Hd.
  - rewrite same_ident_sym, (same_ident_replace x); [|done]. by eapply Hd.
  - by eapply Hd.
Qed.

Lemma distinct_snoc l y : distinct l -> (forall x, x ∈ l -> same_ident x y = false) -> distinct (l ++ [y]).
Proof.
  intros Hd Hy j k u v Hu Hv Hne.
  apply lookup_app_Some in Hu as [Hu|[Hju Hu]]; apply lookup_app_Some in Hv as [Hv|[Hkv Hv]].
  - by eapply Hd.
  - apply list_lookup_singleton_Some in Hv as [_ <-]. apply Hy. by eapply list_elem_of_lookup_2.
  - apply list_lookup_singleton_Some in Hu as [_ <-]. rewrite same_ident_sym. apply Hy. by eapply list_elem_of_lookup_2.
  - apply list_lookup_singleton_Some in Hu as [? _]. apply list_lookup_singleton_Some in Hv as [? _]. lia.
Qed.

Lemma tally_idents regular now b : ident_of <$> Votes (TallyMapVotes regular now b).2 = ident_of <$> Votes b.
Proof.
  assert (Hl : forall l, ident_of <$> (tally_votes now l).1.1 = ident_of <$> l).
  { induction l as [|v l IH]; simpl; [done|]. pose proof (tally_vote_points now v) as Hv.
    destruct (tally_vote now v) as [[v' s] n]. destruct (tally_votes now l) as [[l' s'] n']. simpl in *.
    destruct Hv as (_ & _ & _ & _ & Ed & En). f_equal; [unfold ident_of; by rewrite Ed, En|exact IH]. }
  unfold TallyMapVotes. specialize (Hl (Votes b)). by destruct (tally_votes now (Votes b)) as [[votes lines] n].
Qed.

Lemma cast_distinct i votes votes' said : cast i votes = Ok (votes', said) -> distinct (ident_of <$> votes) -> distinct (ident_of <$> votes').
Proof.
  unfold cast. intros Hc Hd. destruct (list_find _ votes) as [[vpos v]|] eqn:Ef.
  - apply list_find_Some in Ef as (Hv & Hs & _).
    assert (Hid : (ident_of <$> votes) !! vpos = Some (ident_of v)) by by rewrite list_lookup_fmap, Hv.
    assert (Hin : forall w, same_ident (ident_of v) (ident_of w) = true -> distinct (ident_of <$> <[vpos := w]> votes)).
    { intros w Hw. rewrite list_fmap_insert. by eapply distinct_insert. }
    repeat case_match; try done; injection Hc as <- _; apply Hin; [apply same_ident_refl|exact Hs].
  - injection Hc as <- _. rewrite fmap_app. apply distinct_snoc; [done|]. intros x (v & -> & Hv)%list_elem_of_fmap.
    apply list_find_None in Ef. rewrite Forall_forall in Ef. specialize (Ef v Hv). by apply not_true_is_false.
Qed.

(** The box from the first map on, with the calls of [CheckVote] there were. *)
Inductive box_run (regular : string) : list vote_input -> VoteContainerData -> Prop :=
  | box_init now : box_run regular [] (mkBox [] [] now 0)
  | box_vote calls b i : box_run regular calls b -> box_run regular (calls ++ [i]) (CheckVote i b).1
  | box_erase calls b now : box_run regular calls b -> box_run regular calls (erase_all regular now b)
  | box_void calls b now : box_run regular calls b -> box_run regular calls (void_all regular now b)
  | box_map calls b now : box_run regular calls b -> box_run regular calls (b <| LastMapChange := now |>).

(** The voter of a vote is one of these members. *)
Definition cast_by (calls : list vote_input) (x : ident) : Prop :=
  exists i, i ∈ calls /\ i_running i = true /\ may_vote i = true /\ x = (i_id i, i_username i).

Lemma cast_by_more calls i x : cast_by calls x -> cast_by (calls ++ [i]) x.
Proof. intros (j & Hj & ?). exists j. split; [|done]. apply elem_of_app. by left. Qed.

Lemma cast_from i votes votes' said x :
  cast i votes = Ok (votes', said) -> x ∈ ident_of <$> votes' -> x ∈ ident_of <$> votes \/ x = (i_id i, i_username i).
Proof.
  unfold cast. intros Hc Hx. destruct (list_find _ votes) as [[vpos v]|] eqn:Ef.
  - apply list_find_Some in Ef as (Hv & _). assert (Hid : ident_of v ∈ ident_of <$> votes) by (apply list_elem_of_fmap; exists v; split; [done|by eapply list_elem_of_lookup_2]).
    assert (Hin : forall w, x ∈ ident_of <$> <[vpos := w]> votes -> x ∈ ident_of <$> votes \/ x = ident_of w).
    { intros w (u & -> & (k & Hk)%list_elem_of_lookup)%list_elem_of_fmap.
      apply list_lookup_insert_Some in Hk as [(_ & -> & _)|[_ Hk]]; [by right|]. left. apply list_elem_of_fmap. exists u. split; [done|by eapply list_elem_of_lookup_2]. }
    repeat case_match; try done; injection Hc as <- _; apply Hin in Hx as [?|Hx]; auto; left; by rewrite Hx.
  - injection Hc as <- _. rewrite fmap_app in Hx. apply elem_of_app in Hx as [?| ->%list_elem_of_singleton]; auto.
Qed.

Lemma checked_vote i b : vote_checks i b = None -> i_running i = true /\ may_vote i = true.
Proof. unfold vote_checks. destruct (i_running i), (may_vote i); done. Qed.

Lemma CheckVote_distinct i b : distinct (ident_of <$> Votes b) -> distinct (ident_of <$> Votes (CheckVote i b).1).
Proof.
  intros Hd. unfold CheckVote. destruct (EqualFold (i_arg i) _); [done|]. destruct (vote_checks i b); [done|].
  pose proof (tally_idents (i_regularRole i) (i_now i) b) as E1.
  destruct (TallyMapVotes (i_regularRole i) (i_now i) b) as [[s1 n1] b1]. cbn [snd] in E1. rewrite <-E1 in Hd.
  destruct (cast i (Votes b1)) as [[votes said]|] eqn:Ec; [|done].
  pose proof (tally_idents (i_regularRole i) (i_now i) (b1 <| Votes := votes |>)) as E2.
  destruct (TallyMapVotes (i_regularRole i) (i_now i) (b1 <| Votes := votes |>)) as [[str count] b2]. cbn [snd] in E2.
  destruct (elected b2) as [chosen|]; cbn [fst].
  - by intros j k x y Hx.
  - rewrite E2. by eapply cast_distinct.
Qed.

Lemma CheckVote_from calls i b x :
  (forall y, y ∈ ident_of <$> Votes b -> cast_by calls y) -> x ∈ ident_of <$> Votes (CheckVote i b).1 -> cast_by (calls ++ [i]) x.
Proof.
  intros Hb. assert (Hb' : x ∈ ident_of <$> Votes b -> cast_by (calls ++ [i]) x) by (intros ?; by apply cast_by_more, Hb).
  unfold CheckVote. destruct (EqualFold (i_arg i) _); [done|]. destruct (vote_checks i b) eqn:Hv; [done|].
  apply checked_vote in Hv as [Hr Hm].
  pose proof (tally_idents (i_regularRole i) (i_now i) b) as E1.
  destruct (TallyMapVotes (i_regularRole i) (i_now i) b) as [[s1 n1] b1]. cbn [snd] in E1. rewrite <-E1 in Hb'.
  destruct (cast i (Votes b1)) as [[votes said]|] eqn:Ec; [|done].
  pose proof (tally_idents (i_regularRole i) (i_now i) (b1 <| Votes := votes |>)) as E2.
  destruct (TallyMapVotes (i_regularRole i) (i_now i) (b1 <| Votes := votes |>)) as [[str count] b2]. cbn [snd] in E2.
  destruct (elected b2) as [chosen|]; cbn [fst].
  - simpl. by intros ?%elem_of_nil.
  - rewrite E2. intros [?| ->]%(cast_from i (Votes b1) votes said); [auto| |done].
    exists i. split_and!; [|done..]. apply elem_of_app. right. by apply list_elem_of_singleton.
Qed.

Lemma box_run_inv regular calls b :
  box_run regular calls b -> distinct (ident_of <$> Votes b) /\ forall x, x ∈ ident_of <$> Votes b -> cast_by calls x.
Proof.
  induction 1 as [now|calls b i _ [Hd Hf]|calls b now _ [Hd Hf]|calls b now _ [Hd Hf]|calls b now _ [Hd Hf]].
  - split; [by intros j k x y Hx|by intros x ?%elem_of_nil].
  - split; [by apply CheckVote_distinct|]. intros x. by apply CheckVote_from.
  - unfold erase_all. rewrite tally_idents. split; [by intros j k x y Hx|by intros x ?%elem_of_nil].
  - unfold void_all. rewrite tally_idents. simpl. by rewrite <-list_fmap_compose.
  - done.
Qed.

(** C6: (invariant) one member, one vote: every vote in the box was cast by a member who may
    vote, while the game ran, and as long as no member changes their user name between
    votes no two votes have the same Discord ID, however often members vote, change their
    vote or vote again after one expired or was voided.  (A member who does change it is
    counted twice: [VoteDemo.renamed_member_elects_alone].) *)
Theorem one_vote_per_member regular calls b :
  box_run regular calls b ->
  (forall x y, x ∈ calls -> y ∈ calls -> EqualFold (i_id x) (i_id y) = true -> EqualFold (i_username x) (i_username y) = true) ->
  (forall v, v ∈ Votes b -> exists i, i ∈ calls /\ i_running i = true /\ may_vote i = true /\ v_DiscID v = i_id i) /\
  (forall j k u v, Votes b !! j = Some u -> Votes b !! k = Some v -> j <> k -> EqualFold (v_DiscID u) (v_DiscID v) = false).
Proof.
  intros [Hd Hf]%box_run_inv Hkeep. assert (Hfrom : forall v, v ∈ Votes b -> cast_by calls (ident_of v)).
  { intros v Hv. apply Hf, list_elem_of_fmap. by exists v. }
  split.
  - intros v (i & ? & ? & ? & [= ? ?])%Hfrom. by exists i.
  - intros j k u v Hu Hv Hne. apply not_true_is_false. intros Hid.
    destruct (Hfrom u) as (x & Hx & _ & _ & [= Exi Exn]); [by eapply list_elem_of_lookup_2|].
    destruct (Hfrom v) as (y & Hy & _ & _ & [= Eyi Eyn]); [by eapply list_elem_of_lookup_2|].
    assert (Hs : same_ident (ident_of u) (ident_of v) = false)
      by (apply (Hd j k); [by rewrite list_lookup_fmap, Hu|by rewrite list_lookup_fmap, Hv|done]).
    unfold same_ident, ident_of in Hs. simpl in Hs. rewrite Hid, Exn, Eyn in Hs. simpl in Hs.
    rewrite Hkeep in Hs; [done..|]. by rewrite <-Exi, <-Eyi.
Qed.
End distinct.

(** ** What the code does not do *)

(** The guard for the names of temporary saves never rejects one: it asks for a name
    that both has and has not the suffix [.zip]. *)
Theorem temporary_saves_not_rejected i : bypasses i (i_arg i +:+ ".zip") = false.
Proof.
  unfold bypasses. assert (E : HasSuffix (i_arg i +:+ ".zip") ".zip" = true) by (apply HasSuffix_spec; by eexists). by rewrite E.
Qed.

(** A vote that is cast again starts its count anew: the limit on the votes of a user
    is never reached by casting. *)
Theorem recast_resets_count i votes vpos v votes' said :
  list_find (fun v => same_voter i v = true) votes = Some (vpos, v) -> v_Selection v = i_arg i ->
  cast i votes = Ok (votes', said) -> v_TotalVotes <$> votes' !! vpos = Some 1.
Proof.
  unfold cast. intros Hf Hs. rewrite Hf, bool_decide_eq_true_2 by done. simpl.
  apply list_find_Some in Hf as (Hv & _). apply lookup_lt_Some in Hv.
  repeat case_match; try done; intros [= <- _]; by rewrite list_lookup_insert_eq.
Qed.
End vote.

(** A veteran's vote counts two points and is printed as one. *)
Theorem veteran_points_misprinted now v :
  v_Veteran v = true -> v_Moderator v = false -> v_Supporter v = false ->
  weight v = 2 /\ exists rest, PrintVote now v = v_Name v +:+ ": Points: " +:+ "1" +:+ rest.
Proof.
  Transparent PrintVote. intros Hv Hm Hs. unfold weight, privileged, PrintVote. rewrite Hv, Hm, Hs. split; [done|].
  eexists. done.
Qed.

(** ** Two voters *)
Module VoteDemo.
#[local] Existing Instance ascii_tables.
Definition voter (n : Z) (id name arg : string) (vet : bool) : vote_input := {|
  i_now := (1700000000 + n) * Second; i_arg := arg; i_id := id; i_username := name; i_running := true;
  i_Veteran := vet; i_Regular := true; i_Moderator := false; i_Admin := false; i_Supporter := false;
  i_notfound := false; i_good := true; i_callsign := "a"; i_server := "map"; i_regularRole := "REGULARS" |}.
Definition box0 : VoteContainerData := mkBox [] [] zeroTime 0.
Definition one : VoteContainerData := Eval vm_compute in (CheckVote (voter 0 "1" "Ann" "old" false) box0).1.
Definition changed : VoteContainerData := Eval vm_compute in (CheckVote (voter 9 "1" "ann" "new" false) one).1.
Definition won : VoteContainerData * list vote_effect := Eval vm_compute in CheckVote (voter 20 "2" "Bob" "new" false) changed.

Example one_point : Tally changed = [mkTally "new" 1].
Proof. reflexivity. Qed.
Example two_points_change_the_map : last won.2 = Some (DoChangeMap "new") /\ Votes won.1 = [].
Proof. by split. Qed.
Example temporary_save_accepted : vote_checks (voter 0 "1" "Ann" "map_new" false) box0 = None.
Proof. vm_compute. reflexivity. Qed.

Lemma fold_ascii : FoldEquivalence.
Proof.
  assert (Hspec : forall s t, EqualFold s t = true <->
    (if all_bytes is_ascii_byte s && all_bytes is_ascii_byte t then map_bytes lower_byte s = map_bytes lower_byte t else s = t)).
  { intros s t. unfold EqualFold. destruct (_ && _); apply String.eqb_eq. }
  constructor.
  - intros s. apply Hspec. by destruct (_ && _).
  - intros s t Hst%Hspec. apply Hspec. rewrite andb_comm. by destruct (_ && _).
  - intros s t u Hst%Hspec Htu%Hspec. apply Hspec.
    destruct (all_bytes is_ascii_byte s) eqn:Es, (all_bytes is_ascii_byte t) eqn:Et, (all_bytes is_ascii_byte u) eqn:Eu; simpl in *; congruence.
Qed.

Definition both : VoteContainerData := Eval vm_compute in (CheckVote (voter 20 "2" "Bob" "other" false) changed).1.
Lemma both_run : box_run "REGULARS" [voter 0 "1" "Ann" "old" false; voter 9 "1" "ann" "new" false; voter 20 "2" "Bob" "other" false] both.
Proof.
  apply (box_vote _ [_; _] changed (voter 20 "2" "Bob" "other" false)).
  apply (box_vote _ [_] one (voter 9 "1" "ann" "new" false)).
  apply (box_vote _ [] box0 (voter 0 "1" "Ann" "old" false)). apply (box_init _ zeroTime).
Qed.

(** A member without a special role changes the user name after a vote and votes again:
    the two votes are two points, and the map is changed. *)
Theorem renamed_member_elects_alone :
  (fun v => (v_DiscID v, v_Selection v)) <$> Votes one = [("1", "old")] /\
  last (CheckVote (voter 9 "1" "Anna" "old" false) one).2 = Some (DoChangeMap "old").
Proof. split; vm_compute; reflexivity. Qed.
End VoteDemo.

Lemma one_vote_per_member_witness :
  exists u v, Votes VoteDemo.both !! 0%nat = Some u /\ Votes VoteDemo.both !! 1%nat = Some v /\
    @EqualFold ascii_tables (v_DiscID u) (v_DiscID v) = false.
Proof.
  destruct (Votes VoteDemo.both !! 0%nat) as [u|] eqn:Eu; [|vm_compute in Eu; discriminate Eu].
  destruct (Votes VoteDemo.both !! 1%nat) as [v|] eqn:Ev; [|vm_compute in Ev; discriminate Ev].
  exists u, v. split; [done|]. split; [done|].
  refine (proj2 (@one_vote_per_member ascii_tables VoteDemo.fold_ascii "REGULARS" _ VoteDemo.both VoteDemo.both_run _) 0%nat 1%nat u v Eu Ev _);
    [|discriminate].
  intros x y Hx Hy. repeat (apply elem_of_cons in Hx as [->|Hx]); repeat (apply elem_of_cons in Hy as [->|Hy]);
    try (by apply elem_of_nil in Hx); try (by apply elem_of_nil in Hy); vm_compute; congruence.
Defined.
