(* ===== verification/OperationStatus.v ===== *)
(** * Operation announcements: [src/fact/operation_status.go]

    One operation at a time has a status that the bot announces in the chat
    channel.  The state is [operationStatusState] with the message the bot may
    edit next; every exported function is a function on [OpWorld], which also
    keeps the goroutines the code starts ([ow_tasks], with the time before
    which they sleep) and, newest last, what was sent ([ow_out]).  A time the
    code reads from the clock is an argument. *)
From Stdlib Require Import Ascii.
From S2P Require Import Prelude.
From S2P Require Import GoInt.
From S2P Require Import GoString.
From S2P Require Import GoTime.

Definition operationAnnounceDelay : duration := 3 * Second.
Definition operationProgressThrottle : duration := 10 * Second.
Definition operationOptionalTTL : duration := 60 * Second.

Record operationMessageRef := mkRef { ref_channelID : string; ref_messageID : string }.
#[export] Instance ref_eq_dec : EqDecision operationMessageRef.
Proof. solve_decision. Defined.

Record operationStatusState := mkStatus {
  os_token : string;
  os_title : string;
  os_description : string;
  os_startedAt : time;
  os_lastProgressKey : string;
  os_lastProgressUpdateAt : time;
  os_announced : bool;
  os_suppressAnnounce : bool;
  os_pendingDelayID : Z;
  os_optionalMessages : list operationMessageRef
}.
#[export] Instance os_settable : Settable operationStatusState := mkSettable (fun r =>
  mkStatus (os_token r) (os_title r) (os_description r) (os_startedAt r) (os_lastProgressKey r)
    (os_lastProgressUpdateAt r) (os_announced r) (os_suppressAnnounce r) (os_pendingDelayID r)
    (os_optionalMessages r)).

Definition noOperation : operationStatusState :=
  mkStatus "" "" "" zeroTime "" zeroTime false false 0 [].

(** The goroutines: announcing a pending operation, a delayed progress line,
    deleting an optional message. *)
Inductive op_task :=
  | AnnounceTask (token : string)
  | EmitTask (token title description : string) (delayID : Z)
  | CleanupTask (ref : operationMessageRef).

Inductive op_effect :=
  | OpLog (title description : string)
  | OpCMS (channel description : string)
  | OpDelete (ref : operationMessageRef).

Record OpWorld := mkOpWorld {
  ow_status : operationStatusState;
  ow_update : option operationMessageRef;   (* [glob.GetUpdateMessage] *)
  ow_tasks : list (time * op_task);
  ow_out : list op_effect
}.
#[export] Instance ow_settable : Settable OpWorld := mkSettable (fun r =>
  mkOpWorld (ow_status r) (ow_update r) (ow_tasks r) (ow_out r)).

Definition initOpWorld : OpWorld := mkOpWorld noOperation None [] [].

Section operations.
(** [cfg.Local.Channel.ChatChannel]; whether Discord deletes a message. *)
Variable ChatChannel : string.
Variable delete_ok : operationMessageRef -> bool.

Definition spawn (due : time) (t : op_task) (w : OpWorld) : OpWorld :=
  w <| ow_tasks ::= fun l => l ++ [(due, t)] |>.

Definition status (f : operationStatusState -> operationStatusState) (w : OpWorld) : OpWorld :=
  w <| ow_status ::= f |>.

(** The common end: log, and, when there is a chat channel, send and forget
    the message to edit. *)
Definition post (title description : string) (w : OpWorld) : OpWorld :=
  let w := w <| ow_out ::= fun l => l ++ [OpLog title description] |> in
  if bool_decide (ChatChannel = "") then w
  else w <| ow_out ::= fun l => l ++ [OpCMS ChatChannel description] |> <| ow_update := None |>.

Definition resetUpdateMessageIfMatches (ref : operationMessageRef) (w : OpWorld) : OpWorld :=
  if bool_decide (ow_update w = Some ref) then w <| ow_update := None |> else w.

Definition deleteOperationMessages (msgs : list operationMessageRef) (w : OpWorld) : OpWorld :=
  foldl (fun w msg =>
    if bool_decide (ref_channelID msg = "") || bool_decide (ref_messageID msg = "") then w
    else if delete_ok msg
    then resetUpdateMessageIfMatches msg (w <| ow_out ::= fun l => l ++ [OpDelete msg] |>)
    else w) w msgs.

Definition op_token (now : time) : string := "op-" +:+ Itoa now.

Definition BeginOperation (now0 now1 now2 : time) (title description : string) (w : OpWorld) : string * OpWorld :=
  let title := TrimSpace title in
  let description := TrimSpace description in
  if bool_decide (title = "") || bool_decide (description = "") then ("", w)
  else
    let token := op_token now0 in
    let w := status (fun _ => noOperation <| os_token := token |> <| os_title := title |>
                                <| os_description := description |> <| os_startedAt := now1 |>) w in
    (token, spawn (now2 + operationAnnounceDelay) (AnnounceTask token) w).

Definition SuppressPendingOperationAnnouncement (token : string) (w : OpWorld) : OpWorld :=
  if bool_decide (token = "") then w
  else if bool_decide (token <> os_token (ow_status w)) then w
  else status (fun s => s <| os_suppressAnnounce := true |>) w.

Definition AnnouncePendingOperation (now : time) (token : string) (w : OpWorld) : OpWorld :=
  let s := ow_status w in
  if bool_decide (token = "") then w
  else if bool_decide (token <> os_token s) || os_announced s || os_suppressAnnounce s then w
  else if Sub now (os_startedAt s) <? operationAnnounceDelay then w
  else post (os_title s) (os_description s) (status (fun s => s <| os_announced := true |>) w).

Definition progress_key (title description : string) : string := title +:+ String "010"%char description.

Definition recently_sent (now : time) (key : string) (s : operationStatusState) : bool :=
  bool_decide (key = os_lastProgressKey s) &&
  (Sub now (os_lastProgressUpdateAt s) <? operationProgressThrottle).

Definition updateOperation (now : time) (token title description : string) (throttled force : bool)
    (w : OpWorld) : OpWorld :=
  let title := TrimSpace title in
  let description := TrimSpace description in
  if bool_decide (token = "") || bool_decide (title = "") || bool_decide (description = "") then w
  else if bool_decide (token <> os_token (ow_status w)) then w
  else
    let w := status (fun s => s <| os_pendingDelayID ::= fun n => wrap 64 (n + 1) |>) w in
    let s := ow_status w in
    if negb force && negb (os_announced s) && (Sub now (os_startedAt s) <? operationAnnounceDelay)
    then status (fun s => s <| os_title := title |> <| os_description := description |>) w
    else
      let key := progress_key title description in
      if throttled && recently_sent now key s then w
      else
        let w := if throttled
                 then status (fun s => s <| os_lastProgressKey := key |>
                                         <| os_lastProgressUpdateAt := now |>) w
                 else w in
        let optionalMessages := os_optionalMessages (ow_status w) in
        let w := status (fun s => s <| os_optionalMessages := [] |> <| os_title := title |>
                                    <| os_description := description |> <| os_announced := true |>) w in
        post title description (deleteOperationMessages optionalMessages w).

Definition UpdateOperation (now : time) (token title description : string) : OpWorld -> OpWorld :=
  updateOperation now token title description false false.
Definition AnnounceOperationNow (now : time) (token title description : string) : OpWorld -> OpWorld :=
  updateOperation now token title description false true.
Definition UpdateOperationProgress (now : time) (token title description : string) : OpWorld -> OpWorld :=
  updateOperation now token title description true false.

Definition nextOptionalProgressDelay (now startedAt : time) (announced : bool) (delay : duration) : duration :=
  if delay <=? 0 then 0
  else if announced then delay
  else
    let elapsed := Sub now startedAt in
    let elapsed := if elapsed <? 0 then 0 else elapsed in
    if elapsed <? operationAnnounceDelay then swrap 64 (delay + (operationAnnounceDelay - elapsed))
    else delay.

(** [reminderDescription] is not used by the code. *)
Definition UpdateOperationProgressDelayedWithReminder (now now' : time)
    (token title description reminderDescription : string) (delay : duration) (w : OpWorld) : OpWorld :=
  let title := TrimSpace title in
  let description := TrimSpace description in
  if bool_decide (token = "") || bool_decide (title = "") || bool_decide (description = "") then w
  else if delay <=? 0 then UpdateOperationProgress now token title description w
  else if bool_decide (token <> os_token (ow_status w)) then w
  else
    let s := ow_status w in
    let firstWait := nextOptionalProgressDelay now (os_startedAt s) (os_announced s) delay in
    let w := status (fun s => s <| os_pendingDelayID ::= fun n => wrap 64 (n + 1) |>) w in
    let delayID := os_pendingDelayID (ow_status w) in
    spawn (now' + firstWait) (EmitTask token title description delayID) w.

Definition UpdateOperationProgressDelayed (now now' : time) (token title description : string)
    (delay : duration) : OpWorld -> OpWorld :=
  UpdateOperationProgressDelayedWithReminder now now' token title description description delay.

Definition emitScheduledOperationProgress (now : time) (token title description : string) (delayID : Z)
    (w : OpWorld) : bool * OpWorld :=
  let s := ow_status w in
  if bool_decide (token <> os_token s) || negb (delayID =? os_pendingDelayID s) then (false, w)
  else
    let key := progress_key title description in
    if recently_sent now key s then (true, w)
    else (true, post title description
            (status (fun s => s <| os_title := title |> <| os_description := description |>
                                <| os_lastProgressKey := key |> <| os_lastProgressUpdateAt := now |>
                                <| os_announced := true |>) w)).

Definition trackOptionalOperationMessage (msg : option operationMessageRef) (w : OpWorld)
    : option operationMessageRef * OpWorld :=
  match msg with
  | None => (None, w)
  | Some ref =>
      if bool_decide (ref_channelID ref = "") || bool_decide (ref_messageID ref = "") then (None, w)
      else (Some ref, status (fun s => s <| os_optionalMessages ::= fun l => l ++ [ref] |>) w)
  end.

Definition scheduleOptionalOperationCleanup (now : time) (ref : operationMessageRef) (w : OpWorld) : OpWorld :=
  if bool_decide (ref_channelID ref = "") || bool_decide (ref_messageID ref = "") then w
  else spawn (now + operationOptionalTTL) (CleanupTask ref) w.

(** What the cleanup goroutine does once it wakes up. *)
Definition cleanup (ref : operationMessageRef) (w : OpWorld) : OpWorld :=
  match find_index (fun m => bool_decide (m = ref)) (os_optionalMessages (ow_status w)) with
  | None => w
  | Some i => deleteOperationMessages [ref] (status (fun s => s <| os_optionalMessages ::= delete i |>) w)
  end.

Definition finalizeOperation (now : time) (token title description : string) (w : OpWorld) : OpWorld :=
  let title := TrimSpace title in
  let description := TrimSpace description in
  if bool_decide (token = "") then w
  else if bool_decide (token <> os_token (ow_status w)) then w
  else
    let s := ow_status w in
    let announced := os_announced s || (operationAnnounceDelay <=? Sub now (os_startedAt s)) in
    let w := deleteOperationMessages (os_optionalMessages s) (status (fun _ => noOperation) w) in
    if negb announced || bool_decide (title = "") || bool_decide (description = "") then w
    else post title description w.

Definition CompleteOperation := finalizeOperation.
Definition FailOperation := finalizeOperation.
Definition CancelOperation (now : time) (token : string) : OpWorld -> OpWorld :=
  finalizeOperation now token "" "".

Definition CancelOperationDelayedProgress (token : string) (w : OpWorld) : OpWorld :=
  if bool_decide (token = "") then w
  else if bool_decide (token <> os_token (ow_status w)) then w
  else status (fun s => s <| os_pendingDelayID ::= fun n => wrap 64 (n + 1) |>) w.

Definition run_task (now : time) (t : op_task) (w : OpWorld) : OpWorld :=
  match t with
  | AnnounceTask token => AnnouncePendingOperation now token w
  | EmitTask token title description delayID =>
      (emitScheduledOperationProgress now token title description delayID w).2
  | CleanupTask ref => cleanup ref w
  end.
End operations.
#[global] Arguments post : simpl never.
#[global] Arguments deleteOperationMessages : simpl never.

(** ** Runs

    Every call of the exported functions and every goroutine that wakes up, in
    any order, at non-decreasing times.  The clock readings inside one call are
    the times of [op_call]. *)
Inductive op_call :=
  | CBegin (now0 now1 now2 : time) (title description : string)
  | CSuppress (token : string)
  | CUpdate (token title description : string) (throttled force : bool)
  | CDelayed (now' : time) (token title description reminder : string) (delay : duration)
  | CTrack (msg : option operationMessageRef)
  | CCleanup (ref : operationMessageRef)
  | CFinalize (token title description : string)
  | CCancelDelayed (token : string).

(** The token a call is about. *)
Definition call_token (c : op_call) : option string :=
  match c with
  | CSuppress token | CUpdate token _ _ _ _ | CDelayed _ token _ _ _ _ | CFinalize token _ _
  | CCancelDelayed token => Some token
  | CBegin _ _ _ _ _ | CTrack _ | CCleanup _ => None
  end.

Definition task_token (t : op_task) : option string :=
  match t with
  | AnnounceTask token | EmitTask token _ _ _ => Some token
  | CleanupTask _ => None
  end.

Section runs.
Variable ChatChannel : string.
Variable delete_ok : operationMessageRef -> bool.

Definition run_call (now : time) (c : op_call) (w : OpWorld) : OpWorld :=
  match c with
  | CBegin now0 now1 now2 title description => (BeginOperation now0 now1 now2 title description w).2
  | CSuppress token => SuppressPendingOperationAnnouncement token w
  | CUpdate token title description throttled force =>
      updateOperation ChatChannel delete_ok now token title description throttled force w
  | CDelayed now' token title description reminder delay =>
      UpdateOperationProgressDelayedWithReminder ChatChannel delete_ok now now' token title description
        reminder delay w
  | CTrack msg => (trackOptionalOperationMessage msg w).2
  | CCleanup ref => scheduleOptionalOperationCleanup now ref w
  | CFinalize token title description => finalizeOperation ChatChannel delete_ok now token title description w
  | CCancelDelayed token => CancelOperationDelayedProgress token w
  end.

Definition call_times (now : time) (c : op_call) : Prop :=
  match c with
  | CBegin now0 now1 now2 _ _ => now <= now0 <= now1 /\ now1 <= now2
  | CDelayed now' _ _ _ _ _ => now <= now'
  | _ => True
  end.

(** One step, at a time not before [now]: a call, or a goroutine that wakes up. *)
Inductive op_step (now : time) (w : OpWorld) : option op_call -> time -> OpWorld -> Prop :=
  | step_call now' c : now <= now' -> call_times now' c ->
      op_step now w (Some c) now' (run_call now' c w)
  | step_task now' i due t : now <= now' -> ow_tasks w !! i = Some (due, t) -> due <= now' ->
      op_step now w None now' (run_task ChatChannel delete_ok now' t (w <| ow_tasks ::= delete i |>)).

(** [n] steps with labels allowed by [P]. *)
Inductive op_run (P : option op_call -> Prop) : nat -> time -> OpWorld -> time -> OpWorld -> Prop :=
  | run_done now w : op_run P 0 now w now w
  | run_more n now w now' w' l now'' w'' :
      op_run P n now w now' w' -> op_step now' w' l now'' w'' -> P l ->
      op_run P (S n) now w now'' w''.

(** No operation begins with the token [tok]: its time stamp is not read again. *)
Definition not_again (tok : string) (l : option op_call) : Prop :=
  match l with Some (CBegin now0 _ _ _ _) => op_token now0 <> tok | _ => True end.

(** *** What posting and deleting leave alone *)
Lemma post_status title desc w : ow_status (post ChatChannel title desc w) = ow_status w.
Proof. unfold post. by case_bool_decide. Qed.

Lemma post_tasks title desc w : ow_tasks (post ChatChannel title desc w) = ow_tasks w.
Proof. unfold post. by case_bool_decide. Qed.

Lemma resetUpdate_status ref w : ow_status (resetUpdateMessageIfMatches ref w) = ow_status w.
Proof. unfold resetUpdateMessageIfMatches. by case_bool_decide. Qed.

Lemma resetUpdate_tasks ref w : ow_tasks (resetUpdateMessageIfMatches ref w) = ow_tasks w.
Proof. unfold resetUpdateMessageIfMatches. by case_bool_decide. Qed.

Lemma delete_status l w : ow_status (deleteOperationMessages delete_ok l w) = ow_status w.
Proof.
  unfold deleteOperationMessages. revert w. induction l as [|m l IH]; intros w; [done|]. simpl. rewrite IH.
  repeat case_match; try done. by rewrite resetUpdate_status.
Qed.

Lemma delete_tasks l w : ow_tasks (deleteOperationMessages delete_ok l w) = ow_tasks w.
Proof.
  unfold deleteOperationMessages. revert w. induction l as [|m l IH]; intros w; [done|]. simpl. rewrite IH.
  repeat case_match; try done. by rewrite resetUpdate_tasks.
Qed.

Local Hint Rewrite post_status post_tasks delete_status delete_tasks : chatwire.
End runs.
#[export] Hint Rewrite post_status post_tasks delete_status delete_tasks : chatwire.

(** *** The delay counter and the token of a step *)
Ltac op_cases := repeat (case_bool_decide || case_match); simplify_eq/=; autorewrite with chatwire; simpl.

Section steps.
Variable ChatChannel : string.
Variable delete_ok : operationMessageRef -> bool.

(** The current operation stays and its counter of delayed lines moves by at
    most one, or the operation is over. *)
Definition same_operation (tok : string) (s s' : operationStatusState) : Prop :=
  os_token s' <> tok \/
  os_token s = tok /\ exists k, (k = 0 \/ k = 1) /\ os_pendingDelayID s' = wrap 64 (os_pendingDelayID s + k).

Definition id_in_range (s : operationStatusState) : Prop := in_u 64 (os_pendingDelayID s).

Lemma same_operation_refl tok s : id_in_range s -> same_operation tok s s.
Proof.
  intros. destruct (decide (os_token s = tok)); [|by left]. right. split; [done|]. exists 0.
  rewrite Z.add_0_r, wrap_small; auto.
Qed.

Lemma same_operation_bump tok s s' :
  os_token s' = os_token s -> os_pendingDelayID s' = wrap 64 (os_pendingDelayID s + 1) ->
  same_operation tok s s'.
Proof. intros Ht Hid. destruct (decide (os_token s = tok)); [right|left; congruence]. eauto. Qed.

Lemma same_operation_same tok s s' :
  id_in_range s -> os_token s' = os_token s -> os_pendingDelayID s' = os_pendingDelayID s ->
  same_operation tok s s'.
Proof.
  intros Hr Ht Hid. destruct (same_operation_refl tok s Hr) as [?|(? & k & ? & E)]; [left; congruence|].
  right. split; [done|]. exists k. by rewrite Hid.
Qed.

Lemma call_same_operation tok now c w :
  tok <> "" -> id_in_range (ow_status w) -> not_again tok (Some c) ->
  same_operation tok (ow_status w) (ow_status (run_call ChatChannel delete_ok now c w)).
Proof.
  intros Htok Hr Hn. destruct c; simpl in Hn |- *.
  - unfold BeginOperation, status, spawn. op_cases; try (by apply same_operation_refl). by left.
  - unfold SuppressPendingOperationAnnouncement, status. op_cases; by apply same_operation_same.
  - unfold updateOperation, status. op_cases;
      first [by apply same_operation_refl|by apply same_operation_bump].
  - unfold UpdateOperationProgressDelayedWithReminder, UpdateOperationProgress, updateOperation, status, spawn.
    op_cases; first [by apply same_operation_refl|by apply same_operation_bump].
  - unfold trackOptionalOperationMessage, status. op_cases; by apply same_operation_same.
  - unfold scheduleOptionalOperationCleanup, spawn. op_cases; by apply same_operation_same.
  - unfold finalizeOperation, status. op_cases;
      first [by apply same_operation_refl|by left].
  - unfold CancelOperationDelayedProgress, status. op_cases;
      first [by apply same_operation_refl|by apply same_operation_bump].
Qed.

Lemma task_same_operation tok now t w :
  id_in_range (ow_status w) ->
  same_operation tok (ow_status w) (ow_status (run_task ChatChannel delete_ok now t w)).
Proof.
  intros Hr. destruct t; simpl.
  - unfold AnnouncePendingOperation, status. op_cases; by apply same_operation_same.
  - unfold emitScheduledOperationProgress, status. op_cases; by apply same_operation_same.
  - unfold cleanup, status. op_cases; by apply same_operation_same.
Qed.

Lemma call_id_in_range now c w :
  id_in_range (ow_status w) -> id_in_range (ow_status (run_call ChatChannel delete_ok now c w)).
Proof.
  intros Hr. assert (H0 : id_in_range noOperation) by (unfold id_in_range, in_u; simpl; lia).
  assert (Hb : forall s, id_in_range (s <| os_pendingDelayID ::= fun n => wrap 64 (n + 1) |>)).
  { intros s. unfold id_in_range. simpl. by apply wrap_range. }
  destruct c; simpl;
    unfold BeginOperation, SuppressPendingOperationAnnouncement, UpdateOperationProgressDelayedWithReminder,
      UpdateOperationProgress, updateOperation, trackOptionalOperationMessage, scheduleOptionalOperationCleanup,
      finalizeOperation, CancelOperationDelayedProgress, status, spawn;
    op_cases; first [exact Hr|exact H0|exact (Hb (ow_status w))].
Qed.

Lemma task_id_in_range now t w :
  id_in_range (ow_status w) -> id_in_range (ow_status (run_task ChatChannel delete_ok now t w)).
Proof.
  intros Hr. destruct t; simpl;
    unfold AnnouncePendingOperation, emitScheduledOperationProgress, cleanup, status; op_cases; exact Hr.
Qed.

Lemma step_same_operation tok now w l now' w' :
  op_step ChatChannel delete_ok now w l now' w' -> tok <> "" -> not_again tok l ->
  id_in_range (ow_status w) ->
  same_operation tok (ow_status w) (ow_status w') /\ id_in_range (ow_status w').
Proof.
  intros H. destruct H; intros Htok Hn Hr.
  - split; [by apply call_same_operation|by apply call_id_in_range].
  - set (v := w <| ow_tasks ::= delete i |>). change (ow_status w) with (ow_status v) in *.
    split; [by apply task_same_operation|by apply task_id_in_range].
Qed.

(** The delayed line [id] of operation [tok] is out of date by at most [n] bumps. *)
Definition superseded (tok : string) (id : Z) (n : nat) (s : operationStatusState) : Prop :=
  os_token s <> tok \/
  exists j, 1 <= j <= Z.of_nat n /\ os_pendingDelayID s = wrap 64 (id + j).

Lemma run_superseded tok id m n now w now' w' :
  op_run ChatChannel delete_ok (not_again tok) n now w now' w' -> tok <> "" ->
  id_in_range (ow_status w) -> superseded tok id m (ow_status w) ->
  superseded tok id (m + n) (ow_status w') /\ id_in_range (ow_status w').
Proof.
  intros H Htok. induction H as [now w|n now w now' w' l now'' w'' _ IH Hs Hl]; intros Hr Hsup.
  - by rewrite Nat.add_0_r.
  - destruct (IH Hr Hsup) as [Hs' Hr']. destruct (step_same_operation tok _ _ _ _ _ Hs Htok Hl Hr') as [Ho ?].
    split; [|done]. destruct Ho as [?|(Ht & k & Hk & Hid)]; [by left|].
    destruct Hs' as [?|(j & Hj & Ej)]; [done|]. right. exists (j + k). split; [lia|].
    rewrite Hid, Ej. unfold wrap. rewrite Zplus_mod_idemp_l. f_equal. lia.
Qed.

Lemma superseded_rejected tok id n s now title desc w :
  superseded tok id n s -> s = ow_status w -> in_u 64 id -> Z.of_nat n < 2 ^ 64 ->
  emitScheduledOperationProgress ChatChannel now tok title desc id w = (false, w).
Proof.
  intros Hs -> Hid Hn. unfold emitScheduledOperationProgress.
  destruct Hs as [?|(j & Hj & Ej)].
  - by rewrite bool_decide_eq_true_2 by congruence.
  - rewrite Ej. rewrite (proj2 (Z.eqb_neq id _)); [by rewrite orb_true_r|].
    unfold wrap, in_u in *. intros E.
    destruct (Z.lt_ge_cases (id + j) (2 ^ 64)).
    + rewrite Z.mod_small in E; lia.
    + rewrite <-(Z.mod_add (id + j) (-1)), Z.mod_small in E by lia. lia.
Qed.

(** The calls that make the delayed lines of [tok] scheduled before them out of date. *)
Definition supersedes (tok : string) (c : op_call) : bool :=
  match c with
  | CUpdate token title description _ _ =>
      bool_decide (token = tok) && negb (bool_decide (TrimSpace title = ""))
        && negb (bool_decide (TrimSpace description = ""))
  | CDelayed _ token title description _ delay =>
      (0 <? delay) && bool_decide (token = tok) && negb (bool_decide (TrimSpace title = ""))
        && negb (bool_decide (TrimSpace description = ""))
  | CFinalize token _ _ | CCancelDelayed token => bool_decide (token = tok)
  | _ => false
  end.

Lemma supersedes_bump tok now c w :
  tok <> "" -> supersedes tok c = true ->
  superseded tok (os_pendingDelayID (ow_status w)) 1 (ow_status (run_call ChatChannel delete_ok now c w)).
Proof.
  intros Htok Hc. destruct (decide (os_token (ow_status w) = tok)) as [Ht|Ht].
  2: { left. destruct c; simpl in Hc |- *; try done; bool_hyps; subst;
       unfold UpdateOperationProgressDelayedWithReminder, UpdateOperationProgress, updateOperation,
         finalizeOperation, CancelOperationDelayedProgress, status, spawn; op_cases; congruence. }
  destruct c; simpl in Hc |- *; try done; bool_hyps; subst;
    unfold UpdateOperationProgressDelayedWithReminder, UpdateOperationProgress, updateOperation,
      finalizeOperation, CancelOperationDelayedProgress, status, spawn, superseded; op_cases;
    first [lia|left; done|right; exists 1; split; [lia|done]].
Qed.

(** ** Properties *)

(** (invariant) a delayed progress line that a later update, a later delayed
    line, a cancellation or the end of its operation has replaced is never
    sent: whatever happens next, in any order, when its goroutine wakes up it
    is rejected, as long as fewer than 2^64 - 1 steps are taken. *)
Theorem superseded_progress_never_sent tok c n now w now' w' now'' title description :
  tok <> "" -> supersedes tok c = true -> id_in_range (ow_status w) -> Z.of_nat n < 2 ^ 64 - 1 ->
  op_run ChatChannel delete_ok (not_again tok) n now (run_call ChatChannel delete_ok now c w) now' w' ->
  emitScheduledOperationProgress ChatChannel now'' tok title description
    (os_pendingDelayID (ow_status w)) w' = (false, w').
Proof.
  intros Htok Hc Hr Hn Hrun. pose proof (supersedes_bump tok now c w Htok Hc) as Hs.
  destruct (run_superseded _ _ _ _ _ _ _ _ Hrun Htok (call_id_in_range now c w Hr) Hs) as [Hs' _].
  eapply superseded_rejected; [exact Hs'|done|exact Hr|lia].
Qed.

(** (invariant) once an operation is completed, failed or cancelled, it says
    nothing any more: its announcement and its delayed lines, should their
    goroutines wake up later, and every further call made with its token, leave
    the status, the tasks and the messages sent exactly as they are. *)
Theorem finished_operation_silent tok now title description w n now' w' now'' :
  tok <> "" -> id_in_range (ow_status w) ->
  op_run ChatChannel delete_ok (not_again tok) n now
    (finalizeOperation ChatChannel delete_ok now tok title description w) now' w' ->
  (forall t, task_token t = Some tok -> run_task ChatChannel delete_ok now'' t w' = w') /\
  (forall c, call_token c = Some tok -> run_call ChatChannel delete_ok now'' c w' = w').
Proof.
  intros Htok Hr Hrun.
  assert (Hdead : os_token (ow_status w') <> tok).
  { remember (finalizeOperation _ _ _ _ _ _ _) as v eqn:Ev.
    assert (Hv : os_token (ow_status v) <> tok /\ id_in_range (ow_status v)).
    { subst v. split; [|apply (call_id_in_range now (CFinalize tok title description) w Hr)].
      unfold finalizeOperation, status. op_cases; congruence. }
    clear Ev. cut (os_token (ow_status w') <> tok /\ id_in_range (ow_status w')); [tauto|].
    induction Hrun as [|n now v now1 w1 l now2 w2 _ IH Hs Hl]; [done|]. destruct (IH Hv) as [Ht1 Hr1].
    destruct (step_same_operation tok _ _ _ _ _ Hs Htok Hl Hr1) as [[?|[? _]] ?]; done. }
  split; [intros []|intros []]; simpl; intros [= ->];
    unfold AnnouncePendingOperation, emitScheduledOperationProgress, SuppressPendingOperationAnnouncement,
      updateOperation, UpdateOperationProgressDelayedWithReminder, UpdateOperationProgress, updateOperation,
      finalizeOperation, CancelOperationDelayedProgress;
    rewrite ?(bool_decide_eq_true_2 (tok <> os_token (ow_status w'))) by congruence; simpl;
    repeat case_match; done.
Qed.

(** (functional) the same progress line is sent at most once in ten seconds:
    repeating an update that has just been sent sends nothing. *)
Theorem repeated_progress_throttled now now' tok title description w :
  modern now -> modern now' -> now <= now' < now + operationProgressThrottle ->
  os_token (ow_status w) = tok ->
  let w1 := UpdateOperationProgress ChatChannel delete_ok now tok title description w in
  let w2 := UpdateOperationProgress ChatChannel delete_ok now' tok title description w1 in
  ow_out w1 <> ow_out w -> ow_out w2 = ow_out w1.
Proof.
  intros Hm Hm' Hlt Ht. unfold UpdateOperationProgress. cbv zeta.
  set (w1 := updateOperation _ _ now _ _ _ _ _ w).
  intros Hne. assert (Hs : TrimSpace title <> "" /\ TrimSpace description <> "" /\
    os_token (ow_status w1) = tok /\ os_announced (ow_status w1) = true /\
    os_lastProgressKey (ow_status w1) = progress_key (TrimSpace title) (TrimSpace description) /\
    os_lastProgressUpdateAt (ow_status w1) = now).
  { revert Hne. subst w1. unfold updateOperation, status. op_cases; try done; congruence. }
  destruct Hs as (H1 & H2 & H3 & H4 & H5 & H6). clearbody w1.
  assert (E : (Sub now' now <? operationProgressThrottle) = true) by (rewrite Sub_lt by done; lia).
  unfold updateOperation, status, recently_sent. simpl. rewrite H3, H4, H5, H6, E.
  op_cases; done.
Qed.
End steps.

(** An operation that has been announced, with one delayed line on its way. *)
Definition sample_status : OpWorld :=
  let '(tok, w) := BeginOperation 1000 1000 1000 "Changing Map" "Changing map." initOpWorld in
  let w := AnnounceOperationNow "chan" (fun _ => true) 1000 tok "Changing Map" "Changing map." w in
  UpdateOperationProgressDelayed "chan" (fun _ => true) 2000 2000 tok "Changing Map"
    "Factorio is saving the map." (5 * Second) w.

Example sample_status_out :
  ow_out sample_status = [OpLog "Changing Map" "Changing map."; OpCMS "chan" "Changing map."] /\
  ow_tasks sample_status =
    [(1000 + 3 * Second, AnnounceTask "op-1000");
     (2000 + 5 * Second, EmitTask "op-1000" "Changing Map" "Factorio is saving the map." 2)].
Proof. split; vm_compute; reflexivity. Qed.

Lemma superseded_progress_never_sent_witness :
  let w' := CancelOperationDelayedProgress "op-1000" sample_status in
  emitScheduledOperationProgress "chan" (10 * Second) "op-1000" "Changing Map"
    "Factorio is saving the map." (os_pendingDelayID (ow_status sample_status)) w' = (false, w').
Proof.
  apply (superseded_progress_never_sent "chan" (fun _ => true) "op-1000"
           (CCancelDelayed "op-1000") 0 (3 * Second) sample_status (3 * Second));
    [done|reflexivity|split; vm_compute; congruence|done|constructor].
Defined.

Lemma finished_operation_silent_witness :
  let w' := finalizeOperation "chan" (fun _ => true) (3 * Second) "op-1000" "" "" sample_status in
  (forall t, task_token t = Some "op-1000" ->
     run_task "chan" (fun _ => true) (9 * Second) t w' = w') /\
  (forall c, call_token c = Some "op-1000" ->
     run_call "chan" (fun _ => true) (9 * Second) c w' = w').
Proof.
  apply (finished_operation_silent "chan" (fun _ => true) "op-1000" (3 * Second) "" ""
           sample_status 0 (3 * Second));
    [done|split; vm_compute; congruence|constructor].
Defined.

Lemma repeated_progress_throttled_witness :
  let w1 := UpdateOperationProgress "chan" (fun _ => true) (4 * Second) "op-1000"
              "Changing Map" "half way" sample_status in
  ow_out (UpdateOperationProgress "chan" (fun _ => true) (9 * Second) "op-1000"
            "Changing Map" "half way" w1) = ow_out w1.
Proof.
  apply (repeated_progress_throttled "chan" (fun _ => true) (4 * Second) (9 * Second));
    [vm_compute; split; congruence|vm_compute; split; congruence|vm_compute; split; congruence|
     vm_compute; reflexivity|vm_compute; congruence].
Defined.

(** ** For the components that report through an operation *)
Section reporting.
Variable ChatChannel : string.
Variable delete_ok : operationMessageRef -> bool.

Lemma finalize_op_ends now token title description w :
  token <> "" -> os_token (ow_status w) = token ->
  ow_status (finalizeOperation ChatChannel delete_ok now token title description w) = noOperation.
Proof.
  intros Hne Ht. unfold finalizeOperation. rewrite bool_decide_eq_false_2 by done.
  rewrite bool_decide_eq_false_2 by congruence. unfold status. op_cases; done.
Qed.

Lemma update_keeps_token now token title description throttled force w :
  os_token (ow_status (updateOperation ChatChannel delete_ok now token title description throttled force w))
  = os_token (ow_status w).
Proof. unfold updateOperation, status. op_cases; done. Qed.
End reporting.

(** * The chat lines of the server states: [src/fact/status_messages.go] *)
Definition StatusFactorioOffline : string := "🔴 Factorio is now offline.".
Definition StatusStartingFactorio : string := "Starting Factorio.".
Definition StatusStoppingFactorio : string := "Stopping Factorio.".
Definition StatusRestartingFactorio : string := "Restarting Factorio.".
Definition StatusRestartingChatWire : string := "Restarting ChatWire.".
Definition StatusResettingMap : string := "Resetting map.".
Definition StatusSavingMap : string := "Factorio is saving the map.".
Definition StatusSavingMapStill : string := "Factorio is still saving the map.".
Definition StatusBringingServerOnline : string := "Factorio is bringing the server online.".
Definition StatusBringingServerOnlineStill : string := StatusBringingServerOnline.

Definition StatusFactorioOnline (version : string) : string :=
  if bool_decide (version = "") || bool_decide (version = "Unknown") then "🟢 Factorio is online."
  else "🟢 Factorio " +:+ version +:+ " is online.".

Definition StatusChangingMap (saveName : string) : string :=
  if bool_decide (saveName <> "") then "Changing map to " +:+ saveName +:+ "." else "Changing map.".
Definition StatusLoadingMods (detail : string) : string :=
  if bool_decide (detail <> "") then "Factorio is loading mod " +:+ detail +:+ "."
  else "Factorio is loading mods.".
Definition StatusLoadingModsStill (detail : string) : string :=
  if bool_decide (detail <> "") then "Factorio is continuing to load mod " +:+ detail +:+ "."
  else "Factorio is continuing to load mods.".
Definition StatusLoadingMap (saveName : string) : string :=
  if bool_decide (saveName <> "") then "Factorio is loading map " +:+ saveName +:+ "."
  else "Factorio is loading the map.".
Definition StatusLoadingMapStill (saveName : string) : string :=
  if bool_decide (saveName <> "") then "Factorio is still loading map " +:+ saveName +:+ "."
  else "Factorio is still loading the map.".
