(* ===== verification/Lifecycle.v ===== *)
(** * The Factorio server's life cycle: [src/fact/lifecycle.go]

    One goroutine owns the server: it takes requests from a queue, launches and
    stops the Factorio process, and reacts to what the output reader, the
    process waiter and the watchdog report.  Every other goroutine acts on the
    shared state only through the exported functions.

    The model is the manager's code on a [World] of the manager's fields, the
    package globals it keeps in step with them, the operation status, the
    clock, the operating system's view of the launched processes and a trace of
    external effects.  The rest of the program is an arbitrary schedule: before
    every lock the manager takes and every shared value it reads
    ([env_point]), the schedule may run any of the exported functions
    ([env_op]).  Locked regions are atomic, as they are in the code. *)
From Stdlib Require Import Ascii.
From S2P Require Import Prelude.
From S2P Require Import GoInt.
From S2P Require Import GoString.
From S2P Require Import GoPath.
From S2P Require Import GoTime.
From S2P Require Import OperationStatus.

(** ** Data *)
Inductive LifecyclePhase := LifecycleStopped | LifecycleStarting | LifecycleRunning | LifecycleStopping.
#[export] Instance phase_eq_dec : EqDecision LifecyclePhase.
Proof. solve_decision. Defined.

(** [ActionKind] is a string; any other string is an unknown action. *)
Inductive ActionKind :=
  | ActionStart | ActionStop | ActionRestartFactorio | ActionRestartChatWire
  | ActionChangeMap | ActionMapReset | UnknownAction (name : string).
#[export] Instance action_eq_dec : EqDecision ActionKind.
Proof. solve_decision. Defined.

Definition NoAction : ActionKind := UnknownAction "".

Definition action_name (k : ActionKind) : string :=
  match k with
  | ActionStart => "start" | ActionStop => "stop" | ActionRestartFactorio => "restart-factorio"
  | ActionRestartChatWire => "restart-chatwire" | ActionChangeMap => "change-map"
  | ActionMapReset => "map-reset" | UnknownAction name => name
  end.

(** An [error]: nil, or its text. *)
Definition error : Type := option string.

(** [BeforeExit] is a callback of the requester: here, what it returns. *)
Record Request := mkRequest {
  r_Kind : ActionKind;
  r_Reason : string;
  r_SaveName : string;
  r_ForceChatWireExit : bool;
  r_RequestID : string;
  r_WhenEmpty : bool;
  r_BeforeExit : option error
}.
#[export] Instance Request_settable : Settable Request := mkSettable (fun r =>
  mkRequest (r_Kind r) (r_Reason r) (r_SaveName r) (r_ForceChatWireExit r) (r_RequestID r)
    (r_WhenEmpty r) (r_BeforeExit r)).

Definition plainRequest (kind : ActionKind) (reason id : string) : Request :=
  mkRequest kind reason "" false id false None.

(** [lr_done] names the channel of a requester that waits for the outcome. *)
Record lifecycleRequest := mkLR {
  lr_req : Request;
  lr_done : option nat;
  lr_acceptedAt : time;
  lr_saveSnapshot : string
}.
#[export] Instance lr_settable : Settable lifecycleRequest := mkSettable (fun r =>
  mkLR (lr_req r) (lr_done r) (lr_acceptedAt r) (lr_saveSnapshot r)).

Definition lr_kind (r : lifecycleRequest) : ActionKind := r_Kind (lr_req r).

Record State := mkState {
  s_Phase : LifecyclePhase; s_PID : Z; s_Booted : bool; s_PendingAction : string;
  s_Since : time; s_LastError : string
}.

Record processExitEvent := mkExit { ee_generation : Z; ee_err : error }.
Record lifecycleProgressEvent := mkProgress {
  pe_generation : Z; pe_kind : string; pe_detail : string; pe_at : time
}.
Record lifecycleHealthEvent := mkHealth { he_generation : Z; he_kind : string; he_err : string; he_at : time }.

Record lifecycleManager := mkManager {
  m_phase : LifecyclePhase;
  m_phaseSince : time;
  m_booted : bool;
  m_currentPID : Z;
  m_currentGeneration : Z;
  m_currentAction : string;
  m_lastError : string;
  m_startedAt : time;
  m_readyAt : time;
  m_queue : list lifecycleRequest;
  m_signalCh : bool;
  m_readyCh : list Z;
  m_goodbyeCh : list Z;
  m_exitCh : list processExitEvent;
  m_progressCh : list lifecycleProgressEvent;
  m_healthCh : list lifecycleHealthEvent;
  m_shutdownRequested : bool;
  m_healthRestartQueued : bool;
  m_softModDetected : bool;
  m_softModUpdateRecovery : bool;
  m_operationToken : string;
  m_operationKind : ActionKind;
  m_operationSaveName : string;
  m_lastProgressAt : time;
  m_lastProgressKind : string
}.
#[export] Instance manager_settable : Settable lifecycleManager := mkSettable (fun r =>
  mkManager (m_phase r) (m_phaseSince r) (m_booted r) (m_currentPID r) (m_currentGeneration r)
    (m_currentAction r) (m_lastError r) (m_startedAt r) (m_readyAt r) (m_queue r) (m_signalCh r)
    (m_readyCh r) (m_goodbyeCh r) (m_exitCh r) (m_progressCh r) (m_healthCh r) (m_shutdownRequested r)
    (m_healthRestartQueued r) (m_softModDetected r) (m_softModUpdateRecovery r) (m_operationToken r)
    (m_operationKind r) (m_operationSaveName r) (m_lastProgressAt r) (m_lastProgressKind r)).

(** The package variables the manager reads and writes. *)
Record globals := mkGlobals {
  g_FactIsRunning : bool;
  g_FactorioBooted : bool;
  g_FactorioBootedAt : time;
  g_QueueReboot : bool;
  g_QueueFactReboot : bool;
  g_DoRebootCW : bool;
  g_autoStart : bool;              (* autoStartState *)
  g_update : bool;                 (* updateState *)
  g_modOperation : bool;           (* modOperationState *)
  g_numPlayers : Z;
  g_updatePending : bool;          (* factorioUpdatePending *)
  g_pipe : option Z;               (* Pipe and pipeGeneration *)
  g_FactorioCmd : option (Z * Z);  (* the process id and generation of glob.FactorioCmd *)
  g_CrashLoopCount : Z;
  g_LastCrash : time;
  g_RelaunchThrottle : Z;
  g_PendingSave : string;
  g_NewMap : bool;
  g_cfgAutoStart : bool;           (* cfg.Local.Options.AutoStart *)
  g_InjectSoftMod : bool;
  g_reqCounter : Z
}.
#[export] Instance globals_settable : Settable globals := mkSettable (fun r =>
  mkGlobals (g_FactIsRunning r) (g_FactorioBooted r) (g_FactorioBootedAt r) (g_QueueReboot r)
    (g_QueueFactReboot r) (g_DoRebootCW r) (g_autoStart r) (g_update r) (g_modOperation r)
    (g_numPlayers r) (g_updatePending r) (g_pipe r) (g_FactorioCmd r) (g_CrashLoopCount r)
    (g_LastCrash r) (g_RelaunchThrottle r) (g_PendingSave r) (g_NewMap r) (g_cfgAutoStart r)
    (g_InjectSoftMod r) (g_reqCounter r)).

(** What leaves the program. *)
Inductive effect :=
  | EChat (line : string)                       (* FactChat *)
  | ESend (line : string)                       (* a line written to the server's standard input *)
  | EInterrupt | EKill                          (* signals to the process group *)
  | ELaunch (generation : Z) (saveName : string) (alive : list Z) (* with the processes alive then *)
  | ERemove (path : string)                     (* os.Remove of a snapshot *)
  | ERename (from to : string)
  | EReply (done : nat) (err : error)           (* the outcome sent to a waiting requester *)
  | EExitChatWire (delay : bool)
  | ENotice (text : string)                     (* CMS to the chat channel *)
  | EReport (text : string).                    (* the moderators' report channel *)
#[export] Instance effect_eq_dec : EqDecision effect.
Proof. solve_decision. Defined.

(** [w_launched] and [w_live] are the operating system's: the generations a
    process was started for, and those whose process still exists. *)
Record World := mkWorld {
  w_m : lifecycleManager;
  w_g : globals;
  w_op : OpWorld;
  w_clock : time;
  w_launched : list Z;
  w_live : list Z;
  w_tick : nat;
  w_trace : list effect
}.
#[export] Instance World_settable : Settable World := mkSettable (fun r =>
  mkWorld (w_m r) (w_g r) (w_op r) (w_clock r) (w_launched r) (w_live r) (w_tick r) (w_trace r)).

Definition on_m (f : lifecycleManager -> lifecycleManager) (w : World) : World := w <| w_m ::= f |>.
Definition on_g (f : globals -> globals) (w : World) : World := w <| w_g ::= f |>.
Definition on_op (f : OpWorld -> OpWorld) (w : World) : World := w <| w_op ::= f |>.
Definition emit (e : effect) (w : World) : World := w <| w_trace ::= fun l => l ++ [e] |>.

(** ** Constants *)
Definition lifecycleOptionalProgressDelay : duration := 5 * Second.
Definition softModUpdateStartupGrace : duration := 30 * Second.
Definition lifecycleStopGraceTimeout : duration := 450 * (100 * Millisecond).
Definition lifecycleStopIdleTimeout : duration := 20 * Second.
Definition lifecycleStopSaveTimeout : duration := 3 * Minute.
Definition lifecycleStopInterruptTimeout : duration := 20 * Second.
Definition lifecycleStopKillTimeout : duration := 5 * Second.
Definition lifecycleStopPollInterval : duration := 100 * Millisecond.
Definition lifecyclePlayerWarnDelay : duration := 3 * Second.
Definition lifecycleStartupIdleTimeout : duration := 2 * Minute.
Definition lifecycleStartupHardTimeout : duration := 15 * Minute.
Definition lifecycleActivePollInterval : duration := Second.
Definition lifecycleIdlePollInterval : duration := 30 * Second.

(** ** What the manager does not decide *)

(** What the other goroutines may do between two steps of the manager: call the
    exported functions, let time pass, let a process die, wake a goroutine of
    the operation status. *)
Inductive env_op :=
  | EnvSubmit (req : Request) (done : option nat)
  | EnvReady (generation : Z)
  | EnvSoftMod (generation : Z)
  | EnvGoodbye (generation : Z)
  | EnvWait (generation : Z) (err : error)      (* cmd.Wait returned *)
  | EnvProgress (generation : Z) (kind detail : string)
  | EnvHealth (generation : Z) (kind err : string)
  | EnvShutdown                                 (* StopLifecycleManager *)
  | EnvSetUpdate (v : bool)
  | EnvSetModOperation (v : bool)
  | EnvAutostart (v : bool)
  | EnvPlayers (n : Z)
  | EnvFactorioUpdated                          (* MarkFactorioUpdated *)
  | EnvInjectSoftMod (v : bool)
  | EnvProcessDies (generation : Z)
  | EnvTime (d : duration)
  | EnvOpCall (c : op_call)
  | EnvOpTask (i : nat).

Inductive launch_result :=
  | LaunchOk (pid throttle : Z)
  | LaunchFailed (err : string) (disableAutolaunch : bool).

(** The schedule, the hooks' and the file system's answers, and the
    configuration.  [WithinHours] may be absent, [ExitChatWire] too. *)
Class LifecycleEnv := {
  sched : nat -> list env_op;
  select_choice : nat -> nat;
  launch_outcome : nat -> Z -> string -> launch_result;
  WithinHours : option (nat -> bool);
  has_ExitChatWire : bool;
  saves_path : string -> string;                      (* the name joined to GetSavesFolder *)
  copy_snapshot : nat -> string -> result string string; (* the copying of stageMapChange *)
  chtimes_err : nat -> string -> error;
  rename_err : nat -> string -> string -> error;
  mapResetAfterStop : nat -> result string string;
  quit_write_err : nat -> option (string * string);   (* the kind and text of a failed write *)
  ready_wait : nat -> duration;
  ready_version : nat -> string;
  show_duration : duration -> string;
  show_quoted : string -> string;                     (* %q *)
  cfg_Name : string;
  cfg_GroupName : string;
  cfg_Callsign : string;
  ChatChannel : string;
  delete_ok : operationMessageRef -> bool
}.

Section lifecycle.
Context {Env : LifecycleEnv}.

(** ** State shared with the other goroutines *)
Definition chan_send {A} (cap : nat) (x : A) (l : list A) : list A :=
  if (length l <? cap)%nat then l ++ [x] else l.

Definition signal : World -> World := on_m (fun m => m <| m_signalCh := true |>).

Definition clearOnlinePlayers (g : globals) : globals := g <| g_numPlayers := 0 |>.

Definition queued_reboot (r : lifecycleRequest) : bool :=
  bool_decide (lr_kind r = ActionRestartChatWire) && r_WhenEmpty (lr_req r).
Definition queued_fact_reboot (r : lifecycleRequest) : bool :=
  bool_decide (lr_kind r = ActionRestartFactorio) && r_WhenEmpty (lr_req r).
Definition queued_reboot_cw (r : lifecycleRequest) : bool :=
  bool_decide (lr_kind r = ActionRestartChatWire).

Definition syncCompatibilityLocked (w : World) : World :=
  let m := w_m w in
  on_g (fun g =>
    let g := g <| g_FactIsRunning := bool_decide (m_phase m <> LifecycleStopped) |>
               <| g_FactorioBooted := m_booted m |> in
    let g := if bool_decide (m_phase m = LifecycleStopped)
             then clearOnlinePlayers (g <| g_FactorioBootedAt := zeroTime |>)
             else if negb (IsZero (m_startedAt m)) then g <| g_FactorioBootedAt := m_startedAt m |>
             else g in
    g <| g_QueueReboot := existsb queued_reboot (m_queue m) |>
      <| g_QueueFactReboot := existsb queued_fact_reboot (m_queue m) |>
      <| g_DoRebootCW := existsb queued_reboot_cw (m_queue m) |>) w.

Definition currentStateLocked (m : lifecycleManager) : State :=
  let pending := match m_queue m with [] => "" | r :: _ => action_name (lr_kind r) end in
  let pending := if bool_decide (m_currentAction m <> "") then m_currentAction m else pending in
  mkState (m_phase m) (m_currentPID m) (m_booted m) pending (m_phaseSince m) (m_lastError m).

(** [stageMapChange]: the name is checked before a snapshot is copied. *)
Definition stageMapChange (name : string) (w : World) : result string string :=
  if bool_decide (name = "") || bool_decide (name <> Base name) || ContainsAny name ["/"; "\"]%char
  then Err ("invalid save name " +:+ show_quoted name)
  else copy_snapshot (w_tick w) (saves_path (name +:+ ".zip")).

Definition remove_snapshot (path : string) (w : World) : World :=
  if bool_decide (path <> "") then emit (ERemove path) w else w.

(** The request with an id of its own. *)
Definition assign_id (req : Request) (w : World) : Request * World :=
  if bool_decide (r_RequestID req = "") then
    let n := wrap 64 (g_reqCounter (w_g w) + 1) in
    (req <| r_RequestID := "req-" +:+ Itoa n |>, on_g (fun g => g <| g_reqCounter := n |>) w)
  else (req, w).

(** [lm.queue = append(lm.queue, lr)] and the flags. *)
Definition enqueue (lr : lifecycleRequest) (w : World) : World :=
  syncCompatibilityLocked (on_m (fun m => m <| m_queue ::= fun q => q ++ [lr] |>) w).

Definition submitLifecycleRequest (req : Request) (done : option nat) (w : World) : result string State * World :=
  let '(req, w) := assign_id req w in
  match (if bool_decide (r_Kind req = ActionChangeMap) then stageMapChange (r_SaveName req) w else Ok "") with
  | Err e => (Err e, w)
  | Ok snapshot =>
      if m_shutdownRequested (w_m w) then
        (Err "lifecycle manager is shutting down", remove_snapshot snapshot w)
      else
        let w := enqueue (mkLR req done (w_clock w) snapshot) w in
        (Ok (currentStateLocked (w_m w)), signal w)
  end.

Definition NotifyFactorioReady (gen : Z) (w : World) : World :=
  signal (on_m (fun m => m <| m_readyCh ::= chan_send 8 gen |>) w).

Definition NotifySoftModDetected (generation : Z) (w : World) : World :=
  signal (if negb (generation =? 0) && (generation =? m_currentGeneration (w_m w))
          then on_m (fun m => m <| m_softModDetected := true |> <| m_softModUpdateRecovery := false |>) w
          else w).

Definition NotifyFactorioGoodbye (gen : Z) (w : World) : World :=
  signal (on_m (fun m => m <| m_goodbyeCh ::= chan_send 8 gen |>) w).

Definition NotifyFactorioProcessExit (generation : Z) (err : error) (w : World) : World :=
  signal (on_m (fun m => m <| m_exitCh ::= chan_send 8 (mkExit generation err) |>) w).

Definition NotifyFactorioProgress (generation : Z) (kind detail : string) (w : World) : World :=
  if bool_decide (kind = "") then w
  else signal (on_m (fun m => m <| m_progressCh ::=
         chan_send 32 (mkProgress generation kind detail (w_clock w)) |>) w).

Definition NotifyFactorioHealth (generation : Z) (kind err : string) (w : World) : World :=
  if bool_decide (kind = "") then w
  else signal (on_m (fun m => m <| m_healthCh ::=
         chan_send 16 (mkHealth generation kind err (w_clock w)) |>) w).

(** The first half of [StopLifecycleManager]; the manager notices at its next round. *)
Definition RequestShutdown (w : World) : World := on_m (fun m => m <| m_shutdownRequested := true |>) w.

Definition SetUpdateInProgress (v : bool) (w : World) : World :=
  signal (on_g (fun g => g <| g_update := v |>) w).
Definition SetModOperationInProgress (v : bool) (w : World) : World :=
  signal (on_g (fun g => g <| g_modOperation := v |>) w).
Definition setAutostartEnabled (v : bool) (w : World) : World :=
  signal (on_g (fun g => g <| g_autoStart := v |>) w).

Definition SetAutolaunch (autolaunch report : bool) (w : World) : World :=
  if negb autolaunch && g_autoStart (w_g w) then
    let w := setAutostartEnabled false w in
    if report then emit (ENotice "Auto-reboot has been turned OFF.") w else w
  else if autolaunch && negb (g_autoStart (w_g w)) then
    let w := setAutostartEnabled true w in
    if report then emit (ENotice "Auto-reboot has been ENABLED.") w else w
  else w.

(** One action of another goroutine.  [cmd.Wait] returns for a process that was
    started and exists no more; time does not run backwards. *)
Definition env_step (w : World) (o : env_op) : World :=
  match o with
  | EnvSubmit req done => (submitLifecycleRequest req done w).2
  | EnvReady g => NotifyFactorioReady g w
  | EnvSoftMod g => NotifySoftModDetected g w
  | EnvGoodbye g => NotifyFactorioGoodbye g w
  | EnvWait g err =>
      if bool_decide (g ∈ w_launched w) && negb (bool_decide (g ∈ w_live w))
      then NotifyFactorioProcessExit g err w else w
  | EnvProgress g kind detail => NotifyFactorioProgress g kind detail w
  | EnvHealth g kind err => NotifyFactorioHealth g kind err w
  | EnvShutdown => RequestShutdown w
  | EnvSetUpdate v => SetUpdateInProgress v w
  | EnvSetModOperation v => SetModOperationInProgress v w
  | EnvAutostart v => SetAutolaunch v false w
  | EnvPlayers n => on_g (fun g => g <| g_numPlayers := n |>) w
  | EnvFactorioUpdated => on_g (fun g => g <| g_updatePending := true |>) w
  | EnvInjectSoftMod v => on_g (fun g => g <| g_InjectSoftMod := v |>) w
  | EnvProcessDies g => w <| w_live ::= filter (fun h => h <> g) |>
  | EnvTime d => w <| w_clock ::= fun t => t + Z.max 0 d |>
  | EnvOpCall c => on_op (run_call ChatChannel delete_ok (w_clock w) c) w
  | EnvOpTask i =>
      match ow_tasks (w_op w) !! i with
      | Some (due, t) =>
          if due <=? w_clock w
          then on_op (fun o => run_task ChatChannel delete_ok (w_clock w) t (o <| ow_tasks ::= delete i |>)) w
          else w
      | None => w
      end
  end.

(** A scheduling point: the others run. *)
Definition env_point (w : World) : World :=
  foldl env_step w (sched (w_tick w)) <| w_tick ::= S |>.

(** ** The manager's code as a state monad

    [None]: the fuel of a loop ran out. *)
Definition LM (A : Type) : Type := World -> option (A * World).
#[export] Instance LM_ret : MRet LM := fun A a w => Some (a, w).
#[export] Instance LM_bind : MBind LM := fun A B f m w =>
  match m w with Some (a, w) => f a w | None => None end.

(** A locked region, or one access to a shared value. *)
Definition locked {A} (f : World -> A * World) : LM A := fun w => Some (f (env_point w)).
Definition update (f : World -> World) : LM unit := locked (fun w => (tt, f w)).
Definition get {A} (f : World -> A) : LM A := locked (fun w => (f w, w)).
Definition now : LM time := get w_clock.
Definition sleep (d : duration) : LM unit := update (fun w => w <| w_clock ::= fun t => t + Z.max 0 d |>).
Definition out_of_fuel {A} : LM A := fun _ => None.

Definition UpdateInProgress (w : World) : bool := g_update (w_g w).
Definition ModOperationInProgress (w : World) : bool := g_modOperation (w_g w).

(** [isCurrentFactorioProcessAlive]: the handle's process exists. *)
Definition lifecycleProcessAlive (w : World) : bool :=
  match g_FactorioCmd (w_g w) with
  | Some (_, gen) => bool_decide (gen ∈ w_live w)
  | None => false
  end.

(** ** The operation status of the running request *)
Definition actionPriority (kind : ActionKind) : Z :=
  match kind with
  | ActionRestartChatWire => 50
  | ActionChangeMap | ActionMapReset => 40
  | ActionRestartFactorio => 30
  | ActionStop => 20
  | ActionStart => 10
  | UnknownAction _ => 0
  end.

Definition lifecycleOperationTitle (kind : ActionKind) : string :=
  match kind with
  | ActionStart => "Starting Factorio"
  | ActionStop => "Stopping Factorio"
  | ActionRestartFactorio => "Restarting Factorio"
  | ActionRestartChatWire => "Restarting ChatWire"
  | ActionChangeMap => "Changing Map"
  | ActionMapReset => "Resetting Map"
  | UnknownAction _ => "Operation"
  end.

Definition lifecycleOperationDescriptionForKind (kind : ActionKind) (saveName : string) : string :=
  match kind with
  | ActionStart => StatusStartingFactorio
  | ActionStop => StatusStoppingFactorio
  | ActionRestartFactorio => StatusRestartingFactorio
  | ActionRestartChatWire => StatusRestartingChatWire
  | ActionChangeMap => StatusChangingMap saveName
  | ActionMapReset => StatusResettingMap
  | UnknownAction _ => "Operation in progress."
  end.

Definition set_operation (token : string) (kind : ActionKind) (saveName : string) : World -> World :=
  on_m (fun m => m <| m_operationToken := token |> <| m_operationKind := kind |>
                   <| m_operationSaveName := saveName |>).
Definition clear_operation : World -> World := set_operation "" NoAction "".

(** A call of the operation status at one reading of the clock. *)
Definition op_call_now (f : time -> OpWorld -> OpWorld) : LM unit :=
  update (fun w => on_op (f (w_clock w)) w).

Definition beginOperation (req : lifecycleRequest) : LM unit :=
  let kind := lr_kind req in
  let title := lifecycleOperationTitle kind in
  let description := lifecycleOperationDescriptionForKind kind (r_SaveName (lr_req req)) in
  now0 ← now; now1 ← now; now2 ← now;
  token ← locked (fun w =>
    let '(token, o) := BeginOperation now0 now1 now2 title description (w_op w) in
    (token, w <| w_op := o |>));
  update (set_operation token kind (r_SaveName (lr_req req)));;
  op_call_now (fun t => AnnounceOperationNow ChatChannel delete_ok t token title description).

Definition take_operation : LM (string * string) :=
  locked (fun w => ((m_operationToken (w_m w), lifecycleOperationTitle (m_operationKind (w_m w))),
                    clear_operation w)).

Definition finishOperationError (err : error) : LM unit :=
  match err with
  | None => mret tt
  | Some e =>
      '(token, title) ← take_operation;
      op_call_now (fun t => FailOperation ChatChannel delete_ok t token title e)
  end.

Definition updateOperationProgress (description : string) : LM unit :=
  '(token, title) ← get (fun w => (m_operationToken (w_m w), lifecycleOperationTitle (m_operationKind (w_m w))));
  op_call_now (fun t => UpdateOperationProgress ChatChannel delete_ok t token title description).

Definition updateOperationProgressDelayedWithReminder (description reminder : string) (delay : duration) : LM unit :=
  '(token, title) ← get (fun w => (m_operationToken (w_m w), lifecycleOperationTitle (m_operationKind (w_m w))));
  op_call_now (fun t => UpdateOperationProgressDelayedWithReminder ChatChannel delete_ok t t token title
                          description reminder delay).

(** ** The end of a process *)
Definition signal_killed (err : error) : bool :=
  match err with Some e => Contains e "signal: killed" | None => false end.

Definition set_lastError (err : error) : lifecycleManager -> lifecycleManager := fun m =>
  match err with Some e => m <| m_lastError := e |> | None => m end.

Definition shouldReportOfflineStatus (opKind : ActionKind) (exitErr : error) : bool :=
  match exitErr with
  | Some _ => true
  | None => match opKind with
            | ActionRestartFactorio | ActionRestartChatWire | ActionChangeMap | ActionMapReset => false
            | _ => true
            end
  end.

Definition follow_up (k : ActionKind) : bool :=
  match k with
  | ActionRestartFactorio | ActionRestartChatWire | ActionChangeMap | ActionMapReset => true
  | _ => false
  end.

Definition crash_message : string :=
  cfg_GroupName +:+ "-" +:+ cfg_Callsign +:+ ": " +:+ cfg_Name +:+
  ": Factorio crashed repeatedly during startup while loading. Moderator attention required, auto-start option disabled.".

(** The crash-loop counter: three start-ups that end within two minutes turn
    the automatic start off.  (The counter is an [int] in the code; from the third
    such start-up on the automatic start is off, and it does not get near the limit.) *)
Definition count_crash (startedAt : time) (w : World) : World :=
  let early := negb (IsZero startedAt) && (Sub (w_clock w) startedAt <? 2 * Minute) in
  let w := on_g (fun g => g <| g_CrashLoopCount := if early then g_CrashLoopCount g + 1 else 0 |>
                            <| g_LastCrash := w_clock w |>) w in
  if 3 <=? g_CrashLoopCount (w_g w) then
    emit (EReport crash_message) (on_g (fun g => g <| g_cfgAutoStart := false |>) (SetAutolaunch false true w))
  else w.

Record stopped_info := mkStoppedInfo {
  si_opToken : string; si_opKind : ActionKind; si_opSaveName : string; si_wasStarting : bool; si_continuing : bool
}.

(** The fields of a manager that has no process. *)
Definition reset_stopped (clock : time) (continuing : bool) (exitErr : error) (m : lifecycleManager) : lifecycleManager :=
  let m := m <| m_phase := LifecycleStopped |> <| m_phaseSince := clock |> <| m_booted := false |>
             <| m_startedAt := zeroTime |> <| m_readyAt := zeroTime |> <| m_lastProgressAt := zeroTime |>
             <| m_lastProgressKind := "" |> <| m_healthRestartQueued := false |>
             <| m_softModUpdateRecovery := false |> in
  let m := if continuing then m
           else m <| m_operationToken := "" |> <| m_operationKind := NoAction |> <| m_operationSaveName := "" |> in
  let m := m <| m_currentPID := 0 |> <| m_currentAction := "" |> in
  if signal_killed exitErr then m else set_lastError exitErr m.

(** The phase, the flags and the handles once the process is gone.  A boot that
    was verifying an update hands the verification to the next launch. *)
Definition mark_stopped (continuing : bool) (exitErr : error) (w : World) : World :=
  let w := if m_softModUpdateRecovery (w_m w) then on_g (fun g => g <| g_updatePending := true |>) w else w in
  let w := syncCompatibilityLocked (on_m (reset_stopped (w_clock w) continuing exitErr) w) in
  on_g (fun g => g <| g_pipe := None |> <| g_FactorioCmd := None |>) w.

(** The locked part of [finalizeStopped]; [None] when it returns early. *)
Definition finalize_locked (generation : Z) (exitErr : error) (report : bool) (w : World)
    : option stopped_info * World :=
  let m := w_m w in
  if negb (generation =? m_currentGeneration m) && negb (generation =? 0) then (None, w)
  else if bool_decide (m_phase m = LifecycleStopped) then (None, w)
  else
    let wasStarting := bool_decide (m_phase m = LifecycleStarting) in
    let wasRunning := bool_decide (m_phase m = LifecycleRunning) || m_booted m in
    let startedAt := m_startedAt m in
    let opKind := m_operationKind m in
    let continuing := bool_decide (m_phase m = LifecycleStopping) && follow_up opKind in
    let info := mkStoppedInfo (m_operationToken m) opKind (m_operationSaveName m) wasStarting continuing in
    let w := mark_stopped continuing exitErr w in
    let w := if report && wasRunning && shouldReportOfflineStatus opKind exitErr
             then emit (ENotice StatusFactorioOffline) w else w in
    let w := if wasStarting then count_crash startedAt w else w in
    (Some info, w).

Definition stop_description (si : stopped_info) (exitErr : error) : string :=
  let desc := if si_wasStarting si then "Factorio stopped before startup completed."
              else "Factorio stopped unexpectedly." in
  let desc := match exitErr with
              | Some e => if signal_killed exitErr then desc else e
              | None => desc
              end in
  if bool_decide (si_opKind si = ActionChangeMap) && bool_decide (si_opSaveName si <> "") && si_wasStarting si
  then "Map change to " +:+ si_opSaveName si +:+ " did not complete." else desc.

Definition is_some {A} (o : option A) : bool := match o with Some _ => true | None => false end.

Definition finalizeStopped (generation : Z) (exitErr : error) (report : bool) : LM unit :=
  info ← locked (finalize_locked generation exitErr report);
  match info with
  | None => mret tt
  | Some si =>
      let token := si_opToken si in
      (if bool_decide (token <> "") then op_call_now (fun _ => CancelOperationDelayedProgress token)
       else mret tt);;
      (if bool_decide (token <> "") && negb (is_some exitErr) && bool_decide (si_opKind si = ActionStop)
       then op_call_now (fun t => CancelOperation ChatChannel delete_ok t token) else mret tt);;
      (if bool_decide (token <> "") && negb (si_continuing si) && (si_wasStarting si || is_some exitErr)
       then op_call_now (fun t => FailOperation ChatChannel delete_ok t token
                                    (lifecycleOperationTitle (si_opKind si)) (stop_description si exitErr))
       else mret tt)
  end.

(** ** Events *)
Definition handleGoodbyeEvent (generation : Z) : LM unit := update id.

Definition handleExitEvent (evt : processExitEvent) : LM unit :=
  if ee_generation evt =? 0 then mret tt else finalizeStopped (ee_generation evt) (ee_err evt) true.

Definition progress_locked (evt : lifecycleProgressEvent) (w : World) : option (ActionKind * string) * World :=
  let m := w_m w in
  if negb (pe_generation evt =? m_currentGeneration m) || (pe_generation evt =? 0) then (None, w)
  else (Some (m_operationKind m, m_operationSaveName m),
        on_m (fun m => m <| m_lastProgressAt := pe_at evt |> <| m_lastProgressKind := pe_kind evt |>) w).

Definition handleProgressEvent (evt : lifecycleProgressEvent) : LM unit :=
  r ← locked (progress_locked evt);
  match r with
  | None => mret tt
  | Some (opKind, saveName) =>
      let show d r := updateOperationProgressDelayedWithReminder d r lifecycleOptionalProgressDelay in
      let kind := pe_kind evt in
      if bool_decide (kind = "mod-load") then
        show (StatusLoadingMods (pe_detail evt)) (StatusLoadingModsStill (pe_detail evt))
      else if bool_decide (kind = "map-load") then
        let name := if bool_decide (opKind = ActionChangeMap) then saveName else "" in
        show (StatusLoadingMap name) (StatusLoadingMapStill name)
      else if bool_decide (kind = "save") then show StatusSavingMap StatusSavingMapStill
      else if bool_decide (kind = "rcon-ready") then
        show StatusBringingServerOnline StatusBringingServerOnlineStill
      else mret tt
  end.

Inductive health_verdict := HealthIgnored | HealthDead | HealthRestart (queued : bool).

Definition health_request (evt : lifecycleHealthEvent) (clock : time) : lifecycleRequest :=
  mkLR (plainRequest ActionRestartFactorio
          ("Factorio health issue detected (" +:+ he_kind evt +:+ "): " +:+ he_err evt)
          ("health-" +:+ Itoa (he_generation evt) +:+ "-" +:+ he_kind evt)) None clock "".

Definition health_locked (evt : lifecycleHealthEvent) (w : World) : health_verdict * World :=
  if negb (he_generation evt =? m_currentGeneration (w_m w)) then (HealthIgnored, w)
  else
    let w := if bool_decide (he_err evt <> "") then on_m (fun m => m <| m_lastError := he_err evt |>) w else w in
    let phase := m_phase (w_m w) in
    if bool_decide (phase = LifecycleStopping) || bool_decide (phase = LifecycleStopped) then (HealthIgnored, w)
    else if negb (lifecycleProcessAlive w) then (HealthDead, w)
    else if m_healthRestartQueued (w_m w) then (HealthRestart false, w)
    else (HealthRestart true,
          enqueue (health_request evt (w_clock w)) (on_m (fun m => m <| m_healthRestartQueued := true |>) w)).

Definition handleHealthEvent (evt : lifecycleHealthEvent) : LM unit :=
  if he_generation evt =? 0 then mret tt
  else
    verdict ← locked (health_locked evt);
    match verdict with
    | HealthIgnored => mret tt
    | HealthDead =>
        finishOperationError (Some (he_kind evt));;
        finalizeStopped (he_generation evt) (Some (he_kind evt)) true
    | HealthRestart queued =>
        updateOperationProgress ("Detected a Factorio health issue (" +:+ he_kind evt +:+
                                 "). A controlled restart has been queued.");;
        (if (queued : bool) then update signal else mret tt)
    end.

Definition ready_locked (generation : Z) (w : World) : option (string * ActionKind * string) * World :=
  let m := w_m w in
  if negb (generation =? m_currentGeneration m) || bool_decide (m_phase m <> LifecycleStarting) then (None, w)
  else
    let w := syncCompatibilityLocked (on_m (fun m => m <| m_phase := LifecycleRunning |>
               <| m_phaseSince := w_clock w |> <| m_booted := true |> <| m_readyAt := w_clock w |>) w) in
    (Some (m_operationToken m, m_operationKind m, m_operationSaveName m), clear_operation w).

(** A new map or a pending save counts as loaded once the server is ready. *)
Definition clear_pending_save (g : globals) : globals :=
  if bool_decide (g_PendingSave g <> "") || g_NewMap g
  then g <| g_PendingSave := "" |> <| g_NewMap := false |> else g.

Definition complete_operation (token title description : string) : LM unit :=
  op_call_now (fun t => CompleteOperation ChatChannel delete_ok t token title description).

Definition handleReadyEvent (generation : Z) : LM unit :=
  r ← locked (ready_locked generation);
  match r with
  | None => mret tt
  | Some (token, kind, saveName) =>
      d ← get (fun w => ready_wait (w_tick w));
      sleep d;;
      readyMsg ← get (fun w => StatusFactorioOnline (ready_version (w_tick w)));
      update (on_g clear_pending_save);;
      update (emit (ENotice readyMsg));;
      update (on_g (fun g => g <| g_CrashLoopCount := 0 |>));;
      match kind with
      | ActionStart | ActionRestartFactorio => complete_operation token "" ""
      | ActionChangeMap =>
          complete_operation token (lifecycleOperationTitle kind)
            (if bool_decide (saveName <> "") then "Map change to " +:+ saveName +:+ " complete."
             else "Map change complete.")
      | ActionMapReset => complete_operation token (lifecycleOperationTitle kind) "Map reset complete."
      | _ => mret tt
      end
  end.

(** ** Channels: a [select] takes one of those that are ready *)
Inductive chan_event :=
  | OnReady (gen : Z) | OnGoodbye (gen : Z) | OnExit (evt : processExitEvent)
  | OnProgress (evt : lifecycleProgressEvent) | OnHealth (evt : lifecycleHealthEvent).

Definition receive_ready (m : lifecycleManager) : list (chan_event * lifecycleManager) :=
  match m_readyCh m with [] => [] | g :: l => [(OnReady g, m <| m_readyCh := l |>)] end.
Definition receive_goodbye (m : lifecycleManager) : list (chan_event * lifecycleManager) :=
  match m_goodbyeCh m with [] => [] | g :: l => [(OnGoodbye g, m <| m_goodbyeCh := l |>)] end.
Definition receive_exit (m : lifecycleManager) : list (chan_event * lifecycleManager) :=
  match m_exitCh m with [] => [] | e :: l => [(OnExit e, m <| m_exitCh := l |>)] end.
Definition receive_progress (m : lifecycleManager) : list (chan_event * lifecycleManager) :=
  match m_progressCh m with [] => [] | e :: l => [(OnProgress e, m <| m_progressCh := l |>)] end.
Definition receive_health (m : lifecycleManager) : list (chan_event * lifecycleManager) :=
  match m_healthCh m with [] => [] | e :: l => [(OnHealth e, m <| m_healthCh := l |>)] end.

Definition select (ready : lifecycleManager -> list (chan_event * lifecycleManager)) (w : World)
    : option chan_event * World :=
  let l := ready (w_m w) in
  match l !! (select_choice (w_tick w) mod length l)%nat with
  | Some (e, m) => (Some e, w <| w_m := m |>)
  | None => (None, w)
  end.

Definition stop_channels (m : lifecycleManager) : list (chan_event * lifecycleManager) :=
  receive_exit m ++ receive_goodbye m ++ receive_ready m ++ receive_progress m.
Definition all_channels (m : lifecycleManager) : list (chan_event * lifecycleManager) :=
  receive_ready m ++ receive_goodbye m ++ receive_exit m ++ receive_progress m ++ receive_health m.

Fixpoint drainAsyncEvents (fuel : nat) : LM unit :=
  match fuel with
  | O => out_of_fuel
  | S fuel =>
      e ← locked (select all_channels);
      match e with
      | None => mret tt
      | Some e =>
          match e with
          | OnReady gen => handleReadyEvent gen
          | OnGoodbye gen => handleGoodbyeEvent gen
          | OnExit evt => handleExitEvent evt
          | OnProgress evt => handleProgressEvent evt
          | OnHealth evt => handleHealthEvent evt
          end;;
          drainAsyncEvents fuel
      end
  end.

(** ** Stopping *)
Definition shouldExtendStopDeadline (kind : string) : bool :=
  negb (bool_decide (kind = "") || bool_decide (kind = "stop-requested") || bool_decide (kind = "spawn")).

Definition extend_deadline (kind : string) (at_ deadline : time) : time :=
  if bool_decide (kind = "save") && negb (IsZero at_) then
    let saveDeadline := Add at_ lifecycleStopSaveTimeout in
    if After saveDeadline deadline then saveDeadline else deadline
  else if shouldExtendStopDeadline kind && negb (IsZero at_) then
    let progressDeadline := Add at_ lifecycleStopIdleTimeout in
    if After progressDeadline deadline then progressDeadline else deadline
  else deadline.

(** What the wait does with the event it selected; [loop] goes round again. *)
Definition wait_event (generation : Z) (loop : bool -> LM bool) (goodbyeSeen : bool) (e : option chan_event) : LM bool :=
  match e with
  | None => sleep lifecycleStopPollInterval;; loop goodbyeSeen
  | Some (OnExit evt) =>
      handleExitEvent evt;;
      if ee_generation evt =? generation then mret true else loop goodbyeSeen
  | Some (OnGoodbye gen) => loop (goodbyeSeen || (gen =? generation))
  | Some (OnReady gen) =>
      (if gen =? generation then handleReadyEvent gen else mret tt);; loop goodbyeSeen
  | Some (OnProgress evt) => handleProgressEvent evt;; loop goodbyeSeen
  | Some (OnHealth _) => loop goodbyeSeen
  end.

(** One round of the wait. *)
Definition wait_body (generation : Z) (allowGoodbye : bool) (loop : time -> bool -> LM bool)
    (deadline : time) (goodbyeSeen : bool) : LM bool :=
  '(lastProgressAt, lastProgressKind) ← get (fun w => (m_lastProgressAt (w_m w), m_lastProgressKind (w_m w)));
  let deadline := extend_deadline lastProgressKind lastProgressAt deadline in
  gone ← (if allowGoodbye && goodbyeSeen then alive ← get lifecycleProcessAlive; mret (negb alive)
          else mret false);
  if (gone : bool) then finalizeStopped generation None true;; mret true
  else
    alive ← get lifecycleProcessAlive;
    if negb alive then finalizeStopped generation None true;; mret true
    else
      t ← now;
      if After t deadline then mret false
      else
        e ← locked (select stop_channels);
        wait_event generation (loop deadline) goodbyeSeen e.

Fixpoint wait_loop (fuel : nat) (generation : Z) (allowGoodbye : bool) (deadline : time) (goodbyeSeen : bool) : LM bool :=
  match fuel with
  | O => out_of_fuel
  | S fuel => wait_body generation allowGoodbye (wait_loop fuel generation allowGoodbye) deadline goodbyeSeen
  end.

Definition waitForStop (fuel : nat) (generation : Z) (timeout : duration) (allowGoodbye : bool) : LM bool :=
  t ← now; wait_loop fuel generation allowGoodbye (Add t timeout) false.

(** The first locked region of [executeStop]: the generation and whether it had
    booted, or nothing when the server is stopped already. *)
Definition stop_begin (w : World) : option (Z * bool) * World :=
  if bool_decide (m_phase (w_m w) = LifecycleStopped) then
    (None, syncCompatibilityLocked (on_m (fun m => m <| m_currentAction := "" |>) w))
  else
    let booted := m_booted (w_m w) in
    (Some (m_currentGeneration (w_m w), booted),
     syncCompatibilityLocked (on_m (fun m => m <| m_phase := LifecycleStopping |>
       <| m_phaseSince := w_clock w |> <| m_lastProgressAt := w_clock w |>
       <| m_lastProgressKind := "stop-requested" |>) w)).

Definition colours : list string := ["red"; "green"; "blue"; "white"; "black"].
Definition warn_players (reason : string) (w : World) : World :=
  foldl (fun w c => emit (EChat ("[color=" +:+ c +:+ "]" +:+ reason +:+ "[/color]")) w) w colours.

(** [WriteFact("/quit")]: a failed or missing pipe is reported as a health event. *)
Definition lifecycleSendQuit (w : World) : World :=
  match g_pipe (w_g w) with
  | None => NotifyFactorioHealth 0 "stdin-missing" "factorio stdin pipe is nil" w
  | Some gen =>
      match quit_write_err (w_tick w) with
      | None => emit (ESend "/quit") w
      | Some (kind, err) => NotifyFactorioHealth gen kind err w
      end
  end.

Definition stop_timed_out : string := "Factorio stop timed out".

Definition executeStop (fuel : nat) (reason : string) : LM error :=
  r ← locked stop_begin;
  match r with
  | None => mret None
  | Some (gen, booted) =>
      let reason := if bool_decide (reason = "") then "Server quitting." else reason in
      update (on_g (fun g => g <| g_RelaunchThrottle := 0 |>));;
      players ← get (fun w => g_numPlayers (w_g w));
      (if booted && (0 <? players) then update (warn_players reason);; sleep lifecyclePlayerWarnDelay
       else mret tt);;
      running ← get (fun w => g_FactIsRunning (w_g w));
      (if booted && running then update lifecycleSendQuit else mret tt);;
      stopped ← waitForStop fuel gen lifecycleStopGraceTimeout false;
      if (stopped : bool) then mret None
      else
        update (emit EInterrupt);;
        stopped ← waitForStop fuel gen lifecycleStopInterruptTimeout true;
        if (stopped : bool) then mret None
        else
          update (emit EKill);;
          stopped ← waitForStop fuel gen lifecycleStopKillTimeout true;
          if (stopped : bool) then mret None
          else
            update (on_m (fun m => m <| m_lastError := stop_timed_out |>));;
            mret (Some stop_timed_out)
  end.

(** ** Starting *)
Definition within_hours (w : World) : bool :=
  match WithinHours with None => true | Some f => f (w_tick w) end.

(** The first locked region of [executeStart]: an early return, or the new generation.
    (The generation is a [uint64] in the code; that one run of the program launches 2^64
    servers is left out.) *)
Definition start_begin (w : World) : result error Z * World :=
  let clear_action := on_m (fun m => m <| m_currentAction := "" |>) in
  let m := w_m w in
  if bool_decide (m_phase m = LifecycleRunning) || bool_decide (m_phase m = LifecycleStarting)
  then (Err None, clear_action w)
  else if bool_decide (m_phase m = LifecycleStopping)
  then (Err (Some "Factorio is still stopping; refusing to launch another process"), w)
  else if UpdateInProgress w || ModOperationInProgress w
  then (Err (Some "factorio update or mod operation is in progress"), clear_action w)
  else if negb (within_hours w)
  then (Err (Some "outside allowed play hours"), clear_action w)
  else
    let gen := m_currentGeneration m + 1 in
    (Ok gen,
     syncCompatibilityLocked (on_m (fun m => m <| m_phase := LifecycleStarting |>
       <| m_phaseSince := w_clock w |> <| m_startedAt := w_clock w |> <| m_lastProgressAt := w_clock w |>
       <| m_lastProgressKind := "spawn" |> <| m_readyAt := zeroTime |> <| m_booted := false |>
       <| m_softModDetected := false |> <| m_softModUpdateRecovery := false |> <| m_currentPID := 0 |>
       <| m_currentGeneration := gen |>) w)).

(** The hook, [support.LaunchFactorio]: on success the operating system has a
    new process and the handle and the pipe are the new generation's. *)
Definition LaunchFactorio (generation : Z) (saveName : string) (w : World) : error * World :=
  match launch_outcome (w_tick w) generation saveName with
  | LaunchOk pid throttle =>
      (None, emit (ELaunch generation saveName (w_live w))
        (on_g (fun g => g <| g_FactorioCmd := Some (pid, generation) |> <| g_pipe := Some generation |>
                          <| g_RelaunchThrottle := throttle |>) w
           <| w_launched ::= cons generation |> <| w_live ::= cons generation |>))
  | LaunchFailed err disable => (Some err, if disable then SetAutolaunch false true w else w)
  end.

Definition launch_failed (err : string) (w : World) : World :=
  syncCompatibilityLocked (on_m (fun m => m <| m_phase := LifecycleStopped |> <| m_phaseSince := w_clock w |>
    <| m_startedAt := zeroTime |> <| m_currentPID := 0 |> <| m_booted := false |> <| m_lastError := err |>) w).

Definition launch_finished (w : World) : World :=
  let pending := g_updatePending (w_g w) in
  let w := on_g (fun g => g <| g_updatePending := false |>) w in
  let w := on_m (fun m => m <| m_softModUpdateRecovery :=
             pending && g_InjectSoftMod (w_g w) && negb (m_softModDetected m) |>) w in
  let w := match g_FactorioCmd (w_g w) with
           | Some (pid, _) => on_m (fun m => m <| m_currentPID := pid |>) w
           | None => w
           end in
  syncCompatibilityLocked w.

Definition executeStart (reason saveName : string) : LM error :=
  r ← locked start_begin;
  match r with
  | Err err => mret err
  | Ok gen =>
      err ← locked (LaunchFactorio gen saveName);
      match err with
      | Some e => update (launch_failed e);; mret (Some e)
      | None => update launch_finished;; mret None
      end
  end.

(** ** The watchdogs of the manager's loop *)
Definition blocks_recovery (r : lifecycleRequest) : bool :=
  match lr_kind r with
  | ActionRestartFactorio | ActionRestartChatWire | ActionStop | ActionChangeMap | ActionMapReset => true
  | _ => false
  end.

Definition recovery_request (clock : time) (m : lifecycleManager) : lifecycleRequest :=
  mkLR (plainRequest ActionRestartFactorio "SoftMod missing after Factorio update; rebooting to restore it."
          ("softmod-update-recovery-" +:+ Itoa (m_currentGeneration m))) None clock "".

Definition recovery_due (t : time) (w : World) : bool :=
  let m := w_m w in
  m_softModUpdateRecovery m && negb (m_softModDetected m) && g_InjectSoftMod (w_g w) &&
  bool_decide (m_phase m = LifecycleRunning) && m_booted m && negb (IsZero (m_readyAt m)) &&
  negb (Sub t (m_readyAt m) <? softModUpdateStartupGrace) && negb (UpdateInProgress w) &&
  negb (ModOperationInProgress w) && negb (m_shutdownRequested m).

Definition softmod_locked (t : time) (w : World) : World :=
  if negb (recovery_due t w) then w
  else if existsb blocks_recovery (m_queue (w_m w)) then w
  else enqueue (recovery_request t (w_m w)) (on_m (fun m => m <| m_softModUpdateRecovery := false |>) w).

Definition checkSoftModAfterUpdate (t : time) : LM unit := update (softmod_locked t).

Definition startup_overdue (t startedAt lastProgressAt : time) : bool :=
  if Sub t startedAt <=? lifecycleStartupHardTimeout then
    let progressRef := if IsZero lastProgressAt then startedAt else lastProgressAt in
    negb (Sub t progressRef <=? lifecycleStartupIdleTimeout)
  else true.

Definition startup_timeout_text (elapsed : duration) (kind : string) : string :=
  "Factorio startup timed out after " +:+ show_duration elapsed +:+ " (last progress: " +:+ kind +:+ ")".

Definition checkStartupTimeout : LM unit :=
  r ← get (fun w => let m := w_m w in
        if bool_decide (m_phase m <> LifecycleStarting) || IsZero (m_startedAt m) then None
        else Some (m_startedAt m, m_lastProgressAt m, m_lastProgressKind m));
  match r with
  | None => mret tt
  | Some (startedAt, lastProgressAt, kind) =>
      t ← now;
      if startup_overdue t startedAt lastProgressAt then
        finishOperationError (Some (startup_timeout_text (Sub t startedAt) kind));;
        update (fun w =>
          let n := wrap 64 (g_reqCounter (w_g w) + 1) in
          (submitLifecycleRequest
             (plainRequest ActionRestartFactorio
                (startup_timeout_text (Sub t startedAt) kind +:+ "; forcing restart.")
                ("startup-timeout-" +:+ Itoa n)) None
             (on_g (fun g => g <| g_reqCounter := n |>) w)).2)
      else mret tt
  end.

Definition reconcileProcessHealth : LM unit :=
  '(phase, generation) ← get (fun w => (m_phase (w_m w), m_currentGeneration (w_m w)));
  if bool_decide (phase = LifecycleStopped) || (generation =? 0) then mret tt
  else
    alive ← get lifecycleProcessAlive;
    if negb alive then finalizeStopped generation (Some "factorio process no longer alive") true
    else if bool_decide (phase = LifecycleStarting) || bool_decide (phase = LifecycleRunning) then
      pipe ← get (fun w => g_pipe (w_g w));
      match pipe with
      | None => update (NotifyFactorioHealth generation "stdin-missing" "factorio stdin pipe is not available")
      | Some _ => mret tt
      end
    else mret tt.

(** ** The queue *)
Definition requestRunnableLocked (req : lifecycleRequest) (w : World) : bool :=
  let r := lr_req req in
  if (UpdateInProgress w || ModOperationInProgress w) && bool_decide (r_Kind r <> ActionStop)
     && negb (bool_decide (r_Kind r = ActionRestartChatWire) && r_ForceChatWireExit r)
  then false
  else if r_WhenEmpty r && bool_decide (m_phase (w_m w) <> LifecycleStopped) && (0 <? g_numPlayers (w_g w))
  then false
  else true.

(** The scan of the queue: the index and the score of the best request so far. *)
Fixpoint best_request (w : World) (i : nat) (best : option (nat * Z)) (q : list lifecycleRequest) : option (nat * Z) :=
  match q with
  | [] => best
  | req :: q =>
      let best :=
        if negb (requestRunnableLocked req w) then best
        else
          let score := actionPriority (lr_kind req) in
          match best with
          | None => Some (i, score)
          | Some (_, bestScore) => if bestScore <? score then Some (i, score) else best
          end in
      best_request w (S i) best q
  end.

Definition nextRequest (w : World) : option lifecycleRequest * World :=
  match best_request w 0 None (m_queue (w_m w)) with
  | None => (None, w)
  | Some (i, _) =>
      match m_queue (w_m w) !! i with
      | None => (None, w)
      | Some req =>
          (Some req, syncCompatibilityLocked (on_m (fun m => m <| m_queue ::= delete i |>
                       <| m_currentAction := action_name (lr_kind req) |>) w))
      end
  end.

Definition requestNoop (req : lifecycleRequest) (w : World) : bool :=
  match lr_kind req with
  | ActionStart => bool_decide (m_phase (w_m w) = LifecycleRunning) || bool_decide (m_phase (w_m w) = LifecycleStarting)
  | ActionStop => bool_decide (m_phase (w_m w) = LifecycleStopped)
  | _ => false
  end.

Definition reply (req : lifecycleRequest) (err : error) (w : World) : World :=
  match lr_done req with Some d => emit (EReply d err) w | None => w end.

(** [doChangeMapAfterStop]: promote the snapshot to the next save to load. *)
Definition doChangeMapAfterStop (snapshot : string) : LM error :=
  e ← get (fun w => chtimes_err (w_tick w) snapshot);
  match e with
  | Some err => mret (Some ("prepare selected save: " +:+ err))
  | None =>
      let destination := saves_path (cfg_Name +:+ "_new.zip") in
      e ← locked (fun w =>
        match rename_err (w_tick w) snapshot destination with
        | Some err => (Some err, w)
        | None => (None, emit (ERename snapshot destination) w)
        end);
      match e with
      | Some err => mret (Some ("install selected save: " +:+ err))
      | None =>
          update (on_g (fun g => g <| g_NewMap := false |> <| g_PendingSave := Base destination |>
                                   <| g_RelaunchThrottle := 0 |>));;
          mret None
      end
  end.

Definition autolaunch (v : bool) : LM unit := update (SetAutolaunch v false).

(** The stop, [prepare], start sequence of a map change and of a map reset. *)
Definition stop_prepare_start (fuel : nat) (reason : string) (prepare : LM (result string string)) : LM error :=
  wasAuto ← get (fun w => g_autoStart (w_g w));
  autolaunch false;;
  err ← executeStop fuel reason;
  r ← match err with Some e => mret (Err e) | None => prepare end;
  match (r : result string string) with
  | Ok saveName => autolaunch true;; executeStart reason saveName
  | Err e => autolaunch wasAuto;; mret (Some e)
  end.

Definition run_action (fuel : nat) (req : lifecycleRequest) : LM error :=
  let reason := r_Reason (lr_req req) in
  match lr_kind req with
  | ActionStart => executeStart reason ""
  | ActionStop => executeStop fuel reason
  | ActionRestartFactorio =>
      err ← executeStop fuel reason;
      match err with None => executeStart reason "" | Some e => mret (Some e) end
  | ActionRestartChatWire =>
      err ← executeStop fuel reason;
      match err with
      | Some e => mret (Some e)
      | None =>
          if has_ExitChatWire then
            let err := match r_BeforeExit (lr_req req) with Some e => e | None => None end in
            match err with
            | Some e => mret (Some e)
            | None => update (emit (EExitChatWire (r_ForceChatWireExit (lr_req req))));; mret None
            end
          else mret None
      end
  | ActionChangeMap =>
      stop_prepare_start fuel reason
        (err ← doChangeMapAfterStop (lr_saveSnapshot req);
         mret (match err with None => Ok (cfg_Name +:+ "_new.zip") | Some e => Err e end))
  | ActionMapReset => stop_prepare_start fuel reason (get (fun w => mapResetAfterStop (w_tick w)))
  | UnknownAction name => mret (Some ("unknown lifecycle action: " +:+ name))
  end.

Definition execute_staged (fuel : nat) (req : lifecycleRequest) : LM unit :=
  noop ← get (requestNoop req);
  (if (noop : bool) then mret tt else beginOperation req);;
  err ← run_action fuel req;
  update (fun w => syncCompatibilityLocked
    (on_m (fun m => set_lastError err (m <| m_currentAction := "" |>)) w));;
  (if negb noop then finishOperationError err else mret tt);;
  update (reply req err);;
  update (remove_snapshot (lr_saveSnapshot req)).

Definition execute (fuel : nat) (req : lifecycleRequest) : LM unit :=
  if bool_decide (lr_kind req = ActionChangeMap) && bool_decide (lr_saveSnapshot req = "") then
    r ← get (stageMapChange (r_SaveName (lr_req req)));
    match r with
    | Err e =>
        update (on_m (fun m => m <| m_currentAction := "" |> <| m_lastError := e |>));;
        update (reply req (Some e))
    | Ok snapshot => execute_staged fuel (req <| lr_saveSnapshot := snapshot |>)
    end
  else execute_staged fuel req.

Definition shouldAutoStart (w : World) : bool :=
  bool_decide (m_phase (w_m w) = LifecycleStopped) && g_autoStart (w_g w) &&
  negb (UpdateInProgress w) && negb (ModOperationInProgress w) && within_hours w.

Definition pollInterval (w : World) : duration :=
  if bool_decide (m_phase (w_m w) = LifecycleStopped) then lifecycleIdlePollInterval
  else lifecycleActivePollInterval.

(** [cancelPendingRequests], when the manager ends. *)
Definition cancelPendingRequests : LM unit :=
  queue ← locked (fun w => (m_queue (w_m w), syncCompatibilityLocked (on_m (fun m => m <| m_queue := [] |>) w)));
  update (fun w => foldl (fun w req =>
    reply req (Some "lifecycle manager stopped before request completed")
      (remove_snapshot (lr_saveSnapshot req) w)) w queue).

(** The wait for a signal, the timer or the shutdown. *)
Definition wait_round : LM unit :=
  d ← get pollInterval;
  update (fun w => if m_signalCh (w_m w) then on_m (fun m => m <| m_signalCh := false |>) w
                   else w <| w_clock ::= fun t => t + d |>).

(** One round of [run]; [false] when the manager ended. *)
Definition run_round (fuel : nat) : LM bool :=
  stop ← get (fun w => m_shutdownRequested (w_m w));
  if (stop : bool) then cancelPendingRequests;; mret false
  else
    drainAsyncEvents fuel;;
    reconcileProcessHealth;;
    checkStartupTimeout;;
    t ← now; checkSoftModAfterUpdate t;;
    req ← locked nextRequest;
    match req with
    | Some req => execute fuel req;; mret true
    | None =>
        start ← get shouldAutoStart;
        if (start : bool) then
          req ← locked (fun w =>
            let n := wrap 64 (g_reqCounter (w_g w) + 1) in
            (mkLR (plainRequest ActionStart "auto-start" ("auto-" +:+ Itoa n)) None (w_clock w) "",
             on_g (fun g => g <| g_reqCounter := n |>) w));
          execute fuel req;; mret true
        else wait_round;; mret true
    end.
End lifecycle.

(** A small environment for concrete runs: every launch succeeds, every hook
    and file operation works, and [schedule] is what the others do. *)
Definition sample_env (schedule : nat -> list env_op) : LifecycleEnv := {|
  sched := schedule;
  select_choice := fun _ => 0%nat;
  launch_outcome := fun _ _ _ => LaunchOk 4242 1;
  WithinHours := None;
  has_ExitChatWire := true;
  saves_path := fun name => "/srv/saves/" +:+ name;
  copy_snapshot := fun _ _ => Ok "/srv/saves/.cw-rewind-1.tmp.zip";
  chtimes_err := fun _ _ => None;
  rename_err := fun _ _ _ => None;
  mapResetAfterStop := fun _ => Ok "gen.zip";
  quit_write_err := fun _ => None;
  ready_wait := fun _ => 0;
  ready_version := fun _ => "2.0.1";
  show_duration := fun d => Itoa d;
  show_quoted := fun s => s;
  cfg_Name := "alpha";
  cfg_GroupName := "M45";
  cfg_Callsign := "a";
  ChatChannel := "chat";
  delete_ok := fun _ => true
|}.

(** The server of generation 1 dies at the 60th scheduling point. *)
Definition dying_env : LifecycleEnv :=
  sample_env (fun k => if (k =? 60)%nat then [EnvProcessDies 1; EnvWait 1 None] else []).
Definition quiet_env : LifecycleEnv := sample_env (fun _ => []).
