(* ===== verification/LifecycleInvariant.v ===== *)
(** * The invariant of the life cycle

    What holds whenever the manager's mutex is free: the phase agrees with the
    operating system's processes, and the exported flags agree with the
    manager.  Every step of every goroutine preserves it; the manager's code is
    proved with a small program logic over [LM] in which each assertion is
    stable under the other goroutines. *)
From S2P Require Import Prelude.
From S2P Require Import GoInt.
From S2P Require Import GoString.
From S2P Require Import GoPath.
From S2P Require Import GoTime.
From S2P Require Import OperationStatus.
From S2P Require Import Lifecycle.

(** The manager and the operating system's processes. *)
Record ProcInv (phase : LifecyclePhase) (booted : bool) (gen : Z) (exits : list processExitEvent)
    (cmd : option (Z * Z)) (launched live : list Z) (trace : list effect) : Prop := {
  inv_gen : 0 <= gen;
  inv_positive : phase <> LifecycleStopped -> 1 <= gen;
  inv_stopped : phase = LifecycleStopped -> live = [] /\ cmd = None /\ booted = false;
  inv_booted : booted = true -> phase = LifecycleRunning \/ phase = LifecycleStopping;
  inv_live : forall g, g ∈ live -> g = gen /\ exists pid, cmd = Some (pid, g);
  inv_nodup : NoDup live;
  inv_sub : forall g, g ∈ live -> g ∈ launched;
  inv_launched : forall g, g ∈ launched -> 1 <= g <= gen;
  inv_exits : forall e, e ∈ exits -> ee_generation e ∈ launched /\ ee_generation e ∉ live;
  inv_trace : forall g s l, ELaunch g s l ∈ trace -> l = []
}.

(** The manager and the flags exported for the rest of the program. *)
Record FlagInv (phase : LifecyclePhase) (booted : bool) (queue : list lifecycleRequest) (g : globals) : Prop := {
  inv_running : g_FactIsRunning g = bool_decide (phase <> LifecycleStopped);
  inv_bootedflag : g_FactorioBooted g = booted;
  inv_bootedAt : phase = LifecycleStopped -> g_FactorioBootedAt g = zeroTime;
  inv_reboot : g_QueueReboot g = existsb queued_reboot queue;
  inv_fact_reboot : g_QueueFactReboot g = existsb queued_fact_reboot queue;
  inv_reboot_cw : g_DoRebootCW g = existsb queued_reboot_cw queue
}.

Definition procs (w : World) : Prop :=
  ProcInv (m_phase (w_m w)) (m_booted (w_m w)) (m_currentGeneration (w_m w)) (m_exitCh (w_m w))
    (g_FactorioCmd (w_g w)) (w_launched w) (w_live w) (w_trace w).
Definition in_sync (w : World) : Prop :=
  FlagInv (m_phase (w_m w)) (m_booted (w_m w)) (m_queue (w_m w)) (w_g w).
Definition Inv (w : World) : Prop := procs w /\ in_sync w.

Lemma sync_in_sync w : in_sync (syncCompatibilityLocked w).
Proof.
  constructor; unfold syncCompatibilityLocked, on_g; simpl;
    repeat (case_bool_decide || case_match); simpl; done || congruence.
Qed.

(** [syncCompatibilityLocked] changes nothing the first half reads. *)
Lemma sync_procs w : procs (syncCompatibilityLocked w) <-> procs w.
Proof. unfold procs, syncCompatibilityLocked. simpl. by repeat case_match. Qed.

Lemma sync_Inv w : procs w -> Inv (syncCompatibilityLocked w).
Proof. intros. split; [by apply sync_procs|apply sync_in_sync]. Qed.

(** An effect that is not a launch. *)
Definition quiet (e : effect) : Prop := match e with ELaunch _ _ _ => False | _ => True end.

Lemma ProcInv_emit ph b g ex c la li tr e :
  quiet e -> ProcInv ph b g ex c la li tr -> ProcInv ph b g ex c la li (tr ++ [e]).
Proof.
  intros He []. constructor; auto. intros g' s l [Hin|Hin]%elem_of_app; [eauto|].
  apply list_elem_of_singleton in Hin as <-. done.
Qed.

Lemma emit_Inv e w : quiet e -> Inv w -> Inv (emit e w).
Proof. intros He [Hp Hf]. split; [by apply ProcInv_emit|done]. Qed.

Lemma emits_Inv {A} (f : A -> effect) (l : list A) w :
  (forall a, quiet (f a)) -> Inv w -> Inv (foldl (fun w a => emit (f a) w) w l).
Proof. intros Hq. revert w. induction l as [|a l IH]; intros w Hw; simpl; [done|]. apply IH, emit_Inv; auto. Qed.

(** Changing fields that neither half reads. *)
Lemma on_m_Inv f w :
  (forall m, m_phase (f m) = m_phase m /\ m_booted (f m) = m_booted m /\
     m_currentGeneration (f m) = m_currentGeneration m /\ m_exitCh (f m) = m_exitCh m /\ m_queue (f m) = m_queue m) ->
  Inv w -> Inv (on_m f w).
Proof.
  intros Hf [Hp Hs]. destruct (Hf (w_m w)) as (H1 & H2 & H3 & H4 & H5).
  unfold Inv, procs, in_sync in *. simpl. by rewrite H1, H2, H3, H4, H5.
Qed.

(** A change of globals that leaves the exported flags alone. *)
Definition keeps_flags (f : globals -> globals) : Prop :=
  forall g, g_FactIsRunning (f g) = g_FactIsRunning g /\
     g_FactorioBooted (f g) = g_FactorioBooted g /\ g_FactorioBootedAt (f g) = g_FactorioBootedAt g /\
     g_QueueReboot (f g) = g_QueueReboot g /\ g_QueueFactReboot (f g) = g_QueueFactReboot g /\
     g_DoRebootCW (f g) = g_DoRebootCW g.

Lemma on_g_sync f w : keeps_flags f -> in_sync w -> in_sync (on_g f w).
Proof.
  intros Hf Hs. destruct (Hf (w_g w)) as (H2 & H3 & H4 & H5 & H6 & H7). unfold in_sync in *. simpl.
  destruct Hs. constructor; rewrite ?H2, ?H3, ?H4, ?H5, ?H6, ?H7; auto.
Qed.

Lemma on_g_Inv f w :
  (forall g, g_FactorioCmd (f g) = g_FactorioCmd g) -> keeps_flags f -> Inv w -> Inv (on_g f w).
Proof.
  intros Hc Hf [Hp Hs]. split; [|by apply on_g_sync]. unfold procs in *. simpl. by rewrite Hc.
Qed.

Ltac frame_m := apply on_m_Inv; [intros ?; repeat (case_match || case_bool_decide); by simpl|].
Ltac frame_flags := intros ?; repeat (case_match || case_bool_decide); by simpl.
Ltac frame_g := apply on_g_Inv; [frame_flags|frame_flags|].

Lemma signal_Inv w : Inv w -> Inv (signal w).
Proof. intros. unfold signal. by frame_m. Qed.

Section preservation.
Context {Env : LifecycleEnv}.

Lemma remove_snapshot_Inv p w : Inv w -> Inv (remove_snapshot p w).
Proof. intros. unfold remove_snapshot. case_bool_decide; [by apply emit_Inv|done]. Qed.

Lemma setAutostart_Inv v w : Inv w -> Inv (setAutostartEnabled v w).
Proof. intros. unfold setAutostartEnabled. apply signal_Inv. by frame_g. Qed.

Lemma SetAutolaunch_Inv v r w : Inv w -> Inv (SetAutolaunch v r w).
Proof.
  intros. unfold SetAutolaunch.
  repeat case_match; try apply emit_Inv; try apply setAutostart_Inv; done.
Qed.

Lemma enqueue_Inv lr w : Inv w -> Inv (enqueue lr w).
Proof. intros [Hp _]. by apply sync_Inv. Qed.

Lemma assign_id_Inv req w : Inv w -> Inv (assign_id req w).2.
Proof. intros. unfold assign_id. case_match; simpl; [by frame_g|done]. Qed.

Lemma submit_Inv req done w : Inv w -> Inv (submitLifecycleRequest req done w).2.
Proof.
  intros Hw%(assign_id_Inv req). unfold submitLifecycleRequest.
  destruct (assign_id req w) as [req' w']. simpl in Hw.
  repeat case_match; simpl; try done; first [by apply remove_snapshot_Inv|by apply signal_Inv, enqueue_Inv].
Qed.

Lemma chan_send_elem {A} cap (x y : A) l : y ∈ chan_send cap x l -> y = x \/ y ∈ l.
Proof. unfold chan_send. case_match; [rewrite elem_of_app, list_elem_of_singleton|]; tauto. Qed.

Lemma env_step_Inv w o : Inv w -> Inv (env_step w o).
Proof.
  intros Hw. destruct o; simpl.
  - by apply submit_Inv.
  - unfold NotifyFactorioReady. apply signal_Inv. by frame_m.
  - unfold NotifySoftModDetected. apply signal_Inv. case_match; [by frame_m|done].
  - unfold NotifyFactorioGoodbye. apply signal_Inv. by frame_m.
  - case_match; [|done]. bool_hyps. unfold NotifyFactorioProcessExit. apply signal_Inv.
    destruct Hw as [[] Hs]. split; [|exact Hs]. constructor; simpl; auto.
    intros e [->|He]%chan_send_elem; auto.
  - unfold NotifyFactorioProgress. case_match; [done|]. apply signal_Inv. by frame_m.
  - unfold NotifyFactorioHealth. case_match; [done|]. apply signal_Inv. by frame_m.
  - unfold RequestShutdown. by frame_m.
  - unfold SetUpdateInProgress. apply signal_Inv. by frame_g.
  - unfold SetModOperationInProgress. apply signal_Inv. by frame_g.
  - by apply SetAutolaunch_Inv.
  - by frame_g.
  - by frame_g.
  - by frame_g.
  - destruct Hw as [[] Hs]. split; [|exact Hs]. constructor; simpl; auto.
    + intros Hst. destruct (inv_stopped0 Hst) as (-> & ? & ?). done.
    + intros h [_ Hh]%list_elem_of_filter. auto.
    + by apply NoDup_filter.
    + intros h [_ Hh]%list_elem_of_filter. auto.
    + intros e He. destruct (inv_exits0 e He). split; [done|]. rewrite list_elem_of_filter. tauto.
  - exact Hw.
  - exact Hw.
  - repeat case_match; exact Hw.
Qed.

Lemma env_point_Inv w : Inv w -> Inv (env_point w).
Proof.
  unfold env_point. intros Hw. cut (Inv (foldl env_step w (sched (w_tick w)))); [done|].
  generalize (sched (w_tick w)). intros l. revert w Hw.
  induction l as [|o l IH]; intros w Hw; simpl; [done|]. by apply IH, env_step_Inv.
Qed.

(** *** What the other goroutines cannot change *)
Definition env_keeps (w w' : World) : Prop :=
  m_phase (w_m w') = m_phase (w_m w) /\ m_booted (w_m w') = m_booted (w_m w) /\
  m_currentGeneration (w_m w') = m_currentGeneration (w_m w) /\
  g_FactorioCmd (w_g w') = g_FactorioCmd (w_g w) /\ w_launched w' = w_launched w /\
  (forall g, g ∈ w_live w' -> g ∈ w_live w).

#[export] Instance env_keeps_refl : Reflexive env_keeps.
Proof. intros w. by split_and!. Qed.
#[export] Instance env_keeps_trans : Transitive env_keeps.
Proof.
  intros u v w (A1 & A2 & A3 & A4 & A5 & A6) (B1 & B2 & B3 & B4 & B5 & B6).
  split_and!; [congruence..|]. auto.
Qed.

Lemma SetAutolaunch_keeps v r w : env_keeps w (SetAutolaunch v r w).
Proof. unfold SetAutolaunch. repeat case_match; by split_and!. Qed.

Lemma sync_keeps w : env_keeps w (syncCompatibilityLocked w).
Proof. unfold syncCompatibilityLocked. split_and!; try done. simpl. by repeat case_match. Qed.

Lemma enqueue_keeps lr w : env_keeps w (enqueue lr w).
Proof. unfold enqueue. etransitivity; [|apply sync_keeps]. by split_and!. Qed.

Lemma assign_id_keeps req w : env_keeps w (assign_id req w).2.
Proof. unfold assign_id. case_match; by split_and!. Qed.

Lemma remove_snapshot_keeps p w : env_keeps w (remove_snapshot p w).
Proof. unfold remove_snapshot. case_match; by split_and!. Qed.

Lemma signal_keeps w : env_keeps w (signal w).
Proof. by split_and!. Qed.

Lemma submit_keeps req done w : env_keeps w (submitLifecycleRequest req done w).2.
Proof.
  unfold submitLifecycleRequest. pose proof (assign_id_keeps req w) as Ha.
  destruct (assign_id req w) as [req' w1]. etransitivity; [exact Ha|]. clear Ha. cbn [snd].
  repeat case_match; cbn [snd];
    first [apply remove_snapshot_keeps|etransitivity; [apply enqueue_keeps|apply signal_keeps]|reflexivity].
Qed.

Lemma env_step_keeps w o : env_keeps w (env_step w o).
Proof.
  destruct o; cbn [env_step].
  - apply submit_keeps.
  - by split_and!.
  - unfold NotifySoftModDetected. by case_match; split_and!.
  - by split_and!.
  - case_match; by split_and!.
  - unfold NotifyFactorioProgress. case_match; by split_and!.
  - unfold NotifyFactorioHealth. case_match; by split_and!.
  - by split_and!.
  - by split_and!.
  - by split_and!.
  - apply SetAutolaunch_keeps.
  - by split_and!.
  - by split_and!.
  - by split_and!.
  - split_and!; try done. simpl. intros h [_ Hh]%list_elem_of_filter. done.
  - by split_and!.
  - by split_and!.
  - repeat case_match; by split_and!.
Qed.

Lemma env_point_keeps w : env_keeps w (env_point w).
Proof.
  unfold env_point. transitivity (foldl env_step w (sched (w_tick w))); [|by split_and!].
  generalize (sched (w_tick w)). intros l. revert w.
  induction l as [|o l IH]; intros w; simpl; [done|].
  etransitivity; [apply env_step_keeps|apply IH].
Qed.

(** ** A program logic for [LM] *)
Definition triple {A} (P : World -> Prop) (m : LM A) (Q : A -> World -> Prop) : Prop :=
  forall w a w', P w -> m w = Some (a, w') -> Q a w'.

(** An assertion the other goroutines keep. *)
Class Stable (P : World -> Prop) : Prop := stable w : P w -> P (env_point w).

#[export] Instance Stable_Inv : Stable Inv.
Proof. intros w. apply env_point_Inv. Qed.

#[export] Instance Stable_and P Q : Stable P -> Stable Q -> Stable (fun w => P w /\ Q w).
Proof. intros HP HQ w []. split; by apply stable. Qed.

#[export] Instance Stable_pure (P : Prop) : Stable (fun _ => P).
Proof. by intros w. Qed.

#[export] Instance Stable_phase ph : Stable (fun w => m_phase (w_m w) = ph).
Proof. intros w <-. apply env_point_keeps. Qed.
#[export] Instance Stable_booted b : Stable (fun w => m_booted (w_m w) = b).
Proof. intros w <-. apply env_point_keeps. Qed.
#[export] Instance Stable_gen g : Stable (fun w => m_currentGeneration (w_m w) = g).
Proof. intros w <-. apply env_point_keeps. Qed.
#[export] Instance Stable_cmd c : Stable (fun w => g_FactorioCmd (w_g w) = c).
Proof. intros w <-. apply env_point_keeps. Qed.
#[export] Instance Stable_launched g : Stable (fun w => g ∈ w_launched w).
Proof. intros w H. by destruct (env_point_keeps w) as (_ & _ & _ & _ & -> & _). Qed.
#[export] Instance Stable_not_launched g : Stable (fun w => g ∉ w_launched w).
Proof. intros w H. by destruct (env_point_keeps w) as (_ & _ & _ & _ & -> & _). Qed.
#[export] Instance Stable_dead g : Stable (fun w => g ∉ w_live w).
Proof. intros w H Hin. by apply env_point_keeps in Hin. Qed.

Lemma triple_ret {A} (a : A) (Q : A -> World -> Prop) : triple (Q a) (mret a) Q.
Proof. intros w b w' H. cbv [mret LM_ret]. intros [= <- <-]. done. Qed.

Lemma triple_bind {A B} P (m : LM A) Q (f : A -> LM B) R :
  triple P m Q -> (forall a, triple (Q a) (f a) R) -> triple P (m ≫= f) R.
Proof.
  intros Hm Hf w b w' HP. cbv [mbind LM_bind]. destruct (m w) as [[a v]|] eqn:E; [|done].
  intros H. exact (Hf a v b w' (Hm _ _ _ HP E) H).
Qed.

Lemma triple_conseq {A} (P P' : World -> Prop) (m : LM A) (Q Q' : A -> World -> Prop) :
  triple P' m Q' -> (forall w, P w -> P' w) -> (forall a w, Q' a w -> Q a w) -> triple P m Q.
Proof. intros H HP HQ w a w' Hw E. eapply HQ, H; eauto. Qed.

Lemma triple_locked {A} P `{!Stable P} (f : World -> A * World) (Q : A -> World -> Prop) :
  (forall w, P w -> Q (f w).1 (f w).2) -> triple P (locked f) Q.
Proof.
  intros H w a w' HP. unfold locked. intros [= E]. apply stable in HP. specialize (H _ HP).
  by rewrite E in H.
Qed.

Lemma triple_exists {A B} (P : B -> World -> Prop) (m : LM A) Q :
  (forall b, triple (P b) m Q) -> triple (fun w => exists b, P b w) m Q.
Proof. intros H w a w' [b Hb]. eapply H; eauto. Qed.

Lemma triple_out_of_fuel {A} P Q : triple P (out_of_fuel (A := A)) Q.
Proof. by intros w a w' _. Qed.

Lemma triple_pure {A} (P0 : Prop) (P : World -> Prop) (m : LM A) Q :
  (P0 -> triple P m Q) -> triple (fun w => P0 /\ P w) m Q.
Proof. intros H w a w' [? ?]. by apply H. Qed.

(** [Keeps P m]: [m] preserves the stable assertion [P]. *)
Class Keeps (P : World -> Prop) {A} (m : LM A) : Prop := keeps : triple P m (fun _ => P).

#[export] Instance Keeps_ret P {A} (a : A) : Keeps P (mret a).
Proof. exact (triple_ret a (fun _ => P)). Qed.
#[export] Instance Keeps_bind P {A B} (m : LM A) (f : A -> LM B) :
  Keeps P m -> (forall a, Keeps P (f a)) -> Keeps P (m ≫= f).
Proof. intros Hm Hf. eapply triple_bind; [exact Hm|exact Hf]. Qed.
#[export] Instance Keeps_if P {A} (b : bool) (m1 m2 : LM A) :
  Keeps P m1 -> Keeps P m2 -> Keeps P (if b then m1 else m2).
Proof. by destruct b. Qed.
#[export] Instance Keeps_option P {A B} (o : option A) (f : A -> LM B) m :
  (forall a, Keeps P (f a)) -> Keeps P m -> Keeps P (match o with Some a => f a | None => m end).
Proof. by destruct o. Qed.
#[export] Instance Keeps_pair P {A B C} (z : A * B) (f : A -> B -> LM C) :
  (forall x y, Keeps P (f x y)) -> Keeps P (let '(x, y) := z in f x y).
Proof. by destruct z. Qed.
#[export] Instance Keeps_result P {E A B} (r : result E A) (f : A -> LM B) (g : E -> LM B) :
  (forall a, Keeps P (f a)) -> (forall e, Keeps P (g e)) ->
  Keeps P (match r with Ok a => f a | Err e => g e end).
Proof. by destruct r. Qed.

Lemma Keeps_locked P `{!Stable P} {A} (f : World -> A * World) :
  (forall w, P w -> P (f w).2) -> Keeps P (locked f).
Proof. intros H. by apply triple_locked. Qed.
Lemma Keeps_update P `{!Stable P} f : (forall w, P w -> P (f w)) -> Keeps P (update f).
Proof. intros H. by apply Keeps_locked. Qed.
#[export] Instance Keeps_get P `{!Stable P} {A} (f : World -> A) : Keeps P (get f).
Proof. by apply Keeps_locked. Qed.

(** *** Steps that keep an assertion whatever it is, if it is about what they leave alone *)
Lemma weaken_Inv P {A} (m : LM A) : Keeps Inv m -> (forall w, P w -> Inv w) -> triple P m (fun _ => Inv).
Proof. intros Hm HP w a w' Hw. apply Hm. auto. Qed.

Class KeptBy (P : World -> Prop) (f : World -> World) : Prop := kept w : P w -> P (f w).

#[export] Instance Keeps_update_kept P f `{!Stable P, !KeptBy P f} : Keeps P (update f).
Proof. by apply Keeps_update. Qed.

#[export] Instance Keeps_locked_kept P {A} (f : World -> A * World) `{!Stable P, !KeptBy P (fun w => (f w).2)} :
  Keeps P (locked f).
Proof. apply Keeps_locked; [apply _|]. by intros w ?%(kept (f := fun w => (f w).2)). Qed.

#[export] Instance Kept_emit e : quiet e -> KeptBy Inv (emit e).
Proof. intros ? w. by apply emit_Inv. Qed.
#[export] Instance Kept_on_op f : KeptBy Inv (on_op f).
Proof. intros w H. exact H. Qed.
#[export] Instance Kept_on_op_w f : KeptBy Inv (fun w => on_op (f w) w).
Proof. intros w H. exact H. Qed.
#[export] Instance Kept_operation t k s : KeptBy Inv (set_operation t k s).
Proof. intros w ?. unfold set_operation. by frame_m. Qed.
#[export] Instance Kept_signal : KeptBy Inv signal.
Proof. intros w. apply signal_Inv. Qed.
#[export] Instance Kept_autolaunch v r : KeptBy Inv (SetAutolaunch v r).
Proof. intros w. apply SetAutolaunch_Inv. Qed.
#[export] Instance Kept_remove p : KeptBy Inv (remove_snapshot p).
Proof. intros w. apply remove_snapshot_Inv. Qed.
#[export] Instance Kept_reply r e : KeptBy Inv (reply r e).
Proof. intros w. unfold reply. case_match; [by apply emit_Inv|done]. Qed.
#[export] Instance Kept_id : KeptBy Inv id.
Proof. by intros w. Qed.

#[export] Instance Keeps_op_call_now f : Keeps Inv (op_call_now f).
Proof. unfold op_call_now. apply _. Qed.
#[export] Instance Keeps_sleep d : Keeps Inv (sleep d).
Proof. apply Keeps_update; [apply _|]. intros w H. exact H. Qed.
#[export] Instance Keeps_now : Keeps Inv now.
Proof. unfold now. apply _. Qed.
#[export] Instance Keeps_complete t a b : Keeps Inv (complete_operation t a b).
Proof. unfold complete_operation. apply _. Qed.
#[export] Instance Keeps_begin req : Keeps Inv (beginOperation req).
Proof.
  unfold beginOperation. apply Keeps_bind; [apply _|]. intros ?. apply Keeps_bind; [apply _|]. intros ?.
  apply Keeps_bind; [apply _|]. intros ?. apply Keeps_bind; [|apply _].
  apply Keeps_locked; [apply _|]. intros w Hw. case_match. exact Hw.
Qed.
#[export] Instance Keeps_take : Keeps Inv take_operation.
Proof.
  unfold take_operation. apply Keeps_locked; [apply _|]. intros w Hw. simpl. unfold clear_operation. by apply kept.
Qed.
#[export] Instance Keeps_finish_error e : Keeps Inv (finishOperationError e).
Proof. unfold finishOperationError. apply _. Qed.
#[export] Instance Keeps_progress d : Keeps Inv (updateOperationProgress d).
Proof. unfold updateOperationProgress. apply _. Qed.
#[export] Instance Keeps_delayed d r t : Keeps Inv (updateOperationProgressDelayedWithReminder d r t).
Proof. unfold updateOperationProgressDelayedWithReminder. apply _. Qed.

(** *** Steps that touch neither the phase nor the processes *)
Class Framed {A} (m : LM A) : Prop := framed : forall w a w', m w = Some (a, w') -> env_keeps w w'.

#[export] Instance Framed_ret {A} (a : A) : Framed (mret a).
Proof. intros w b w'. cbv [mret LM_ret]. intros [= <- <-]. reflexivity. Qed.
#[export] Instance Framed_bind {A B} (m : LM A) (f : A -> LM B) :
  Framed m -> (forall a, Framed (f a)) -> Framed (m ≫= f).
Proof.
  intros Hm Hf w b w'. cbv [mbind LM_bind]. destruct (m w) as [[a v]|] eqn:E; [|done].
  intros H. etransitivity; [exact (framed _ _ _ E)|exact (framed _ _ _ H)].
Qed.
#[export] Instance Framed_pair {A B C} (z : A * B) (f : A -> B -> LM C) :
  (forall x y, Framed (f x y)) -> Framed (let '(x, y) := z in f x y).
Proof. by destruct z. Qed.
Lemma Framed_locked {A} (f : World -> A * World) : (forall w, env_keeps w (f w).2) -> Framed (locked f).
Proof.
  intros H w a w'. unfold locked. intros [= E]. etransitivity; [apply env_point_keeps|].
  specialize (H (env_point w)). by rewrite E in H.
Qed.
#[export] Instance Framed_get {A} (f : World -> A) : Framed (get f).
Proof. by apply Framed_locked. Qed.
#[export] Instance Framed_op_call f : Framed (op_call_now f).
Proof. apply Framed_locked. intros w. by split_and!. Qed.
#[export] Instance Framed_finish_error e : Framed (finishOperationError e).
Proof.
  unfold finishOperationError, take_operation. destruct e; [|apply _].
  apply Framed_bind; [|apply _]. apply Framed_locked. intros w. by split_and!.
Qed.

(** Assertions about the phase and the processes only. *)
Class Steady (P : World -> Prop) : Prop := steady : forall w w', env_keeps w w' -> P w -> P w'.

#[export] Instance Keeps_steady P Q {A} (m : LM A) : Steady Q -> Framed m -> Keeps P m ->
  Keeps (fun w => P w /\ Q w) m.
Proof. intros HQ Hm HP w a w' [Hw Hq] E. split; [exact (HP _ _ _ Hw E)|]. eapply steady; [exact (Hm _ _ _ E)|done]. Qed.

(** The process of generation [g] is over. *)
Definition Dead (g : Z) (w : World) : Prop := g <> 0 /\ g ∉ w_live w.
#[export] Instance Steady_Dead g : Steady (Dead g).
Proof. intros w w' (_ & _ & _ & _ & _ & H) [Hg Hn]. split; [done|]. eauto. Qed.
#[export] Instance Stable_Dead g : Stable (Dead g).
Proof. intros w. apply Steady_Dead, env_point_keeps. Qed.

Lemma not_alive_dead w g : procs w -> lifecycleProcessAlive w = false -> g ∉ w_live w.
Proof.
  unfold lifecycleProcessAlive. intros [] Ha Hg. destruct (inv_live0 g Hg) as [_ [pid E]].
  rewrite E in Ha. by bool_hyps.
Qed.

(** *** The end of a process *)
Lemma count_crash_procs t w : procs w -> procs (count_crash t w).
Proof.
  intros Hw. unfold count_crash. case_match; [|exact Hw].
  apply ProcInv_emit; [done|]. unfold SetAutolaunch. repeat case_match; try exact Hw.
  all: by apply ProcInv_emit.
Qed.

Lemma count_crash_sync t w : in_sync w -> in_sync (count_crash t w).
Proof.
  intros []. unfold count_crash, SetAutolaunch. repeat case_match; constructor; simpl; auto.
Qed.

Lemma reset_stopped_fields t c e m :
  let m' := reset_stopped t c e m in
  m_phase m' = LifecycleStopped /\ m_booted m' = false /\ m_queue m' = m_queue m /\
  m_currentGeneration m' = m_currentGeneration m /\ m_exitCh m' = m_exitCh m.
Proof. unfold reset_stopped, set_lastError. cbv zeta. repeat case_match; by split_and!. Qed.

Lemma ProcInv_stop ph b g ex cmd la tr :
  ProcInv ph b g ex cmd la [] tr -> ProcInv LifecycleStopped false g ex None la [] tr.
Proof. intros []. constructor; auto; try done. intros h Hh. by apply not_elem_of_nil in Hh. Qed.

Lemma mark_stopped_Inv c e w : procs w -> w_live w = [] -> Inv (mark_stopped c e w).
Proof.
  intros Hp Hl. unfold mark_stopped. set (w1 := if m_softModUpdateRecovery _ then _ else w).
  assert (H1 : procs w1 /\ w_live w1 = []) by (unfold w1; case_match; exact (conj Hp Hl)). clearbody w1. destruct H1 as [Hp1 Hl1].
  destruct (reset_stopped_fields (w_clock w1) c e (w_m w1)) as (Eph & Eb & Eq & Eg & Ee).
  split.
  - unfold procs in *. simpl. rewrite Eph, Eb, Eg, Ee, Hl1. rewrite Hl1 in Hp1. eapply ProcInv_stop. exact Hp1.
  - apply on_g_sync; [frame_flags|]. apply sync_in_sync.
Qed.

Lemma finalize_Inv g err report w : Inv w -> Dead g w -> Inv (finalize_locked g err report w).2.
Proof.
  intros Hw [Hg Hd]. unfold finalize_locked.
  destruct (negb _ && _) eqn:Eg; [done|]. case_bool_decide as Est; [done|]. cbn [snd].
  assert (g = m_currentGeneration (w_m w)) as ->.
  { apply andb_false_iff in Eg as [?|?]; bool_hyps; done. }
  assert (Hl : w_live w = []).
  { apply elem_of_nil_inv. intros h Hh. destruct Hw as [[] _].
    destruct (inv_live0 h Hh) as [-> _]. done. }
  cbv zeta. set (w1 := mark_stopped _ _ _).
  assert (H1 : Inv w1) by (apply mark_stopped_Inv; [apply Hw|done]). clearbody w1.
  set (w2 := if report && _ && _ then _ else w1).
  assert (H2 : Inv w2) by (unfold w2; case_match; [by apply emit_Inv|done]). clearbody w2.
  case_match; [|done]. destruct H2. split; [by apply count_crash_procs|by apply count_crash_sync].
Qed.

Lemma finalizeStopped_Inv g err report :
  triple (fun w => Inv w /\ Dead g w) (finalizeStopped g err report) (fun _ => Inv).
Proof.
  unfold finalizeStopped. eapply triple_bind.
  { apply (triple_locked _ _ (fun _ => Inv)). intros w [Hw Hd]. by apply finalize_Inv. }
  intros info. apply keeps.
Qed.

(** *** Events *)
Lemma handleExit_Inv evt :
  triple (fun w => Inv w /\ ee_generation evt ∉ w_live w) (handleExitEvent evt) (fun _ => Inv).
Proof.
  unfold handleExitEvent. destruct (ee_generation evt =? 0) eqn:E.
  - intros w a w' [Hw _]. cbv [mret LM_ret]. by intros [= <- <-].
  - bool_hyps. eapply triple_conseq; [apply finalizeStopped_Inv|by intros w []|done].
Qed.

#[export] Instance Kept_progress evt : KeptBy Inv (fun w => (progress_locked evt w).2).
Proof. intros w Hw. unfold progress_locked. case_match; [done|]. simpl. by frame_m. Qed.

#[export] Instance Keeps_handleProgress evt : Keeps Inv (handleProgressEvent evt).
Proof. unfold handleProgressEvent. apply _. Qed.

#[export] Instance Keeps_handleGoodbye g : Keeps Inv (handleGoodbyeEvent g).
Proof. unfold handleGoodbyeEvent. apply _. Qed.

Lemma health_Inv evt w : Inv w -> he_generation evt <> 0 ->
  Inv (health_locked evt w).2 /\ ((health_locked evt w).1 = HealthDead -> Dead (he_generation evt) (health_locked evt w).2).
Proof.
  intros Hw Hne. unfold health_locked. case_match; [by split|].
  cbv zeta. set (w1 := if bool_decide (he_err evt <> "") then _ else w).
  assert (H1 : Inv w1) by (unfold w1; case_match; [by frame_m|done]). clearbody w1.
  case_match; [by split|]. destruct (negb (lifecycleProcessAlive w1)) eqn:Ea; cbn [fst snd].
  - split; [done|]. intros _. split; [done|]. apply not_alive_dead; [apply H1|by bool_hyps].
  - case_match; cbn [fst snd]; (split; [|done]); [done|]. apply enqueue_Inv. by frame_m.
Qed.

#[export] Instance Keeps_handleHealth evt : Keeps Inv (handleHealthEvent evt).
Proof.
  unfold handleHealthEvent. destruct (he_generation evt =? 0) eqn:E; [apply _|]. bool_hyps.
  eapply (triple_bind _ _ (fun v w => Inv w /\ (v = HealthDead -> Dead (he_generation evt) w))).
  { apply triple_locked; [apply _|]. intros w Hw. by apply health_Inv. }
  intros []; cbv beta iota.
  - apply weaken_Inv; [apply _|by intros w []].
  - eapply triple_bind; [|intros a; apply (finalizeStopped_Inv (he_generation evt))].
    intros w a w' [Hw HD]. eapply (Keeps_steady Inv (Dead (he_generation evt))); [apply _..|]. split; auto.
  - apply weaken_Inv; [apply _|by intros w []].
Qed.

Lemma ready_Inv g w : Inv w -> Inv (ready_locked g w).2.
Proof.
  intros Hw. unfold ready_locked. case_match; [done|]. bool_hyps. apply dec_stable in H0. cbn [snd].
  unfold clear_operation. apply kept. apply sync_Inv. destruct Hw as [Hp _]. unfold procs in *. simpl.
  rewrite H0 in Hp. destruct Hp. constructor; auto; try done.
Qed.

#[export] Instance Keeps_handleReady g : Keeps Inv (handleReadyEvent g).
Proof.
  unfold handleReadyEvent. apply Keeps_bind; [apply Keeps_locked; [apply _|intros w; apply ready_Inv]|].
  assert (KeptBy Inv (on_g clear_pending_save)).
  { intros w Hw. unfold clear_pending_save. by frame_g. }
  assert (KeptBy Inv (on_g (fun g => g <| g_CrashLoopCount := 0 |>))).
  { intros w Hw. by frame_g. }
  intros [[[token kind] saveName]|]; [|apply _].
  repeat (apply Keeps_bind; [first [apply _|apply Keeps_update; [apply _|intros ? ?; by apply emit_Inv]]|intros ?]).
  destruct kind; apply _.
Qed.

(** Receiving from a channel: an exit that is received is of a finished process. *)
Definition received (r : option chan_event) (w : World) : Prop :=
  Inv w /\ forall evt, r = Some (OnExit evt) -> ee_generation evt ∉ w_live w.

Definition takes_one (ready : lifecycleManager -> list (chan_event * lifecycleManager)) : Prop :=
  forall m e m', (e, m') ∈ ready m ->
    m_phase m' = m_phase m /\ m_booted m' = m_booted m /\ m_currentGeneration m' = m_currentGeneration m /\
    m_queue m' = m_queue m /\ (forall x, x ∈ m_exitCh m' -> x ∈ m_exitCh m) /\
    (forall evt, e = OnExit evt -> evt ∈ m_exitCh m).

Lemma takes_one_app r1 r2 : takes_one r1 -> takes_one r2 -> takes_one (fun m => r1 m ++ r2 m).
Proof. intros H1 H2 m e m' [?|?]%elem_of_app; auto. Qed.

Lemma takes_ready : takes_one receive_ready.
Proof.
  intros m e m'. unfold receive_ready. case_match; [by intros ?%not_elem_of_nil|].
  intros [= -> ->]%list_elem_of_singleton. by split_and!.
Qed.
Lemma takes_goodbye : takes_one receive_goodbye.
Proof.
  intros m e m'. unfold receive_goodbye. case_match; [by intros ?%not_elem_of_nil|].
  intros [= -> ->]%list_elem_of_singleton. by split_and!.
Qed.
Lemma takes_exit : takes_one receive_exit.
Proof.
  intros m e m'. unfold receive_exit. case_match eqn:E; [by intros ?%not_elem_of_nil|].
  intros [= -> ->]%list_elem_of_singleton. split_and!; try done; simpl.
  - intros x Hx. by right.
  - intros evt [= ->]. by left.
Qed.
Lemma takes_progress : takes_one receive_progress.
Proof.
  intros m e m'. unfold receive_progress. case_match; [by intros ?%not_elem_of_nil|].
  intros [= -> ->]%list_elem_of_singleton. by split_and!.
Qed.
Lemma takes_health : takes_one receive_health.
Proof.
  intros m e m'. unfold receive_health. case_match; [by intros ?%not_elem_of_nil|].
  intros [= -> ->]%list_elem_of_singleton. by split_and!.
Qed.

Lemma takes_stop : takes_one stop_channels.
Proof.
  unfold stop_channels. apply takes_one_app; [apply takes_exit|]. apply takes_one_app; [apply takes_goodbye|].
  apply takes_one_app; [apply takes_ready|apply takes_progress].
Qed.
Lemma takes_all : takes_one all_channels.
Proof.
  unfold all_channels. apply takes_one_app; [apply takes_ready|]. apply takes_one_app; [apply takes_goodbye|].
  apply takes_one_app; [apply takes_exit|]. apply takes_one_app; [apply takes_progress|apply takes_health].
Qed.

Lemma select_received ready w : takes_one ready -> Inv w -> received (select ready w).1 (select ready w).2.
Proof.
  intros Ht Hw. unfold select. destruct (ready (w_m w) !! _) as [[e m]|] eqn:E; simpl; [|by split].
  apply list_elem_of_lookup_2, Ht in E as (E1 & E2 & E3 & E4 & E5 & E6).
  destruct Hw as [Hp Hs]. split; [split|].
  - unfold procs in *. simpl. rewrite E1, E2, E3. destruct Hp. constructor; auto.
  - unfold in_sync in *. simpl. by rewrite E1, E2, E4.
  - simpl. intros evt [= ->]. destruct Hp. by apply inv_exits0, E6.
Qed.

Lemma triple_select ready : takes_one ready -> triple Inv (locked (select ready)) received.
Proof. intros Ht. apply triple_locked; [apply _|]. intros w. by apply select_received. Qed.

Lemma received_Inv r : triple (received r) (mret tt) (fun _ => Inv).
Proof. intros w a w' [H _]. cbv [mret LM_ret]. by intros [= <- <-]. Qed.

Lemma received_exit evt : triple (received (Some (OnExit evt))) (handleExitEvent evt) (fun _ => Inv).
Proof. eapply triple_conseq; [apply handleExit_Inv| |done]. intros w [Hw H]. auto. Qed.

Lemma received_other r {A} (m : LM A) : Keeps Inv m -> triple (received r) m (fun _ => Inv).
Proof. intros H. apply weaken_Inv; [done|by intros w []]. Qed.

#[export] Instance Keeps_drain fuel : Keeps Inv (drainAsyncEvents fuel).
Proof.
  induction fuel as [|fuel IH]; [apply triple_out_of_fuel|]. simpl.
  eapply triple_bind; [apply triple_select, takes_all|]. intros [e|]; [|apply received_Inv].
  eapply triple_bind; [|intros ?; apply IH].
  destruct e; first [apply received_exit|apply received_other; apply _].
Qed.

(** *** Stopping *)
#[export] Instance Framed_if {A} (b : bool) (m1 m2 : LM A) : Framed m1 -> Framed m2 -> Framed (if b then m1 else m2).
Proof. by destruct b. Qed.
#[export] Instance Framed_option {A B} (o : option A) (f : A -> LM B) m :
  (forall a, Framed (f a)) -> Framed m -> Framed (match o with Some a => f a | None => m end).
Proof. by destruct o. Qed.
#[export] Instance Framed_delayed d r t : Framed (updateOperationProgressDelayedWithReminder d r t).
Proof. unfold updateOperationProgressDelayedWithReminder. apply _. Qed.
#[export] Instance Framed_handleProgress evt : Framed (handleProgressEvent evt).
Proof.
  unfold handleProgressEvent. apply Framed_bind; [|apply _]. apply Framed_locked. intros w.
  unfold progress_locked. case_match; by split_and!.
Qed.
#[export] Instance Framed_sleep d : Framed (sleep d).
Proof. apply Framed_locked. intros w. by split_and!. Qed.
Lemma Framed_update f : (forall w, env_keeps w (f w)) -> Framed (update f).
Proof. intros H. by apply Framed_locked. Qed.

(** Generation [g] is being stopped; it has stopped. *)
Definition Halting (g : Z) (w : World) : Prop :=
  m_currentGeneration (w_m w) = g /\ m_phase (w_m w) = LifecycleStopping.
Definition Halted (g : Z) (w : World) : Prop :=
  m_currentGeneration (w_m w) = g /\ m_phase (w_m w) = LifecycleStopped.

#[export] Instance Steady_Halting g : Steady (Halting g).
Proof. intros w w' (E1 & _ & E2 & _) [H1 H2]. split; congruence. Qed.
#[export] Instance Steady_Halted g : Steady (Halted g).
Proof. intros w w' (E1 & _ & E2 & _) [H1 H2]. split; congruence. Qed.
#[export] Instance Stable_Halting g : Stable (Halting g).
Proof. intros w. apply Steady_Halting, env_point_keeps. Qed.
#[export] Instance Stable_Halted g : Stable (Halted g).
Proof. intros w. apply Steady_Halted, env_point_keeps. Qed.
Definition halts (done : bool) (g : Z) (w : World) : Prop := if done then Halted g w else Halting g w.
#[export] Instance Steady_halts b g : Steady (halts b g).
Proof. destruct b; apply _. Qed.

Lemma count_crash_fields t w :
  m_phase (w_m (count_crash t w)) = m_phase (w_m w) /\
  m_currentGeneration (w_m (count_crash t w)) = m_currentGeneration (w_m w).
Proof. unfold count_crash, SetAutolaunch. repeat case_match; by split. Qed.

Lemma finalize_other h err r w :
  h <> m_currentGeneration (w_m w) -> h <> 0 -> finalize_locked h err r w = (None, w).
Proof. intros H1 H2. unfold finalize_locked. by rewrite (proj2 (Z.eqb_neq _ _) H1), (proj2 (Z.eqb_neq _ _) H2). Qed.

Lemma finalize_current err r w :
  let w' := (finalize_locked (m_currentGeneration (w_m w)) err r w).2 in
  m_currentGeneration (w_m w') = m_currentGeneration (w_m w) /\ m_phase (w_m w') = LifecycleStopped.
Proof.
  unfold finalize_locked. rewrite Z.eqb_refl. cbv zeta. cbn [negb andb].
  case_bool_decide; [done|]. cbn [snd]. set (w1 := mark_stopped _ _ _).
  assert (H1 : m_phase (w_m w1) = LifecycleStopped /\ m_currentGeneration (w_m w1) = m_currentGeneration (w_m w)).
  { unfold w1, mark_stopped. set (w0 := if m_softModUpdateRecovery _ then _ else w).
    assert (H0 : w_m w0 = w_m w) by (unfold w0; by case_match). clearbody w0. simpl. rewrite <-H0.
    split; apply reset_stopped_fields. }
  clearbody w1. set (w2 := if r && _ && _ then _ else w1).
  assert (H2 : w_m w2 = w_m w1) by (unfold w2; by case_match). clearbody w2.
  case_match; [destruct (count_crash_fields (m_startedAt (w_m w)) w2) as [-> ->]|]; rewrite H2;
    destruct H1 as [-> ->]; auto.
Qed.

Lemma finalizeStopped_halts g h err r :
  triple (fun w => (Inv w /\ Dead h w) /\ Halting g w) (finalizeStopped h err r)
    (fun _ w => Inv w /\ halts (h =? g) g w).
Proof.
  unfold finalizeStopped.
  eapply triple_bind; [apply (triple_locked _ _ (fun _ w => Inv w /\ halts (h =? g) g w))|].
  - intros w [[Hw Hd] [Hg Hph]]. split; [by apply finalize_Inv|]. destruct (Z.eqb_spec h g) as [->|Hne].
    + subst g. apply (finalize_current err r w).
    + rewrite finalize_other; [done|congruence|apply Hd].
  - intros info. apply keeps.
Qed.

Lemma ready_halting g h :
  triple (fun w => Inv w /\ Halting g w) (handleReadyEvent h) (fun _ w => Inv w /\ Halting g w).
Proof.
  intros w a w' [Hw Hh] E. split; [exact (Keeps_handleReady h w a w' Hw E)|]. revert E.
  unfold handleReadyEvent. cbv [mbind LM_bind]. unfold locked at 1.
  assert (Hp : Halting g (env_point w)) by (by apply stable).
  unfold ready_locked. rewrite (bool_decide_eq_true_2 (_ <> _)).
  2: { by destruct Hp as [_ ->]. }
  rewrite orb_true_r. cbv [mret LM_ret]. by intros [= <- <-].
Qed.

Definition stop_post (g : Z) (b : bool) (w : World) : Prop :=
  Inv w /\ halts b g w.

Lemma steady_halting g {A} (m : LM A) : Keeps Inv m -> Framed m ->
  triple (fun w => Inv w /\ Halting g w) m (fun _ w => Inv w /\ Halting g w).
Proof. intros. apply Keeps_steady; apply _. Qed.

(** The process was seen dead: the server is finalized and the wait is over. *)
Lemma finalize_true g :
  triple (fun w => (Inv w /\ Dead g w) /\ Halting g w)
    (finalizeStopped g None true;; mret true) (stop_post g).
Proof.
  eapply triple_bind; [apply finalizeStopped_halts|]. intros ?. rewrite Z.eqb_refl.
  exact (triple_ret true (stop_post g)).
Qed.

Lemma read_alive g : g <> 0 ->
  triple (fun w => Inv w /\ Halting g w) (get lifecycleProcessAlive)
    (fun alive w => (Inv w /\ Halting g w) /\ (alive = false -> Dead g w)).
Proof.
  intros Hg. apply triple_locked; [apply _|]. intros w [Hw Hh]. split; [by split|].
  intros Ha. split; [done|]. apply not_alive_dead; [apply Hw|done].
Qed.

(** What the next round of the wait has to satisfy. *)
Definition loop_spec (g : Z) (loop : bool -> LM bool) : Prop :=
  forall seen, triple (fun w => Inv w /\ Halting g w) (loop seen) (stop_post g).

Lemma after_event g r {A} (m : LM A) k : loop_spec g k -> forall seen,
  triple (fun w => Inv w /\ Halting g w) m (fun _ w => Inv w /\ Halting g w) ->
  triple (fun w => received r w /\ Halting g w) (m ≫= fun _ => k seen) (stop_post g).
Proof.
  intros Hk seen Hm. eapply triple_bind; [|intros ?; apply Hk].
  eapply triple_conseq; [exact Hm|by intros w [[] ?]|done].
Qed.

Lemma wait_event_spec g loop seen e : g <> 0 -> loop_spec g loop ->
  triple (fun w => received e w /\ Halting g w) (wait_event g loop seen e) (stop_post g).
Proof.
  intros Hg Hl.
  assert (Hgo : forall r s, triple (fun w => received r w /\ Halting g w) (loop s) (stop_post g)).
  { intros. eapply triple_conseq; [apply Hl|by intros w [[] ?]|done]. }
  destruct e as [[gen|gen|evt|evt|evt]|]; cbn [wait_event]; try apply Hgo; try (apply after_event; [done|]).
  - destruct (gen =? g); [apply ready_halting|]. exact (steady_halting g (mret tt) _ _).
  - unfold handleExitEvent. destruct (ee_generation evt =? 0) eqn:E0; bool_hyps.
    { rewrite (proj2 (Z.eqb_neq _ g)) by congruence.
      apply after_event; [done|]. exact (steady_halting g (mret tt) _ _). }
    eapply (triple_bind _ _ (fun _ w => Inv w /\ halts (ee_generation evt =? g) g w)).
    { eapply triple_conseq; [apply (finalizeStopped_halts g (ee_generation evt))| |done].
      intros w [[Hw Hr] Hh]. split; [split; [done|split; [done|by apply Hr]]|done]. }
    intros _. destruct (ee_generation evt =? g) eqn:E; bool_hyps; [|apply Hl].
    exact (triple_ret true (stop_post g)).
  - apply steady_halting; apply _.
  - apply steady_halting; apply _.
Qed.

Lemma select_halting g : triple (fun w => Inv w /\ Halting g w) (locked (select stop_channels))
  (fun r w => received r w /\ Halting g w).
Proof.
  apply triple_locked; [apply _|]. intros w [Hw Hh]. split; [by apply select_received; [apply takes_stop|]|].
  unfold select. destruct (stop_channels (w_m w) !! _) as [[e m]|] eqn:E; [|done].
  apply list_elem_of_lookup_2, takes_stop in E as (E1 & E2 & E3 & _). simpl.
  destruct Hh. split; simpl; congruence.
Qed.

Lemma read_gone g (b : bool) : g <> 0 ->
  triple (fun w => Inv w /\ Halting g w)
    (if b then alive ← get lifecycleProcessAlive; mret (negb alive) else mret false)
    (fun gone w => (Inv w /\ Halting g w) /\ (gone = true -> Dead g w)).
Proof.
  intros Hg. set (Q := fun (gone : bool) w => (Inv w /\ Halting g w) /\ (gone = true -> Dead g w)). destruct b.
  - eapply triple_bind; [by apply read_alive|]. intros alive.
    eapply triple_conseq; [exact (triple_ret (negb alive) Q)| |done].
    intros w [? H]. split; [done|]. intros ?. apply H. by bool_hyps.
  - eapply triple_conseq; [exact (triple_ret false Q)|done|done].
Qed.

Lemma wait_body_spec g allow loop deadline seen : g <> 0 -> (forall d, loop_spec g (loop d)) ->
  triple (fun w => Inv w /\ Halting g w) (wait_body g allow loop deadline seen) (stop_post g).
Proof.
  intros Hg Hl. unfold wait_body. eapply triple_bind; [apply steady_halting; apply _|]. intros [at_ kind]. cbv zeta.
  eapply triple_bind; [by apply read_gone|].
  intros []; [eapply triple_conseq; [apply finalize_true| |done]; intros w [[? ?] Hd]; auto|].
  eapply triple_bind; [|intros alive].
  { eapply triple_conseq; [by apply (read_alive g)|by intros w []|done]. }
  destruct alive; cbn [negb];
    [|eapply triple_conseq; [apply finalize_true| |done]; intros w [[? ?] Hd]; auto].
  eapply (triple_bind _ _ (fun _ w => Inv w /\ Halting g w)).
  { eapply triple_conseq; [apply (steady_halting g now); apply _|by intros w []|done]. }
  intros t. case_match; [exact (triple_ret false (stop_post g))|].
  eapply triple_bind; [apply select_halting|]. intros e. by apply wait_event_spec.
Qed.

Lemma wait_loop_spec fuel g allow deadline seen : g <> 0 ->
  triple (fun w => Inv w /\ Halting g w) (wait_loop fuel g allow deadline seen) (stop_post g).
Proof.
  intros Hg. revert deadline seen. induction fuel as [|fuel IH]; intros deadline seen; [apply triple_out_of_fuel|].
  apply wait_body_spec; [done|]. intros d s. apply IH.
Qed.

Lemma waitForStop_spec fuel g timeout allow : g <> 0 ->
  triple (fun w => Inv w /\ Halting g w) (waitForStop fuel g timeout allow) (stop_post g).
Proof.
  intros Hg. unfold waitForStop. eapply triple_bind; [apply steady_halting; apply _|].
  intros t. by apply wait_loop_spec.
Qed.

Lemma stop_begin_spec w : Inv w ->
  let '(r, w') := stop_begin w in
  match r with
  | None => Inv w' /\ m_phase (w_m w') = LifecycleStopped
  | Some (g, _) => g <> 0 /\ Inv w' /\ Halting g w'
  end.
Proof.
  intros Hw. unfold stop_begin. case_bool_decide as E.
  - split; [|done]. apply sync_Inv. apply Hw.
  - destruct Hw as [[] _]. split_and!; [specialize (inv_positive0 E); lia| |by split].
    apply sync_Inv. constructor; simpl; auto; try done.
Qed.

Lemma warn_players_keeps r w : env_keeps w (warn_players r w).
Proof. by split_and!. Qed.
#[export] Instance Kept_warn r : KeptBy Inv (warn_players r).
Proof. intros w. by apply emits_Inv. Qed.
#[export] Instance Kept_quit : KeptBy Inv lifecycleSendQuit.
Proof.
  intros w Hw. unfold lifecycleSendQuit, NotifyFactorioHealth. repeat case_match; try done.
  all: try (by apply emit_Inv). all: apply signal_Inv; by frame_m.
Qed.
Lemma quit_keeps w : env_keeps w (lifecycleSendQuit w).
Proof. unfold lifecycleSendQuit, NotifyFactorioHealth. repeat case_match; by split_and!. Qed.
#[export] Instance Kept_lastError e : KeptBy Inv (on_m (fun m => m <| m_lastError := e |>)).
Proof. intros w ?. by frame_m. Qed.
#[export] Instance Kept_throttle n : KeptBy Inv (on_g (fun g => g <| g_RelaunchThrottle := n |>)).
Proof. intros w ?. by frame_g. Qed.

#[export] Instance Framed_warn r : Framed (update (warn_players r)).
Proof. apply Framed_update, warn_players_keeps. Qed.
#[export] Instance Framed_quit : Framed (update lifecycleSendQuit).
Proof. apply Framed_update, quit_keeps. Qed.
#[export] Instance Framed_emit e : Framed (update (emit e)).
Proof. apply Framed_update. intros w. by split_and!. Qed.
#[export] Instance Framed_throttle n : Framed (update (on_g (fun g => g <| g_RelaunchThrottle := n |>))).
Proof. apply Framed_update. intros w. by split_and!. Qed.
#[export] Instance Framed_lastError e : Framed (update (on_m (fun m => m <| m_lastError := e |>))).
Proof. apply Framed_update. intros w. by split_and!. Qed.
#[export] Instance Keeps_emit_interrupt : Keeps Inv (update (emit EInterrupt)).
Proof. apply Keeps_update; [apply _|]. intros w. by apply emit_Inv. Qed.
#[export] Instance Keeps_emit_kill : Keeps Inv (update (emit EKill)).
Proof. apply Keeps_update; [apply _|]. intros w. by apply emit_Inv. Qed.

(** The outcome of [executeStop]: nil exactly when the server has stopped; an
    error leaves it stopping, with the process handle in place. *)
Definition stopped_or_stopping (err : error) (w : World) : Prop :=
  Inv w /\ match err with
           | None => m_phase (w_m w) = LifecycleStopped
           | Some e => e = stop_timed_out /\ m_phase (w_m w) = LifecycleStopping
           end.

Lemma stopped_after g (k : LM error) : triple (fun w => Inv w /\ Halting g w) k stopped_or_stopping ->
  forall b, triple (stop_post g b) (if (b : bool) then mret None else k) stopped_or_stopping.
Proof.
  intros Hk []; [|exact Hk].
  eapply triple_conseq; [exact (triple_ret None stopped_or_stopping)| |done].
  intros w [? [_ ?]]. by split.
Qed.

Lemma executeStop_spec fuel reason : triple Inv (executeStop fuel reason) stopped_or_stopping.
Proof.
  unfold executeStop. eapply (triple_bind _ _ (fun r w => match r with
    | None => Inv w /\ m_phase (w_m w) = LifecycleStopped
    | Some (g, _) => g <> 0 /\ Inv w /\ Halting g w end)).
  { apply triple_locked; [apply _|]. intros w Hw. pose proof (stop_begin_spec w Hw) as H. by destruct (stop_begin w). }
  intros [[g booted]|]; [|eapply triple_conseq; [exact (triple_ret None stopped_or_stopping)| |done]; by intros w []].
  apply triple_pure. intros Hg. cbv zeta.
  eapply triple_bind; [apply steady_halting; apply _|]. intros ?.
  eapply triple_bind; [apply steady_halting; apply _|]. intros players.
  eapply triple_bind; [apply steady_halting; apply _|]. intros ?.
  eapply triple_bind; [apply steady_halting; apply _|]. intros running.
  eapply triple_bind; [apply steady_halting; apply _|]. intros ?.
  eapply triple_bind; [by apply waitForStop_spec|]. apply stopped_after.
  eapply triple_bind; [apply steady_halting; apply _|]. intros ?.
  eapply triple_bind; [by apply waitForStop_spec|]. apply stopped_after.
  eapply triple_bind; [apply steady_halting; apply _|]. intros ?.
  eapply triple_bind; [by apply waitForStop_spec|]. apply stopped_after.
  eapply triple_bind; [apply steady_halting; apply _|]. intros ?.
  eapply triple_conseq; [exact (triple_ret (Some stop_timed_out) stopped_or_stopping)| |done].
  intros w [? [_ ?]]. by split_and!.
Qed.

(** *** Starting *)
(** Generation [g] is about to be launched: nothing was ever started for it. *)
Definition Fresh (g : Z) (w : World) : Prop :=
  m_currentGeneration (w_m w) = g /\ m_phase (w_m w) = LifecycleStarting /\
  g_FactorioCmd (w_g w) = None /\ g ∉ w_launched w.
#[export] Instance Stable_Fresh g : Stable (Fresh g).
Proof.
  intros w (E1 & E2 & E3 & E4). destruct (env_point_keeps w) as (F1 & _ & F2 & F3 & F4 & _).
  unfold Fresh. rewrite F1, F2, F3, F4. done.
Qed.

Lemma start_begin_spec w : Inv w ->
  match start_begin w with
  | (Err _, w') => Inv w'
  | (Ok g, w') => Inv w' /\ Fresh g w' /\ w_live w' = []
  end.
Proof.
  intros Hw. unfold start_begin. cbv zeta.
  destruct (bool_decide (m_phase (w_m w) = LifecycleRunning) || _) eqn:Er; [by frame_m|].
  destruct (bool_decide (m_phase (w_m w) = LifecycleStopping)) eqn:Es; [done|].
  destruct (UpdateInProgress w || _) eqn:Eu; [by frame_m|].
  destruct (negb (within_hours w)) eqn:Eh; [by frame_m|]. bool_hyps.
  assert (Est : m_phase (w_m w) = LifecycleStopped) by (by destruct (m_phase (w_m w))).
  destruct Hw as [[] _]. destruct (inv_stopped0 Est) as (Hl & Hc & Hb).
  assert (Hn : m_currentGeneration (w_m w) + 1 ∉ w_launched w) by (intros ?%inv_launched0; lia).
  split_and!.
  - apply sync_Inv. constructor; simpl; auto; try done; try lia.
    + intros g. rewrite Hl. by intros ?%not_elem_of_nil.
    + intros g ?%inv_launched0. lia.
  - by split_and!; simpl; repeat case_match.
  - done.
Qed.

Lemma launch_spec g s w : Inv w -> Fresh g w ->
  match LaunchFactorio g s w with
  | (Some _, w') => Inv w' /\ Fresh g w'
  | (None, w') => Inv w'
  end.
Proof.
  intros Hw (E1 & E2 & E3 & E4). unfold LaunchFactorio.
  destruct (launch_outcome _ g s) as [pid throttle|err disable].
  - destruct Hw as [[] Hs].
    assert (Hl : w_live w = []).
    { apply elem_of_nil_inv. intros h Hh. destruct (inv_live0 h Hh) as [_ [? ?]]. congruence. }
    split; [|by apply (on_g_sync (fun g0 => g0 <| g_FactorioCmd := Some (pid, g) |> <| g_pipe := Some g |>
                                            <| g_RelaunchThrottle := throttle |>) w); [frame_flags|]].
    unfold procs. simpl. rewrite Hl. constructor; auto; try done.
    + rewrite E2. done.
    + intros h ->%list_elem_of_singleton. eauto.
    + apply NoDup_singleton.
    + intros h ->%list_elem_of_singleton. by left.
    + intros h [->|Hh]%elem_of_cons; [|auto]. split; [|lia]. subst g. apply inv_positive0. by rewrite E2.
    + intros e He. destruct (inv_exits0 e He). split; [by right|].
      intros Heq%list_elem_of_singleton. by rewrite Heq in *.
    + intros h s' l [Hin|Hin%list_elem_of_singleton]%elem_of_app; [eauto|]. by simplify_eq.
  - destruct disable; [|by split]. split; [by apply SetAutolaunch_Inv|].
    destruct (SetAutolaunch_keeps false true w) as (F1 & _ & F2 & F3 & F4 & _).
    unfold Fresh. by rewrite F1, F2, F3, F4.
Qed.

Lemma launch_failed_Inv g e w : Inv w -> Fresh g w -> Inv (launch_failed e w).
Proof.
  intros [[] _] (E1 & E2 & E3 & E4).
  assert (Hl : w_live w = []).
  { apply elem_of_nil_inv. intros h Hh. destruct (inv_live0 h Hh) as [_ [? ?]]. congruence. }
  apply sync_Inv. constructor; simpl; auto; try done.
Qed.

#[export] Instance Kept_launch_finished : KeptBy Inv launch_finished.
Proof.
  intros w Hw. unfold launch_finished. apply sync_Inv.
  set (w1 := on_m _ (on_g _ w)). assert (H1 : procs w1) by (destruct Hw as [Hp _]; exact Hp).
  clearbody w1. case_match; [case_match|]; exact H1.
Qed.

#[export] Instance Keeps_executeStart reason s : Keeps Inv (executeStart reason s).
Proof.
  unfold executeStart. eapply (triple_bind _ _ (fun r w => match r with
    | Err _ => Inv w | Ok g => Inv w /\ Fresh g w end)).
  { apply triple_locked; [apply _|]. intros w Hw. pose proof (start_begin_spec w Hw) as H.
    destruct (start_begin w) as [[] ?]; [|done]. by destruct H as (? & ? & _). }
  intros [g|e]; [|apply keeps].
  eapply (triple_bind _ _ (fun r w => match r with
    | Some _ => Inv w /\ Fresh g w | None => Inv w end)).
  { apply triple_locked; [apply _|]. intros w [Hw Hf]. pose proof (launch_spec g s w Hw Hf) as H.
    by destruct (LaunchFactorio g s w) as [[]]. }
  intros [e|]; [|apply keeps]. eapply triple_bind; [|intros ?; exact (triple_ret (Some e) (fun _ => Inv))].
  apply triple_locked; [apply _|]. intros w [Hw Hf]. by eapply launch_failed_Inv.
Qed.

(** *** The manager's loop *)
#[export] Instance Keeps_executeStop fuel reason : Keeps Inv (executeStop fuel reason).
Proof. eapply triple_conseq; [apply executeStop_spec|done|by intros e w []]. Qed.

#[export] Instance Kept_softmod t : KeptBy Inv (softmod_locked t).
Proof.
  intros w Hw. unfold softmod_locked. repeat case_match; try done. apply enqueue_Inv. by frame_m.
Qed.
#[export] Instance Keeps_softmod t : Keeps Inv (checkSoftModAfterUpdate t).
Proof. unfold checkSoftModAfterUpdate. apply _. Qed.

#[export] Instance Keeps_startup : Keeps Inv checkStartupTimeout.
Proof.
  unfold checkStartupTimeout. apply Keeps_bind; [apply _|].
  intros [[[startedAt lastProgressAt] kind]|]; [|apply _]. apply Keeps_bind; [apply _|]. intros t.
  apply Keeps_if; [|apply _]. apply Keeps_bind; [apply _|]. intros ?. apply Keeps_update; [apply _|].
  intros w Hw. cbv zeta. apply submit_Inv. by frame_g.
Qed.

#[export] Instance Keeps_reconcile : Keeps Inv reconcileProcessHealth.
Proof.
  unfold reconcileProcessHealth. apply Keeps_bind; [apply _|]. intros [phase g].
  destruct (bool_decide _ || (g =? 0)) eqn:E; [apply _|]. bool_hyps.
  eapply (triple_bind _ _ (fun alive w => Inv w /\ (alive = false -> Dead g w))).
  { apply triple_locked; [apply _|]. intros w Hw. split; [done|]. intros Ha.
    split; [done|]. apply not_alive_dead; [apply Hw|done]. }
  intros []; cbn [negb].
  - apply weaken_Inv; [|by intros w []]. apply Keeps_if; [|apply _]. apply Keeps_bind; [apply _|].
    intros [?|]; [apply _|]. apply Keeps_update; [apply _|]. intros w Hw.
    unfold NotifyFactorioHealth. case_match; [done|]. apply signal_Inv. by frame_m.
  - eapply triple_conseq; [apply (finalizeStopped_Inv g)| |done]. intros w [? HD]. auto.
Qed.

#[export] Instance Kept_next : KeptBy Inv (fun w => (nextRequest w).2).
Proof.
  intros w Hw. unfold nextRequest. destruct (best_request _ _ _ _) as [[i sc]|]; [|done].
  destruct (m_queue (w_m w) !! i); [|done]. simpl. apply sync_Inv. apply Hw.
Qed.

#[export] Instance Keeps_autolaunch v : Keeps Inv (autolaunch v).
Proof. unfold autolaunch. apply _. Qed.

#[export] Instance Keeps_doChange s : Keeps Inv (doChangeMapAfterStop s).
Proof.
  unfold doChangeMapAfterStop. apply Keeps_bind; [apply _|]. intros [?|]; [apply _|].
  apply Keeps_bind.
  { apply Keeps_locked; [apply _|]. intros w Hw. case_match; [done|]. by apply emit_Inv. }
  intros [?|]; [apply _|]. apply Keeps_bind; [|apply _]. apply Keeps_update; [apply _|].
  intros w Hw. by frame_g.
Qed.

#[export] Instance Keeps_stop_prepare_start fuel reason p : Keeps Inv p ->
  Keeps Inv (stop_prepare_start fuel reason p).
Proof. intros. unfold stop_prepare_start. apply _. Qed.

#[export] Instance Keeps_run_action fuel req : Keeps Inv (run_action fuel req).
Proof.
  unfold run_action. destruct (lr_kind req); try apply _.
  apply Keeps_bind; [apply _|]. intros [?|]; [apply _|]. apply Keeps_if; [|apply _]. cbv zeta.
  apply Keeps_option; [apply _|]. apply Keeps_bind; [|apply _].
  apply Keeps_update; [apply _|]. intros w. by apply emit_Inv.
Qed.

#[export] Instance Keeps_execute_staged fuel req : Keeps Inv (execute_staged fuel req).
Proof.
  unfold execute_staged. do 3 (apply Keeps_bind; [apply _|]; intros ?). apply Keeps_bind; [|apply _].
  apply Keeps_update; [apply _|]. intros w [Hw _]. apply sync_Inv.
  unfold procs, set_lastError in *. simpl. by case_match.
Qed.

#[export] Instance Keeps_execute fuel req : Keeps Inv (execute fuel req).
Proof.
  unfold execute. apply Keeps_if; [|apply _]. apply Keeps_bind; [apply _|]. intros [?|?]; [apply _|].
  apply Keeps_bind; [|apply _]. apply Keeps_update; [apply _|]. intros w Hw. by frame_m.
Qed.

#[export] Instance Keeps_cancel : Keeps Inv cancelPendingRequests.
Proof.
  unfold cancelPendingRequests. apply Keeps_bind.
  { apply Keeps_locked; [apply _|]. intros w Hw. apply sync_Inv. apply Hw. }
  intros queue. apply Keeps_update; [apply _|]. induction queue as [|req queue IH]; intros w Hw; [done|].
  simpl. apply IH. by apply kept, remove_snapshot_Inv.
Qed.

#[export] Instance Keeps_wait_round : Keeps Inv wait_round.
Proof.
  unfold wait_round. apply Keeps_bind; [apply _|]. intros d. apply Keeps_update; [apply _|].
  intros w Hw. case_match; [by frame_m|exact Hw].
Qed.

#[export] Instance Keeps_run_round fuel : Keeps Inv (run_round fuel).
Proof.
  unfold run_round. apply Keeps_bind; [apply _|]. intros stop. apply Keeps_if; [apply _|].
  do 5 (apply Keeps_bind; [apply _|]; intros ?). apply Keeps_bind; [apply _|]. intros [req|]; [apply _|].
  apply Keeps_bind; [apply _|]. intros start. apply Keeps_if; [|apply _].
  apply Keeps_bind; [|apply _]. apply Keeps_locked; [apply _|]. intros w Hw. simpl. by frame_g.
Qed.
End preservation.
