(* ===== verification/LifecycleSafety.v ===== *)
(** * What the life cycle guarantees, whatever the rest of the program does

    The properties that follow from the invariant of LifecycleInvariant.v, the
    choice of the next request, the refusals of [executeStart], and the answers
    to waiting requesters. *)
From S2P Require Import Prelude.
From S2P Require Import GoInt.
From S2P Require Import GoString.
From S2P Require Import GoPath.
From S2P Require Import GoTime.
From S2P Require Import OperationStatus.
From S2P Require Import Lifecycle.
From S2P Require Import LifecycleInvariant.

(** ** The worlds the program can reach *)

(** [StartLifecycleManager]: a manager without a process. *)
Definition newLifecycleManager (t : time) : lifecycleManager :=
  mkManager LifecycleStopped t false 0 0 "" "" zeroTime zeroTime [] false [] [] [] [] [] false false false false
    "" NoAction "" zeroTime "".
Definition StartLifecycleManager (w : World) : World :=
  syncCompatibilityLocked (w <| w_m := newLifecycleManager (w_clock w) |>).

Definition initialGlobals : globals :=
  mkGlobals false false zeroTime false false false false false false 0 false None None 0 zeroTime 0 "" false
    false true 0.
Definition initialWorld (t : time) : World :=
  StartLifecycleManager (mkWorld (newLifecycleManager t) initialGlobals initOpWorld t [] [] 0 []).

Section safety.
Context {Env : LifecycleEnv}.

(** Rounds of the manager, each with enough fuel for its loops, and actions of
    the other goroutines before, between and (by the schedule) inside them. *)
Inductive reachable : World -> Prop :=
  | reach_init t : reachable (initialWorld t)
  | reach_env w o : reachable w -> reachable (env_step w o)
  | reach_round w fuel b w' : reachable w -> run_round fuel w = Some (b, w') -> reachable w'.

Lemma initial_Inv t : Inv (initialWorld t).
Proof.
  apply sync_Inv. constructor; simpl; try done; try lia; try constructor;
    intros *; try (by intros ?%not_elem_of_nil); exfalso; by eapply not_elem_of_nil.
Qed.

Lemma reachable_Inv w : reachable w -> Inv w.
Proof.
  induction 1; [apply initial_Inv|by apply env_step_Inv|]. by eapply (Keeps_run_round fuel).
Qed.

(** C7: (safety) there are never two Factorio servers: in every world the program
    can reach at most one process lives, none lives while the manager is in the
    stopped phase, and every launch in the history happened when no process
    launched before was still alive. *)
Theorem one_server_at_a_time w :
  reachable w ->
  (length (w_live w) <= 1)%nat /\
  (m_phase (w_m w) = LifecycleStopped -> w_live w = []) /\
  (forall g save alive, ELaunch g save alive ∈ w_trace w -> alive = []).
Proof.
  intros [[] _]%reachable_Inv. split_and!; [|naive_solver|done].
  destruct (w_live w) as [|a [|b l]]; simpl; [lia..|exfalso].
  destruct (inv_live a), (inv_live b); [set_solver..|]. subst. apply NoDup_cons in inv_nodup. set_solver.
Qed.

(** (invariant) the flags the rest of the program reads agree with the
    manager in every reachable world: running is the phase not being stopped,
    booted is the manager's, and the pending-reboot flags say exactly what the
    queue holds. *)
Theorem exported_flags_agree w :
  reachable w ->
  g_FactIsRunning (w_g w) = bool_decide (m_phase (w_m w) <> LifecycleStopped) /\
  g_FactorioBooted (w_g w) = m_booted (w_m w) /\
  (g_FactorioBooted (w_g w) = true -> g_FactIsRunning (w_g w) = true) /\
  g_DoRebootCW (w_g w) = existsb queued_reboot_cw (m_queue (w_m w)) /\
  g_QueueReboot (w_g w) = existsb queued_reboot (m_queue (w_m w)) /\
  g_QueueFactReboot (w_g w) = existsb queued_fact_reboot (m_queue (w_m w)).
Proof.
  intros [[] []]%reachable_Inv. split_and!; try done. rewrite inv_bootedflag, inv_running.
  intros [-> | ->]%inv_booted; done.
Qed.

(** C8: (functional) a stop ends in one of two ways: nil, with the manager stopped
    and no process alive; or the time-out error, with the manager still in the
    stopping phase, so that the process is not forgotten. *)
Theorem executeStop_outcome fuel reason w err w' :
  reachable w -> executeStop fuel reason w = Some (err, w') ->
  match err with
  | None => m_phase (w_m w') = LifecycleStopped /\ w_live w' = []
  | Some e => e = stop_timed_out /\ m_phase (w_m w') = LifecycleStopping
  end.
Proof.
  intros Hw%reachable_Inv H. destruct (executeStop_spec fuel reason w err w' Hw H) as [[[] _] Hp].
  destruct err; [done|]. split; [done|]. naive_solver.
Qed.

(** (safety) a server is started only from the stopped phase, only while no
    update and no mod operation is in progress, and only within the allowed
    hours; in every other case [executeStart] launches nothing. *)
Theorem start_only_when_allowed w :
  (exists g, (start_begin w).1 = Ok g) <->
  m_phase (w_m w) = LifecycleStopped /\ UpdateInProgress w = false /\ ModOperationInProgress w = false /\
  within_hours w = true.
Proof.
  unfold start_begin. cbv zeta. split.
  - intros [g Hg]. revert Hg. destruct (m_phase (w_m w)); simpl; try done.
    destruct (UpdateInProgress w), (ModOperationInProgress w), (within_hours w); done.
  - intros (-> & -> & -> & ->). simpl. eauto.
Qed.

(** ** The choice of the next request *)
Definition runnable (w : World) (r : lifecycleRequest) : bool := requestRunnableLocked r w.
Definition prio (r : lifecycleRequest) : Z := actionPriority (lr_kind r).

(** [i] is the first runnable request of the queue no runnable request outranks. *)
Definition best_at (w : World) (q : list lifecycleRequest) (i : nat) (r : lifecycleRequest) : Prop :=
  q !! i = Some r /\ runnable w r = true /\
  (forall j r', q !! j = Some r' -> runnable w r' = true -> prio r' <= prio r) /\
  (forall j r', (j < i)%nat -> q !! j = Some r' -> runnable w r' = true -> prio r' < prio r).

Definition scanned (w : World) (q : list lifecycleRequest) (best : option (nat * Z)) : Prop :=
  match best with
  | None => forall j r', q !! j = Some r' -> runnable w r' = false
  | Some (i, s) => exists r, best_at w q i r /\ s = prio r
  end.

Lemma snoc_lookup {A} (l : list A) x j y :
  (l ++ [x]) !! j = Some y -> l !! j = Some y \/ j = length l /\ y = x.
Proof.
  intros [H|[Hle H]]%lookup_app_Some; [by left|]. right.
  apply list_lookup_singleton_Some in H as [? <-]. split; [lia|done].
Qed.

Lemma scanned_skip w q best r : runnable w r = false -> scanned w q best -> scanned w (q ++ [r]) best.
Proof.
  intros Hr. destruct best as [[i s]|]; simpl.
  - intros (b & (Hi & Hb & Hmax & Hfirst) & ->). exists b. split; [|done]. split_and!; try done.
    + by apply lookup_app_l_Some.
    + intros j r' [?|[-> ->]]%snoc_lookup ?; [eauto|congruence].
    + intros j r' Hj [?|[-> ->]]%snoc_lookup ?; [eauto|congruence].
  - intros H j r' [?|[-> ->]]%snoc_lookup; eauto.
Qed.

Lemma scanned_take w q r : runnable w r = true ->
  (forall j r', q !! j = Some r' -> runnable w r' = true -> prio r' < prio r) ->
  scanned w (q ++ [r]) (Some (length q, prio r)).
Proof.
  intros Hr Hlt. exists r. split; [|done]. split_and!; try done.
  - by rewrite lookup_app_r, Nat.sub_diag by lia.
  - intros j r' [?|[-> ->]]%snoc_lookup ?; [apply Z.lt_le_incl; eauto|lia].
  - intros j r' Hj [?|[-> ->]]%snoc_lookup ?; [eauto|lia].
Qed.

Lemma best_request_scanned w q pre best :
  scanned w pre best -> scanned w (pre ++ q) (best_request w (length pre) best q).
Proof.
  revert pre best. induction q as [|req q IH]; intros pre best Hb; [by rewrite app_nil_r|].
  cbn [best_request]. replace (S (length pre)) with (length (pre ++ [req])) by (rewrite length_app; simpl; lia).
  replace (pre ++ req :: q) with ((pre ++ [req]) ++ q) by (by rewrite <-app_assoc).
  apply IH. clear IH. fold (runnable w req). fold (prio req).
  destruct (runnable w req) eqn:Hr; simpl; [|by apply scanned_skip].
  destruct best as [[i s]|].
  - destruct Hb as (b & (Hi & Hrun & Hmax & Hfirst) & ->). destruct (prio b <? prio req) eqn:Hlt; bool_hyps.
    + apply scanned_take; [done|]. intros j r' Hj Hj'. specialize (Hmax j r' Hj Hj'). lia.
    + exists b. split; [|done]. split_and!; try done.
      * by apply lookup_app_l_Some.
      * intros j r' [?|[-> ->]]%snoc_lookup ?; [eauto|lia].
      * intros j r' Hj [?|[-> ->]]%snoc_lookup ?; [eauto|]. apply lookup_lt_Some in Hi. lia.
  - apply scanned_take; [done|]. intros j r' Hj Hj'. specialize (Hb j r' Hj). congruence.
Qed.

(** (functional) the manager takes the oldest of the runnable requests with
    the highest priority, removes that one request from the queue and keeps the
    others in their order; it takes none exactly when none is runnable. *)
Theorem nextRequest_takes_best w :
  match nextRequest w with
  | (Some r, w') => exists i, best_at w (m_queue (w_m w)) i r /\ m_queue (w_m w') = delete i (m_queue (w_m w)) /\
      m_currentAction (w_m w') = action_name (lr_kind r)
  | (None, w') => w' = w /\ Forall (fun r => runnable w r = false) (m_queue (w_m w))
  end.
Proof.
  pose proof (best_request_scanned w (m_queue (w_m w)) [] None ltac:(by intros ? ?)) as H.
  unfold nextRequest. simpl in H. destruct (best_request w 0 None _) as [[i s]|]; simpl in H.
  - destruct H as (r & Hr & ->). destruct (Hr) as (Hi & _). rewrite Hi. by exists i.
  - split; [done|]. apply Forall_lookup. eauto.
Qed.

(** (safety) while an update or a mod operation is in progress the manager
    takes nothing from the queue but a stop or a forced restart of ChatWire; a
    request to act when the server is empty waits for the last player. *)
Theorem nextRequest_respects_gates w r w' :
  nextRequest w = (Some r, w') ->
  (UpdateInProgress w || ModOperationInProgress w = true ->
     lr_kind r = ActionStop \/ lr_kind r = ActionRestartChatWire /\ r_ForceChatWireExit (lr_req r) = true) /\
  (r_WhenEmpty (lr_req r) = true -> m_phase (w_m w) <> LifecycleStopped -> g_numPlayers (w_g w) <= 0).
Proof.
  intros H. pose proof (best_request_scanned w (m_queue (w_m w)) [] None ltac:(by intros ? ?)) as Hb.
  unfold nextRequest in H. simpl in Hb. destruct (best_request w 0 None _) as [[i s]|]; [|done].
  destruct Hb as (b & (Hi & Hrun & _) & ->). rewrite Hi in H. injection H as -> <-.
  unfold runnable, requestRunnableLocked in Hrun. fold (lr_kind r) in Hrun. split.
  - intros Hu. rewrite Hu in Hrun. revert Hrun.
    destruct (decide (lr_kind r = ActionStop)) as [|Hn]; [by left|].
    rewrite (bool_decide_eq_true_2 _ Hn). simpl.
    destruct (bool_decide (lr_kind r = ActionRestartChatWire)) eqn:E; [|done]. bool_hyps.
    destruct (r_ForceChatWireExit _); [by right|done].
  - intros He Hph. rewrite He, (bool_decide_eq_true_2 _ Hph) in Hrun. revert Hrun.
    destruct (_ && negb _); [done|]. simpl. destruct (0 <? _) eqn:E; [done|]. by bool_hyps.
Qed.

(** ** Reports of an earlier process *)

(** (safety) what the reader or the waiter of an earlier process reports
    late, readiness, progress, health or exit, changes nothing of the current
    server: the manager's handler does nothing at all. *)
Theorem stale_reports_ignored w g kind detail err err' at_ :
  g <> m_currentGeneration (w_m (env_point w)) ->
  handleReadyEvent g w = Some (tt, env_point w) /\
  handleProgressEvent (mkProgress g kind detail at_) w = Some (tt, env_point w) /\
  (g <> 0 -> handleExitEvent (mkExit g err) w = Some (tt, env_point w)) /\
  (g <> 0 -> handleHealthEvent (mkHealth g kind err' at_) w = Some (tt, env_point w)).
Proof.
  intros Hg. assert (E : (g =? m_currentGeneration (w_m (env_point w))) = false) by (by apply Z.eqb_neq).
  split_and!.
  - unfold handleReadyEvent. cbv [mbind LM_bind]. unfold locked at 1, ready_locked. by rewrite E.
  - unfold handleProgressEvent. cbv [mbind LM_bind]. unfold locked at 1, progress_locked.
    cbn [pe_generation]. by rewrite E.
  - intros H0. unfold handleExitEvent. cbn [ee_generation]. rewrite (proj2 (Z.eqb_neq _ _) H0).
    unfold finalizeStopped. cbv [mbind LM_bind]. unfold locked at 1. by rewrite finalize_other.
  - intros H0. unfold handleHealthEvent. cbn [he_generation]. rewrite (proj2 (Z.eqb_neq _ _) H0).
    cbv [mbind LM_bind]. unfold locked at 1, health_locked.
    cbn [he_generation]. by rewrite E.
Qed.
End safety.

(** ** A concrete run: automatic start, readiness, a restart someone waits for *)
Definition sample_round (w : World) : World :=
  match run_round (Env := dying_env) 50 w with Some (_, w') => w' | None => w end.
Definition sample_started : World := Eval vm_compute in
  sample_round (env_step (Env := dying_env) (initialWorld (1700000000 * Second)) (EnvAutostart true)).
Definition sample_ready : World := Eval vm_compute in
  sample_round (env_step (Env := dying_env) sample_started (EnvReady 1)).
Definition sample_restarted : World := Eval vm_compute in
  sample_round (env_step (Env := dying_env) sample_ready
    (EnvSubmit (plainRequest ActionRestartFactorio "new mods" "") (Some 7%nat))).

Example sample_run :
  (m_phase (w_m sample_ready), w_live sample_ready) = (LifecycleRunning, [1]) /\
  (m_phase (w_m sample_restarted), w_live sample_restarted) = (LifecycleStarting, [2]) /\
  w_trace sample_restarted =
    [ELaunch 1 "" []; ENotice "🟢 Factorio 2.0.1 is online."; ESend "/quit"; ELaunch 2 "" []; EReply 7 None].
Proof. vm_compute. done. Qed.

Lemma sample_ready_reachable : reachable (Env := dying_env) sample_ready.
Proof.
  apply (reach_round (Env := dying_env) (env_step (Env := dying_env) sample_started (EnvReady 1)) 50 true);
    [|vm_compute; reflexivity].
  apply reach_env.
  apply (reach_round (Env := dying_env)
    (env_step (Env := dying_env) (initialWorld (1700000000 * Second)) (EnvAutostart true)) 50 true);
    [|vm_compute; reflexivity].
  apply reach_env, reach_init.
Defined.

Lemma sample_restarted_reachable : reachable (Env := dying_env) sample_restarted.
Proof.
  apply (reach_round (Env := dying_env) (env_step (Env := dying_env) sample_ready
    (EnvSubmit (plainRequest ActionRestartFactorio "new mods" "") (Some 7%nat))) 50 true);
    [apply reach_env, sample_ready_reachable|vm_compute; reflexivity].
Defined.

Lemma one_server_at_a_time_witness :
  w_live sample_restarted = [2] /\ (length (w_live sample_restarted) <= 1)%nat /\
  (forall g save alive, ELaunch g save alive ∈ w_trace sample_restarted -> alive = []).
Proof.
  split; [reflexivity|].
  destruct (one_server_at_a_time (Env := dying_env) sample_restarted sample_restarted_reachable) as (? & _ & ?).
  by split.
Defined.

Lemma exported_flags_agree_witness :
  g_FactIsRunning (w_g sample_ready) = true /\ g_FactorioBooted (w_g sample_ready) = m_booted (w_m sample_ready).
Proof.
  split; [reflexivity|].
  exact (proj1 (proj2 (exported_flags_agree (Env := dying_env) sample_ready sample_ready_reachable))).
Defined.

(** A stop the process ignores, and one it obeys. *)
Definition stopped_world : World := Eval vm_compute in
  match executeStop (Env := dying_env) 50 "bye" sample_ready with Some (_, w) => w | None => sample_ready end.

Lemma executeStop_outcome_witness :
  m_phase (w_m stopped_world) = LifecycleStopped /\ w_live stopped_world = [].
Proof.
  apply (executeStop_outcome (Env := dying_env) 50 "bye" sample_ready None stopped_world sample_ready_reachable).
  vm_compute. reflexivity.
Defined.

Definition gated_world : World :=
  let w := env_step (Env := dying_env) sample_ready (EnvSetUpdate true) in
  let w := env_step (Env := dying_env) w (EnvSubmit (plainRequest ActionRestartFactorio "" "r1") None) in
  env_step (Env := dying_env) w (EnvSubmit (plainRequest ActionStop "" "r2") None).

Lemma nextRequest_respects_gates_witness :
  exists r w', nextRequest gated_world = (Some r, w') /\ lr_kind r = ActionStop /\
    (UpdateInProgress gated_world || ModOperationInProgress gated_world = true ->
     lr_kind r = ActionStop \/ lr_kind r = ActionRestartChatWire /\ r_ForceChatWireExit (lr_req r) = true).
Proof.
  destruct (nextRequest gated_world) as [[r|] w'] eqn:E; [|vm_compute in E; discriminate E].
  exists r, w'. split; [done|]. split; [vm_compute in E; injection E as <- _; reflexivity|].
  exact (proj1 (nextRequest_respects_gates gated_world r w' E)).
Defined.

Lemma stale_reports_ignored_witness :
  handleReadyEvent (Env := dying_env) 1 sample_restarted = Some (tt, env_point (Env := dying_env) sample_restarted).
Proof.
  refine (proj1 (stale_reports_ignored (Env := dying_env) sample_restarted 1 "" "" None "" 0 _)).
  vm_compute. discriminate.
Defined.
