(* ===== verification/LifecycleAnswers.v ===== *)
(** * Every requester that waits is answered

    [SubmitLifecycleRequestAndWait] blocks on a channel the manager sends one
    error on.  The answers given so far are part of the trace; all of the
    manager's code but the end of [execute] and [cancelPendingRequests] leaves
    them alone. *)
From S2P Require Import Prelude.
From S2P Require Import GoInt.
From S2P Require Import GoString.
From S2P Require Import GoPath.
From S2P Require Import GoTime.
From S2P Require Import OperationStatus.
From S2P Require Import Lifecycle.
From S2P Require Import LifecycleInvariant.

Definition answer_of (e : effect) : option (nat * error) :=
  match e with EReply d err => Some (d, err) | _ => None end.
Definition answers (w : World) : list (nat * error) := omap answer_of (w_trace w).

Section answers.
Context {Env : LifecycleEnv}.

(** [f] answers nobody. *)
Class Mute (f : World -> World) : Prop := mute w : answers (f w) = answers w.

Lemma answers_emit e w : answers (emit e w) = answers w ++ omap answer_of [e].
Proof. unfold answers. simpl. by rewrite omap_app. Qed.

Lemma mute_emit e : answer_of e = None -> Mute (emit e).
Proof. intros H w. rewrite answers_emit. simpl. by rewrite H, app_nil_r. Qed.

(** The trace is not touched at all. *)
Lemma mute_silent f : (forall w, w_trace (f w) = w_trace w) -> Mute f.
Proof. intros H w. unfold answers. by rewrite H. Qed.

Lemma mute_compose f g w : Mute f -> answers (g w) = answers w -> answers (f (g w)) = answers w.
Proof. intros Hf <-. apply Hf. Qed.

Lemma sync_trace w : w_trace (syncCompatibilityLocked w) = w_trace w.
Proof. done. Qed.

#[export] Instance mute_autolaunch v r : Mute (SetAutolaunch v r).
Proof. intros w. unfold SetAutolaunch. repeat case_match; try done; by rewrite answers_emit, app_nil_r. Qed.
#[export] Instance mute_remove p : Mute (remove_snapshot p).
Proof. intros w. unfold remove_snapshot. case_match; [|done]. by rewrite answers_emit, app_nil_r. Qed.

#[export] Instance mute_submit req done : Mute (fun w => (submitLifecycleRequest req done w).2).
Proof.
  intros w. unfold submitLifecycleRequest. assert (Ha : answers (assign_id req w).2 = answers w).
  { unfold assign_id. by case_match. }
  destruct (assign_id req w) as [req' w1]. cbn [snd] in Ha. rewrite <-Ha.
  repeat case_match; try done; apply mute_remove.
Qed.

#[export] Instance mute_env_step o : Mute (fun w => env_step w o).
Proof.
  intros w. destruct o; cbn [env_step]; try done.
  - apply (mute_submit req done).
  - unfold NotifySoftModDetected. by case_match.
  - by case_match.
  - unfold NotifyFactorioProgress. by case_match.
  - unfold NotifyFactorioHealth. by case_match.
  - apply mute_autolaunch.
  - repeat case_match; done.
Qed.

Lemma answers_env_point w : answers (env_point w) = answers w.
Proof.
  unfold env_point. transitivity (answers (foldl env_step w (sched (w_tick w)))); [done|].
  generalize (sched (w_tick w)). intros l. revert w. induction l as [|o l IH]; intros w; simpl; [done|].
  by rewrite IH, (mute_env_step o w).
Qed.

(** The answers given are [l]. *)
Definition Answered (l : list (nat * error)) (w : World) : Prop := answers w = l.
#[export] Instance Stable_Answered l : Stable (Answered l).
Proof. intros w H. unfold Answered. by rewrite answers_env_point. Qed.
#[export] Instance Kept_mute l f : Mute f -> KeptBy (Answered l) f.
Proof. intros Hf w H. unfold Answered. by rewrite Hf. Qed.

Ltac mute_field := apply mute_silent; intros ?; reflexivity.
#[export] Instance mute_on_op f : Mute (on_op f). Proof. mute_field. Qed.
#[export] Instance mute_on_op_w f : Mute (fun w => on_op (f w) w). Proof. mute_field. Qed.
#[export] Instance mute_on_m f : Mute (on_m f). Proof. mute_field. Qed.
#[export] Instance mute_on_g f : Mute (on_g f). Proof. mute_field. Qed.
#[export] Instance mute_operation t k s : Mute (set_operation t k s). Proof. mute_field. Qed.
#[export] Instance mute_signal : Mute signal. Proof. mute_field. Qed.
#[export] Instance mute_sync : Mute syncCompatibilityLocked. Proof. mute_field. Qed.
#[export] Instance mute_id : Mute id. Proof. mute_field. Qed.

#[export] Instance mute_warn r : Mute (warn_players r).
Proof. intros w. unfold answers, warn_players, colours. simpl. rewrite !omap_app. simpl. by rewrite !app_nil_r. Qed.
#[export] Instance mute_quit : Mute lifecycleSendQuit.
Proof.
  intros w. unfold lifecycleSendQuit, NotifyFactorioHealth. repeat case_match; try done.
  by rewrite answers_emit, app_nil_r.
Qed.
#[export] Instance mute_softmod t : Mute (softmod_locked t).
Proof. intros w. unfold softmod_locked. by repeat case_match. Qed.

#[export] Instance mute_finalize h e r : Mute (fun w => (finalize_locked h e r w).2).
Proof.
  intros w. unfold finalize_locked. case_match; [done|]. case_match; [done|]. cbn [snd].
  assert (Hm : forall c, answers (mark_stopped c e w) = answers w).
  { intros c. unfold mark_stopped, answers. simpl. by case_match. }
  set (w1 := mark_stopped _ e w). assert (H1 : answers w1 = answers w) by apply Hm. clearbody w1.
  set (w2 := if r && _ && _ then _ else w1).
  assert (H2 : answers w2 = answers w).
  { unfold w2. case_match; [by rewrite answers_emit, app_nil_r|done]. }
  clearbody w2. case_match; [|done]. rewrite <-H2. unfold count_crash. case_match; [|done].
  rewrite answers_emit, app_nil_r. match goal with |- answers (on_g _ (SetAutolaunch _ _ ?v)) = _ =>
    exact (mute_autolaunch false true v) end.
Qed.

#[export] Instance mute_progress e : Mute (fun w => (progress_locked e w).2).
Proof. intros w. unfold progress_locked. by case_match. Qed.
#[export] Instance mute_health e : Mute (fun w => (health_locked e w).2).
Proof. intros w. unfold health_locked. by repeat case_match. Qed.
#[export] Instance mute_ready g : Mute (fun w => (ready_locked g w).2).
Proof. intros w. unfold ready_locked. by case_match. Qed.
#[export] Instance mute_select f : Mute (fun w => (select f w).2).
Proof. intros w. unfold select. destruct (_ !! _) as [[]|]; done. Qed.
#[export] Instance mute_stop_begin : Mute (fun w => (stop_begin w).2).
Proof. intros w. unfold stop_begin. by case_match. Qed.
#[export] Instance mute_start_begin : Mute (fun w => (start_begin w).2).
Proof. intros w. unfold start_begin. by repeat case_match. Qed.
#[export] Instance mute_launch g s : Mute (fun w => (LaunchFactorio g s w).2).
Proof.
  intros w. unfold LaunchFactorio. repeat case_match; cbn [snd]; try done.
  - by rewrite answers_emit, app_nil_r.
  - apply (mute_autolaunch false true).
Qed.
#[export] Instance mute_launch_failed e : Mute (launch_failed e). Proof. mute_field. Qed.
#[export] Instance mute_launch_finished : Mute launch_finished.
Proof. intros w. unfold launch_finished, answers. by repeat case_match. Qed.

(** *** The manager's code up to the answer *)
Section silent_code.
Variable l : list (nat * error).
Local Notation keep := (Keeps (Answered l)).

#[local] Instance k_op f : keep (op_call_now f). Proof. unfold op_call_now. apply _. Qed.
Lemma k_emit e : answer_of e = None -> keep (update (emit e)).
Proof. intros H. apply Keeps_update; [apply _|]. intros w Hw. unfold Answered. by rewrite (mute_emit e H). Qed.
#[local] Hint Extern 1 (Keeps _ (update (emit _))) => apply k_emit; reflexivity : typeclass_instances.
#[local] Instance k_sleep d : keep (sleep d).
Proof. apply Keeps_update; [apply _|]. by intros w Hw. Qed.
#[local] Instance k_now : keep now. Proof. unfold now. apply _. Qed.
#[local] Instance k_begin req : keep (beginOperation req).
Proof.
  unfold beginOperation. do 3 (apply Keeps_bind; [apply _|]; intros ?). apply Keeps_bind; [|apply _].
  apply Keeps_locked; [apply _|]. intros w Hw. by case_match.
Qed.
#[local] Instance k_take : keep take_operation.
Proof. unfold take_operation. apply Keeps_locked; [apply _|]. by intros w Hw. Qed.
#[local] Instance k_finish e : keep (finishOperationError e). Proof. unfold finishOperationError. apply _. Qed.
#[local] Instance k_progress d : keep (updateOperationProgress d). Proof. unfold updateOperationProgress. apply _. Qed.
#[local] Instance k_delayed d r t : keep (updateOperationProgressDelayedWithReminder d r t).
Proof. unfold updateOperationProgressDelayedWithReminder. apply _. Qed.
#[local] Instance k_finalize h e r : keep (finalizeStopped h e r). Proof. unfold finalizeStopped. apply _. Qed.
#[local] Instance k_exit e : keep (handleExitEvent e). Proof. unfold handleExitEvent. apply _. Qed.
#[local] Instance k_hprogress e : keep (handleProgressEvent e). Proof. unfold handleProgressEvent. apply _. Qed.
#[local] Instance k_complete t a b : keep (complete_operation t a b). Proof. unfold complete_operation. apply _. Qed.
#[local] Instance k_hready g : keep (handleReadyEvent g).
Proof.
  unfold handleReadyEvent. apply Keeps_bind; [apply _|]. intros [[[t k] s]|]; [|apply _].
  do 6 (apply Keeps_bind; [apply _|]; intros ?). destruct k; apply _.
Qed.
#[local] Instance k_wait fuel g a d s : keep (wait_loop fuel g a d s).
Proof.
  revert d s. induction fuel as [|fuel IH]; intros d s; [apply triple_out_of_fuel|]. cbn [wait_loop]. unfold wait_body.
  apply Keeps_bind; [apply _|]. intros [at_ kind]. cbv zeta. apply Keeps_bind; [apply _|]. intros gone.
  apply Keeps_if; [apply _|]. apply Keeps_bind; [apply _|]. intros alive. apply Keeps_if; [apply _|].
  apply Keeps_bind; [apply _|]. intros t. apply Keeps_if; [apply _|]. apply Keeps_bind; [apply _|].
  intros [[gen|gen|evt|evt|evt]|]; unfold wait_event; apply _.
Qed.
#[local] Instance k_waitForStop fuel g t a : keep (waitForStop fuel g t a). Proof. unfold waitForStop. apply _. Qed.
#[local] Instance k_stop fuel r : keep (executeStop fuel r).
Proof.
  unfold executeStop. apply Keeps_bind; [apply _|]. intros [[g b]|]; [|apply _]. cbv zeta.
  apply Keeps_bind; [apply _|]. intros ?. apply Keeps_bind; [apply _|]. intros players.
  apply Keeps_bind; [apply _|]. intros ?. apply Keeps_bind; [apply _|]. intros running.
  apply Keeps_bind; [apply _|]. intros ?. apply _.
Qed.
#[local] Instance k_start r s : keep (executeStart r s). Proof. unfold executeStart. apply _. Qed.
#[local] Instance k_change s : keep (doChangeMapAfterStop s).
Proof.
  unfold doChangeMapAfterStop. apply Keeps_bind; [apply _|]. intros [?|]; [apply _|].
  apply Keeps_bind; [|apply _]. apply Keeps_locked; [apply _|]. intros w Hw. case_match; [done|].
  unfold Answered. cbn [snd]. by rewrite answers_emit, app_nil_r.
Qed.
#[local] Instance k_autolaunch v : keep (autolaunch v). Proof. unfold autolaunch. apply _. Qed.
#[local] Instance k_prepare fuel r p : keep p -> keep (stop_prepare_start fuel r p).
Proof. intros. unfold stop_prepare_start. apply _. Qed.

Lemma run_action_mute fuel req : keep (run_action fuel req).
Proof. unfold run_action. destruct (lr_kind req); cbv zeta; apply _. Qed.
Lemma begin_mute req : keep (beginOperation req). Proof. apply _. Qed.
Lemma finish_mute e : keep (finishOperationError e). Proof. apply _. Qed.
End silent_code.

(** The answer to one request. *)
Definition answer_to (req : lifecycleRequest) (err : error) : list (nat * error) :=
  match lr_done req with Some d => [(d, err)] | None => [] end.

Lemma answers_reply req err w : answers (reply req err w) = answers w ++ answer_to req err.
Proof. unfold reply, answer_to. case_match; [apply answers_emit|by rewrite app_nil_r]. Qed.

Lemma bind_Some_inv {A B} (m : LM A) (f : A -> LM B) w b w' :
  (m ≫= f) w = Some (b, w') -> exists a v, m w = Some (a, v) /\ f a v = Some (b, w').
Proof. cbv [mbind LM_bind]. destruct (m w) as [[a v]|]; [eauto|done]. Qed.

Lemma keeps_answers {A} (m : LM A) w a w' :
  (forall l, Keeps (Answered l) m) -> m w = Some (a, w') -> answers w' = answers w.
Proof. intros H E. exact (H (answers w) w a w' eq_refl E). Qed.

Lemma keeps_staged_head {A} (m1 m2 : LM A) (b : bool) :
  (forall l, Keeps (Answered l) m1) -> (forall l, Keeps (Answered l) m2) ->
  forall l, Keeps (Answered l) (if b then m1 else m2).
Proof. by destruct b. Qed.

Lemma execute_staged_answers fuel req w w' :
  execute_staged fuel req w = Some (tt, w') -> exists err, answers w' = answers w ++ answer_to req err.
Proof.
  unfold execute_staged. intros H.
  apply bind_Some_inv in H as (noop & w1 & E1 & H). apply keeps_answers in E1; [|apply _].
  apply bind_Some_inv in H as (u & w2 & E2 & H).
  apply keeps_answers in E2; [|apply keeps_staged_head; [apply _|intros; apply begin_mute]].
  apply bind_Some_inv in H as (err & w3 & E3 & H). apply keeps_answers in E3; [|intros; apply run_action_mute].
  apply bind_Some_inv in H as (u1 & w4 & E4 & H).
  apply keeps_answers in E4; [|intros; apply Keeps_update; [apply _|by intros v Hv]].
  apply bind_Some_inv in H as (u2 & w5 & E5 & H).
  apply keeps_answers in E5; [|apply keeps_staged_head; [intros; apply finish_mute|apply _]].
  apply bind_Some_inv in H as (u3 & w6 & E6 & H). injection E6 as <- <-.
  apply keeps_answers in H; [|apply _].
  exists err. rewrite H, answers_reply, answers_env_point. congruence.
Qed.

(** Whatever comes of it, a request that was executed is answered once, and nobody else. *)
Lemma execute_answers fuel req w w' :
  execute fuel req w = Some (tt, w') -> exists err, answers w' = answers w ++ answer_to req err.
Proof.
  unfold execute. destruct (_ && _); [|apply execute_staged_answers]. intros H.
  apply bind_Some_inv in H as (r & w1 & E1 & H). apply keeps_answers in E1; [|apply _].
  destruct r as [snapshot|e].
  - apply execute_staged_answers in H as [err H]. exists err. by rewrite H, E1.
  - apply bind_Some_inv in H as (u & w2 & E2 & H). apply keeps_answers in E2; [|apply _].
    injection H as <-. exists (Some e). rewrite answers_reply, answers_env_point. congruence.
Qed.

Definition cancelled : error := Some "lifecycle manager stopped before request completed".

(** (liveness) when the manager ends, every request still queued is answered,
    in the order of the queue, with the cancellation error, and the queue is
    empty: no requester is left blocked. *)
Theorem cancel_answers_everyone w w' :
  cancelPendingRequests w = Some (tt, w') ->
  answers w' = answers w ++ mjoin ((fun req => answer_to req cancelled) <$> m_queue (w_m (env_point w))).
Proof.
  unfold cancelPendingRequests. intros H. apply bind_Some_inv in H as (q & w1 & E1 & H).
  injection E1 as <- <-. injection H as <-.
  rewrite <-(answers_env_point w) at 1.
  set (v := env_point (syncCompatibilityLocked _)).
  assert (Hv : answers v = answers (env_point w)) by exact (answers_env_point _).
  clearbody v. rewrite <-Hv. clear Hv.
  change (m_queue (w_m (foldl env_step w (sched (w_tick w))))) with (m_queue (w_m (env_point w))).
  generalize (m_queue (w_m (env_point w))). intros q. revert v.
  induction q as [|req q IH]; intros v; simpl; [by rewrite app_nil_r|].
  rewrite IH, answers_reply. fold cancelled. by rewrite mute_remove, <-app_assoc.
Qed.
End answers.

(** A stop of a server that is not running, and two queued requests. *)
Definition waiting_stop : lifecycleRequest := mkLR (plainRequest ActionStop "" "r1") (Some 3%nat) 0 "".
Definition idle_world : World :=
  mkWorld (mkManager LifecycleStopped 0 false 0 0 "" "" zeroTime zeroTime
      [waiting_stop; mkLR (plainRequest ActionStart "" "r2") (Some 4%nat) 0 "snap.zip"] false [] [] [] [] [] false false
      false false "" NoAction "" zeroTime "")
    (mkGlobals false false zeroTime false false false false false false 0 false None None 0 zeroTime 0 "" false
      false true 0) initOpWorld 0 [] [] 0 [].

Lemma cancel_answers_everyone_witness :
  exists w', cancelPendingRequests (Env := quiet_env) idle_world = Some (tt, w') /\
    answers w' = [(3%nat, cancelled); (4%nat, cancelled)].
Proof.
  destruct (cancelPendingRequests (Env := quiet_env) idle_world) as [[[] w']|] eqn:E; [|vm_compute in E; discriminate E].
  exists w'. split; [done|]. rewrite (cancel_answers_everyone (Env := quiet_env) idle_world w' E). reflexivity.
Defined.
