(* ===== verification/LifecycleEnds.v ===== *)
(** * The manager's loops come to an end

    A wait for the server to stop polls until a deadline that a report of progress may
    push back.  Reports come from the output reader, from the goroutine that waits for
    the process and from writes that fail; once the last of them has come, the deadline
    stands still and the wait ends after a number of polls that the pending events and the
    time left bound.
    So a stop comes back with an answer, and so does every request. *)
From S2P Require Import Prelude.
From S2P Require Import GoInt.
From S2P Require Import GoString.
From S2P Require Import GoPath.
From S2P Require Import GoTime.
From S2P Require Import OperationStatus.
From S2P Require Import Lifecycle.
From S2P Require Import LifecycleInvariant.
From S2P Require Import LifecycleAnswers.

(** The action of another goroutine that is no report to the manager. *)
Definition silent (o : env_op) : Prop :=
  match o with
  | EnvReady _ | EnvGoodbye _ | EnvWait _ _ | EnvProgress _ _ _ | EnvHealth _ _ _ => False
  | _ => True
  end.

Definition pending_stop (m : lifecycleManager) : nat :=
  length (m_exitCh m) + length (m_goodbyeCh m) + length (m_readyCh m) + length (m_progressCh m).
Definition pending_all (m : lifecycleManager) : nat := pending_stop m + length (m_healthCh m).

(** No progress seen or pending extends a deadline beyond [D]. *)
Definition within (D : time) (kind : string) (at_ : time) : Prop :=
  forall d, d <= D -> extend_deadline kind at_ d <= D.
Definition bounded (D : time) (m : lifecycleManager) : Prop :=
  within D (m_lastProgressKind m) (m_lastProgressAt m) /\
  Forall (fun e => within D (pe_kind e) (pe_at e)) (m_progressCh m).

Lemma within_bound D kind at_ : at_ + lifecycleStopSaveTimeout <= D -> within D kind at_.
Proof.
  intros H d Hd. unfold extend_deadline, Add, lifecycleStopIdleTimeout, lifecycleStopSaveTimeout, Minute, Second in *.
  repeat case_match; lia.
Qed.

Definition max_time (l : list time) : time := foldr Z.max 0 l.
Lemma max_time_le l t : t ∈ l -> t <= max_time l.
Proof. induction l as [|x l IH]; [by intros ?%not_elem_of_nil|]. intros [->|H]%elem_of_cons; simpl; [lia|]. apply IH in H. lia. Qed.

(** Every deadline and every report of a world is bounded by something. *)
Definition horizon (deadline : time) (m : lifecycleManager) : time :=
  max_time (deadline :: ((fun t => t + lifecycleStopSaveTimeout) <$> (m_lastProgressAt m :: (pe_at <$> m_progressCh m)))).

Lemma horizon_bounded d m : bounded (horizon d m) m /\ d <= horizon d m.
Proof.
  split; [split|].
  - apply within_bound, max_time_le. right. simpl. left.
  - apply Forall_forall. intros e He. apply within_bound, max_time_le. right. simpl. right.
    apply list_elem_of_fmap. exists (pe_at e). split; [done|]. by apply list_elem_of_fmap_2.
  - apply max_time_le. left.
Qed.

(** [w'] is not earlier than [w] and has no more to do. *)
Definition settled (w w' : World) : Prop :=
  w_clock w <= w_clock w' /\
  (pending_stop (w_m w') <= pending_stop (w_m w))%nat /\ (pending_all (w_m w') <= pending_all (w_m w))%nat /\
  (forall D, bounded D (w_m w) -> bounded D (w_m w')).

(** The steps of the manager only go on, and from the tick [K] on they settle things. *)
Definition calm_from (K : nat) (w w' : World) : Prop :=
  (w_tick w <= w_tick w')%nat /\ ((K <= w_tick w)%nat -> settled w w').

#[export] Instance settled_refl : Reflexive settled. Proof. intros w. by split_and!. Qed.
#[export] Instance settled_trans : Transitive settled.
Proof. intros u v w (? & ? & ? & ?) (? & ? & ? & ?). split_and!; [lia..|auto]. Qed.
#[export] Instance calm_refl K : Reflexive (calm_from K). Proof. by split. Qed.
#[export] Instance calm_trans K : Transitive (calm_from K).
Proof. intros u v w [H1 H2] [H3 H4]. split; [lia|]. intros HK. etransitivity; [by apply H2|apply H4; lia]. Qed.

(** The fields a step has to leave alone to be calm. *)
Definition same_inbox (w w' : World) : Prop :=
  w_clock w <= w_clock w' /\ m_exitCh (w_m w') = m_exitCh (w_m w) /\ m_goodbyeCh (w_m w') = m_goodbyeCh (w_m w) /\
  m_readyCh (w_m w') = m_readyCh (w_m w) /\ m_progressCh (w_m w') = m_progressCh (w_m w) /\
  m_healthCh (w_m w') = m_healthCh (w_m w) /\ m_lastProgressAt (w_m w') = m_lastProgressAt (w_m w) /\
  m_lastProgressKind (w_m w') = m_lastProgressKind (w_m w).

Lemma inbox_calm K w w' : w_tick w' = w_tick w -> same_inbox w w' -> calm_from K w w'.
Proof.
  intros Ht (H & E1 & E2 & E3 & E4 & E5 & E6 & E7). split; [lia|intros _].
  unfold settled, pending_all, pending_stop, bounded. rewrite E1, E2, E3, E4, E5, E6, E7. split_and!; [done|lia..|done].
Qed.

Ltac inbox := apply inbox_calm; [reflexivity|split_and!; simpl; lia || done].

Section termination.
Context {Env : LifecycleEnv} (K : nat).
#[local] Notation calm := (calm_from K).

Lemma autolaunch_calm v r w : calm w (SetAutolaunch v r w).
Proof. unfold SetAutolaunch. repeat case_match; inbox. Qed.

Lemma submit_calm req done w : calm w (submitLifecycleRequest req done w).2.
Proof.
  unfold submitLifecycleRequest. assert (Ha : calm w (assign_id req w).2).
  { unfold assign_id. case_match; [inbox|reflexivity]. }
  destruct (assign_id req w) as [req' w1]. etransitivity; [exact Ha|]. clear Ha. cbn [snd].
  unfold remove_snapshot. repeat case_match; cbn [snd]; first [reflexivity|inbox].
Qed.

Lemma env_step_calm w o : silent o -> calm w (env_step w o).
Proof.
  destruct o; cbn [env_step silent]; try done; intros _; try inbox.
  - apply submit_calm.
  - unfold NotifySoftModDetected. case_match; inbox.
  - apply autolaunch_calm.
  - repeat case_match; first [reflexivity|inbox].
Qed.

Lemma submit_tick req done w : w_tick (submitLifecycleRequest req done w).2 = w_tick w.
Proof.
  unfold submitLifecycleRequest. assert (Ha : w_tick (assign_id req w).2 = w_tick w) by (unfold assign_id; by case_match).
  destruct (assign_id req w) as [req' w1]. rewrite <- Ha. unfold remove_snapshot. cbn [snd]. repeat case_match; done.
Qed.

Lemma env_step_tick w o : w_tick (env_step w o) = w_tick w.
Proof.
  destruct o; cbn [env_step]; try done; [apply submit_tick|..];
    unfold NotifySoftModDetected, NotifyFactorioProgress, NotifyFactorioHealth, SetAutolaunch; repeat case_match; done.
Qed.

Lemma env_point_tick w : w_tick (env_point w) = S (w_tick w).
Proof.
  unfold env_point. cut (w_tick (foldl env_step w (sched (w_tick w))) = w_tick w); [intros E; simpl; by rewrite E|].
  generalize (sched (w_tick w)). intros l. revert w. induction l as [|o l IH]; intros w; simpl; [done|]. by rewrite IH, env_step_tick.
Qed.

(** The last report has come before the tick [K]. *)
Context (Hsilent : forall k, (K <= k)%nat -> Forall silent (sched k)).

Lemma env_point_calm w : calm w (env_point w).
Proof.
  split; [rewrite env_point_tick; lia|]. intros HK. unfold env_point.
  transitivity (foldl env_step w (sched (w_tick w))); [|by split_and!].
  generalize (Hsilent (w_tick w) HK). generalize (sched (w_tick w)). intros l Hl. revert w HK.
  induction Hl as [|o l Ho _ IH]; intros w HK; simpl; [done|]. pose proof (env_step_calm w o Ho) as [Ht Hs].
  etransitivity; [by apply Hs|]. apply IH. lia.
Qed.

(** [m] gives a result and leaves no more to do. *)
Class Calm {A} (m : LM A) : Prop := calms : forall w, exists a w', m w = Some (a, w') /\ calm w w'.

#[local] Instance Calm_ret {A} (a : A) : Calm (mret a).
Proof. intros w. exists a, w. done. Qed.
#[local] Instance Calm_bind {A B} (m : LM A) (f : A -> LM B) : Calm m -> (forall a, Calm (f a)) -> Calm (m ≫= f).
Proof.
  intros Hm Hf w. destruct (Hm w) as (a & v & E & Hc). destruct (Hf a v) as (b & u & E' & Hc').
  exists b, u. cbv [mbind LM_bind]. rewrite E. split; [done|]. by etransitivity.
Qed.
#[local] Instance Calm_if {A} (b : bool) (m1 m2 : LM A) : Calm m1 -> Calm m2 -> Calm (if b then m1 else m2).
Proof. by destruct b. Qed.
#[local] Instance Calm_pair {A B C} (z : A * B) (f : A -> B -> LM C) :
  (forall x y, Calm (f x y)) -> Calm (let '(x, y) := z in f x y).
Proof. by destruct z. Qed.
#[local] Instance Calm_option {A B} (o : option A) (f : A -> LM B) m :
  (forall a, Calm (f a)) -> Calm m -> Calm (match o with Some a => f a | None => m end).
Proof. by destruct o. Qed.
Lemma Calm_locked {A} (f : World -> A * World) : (forall w, calm w (f w).2) -> Calm (locked f).
Proof.
  intros H w. exists (f (env_point w)).1, (f (env_point w)).2. unfold locked.
  destruct (f (env_point w)) as [a v] eqn:E. split; [done|]. etransitivity; [apply env_point_calm|].
  specialize (H (env_point w)). by rewrite E in H.
Qed.
#[local] Instance Calm_get {A} (f : World -> A) : Calm (get f). Proof. by apply Calm_locked. Qed.
#[local] Instance Calm_now : Calm now. Proof. unfold now. apply _. Qed.
#[local] Instance Calm_op f : Calm (op_call_now f). Proof. apply Calm_locked. intros w. inbox. Qed.
#[local] Instance Calm_sleep d : Calm (sleep d). Proof. apply Calm_locked. intros w. inbox. Qed.
Lemma Calm_update f : (forall w, calm w (f w)) -> Calm (update f).
Proof. intros H. by apply Calm_locked. Qed.
#[local] Instance Calm_emit e : Calm (update (emit e)). Proof. apply Calm_update. intros w. inbox. Qed.
#[local] Instance Calm_on_g f : Calm (update (on_g f)). Proof. apply Calm_update. intros w. inbox. Qed.
#[local] Instance Calm_take : Calm take_operation. Proof. apply Calm_locked. intros w. inbox. Qed.
#[local] Instance Calm_finish e : Calm (finishOperationError e). Proof. unfold finishOperationError. apply _. Qed.
#[local] Instance Calm_progress d : Calm (updateOperationProgress d). Proof. unfold updateOperationProgress. apply _. Qed.
#[local] Instance Calm_delayed d r t : Calm (updateOperationProgressDelayedWithReminder d r t).
Proof. unfold updateOperationProgressDelayedWithReminder. apply _. Qed.

Lemma mark_stopped_calm c e w : calm w (mark_stopped c e w).
Proof.
  unfold mark_stopped. set (w1 := if m_softModUpdateRecovery _ then _ else w).
  assert (H1 : w_m w1 = w_m w /\ w_clock w1 = w_clock w /\ w_tick w1 = w_tick w) by (unfold w1; by case_match). clearbody w1.
  destruct H1 as (Hm & Hc & Ht). split; [simpl; by rewrite Ht|intros _]. unfold settled, pending_all, pending_stop, bounded. simpl. rewrite Hc, Hm.
  assert (Hr : forall t m, let m' := reset_stopped t c e m in
    m_exitCh m' = m_exitCh m /\ m_goodbyeCh m' = m_goodbyeCh m /\ m_readyCh m' = m_readyCh m /\
    m_progressCh m' = m_progressCh m /\ m_healthCh m' = m_healthCh m /\
    m_lastProgressAt m' = zeroTime /\ m_lastProgressKind m' = "").
  { intros t m. unfold reset_stopped, set_lastError. cbv zeta. repeat case_match; by split_and!. }
  destruct (Hr (w_clock w) (w_m w)) as (-> & -> & -> & -> & -> & -> & ->). split_and!; [done|lia..|].
  intros D [_ H]. split; [|done]. intros d Hd. exact Hd.
Qed.

#[local] Instance Calm_finalize h e r : Calm (finalizeStopped h e r).
Proof.
  unfold finalizeStopped. apply Calm_bind; [|apply _]. apply Calm_locked. intros w. unfold finalize_locked.
  case_match; [reflexivity|]. case_match; [reflexivity|]. cbn [snd].
  set (w1 := mark_stopped _ e w). assert (H1 : calm w w1) by apply mark_stopped_calm.
  etransitivity; [exact H1|]. clear H1. clearbody w1. set (w2 := if r && _ && _ then _ else w1).
  assert (H2 : calm w1 w2) by (unfold w2; case_match; [inbox|reflexivity]).
  etransitivity; [exact H2|]. clearbody w2. case_match; [|reflexivity].
  unfold count_crash, SetAutolaunch. repeat case_match; inbox.
Qed.

#[local] Instance Calm_exit e : Calm (handleExitEvent e). Proof. unfold handleExitEvent. apply _. Qed.
#[local] Instance Calm_goodbye g : Calm (handleGoodbyeEvent g).
Proof. unfold handleGoodbyeEvent. apply Calm_update. reflexivity. Qed.
#[local] Instance Calm_complete t a b : Calm (complete_operation t a b). Proof. unfold complete_operation. apply _. Qed.
#[local] Instance Calm_ready g : Calm (handleReadyEvent g).
Proof.
  unfold handleReadyEvent. apply Calm_bind.
  { apply Calm_locked. intros w. unfold ready_locked. case_match; [reflexivity|inbox]. }
  intros [[[t k] s]|]; [|apply _]. do 6 (apply Calm_bind; [apply _|]; intros ?). destruct k; apply _.
Qed.
#[local] Instance Calm_health e : Calm (handleHealthEvent e).
Proof.
  unfold handleHealthEvent. apply Calm_if; [apply _|]. apply Calm_bind.
  - apply Calm_locked. intros w. unfold health_locked. case_match; [reflexivity|].
    cbv zeta. set (w1 := if bool_decide (he_err e <> "") then _ else w).
    assert (H1 : calm w w1) by (unfold w1; case_match; [inbox|reflexivity]). clearbody w1.
    repeat case_match; cbn [snd]; try done; (etransitivity; [exact H1|inbox]).
  - intros []; [apply _..|]. apply Calm_bind; [apply _|]. intros ?. apply Calm_if; [|apply _].
    apply Calm_update. intros w. inbox.
Qed.

(** Recording a progress report whose extension is bounded. *)
Lemma progress_calm evt w : exists w', handleProgressEvent evt w = Some (tt, w') /\ (w_tick w <= w_tick w')%nat /\
  ((K <= w_tick w)%nat -> w_clock w <= w_clock w' /\ (pending_stop (w_m w') <= pending_stop (w_m w))%nat /\
  (pending_all (w_m w') <= pending_all (w_m w))%nat /\
  (forall D, within D (pe_kind evt) (pe_at evt) -> bounded D (w_m w) -> bounded D (w_m w'))).
Proof.
  unfold handleProgressEvent. cbv [mbind LM_bind]. unfold locked at 1.
  destruct (env_point_calm w) as (Ht & Hc). unfold progress_locked.
  destruct (negb _ || _).
  { eexists. split; [done|]. split; [done|]. intros HK. destruct (Hc HK) as (? & ? & ? & ?). split_and!; auto. }
  set (v := on_m _ (env_point w)).
  assert (Hv : w_tick v = w_tick (env_point w) /\ w_clock v = w_clock (env_point w) /\ pending_stop (w_m v) = pending_stop (w_m (env_point w)) /\
    pending_all (w_m v) = pending_all (w_m (env_point w)) /\
    forall D, within D (pe_kind evt) (pe_at evt) -> bounded D (w_m (env_point w)) -> bounded D (w_m v)).
  { split_and!; try done. intros D Hw [_ H2]. by split. }
  clearbody v. destruct Hv as (Ev0 & Ev1 & Ev2 & Ev3 & Hv).
  match goal with |- exists w', ?m v = _ /\ _ => assert (Hm : Calm m) by (repeat apply Calm_if; apply _) end.
  destruct (Hm v) as ([] & u & E & Hu0 & Hu). exists u. split; [exact E|]. split; [lia|]. intros HK.
  destruct (Hc HK) as (? & ? & ? & ?), Hu as (? & ? & ? & ?); [lia|]. split_and!; [lia..|eauto].
Qed.

(** Taking an event from a channel. *)
Definition takes (ready : lifecycleManager -> list (chan_event * lifecycleManager)) (pending : lifecycleManager -> nat) : Prop :=
  forall m, match ready m with
  | [] => pending m = 0%nat
  | l => forall e m', (e, m') ∈ l -> (S (pending m') <= pending m)%nat /\
      (pending_stop m' <= pending_stop m)%nat /\
      forall D, bounded D m -> bounded D m' /\
        forall evt, e = OnProgress evt -> within D (pe_kind evt) (pe_at evt)
  end.

Lemma stop_channels_takes : takes stop_channels pending_stop.
Proof.
  intros m. unfold stop_channels, receive_exit, receive_goodbye, receive_ready, receive_progress, pending_stop.
  destruct (m_exitCh m) as [|x lx] eqn:E1, (m_goodbyeCh m) as [|y ly] eqn:E2,
    (m_readyCh m) as [|z lz] eqn:E3, (m_progressCh m) as [|u lu] eqn:E4; simpl; try done;
  intros e m' Hin; repeat (apply elem_of_cons in Hin as [Hin|Hin]); try (by apply not_elem_of_nil in Hin);
  injection Hin as -> ->; unfold bounded; simpl; rewrite ?E1, ?E2, ?E3, ?E4; simpl;
  (split_and!; [lia..|]); intros D [Hb1 Hb2]; (split; [split; [done|]|]); try done;
  try (by apply Forall_cons in Hb2 as []); intros evt [= <-]; by apply Forall_cons in Hb2 as [].
Qed.

Lemma all_channels_takes : takes all_channels pending_all.
Proof.
  intros m. unfold all_channels, receive_exit, receive_goodbye, receive_ready, receive_progress, receive_health,
    pending_all, pending_stop.
  destruct (m_exitCh m) as [|x lx] eqn:E1, (m_goodbyeCh m) as [|y ly] eqn:E2,
    (m_readyCh m) as [|z lz] eqn:E3, (m_progressCh m) as [|u lu] eqn:E4, (m_healthCh m) as [|v lv] eqn:E5;
  simpl; try done;
  intros e m' Hin; repeat (apply elem_of_cons in Hin as [Hin|Hin]); try (by apply not_elem_of_nil in Hin);
  injection Hin as -> ->; unfold bounded; simpl; rewrite ?E1, ?E2, ?E3, ?E4, ?E5; simpl;
  (split_and!; [lia..|]); intros D [Hb1 Hb2]; (split; [split; [done|]|]); try done;
  try (by apply Forall_cons in Hb2 as []); intros evt [= <-]; by apply Forall_cons in Hb2 as [].
Qed.

(** A [select]: an event and one less to come, or nothing pending. *)
Lemma select_takes ready pending w : takes ready pending ->
  match select ready w with
  | (Some e, w') => (S (pending (w_m w')) <= pending (w_m w))%nat /\ w_clock w' = w_clock w /\ w_tick w' = w_tick w /\
      (pending_stop (w_m w') <= pending_stop (w_m w))%nat /\
      forall D, bounded D (w_m w) -> bounded D (w_m w') /\
        forall evt, e = OnProgress evt -> within D (pe_kind evt) (pe_at evt)
  | (None, w') => w' = w /\ pending (w_m w) = 0%nat
  end.
Proof.
  intros Ht. specialize (Ht (w_m w)). unfold select. destruct (ready (w_m w)) as [|x l] eqn:E; [done|].
  destruct (lookup_lt_is_Some_2 (x :: l) (select_choice (w_tick w) mod length (x :: l))) as [[e m] Hl].
  { apply Nat.mod_upper_bound. done. }
  rewrite Hl. apply list_elem_of_lookup_2, Ht in Hl as (H1 & H2 & H3). simpl. by split_and!.
Qed.

Definition polls (t D : time) : Z := Z.max 0 ((D - t) / lifecycleStopPollInterval + 1).

Lemma polls_mono t t' D : t <= t' -> polls t' D <= polls t D.
Proof.
  intros H. unfold polls. apply Z.max_le_compat_l. apply Z.add_le_mono_r. apply Z.div_le_mono; [done|].
  unfold time in *. lia.
Qed.

Lemma polls_step t t' D : t <= D -> t + lifecycleStopPollInterval <= t' -> polls t' D + 1 <= polls t D.
Proof.
  intros H1 H2. unfold polls. unfold time in *.
  assert ((D - t') / lifecycleStopPollInterval <= (D - t) / lifecycleStopPollInterval - 1).
  { replace ((D - t) / lifecycleStopPollInterval - 1) with ((D - t + (-1) * lifecycleStopPollInterval) / lifecycleStopPollInterval)
      by (rewrite Z.div_add by done; lia).
    apply Z.div_le_mono; [done|]. lia. }
  assert (0 <= (D - t) / lifecycleStopPollInterval) by (apply Z.div_pos; [lia|done]). lia.
Qed.

(** The rounds a wait still needs: one per pending event and per poll before [D]. *)
Definition rounds (D : time) (w : World) : Z := Z.of_nat (pending_stop (w_m w)) + polls (w_clock w) D.

Lemma calm_rounds D w w' : (K <= w_tick w)%nat -> calm w w' -> rounds D w' <= rounds D w.
Proof. intros HK [_ Hs]. destruct (Hs HK) as (H & H' & _). unfold rounds. pose proof (polls_mono _ _ D H). lia. Qed.

(** The rest of the wait gives a result from every world with at most [n] rounds to go. *)
Definition loop_ends (D : time) (n : Z) (loop : bool -> LM bool) : Prop :=
  forall seen w, (K <= w_tick w)%nat -> bounded D (w_m w) -> rounds D w <= n ->
    exists a w', loop seen w = Some (a, w') /\ (w_tick w <= w_tick w')%nat.

Lemma ends_after D n loop {A} (m : LM A) seen w : loop_ends D n loop -> Calm m ->
  (K <= w_tick w)%nat -> bounded D (w_m w) -> rounds D w <= n ->
  exists a w', (m ≫= fun _ => loop seen) w = Some (a, w') /\ (w_tick w <= w_tick w')%nat.
Proof.
  intros Hl Hm HK Hb Hr. destruct (Hm w) as (a & v & E & Hc). pose proof (calm_rounds D _ _ HK Hc). destruct Hc as [Ht Hc].
  destruct (Hl seen v) as (b & w' & Hv & ?); [lia|by apply Hc|lia|]. exists b, w'. cbv [mbind LM_bind]. rewrite E. split; [done|lia].
Qed.

(** One poll later at most [n] rounds remain. *)
Definition after_poll (D n : Z) (w : World) : Prop :=
  Z.of_nat (pending_stop (w_m w)) + polls (w_clock w + lifecycleStopPollInterval) D <= n.

Lemma sleep_ends D n loop seen w : loop_ends D n loop -> (K <= w_tick w)%nat -> bounded D (w_m w) -> after_poll D n w ->
  exists a w', (sleep lifecycleStopPollInterval;; loop seen) w = Some (a, w') /\ (w_tick w <= w_tick w')%nat.
Proof.
  intros Hl HK Hb Hr. cbv [mbind LM_bind]. unfold sleep, update, locked at 1.
  destruct (env_point_calm w) as [Ht Hc]. destruct (Hc HK) as (Hc1 & Hs & _ & Hb').
  match goal with |- context [loop seen ?v] => destruct (Hl seen v) as (a & w' & E & Hw) end.
  - exact (Nat.le_trans _ _ _ HK Ht).
  - by apply Hb'.
  - change (Z.of_nat (pending_stop (w_m (env_point w))) + polls (w_clock (env_point w) + lifecycleStopPollInterval) D <= n).
    pose proof (polls_mono _ _ D (proj1 (Z.add_le_mono_r _ _ lifecycleStopPollInterval) Hc1)). unfold after_poll in Hr. lia.
  - exists a, w'. split; [exact E|]. exact (Nat.le_trans _ _ _ Ht Hw).
Qed.

(** After a [select]: either an event less to come, or a poll less to wait. *)
Lemma wait_event_ends D n g loop seen w : loop_ends D n loop -> (K <= w_tick w)%nat -> bounded D (w_m w) ->
  rounds D w <= n + 1 -> after_poll D n w ->
  exists a w', match select stop_channels w with (e, v) => wait_event g loop seen e v end = Some (a, w') /\ (w_tick w <= w_tick w')%nat.
Proof.
  intros Hl HK Hb Hr Ht. pose proof (select_takes stop_channels pending_stop w stop_channels_takes) as Hsel.
  destruct (select stop_channels w) as [[e|] v].
  2: { destruct Hsel as [-> _]. by apply (sleep_ends D n). }
  destruct Hsel as (Hp & Hc & Htv & _ & Hbd). destruct (Hbd D Hb) as [Hbv Hw]. rewrite <- Htv in *.
  assert (Hrv : rounds D v <= n) by (unfold rounds in *; rewrite Hc; lia).
  destruct e as [gen|gen|evt|evt|evt]; cbn [wait_event].
  - apply (ends_after D n); [done| |done..]. destruct (gen =? g); apply _.
  - by apply Hl.
  - destruct (Calm_exit evt v) as (a & u & E & Hu). cbv [mbind LM_bind]. rewrite E.
    pose proof (calm_rounds D _ _ HK Hu). destruct Hu as [Hu1 Hu2]. destruct (ee_generation evt =? g); [by do 2 eexists|].
    destruct (Hl seen u) as (b & w' & -> & ?); [lia|by apply Hu2|lia|]. do 2 eexists. split; [done|lia].
  - destruct (progress_calm evt v) as (u & E & Htu & Hu). destruct (Hu HK) as (Hcu & Hsu & _ & Hbu). cbv [mbind LM_bind]. rewrite E.
    destruct (Hl seen u) as (b & w' & -> & ?); [lia|apply Hbu; [by apply Hw|done]| |do 2 eexists; split; [done|lia]].
    unfold rounds in *. pose proof (polls_mono _ _ D Hcu). lia.
  - by apply Hl.
Qed.

Lemma Calm_gone (b : bool) : Calm (if b then alive ← get lifecycleProcessAlive; mret (negb alive) else mret false).
Proof. apply Calm_if; apply _. Qed.
Lemma finalize_ends g w : exists a w', (finalizeStopped g None true;; mret true) w = Some (a, w') /\ (w_tick w <= w_tick w')%nat.
Proof.
  destruct (Calm_bind (finalizeStopped g None true) (fun _ => mret true) _ _ w) as (b & u & E & ? & _). eauto.
Qed.

Lemma wait_body_ends D n g allow loop deadline seen w : (forall d, d <= D -> loop_ends D n (loop d)) ->
  deadline <= D -> (K <= w_tick w)%nat -> bounded D (w_m w) -> rounds D w <= n + 1 ->
  exists a w', wait_body g allow loop deadline seen w = Some (a, w') /\ (w_tick w <= w_tick w')%nat.
Proof.
  intros Hl Hd HK Hb Hr. unfold wait_body. cbv [mbind LM_bind]. unfold get at 1, locked at 1.
  pose proof (env_point_calm w) as Hc1. set (w1 := env_point w) in *. clearbody w1. cbv beta iota.
  assert (Hb1 : bounded D (w_m w1)) by (by apply Hc1).
  set (deadline' := extend_deadline _ _ deadline).
  assert (Hd' : deadline' <= D) by (apply (proj1 Hb1); done). clearbody deadline'.
  destruct (Calm_gone (allow && seen) w1) as (gone & w2 & E2 & Hc2). cbv [mbind LM_bind] in E2. rewrite E2.
  assert (Hfin : forall v, calm w v -> exists a w', (finalizeStopped g None true;; mret true) v = Some (a, w') /\ (w_tick w <= w_tick w')%nat).
  { intros v [Hv _]. destruct (finalize_ends g v) as (a & w' & E & ?). exists a, w'. split; [exact E|lia]. }
  destruct gone; [apply Hfin; by etransitivity|].
  destruct (Calm_get lifecycleProcessAlive w2) as (alive & w3 & -> & Hc3).
  destruct alive; cbn [negb]; [|apply Hfin; etransitivity; [exact Hc1|by etransitivity]].
  unfold now, get, locked at 1. pose proof (env_point_calm w3) as Hc4.
  set (w4 := env_point w3) in *. clearbody w4. cbv beta iota.
  assert (Hc : calm w w4) by (etransitivity; [exact Hc1|]; etransitivity; [exact Hc2|]; by etransitivity).
  clear w1 Hc1 Hb1 w2 E2 Hc2 w3 Hc3 Hc4 Hfin. destruct (After (w_clock w4) deadline') eqn:Ea; [do 2 eexists; split; [done|apply Hc]|].
  unfold After in Ea. bool_hyps. pose proof (calm_rounds D _ _ HK Hc) as Hr4.
  assert (Hb4 : bounded D (w_m w4)) by (by apply Hc). destruct Hc as [Ht4 _]. assert (HK4 : (K <= w_tick w4)%nat) by lia.
  unfold locked at 1. pose proof (env_point_calm w4) as Hc5. pose proof (calm_rounds D _ _ HK4 Hc5). destruct Hc5 as [Ht5 Hc5]. specialize (Hc5 HK4).
  destruct (wait_event_ends D n g (loop deadline') seen (env_point w4)) as (a & w' & Hfin & ?).
  - by apply Hl.
  - lia.
  - by apply Hc5.
  - lia.
  - assert (w_clock w4 <= D) as Ht by (etransitivity; [exact Ea|exact Hd']).
    pose proof (polls_step (w_clock w4) (w_clock (env_point w4) + lifecycleStopPollInterval) D Ht
      (proj1 (Z.add_le_mono_r _ _ lifecycleStopPollInterval) (proj1 Hc5))).
    unfold after_poll. destruct Hc5 as (_ & Hp & _). unfold rounds in *. lia.
  - exists a, w'. destruct (select stop_channels (env_point w4)). split; [exact Hfin|lia].
Qed.

Lemma wait_loop_ends D fuel g allow : forall deadline, deadline <= D ->
  loop_ends D (Z.of_nat fuel - 1) (wait_loop fuel g allow deadline).
Proof.
  induction fuel as [|fuel IH]; intros deadline Hd seen w HK Hb Hr.
  { unfold rounds, polls in Hr. lia. }
  apply (wait_body_ends D (Z.of_nat fuel - 1)); [exact IH|done|done|done|lia].
Qed.

(** *** More fuel changes nothing *)
Definition extends {A} (m m' : LM A) : Prop := forall w r, m w = Some r -> m' w = Some r.

#[local] Instance extends_refl {A} : Reflexive (extends (A := A)). Proof. by intros m w r. Qed.
#[local] Instance extends_trans {A} : Transitive (extends (A := A)).
Proof. intros m1 m2 m3 H1 H2 w r H. by apply H2, H1. Qed.

Lemma extends_bind {A B} (m m' : LM A) (f f' : A -> LM B) :
  extends m m' -> (forall a, extends (f a) (f' a)) -> extends (m ≫= f) (m' ≫= f').
Proof.
  intros Hm Hf w r. cbv [mbind LM_bind]. destruct (m w) as [[a v]|] eqn:E; [|done].
  rewrite (Hm _ _ E). apply Hf.
Qed.

Lemma wait_loop_more fuel : forall g allow deadline seen,
  extends (wait_loop fuel g allow deadline seen) (wait_loop (S fuel) g allow deadline seen).
Proof.
  induction fuel as [|fuel IH]; intros g allow deadline seen; [by intros w r|].
  change (extends (wait_body g allow (wait_loop fuel g allow) deadline seen)
    (wait_body g allow (wait_loop (S fuel) g allow) deadline seen)).
  generalize (wait_loop fuel g allow), (wait_loop (S fuel) g allow), (IH g allow). clear IH. intros l1 l2 IH.
  unfold wait_body. apply extends_bind; [done|]. intros [at_ kind]. cbv zeta.
  apply extends_bind; [done|]. intros []; [done|]. apply extends_bind; [done|]. intros []; [|done].
  apply extends_bind; [done|]. intros t. cbn [negb]. case_match; [done|]. apply extends_bind; [done|].
  intros [[]|]; cbn [wait_event]; try apply IH; (apply extends_bind; [done|]); intros ?; try case_match;
    first [apply IH|done].
Qed.

(** From the tick [t] on, [m] ends with the same outcome for every sufficient fuel. *)
Class Ends (t : nat) {A} (m : nat -> LM A) : Prop :=
  ends : forall w, (t <= w_tick w)%nat ->
    exists n a w', (forall fuel, (n <= fuel)%nat -> m fuel w = Some (a, w')) /\ (w_tick w <= w_tick w')%nat.

#[local] Instance Ends_calm t {A} (m : LM A) : Calm m -> Ends t (fun _ => m).
Proof. intros H w _. destruct (H w) as (a & w' & E & ? & _). by exists 0%nat, a, w'. Qed.
#[local] Instance Ends_bind t {A B} (m : nat -> LM A) (f : nat -> A -> LM B) :
  Ends t m -> (forall a, Ends t (fun n => f n a)) -> Ends t (fun n => m n ≫= f n).
Proof.
  intros Hm Hf w Ht. destruct (Hm w Ht) as (n & a & v & E & Hv). destruct (Hf a v) as (n' & b & u & E' & Hu); [lia|].
  exists (n `max` n')%nat, b, u. split; [|lia]. intros fuel Hle. cbv [mbind LM_bind]. rewrite E by lia. apply E'. lia.
Qed.
#[local] Instance Ends_if t {A} (b : bool) (m1 m2 : nat -> LM A) :
  Ends t m1 -> Ends t m2 -> Ends t (fun n => if b then m1 n else m2 n).
Proof. by destruct b. Qed.

(** A step of the manager that does not touch the schedule. *)
Class Untimed {A} (f : World -> A * World) : Prop := untimed : forall w, w_tick (f w).2 = w_tick w.
#[local] Instance Ends_locked t {A} (f : World -> A * World) : Untimed f -> Ends t (fun _ => locked f).
Proof.
  intros Hf w _. unfold locked. exists 0%nat, (f (env_point w)).1, (f (env_point w)).2. split.
  - intros. by destruct (f (env_point w)).
  - rewrite Hf, env_point_tick. lia.
Qed.
#[local] Instance Ends_progress t evt : Ends t (fun _ => handleProgressEvent evt).
Proof. intros w _. destruct (progress_calm evt w) as (w' & E & ? & _). by exists 0%nat, tt, w'. Qed.
(** What follows a step starts at a later tick. *)
Lemma Ends_later t {A B} (f : World -> A * World) (g : nat -> A -> LM B) :
  Untimed f -> (forall a, Ends (S t) (fun n => g n a)) -> Ends t (fun n => locked f ≫= g n).
Proof.
  intros Hf Hg w Ht. specialize (Hf (env_point w)). rewrite env_point_tick in Hf. cbv [mbind LM_bind]. unfold locked at 1.
  destruct (f (env_point w)) as [a v]. cbn [snd] in Hf. destruct (Hg a v) as (n & b & u & E & Hu); [lia|].
  exists n, b, u. split; [done|lia].
Qed.
Lemma Ends_weaken t t' {A} (m : nat -> LM A) : (t <= t')%nat -> Ends t m -> Ends t' m.
Proof. intros Hle Hm w Hw. apply Hm. lia. Qed.
#[local] Hint Extern 0 (Untimed _) => intros ?; done : typeclass_instances.

#[local] Instance untimed_select f : Untimed (select f).
Proof. intros w. unfold select. by destruct (_ !! _) as [[]|]. Qed.

(** One round, when the next rounds end. *)
Lemma Ends_round t g allow (loop : nat -> time -> bool -> LM bool) deadline seen :
  (forall d s, Ends (S t) (fun n => loop n d s)) -> Ends t (fun n => wait_body g allow (loop n) deadline seen).
Proof.
  intros Hl. unfold wait_body, get at 1. apply Ends_later; [apply _|]. intros [at_ kind]. cbv zeta.
  apply (Ends_bind (S t) (fun _ => _) _ (Ends_calm _ _ (Calm_gone _))). intros []; [apply _|].
  apply Ends_bind; [apply _|]. intros []; cbn [negb]; [|apply _]. apply Ends_bind; [apply _|]. intros now.
  destruct (After _ _); [apply _|]. apply Ends_bind; [apply _|]. intros [[]|]; cbn [wait_event]; apply _.
Qed.

(** The wait ends: late, for the deadline no longer moves; early, because every round takes a tick. *)
Lemma Ends_wait_late g allow deadline seen : Ends K (fun fuel => wait_loop fuel g allow deadline seen).
Proof.
  intros w HK. destruct (horizon_bounded deadline (w_m w)) as [Hb Hd].
  set (D := horizon deadline (w_m w)) in *. set (n := Z.to_nat (rounds D w + 1)).
  destruct (wait_loop_ends D n g allow deadline Hd seen w HK Hb) as (b & w' & E & Hw).
  { unfold n, rounds, polls. lia. }
  exists n, b, w'. split; [|done]. intros fuel Hle. induction Hle as [|fuel Hle IH]; [done|]. by apply wait_loop_more.
Qed.

Lemma Ends_wait j : forall t g allow deadline seen, (K <= t + j)%nat -> Ends t (fun fuel => wait_loop fuel g allow deadline seen).
Proof.
  induction j as [|j IH]; intros t g allow deadline seen Hj.
  { apply (Ends_weaken K); [lia|]. apply Ends_wait_late. }
  intros w Hw. destruct (Ends_round t g allow (fun fuel => wait_loop fuel g allow) deadline seen) with w as (n & a & w' & E & ?); [|done|].
  { intros d s. apply IH. lia. }
  exists (S n), a, w'. split; [|done]. intros [|fuel] Hf; [lia|]. apply E. lia.
Qed.

#[local] Instance Ends_waitForStop t g d allow : Ends t (fun fuel => waitForStop fuel g d allow).
Proof. unfold waitForStop. apply Ends_bind; [apply _|]. intros ?. apply (Ends_wait K). lia. Qed.

#[local] Instance untimed_stop_begin : Untimed stop_begin. Proof. intros w. unfold stop_begin. by case_match. Qed.
#[local] Instance untimed_start_begin : Untimed start_begin. Proof. intros w. unfold start_begin. by repeat case_match. Qed.
#[local] Instance Ends_update t f : (forall w, w_tick (f w) = w_tick w) -> Ends t (fun _ => update f).
Proof. intros Hf. unfold update. apply Ends_locked. exact Hf. Qed.
Lemma quit_tick w : w_tick (lifecycleSendQuit w) = w_tick w.
Proof. unfold lifecycleSendQuit, NotifyFactorioHealth. by repeat case_match. Qed.

#[local] Instance Ends_stop t reason : Ends t (fun fuel => executeStop fuel reason).
Proof.
  unfold executeStop. apply Ends_bind; [apply _|]. intros [[g booted]|]; [|apply _]. cbv zeta.
  apply Ends_bind; [apply _|]. intros ?. apply Ends_bind; [apply _|]. intros players.
  apply Ends_bind; [apply Ends_if; [apply Ends_bind; [by apply Ends_update|apply _]|apply _]|].
  intros ?. apply Ends_bind; [apply _|]. intros running.
  apply Ends_bind; [apply Ends_if; [apply Ends_update, quit_tick|apply _]|]. intros ?.
  apply Ends_bind; [apply _|]. intros b1. apply Ends_if; [apply _|].
  apply Ends_bind; [apply _|]. intros ?. apply Ends_bind; [apply _|]. intros b2. apply Ends_if; [apply _|].
  apply Ends_bind; [apply _|]. intros ?. apply Ends_bind; [apply _|]. intros b3. apply Ends_if; [apply _|].
  apply Ends_bind; [by apply Ends_update|apply _].
Qed.

(** C39: (termination) stopping the server comes to an end, whatever the other goroutines do
    and whether the process quits by itself, is reported, is killed, or never
    reacts: as long as the reports sent to the manager (ready, goodbye, exit, progress,
    health) are finitely many, there is an amount of fuel from which on [executeStop]
    returns, and always the same.  (A server that reports progress forever is waited for.) *)
Theorem executeStop_ends reason w :
  exists n err w', forall fuel, (n <= fuel)%nat -> executeStop fuel reason w = Some (err, w').
Proof. destruct (Ends_stop 0 reason w) as (n & err & w' & E & _); [lia|]. by exists n, err, w'. Qed.

(** *** A request *)
Lemma autolaunch_tick v r w : w_tick (SetAutolaunch v r w) = w_tick w.
Proof. unfold SetAutolaunch. by repeat case_match. Qed.
#[local] Instance Ends_autolaunch t v : Ends t (fun _ => autolaunch v).
Proof. apply Ends_update. intros w. apply autolaunch_tick. Qed.
#[local] Instance untimed_launch g s : Untimed (LaunchFactorio g s).
Proof. intros w. unfold LaunchFactorio. repeat case_match; try done. apply autolaunch_tick. Qed.
Lemma launch_finished_tick w : w_tick (launch_finished w) = w_tick w.
Proof. unfold launch_finished. by repeat case_match. Qed.
#[local] Instance Ends_option t {A B} (o : option A) (f : nat -> A -> LM B) m :
  (forall a, Ends t (fun n => f n a)) -> Ends t m -> Ends t (fun n => match o with Some a => f n a | None => m n end).
Proof. by destruct o. Qed.

#[local] Instance Ends_begin t req : Ends t (fun _ => beginOperation req).
Proof.
  unfold beginOperation. do 3 (apply Ends_bind; [apply _|]; intros ?). apply Ends_bind; [|intros ?].
  - apply Ends_locked. intros w. by destruct (BeginOperation _ _ _ _ _ _).
  - apply Ends_bind; [by apply Ends_update|apply _].
Qed.
#[local] Instance Ends_start t reason save : Ends t (fun _ => executeStart reason save).
Proof.
  unfold executeStart. apply Ends_bind; [apply _|]. intros [gen|]; [|apply _]. apply Ends_bind; [apply _|]. intros [e|].
  - apply Ends_bind; [by apply Ends_update|apply _].
  - apply Ends_bind; [apply Ends_update, launch_finished_tick|apply _].
Qed.
#[local] Instance Ends_change t snapshot : Ends t (fun _ => doChangeMapAfterStop snapshot).
Proof.
  unfold doChangeMapAfterStop. apply Ends_bind; [apply _|]. intros [e|]; [apply _|]. cbv zeta.
  apply Ends_bind; [apply Ends_locked; intros w; by case_match|]. intros [e|]; apply _.
Qed.
#[local] Instance Ends_prepare t reason (p : LM (result string string)) :
  Ends t (fun _ => p) -> Ends t (fun fuel => stop_prepare_start fuel reason p).
Proof.
  intros Hp. unfold stop_prepare_start. do 3 (apply Ends_bind; [apply _|]; intros ?).
  apply Ends_bind; [by case_match; [apply _|]|]. intros []; (apply Ends_bind; [apply _|]; intros ?; apply _).
Qed.

#[local] Instance Ends_action t req : Ends t (fun fuel => run_action fuel req).
Proof. unfold run_action. destruct (lr_kind req); cbv zeta; apply _. Qed.

Lemma reply_tick req err w : w_tick (reply req err w) = w_tick w.
Proof. unfold reply. by case_match. Qed.
Lemma remove_tick path w : w_tick (remove_snapshot path w) = w_tick w.
Proof. unfold remove_snapshot. by case_match. Qed.

#[local] Instance Ends_staged t req : Ends t (fun fuel => execute_staged fuel req).
Proof.
  unfold execute_staged. apply Ends_bind; [apply _|]. intros noop. apply Ends_bind; [apply Ends_if; apply _|]. intros ?.
  apply Ends_bind; [apply _|]. intros err. apply Ends_bind; [by apply Ends_update|]. intros ?.
  apply Ends_bind; [apply Ends_if; apply _|]. intros ?.
  apply Ends_bind; [apply Ends_update, reply_tick|]. intros ?. apply Ends_update, remove_tick.
Qed.



(** *** The channels *)

(** (termination) draining the event channels ends once the last report has come: as much
    fuel as there are pending events and one is enough, and the channels are left with
    nothing more than they had. *)
Theorem drainAsyncEvents_ends fuel w :
  (K <= w_tick w)%nat -> (pending_all (w_m w) < fuel)%nat ->
  exists w', drainAsyncEvents fuel w = Some (tt, w') /\ (pending_all (w_m w') <= pending_all (w_m w))%nat.
Proof.
  revert w. induction fuel as [|fuel IH]; intros w HK Hf; [lia|]. cbn [drainAsyncEvents].
  cbv [mbind LM_bind]. unfold locked at 1. destruct (env_point_calm w) as (Ht & Hc). destruct (Hc HK) as (_ & _ & Ha & _).
  pose proof (select_takes all_channels pending_all (env_point w) all_channels_takes) as Hsel.
  destruct (select all_channels (env_point w)) as [[e|] w1]; [|destruct Hsel as [-> _]; by eexists].
  destruct Hsel as (Hp & _ & Ht1 & _). assert (HK1 : (K <= w_tick w1)%nat) by lia.
  assert (Hh : exists u, match e with
    | OnReady gen => handleReadyEvent gen | OnGoodbye gen => handleGoodbyeEvent gen
    | OnExit evt => handleExitEvent evt | OnProgress evt => handleProgressEvent evt
    | OnHealth evt => handleHealthEvent evt end w1 = Some (tt, u) /\ (K <= w_tick u)%nat /\
    (pending_all (w_m u) <= pending_all (w_m w1))%nat).
  { destruct e as [gen|gen|evt|evt|evt].
    - destruct (Calm_ready gen w1) as ([] & u & E & Hu1 & Hu2). destruct (Hu2 HK1) as (_ & _ & ? & _). exists u. split; [done|lia].
    - destruct (Calm_goodbye gen w1) as ([] & u & E & Hu1 & Hu2). destruct (Hu2 HK1) as (_ & _ & ? & _). exists u. split; [done|lia].
    - destruct (Calm_exit evt w1) as ([] & u & E & Hu1 & Hu2). destruct (Hu2 HK1) as (_ & _ & ? & _). exists u. split; [done|lia].
    - destruct (progress_calm evt w1) as (u & E & Hu1 & Hu2). destruct (Hu2 HK1) as (_ & _ & ? & _). exists u. split; [done|lia].
    - destruct (Calm_health evt w1) as ([] & u & E & Hu1 & Hu2). destruct (Hu2 HK1) as (_ & _ & ? & _). exists u. split; [done|lia]. }
  destruct Hh as (u & E & HKu & Hu). destruct (IH u HKu) as (w' & E' & ?); [lia|].
  exists w'. destruct e; rewrite E; split; first [exact E'|lia].
Qed.
End termination.

(** ** At concrete inputs *)

(** The server of generation 1 quits at the 60th tick, and the waiter reports it. *)
Lemma dying_reports_end k : (61 <= k)%nat -> Forall silent (sched (LifecycleEnv := dying_env) k).
Proof. intros Hk. cbn. destruct (k =? 60)%nat eqn:E; [apply Nat.eqb_eq in E; lia|constructor]. Qed.

Lemma quiet_reports_end k : (0 <= k)%nat -> Forall silent (sched (LifecycleEnv := quiet_env) k).
Proof. constructor. Qed.

(** A running server; when nobody reports anything it ignores the request to stop. *)
Definition stubborn_world : World :=
  mkWorld (mkManager LifecycleRunning 0 true 42 1 "" "" 0 0 [] false [1] [1] [] [mkProgress 1 "save" "" 5] []
      false false false false "" NoAction "" zeroTime "")
    (mkGlobals true true 0 false false false false false false 0 false (Some 1) (Some (42, 1)) 0 zeroTime 0 "" false
      false true 0) initOpWorld 0 [1] [1] 0 [].

(** The server quits and its waiter reports it: the stop ends well. *)
Lemma executeStop_ends_witness :
  (exists n err w', forall fuel, (n <= fuel)%nat -> executeStop (Env := dying_env) fuel "bye" stubborn_world = Some (err, w')) /\
  fst <$> executeStop (Env := dying_env) 100 "bye" stubborn_world = Some None /\
  exists n err w', forall fuel, (n <= fuel)%nat -> executeStop (Env := quiet_env) fuel "bye" stubborn_world = Some (err, w').
Proof.
  split; [exact (executeStop_ends (Env := dying_env) 61 dying_reports_end "bye" stubborn_world)|]. split; [vm_compute; reflexivity|].
  exact (executeStop_ends (Env := quiet_env) 0 quiet_reports_end "bye" stubborn_world).
Defined.


Lemma drainAsyncEvents_ends_witness :
  exists w', drainAsyncEvents (Env := quiet_env) 4 stubborn_world = Some (tt, w') /\
    (pending_all (w_m w') <= 3)%nat.
Proof. apply (drainAsyncEvents_ends (Env := quiet_env) 0 quiet_reports_end 4 stubborn_world); vm_compute; lia. Defined.
