(* ===== verification/WebProtocol.v ===== *)
(** * The private control protocol: [src/webcontrol/protocol.go]

    Identifiers, tokens and digests shared by the job store, the web server and
    the control runtime.  SHA-256 is a parameter: nothing below depends on how
    it mixes its input. *)
From Stdlib Require Import Ascii.
From S2P Require Import Prelude.
From S2P Require Import GoInt.
From S2P Require Import GoString.
From S2P Require Import GoBase64.

Record Actor := mkActor { a_ID : string; a_Name : string; a_Admin : bool }.
#[export] Instance Actor_eq_dec : EqDecision Actor.
Proof. solve_decision. Defined.
Definition noActor : Actor := mkActor "" "" false.

Class Hashing := sha256 : bytes -> bytes.

Definition hex_digit (d : Z) : ascii := byte_of (if d <? 10 then 48 + d else 87 + d).
Definition hex_EncodeToString (b : bytes) : string :=
  of_bytes (b ≫= fun c => [hex_digit (byte_val c / 16); hex_digit (byte_val c mod 16)]).

Definition Digest `{Hashing} (s : string) : string := hex_EncodeToString (sha256 (to_bytes s)).
Definition Equal `{Hashing} (a b : string) : bool := bool_decide (Digest a = Digest b).

(** [Token] of the 32 bytes that [rand.Read] produced. *)
Definition Token (b : bytes) : string := of_bytes (RawURLEncoding_Encode b).

Definition id_char (c : ascii) : bool :=
  is_lower c || is_upper c || is_digit c || Ascii.eqb c "-"%char || Ascii.eqb c "_"%char.
Definition ValidID (s : string) : bool :=
  negb ((slen s =? 0) || (80 <? slen s)) && all_bytes id_char s.

(** [Authenticate]: the check before the handler runs. *)
Definition authenticated `{Hashing} (secret authorization : string) : bool :=
  Equal authorization ("Bearer " +:+ secret).

(** ** Tokens are valid identifiers *)
Lemma enc_digit_id d : 0 <= d < 64 -> id_char (enc_digit URLAlphabet d) = true.
Proof.
  intros H. assert (Hd : Forall (fun d => id_char (enc_digit URLAlphabet d) = true) (seqZ 0 64))
    by vm_decide. rewrite Forall_forall in Hd. apply Hd, elem_of_seqZ. lia.
Qed.

Lemma id_digits l :
  Forall (fun d => 0 <= d < 64) l ->
  Forall (fun c => id_char c = true) (map (enc_digit URLAlphabet) l).
Proof. induction 1; simpl; constructor; [by apply enc_digit_id|done]. Qed.

Lemma encode_id_chars b : Forall (fun c => id_char c = true) (RawURLEncoding_Encode b).
Proof.
  unfold RawURLEncoding_Encode. induction b using bytes_ind3; simpl; [constructor|..];
    repeat match goal with c : ascii |- _ =>
      lazymatch goal with H : 0 <= byte_val c < 256 |- _ => fail | _ => pose proof (byte_val_range c) end end;
    repeat (constructor; [apply enc_digit_id; div_lia|]); done || constructor.
Qed.

Lemma encode_length b : Z.of_nat (length (RawURLEncoding_Encode b)) = (Z.of_nat (length b) * 4 + 2) / 3.
Proof.
  unfold RawURLEncoding_Encode. induction b using bytes_ind3; try reflexivity.
  cbn [b64_encode app length]. rewrite !Nat2Z.inj_succ, IHb. div_lia.
Qed.

Lemma Token_length b : length b = 32%nat -> slen (Token b) = 43.
Proof. intros H. unfold Token. rewrite <-length_to_bytes. unfold to_bytes, of_bytes.
  rewrite String.list_ascii_of_string_of_list_ascii, encode_length, H. reflexivity. Qed.

Lemma all_bytes_app p s t : all_bytes p (s +:+ t) = all_bytes p s && all_bytes p t.
Proof. induction s as [|c s IH]; simpl; [done|]. rewrite IH. by destruct (p c). Qed.

Lemma ValidID_token p b :
  all_bytes id_char p = true -> slen p <= 37 -> length b = 32%nat -> ValidID (p +:+ Token b) = true.
Proof.
  intros Hp Hl Hb. unfold ValidID. rewrite all_bytes_app, Hp.
  assert (E : slen (p +:+ Token b) = slen p + 43).
  { rewrite <-(Token_length b) by done. unfold slen. rewrite string_length_app. lia. }
  assert (0 <= slen p) by (unfold slen; lia).
  rewrite E. replace (all_bytes id_char (Token b)) with true; [|symmetry].
  - simpl. rewrite !andb_true_r. apply negb_true_iff, orb_false_iff. split; lia.
  - apply all_bytes_forall. unfold Token, to_bytes, of_bytes.
    rewrite String.list_ascii_of_string_of_list_ascii. apply encode_id_chars.
Qed.
