(* ===== verification/Jobs.v ===== *)
(** * Idempotent control jobs: [src/webcontrol/jobs.go]

    The job store of the web control: the jobs and the idempotency keys in
    memory, one JSON file per job on disk, at most one operation at a time.

    The file system has the files as the process sees them ([visible]) and the
    files that survive a power loss ([durable]); syncing the directory makes all
    renames so far durable.  [save] has three outcomes: everything worked; it
    failed before the rename; it failed after it.  The goroutine that [Start]
    starts is a [worker] with its program counter; its steps interleave freely
    with the other calls, because each locks the mutex on its own.  A world also
    remembers which jobs had their operation run and what it returned. *)
From Stdlib Require Import Ascii.
From S2P Require Import Prelude.
From S2P Require Import GoInt.
From S2P Require Import GoString.
From S2P Require Import GoTime.
From S2P Require Import WebProtocol.

(** ** Data

    [json] are the values a job's [Result] can hold, [json_reload] what such a
    value is after being written to a file and read back. *)
Class ResultValues := {
  json : Type;
  json_strings : list (string * string) -> json;
  json_reload : json -> json
}.

Section jobs.
Context `{Hashing, ResultValues}.

Record Job := mkJob {
  j_ID : string;
  j_ServerID : string;
  j_Actor : Actor;
  j_Action : string;
  j_State : string;
  j_Phase : string;
  j_CreatedAt : time;
  j_UpdatedAt : time;
  j_Result : option json;
  j_Error : string;
  j_Key : string;
  j_Hash : string
}.
#[export] Instance Job_settable : Settable Job := mkSettable (fun r =>
  mkJob (j_ID r) (j_ServerID r) (j_Actor r) (j_Action r) (j_State r) (j_Phase r) (j_CreatedAt r)
    (j_UpdatedAt r) (j_Result r) (j_Error r) (j_Key r) (j_Hash r)).

(** The zero value, what a Go map gives for a missing key. *)
Definition noJob : Job := mkJob "" "" noActor "" "" "" zeroTime zeroTime None "" "" "".

(** The exported fields of [Job] and the two that its JSON leaves out. *)
Record jobDisk := mkDisk { d_Job : Job; d_Key : string; d_Hash : string }.
Definition to_disk (v : Job) : jobDisk :=
  mkDisk (v <| j_Key := "" |> <| j_Hash := "" |>) (j_Key v) (j_Hash v).
Definition of_disk (d : jobDisk) : Job :=
  d_Job d <| j_Result ::= fmap json_reload |> <| j_Key := d_Key d |> <| j_Hash := d_Hash d |>.

Record Store := mkStore { visible : gmap string jobDisk; durable : gmap string jobDisk }.
#[export] Instance Store_settable : Settable Store := mkSettable (fun r => mkStore (visible r) (durable r)).

Record Jobs := mkJobs {
  items : gmap string Job;
  keys : gmap string string;
  busy : string;
  pending : gset string;
  dir : Store
}.
#[export] Instance Jobs_settable : Settable Jobs := mkSettable (fun r =>
  mkJobs (items r) (keys r) (busy r) (pending r) (dir r)).

Definition file_name (id : string) : string := id +:+ ".json".
Definition item (id : string) (j : Jobs) : Job := default noJob (items j !! id).

(** ** Writing one job *)
Inductive save_outcome := Saved | NotSaved | Unsynced.

(** [true] is a nil error. *)
Definition save (o : save_outcome) (v : Job) (j : Jobs) : bool * Jobs :=
  let written := j <| dir ::= fun s => s <| visible ::= <[file_name (j_ID v) := to_disk v]> |> |> in
  match o with
  | NotSaved => (false, j)
  | Unsynced => (false, written)
  | Saved => (true, written <| dir ::= fun s => s <| durable := visible s |> |>)
  end.

(** ** [NewJobs] *)
Definition interrupted (v : Job) : bool :=
  bool_decide (j_State v = "queued") || bool_decide (j_State v = "running")
  || bool_decide (j_State v = "waiting_for_empty").
Definition restarted (v : Job) : bool :=
  bool_decide (j_State v = "waiting_for_restart") && bool_decide (j_Action v = "chatwire-restart").

Definition not_replayed (now : time) (v : Job) : Job :=
  v <| j_State := "unknown" |> <| j_Error := "Instance restarted; operation was not replayed." |>
    <| j_UpdatedAt := now |>.
Definition reconnected (now : time) (v : Job) : Job :=
  v <| j_State := "succeeded" |> <| j_Phase := "reconnected" |> <| j_UpdatedAt := now |>
    <| j_Result := Some (json_strings [("status", "new ChatWire process started")]) |>.

(** The two adjustments of [NewJobs], each followed by a save. *)
Definition adjust (needed : bool) (o : save_outcome) (v' v : Job) (j : Jobs) : bool * Job * Jobs :=
  if needed then let '(ok, j) := save o v' j in (ok, v', j) else (true, v, j).

Definition load_file (now : time) (o : save_outcome) (d : jobDisk) (j : Jobs) : bool * Jobs :=
  let v := of_disk d in
  if negb (ValidID (j_ID v)) then (false, j)
  else
    let '(ok, v, j) := adjust (interrupted v) o (not_replayed now v) v j in
    if negb ok then (false, j)
    else
      let '(ok, v, j) := adjust (restarted v) o (reconnected now v) v j in
      if negb ok then (false, j)
      else (true, j <| items ::= <[j_ID v := v]> |> <| keys ::= <[j_Key v := j_ID v]> |>).

Fixpoint load_files (now : time) (o : string -> save_outcome) (files : list (string * jobDisk)) (j : Jobs)
    : bool * Jobs :=
  match files with
  | [] => (true, j)
  | (name, d) :: files =>
      let '(ok, j) := load_file now (o name) d j in
      if ok then load_files now o files j else (false, j)
  end.

(** The directory in the order of [os.ReadDir]. *)
Definition ReadDir (s : Store) : list (string * jobDisk) :=
  omap (fun name => (fun d => (name, d)) <$> visible s !! name) (sort_strings (elements (dom (visible s)))).

Definition NewJobs (now : time) (o : string -> save_outcome) (s : Store) : bool * Jobs :=
  load_files now o (ReadDir s) (mkJobs ∅ ∅ "" ∅ s).

(** ** The operations *)
Definition NUL : string := String "000"%char EmptyString.
Definition request_key (a : Actor) (server key : string) : string :=
  Digest (a_ID a +:+ NUL +:+ server +:+ NUL +:+ key).
Definition request_hash (action payload : string) : string := Digest (action +:+ NUL +:+ payload).

(** The repair of the outcomes that could not be written, in the order in which
    the range over the map visits them. *)
Fixpoint repair (o : string -> save_outcome) (ids : list string) (j : Jobs) : bool * Jobs :=
  match ids with
  | [] => (true, j)
  | id :: ids =>
      let '(ok, j) := save (o id) (item id j) j in
      if ok then repair o ids (j <| pending ::= fun p => p ∖ {[id]} |>) else (false, j)
  end.

Definition accepted_job (now : time) (token server : string) (a : Actor) (action key payload : string) : Job :=
  mkJob ("job_" +:+ token) server a action "queued" "accepted" now now None "" (request_key a server key)
    (request_hash action payload).

(** A refusal is the status and the message; 202 means that the goroutine of
    the job was started. *)
Definition Start (now : time) (token : string) (order : list string) (o : string -> save_outcome)
    (accept : save_outcome) (server : string) (a : Actor) (action key payload : string) (j : Jobs)
    : result (Z * string) (Job * Z) * Jobs :=
  let k := request_key a server key in
  let h := request_hash action payload in
  match keys j !! k with
  | Some id =>
      let v := item id j in
      if bool_decide (j_Hash v <> h)
      then (Err (409, "idempotency key already used for a different request"), j)
      else (Ok (v, 200), j)
  | None =>
      if bool_decide (busy j <> "") then (Err (409, "another control operation is active"), j)
      else
        let '(ok, j) := repair o order j in
        if negb ok then (Err (503, "operation storage unavailable"), j)
        else
          let v := accepted_job now token server a action key payload in
          let '(ok, j) := save accept v j in
          if negb ok then (Err (500, "cannot persist operation"), j)
          else (Ok (v, 202), j <| items ::= <[j_ID v := v]> |> <| keys ::= <[k := j_ID v]> |> <| busy := j_ID v |>)
  end.

Definition outcome (now : time) (state phase : string) (result : option json) (msg : string) (v : Job) : Job :=
  v <| j_State := state |> <| j_Phase := phase |> <| j_Result := result |> <| j_Error := msg |>
    <| j_UpdatedAt := now |>.

Definition finish (now : time) (o : save_outcome) (id state phase : string) (result : option json) (msg : string)
    (j : Jobs) : Jobs :=
  let v := outcome now state phase result msg (item id j) in
  let '(ok, j) := save o v j in
  if ok then j <| items ::= <[id := v]> |>
  else
    let v := if bool_decide (phase <> "storage_error") then v <| j_State := "unknown" |> else v in
    let v := v <| j_Phase := "storage_error" |> <| j_Result := None |>
               <| j_Error := "Unable to persist operation outcome; inspect instance logs before retrying." |> in
    let v := if bool_decide (phase = "storage_error") then v <| j_Error := msg |> else v in
    j <| pending ::= union {[id]} |> <| items ::= <[id := v]> |>.

Definition Update (now : time) (o : save_outcome) (id state phase : string) (result : option json) (msg : string)
    (j : Jobs) : bool * Jobs :=
  match items j !! id with
  | None => (false, j)
  | Some v =>
      let v := outcome now state phase result msg v in
      let '(ok, j) := save o v j in
      if ok then (true, j <| items ::= <[id := v]> |>) else (false, j)
  end.

Definition Get (id : string) (j : Jobs) : option Job := items j !! id.

(** [Lookup]: the job, or that the key was used for another request; [None] when
    the key is not known. *)
Definition Lookup (server : string) (a : Actor) (action key payload : string) (j : Jobs)
    : option (result string Job) :=
  match keys j !! request_key a server key with
  | None => None
  | Some id =>
      let v := item id j in
      Some (if bool_decide (j_Hash v <> request_hash action payload)
            then Err "idempotency key already used for a different request" else Ok v)
  end.

Definition release (id : string) (j : Jobs) : Jobs :=
  if bool_decide (busy j = id) then j <| busy := "" |> else j.

(** ** The goroutine of a job *)
Inductive run_outcome :=
  | RunOk (result : option json)
  | RunFailed (result : option json) (msg : string)
  | RunUnknown (result : option json) (msg : string)   (** an [UnknownOutcomeError] *)
  | RunPanic.

Inductive worker_pc :=
  | WBegin
  | WRunning
  | WFinish (state phase : string) (result : option json) (msg : string)
  | WRelease.

Definition never_executed : worker_pc :=
  WFinish "failed" "storage_error" None "Operation was not executed because its start could not be persisted.".

Definition after_run (r : run_outcome) : worker_pc :=
  match r with
  | RunOk result => WFinish "succeeded" "complete" result ""
  | RunFailed result msg => WFinish "failed" "complete" result msg
  | RunUnknown result msg => WFinish "unknown" "complete" result msg
  | RunPanic => WFinish "unknown" "interrupted" None "Operation interrupted; inspect instance logs before retrying."
  end.

(** What the operation itself records while it runs ([execute] in
    [src/controlruntime/actions.go]). *)
Inductive run_update := WaitingForEmpty | WaitingForReady | WaitingForRestart (result : json).

Definition run_state (action : string) (u : run_update) : option (string * string * option json) :=
  match u with
  | WaitingForEmpty => Some ("waiting_for_empty", "waiting", None)
  | WaitingForReady => Some ("running", "waiting_for_ready", None)
  | WaitingForRestart r =>
      if bool_decide (action = "chatwire-restart") then Some ("waiting_for_restart", "exiting", Some r) else None
  end.

(** ** Worlds *)
Record World := mkWorld {
  w_jobs : Jobs;
  w_up : bool;                              (** the process runs and [NewJobs] succeeded *)
  w_workers : list (string * worker_pc);
  w_ran : list (string * string);           (** the jobs whose operation was run, with their keys *)
  w_returned : list (string * run_outcome)
}.
#[export] Instance World_settable : Settable World := mkSettable (fun r =>
  mkWorld (w_jobs r) (w_up r) (w_workers r) (w_ran r) (w_returned r)).

Definition initialWorld : World := mkWorld (mkJobs ∅ ∅ "" ∅ (mkStore ∅ ∅)) false [] [] [].

Inductive job_op :=
  | OpBoot (now : time) (o : string -> save_outcome)
  | OpDie
  | OpPowerLoss (kept : gset string)
  | OpStart (now : time) (rand : bytes) (order : list string) (o : string -> save_outcome) (accept : save_outcome)
      (server : string) (a : Actor) (action key payload : string)
  | OpWorker (i : nat) (now : time) (o : save_outcome) (r : run_outcome)
  | OpRunUpdate (i : nat) (now : time) (o : save_outcome) (u : run_update).

(** What a power loss leaves: of every file, the durable version or, where the
    rename reached the disk nonetheless, the last one. *)
Definition power_loss (kept : gset string) (s : Store) : Store :=
  let left := filter (fun f => f.1 ∈ kept) (visible s) ∪ filter (fun f => f.1 ∉ kept) (durable s) in
  mkStore left left.

Definition job_key (id : string) (w : World) : string := j_Key (item id (w_jobs w)).

Definition worker_step (i : nat) (now : time) (o : save_outcome) (r : run_outcome) (w : World) : World :=
  match w_workers w !! i with
  | None => w
  | Some (id, WBegin) =>
      let '(ok, j) := Update now o id "running" "executing" None "" (w_jobs w) in
      if ok then w <| w_jobs := j |> <| w_workers ::= <[i := (id, WRunning)]> |> <| w_ran ::= cons (id, job_key id w) |>
      else w <| w_jobs := j |> <| w_workers ::= <[i := (id, never_executed)]> |>
  | Some (id, WRunning) =>
      w <| w_workers ::= <[i := (id, after_run r)]> |> <| w_returned ::= cons (id, r) |>
  | Some (id, WFinish state phase result msg) =>
      w <| w_jobs ::= finish now o id state phase result msg |> <| w_workers ::= <[i := (id, WRelease)]> |>
  | Some (id, WRelease) => w <| w_jobs ::= release id |> <| w_workers ::= delete i |>
  end.

Definition down (s : Store) (w : World) : World :=
  w <| w_jobs := mkJobs ∅ ∅ "" ∅ s |> <| w_up := false |> <| w_workers := [] |>.

Definition do_op (p : job_op) (w : World) : World :=
  match p with
  | OpBoot now o =>
      if w_up w then w
      else let '(ok, j) := NewJobs now o (dir (w_jobs w)) in
           if ok then w <| w_jobs := j |> <| w_up := true |> else down (dir j) w
  | OpDie => down (dir (w_jobs w)) w
  | OpPowerLoss kept => down (power_loss kept (dir (w_jobs w))) w
  | OpStart now rand order o accept server a action key payload =>
      if negb (w_up w) then w
      else
        let '(r, j) := Start now (Token rand) order o accept server a action key payload (w_jobs w) in
        let w := w <| w_jobs := j |> in
        match r with
        | Ok (v, 202) => w <| w_workers ::= fun l => l ++ [(j_ID v, WBegin)] |>
        | _ => w
        end
  | OpWorker i now o r => worker_step i now o r w
  | OpRunUpdate i now o u =>
      match w_workers w !! i with
      | Some (id, WRunning) =>
          match run_state (j_Action (item id (w_jobs w))) u with
          | Some (state, phase, result) => w <| w_jobs := (Update now o id state phase result "" (w_jobs w)).2 |>
          | None => w
          end
      | _ => w
      end
  end.

(** What the program relies on: 32 random bytes make an identifier that
    names no file, and the range over [pending] visits exactly its members. *)
Definition op_ok (p : job_op) (w : World) : Prop :=
  match p with
  | OpStart _ rand order _ _ _ _ _ _ _ =>
      length rand = 32%nat /\ visible (dir (w_jobs w)) !! file_name ("job_" +:+ Token rand) = None /\
      order ≡ₚ elements (pending (w_jobs w))
  | _ => True
  end.

Inductive step : World -> job_op -> World -> Prop :=
  | step_op p w : op_ok p w -> step w p (do_op p w).
Inductive reachable : World -> Prop :=
  | reach_init : reachable initialWorld
  | reach_step w p w' : reachable w -> step w p w' -> reachable w'.
End jobs.
