(* ===== verification/JobsSafety.v ===== *)
(** * What the job store guarantees, across interleavings, failures and restarts

    The invariant of the worlds of Jobs.v and the properties that follow from it:
    an idempotency key is executed at most once, ever; one operation at a time;
    acceptance is durable before execution; what a job reports is what happened. *)
From Stdlib Require Import Ascii.
From S2P Require Import Prelude.
From S2P Require Import GoInt.
From S2P Require Import GoString.
From S2P Require Import GoTime.
From S2P Require Import WebProtocol.
From S2P Require Import Jobs.

Section safety.
Context `{Hashing, ResultValues}.
Implicit Types (v : Job) (d : jobDisk) (s : Store) (j : Jobs) (w : World).

(** ** The invariant *)

(** What a job's state says about the run of its operation. *)
Definition honest (ran : list (string * string)) (ret : list (string * run_outcome)) (v : Job) : Prop :=
  (j_State v = "succeeded" ->
     (exists r, (j_ID v, RunOk r) ∈ ret) \/
     j_Phase v = "reconnected" /\ j_Action v = "chatwire-restart" /\ j_ID v ∈ ran.*1) /\
  (j_State v = "failed" -> (exists r m, (j_ID v, RunFailed r m) ∈ ret) \/ j_ID v ∉ ran.*1) /\
  (j_State v = "waiting_for_restart" -> j_Action v = "chatwire-restart" /\ j_ID v ∈ ran.*1).

(** The files on disk. *)
Record files_ok (ran : list (string * string)) (ret : list (string * run_outcome)) (s : Store) : Prop := {
  f_name n d : visible s !! n = Some d -> n = file_name (j_ID (d_Job d));
  f_honest n d : visible s !! n = Some d -> honest ran ret (d_Job d);
  f_dname n d : durable s !! n = Some d -> n = file_name (j_ID (d_Job d));
  f_dhonest n d : durable s !! n = Some d -> honest ran ret (d_Job d);
  f_durable n d : durable s !! n = Some d ->
    exists d', visible s !! n = Some d' /\ d_Key d' = d_Key d /\ d_Hash d' = d_Hash d;
  f_ran id k : (id, k) ∈ ran -> exists d, durable s !! file_name id = Some d /\ d_Key d = k
}.

(** A job in memory and its file. *)
Definition has_file (s : Store) (v : Job) : Prop :=
  exists d, visible s !! file_name (j_ID v) = Some d /\ d_Key d = j_Key v /\ d_Hash d = j_Hash v.

Record items_ok (ran : list (string * string)) (ret : list (string * run_outcome)) (j : Jobs) : Prop := {
  i_item id v : items j !! id = Some v -> j_ID v = id /\ honest ran ret v /\ has_file (dir j) v;
  i_keys k id : keys j !! k = Some id -> exists v, items j !! id = Some v /\ j_Key v = k;
  i_known id v : items j !! id = Some v -> j_Key v ∈ dom (keys j);
  i_pending id : id ∈ pending j -> is_Some (items j !! id)
}.

Definition queued_file (files : gmap string jobDisk) (id : string) : Prop :=
  forall d, files !! file_name id = Some d -> j_State (d_Job d) = "queued".

Definition worker_ok (ran : list (string * string)) (ret : list (string * run_outcome)) (j : Jobs)
    (id : string) (pc : worker_pc) : Prop :=
  match pc with
  | WBegin => id ∉ ran.*1 /\ j_Key (item id j) ∉ ran.*2
  | WRunning => id ∈ ran.*1
  | WFinish state phase _ _ =>
      (state = "succeeded" -> exists r, (id, RunOk r) ∈ ret) /\
      (state = "failed" -> (exists r m, (id, RunFailed r m) ∈ ret) \/ id ∉ ran.*1) /\
      state <> "waiting_for_restart"
  | WRelease => True
  end.

(** At most one goroutine, that of the busy job. *)
Definition workers_ok (ran : list (string * string)) (ret : list (string * run_outcome)) (j : Jobs)
    (l : list (string * worker_pc)) : Prop :=
  match l with
  | [] => busy j = ""
  | [(id, pc)] => busy j = id /\ id <> "" /\ is_Some (items j !! id) /\ worker_ok ran ret j id pc
  | _ => False
  end.

Record Inv (w : World) : Prop := {
  inv_files : files_ok (w_ran w) (w_returned w) (dir (w_jobs w));
  inv_once : NoDup (w_ran w).*2;
  inv_items : items_ok (w_ran w) (w_returned w) (w_jobs w);
  inv_workers : workers_ok (w_ran w) (w_returned w) (w_jobs w) (w_workers w);
  inv_down : w_up w = false -> w_workers w = [];
  inv_known : w_up w = true -> forall id k, (id, k) ∈ w_ran w -> k ∈ dom (keys (w_jobs w))
}.

(** ** Files *)
Lemma file_name_inj id id' : file_name id = file_name id' -> id = id'.
Proof.
  unfold file_name. intros E.
  assert (E' : TrimSuffix (id +:+ ".json") ".json" = TrimSuffix (id' +:+ ".json") ".json") by congruence.
  by rewrite !TrimSuffix_app in E'.
Qed.

(** [s'] has every file of [s], maybe with another state of the same job. *)
Definition entries_le (s s' : Store) : Prop :=
  forall n d, visible s !! n = Some d ->
    exists d', visible s' !! n = Some d' /\ d_Key d' = d_Key d /\ d_Hash d' = d_Hash d.
#[export] Instance entries_le_preorder : PreOrder entries_le.
Proof.
  split; [intros s n d ?; eauto|]. intros s1 s2 s3 H12 H23 n d (d2 & H2 & ? & ?)%H12.
  destruct (H23 n d2 H2) as (d3 & ? & ? & ?). exists d3. split_and!; congruence.
Qed.

Lemma has_file_le s s' v : entries_le s s' -> has_file s v -> has_file s' v.
Proof. intros Hle (d & (d' & ? & ? & ?)%Hle & ? & ?). exists d'. split_and!; congruence. Qed.

(** Writing [v] does not replace another job's file. *)
Definition own_file (s : Store) (v : Job) : Prop :=
  forall d, visible s !! file_name (j_ID v) = Some d -> d_Key d = j_Key v /\ d_Hash d = j_Hash v.

Lemma has_own_file s v : has_file s v -> own_file s v.
Proof. intros (d & Hd & ? & ?) d' Hd'. simplify_eq. by split. Qed.

Lemma save_frame o v j :
  items (save o v j).2 = items j /\ keys (save o v j).2 = keys j /\
  busy (save o v j).2 = busy j /\ pending (save o v j).2 = pending j.
Proof. by destruct o. Qed.

Lemma save_le o v j : own_file (dir j) v -> entries_le (dir j) (dir (save o v j).2).
Proof.
  intros Hown. destruct o; simpl; try reflexivity; intros n d Hd; simpl;
    (destruct (decide (n = file_name (j_ID v))) as [->|];
     [rewrite lookup_insert_eq; destruct (Hown d Hd); eauto|rewrite lookup_insert_ne by done; eauto]).
Qed.

Lemma save_has_file o v j : (save o v j).1 = true -> has_file (dir (save o v j).2) v.
Proof. destruct o; simpl; intros; try done. exists (to_disk v). simpl. by rewrite lookup_insert_eq. Qed.

Lemma honest_id ran ret v v' :
  j_ID v' = j_ID v -> j_State v' = j_State v -> j_Phase v' = j_Phase v -> j_Action v' = j_Action v ->
  honest ran ret v -> honest ran ret v'.
Proof. unfold honest. by intros -> -> -> ->. Qed.

Lemma honest_other ran ret v :
  j_State v <> "succeeded" -> j_State v <> "failed" -> j_State v <> "waiting_for_restart" -> honest ran ret v.
Proof. unfold honest. naive_solver. Qed.

(** The visible files after an insertion, when a property holds of all of them. *)
Lemma insert_all (P : string -> jobDisk -> Prop) (m : gmap string jobDisk) n d :
  P n d -> (forall n d, m !! n = Some d -> P n d) ->
  forall n' d', <[n := d]> m !! n' = Some d' -> P n' d'.
Proof. intros Hn Hm n' d' [[-> ->]|[_ ?]]%lookup_insert_Some; eauto. Qed.

Lemma save_files ran ret o v j :
  files_ok ran ret (dir j) -> honest ran ret v -> own_file (dir j) v -> files_ok ran ret (dir (save o v j).2).
Proof.
  intros [] Hv Hown. pose proof (save_le o v j Hown) as Hle.
  assert (Hn : forall n d, <[file_name (j_ID v) := to_disk v]> (visible (dir j)) !! n = Some d ->
    n = file_name (j_ID (d_Job d)) /\ honest ran ret (d_Job d)) by (apply insert_all; [by split|eauto]).
  destruct o; simpl in *; [|by constructor|].
  - constructor; simpl; try (by intros n d ?%Hn; tauto); [eauto|].
    intros id k (d & (d' & ? & ? & ?)%f_durable0 & ?)%f_ran0. destruct (Hle (file_name id) d') as (d2 & ? & ? & ?); [done|].
    exists d2. split; [done|congruence].
  - constructor; simpl; try (by intros n d ?%Hn; tauto); [eauto..| |eauto].
    intros n d (d' & (d2 & ? & ? & ?)%Hle & ? & ?)%f_durable0. exists d2. split_and!; [done|congruence..].
Qed.

Lemma has_file_same s v v' :
  j_ID v' = j_ID v -> j_Key v' = j_Key v -> j_Hash v' = j_Hash v -> has_file s v -> has_file s v'.
Proof. unfold has_file. by intros -> -> ->. Qed.

Lemma has_file_agree s v v' :
  has_file s v -> has_file s v' -> j_ID v = j_ID v' -> j_Key v = j_Key v' /\ j_Hash v = j_Hash v'.
Proof. intros (d & Hd & ? & ?) (d' & Hd' & ? & ?) E. rewrite E in Hd. simplify_eq. split; congruence. Qed.

Lemma items_frame ran ret j j' :
  items j' = items j -> keys j' = keys j -> pending j' ⊆ pending j -> entries_le (dir j) (dir j') ->
  items_ok ran ret j -> items_ok ran ret j'.
Proof.
  intros Hi Hk Hp Hle []. constructor; rewrite ?Hi, ?Hk; [|eauto..|intros id ?%Hp; eauto].
  intros id v (? & ? & ?)%i_item0. eauto using has_file_le.
Qed.

Lemma save_items ran ret o v j :
  own_file (dir j) v -> items_ok ran ret j -> items_ok ran ret (save o v j).2.
Proof.
  intros Hown. destruct (save_frame o v j) as (? & ? & _ & Hp).
  apply items_frame; [done..|by rewrite Hp|by apply save_le].
Qed.

(** Recording a job under its identifier and its key. *)
Lemma add_item ran ret v j :
  items_ok ran ret j -> honest ran ret v -> has_file (dir j) v ->
  items_ok ran ret (j <| items ::= <[j_ID v := v]> |> <| keys ::= <[j_Key v := j_ID v]> |>).
Proof.
  intros [] Hv Hf. constructor; simpl.
  - intros id' v' [[<- <-]|[_ ?]]%lookup_insert_Some; eauto.
  - intros k id' [[<- <-]|[_ (v0 & Hv0 & ?)%i_keys0]]%lookup_insert_Some; [exists v; by rewrite lookup_insert_eq|].
    destruct (decide (id' = j_ID v)) as [->|]; [|exists v0; by rewrite lookup_insert_ne].
    exists v. rewrite lookup_insert_eq. split; [done|]. destruct (i_item0 _ v0 Hv0) as (? & _ & Hf0).
    destruct (has_file_agree _ _ _ Hf Hf0); congruence.
  - intros id' v' [[<- <-]|[_ ?%i_known0]]%lookup_insert_Some; rewrite dom_insert; set_solver.
  - intros id' ?%i_pending0. destruct (decide (id' = j_ID v)) as [->|]; [by rewrite lookup_insert_eq|by rewrite lookup_insert_ne].
Qed.

Lemma set_item ran ret id v v0 j :
  items_ok ran ret j -> j_ID v = id -> honest ran ret v -> has_file (dir j) v ->
  items j !! id = Some v0 -> j_Key v0 = j_Key v ->
  items_ok ran ret (j <| items ::= <[id := v]> |>).
Proof.
  intros Hi <- Hv Hf Hv0 Hk. pose proof (add_item ran ret v j Hi Hv Hf) as [Ha Hb Hc Hd].
  destruct Hi. constructor; simpl in *; try done.
  - intros k id' (v1 & Hv1 & ?)%i_keys0. destruct (decide (id' = j_ID v)) as [->|].
    + exists v. rewrite lookup_insert_eq. split; congruence.
    + exists v1. by rewrite lookup_insert_ne.
  - intros id' v' [[<- <-]|[_ ?%i_known0]]%lookup_insert_Some; [|done]. rewrite <-Hk. eauto.
Qed.

(** ** Restarting *)
Lemma honest_not_replayed ran ret now v : honest ran ret (not_replayed now v).
Proof. by apply honest_other. Qed.

Lemma honest_reconnected ran ret now v :
  restarted v = true -> honest ran ret v -> honest ran ret (reconnected now v).
Proof.
  unfold restarted. intros ?; bool_hyps. intros (_ & _ & Hw). destruct Hw as [Ha Hr]; [done|].
  unfold honest. simpl. naive_solver.
Qed.

(** Every file of the list is one of the directory. *)
Definition listed ran ret (s : Store) (name : string) (d : jobDisk) : Prop :=
  name = file_name (j_ID (d_Job d)) /\ honest ran ret (d_Job d) /\ exists d', visible s !! name = Some d' /\ d_Key d' = d_Key d /\ d_Hash d' = d_Hash d.

Lemma listed_le ran ret s s' name d : entries_le s s' -> listed ran ret s name d -> listed ran ret s' name d.
Proof.
  intros Hle (? & ? & d1 & (d2 & ? & ? & ?)%Hle & ? & ?). split_and!; [done..|]. exists d2. split_and!; congruence.
Qed.

Record loading ran ret j : Prop := {
  l_files : files_ok ran ret (dir j);
  l_items : items_ok ran ret j;
  l_busy : busy j = ""
}.

(** A save while the store is being loaded, of the job being loaded. *)
Lemma loading_save ran ret o v j :
  loading ran ret j -> honest ran ret v -> has_file (dir j) v ->
  loading ran ret (save o v j).2 /\ entries_le (dir j) (dir (save o v j).2) /\
  has_file (dir (save o v j).2) v /\ keys (save o v j).2 = keys j.
Proof.
  intros [] Hv Hf. pose proof (has_own_file _ _ Hf) as Hown.
  destruct (save_frame o v j) as (? & ? & Hb & ?).
  split_and!; [constructor; [by apply save_files|by apply save_items|congruence]|by apply save_le| |done].
  eapply has_file_le; [by apply save_le|done].
Qed.

Lemma loading_add ran ret v j :
  loading ran ret j -> honest ran ret v -> has_file (dir j) v ->
  loading ran ret (j <| items ::= <[j_ID v := v]> |> <| keys ::= <[j_Key v := j_ID v]> |>).
Proof. intros [] Hv Hfile. constructor; [done|by apply add_item|done]. Qed.

Lemma adjust_spec ran ret b o v' v j :
  loading ran ret j -> honest ran ret v -> (b = true -> honest ran ret v') -> has_file (dir j) v ->
  j_ID v' = j_ID v -> j_Key v' = j_Key v -> j_Hash v' = j_Hash v ->
  exists ok v1 j1, adjust b o v' v j = (ok, v1, j1) /\ loading ran ret j1 /\ entries_le (dir j) (dir j1) /\
    honest ran ret v1 /\ has_file (dir j1) v1 /\ keys j1 = keys j /\ j_Key v1 = j_Key v.
Proof.
  intros Hl Hv Hv' Hf Hid Hk Hh. unfold adjust. destruct b; [|naive_solver].
  assert (Hf' : has_file (dir j) v') by (by eapply has_file_same, Hf).
  destruct (loading_save ran ret o v' j Hl (Hv' eq_refl) Hf') as (? & ? & ? & ?).
  destruct (save o v' j) as [ok j1]. exists ok, v', j1. split_and!; auto.
Qed.

Lemma load_file_spec ran ret now o name d j :
  loading ran ret j -> listed ran ret (dir j) name d ->
  loading ran ret (load_file now o d j).2 /\ entries_le (dir j) (dir (load_file now o d j).2) /\
  dom (keys j) ⊆ dom (keys (load_file now o d j).2) /\
  ((load_file now o d j).1 = true -> d_Key d ∈ dom (keys (load_file now o d j).2)).
Proof.
  intros Hl (Hname & Hh & Hfile). unfold load_file. cbv zeta. set (v := of_disk d).
  assert (Hhv : honest ran ret v) by (by eapply honest_id, Hh).
  assert (Hfv : has_file (dir j) v) by (destruct Hfile as (d' & ? & ? & ?); subst name; by exists d').
  assert (Hk : d_Key d = j_Key v) by done. clearbody v. rewrite Hk. clear Hk Hh Hfile Hname d.
  destruct (negb (ValidID (j_ID v))); [by split_and!|].
  destruct (adjust_spec ran ret (interrupted v) o (not_replayed now v) v j)
    as (ok & v1 & j1 & -> & Hl1 & Hle1 & Hh1 & Hf1 & Hk1 & Hkey1); [done|done|by intros; apply honest_not_replayed|done..|].
  rewrite <-Hkey1, <-Hk1. destruct ok; simpl; [|by split_and!].
  destruct (adjust_spec ran ret (restarted v1) o (reconnected now v1) v1 j1)
    as (ok & v2 & j2 & -> & Hl2 & Hle2 & Hh2 & Hf2 & Hk2 & Hkey2); [done|done|by intros; apply honest_reconnected|done..|].
  rewrite <-Hkey2, <-Hk2. destruct ok; simpl; [|split_and!; [done|by etrans|done|done]].
  split_and!; [by apply loading_add|by etrans|set_solver|set_solver].
Qed.

Lemma load_files_spec ran ret now o files j :
  loading ran ret j -> (forall name d, (name, d) ∈ files -> listed ran ret (dir j) name d) ->
  let j' := (load_files now o files j).2 in
  loading ran ret j' /\ dom (keys j) ⊆ dom (keys j') /\
  ((load_files now o files j).1 = true -> forall name d, (name, d) ∈ files -> d_Key d ∈ dom (keys j')).
Proof.
  cbv zeta. revert j. induction files as [|[name d] files IH]; intros j Hl Hfiles; simpl.
  { split_and!; [done..|]. intros _ name d []%not_elem_of_nil. }
  pose proof (load_file_spec ran ret now (o name) name d j Hl (Hfiles _ _ (list_elem_of_here _ _))) as (Hl1 & Hle & Hk & Hd).
  destruct (load_file now (o name) d j) as [ok j1]. simpl in *. destruct ok; [|by split_and!].
  destruct (IH j1 Hl1) as (Hl2 & Hk2 & Hall).
  { intros name' d' Hin. eapply listed_le; [done|]. apply Hfiles. by right. }
  split_and!; [done|by etrans|]. intros Hok name' d' [[= -> ->]|Hin]%elem_of_cons; [by apply Hk2, Hd|eauto].
Qed.

Lemma elem_of_ReadDir s name d : (name, d) ∈ ReadDir s <-> visible s !! name = Some d.
Proof.
  unfold ReadDir. rewrite list_elem_of_omap. setoid_rewrite elem_of_sort_strings. setoid_rewrite elem_of_elements.
  split; [intros (n & _ & (d' & ? & [= -> ->])%fmap_Some); done|].
  intros Hd. exists name. rewrite Hd. split; [by apply elem_of_dom|done].
Qed.

(** ** The operations *)

(** [j'] has the jobs, the keys and the busy job of [j]. *)
Definition keeps (j j' : Jobs) : Prop :=
  busy j' = busy j /\ keys j' = keys j /\
  forall id v, items j !! id = Some v -> exists v', items j' !! id = Some v' /\ j_Key v' = j_Key v.

Lemma keeps_key j j' id : keeps j j' -> is_Some (items j !! id) ->
  is_Some (items j' !! id) /\ j_Key (item id j') = j_Key (item id j).
Proof.
  intros (_ & _ & Hi) [v Hv]. destruct (Hi id v Hv) as (v' & Hv' & E). unfold item. rewrite Hv, Hv'. simpl. eauto.
Qed.

Lemma keeps_workers ran ret j j' l : keeps j j' -> workers_ok ran ret j l -> workers_ok ran ret j' l.
Proof.
  intros Hk. destruct l as [|[id pc] [|]]; simpl; [destruct Hk; congruence| |done].
  intros (Hb & Hne & Hs & Hpc). destruct (keeps_key j j' id Hk Hs) as [Hs' E]. destruct Hk as (Hb' & _).
  split_and!; [congruence|done..|]. destruct pc; simpl in *; rewrite ?E; done.
Qed.

Lemma keeps_set id v j :
  (forall v0, items j !! id = Some v0 -> j_Key v = j_Key v0) -> keeps j (j <| items ::= <[id := v]> |>).
Proof.
  intros Hk. split_and!; [done..|]. simpl. intros id' v0 Hv0. destruct (decide (id' = id)) as [->|].
  - exists v. rewrite lookup_insert_eq. auto.
  - exists v0. by rewrite lookup_insert_ne.
Qed.

(** Both halves of the invariant that concern the data. *)
Definition data_ok ran ret (j : Jobs) : Prop := files_ok ran ret (dir j) /\ items_ok ran ret j.

Lemma data_save ran ret o v j :
  data_ok ran ret j -> honest ran ret v -> own_file (dir j) v -> data_ok ran ret (save o v j).2.
Proof. intros [] Hv Ho. split; [by apply save_files|by apply save_items]. Qed.

Lemma data_item ran ret id v j : data_ok ran ret j -> items j !! id = Some v ->
  j_ID v = id /\ honest ran ret v /\ has_file (dir j) v.
Proof. intros [_ []]. auto. Qed.

(** Saving a new state of a job in memory, and then recording it. *)
Lemma data_replace ran ret o id v v' v'' j :
  data_ok ran ret j -> items j !! id = Some v ->
  honest ran ret v' -> j_ID v' = id -> j_Key v' = j_Key v -> j_Hash v' = j_Hash v ->
  honest ran ret v'' -> j_ID v'' = id -> j_Key v'' = j_Key v -> j_Hash v'' = j_Hash v ->
  let j' := (save o v' j).2 in
  data_ok ran ret j' /\ keeps j j' /\
  data_ok ran ret (j' <| items ::= <[id := v'']> |>) /\ keeps j (j' <| items ::= <[id := v'']> |>).
Proof.
  intros Hd Hv Hh' Hi' Hk' Hx' Hh'' Hi'' Hk'' Hx''. destruct (data_item _ _ _ _ _ Hd Hv) as (Hid & _ & Hf).
  assert (Hf' : has_file (dir j) v') by (eapply has_file_same, Hf; congruence).
  assert (Hf'' : has_file (dir j) v'') by (eapply has_file_same, Hf; congruence).
  pose proof (has_own_file _ _ Hf') as Ho. pose proof (data_save ran ret o v' j Hd Hh' Ho) as Hd1.
  pose proof (save_le o v' j Ho) as Hle. destruct (save_frame o v' j) as (Ei & Ek & Eb & _). cbv zeta.
  set (j1 := (save o v' j).2) in *. clearbody j1.
  assert (Hk1 : keeps j j1) by (split_and!; [done..|]; rewrite Ei; eauto).
  split_and!; [done|done| |].
  - destruct Hd1 as [? ?]. split; [done|]. eapply set_item; [done..| |by rewrite Ei|congruence]. by eapply has_file_le.
  - destruct (keeps_set id v'' j1) as (? & ? & Hk2); [rewrite Ei; intros; simplify_eq; congruence|].
    split_and!; [simpl; congruence..|]. intros id0 v0 Hv0. apply Hk2. by rewrite Ei.
Qed.

Lemma Update_data ran ret now o id state phase result msg j v :
  data_ok ran ret j -> items j !! id = Some v -> honest ran ret (outcome now state phase result msg v) ->
  data_ok ran ret (Update now o id state phase result msg j).2 /\ keeps j (Update now o id state phase result msg j).2.
Proof.
  intros Hd Hv Hh. unfold Update. rewrite Hv. cbv zeta. destruct (data_item _ _ _ _ _ Hd Hv) as (Hid & _).
  destruct (data_replace ran ret o id v (outcome now state phase result msg v) (outcome now state phase result msg v) j)
    as (? & ? & ? & ?); try done.
  destruct (save o _ j) as [[] j1]; by split.
Qed.

Lemma finish_data ran ret now o id state phase result msg j v :
  data_ok ran ret j -> items j !! id = Some v -> worker_ok ran ret j id (WFinish state phase result msg) ->
  data_ok ran ret (finish now o id state phase result msg j) /\ keeps j (finish now o id state phase result msg j).
Proof.
  intros Hd Hv (Hs & Hfl & Hw). unfold finish, item. rewrite Hv. simpl default. cbv zeta.
  destruct (data_item _ _ _ _ _ Hd Hv) as (Hid & _).
  assert (Hh : honest ran ret (outcome now state phase result msg v)).
  { unfold honest. simpl. rewrite Hid. split_and!; [naive_solver..|done]. }
  set (v1 := outcome now state phase result msg v) in *.
  destruct (data_replace ran ret o id v v1 v1 j) as (_ & _ & H1 & H2); try done.
  set (v2 := if bool_decide (phase <> "storage_error") then _ else _).
  set (v3 := v2 <| j_Phase := _ |> <| j_Result := _ |> <| j_Error := _ |>).
  set (v4 := if bool_decide (phase = "storage_error") then _ else _).
  assert (E4 : j_ID v4 = j_ID v /\ j_Key v4 = j_Key v /\ j_Hash v4 = j_Hash v /\ j_Action v4 = j_Action v /\
    j_State v4 = (if bool_decide (phase = "storage_error") then state else "unknown")).
  { subst v4 v3 v2. by repeat case_bool_decide. }
  destruct E4 as (? & ? & ? & ? & Hst).
  assert (Hh4 : honest ran ret v4).
  { unfold honest. rewrite Hst. case_bool_decide; [|naive_solver]. split_and!; [intros ->; left|intros ->|done].
    - replace (j_ID v4) with id by congruence. by apply Hs.
    - replace (j_ID v4) with id by congruence. naive_solver. }
  destruct (data_replace ran ret o id v v1 v4 j) as (_ & _ & [Hd3 [Ha Hb Hc He]] & Hk3); try done; [congruence|].
  clearbody v1 v2 v3 v4. destruct (save o v1 j) as [[] j1] eqn:Es; simpl in *; [by split|].
  split; [|done]. split; [done|]. constructor; [done..|]. simpl.
  intros id' [->%elem_of_singleton|?]%elem_of_union; [by rewrite lookup_insert_eq|auto].
Qed.

Lemma keeps_refl j : keeps j j.
Proof. split_and!; eauto. Qed.
Lemma keeps_trans j1 j2 j3 : keeps j1 j2 -> keeps j2 j3 -> keeps j1 j3.
Proof.
  intros (? & ? & H12) (? & ? & H23). split_and!; [congruence..|]. intros id v (v2 & Hv2 & E)%H12.
  destruct (H23 id v2 Hv2) as (v3 & ? & ?). exists v3. split; congruence.
Qed.

Lemma save_new_names o v j n :
  has_file (dir j) v -> visible (dir j) !! n = None -> visible (dir (save o v j).2) !! n = None.
Proof.
  intros (d & Hd & _) Hn. destruct o; simpl; [|done|];
    (rewrite lookup_insert_ne; [done|]; intros <-; congruence).
Qed.

Lemma repair_spec ran ret o ids j :
  data_ok ran ret j -> (forall id, id ∈ ids -> is_Some (items j !! id)) ->
  let j' := (repair o ids j).2 in
  data_ok ran ret j' /\ keeps j j' /\ forall n, visible (dir j) !! n = None -> visible (dir j') !! n = None.
Proof.
  cbv zeta. revert j. induction ids as [|id ids IH]; intros j Hd Hids; simpl; [eauto using keeps_refl|].
  destruct (Hids id) as [v Hv]; [by left|]. unfold item. rewrite Hv. simpl default.
  destruct (data_item _ _ _ _ _ Hd Hv) as (_ & Hh & Hf). pose proof (has_own_file _ _ Hf) as Ho.
  pose proof (data_save ran ret (o id) v j Hd Hh Ho) as Hd1. pose proof (save_new_names (o id) v j) as Hn.
  destruct (save_frame (o id) v j) as (Ei & Ek & Eb & Ep).
  destruct (save (o id) v j) as [ok j1]. simpl in *.
  assert (Hk1 : keeps j j1) by (split_and!; [done..|]; rewrite Ei; eauto).
  destruct ok; simpl; [|by split_and!; auto].
  destruct (IH (j1 <| pending ::= fun p => p ∖ {[id]} |>)) as (Hd2 & Hk2 & Hn2).
  - destruct Hd1 as [? Hi]. split; [done|]. eapply items_frame, Hi; simpl; [done..|set_solver|done].
  - simpl. intros id' ?. rewrite Ei. apply Hids. by right.
  - split_and!; [done|by eapply keeps_trans|]. intros n Hn0. apply Hn2. simpl. auto.
Qed.

Lemma accept_data ran ret o v j :
  data_ok ran ret j -> honest ran ret v -> visible (dir j) !! file_name (j_ID v) = None ->
  (save o v j).1 = true -> keys j !! j_Key v = None ->
  data_ok ran ret ((save o v j).2 <| items ::= <[j_ID v := v]> |> <| keys ::= <[j_Key v := j_ID v]> |> <| busy := j_ID v |>).
Proof.
  intros Hd Hh Hn Hok Hk. assert (Ho : own_file (dir j) v) by (intros d; by rewrite Hn).
  pose proof (save_has_file _ _ _ Hok) as Hf. pose proof (data_save ran ret o v j Hd Hh Ho) as [Hd1 Hi1].
  split; [done|]. destruct (add_item _ _ v _ Hi1 Hh Hf). by constructor.
Qed.

Lemma Start_spec ran ret now token order o accept server a action key payload j :
  data_ok ran ret j -> (forall id, id ∈ order -> is_Some (items j !! id)) ->
  visible (dir j) !! file_name ("job_" +:+ token) = None ->
  match Start now token order o accept server a action key payload j with
  | (Ok (v, 202), j') =>
      v = accepted_job now token server a action key payload /\ data_ok ran ret j' /\ busy j = "" /\
      busy j' = j_ID v /\ items j' !! j_ID v = Some v /\ keys j' = <[j_Key v := j_ID v]> (keys j) /\
      keys j !! j_Key v = None
  | (_, j') => data_ok ran ret j' /\ keeps j j'
  end.
Proof.
  intros Hd Hids Hfile. unfold Start. cbv zeta. destruct (keys j !! _) as [id|] eqn:Hk.
  { case_bool_decide; by split; [|apply keeps_refl]. }
  case_bool_decide as Hb; [by split; [|apply keeps_refl]|].
  destruct (repair_spec ran ret o order j Hd Hids) as (Hd1 & Hk1 & Hn1).
  destruct (repair o order j) as [ok j1]. simpl in Hd1, Hk1, Hn1. destruct ok; simpl negb; cbv iota; [|by split].
  set (v := accepted_job now token server a action key payload).
  assert (Hh : honest ran ret v) by by apply honest_other.
  assert (Ek : keys j1 = keys j) by apply Hk1. assert (Hkv : keys j1 !! j_Key v = None) by by rewrite Ek.
  pose proof (accept_data ran ret accept v j1 Hd1 Hh (Hn1 _ Hfile)) as Hacc.
  assert (Hnv : visible (dir j1) !! file_name (j_ID v) = None) by exact (Hn1 _ Hfile).
  assert (Ho : own_file (dir j1) v) by (intros d; by rewrite Hnv).
  pose proof (data_save ran ret accept v j1 Hd1 Hh Ho) as Hs.
  destruct (save_frame accept v j1) as (Ei & Ek' & Eb & _).
  destruct (save accept v j1) as [[] j2]; simpl in Hacc, Hs, Ei, Ek', Eb; simpl negb; cbv iota.
  - split_and!; [done|by apply Hacc|done|done|by simpl; rewrite lookup_insert_eq|simpl; congruence|congruence].
  - split; [done|]. eapply keeps_trans; [done|]. split_and!; [done..|]. rewrite Ei. eauto.
Qed.

(** ** What was run and what it returned *)
Lemma honest_run ran ret id k v :
  honest ran ret v -> (j_ID v = id -> j_State v <> "failed") -> honest ((id, k) :: ran) ret v.
Proof.
  intros (Hs & Hf & Hw) Hid. split_and!; intros E.
  - destruct (Hs E) as [?|(? & ? & ?)]; [by left|]. right. split_and!; [done..|]. by right.
  - destruct (Hf E) as [?|Hn]; [by left|]. right. intros [E'|?]%elem_of_cons; [by apply Hid|done].
  - destruct (Hw E). split; [done|]. by right.
Qed.

Lemma honest_returned ran ret x v : honest ran ret v -> honest ran (x :: ret) v.
Proof.
  intros (Hs & Hf & Hw). split_and!; intros E; [|destruct (Hf E) as [(r & m & ?)|?]; [left|by right]|auto].
  - destruct (Hs E) as [(r & ?)|?]; [left|by right]. exists r. by right.
  - exists r, m. by right.
Qed.

Lemma data_returned ran ret x j : data_ok ran ret j -> data_ok ran (x :: ret) j.
Proof.
  intros [[] []]. split; constructor; eauto using honest_returned.
  intros id v (? & ? & ?)%i_item0. auto using honest_returned.
Qed.

Lemma data_run ran ret id v j :
  data_ok ran ret j -> items j !! id = Some v -> j_State v <> "failed" ->
  visible (dir j) !! file_name id = Some (to_disk v) -> durable (dir j) = visible (dir j) ->
  data_ok ((id, j_Key v) :: ran) ret j.
Proof.
  intros [[] []] Hv Hst Hf Hdur.
  assert (Hfiles : forall n d, visible (dir j) !! n = Some d -> honest ((id, j_Key v) :: ran) ret (d_Job d)).
  { intros n d Hd. apply honest_run; [eauto|]. intros E. rewrite (f_name0 _ _ Hd), E in Hd. by simplify_eq. }
  split; constructor; rewrite ?Hdur in *; eauto.
  - intros id' k [[= -> ->]|?]%elem_of_cons; eauto.
  - intros id' v' Hv'. destruct (i_item0 id' v' Hv') as (E & Hh & ?). split_and!; [done| |done].
    apply honest_run; [done|]. intros <-. subst. by simplify_eq.
Qed.

Lemma Update_ok now o id state phase result msg j v :
  items j !! id = Some v -> j_ID v = id -> (Update now o id state phase result msg j).1 = true ->
  let v' := outcome now state phase result msg v in
  let j' := (Update now o id state phase result msg j).2 in
  items j' !! id = Some v' /\ visible (dir j') !! file_name id = Some (to_disk v') /\ durable (dir j') = visible (dir j').
Proof.
  intros Hv Hid. unfold Update. rewrite Hv. cbv zeta. destruct o; simpl; [|done|done]. intros _.
  by rewrite Hid, !lookup_insert_eq.
Qed.

(** ** The invariant is preserved *)
Lemma empty_items ran ret s : items_ok ran ret (mkJobs ∅ ∅ "" ∅ s).
Proof. constructor; simpl; intros *; rewrite ?lookup_empty; done. Qed.

Lemma jobs_initial_Inv : Inv initialWorld.
Proof.
  constructor; [|apply NoDup_nil_2|apply empty_items|done..].
  constructor; simpl; intros *; rewrite ?lookup_empty; try done. intros []%not_elem_of_nil.
Qed.

Lemma inv_data w : Inv w -> data_ok (w_ran w) (w_returned w) (w_jobs w).
Proof. intros []. by split. Qed.

(** Steps that leave the processes, the runs and their results alone. *)
Lemma keeps_Inv w j' :
  Inv w -> data_ok (w_ran w) (w_returned w) j' -> keeps (w_jobs w) j' -> Inv (w <| w_jobs := j' |>).
Proof.
  intros [] [] Hk. constructor; simpl; try done; [by eapply keeps_workers|].
  intros Hup id k ?. destruct Hk as (_ & -> & _). eauto.
Qed.

Lemma down_Inv s w : Inv w -> files_ok (w_ran w) (w_returned w) s -> Inv (down s w).
Proof. intros [] Hf. by constructor. Qed.

Lemma boot_Inv now o w : Inv w -> w_up w = false ->
  let '(ok, j) := NewJobs now o (dir (w_jobs w)) in
  Inv (if ok then w <| w_jobs := j |> <| w_up := true |> else down (dir j) w).
Proof.
  intros Hw Hup. unfold NewJobs. set (j0 := mkJobs ∅ ∅ "" ∅ (dir (w_jobs w))).
  assert (Hl : loading (w_ran w) (w_returned w) j0).
  { constructor; [apply Hw|apply empty_items|done]. }
  destruct (load_files_spec (w_ran w) (w_returned w) now o (ReadDir (dir (w_jobs w))) j0 Hl) as (Hl1 & _ & Hall).
  { intros name d Hd%elem_of_ReadDir. destruct Hw as [[] ]. split_and!; eauto. }
  destruct (load_files now o _ j0) as [ok j1]. simpl in *. destruct Hl1. destruct ok; [|by apply down_Inv].
  constructor; simpl; try done.
  - apply Hw.
  - by rewrite (inv_down _ Hw Hup).
  - intros _ id k (d & (d' & Hd' & <- & _)%(f_durable _ _ _ (inv_files _ Hw)) & <-)%(f_ran _ _ _ (inv_files _ Hw)).
    eapply Hall; [done|]. by apply elem_of_ReadDir.
Qed.

Lemma lookup_left kept s n d :
  visible (power_loss kept s) !! n = Some d <->
  visible s !! n = Some d /\ n ∈ kept \/ durable s !! n = Some d /\ n ∉ kept.
Proof.
  simpl. rewrite lookup_union_Some, !map_lookup_filter_Some; [simpl; tauto|].
  apply map_disjoint_spec. intros m d1 d2 [_ ?]%map_lookup_filter_Some [_ ?]%map_lookup_filter_Some. by simpl in *.
Qed.

Lemma power_loss_files ran ret kept s : files_ok ran ret s -> files_ok ran ret (power_loss kept s).
Proof.
  intros []. assert (E : durable (power_loss kept s) = visible (power_loss kept s)) by done.
  constructor; rewrite ?E; setoid_rewrite lookup_left; [naive_solver..|].
  intros id k (d & Hd & Hk)%f_ran0. destruct (decide (file_name id ∈ kept)) as [?|Hnot].
  - destruct (f_durable0 _ _ Hd) as (d' & Hd' & ? & ?). exists d'. split; [by left|congruence].
  - exists d. split; [by right|done].
Qed.

(** The only goroutine there can be. *)
Lemma the_worker w i id pc : Inv w -> w_workers w !! i = Some (id, pc) ->
  i = 0%nat /\ w_workers w = [(id, pc)] /\ busy (w_jobs w) = id /\ id <> "" /\
  (exists v, items (w_jobs w) !! id = Some v /\ j_ID v = id) /\
  worker_ok (w_ran w) (w_returned w) (w_jobs w) id pc /\ w_up w = true.
Proof.
  intros Hw Hi. pose proof (inv_workers _ Hw) as Hwk.
  destruct (w_up w) eqn:Hup; [|by rewrite (inv_down _ Hw Hup) in Hi].
  destruct (w_workers w) as [|[id' pc'] [|]]; [done| |done].
  destruct i as [|i]; simplify_eq/=. destruct Hwk as (? & ? & [v Hv] & ?). split_and!; try done.
  exists v. split; [done|]. by apply (data_item _ _ _ _ _ (inv_data _ Hw) Hv).
Qed.

(** The worker moves on while the jobs, the keys and the busy job stay. *)
Lemma worker_moves w w' id pc pc' :
  Inv w -> w_workers w = [(id, pc)] -> is_Some (items (w_jobs w) !! id) -> w_up w = true ->
  data_ok (w_ran w') (w_returned w') (w_jobs w') -> keeps (w_jobs w) (w_jobs w') -> w_up w' = true ->
  w_workers w' = [(id, pc')] -> worker_ok (w_ran w') (w_returned w') (w_jobs w') id pc' ->
  NoDup (w_ran w').*2 -> (forall i k, (i, k) ∈ w_ran w' -> k ∈ dom (keys (w_jobs w'))) ->
  Inv w'.
Proof.
  intros Hw Hl Hs Hup [] Hk Hup' Hl' Hpc Hnd Hkn. pose proof (inv_workers _ Hw) as Hwk. rewrite Hl in Hwk.
  destruct Hwk as (Hb & Hne & _). destruct (keeps_key _ _ _ Hk Hs) as [Hs' _]. destruct Hk as (Hb' & _).
  constructor; try done; [rewrite Hl'; split_and!; [congruence|done..]|congruence].
Qed.

Lemma begin_Inv i now o r id w :
  Inv w -> w_workers w !! i = Some (id, WBegin) -> Inv (worker_step i now o r w).
Proof.
  intros Hw Hi. unfold worker_step. rewrite Hi.
  destruct (the_worker w i id WBegin Hw Hi) as (-> & Hl & Hb & Hne & (v & Hv & Hid) & (Hnr & Hnk) & Hup).
  pose proof (inv_data _ Hw) as Hd. pose proof (Update_ok now o id "running" "executing" None "" _ v Hv Hid) as Hok.
  destruct (Update_data (w_ran w) (w_returned w) now o id "running" "executing" None "" _ v Hd Hv) as [Hd' Hk];
    [by apply honest_other|].
  assert (Hkey : job_key id w = j_Key v) by (unfold job_key, item; by rewrite Hv).
  unfold item in Hnk. rewrite Hv in Hnk. simpl in Hnk.
  assert (Hkn : forall i k, (i, k) ∈ w_ran w -> k ∈ dom (keys (w_jobs w))) by (intros; by eapply inv_known).
  destruct (Update now o id _ _ _ _ _) as [[] j1]; simpl in Hok, Hd', Hk.
  - destruct (Hok eq_refl) as (Hi1 & Hf1 & Hdur). rewrite Hkey.
    eapply (worker_moves w _ id WBegin WRunning); simpl; eauto.
    + by apply (data_run _ _ _ (outcome now "running" "executing" None "" v)).
    + by rewrite Hl.
    + by left.
    + constructor; [done|apply Hw].
    + destruct Hk as (_ & -> & Hk). intros i k [[= -> ->]|?]%elem_of_cons; [|eauto].
      by apply (i_known _ _ _ (proj2 Hd) id).
  - eapply (worker_moves w _ id WBegin never_executed); simpl; eauto.
    + by rewrite Hl.
    + split_and!; [done|by right|done].
    + apply Hw.
    + by destruct Hk as (_ & -> & _).
Qed.

Lemma return_Inv i now o r id w :
  Inv w -> w_workers w !! i = Some (id, WRunning) -> Inv (worker_step i now o r w).
Proof.
  intros Hw Hi. unfold worker_step. rewrite Hi.
  destruct (the_worker w i id WRunning Hw Hi) as (-> & Hl & Hb & Hne & (v & Hv & Hid) & Hr & Hup).
  eapply (worker_moves w _ id WRunning (after_run r)); simpl; eauto.
  - apply data_returned. by apply inv_data.
  - apply keeps_refl.
  - by rewrite Hl.
  - destruct r; simpl; split_and!; try done; intros; [eexists; by left|left; do 2 eexists; by left].
  - apply Hw.
  - intros. by eapply inv_known.
Qed.

Lemma finish_Inv i now o r id state phase result msg w :
  Inv w -> w_workers w !! i = Some (id, WFinish state phase result msg) -> Inv (worker_step i now o r w).
Proof.
  intros Hw Hi. unfold worker_step. rewrite Hi.
  destruct (the_worker w i id _ Hw Hi) as (-> & Hl & Hb & Hne & (v & Hv & Hid) & Hpc & Hup).
  destruct (finish_data _ _ now o id state phase result msg _ v (inv_data _ Hw) Hv Hpc) as [Hd Hk].
  eapply (worker_moves w _ id _ WRelease); simpl; eauto.
  - by rewrite Hl.
  - apply Hw.
  - destruct Hk as (_ & -> & _). intros. by eapply inv_known.
Qed.

Lemma release_Inv i now o r id w :
  Inv w -> w_workers w !! i = Some (id, WRelease) -> Inv (worker_step i now o r w).
Proof.
  intros Hw Hi. unfold worker_step. rewrite Hi.
  destruct (the_worker w i id _ Hw Hi) as (-> & Hl & Hb & Hne & _ & _ & Hup).
  unfold release. destruct Hw as [? ? [] ? ? ?]. constructor; simpl; rewrite ?Hl, ?bool_decide_true by done; try done.
Qed.

Lemma worker_step_Inv i now o r w : Inv w -> Inv (worker_step i now o r w).
Proof.
  intros Hw. destruct (w_workers w !! i) as [[id pc]|] eqn:Hi; [|unfold worker_step; by rewrite Hi].
  destruct pc; eauto using begin_Inv, return_Inv, finish_Inv, release_Inv.
Qed.

Lemma run_update_Inv i now o u id w :
  Inv w -> w_workers w !! i = Some (id, WRunning) -> Inv (do_op (OpRunUpdate i now o u) w).
Proof.
  intros Hw Hi. unfold do_op. rewrite Hi.
  destruct (the_worker w i id _ Hw Hi) as (_ & _ & _ & _ & (v & Hv & Hid) & Hr & _).
  unfold item. rewrite Hv. simpl default. destruct (run_state (j_Action v) u) as [[[state phase] result]|] eqn:Hu; [|done].
  destruct (Update_data (w_ran w) (w_returned w) now o id state phase result "" (w_jobs w) v); [by apply inv_data|done| |].
  - destruct u; simpl in Hu; [|..|case_bool_decide as Ha; [|done]]; injection Hu as <- <- <-;
      [by apply honest_other..|]. unfold honest. simpl. rewrite Hid. naive_solver.
  - by apply keeps_Inv.
Qed.

Lemma start_Inv now rand order o accept server a action key payload w :
  let p := OpStart now rand order o accept server a action key payload in
  Inv w -> op_ok p w -> Inv (do_op p w).
Proof.
  cbv zeta. intros Hw (Hlen & Hnew & Hord). unfold do_op. destruct (w_up w) eqn:Hup; simpl negb; cbv iota; [|done].
  pose proof (Start_spec (w_ran w) (w_returned w) now (Token rand) order o accept server a action key payload
    (w_jobs w) (inv_data _ Hw)) as Hs.
  destruct (Start _ _ _ _ _ _ _ _ _ _ _) as [res j1].
  assert (Hids : forall id, id ∈ order -> is_Some (items (w_jobs w) !! id)).
  { intros id. rewrite Hord, elem_of_elements. apply Hw. }
  specialize (Hs Hids Hnew). cbv zeta.
  assert (Hother : data_ok (w_ran w) (w_returned w) j1 /\ keeps (w_jobs w) j1 -> Inv (w <| w_jobs := j1 |>))
    by (intros []; by apply keeps_Inv).
  destruct res as [[v st]|]; [|auto].
  destruct (decide (st = 202)) as [->|Hne].
  2: { assert (Hs' : data_ok (w_ran w) (w_returned w) j1 /\ keeps (w_jobs w) j1) by (repeat case_match; done).
       repeat case_match; first [done|by apply Hother]. }
  destruct Hs as (-> & [Hf Hi] & Hb & Hb' & Hv & Hk & Hkn). set (v := accepted_job _ _ _ _ _ _ _) in *.
  assert (Hwk : w_workers w = []).
  { pose proof (inv_workers _ Hw) as Hwk. destruct (w_workers w) as [|[id pc] [|]]; [done| |done].
    destruct Hwk as (? & ? & _). congruence. }
  assert (Hin : forall i k, (i, k) ∈ w_ran w -> k ∈ dom (keys (w_jobs w))) by (intros; by eapply inv_known).
  constructor; simpl; try done; rewrite ?Hwk; simpl; try congruence.
  - apply Hw.
  - assert (Hv' : items j1 !! ("job_" +:+ Token rand) = Some v) by exact Hv.
    split_and!; [done|done|by rewrite Hv'| |].
    + intros (i & (d & (d' & Hd' & _)%(f_durable _ _ _ (inv_files _ Hw)) & _)%(f_ran _ _ _ (inv_files _ Hw)))%elem_of_fst.
      rewrite Hnew in Hd'. done.
    + unfold item. rewrite Hv'. simpl. intros [i ?%Hin%elem_of_dom]%elem_of_snd.
      apply (eq_None_not_Some (keys (w_jobs w) !! j_Key v)) in Hkn. done.
  - intros _ i k ?%Hin. rewrite Hk, dom_insert. set_solver.
Qed.

Lemma job_op_Inv p w : Inv w -> op_ok p w -> Inv (do_op p w).
Proof.
  intros Hw Hp. destruct p as [now o| |kept|now rand order o accept server a action key payload|i now o r|i now o u].
  - simpl. destruct (w_up w) eqn:Hup; [done|]. pose proof (boot_Inv now o w Hw Hup) as Hb.
    by destruct (NewJobs _ _ _) as [[] j].
  - apply down_Inv, Hw. done.
  - apply down_Inv; [done|]. apply power_loss_files, Hw.
  - by apply start_Inv.
  - by apply worker_step_Inv.
  - destruct (w_workers w !! i) as [[id []]|] eqn:Hi; [|by apply (run_update_Inv _ _ _ _ id)|..]; simpl; by rewrite Hi.
Qed.

Lemma jobs_reachable_Inv w : reachable w -> Inv w.
Proof. induction 1 as [|w p w' _ IH Hs]; [apply jobs_initial_Inv|]. destruct Hs. by apply job_op_Inv. Qed.
End safety.

(** * The promises of the job store

    The properties of the worlds of Jobs.v that follow from the invariant of
    JobsSafety.v, and what a restart makes of the jobs it finds. *)
Section theorems.
Context `{Hashing, ResultValues}.
Implicit Types (v : Job) (d : jobDisk) (s : Store) (j : Jobs) (w : World).

(** C27: (safety) an idempotency key is executed at most once, ever: in every world
    the job store can reach, through any interleaving, any failure of storage,
    any crash and any restart, no two runs have the same key. *)
Theorem key_executed_once w : reachable w -> NoDup (w_ran w).*2.
Proof. intros []%jobs_reachable_Inv. done. Qed.

(** (safety) an operation is executed only after its acceptance is durable:
    of every run in the history, the disk holds, after a power loss too, the
    file of the job with its key. *)
Theorem executed_after_acceptance w kept id k :
  reachable w -> (id, k) ∈ w_ran w ->
  exists d, visible (power_loss kept (dir (w_jobs w))) !! file_name id = Some d /\ d_Key d = k.
Proof.
  intros Hw%jobs_reachable_Inv Hr. pose proof (power_loss_files _ _ kept _ (inv_files _ Hw)) as Hf.
  destruct (f_ran _ _ _ Hf id k Hr) as (d & Hd & <-). by exists d.
Qed.

(** (safety) one operation at a time: at most one job has a goroutine, the
    store is marked busy with exactly that job, and it is marked free only when
    none has. *)
Theorem one_operation_at_a_time w :
  reachable w ->
  (length (w_workers w) <= 1)%nat /\ (busy (w_jobs w) = "" <-> w_workers w = []) /\
  forall id pc, (id, pc) ∈ w_workers w -> busy (w_jobs w) = id.
Proof.
  intros Hw%jobs_reachable_Inv. pose proof (inv_workers _ Hw) as Hwk.
  destruct (w_workers w) as [|[id pc] [|]]; simpl in *; [| |done].
  - split_and!; [lia|done|]. intros id pc []%not_elem_of_nil.
  - destruct Hwk as (Hb & Hne & _). split_and!; [lia| |].
    + split; [congruence|done].
    + intros id' pc' [= -> ->]%list_elem_of_singleton. done.
Qed.

(** (safety) a job tells the truth about its operation: it is reported as
    succeeded only when the operation returned without an error, or when the
    restart of ChatWire it asked for has taken place; as failed only when the
    operation returned an error, or was never executed at all. *)
Theorem reported_outcome_honest w id v :
  reachable w -> Get id (w_jobs w) = Some v ->
  (j_State v = "succeeded" ->
     (exists r, (id, RunOk r) ∈ w_returned w) \/
     j_Phase v = "reconnected" /\ j_Action v = "chatwire-restart" /\ exists k, (id, k) ∈ w_ran w) /\
  (j_State v = "failed" ->
     (exists r msg, (id, RunFailed r msg) ∈ w_returned w) \/ forall k, (id, k) ∉ w_ran w).
Proof.
  intros Hw%jobs_reachable_Inv Hv. destruct (data_item _ _ _ _ _ (inv_data _ Hw) Hv) as (<- & (Hs & Hf & _) & _).
  split; intros E.
  - destruct (Hs E) as [?|(? & ? & ?%elem_of_fst)]; [by left|right]. done.
  - destruct (Hf E) as [?|Hn]; [by left|right]. intros k ?. apply Hn, elem_of_fst. by exists k.
Qed.

(** ** Restarting *)
Definition settled (now : time) (v : Job) : Job :=
  if interrupted v then not_replayed now v else if restarted v then reconnected now v else v.

Lemma load_file_items now o d j :
  (load_file now o d j).1 = true ->
  items (load_file now o d j).2 = <[j_ID (d_Job d) := settled now (of_disk d)]> (items j).
Proof.
  unfold load_file, adjust, settled. cbv zeta. set (v := of_disk d).
  assert (Hid : j_ID (d_Job d) = j_ID v) by done. clearbody v. rewrite Hid. clear Hid d.
  destruct (negb _); [done|]. destruct (interrupted v) eqn:Hi.
  - destruct (save_frame o (not_replayed now v) j) as (Ei & _).
    destruct (save o (not_replayed now v) j) as [[] j1]; simpl in *; [|done]. intros _. by rewrite Ei.
  - simpl. destruct (restarted v).
    + destruct (save_frame o (reconnected now v) j) as (Ei & _).
      destruct (save o (reconnected now v) j) as [[] j1]; simpl in *; [|done]. intros _. by rewrite Ei.
    + done.
Qed.

Lemma load_files_items now o files j :
  (load_files now o files j).1 = true -> NoDup (map (fun f => j_ID (d_Job f.2)) files) ->
  forall id v, items (load_files now o files j).2 !! id = Some v <->
    (exists name d, (name, d) ∈ files /\ j_ID (d_Job d) = id /\ v = settled now (of_disk d)) \/
    items j !! id = Some v /\ id ∉ map (fun f => j_ID (d_Job f.2)) files.
Proof.
  revert j. induction files as [|[name d] files IH]; intros j; simpl.
  { intros _ _ id v. set_solver. }
  intros Hok Hnd id v. apply NoDup_cons in Hnd as [Hnin Hnd].
  pose proof (load_file_items now (o name) d j) as Hitems.
  destruct (load_file now (o name) d j) as [[] j1]; simpl in *; [|done].
  rewrite IH, Hitems by done. rewrite lookup_insert_Some, not_elem_of_cons. setoid_rewrite elem_of_cons. split.
  - intros [(n & d' & ? & ? & ?)|[[[<- <-]|[? ?]] ?]]; [left; eauto 6..|right; auto].
  - intros [(n & d' & [[= -> ->]|?] & <- & ->)|[? [? ?]]]; [right; by auto|left; eauto|right; auto].
Qed.

Lemma ReadDir_ids ran ret s :
  files_ok ran ret s -> NoDup (map (fun f : string * jobDisk => j_ID (d_Job f.2)) (ReadDir s)).
Proof.
  intros Hf. assert (Hn : forall name d, (name, d) ∈ ReadDir s -> name = file_name (j_ID (d_Job d))).
  { intros name d Hd%elem_of_ReadDir. by apply (f_name _ _ _ Hf). }
  assert (Hnd : NoDup (ReadDir s).*1).
  { unfold ReadDir. set (l := sort_strings _). assert (Hl : NoDup l) by apply NoDup_sort_strings, NoDup_elements.
    clearbody l. clear Hn. induction l as [|n l IHl]; simpl; [constructor|]. apply NoDup_cons in Hl as [Hnl Hl].
    destruct (visible s !! n); simpl; [|by apply IHl]. constructor; [|by apply IHl].
    intros [d Hd]%elem_of_fst. apply list_elem_of_omap in Hd as (n' & Hn' & E).
    destruct (visible s !! n'); simplify_eq/=. done. }
  revert Hn Hnd. generalize (ReadDir s). intros l Hn Hnd. induction l as [|[n d] l IHl]; simpl in *; [constructor|].
  apply NoDup_cons in Hnd as [Hnl Hnd]. constructor; [|apply IHl; [|done]; intros; apply Hn; by right].
  intros ([n' d'] & E & Hin)%list_elem_of_fmap. simpl in E. apply Hnl, elem_of_fst. exists d'.
  rewrite (Hn n d) by left. rewrite E, <-(Hn n' d'); [done|by right].
Qed.

(** (functional) a restart settles every job: it loads exactly the files of
    the directory; a job found queued, running or waiting becomes unknown and is
    never replayed, a restart of ChatWire that was on its way has succeeded, and
    every other job is as it was written. *)
Theorem restart_settles_jobs now o w :
  reachable w -> w_up w = false ->
  let w' := do_op (OpBoot now o) w in
  w_up w' = true ->
  w_workers w' = [] /\
  forall id v, Get id (w_jobs w') = Some v <->
    exists name d, visible (dir (w_jobs w)) !! name = Some d /\ j_ID (d_Job d) = id /\ v = settled now (of_disk d).
Proof.
  cbv zeta. intros Hw%jobs_reachable_Inv Hup. simpl. rewrite Hup. unfold NewJobs.
  pose proof (load_files_items now o (ReadDir (dir (w_jobs w))) (mkJobs ∅ ∅ "" ∅ (dir (w_jobs w)))) as Hl.
  destruct (load_files _ _ _ _) as [[] j1]; simpl in *; [|done]. intros _.
  split; [by apply inv_down|]. intros id v. unfold Get. rewrite Hl; [|done|by eapply ReadDir_ids, inv_files].
  rewrite lookup_empty. setoid_rewrite elem_of_ReadDir. naive_solver.
Qed.

Lemma settled_not_interrupted now v : interrupted (settled now v) = false /\ restarted (settled now v) = false.
Proof. unfold settled. destruct (interrupted v) eqn:?; [done|]. by destruct (restarted v) eqn:?. Qed.
End theorems.

(** ** A concrete run: one job executed, a crash, a restart *)
#[local] Instance plain_hash : Hashing := fun b => b.
#[local] Instance text_values : ResultValues :=
  {| json := list (string * string); json_strings := fun l => l; json_reload := fun l => l |}.

Definition alice : Actor := mkActor "100" "alice" false.
Definition rand_bytes (n : Z) : bytes := replicate 32 (byte_of n).
Definition all_saved : string -> save_outcome := fun _ => Saved.
Definition start_op (n : Z) (key : string) (accept : save_outcome) : job_op :=
  OpStart (1000 + n) (rand_bytes n) [] all_saved accept "alpha" alice "rcon" key "{}".
Definition work (n : Z) : job_op := OpWorker 0 (2000 + n) Saved (RunOk None).
Definition run_ops (l : list job_op) (w : World) : World := foldl (fun w p => do_op p w) w l.

Definition sample_executing : World := Eval vm_compute in run_ops [OpBoot 0 all_saved; start_op 1 "k1" Saved; work 1] initialWorld.
Definition sample_done : World := Eval vm_compute in run_ops [work 2; work 3; work 4] sample_executing.
Definition sample_crashed : World := Eval vm_compute in run_ops [OpDie] sample_executing.

(** Every operation of a run has to be one the program can meet. *)
Fixpoint ops_ok (l : list job_op) (w : World) : Prop :=
  match l with [] => True | p :: l => op_ok p w /\ ops_ok l (do_op p w) end.

Lemma run_reachable l w : reachable w -> ops_ok l w -> reachable (run_ops l w).
Proof.
  unfold run_ops. revert w. induction l as [|p l IH]; intros w Hw; simpl; [done|]. intros [Hp Hl]. apply IH; [|done].
  eapply reach_step; [done|]. by constructor.
Qed.

Lemma sample_executing_reachable : reachable sample_executing.
Proof.
  apply (run_reachable [OpBoot 0 all_saved; start_op 1 "k1" Saved; work 1] initialWorld); [constructor|].
  split_and!; try done; vm_compute; reflexivity.
Qed.

Lemma sample_done_reachable : reachable sample_done.
Proof. apply (run_reachable [work 2; work 3; work 4] sample_executing); [apply sample_executing_reachable|by split_and!]. Qed.

Lemma sample_crashed_reachable : reachable sample_crashed.
Proof. apply (run_reachable [OpDie] sample_executing); [apply sample_executing_reachable|by split_and!]. Qed.

Lemma key_executed_once_witness : NoDup (w_ran sample_done).*2 /\ length (w_ran sample_done) = 1%nat.
Proof. split; [apply (key_executed_once sample_done), sample_done_reachable|vm_compute; reflexivity]. Defined.

Definition sample_id : string := "job_" +:+ Token (rand_bytes 1).
Definition sample_key : string := request_key alice "alpha" "k1".

Lemma executed_after_acceptance_witness :
  exists d, visible (power_loss ∅ (dir (w_jobs sample_done))) !! file_name sample_id = Some d /\ d_Key d = sample_key.
Proof.
  apply (executed_after_acceptance sample_done ∅ sample_id sample_key); [apply sample_done_reachable|].
  vm_compute. left.
Defined.

Lemma one_operation_at_a_time_witness :
  (length (w_workers sample_executing) <= 1)%nat /\
  (busy (w_jobs sample_executing) = "" <-> w_workers sample_executing = []) /\
  forall id pc, (id, pc) ∈ w_workers sample_executing -> busy (w_jobs sample_executing) = id.
Proof. apply (one_operation_at_a_time sample_executing), sample_executing_reachable. Defined.

Lemma reported_outcome_honest_witness :
  exists v, Get sample_id (w_jobs sample_done) = Some v /\ j_State v = "succeeded" /\
    (exists r, (sample_id, RunOk r) ∈ w_returned sample_done).
Proof.
  destruct (Get sample_id (w_jobs sample_done)) as [v|] eqn:E; [|vm_compute in E; discriminate E].
  assert (Hst : j_State v = "succeeded" /\ j_Phase v = "complete") by (vm_compute in E; injection E as <-; by split).
  exists v. split; [done|]. split; [apply Hst|].
  destruct (reported_outcome_honest sample_done sample_id v) as [Hs _];
    [apply sample_done_reachable|exact E|].
  destruct (Hs (proj1 Hst)) as [?|(Hp & _)]; [done|]. destruct Hst as [_ Hp']. rewrite Hp in Hp'. discriminate Hp'.
Defined.

Lemma restart_settles_jobs_witness :
  exists v, Get sample_id (w_jobs (do_op (OpBoot 5000 all_saved) sample_crashed)) = Some v /\ j_State v = "unknown".
Proof.
  destruct (restart_settles_jobs 5000 all_saved sample_crashed) as [_ Hs];
    [apply sample_crashed_reachable|vm_compute; reflexivity|vm_compute; reflexivity|].
  destruct (visible (dir (w_jobs sample_crashed)) !! file_name sample_id) as [d|] eqn:E; [|vm_compute in E; discriminate E].
  assert (Hd : j_ID (d_Job d) = sample_id /\ interrupted (of_disk d) = true).
  { vm_compute in E. injection E as <-. split; vm_compute; reflexivity. }
  exists (settled 5000 (of_disk d)). split.
  - apply Hs. exists (file_name sample_id), d. split_and!; [exact E|apply Hd|done].
  - unfold settled. destruct Hd as [_ ->]. done.
Defined.
