(* ===== verification/JobsLookup.v ===== *)
(** * Finding an accepted job again

    A caller that lost the response of [Start] asks again with the same key, at
    any later time and after any number of restarts.  It finds its job, as long
    as no acceptance fails between the rename and the sync of the directory; the
    last theorem is the run in which that happens and the wrong job is found. *)
From Stdlib Require Import Ascii.
From S2P Require Import Prelude.
From S2P Require Import GoInt.
From S2P Require Import GoString.
From S2P Require Import GoTime.
From S2P Require Import WebProtocol.
From S2P Require Import Jobs.
From S2P Require Import JobsSafety.

Section lookup.
Context `{Hashing, ResultValues}.
Implicit Types (v : Job) (d : jobDisk) (s : Store) (j : Jobs) (w : World).

(** An acceptance that is not left half written. *)
Definition clean_op (p : job_op) : Prop :=
  match p with OpStart _ _ _ _ accept _ _ _ _ _ => accept <> Unsynced | _ => True end.

Inductive clean_run (w : World) : World -> Prop :=
  | clean_refl : clean_run w w
  | clean_step w1 p w2 : clean_run w w1 -> clean_op p -> step w1 p w2 -> clean_run w w2.

(** ** The files of different jobs have different keys *)
Definition keys_unique (s : Store) : Prop :=
  forall n n' d d', visible s !! n = Some d -> visible s !! n' = Some d' -> d_Key d = d_Key d' -> n = n'.

Definition keys_known (j : Jobs) : Prop :=
  forall n d, visible (dir j) !! n = Some d -> d_Key d ∈ dom (keys j).

Record Clean (w : World) : Prop := {
  cl_unique : keys_unique (dir (w_jobs w));
  cl_known : w_up w = true -> keys_known (w_jobs w)
}.

(** No new files and no new keys of files. *)
Lemma unique_le s s' : entries_le s' s -> keys_unique s -> keys_unique s'.
Proof.
  intros Hle Hu n n' d d' (d1 & ? & ? & ?)%Hle (d2 & ? & ? & ?)%Hle E. eapply Hu; [done..|congruence].
Qed.

Lemma known_le j j' : entries_le (dir j') (dir j) -> dom (keys j) ⊆ dom (keys j') -> keys_known j -> keys_known j'.
Proof. intros Hle Hk Hkn n d (d1 & Hd1 & E & _)%Hle. rewrite <-E. eapply Hk, Hkn, Hd1. Qed.

(** [s'] has no new files, and every durable file of [s]. *)
Definition durable_le (s s' : Store) : Prop :=
  forall n d, durable s !! n = Some d ->
    exists d', durable s' !! n = Some d' /\ d_Key d' = d_Key d /\ d_Hash d' = d_Hash d.
Definition evolves (s s' : Store) : Prop := entries_le s' s /\ durable_le s s'.

#[export] Instance durable_le_preorder : PreOrder durable_le.
Proof.
  split; [intros s n d ?; eauto|]. intros s1 s2 s3 H12 H23 n d (d2 & H2 & ? & ?)%H12.
  destruct (H23 n d2 H2) as (d3 & ? & ? & ?). exists d3. split_and!; congruence.
Qed.
#[export] Instance evolves_preorder : PreOrder evolves.
Proof. split; [by split|]. intros s1 s2 s3 [] []. split; by etrans. Qed.

Lemma save_durable ran ret o v j :
  files_ok ran ret (dir j) -> own_file (dir j) v -> durable_le (dir j) (dir (save o v j).2).
Proof.
  intros Hf Ho. destruct o; [|reflexivity|intros n d ?; eauto]. intros n d Hd.
  destruct (f_durable _ _ _ Hf n d Hd) as (d1 & (d2 & ? & ? & ?)%(save_le Saved v j Ho) & ? & ?).
  exists d2. split_and!; [done|congruence..].
Qed.

Lemma save_evolves ran ret o v j :
  files_ok ran ret (dir j) -> has_file (dir j) v -> evolves (dir j) (dir (save o v j).2).
Proof.
  intros Hok Hf. split; [|eapply save_durable; [done|by apply has_own_file]].
  destruct Hf as (d & Hd & Hk & Hh). destruct o; simpl; try reflexivity; intros n d'; simpl;
    (intros [[<- <-]|[_ ?]]%lookup_insert_Some; [exists d; split_and!; simpl; congruence|eauto]).
Qed.

Lemma Update_evolves ran ret now o id state phase result msg j :
  data_ok ran ret j -> evolves (dir j) (dir (Update now o id state phase result msg j).2).
Proof.
  intros Hd. unfold Update. destruct (items j !! id) as [v|] eqn:Hv; [|reflexivity]. cbv zeta.
  destruct (data_item _ _ _ _ _ Hd Hv) as (_ & _ & Hf). destruct Hd as [Hd _].
  pose proof (save_evolves ran ret o (outcome now state phase result msg v) j Hd Hf).
  destruct (save o _ j) as [[] j1]; done.
Qed.

Lemma finish_evolves ran ret now o id state phase result msg j :
  data_ok ran ret j -> is_Some (items j !! id) ->
  evolves (dir j) (dir (finish now o id state phase result msg j)).
Proof.
  intros Hd [v Hv]. unfold finish, item. rewrite Hv. simpl default. cbv zeta.
  destruct (data_item _ _ _ _ _ Hd Hv) as (_ & _ & Hf). destruct Hd as [Hd _].
  pose proof (save_evolves ran ret o (outcome now state phase result msg v) j Hd Hf).
  destruct (save o _ j) as [[] j1]; done.
Qed.

Lemma repair_evolves ran ret o ids j :
  data_ok ran ret j -> (forall id, id ∈ ids -> is_Some (items j !! id)) ->
  evolves (dir j) (dir (repair o ids j).2).
Proof.
  revert j. induction ids as [|id ids IH]; intros j Hd Hids; simpl; [reflexivity|].
  destruct (Hids id) as [v Hv]; [by left|]. unfold item. rewrite Hv. simpl default.
  destruct (data_item _ _ _ _ _ Hd Hv) as (_ & Hh & Hf).
  pose proof (data_save ran ret (o id) v j Hd Hh (has_own_file _ _ Hf)) as [Hf1 Hi1].
  pose proof (save_evolves ran ret (o id) v j (proj1 Hd) Hf) as Hge.
  destruct (save_frame (o id) v j) as (Ei & _ & _ & Ep).
  destruct (save (o id) v j) as [[] j1]; simpl in *; [|done].
  etrans; [done|]. set (j2 := j1 <| pending ::= fun p => p ∖ {[id]} |>).
  change (dir j1) with (dir j2). apply IH.
  - split; [done|]. eapply items_frame, Hi1; simpl; [done..|set_solver|reflexivity].
  - simpl. intros id' ?. rewrite Ei. apply Hids. by right.
Qed.

Lemma adjust_evolves ran ret b o v' v j :
  files_ok ran ret (dir j) -> has_file (dir j) v -> j_ID v' = j_ID v -> j_Key v' = j_Key v -> j_Hash v' = j_Hash v ->
  evolves (dir j) (dir (adjust b o v' v j).2).
Proof.
  intros Hok Hf ? ? ?. unfold adjust. destruct b; [|reflexivity].
  pose proof (save_evolves ran ret o v' j Hok) as Hge. destruct (save o v' j). apply Hge. by eapply has_file_same, Hf.
Qed.

Lemma load_file_evolves ran ret now o name d j :
  loading ran ret j -> listed ran ret (dir j) name d -> evolves (dir j) (dir (load_file now o d j).2).
Proof.
  intros Hl (Hname & Hh & Hfile). unfold load_file. cbv zeta. set (v := of_disk d).
  assert (Hhv : honest ran ret v) by (by eapply honest_id, Hh).
  assert (Hfv : has_file (dir j) v) by (destruct Hfile as (d' & ? & ? & ?); subst name; by exists d').
  clearbody v. destruct (negb (ValidID (j_ID v))); [reflexivity|].
  pose proof (adjust_evolves ran ret (interrupted v) o (not_replayed now v) v j (l_files _ _ _ Hl) Hfv
    eq_refl eq_refl eq_refl) as Hge1.
  destruct (adjust_spec ran ret (interrupted v) o (not_replayed now v) v j)
    as (ok & v1 & j1 & E1 & Hl1 & _ & _ & Hf1 & _); [done|done|by intros; apply honest_not_replayed|done..|].
  rewrite E1 in Hge1 |- *. destruct ok; simpl; [|done].
  pose proof (adjust_evolves ran ret (restarted v1) o (reconnected now v1) v1 j1 (l_files _ _ _ Hl1) Hf1
    eq_refl eq_refl eq_refl) as Hge2.
  destruct (adjust _ _ _ v1 j1) as [[[] v2] j2]; simpl in *; by etrans.
Qed.

Lemma load_files_evolves ran ret now o files j :
  loading ran ret j -> (forall name d, (name, d) ∈ files -> listed ran ret (dir j) name d) ->
  evolves (dir j) (dir (load_files now o files j).2).
Proof.
  revert j. induction files as [|[name d] files IH]; intros j Hl Hfiles; simpl; [reflexivity|].
  assert (Hd : listed ran ret (dir j) name d) by (apply Hfiles; by left).
  pose proof (load_file_evolves ran ret now (o name) name d j Hl Hd) as Hge.
  destruct (load_file_spec ran ret now (o name) name d j Hl Hd) as (Hl1 & Hle & _).
  destruct (load_file now (o name) d j) as [[] j1]; simpl in *; [|done].
  etrans; [done|]. apply IH; [done|]. intros name' d' Hin. eapply listed_le; [done|]. apply Hfiles. by right.
Qed.

Lemma power_loss_evolves ran ret kept s : files_ok ran ret s -> evolves s (power_loss kept s).
Proof.
  intros Hf. split; intros n d.
  - intros [[? _]|[Hd _]]%lookup_left; [eauto|]. destruct (f_durable _ _ _ Hf n d Hd) as (d' & ? & ? & ?). eauto.
  - intros Hd. destruct (decide (n ∈ kept)) as [?|?].
    + destruct (f_durable _ _ _ Hf n d Hd) as (d' & ? & ? & ?). exists d'. split; [|done].
      change (visible (power_loss kept s) !! n = Some d'). apply lookup_left. by left.
    + exists d. split; [|done]. change (visible (power_loss kept s) !! n = Some d). apply lookup_left. by right.
Qed.

Lemma Start_evolves ran ret now token order o accept server a action key payload j :
  data_ok ran ret j -> (forall id, id ∈ order -> is_Some (items j !! id)) -> accept <> Unsynced ->
  visible (dir j) !! file_name ("job_" +:+ token) = None ->
  match Start now token order o accept server a action key payload j with
  | (Ok (v, 202), j') =>
      durable_le (dir j) (dir j') /\ durable (dir j') !! file_name (j_ID v) = Some (to_disk v) /\
      exists s, entries_le s (dir j) /\ visible (dir j') = <[file_name (j_ID v) := to_disk v]> (visible s)
  | (_, j') => evolves (dir j) (dir j')
  end.
Proof.
  intros Hd Hids Ha Hfile. unfold Start. cbv zeta. destruct (keys j !! _) as [id|] eqn:Hk.
  { case_bool_decide; reflexivity. }
  case_bool_decide as Hb; [reflexivity|].
  destruct (repair_spec ran ret o order j Hd Hids) as ([Hf1 _] & _ & Hn1).
  pose proof (repair_evolves ran ret o order j Hd Hids) as [Hle1 Hdur1].
  destruct (repair o order j) as [ok j1]. simpl in *. destruct ok; simpl negb; cbv iota; [|done].
  set (v := accepted_job now token server a action key payload).
  assert (Hnv : visible (dir j1) !! file_name (j_ID v) = None) by exact (Hn1 _ Hfile).
  pose proof (save_durable ran ret accept v j1 Hf1 ltac:(intros d; by rewrite Hnv)) as Hdur.
  destruct accept; [|done|done]. simpl in *. split_and!; [by etrans|by rewrite lookup_insert_eq|].
  by exists (dir j1).
Qed.

(** ** Clean worlds stay clean, and durable files stay *)
Definition advances (w w' : World) : Prop := Clean w' /\ durable_le (dir (w_jobs w)) (dir (w_jobs w')).

Lemma evolve_advances w w' :
  Clean w -> evolves (dir (w_jobs w)) (dir (w_jobs w')) ->
  (w_up w' = true -> w_up w = true /\ dom (keys (w_jobs w)) ⊆ dom (keys (w_jobs w'))) -> advances w w'.
Proof.
  intros [Hu Hk] [Hle Hd] Hup. split; [|done]. constructor; [by eapply unique_le|].
  intros [Hup' Hdom]%Hup. eapply known_le; eauto.
Qed.

Lemma boot_advances now o w : Inv w -> Clean w -> w_up w = false -> advances w (do_op (OpBoot now o) w).
Proof.
  intros Hw Hc Hup. unfold do_op. rewrite Hup. unfold NewJobs. set (j0 := mkJobs ∅ ∅ "" ∅ (dir (w_jobs w))).
  assert (Hl : loading (w_ran w) (w_returned w) j0).
  { constructor; [apply Hw|apply empty_items|done]. }
  assert (Hfiles : forall name d, (name, d) ∈ ReadDir (dir (w_jobs w)) ->
    listed (w_ran w) (w_returned w) (dir j0) name d).
  { intros name d Hd%elem_of_ReadDir. destruct Hw as [[] ]. split_and!; eauto. }
  pose proof (load_files_evolves _ _ now o _ j0 Hl Hfiles) as [Hle Hd].
  destruct (load_files_spec _ _ now o (ReadDir (dir (w_jobs w))) j0 Hl Hfiles) as (_ & _ & Hall).
  destruct (load_files now o _ j0) as [[] j1]; simpl in *.
  - split; [|done]. constructor; simpl; [eapply unique_le; [done|apply Hc]|]. intros _ n d (d' & Hd' & <- & _)%Hle.
    eapply Hall; [done|]. by apply elem_of_ReadDir.
  - by apply evolve_advances.
Qed.

Lemma start_advances now rand order o accept server a action key payload w :
  let p := OpStart now rand order o accept server a action key payload in
  Inv w -> Clean w -> op_ok p w -> clean_op p -> advances w (do_op p w).
Proof.
  cbv zeta. intros Hw Hc (Hlen & Hnew & Hord) Ha. unfold do_op.
  destruct (w_up w) eqn:Hup; simpl negb; cbv iota; [|by split; [|reflexivity]].
  assert (Hids : forall id, id ∈ order -> is_Some (items (w_jobs w) !! id)).
  { intros id. rewrite Hord, elem_of_elements. apply Hw. }
  pose proof (Start_spec (w_ran w) (w_returned w) now (Token rand) order o accept server a action key payload
    (w_jobs w) (inv_data _ Hw) Hids Hnew) as Hs.
  pose proof (Start_evolves (w_ran w) (w_returned w) now (Token rand) order o accept server a action key payload
    (w_jobs w) (inv_data _ Hw) Hids Ha Hnew) as He.
  destruct (Start _ _ _ _ _ _ _ _ _ _ _) as [res j1]. cbv zeta.
  assert (Hother : evolves (dir (w_jobs w)) (dir j1) /\ keeps (w_jobs w) j1 -> advances w (w <| w_jobs := j1 |>)).
  { intros [? (_ & Hk & _)]. apply evolve_advances; [done..|]. simpl. by rewrite Hk. }
  destruct res as [[v st]|]; [|by apply Hother; split; [|apply Hs]].
  destruct (decide (st = 202)) as [->|Hne].
  2: { assert (Hs' : evolves (dir (w_jobs w)) (dir j1) /\ keeps (w_jobs w) j1)
         by (repeat case_match; first [done|by split; [|apply Hs]]).
       repeat case_match; first [done|by apply Hother]. }
  destruct He as (Hdur & _ & s & Hle & Hvis). destruct Hs as (_ & _ & _ & _ & _ & Hk & Hkn).
  assert (Hold : forall n d, visible s !! n = Some d -> d_Key d <> j_Key v).
  { intros n d (d' & Hd' & <- & _)%Hle E. apply (cl_known _ Hc Hup), elem_of_dom in Hd'.
    rewrite E, Hkn in Hd'. by destruct Hd'. }
  split; [|done]. constructor; simpl.
  - intros n n' d d'. rewrite Hvis.
    intros [[<- <-]|[_ H1]]%lookup_insert_Some [[<- <-]|[_ H2]]%lookup_insert_Some E; [done|exfalso..|].
    + by apply (Hold n' d').
    + by apply (Hold n d).
    + by eapply (unique_le _ _ Hle (cl_unique _ Hc)).
  - intros _ n d. rewrite Hvis, Hk, dom_insert. intros [[<- <-]|[_ (d' & Hd' & <- & _)%Hle]]%lookup_insert_Some; [set_solver|].
    apply elem_of_union_r. by apply (cl_known _ Hc Hup n).
Qed.

Lemma worker_advances i now o r w : Inv w -> Clean w -> advances w (worker_step i now o r w).
Proof.
  intros Hw Hc. pose proof (inv_data _ Hw) as Hd. unfold worker_step.
  destruct (w_workers w !! i) as [[id pc]|] eqn:Hi; [|by split; [|reflexivity]].
  destruct (the_worker w i id pc Hw Hi) as (_ & _ & _ & _ & (v & Hv & _) & Hpc & Hup).
  destruct pc as [| |state phase result msg|].
  - pose proof (Update_evolves _ _ now o id "running" "executing" None "" _ Hd) as He.
    destruct (Update_data (w_ran w) (w_returned w) now o id "running" "executing" None "" _ v Hd Hv) as [_ (_ & Hk & _)];
      [by apply honest_other|].
    destruct (Update now o id _ _ _ _ _) as [[] j1]; simpl in *; apply evolve_advances; simpl; rewrite ?Hk; done.
  - apply evolve_advances; [done|reflexivity|done].
  - pose proof (finish_evolves _ _ now o id state phase result msg _ Hd ltac:(eauto)) as He.
    destruct (finish_data _ _ now o id state phase result msg _ v Hd Hv Hpc) as [_ (_ & Hk & _)].
    apply evolve_advances; simpl; rewrite ?Hk; done.
  - apply evolve_advances; [done|..]; simpl; unfold release; case_bool_decide; try reflexivity; done.
Qed.

Lemma do_op_advances p w : Inv w -> Clean w -> op_ok p w -> clean_op p -> advances w (do_op p w).
Proof.
  intros Hw Hc Hp Ha. destruct p as [now o| |kept|now rand order o accept server a action key payload|i now o r|i now o u].
  - destruct (w_up w) eqn:Hup; [simpl; rewrite Hup; by split; [|reflexivity]|by apply boot_advances].
  - apply evolve_advances; [done|simpl; reflexivity|done].
  - apply evolve_advances; [done|apply (power_loss_evolves _ _ kept _ (inv_files _ Hw))|done].
  - by apply start_advances.
  - by apply worker_advances.
  - simpl. destruct (w_workers w !! i) as [[id pc]|] eqn:Hi; [|by split; [|reflexivity]].
    destruct pc; try by split; [|reflexivity].
    destruct (the_worker w i id _ Hw Hi) as (_ & _ & _ & _ & (v & Hv & Hid) & Hr & _).
    unfold item. rewrite Hv. simpl default.
    destruct (run_state (j_Action v) u) as [[[state phase] result]|] eqn:Hu; [|by split; [|reflexivity]].
    apply evolve_advances; [done|eapply (Update_evolves _ _ now o id), inv_data, Hw|]. simpl. intros Hup. split; [done|].
    unfold Update. rewrite Hv. cbv zeta. destruct (save_frame o (outcome now state phase result "" v) (w_jobs w)) as (_ & Ek & _).
    destruct (save _ _ _) as [[] ?]; simpl in *; by rewrite Ek.
Qed.

Lemma clean_run_advances w w' : Inv w -> Clean w -> clean_run w w' -> Inv w' /\ advances w w'.
Proof.
  intros Hw Hc. induction 1 as [|w1 p w2 _ [Hw1 [Hc1 Hd1]] Hp Hs]; [split; [done|by split; [|reflexivity]]|].
  destruct Hs as [p w1 Hop]. split; [by apply job_op_Inv|].
  destruct (do_op_advances p w1 Hw1 Hc1 Hop Hp). split; [done|by etrans].
Qed.

Lemma initial_Clean : Clean initialWorld.
Proof. constructor; [|done]. intros n n' d d'. simpl. by rewrite lookup_empty. Qed.

(** A durable file of a key is what the key leads to. *)
Lemma lookup_durable w id d server a action key payload :
  Inv w -> Clean w -> w_up w = true -> durable (dir (w_jobs w)) !! file_name id = Some d ->
  d_Key d = request_key a server key -> d_Hash d = request_hash action payload ->
  exists v, Lookup server a action key payload (w_jobs w) = Some (Ok v) /\ j_ID v = id.
Proof.
  intros Hw Hc Hup Hd Hkey Hhash. destruct (f_durable _ _ _ (inv_files _ Hw) _ _ Hd) as (d1 & Hd1 & E1 & E2).
  pose proof (cl_known _ Hc Hup _ _ Hd1) as [id' Hid']%elem_of_dom. rewrite E1, Hkey in Hid'.
  destruct (i_keys _ _ _ (inv_items _ Hw) _ _ Hid') as (v & Hv & Ev).
  destruct (data_item _ _ _ _ _ (inv_data _ Hw) Hv) as (Hid & _ & (d2 & Hd2 & E3 & E4)).
  assert (id = id') as <-.
  { apply file_name_inj. rewrite <-Hid. eapply (cl_unique _ Hc); [done..|]. congruence. }
  rewrite Hid in Hd2. simplify_eq. exists v. unfold Lookup, item. rewrite Hid', Hv. simpl.
  rewrite bool_decide_false; [done|]. intros []. congruence.
Qed.

(** (functional) an accepted job is never lost: whoever repeats the request
    with the same key, after whatever other operations, crashes, power losses and
    restarts, finds that very job, as long as no acceptance was interrupted
    between the rename and the sync of the directory. *)
Theorem accepted_job_found_again w now rand order o accept server a action key payload v j' w' :
  clean_run initialWorld w ->
  let p := OpStart now rand order o accept server a action key payload in
  op_ok p w -> clean_op p -> w_up w = true ->
  Start now (Token rand) order o accept server a action key payload (w_jobs w) = (Ok (v, 202), j') ->
  clean_run (do_op p w) w' -> w_up w' = true ->
  exists v', Lookup server a action key payload (w_jobs w') = Some (Ok v') /\ j_ID v' = j_ID v.
Proof.
  cbv zeta. intros Hr Hop Hcl Hup HS Hr' Hup'.
  destruct (clean_run_advances _ _ jobs_initial_Inv initial_Clean Hr) as [Hw [Hc _]].
  pose proof (job_op_Inv _ _ Hw Hop) as Hw1. destruct (do_op_advances _ _ Hw Hc Hop Hcl) as [Hc1 _].
  destruct (clean_run_advances _ _ Hw1 Hc1 Hr') as [Hw2 [Hc2 Hd2]].
  assert (Hids : forall id, id ∈ order -> is_Some (items (w_jobs w) !! id)).
  { destruct Hop as (_ & _ & Hord). intros id. rewrite Hord, elem_of_elements. apply Hw. }
  pose proof (Start_evolves (w_ran w) (w_returned w) now (Token rand) order o accept server a action key payload
    (w_jobs w) (inv_data _ Hw) Hids Hcl ltac:(apply Hop)) as He.
  pose proof (Start_spec (w_ran w) (w_returned w) now (Token rand) order o accept server a action key payload
    (w_jobs w) (inv_data _ Hw) Hids ltac:(apply Hop)) as Hs.
  unfold do_op in Hd2. rewrite Hup, HS in Hd2. simpl negb in Hd2. cbv iota zeta in Hd2. rewrite HS in He, Hs.
  destruct He as (_ & Hdv & _). destruct Hs as (-> & _). destruct (Hd2 _ _ Hdv) as (d & Hd & E1 & E2).
  by eapply lookup_durable.
Qed.
End lookup.

(** ** Concrete runs *)
#[local] Existing Instance plain_hash.
#[local] Existing Instance text_values.

(** The directory cannot be synced after the rename: the request is refused with
    status 500, its file stays.  The retry with the same key is accepted and
    succeeds.  After a restart the key leads to the file of the refused job. *)
Definition ghost_ops : list job_op :=
  [OpBoot 0 all_saved; start_op 2 "k1" Unsynced; start_op 1 "k1" Saved; work 1; work 2; work 3; work 4].
Definition ghost_before : World := Eval vm_compute in run_ops ghost_ops initialWorld.
Definition ghost_after : World := Eval vm_compute in run_ops [OpDie; OpBoot 9000 all_saved] ghost_before.
Definition found_state (w : World) : option (result string string) :=
  (fun r => match r with Ok v => Ok (j_State v) | Err e => Err e end) <$>
  Lookup "alpha" alice "rcon" "k1" "{}" (w_jobs w).

(** (error) an acceptance that fails after the rename leaves a file behind: the
    retry of the caller succeeds, and after the next restart the same request is
    answered with the job that was refused, of unknown outcome, instead of the
    one that succeeded. *)
Theorem refused_job_shadows_its_retry :
  reachable ghost_before /\ reachable ghost_after /\
  found_state ghost_before = Some (Ok "succeeded") /\ found_state ghost_after = Some (Ok "unknown") /\
  length (w_ran ghost_after) = 1%nat.
Proof.
  assert (Hb : reachable ghost_before).
  { apply (run_reachable ghost_ops initialWorld); [constructor|].
    split_and!; try done; vm_compute; reflexivity. }
  split_and!; [done| |vm_compute; reflexivity..].
  apply (run_reachable [OpDie; OpBoot 9000 all_saved] ghost_before); [done|by split_and!].
Qed.

Lemma run_clean l w0 w : Forall clean_op l -> ops_ok l w -> clean_run w0 w -> clean_run w0 (run_ops l w).
Proof.
  unfold run_ops. intros Hl. revert w. induction Hl as [|p l Hp _ IH]; intros w; simpl; [done|].
  intros [Hop Hok] Hr. apply IH; [done|]. eapply clean_step; [done|done|by constructor].
Qed.

Definition booted : World := Eval vm_compute in run_ops [OpBoot 0 all_saved] initialWorld.
Definition sample_restarted : World := Eval vm_compute in
  run_ops [start_op 1 "k1" Saved; work 1; work 2; OpPowerLoss ∅; OpBoot 9000 all_saved] booted.

Lemma accepted_job_found_again_witness :
  exists v', Lookup "alpha" alice "rcon" "k1" "{}" (w_jobs sample_restarted) = Some (Ok v') /\ j_ID v' = sample_id.
Proof.
  assert (Hop : op_ok (start_op 1 "k1" Saved) booted).
  { split_and!; try done; vm_compute; reflexivity. }
  apply (accepted_job_found_again booted 1001 (rand_bytes 1) [] all_saved Saved "alpha" alice "rcon" "k1" "{}"
    (accepted_job 1001 (Token (rand_bytes 1)) "alpha" alice "rcon" "k1" "{}")
    (Start 1001 (Token (rand_bytes 1)) [] all_saved Saved "alpha" alice "rcon" "k1" "{}" (w_jobs booted)).2
    sample_restarted).
  - apply (run_clean [OpBoot 0 all_saved] initialWorld initialWorld); [by repeat constructor|done|constructor].
  - exact Hop.
  - done.
  - vm_compute. reflexivity.
  - vm_compute. reflexivity.
  - set (w0 := do_op _ booted). set (l := [work 1; work 2; OpPowerLoss ∅; OpBoot 9000 all_saved]).
    assert (E : sample_restarted = run_ops l w0) by (vm_compute; reflexivity).
    rewrite E. clearbody w0.
    apply (run_clean l w0 w0); [by repeat constructor|exact (conj I (conj I (conj I (conj I I))))|constructor].
  - vm_compute. reflexivity.
Defined.
