(* ===== verification/Auth.v ===== *)
(** * Sessions of the web control: [src/webapi/auth.go]

    A Discord command issues a login link ([issue]); the browser fetches a nonce
    ([landing]) and exchanges both for a session ([exchange]); every request
    checks its session ([check]).  [exchange] and [check] ask Discord for the
    roles of the user without holding the mutex, so each is split where it
    unlocks, and a world holds the calls that are in flight. *)
From Stdlib Require Import Ascii.
From S2P Require Import Prelude.
From S2P Require Import GoInt.
From S2P Require Import GoString.
From S2P Require Import GoTime.
From S2P Require Import WebProtocol.

(** ** Who may sign in *)
Record Authorization := mkAuthorization {
  az_UserID : string;
  az_Name : string;
  az_GuildID : string;
  az_Roles : list string
}.

(** The part of the configuration the decision uses. *)
Record Config := mkConfig { c_GuildID : string; c_AdminRoleIDs : list string; c_ModeratorRoleIDs : list string }.

Definition has_role (allowed : list string) (v : Authorization) : bool :=
  existsb (fun r => bool_decide (r ∈ allowed)) (az_Roles v).

(** [Config.actor]. *)
Definition actor (c : Config) (v : Authorization) : result string Actor :=
  if bool_decide (az_GuildID v <> c_GuildID c) || bool_decide (az_UserID v = "")
  then Err "guild membership required"
  else
    let admin := has_role (c_AdminRoleIDs c) v in
    let moderator := has_role (c_ModeratorRoleIDs c) v in
    if negb admin && negb moderator then Err "moderator role required"
    else Ok (mkActor (az_UserID v) (az_Name v) admin).

(** The [authorize] callback that [New] in [server.go] installs; [resp] is what
    the primary instance answered, [None] a failed request. *)
Definition authorize (c : Config) (resp : option Authorization) (id : string) : result string Actor :=
  match resp with
  | None => Err "cannot verify Discord membership"
  | Some a => if bool_decide (az_UserID a <> id) then Err "identity mismatch" else actor c a
  end.

(** ** State *)
Record loginGrant := mkGrant { lg_UserID : string; lg_Expires : time }.
Record session := mkSession {
  s_Actor : Actor;
  s_CSRF : string;
  s_Created : time;
  s_Seen : time;
  s_Checked : time;
  s_Epoch : Z
}.
#[export] Instance session_settable : Settable session := mkSettable (fun r =>
  mkSession (s_Actor r) (s_CSRF r) (s_Created r) (s_Seen r) (s_Checked r) (s_Epoch r)).

Record Auth := mkAuth {
  grants : gmap string loginGrant;
  sessions : gmap string session;
  nonces : gmap string time;
  interactions : gmap string time;
  issued : gmap string time;
  epochs : gmap string Z
}.
#[export] Instance Auth_settable : Settable Auth := mkSettable (fun r =>
  mkAuth (grants r) (sessions r) (nonces r) (interactions r) (issued r) (epochs r)).

Definition newAuth : Auth := mkAuth ∅ ∅ ∅ ∅ ∅ ∅.
Definition epoch (user : string) (a : Auth) : Z := default 0 (epochs a !! user).

Definition session_alive (now : time) (s : session) : bool :=
  negb ((8 * Hour <=? Sub now (s_Created s)) || (30 * Minute <=? Sub now (s_Seen s))).

Definition prune (now : time) (a : Auth) : Auth :=
  a <| grants ::= filter (fun e => Before now (lg_Expires e.2)) |>
    <| nonces ::= filter (fun e => Before now e.2) |>
    <| sessions ::= filter (fun e => session_alive now e.2) |>
    <| interactions ::= filter (fun e => negb (10 * Minute <? Sub now e.2)) |>
    <| issued ::= filter (fun e => negb (Minute <? Sub now e.2)) |>.

Section auth.
Context `{Hashing}.
Variable c : Config.

(** ** Issuing a link *)
Definition drop_grants (user : string) : gmap string loginGrant -> gmap string loginGrant :=
  filter (fun e => lg_UserID e.2 <> user).

(** The two readings of the clock are those of [prune] and of [issue]. *)
Definition issue (now now' : time) (token : string) (resp : option Authorization) (userID interactionID : string)
    (a : Auth) : result string (string * time) * Auth :=
  if negb (ValidID userID) || negb (ValidID interactionID) then (Err "invalid identity", a)
  else
    match authorize c resp userID with
    | Err e => (Err e, a)
    | Ok _ =>
        let a := prune now a in
        match interactions a !! interactionID with
        | Some _ => (Err "interaction already used; run /web again", a)
        | None =>
            if match issued a !! userID with Some last => Sub now' last <? 5 * Second | None => false end
            then (Err "wait a few seconds before requesting another link", a)
            else if 1000 <=? Z.of_nat (size (grants a)) then (Err "too many pending logins", a)
            else
              let expires := Add now' (2 * Minute) in
              (Ok (token, expires),
               a <| grants ::= fun g => <[Digest token := mkGrant userID expires]> (drop_grants userID g) |>
                 <| interactions ::= <[interactionID := now']> |> <| issued ::= <[userID := now']> |>)
        end
    end.

Definition landing (now now' : time) (token : string) (a : Auth) : result string string * Auth :=
  let a := prune now a in
  if 10000 <=? Z.of_nat (size (nonces a)) then (Err "too many login requests", a)
  else (Ok token, a <| nonces ::= <[Digest token := Add now' (5 * Minute)]> |>).

(** ** Exchanging a link for a session *)
Record exchange_call := mkExchange { x_digest : string; x_nonce : string; x_user : string; x_epoch : Z }.

(** The first half, up to the call of [authorize]. *)
Definition exchange_begin (now : time) (token nonceToken : string) (a : Auth) : result string exchange_call * Auth :=
  let a := prune now a in
  match grants a !! Digest token, nonces a !! Digest nonceToken with
  | Some g, Some _ => (Ok (mkExchange (Digest token) (Digest nonceToken) (lg_UserID g) (epoch (lg_UserID g) a)), a)
  | _, _ => (Err "invalid or expired login; run /web again", a)
  end.

Definition exchange_end (now now' : time) (raw csrf : string) (resp : option Authorization) (x : exchange_call) (a : Auth)
    : result string (string * session) * Auth :=
  match authorize c resp (x_user x) with
  | Err e => (Err e, a)
  | Ok who =>
      let a := prune now a in
      match grants a !! x_digest x with
      | None => (Err "login link already used", a)
      | Some _ =>
          if bool_decide (nonces a !! x_nonce x = None) || bool_decide (epoch (x_user x) a <> x_epoch x)
          then (Err "login revoked", a)
          else
            let s := mkSession who csrf now' now' now' (x_epoch x) in
            (Ok (raw, s), a <| grants ::= delete (x_digest x) |> <| nonces ::= delete (x_nonce x) |>
                            <| sessions ::= <[Digest raw := s]> |>)
      end
  end.

(** ** Revoking and signing out *)
Definition drop_sessions (user : string) : gmap string session -> gmap string session :=
  filter (fun e => a_ID (s_Actor e.2) <> user).

Definition revoke (user : string) (a : Auth) : Auth :=
  a <| epochs ::= <[user := wrap 64 (epoch user a + 1)]> |> <| grants ::= drop_grants user |>
    <| sessions ::= drop_sessions user |>.

Definition logout (raw : string) (a : Auth) : Auth := a <| sessions ::= delete (Digest raw) |>.

(** ** Checking a session *)
Record check_call := mkCheck { k_key : string; k_touch : bool; k_begun : time; k_session : session }.
#[export] Instance check_settable : Settable check_call := mkSettable (fun r =>
  mkCheck (k_key r) (k_touch r) (k_begun r) (k_session r)).

(** Until the mutex is released; [now'] is the reading that decides whether the
    roles are asked again. *)
Definition check_begin (now now' : time) (raw : string) (touch : bool) (a : Auth) : result string check_call * Auth :=
  let a := prune now a in
  match sessions a !! Digest raw with
  | None => (Err "sign in using /web in Discord", a)
  | Some s => (Ok (mkCheck (Digest raw) touch now' s), a)
  end.

Definition check_due (k : check_call) : bool := Minute <=? Sub (k_begun k) (s_Checked (k_session k)).

(** The refresh of the roles, where it is due. *)
Definition check_authorize (checked : time) (resp : option Authorization) (k : check_call) (a : Auth)
    : result string check_call * Auth :=
  if check_due k then
    match authorize c resp (a_ID (s_Actor (k_session k))) with
    | Err e => (Err e, revoke (a_ID (s_Actor (k_session k))) a)
    | Ok who => (Ok (k <| k_session ::= fun s => s <| s_Actor := who |> <| s_Checked := checked |> |>), a)
    end
  else (Ok k, a).

Definition check_end (now now' : time) (k : check_call) (a : Auth) : result string session * Auth :=
  let a := prune now a in
  let s := k_session k in
  match sessions a !! k_key k with
  | None => (Err "session revoked", a)
  | Some current =>
      if bool_decide (epoch (a_ID (s_Actor s)) a <> s_Epoch s) then (Err "session revoked", a)
      else
        let current := if After (s_Checked s) (s_Checked current)
                       then current <| s_Actor := s_Actor s |> <| s_Checked := s_Checked s |> else current in
        let current := if k_touch k && After now' (s_Seen current) then current <| s_Seen := now' |> else current in
        (Ok current, a <| sessions ::= <[k_key k := current]> |>)
  end.

(** ** Worlds

    A call of [check] is first waiting for the roles, then for the mutex.
    [w_digests] are the digests of all tokens given out, [w_exchanged] the links
    that became sessions, with the session, its user and its time. *)
Record World := mkWorld {
  w_auth : Auth;
  w_now : time;
  w_exchanges : list exchange_call;
  w_checks : list (bool * check_call);
  w_digests : list string;
  w_exchanged : list (string * (string * string * time));
  w_authorized : list Actor
}.
#[export] Instance World_settable : Settable World := mkSettable (fun r =>
  mkWorld (w_auth r) (w_now r) (w_exchanges r) (w_checks r) (w_digests r) (w_exchanged r) (w_authorized r)).
Definition initialWorld : World := mkWorld newAuth 0 [] [] [] [] [].

Inductive auth_op :=
  | OpIssue (now now' : time) (token : string) (resp : option Authorization) (userID interactionID : string)
  | OpLanding (now now' : time) (token : string)
  | OpExchangeBegin (now : time) (token nonceToken : string)
  | OpExchangeEnd (i : nat) (now now' : time) (raw csrf : string) (resp : option Authorization)
  | OpCheckBegin (now now' : time) (raw : string) (touch : bool)
  | OpCheckAuthorize (i : nat) (checked : time) (resp : option Authorization)
  | OpCheckEnd (i : nat) (now now' : time)
  | OpRevoke (user : string)
  | OpLogout (raw : string).

(** The clock readings of an operation, oldest first. *)
Definition op_times (p : auth_op) : list time :=
  match p with
  | OpIssue t t' _ _ _ _ | OpLanding t t' _ | OpExchangeEnd _ t t' _ _ _ | OpCheckBegin t t' _ _ | OpCheckEnd _ t t' => [t; t']
  | OpExchangeBegin t _ _ | OpCheckAuthorize _ t _ => [t]
  | _ => []
  end.

(** The token an operation draws. *)
Definition op_token (p : auth_op) : option string :=
  match p with
  | OpIssue _ _ token _ _ _ | OpLanding _ _ token | OpExchangeEnd _ _ _ token _ _ => Some token
  | _ => None
  end.

(** Time goes forward, and a random token is not one that was given out before. *)
Definition op_ok (p : auth_op) (w : World) : Prop :=
  (forall t, op_times p = [t] -> w_now w <= t /\ modern t) /\
  (forall t t', op_times p = [t; t'] -> w_now w <= t <= t' /\ modern t /\ modern t') /\
  (forall token, op_token p = Some token -> Digest token ∉ w_digests w).

Definition authorized_by (resp : option Authorization) (id : string) (w : World) : World :=
  match authorize c resp id with Ok who => w <| w_authorized ::= cons who |> | Err _ => w end.

Definition advance (p : auth_op) (w : World) : World :=
  w <| w_now := default (w_now w) (last (op_times p)) |>
    <| w_digests ::= match op_token p with Some token => cons (Digest token) | None => id end |>.

Definition run_op (p : auth_op) (w : World) : World :=
  match p with
  | OpIssue now now' token resp userID interactionID =>
      authorized_by resp userID (w <| w_auth := (issue now now' token resp userID interactionID (w_auth w)).2 |>)
  | OpLanding now now' token => w <| w_auth := (landing now now' token (w_auth w)).2 |>
  | OpExchangeBegin now token nonceToken =>
      let '(r, a) := exchange_begin now token nonceToken (w_auth w) in
      w <| w_auth := a |> <| w_exchanges ::= fun l => match r with Ok x => l ++ [x] | Err _ => l end |>
  | OpExchangeEnd i now now' raw csrf resp =>
      match w_exchanges w !! i with
      | None => w
      | Some x =>
          let '(r, a) := exchange_end now now' raw csrf resp x (w_auth w) in
          authorized_by resp (x_user x)
            (w <| w_auth := a |> <| w_exchanges ::= delete i |>
               <| w_exchanged ::= match r with
                                  | Ok _ => cons (x_digest x, (Digest raw, x_user x, now'))
                                  | Err _ => id
                                  end |>)
      end
  | OpCheckBegin now now' raw touch =>
      let '(r, a) := check_begin now now' raw touch (w_auth w) in
      w <| w_auth := a |> <| w_checks ::= fun l => match r with Ok k => l ++ [(false, k)] | Err _ => l end |>
  | OpCheckAuthorize i checked resp =>
      match w_checks w !! i with
      | Some (false, k) =>
          let '(r, a) := check_authorize checked resp k (w_auth w) in
          (if check_due k then authorized_by resp (a_ID (s_Actor (k_session k))) else id)
            (w <| w_auth := a |> <| w_checks ::= fun l => match r with Ok k => <[i := (true, k)]> l | Err _ => delete i l end |>)
      | _ => w
      end
  | OpCheckEnd i now now' =>
      match w_checks w !! i with
      | Some (true, k) => w <| w_auth := (check_end now now' k (w_auth w)).2 |> <| w_checks ::= delete i |>
      | _ => w
      end
  | OpRevoke user => w <| w_auth ::= revoke user |>
  | OpLogout raw => w <| w_auth ::= logout raw |>
  end.

Definition do_op (p : auth_op) (w : World) : World := advance p (run_op p w).

Inductive run (allowed : auth_op -> Prop) (w : World) : World -> Prop :=
  | run_refl : run allowed w w
  | run_step w1 p : run allowed w w1 -> op_ok p w1 -> allowed p -> run allowed w (do_op p w1).
Definition reachable (w : World) : Prop := run (fun _ => True) initialWorld w.
End auth.
