(* ===== verification/AuthSafety.v ===== *)
(** * What the session store guarantees

    A link becomes at most one session; a session ends at the latest eight hours
    after its link was used; a revocation is final, also for calls that were in
    flight; the tables are bounded. *)
From Stdlib Require Import Ascii.
From S2P Require Import Prelude.
From S2P Require Import GoInt.
From S2P Require Import GoString.
From S2P Require Import GoTime.
From S2P Require Import WebProtocol.
From S2P Require Import Auth.

Section safety.
Context `{Hashing}.
Variable c : Config.
Implicit Types (a : Auth) (s : session) (k : check_call) (x : exchange_call) (w : World).

(** ** Who is authorized *)
Lemma has_role_true allowed v : has_role allowed v = true <-> exists r, r ∈ az_Roles v /\ r ∈ allowed.
Proof.
  unfold has_role. rewrite existsb_exists. setoid_rewrite bool_decide_eq_true. setoid_rewrite list_elem_of_In.
  naive_solver.
Qed.

(** (functional) exactly the members of the guild who have a moderator or an
    administrator role are authorized, under the identity that was asked for, and
    an administrator is whoever has an administrator role. *)
Theorem authorized_exactly resp id who :
  authorize c resp id = Ok who <->
  exists v, resp = Some v /\ az_UserID v = id /\ id <> "" /\ az_GuildID v = c_GuildID c /\
    (exists r, r ∈ az_Roles v /\ (r ∈ c_AdminRoleIDs c \/ r ∈ c_ModeratorRoleIDs c)) /\
    a_ID who = id /\ a_Name who = az_Name v /\
    (a_Admin who = true <-> exists r, r ∈ az_Roles v /\ r ∈ c_AdminRoleIDs c).
Proof.
  assert (Hadm := fun v => has_role_true (c_AdminRoleIDs c) v).
  assert (Hmod := fun v => has_role_true (c_ModeratorRoleIDs c) v).
  unfold authorize, actor. split.
  - destruct resp as [v|]; [|done]. case_bool_decide as Hid; [done|].
    destruct (bool_decide (az_GuildID v <> _) || _) eqn:Eg; [done|]. bool_hyps.
    specialize (Hadm v). specialize (Hmod v).
    destruct (has_role (c_AdminRoleIDs c) v), (has_role (c_ModeratorRoleIDs c) v); simpl; try done;
      intros [= <-]; exists v; simpl; split_and!; try done; try (by apply dec_stable); try naive_solver.
  - intros (v & -> & <- & Hne & Hg & Hr & Hi & Hn & Hb). rewrite !bool_decide_false by naive_solver. simpl.
    specialize (Hadm v). specialize (Hmod v). destruct who as [i n b]; simpl in *; subst.
    destruct (has_role (c_AdminRoleIDs c) v), (has_role (c_ModeratorRoleIDs c) v), b; simpl; try done; naive_solver.
Qed.

Lemma authorize_id resp id who : authorize c resp id = Ok who -> a_ID who = id.
Proof. intros (v & -> & <- & _ & _ & _ & ? & _)%authorized_exactly. done. Qed.

(** ** Pruning *)
Lemma prune_grants t a d g : grants (prune t a) !! d = Some g -> grants a !! d = Some g.
Proof. simpl. intros [? _]%map_lookup_filter_Some. done. Qed.
Lemma prune_sessions t a key s :
  sessions (prune t a) !! key = Some s <-> sessions a !! key = Some s /\ session_alive t s = true.
Proof. simpl. rewrite map_lookup_filter_Some. simpl. by rewrite Is_true_true. Qed.
Lemma drop_sessions_Some user m key s :
  drop_sessions user m !! key = Some s <-> m !! key = Some s /\ a_ID (s_Actor s) <> user.
Proof. unfold drop_sessions. by rewrite map_lookup_filter_Some. Qed.
Lemma drop_grants_Some user m d g : drop_grants user m !! d = Some g <-> m !! d = Some g /\ lg_UserID g <> user.
Proof. unfold drop_grants. by rewrite map_lookup_filter_Some. Qed.

(** ** The invariant *)
Notation exchange_log := (list (string * (string * string * time))).
Definition session_keys (l : exchange_log) : list string := map (fun e => e.2.1.1) l.

(** A session, in the table or in the hands of a call: the link it came from, its
    user, its creation and who was authorized. *)
Record ok_session (w : World) (key : string) (s : session) : Prop := {
  os_link : exists d, (d, (key, a_ID (s_Actor s), s_Created s)) ∈ w_exchanged w;
  os_actor : s_Actor s ∈ w_authorized w;
  os_times : modern (s_Created s) /\ modern (s_Seen s) /\ modern (s_Checked s)
}.

Record ok_check (w : World) (ready : bool) (k : check_call) : Prop := {
  ok_snapshot : ok_session w (k_key k) (k_session k);
  ok_begun : modern (k_begun k) /\ k_begun k <= w_now w;
  ok_ready : ready = true -> k_begun k - s_Checked (k_session k) < Minute
}.

Record Inv (w : World) : Prop := {
  v_now : modern (w_now w);
  v_grant d g : grants (w_auth w) !! d = Some g -> d ∈ w_digests w;
  v_exchange x : x ∈ w_exchanges w -> x_digest x ∈ w_digests w /\
    forall g, grants (w_auth w) !! x_digest x = Some g -> lg_UserID g = x_user x;
  v_once : NoDup (w_exchanged w).*1;
  v_used d : d ∈ (w_exchanged w).*1 -> d ∈ w_digests w /\ grants (w_auth w) !! d = None;
  v_keys : NoDup (session_keys (w_exchanged w));
  v_key key : key ∈ session_keys (w_exchanged w) -> key ∈ w_digests w;
  v_session key s : sessions (w_auth w) !! key = Some s -> ok_session w key s;
  v_check b k : (b, k) ∈ w_checks w -> ok_check w b k
}.

(** What only grows. *)
Record grows (w w' : World) : Prop := {
  g_now : w_now w <= w_now w' /\ modern (w_now w');
  g_digests : w_digests w ⊆ w_digests w';
  g_exchanged : w_exchanged w ⊆ w_exchanged w';
  g_authorized : w_authorized w ⊆ w_authorized w'
}.

Lemma ok_session_grows w w' key s : grows w w' -> ok_session w key s -> ok_session w' key s.
Proof. intros [_ _ He Ha] [[d Hd] ? ?]. constructor; [exists d; by apply He|by apply Ha|done]. Qed.

Lemma ok_check_grows w w' b k : grows w w' -> ok_check w b k -> ok_check w' b k.
Proof.
  intros Hg [? [? ?] ?]. constructor; [by eapply ok_session_grows|split; [done|]|done].
  destruct Hg as [[? _] _ _ _]. unfold time in *. lia.
Qed.

(** An operation preserves the invariant when all it adds is right. *)
Lemma Inv_step w w' :
  Inv w -> grows w w' ->
  (w_exchanged w' = w_exchanged w \/
   exists d key u t, w_exchanged w' = (d, (key, u, t)) :: w_exchanged w /\ d ∈ w_digests w /\ key ∈ w_digests w' /\
     d ∉ (w_exchanged w).*1 /\ key ∉ w_digests w /\ grants (w_auth w') !! d = None) ->
  (forall d g, grants (w_auth w') !! d = Some g ->
     grants (w_auth w) !! d = Some g \/ d ∈ w_digests w' /\ d ∉ w_digests w) ->
  (forall x, x ∈ w_exchanges w' -> x ∈ w_exchanges w \/
     exists g, grants (w_auth w) !! x_digest x = Some g /\ x_user x = lg_UserID g) ->
  (forall key s, sessions (w_auth w') !! key = Some s -> sessions (w_auth w) !! key = Some s \/ ok_session w' key s) ->
  (forall b k, (b, k) ∈ w_checks w' -> (b, k) ∈ w_checks w \/ ok_check w' b k) ->
  Inv w'.
Proof.
  intros [] Hgr Hex Hg Hx Hs Hk. pose proof Hgr as [[? ?] Hd _ _].
  assert (Hgone : forall d, d ∈ (w_exchanged w).*1 -> grants (w_auth w') !! d = None).
  { intros d Hin. destruct (v_used0 d Hin) as [Hdd Hno]. destruct (grants (w_auth w') !! d) eqn:E; [|done].
    destruct (Hg _ _ E) as [?|[_ ?]]; [congruence|done]. }
  constructor; [done|..].
  - intros d g E. destruct (Hg d g E) as [?|[? _]]; [|done]. apply Hd. eauto.
  - intros x Hin. assert (Hx' : x_digest x ∈ w_digests w /\
      forall g, grants (w_auth w) !! x_digest x = Some g -> lg_UserID g = x_user x).
    { destruct (Hx x Hin) as [?|(g & Hgx & ->)]; [auto|]. split; [eauto|]. intros g' ?. by simplify_eq. }
    destruct Hx' as [Hxd Hxg]. split; [by apply Hd|]. intros g [?|[_ ?]]%Hg; [auto|done].
  - destruct Hex as [->|(d & key & u & t & -> & _ & _ & ? & _)]; [done|]. by constructor.
  - destruct Hex as [->|(d & key & u & t & -> & ? & _ & _ & _ & ?)]; simpl; intros d'.
    + intros Hin. split; [apply Hd; by apply v_used0|auto].
    + intros [->|Hin]%elem_of_cons; [split; [by apply Hd|done]|]. split; [apply Hd; by apply v_used0|auto].
  - destruct Hex as [->|(d & key & u & t & -> & _ & _ & _ & Hn & _)]; [done|]. simpl. constructor; [|done].
    intros ?%v_key0. done.
  - destruct Hex as [->|(d & key & u & t & -> & _ & ? & _)]; simpl; intros key'; [intros ?; apply Hd; auto|].
    intros [->|?]%elem_of_cons; [done|]. apply Hd. auto.
  - intros key s [?|?]%Hs; [|done]. eapply ok_session_grows; eauto.
  - intros b k [?|?]%Hk; [|done]. eapply ok_check_grows; eauto.
Qed.

(** ** Every operation preserves it *)
Lemma authorized_by_frame resp id w :
  w_auth (authorized_by c resp id w) = w_auth w /\ w_now (authorized_by c resp id w) = w_now w /\
  w_exchanges (authorized_by c resp id w) = w_exchanges w /\ w_checks (authorized_by c resp id w) = w_checks w /\
  w_digests (authorized_by c resp id w) = w_digests w /\ w_exchanged (authorized_by c resp id w) = w_exchanged w /\
  w_authorized w ⊆ w_authorized (authorized_by c resp id w) /\
  (forall who, authorize c resp id = Ok who -> who ∈ w_authorized (authorized_by c resp id w)).
Proof.
  unfold authorized_by. destruct (authorize c resp id) as [who|]; simpl; split_and!; try done; [set_solver|].
  intros ? [= ->]. by left.
Qed.

Lemma op_ok_now p w : op_ok p w -> modern (w_now w) ->
  w_now w <= default (w_now w) (last (op_times p)) /\ modern (default (w_now w) (last (op_times p))).
Proof.
  intros (H1 & H2 & _) Hm. destruct p; simpl in *;
    try (destruct (H1 _ eq_refl); by split); try (destruct (H2 _ _ eq_refl) as (? & ? & ?); split; [unfold time in *; lia|done]);
    by split.
Qed.

(** The world after an operation that logs no exchange and no authorization. *)
Lemma advance_grows p w w1 :
  op_ok p w -> modern (w_now w) -> w_now w1 = w_now w -> w_digests w1 = w_digests w ->
  w_exchanged w ⊆ w_exchanged w1 -> w_authorized w ⊆ w_authorized w1 -> grows w (advance p w1).
Proof.
  intros Hop Hm Hn Hd He Ha. pose proof (op_ok_now p w Hop Hm) as [? ?]. constructor; simpl; rewrite ?Hn, ?Hd; [by split| |done..].
  destruct (op_token p); set_solver.
Qed.

Lemma op_fresh p w token : op_ok p w -> op_token p = Some token -> Digest token ∉ w_digests w.
Proof. intros (_ & _ & Hf). auto. Qed.

Lemma issue_spec now now' token resp userID interactionID a d g :
  grants (issue c now now' token resp userID interactionID a).2 !! d = Some g ->
  grants a !! d = Some g \/ d = Digest token /\ lg_UserID g = userID.
Proof.
  unfold issue. repeat case_match; simpl; try tauto; try (intros ?%prune_grants; tauto).
  all: intros [[<- <-]|[_ [?%prune_grants _]%drop_grants_Some]]%lookup_insert_Some; tauto.
Qed.

Lemma issue_sessions now now' token resp userID interactionID a :
  sessions (issue c now now' token resp userID interactionID a).2 ⊆ sessions a.
Proof.
  unfold issue. repeat case_match; simpl; try done; apply map_filter_subseteq.
Qed.

Lemma issue_Inv now now' token resp userID interactionID w :
  let p := OpIssue now now' token resp userID interactionID in
  Inv w -> op_ok p w -> Inv (do_op c p w).
Proof.
  cbv zeta. intros Hw Hop. unfold do_op, run_op. set (w1 := w <| w_auth := _ |>).
  destruct (authorized_by_frame resp userID w1) as (Ea & En & Ex & Ek & Ed & Ee & Hau & _).
  apply (Inv_step w); [done|..].
  - apply advance_grows; [done|apply Hw|done|done|by rewrite Ee|done].
  - left. by simpl; rewrite Ee.
  - simpl. rewrite Ea, Ed. simpl. intros d g [?|[-> _]]%issue_spec; [by left|right].
    split; [by left|by eapply op_fresh].
  - simpl. rewrite Ex. auto.
  - simpl. rewrite Ea. simpl. intros key s Hs. left. by eapply lookup_weaken, issue_sessions.
  - simpl. rewrite Ek. auto.
Qed.

Lemma landing_Inv now now' token w :
  let p := OpLanding now now' token in Inv w -> op_ok p w -> Inv (do_op c p w).
Proof.
  cbv zeta. intros Hw Hop. unfold do_op, run_op. apply (Inv_step w); [done|..].
  - apply advance_grows; [done|apply Hw|done..].
  - by left.
  - simpl. unfold landing. intros d g. case_match; simpl; intros [? _]%map_lookup_filter_Some; eauto.
  - auto.
  - simpl. unfold landing. intros key s. case_match; simpl; intros [? _]%map_lookup_filter_Some; eauto.
  - auto.
Qed.

Lemma exchange_begin_shape now token nonceToken a :
  let '(r, a') := exchange_begin now token nonceToken a in
  a' = prune now a /\
  match r with Ok x => exists g, grants a !! x_digest x = Some g /\ x_user x = lg_UserID g | Err _ => True end.
Proof.
  unfold exchange_begin. cbv zeta.
  destruct (grants (prune now a) !! Digest token) as [g|] eqn:Eg; [|done].
  destruct (nonces (prune now a) !! Digest nonceToken); [|done]. split; [done|]. exists g.
  split; [by eapply prune_grants|done].
Qed.

Lemma exchange_begin_Inv now token nonceToken w :
  let p := OpExchangeBegin now token nonceToken in Inv w -> op_ok p w -> Inv (do_op c p w).
Proof.
  cbv zeta. intros Hw Hop. unfold do_op, run_op.
  pose proof (exchange_begin_shape now token nonceToken (w_auth w)) as Hs.
  destruct (exchange_begin _ _ _ _) as [r a]. destruct Hs as [-> Hr]. apply (Inv_step w); [done|..].
  - apply advance_grows; [done|apply Hw|done..].
  - by left.
  - cbn. intros d g [? _]%map_lookup_filter_Some. eauto.
  - cbn. intros x Hx. destruct r as [y|]; [|by left].
    apply elem_of_app in Hx as [?|Hy%list_elem_of_singleton]; [by left|right]. subst y.
    done.
  - cbn. intros key s [? _]%map_lookup_filter_Some. by left.
  - auto.
Qed.

(** A step that only removes from the tables and changes no call. *)
Lemma shrink_Inv p w a :
  Inv w -> op_ok p w -> grants a ⊆ grants (w_auth w) ->
  (forall key s, sessions a !! key = Some s -> sessions (w_auth w) !! key = Some s) ->
  Inv (advance p (w <| w_auth := a |>)).
Proof.
  intros Hw Hop Hg Hs. apply (Inv_step w); [done|..].
  - apply advance_grows; [done|apply Hw|done..].
  - by left.
  - simpl. intros d g ?. left. by eapply lookup_weaken.
  - auto.
  - simpl. auto.
  - auto.
Qed.

Lemma exchange_end_shape now now' raw csrf resp x a :
  let '(r, a') := exchange_end c now now' raw csrf resp x a in
  match r with
  | Ok (raw', s) =>
      exists who g, authorize c resp (x_user x) = Ok who /\ grants a !! x_digest x = Some g /\
        epoch (x_user x) a = x_epoch x /\ s = mkSession who csrf now' now' now' (x_epoch x) /\
        grants a' = delete (x_digest x) (grants (prune now a)) /\
        sessions a' = <[Digest raw := s]> (sessions (prune now a))
  | Err _ => grants a' ⊆ grants a /\ sessions a' ⊆ sessions a
  end.
Proof.
  unfold exchange_end. destruct (authorize c resp (x_user x)) as [who|]; [|by split].
  cbv zeta. destruct (grants (prune now a) !! x_digest x) as [g|] eqn:Eg;
    [|split; apply map_filter_subseteq].
  destruct (bool_decide _ || bool_decide _) eqn:E; [split; apply map_filter_subseteq|]. bool_hyps.
  exists who, g. split_and!; try done; [by eapply prune_grants|by apply dec_stable].
Qed.

Lemma exchange_end_Inv i now now' raw csrf resp w :
  let p := OpExchangeEnd i now now' raw csrf resp in
  Inv w -> op_ok p w -> Inv (do_op c p w).
Proof.
  cbv zeta. intros Hw Hop. unfold do_op, run_op. set (p := OpExchangeEnd _ _ _ _ _ _) in *.
  destruct (w_exchanges w !! i) as [x|] eqn:Hi; [|by apply (shrink_Inv p w (w_auth w))].
  pose proof (exchange_end_shape now now' raw csrf resp x (w_auth w)) as Hs.
  destruct (exchange_end _ _ _ _ _ _ _ _) as [r a'].
  set (w1 := w <| w_auth := a' |> <| w_exchanges ::= delete i |> <| w_exchanged ::= _ |>).
  destruct (authorized_by_frame resp (x_user x) w1) as (Ea & En & Ex & Ek & Ed & Ee & Hau & Hwho).
  destruct Hop as (_ & Ht & Hfresh). pose proof (Ht now now' eq_refl) as ((Hn1 & Hn2) & Hm1 & Hm2).
  pose proof (Hfresh raw eq_refl) as Hraw.
  assert (Hgr : grows w (advance p (authorized_by c resp (x_user x) w1))).
  { constructor; simpl; rewrite ?En, ?Ed, ?Ee; [|set_solver| |done].
    - split; [unfold time in *; simpl; lia|done].
    - subst w1. simpl. destruct r as [[raw' s]|]; set_solver. }
  destruct r as [[raw' s]|e]; simpl in Hs.
  - destruct Hs as (who & g & Hwh & Hg & Hep & -> & Hgr' & Hse).
    pose proof (authorize_id _ _ _ Hwh) as Hid.
    assert (Hdig : x_digest x ∈ w_digests w) by (by eapply v_grant).
    apply (Inv_step w); [done|done|..].
    + right. exists (x_digest x), (Digest raw), (x_user x), now'. simpl. rewrite Ee, Ea. simpl.
      split_and!; [done|done|by left| |done|by rewrite Hgr', lookup_delete_eq].
      intros Hin. destruct (v_used _ Hw _ Hin). congruence.
    + simpl. rewrite Ea. simpl. rewrite Hgr'. intros d g' [_ ?%prune_grants]%lookup_delete_Some. left. eauto.
    + simpl. rewrite Ex. simpl. intros y ?%elem_of_list_delete. by left.
    + simpl. rewrite Ea. simpl. rewrite Hse. intros key s [[<- <-]|[_ [? _]%prune_sessions]]%lookup_insert_Some; [right|by left].
      constructor; simpl.
      * exists (x_digest x). rewrite Ee, Hid. by left.
      * by apply Hwho.
      * done.
    + simpl. rewrite Ek. auto.
  - destruct Hs as [Hg Hse]. apply (Inv_step w); [done|done|..]; simpl; rewrite ?Ee, ?Ea, ?Ex, ?Ek; simpl.
    + by left.
    + intros d g ?. left. by eapply lookup_weaken.
    + intros y ?%elem_of_list_delete. by left.
    + intros. left. by eapply lookup_weaken.
    + auto.
Qed.

Lemma check_begin_Inv now now' raw touch w :
  let p := OpCheckBegin now now' raw touch in Inv w -> op_ok p w -> Inv (do_op c p w).
Proof.
  cbv zeta. intros Hw Hop. unfold do_op, run_op, check_begin. cbv zeta. set (p := OpCheckBegin _ _ _ _) in *.
  pose proof Hop as (_ & Ht & _). pose proof (Ht now now' eq_refl) as ((Hn1 & Hn2) & Hm1 & Hm2).
  destruct (sessions (prune now (w_auth w)) !! Digest raw) as [s|] eqn:Es; cbv iota beta;
    (apply (Inv_step w); [done|apply advance_grows; [done|apply Hw|done..]|by left|..|]; simpl).
  all: try (by auto); try (intros ? ? [? _]%map_lookup_filter_Some; eauto).
  intros b k [?|[= -> ->]%list_elem_of_singleton]%elem_of_app; [by left|right].
  apply prune_sessions in Es as [Es _]. constructor; simpl; [|split; [done|simpl; unfold time in *; lia]|done].
  eapply ok_session_grows, v_session; [|done|done]. apply advance_grows; [done|apply Hw|done..].
Qed.

Lemma revoke_shrinks user a :
  grants (revoke user a) ⊆ grants a /\
  forall key s, sessions (revoke user a) !! key = Some s -> sessions a !! key = Some s.
Proof. simpl. split; [apply map_filter_subseteq|]. intros key s [? _]%drop_sessions_Some. done. Qed.

(** A check that asks for the roles again. *)
Lemma check_authorize_shape checked resp k a :
  match check_authorize c checked resp k a with
  | (Ok k', a') =>
      a' = a /\ k_key k' = k_key k /\ k_begun k' = k_begun k /\
      (k' = k /\ check_due k = false \/
       check_due k = true /\ exists who, authorize c resp (a_ID (s_Actor (k_session k))) = Ok who /\
         k_session k' = k_session k <| s_Actor := who |> <| s_Checked := checked |>)
  | (Err _, a') => a' = revoke (a_ID (s_Actor (k_session k))) a /\ check_due k = true
  end.
Proof.
  unfold check_authorize. destruct (check_due k) eqn:E; [|naive_solver].
  destruct (authorize c resp _) as [who|] eqn:Ew; [|by split]. split_and!; try done. right. eauto.
Qed.

Lemma not_due k : modern (k_begun k) -> modern (s_Checked (k_session k)) -> check_due k = false ->
  k_begun k - s_Checked (k_session k) < Minute.
Proof. unfold check_due. intros ? ?. rewrite Sub_modern by done. intros. bool_hyps. done. Qed.

Lemma check_authorize_Inv i checked resp w :
  let p := OpCheckAuthorize i checked resp in Inv w -> op_ok p w -> Inv (do_op c p w).
Proof.
  cbv zeta. intros Hw Hop. unfold do_op, run_op. set (p := OpCheckAuthorize _ _ _) in *.
  destruct (w_checks w !! i) as [[[] k]|] eqn:Hi; [by apply (shrink_Inv p w (w_auth w))| |by apply (shrink_Inv p w (w_auth w))].
  pose proof (v_check _ Hw false k ltac:(by eapply list_elem_of_lookup_2)) as [Hsnap [Hbm Hbn] _].
  pose proof (check_authorize_shape checked resp k (w_auth w)) as Hs.
  pose proof Hop as (Ht & _ & _). pose proof (Ht checked eq_refl) as [Hn Hm].
  destruct (check_authorize _ _ _ _ _) as [r a'].
  set (w1 := w <| w_auth := a' |> <| w_checks ::= _ |>).
  set (w2 := (if check_due k then authorized_by c resp (a_ID (s_Actor (k_session k))) else id) w1).
  assert (H2 : w_auth w2 = w_auth w1 /\ w_now w2 = w_now w1 /\ w_exchanges w2 = w_exchanges w1 /\ w_checks w2 = w_checks w1 /\
    w_digests w2 = w_digests w1 /\ w_exchanged w2 = w_exchanged w1 /\ w_authorized w1 ⊆ w_authorized w2 /\
    (check_due k = true -> forall who, authorize c resp (a_ID (s_Actor (k_session k))) = Ok who -> who ∈ w_authorized w2)).
  { subst w2. destruct (check_due k); [|by split_and!].
    destruct (authorized_by_frame resp (a_ID (s_Actor (k_session k))) w1) as (?&?&?&?&?&?&?&?). by split_and!. }
  clearbody w2. destruct H2 as (Ea & En & Ex & Ek & Ed & Ee & Hau & Hwho).
  assert (Hgr : grows w (advance p w2)).
  { apply advance_grows; [done|apply Hw|by rewrite En|by rewrite Ed|by rewrite Ee|done]. }
  assert (Hshr : grants a' ⊆ grants (w_auth w) /\
    forall key s, sessions a' !! key = Some s -> sessions (w_auth w) !! key = Some s).
  { destruct r as [k'|e]; [destruct Hs as (-> & _); by split|destruct Hs as [-> _]; apply revoke_shrinks]. }
  destruct Hshr as [Hg Hse]. apply (Inv_step w); [done|done|..]; simpl; rewrite ?Ee, ?Ea, ?Ex, ?Ek; simpl.
  - by left.
  - intros d g ?. left. by eapply lookup_weaken.
  - auto.
  - auto.
  - intros b k0 Hin. destruct r as [k'|e]; [|apply elem_of_list_delete in Hin; by left].
    apply elem_of_list_insert_inv in Hin as [[= -> ->]|?]; [right|by left].
    destruct Hs as (_ & Hkey & Hbeg & [[-> Hdue]|(Hdue & who & Hwh & Hsk)]).
    + constructor; [by eapply ok_session_grows|split; [done|simpl; unfold time in *; lia]|].
      intros _. apply not_due; [done|apply Hsnap|done].
    + pose proof (authorize_id _ _ _ Hwh) as Hid. destruct Hsnap as [[d Hd] _ [? [? ?]]].
      constructor; rewrite ?Hkey, ?Hbeg, ?Hsk; simpl.
      * constructor; simpl; [|by apply Hwho|done]. exists d. rewrite Ee, Hid. done.
      * split; [done|unfold time in *; lia].
      * intros _. unfold time in *. unfold Minute, Second. lia.
Qed.

(** ** Sessions and their links *)
Lemma same_link (l : exchange_log) d d' key u u' t t' :
  NoDup (session_keys l) -> (d, (key, u, t)) ∈ l -> (d', (key, u', t')) ∈ l -> u = u' /\ t = t'.
Proof.
  induction l as [|[d0 [[k0 u0] t0]] l IH]; simpl; [by intros _ ?%not_elem_of_nil|]. intros [Hn Hnd]%NoDup_cons.
  assert (Hk : forall d u t, (d, (k0, u, t)) ∈ l -> False).
  { intros d1 u1 t1 Hin. apply Hn. apply list_elem_of_fmap. by exists (d1, (k0, u1, t1)). }
  intros [[= -> -> -> ->]|H1]%elem_of_cons [[= -> -> ->]|H2]%elem_of_cons; [done|by apply Hk in H2|by apply Hk in H1|by apply IH].
Qed.

(** What [check_end] answers and stores. *)
Lemma check_end_ok w k now now' s a' :
  Inv w -> ok_check w true k -> check_end now now' k (w_auth w) = (Ok s, a') ->
  exists current, sessions (w_auth w) !! k_key k = Some current /\ session_alive now current = true /\
    a_ID (s_Actor s) = a_ID (s_Actor current) /\ s_Created s = s_Created current /\
    s_Checked (k_session k) <= s_Checked s /\ (s_Actor s = s_Actor current \/ s_Actor s = s_Actor (k_session k)) /\
    (s_Checked s = s_Checked current \/ s_Checked s = s_Checked (k_session k)) /\
    (s_Seen s = s_Seen current \/ s_Seen s = now') /\
    grants a' = grants (prune now (w_auth w)) /\ sessions a' = <[k_key k := s]> (sessions (prune now (w_auth w))).
Proof.
  intros Hw [[[d Hd] _ _] _ _]. unfold check_end. cbv zeta.
  destruct (sessions (prune now (w_auth w)) !! k_key k) as [cur|] eqn:Ec; [|done].
  case_bool_decide; [done|]. intros [= <- <-]. apply prune_sessions in Ec as [Hc Hal].
  destruct (v_session _ Hw _ _ Hc) as [[d' Hd'] _ _]. destruct (same_link _ _ _ _ _ _ _ _ (v_keys _ Hw) Hd Hd') as [Hu Ht].
  exists cur. split_and!; try done; unfold After;
    destruct (s_Checked cur <? s_Checked (k_session k)) eqn:E1; simpl; destruct (k_touch k && _); simpl; bool_hyps;
    auto; unfold time in *; lia.
Qed.

Lemma check_end_Inv i now now' w :
  let p := OpCheckEnd i now now' in Inv w -> op_ok p w -> Inv (do_op c p w).
Proof.
  cbv zeta. intros Hw Hop. unfold do_op, run_op. set (p := OpCheckEnd _ _ _) in *.
  destruct (w_checks w !! i) as [[[] k]|] eqn:Hi; [|by apply (shrink_Inv p w (w_auth w))..].
  pose proof (v_check _ Hw true k ltac:(by eapply list_elem_of_lookup_2)) as Hk.
  pose proof Hop as (_ & Ht & _). pose proof (Ht now now' eq_refl) as ((Hn1 & Hn2) & Hm1 & Hm2).
  assert (Hgr : grows w (advance p (w <| w_auth := (check_end now now' k (w_auth w)).2 |> <| w_checks ::= delete i |>))).
  { apply advance_grows; [done|apply Hw|done..]. }
  destruct (check_end now now' k (w_auth w)) as [[s|e] a'] eqn:E.
  - destruct (check_end_ok w k now now' s a' Hw Hk E) as (cur & Hc & _ & Hid & Hcr & _ & Hact & Hchk & Hseen & Hg & Hs).
    pose proof (v_session _ Hw _ _ Hc) as [[d Hd] ? (? & ? & ?)]. destruct Hk as [[_ ? (? & ? & ?)] _ _].
    apply (Inv_step w); [done|done|..]; simpl; rewrite ?Hg, ?Hs.
    + by left.
    + intros d' g ?%prune_grants. left. eauto.
    + auto.
    + intros key s' [[<- <-]|[_ [? _]%prune_sessions]]%lookup_insert_Some; [right|by left]. constructor; simpl.
      * exists d. by rewrite Hid, Hcr.
      * destruct Hact as [-> | ->]; done.
      * rewrite Hcr. split; [done|]. destruct Hseen as [-> | ->], Hchk as [-> | ->]; done.
    + intros b k' ?%elem_of_list_delete. by left.
  - assert (Ha : grants a' ⊆ grants (w_auth w) /\ forall key s, sessions a' !! key = Some s -> sessions (w_auth w) !! key = Some s).
    { revert E. unfold check_end. cbv zeta. destruct (sessions _ !! _); [case_bool_decide; [|done]|]; intros [= _ <-];
        (split; [apply map_filter_subseteq|by intros ? ? [? _]%prune_sessions]). }
    destruct Ha as [Hg Hs]. apply (Inv_step w); [done|done|..]; simpl.
    + by left.
    + intros d g ?. left. by eapply lookup_weaken.
    + auto.
    + auto.
    + intros b k' ?%elem_of_list_delete. by left.
Qed.

Lemma auth_op_Inv p w : Inv w -> op_ok p w -> Inv (do_op c p w).
Proof.
  intros Hw Hop. destruct p.
  - by apply issue_Inv.
  - by apply landing_Inv.
  - by apply exchange_begin_Inv.
  - by apply exchange_end_Inv.
  - by apply check_begin_Inv.
  - by apply check_authorize_Inv.
  - by apply check_end_Inv.
  - apply shrink_Inv; [done|done|apply revoke_shrinks..].
  - apply shrink_Inv; [done|done|done|]. simpl. by intros key s [_ ?]%lookup_delete_Some.
Qed.

Lemma auth_initial_Inv : Inv initialWorld.
Proof.
  constructor; simpl; try done; intros *; rewrite ?lookup_empty; try done; try apply NoDup_nil_2.
  all: intros []%not_elem_of_nil.
Qed.

Lemma run_Inv allowed w w' : Inv w -> run c allowed w w' -> Inv w'.
Proof. intros Hw. induction 1; [done|by apply auth_op_Inv]. Qed.

Lemma auth_reachable_Inv w : reachable c w -> Inv w.
Proof. apply run_Inv, auth_initial_Inv. Qed.
End safety.

(** * The promises of the session store

    The properties of the worlds of Auth.v that follow from the invariant of
    AuthSafety.v. *)
Section theorems.
Context `{Hashing}.
Variable c : Config.
Implicit Types (a : Auth) (s : session) (k : check_call) (x : exchange_call) (w : World).

(** (safety) a login link becomes at most one session, however the calls that
    try to exchange it interleave, and different links become different sessions. *)
Theorem link_used_once w :
  reachable c w -> NoDup (w_exchanged w).*1 /\ NoDup (session_keys (w_exchanged w)).
Proof. intros []%auth_reachable_Inv. done. Qed.

(** (safety) a request is accepted only with a live session: it was created by
    exchanging a link of that user less than eight hours before, whatever use was
    made of it since; it was last used less than thirty minutes before; and the
    user it acts for was authorized, by an answer that was less than a minute old
    when the request came in or was asked for since. *)
Theorem accepted_session_live w i k now now' s a' :
  reachable c w -> w_checks w !! i = Some (true, k) -> op_ok (OpCheckEnd i now now') w ->
  check_end now now' k (w_auth w) = (Ok s, a') ->
  (exists d, (d, (k_key k, a_ID (s_Actor s), s_Created s)) ∈ w_exchanged w) /\ now - s_Created s < 8 * Hour /\
  (exists current, sessions (w_auth w) !! k_key k = Some current /\ now - s_Seen current < 30 * Minute) /\
  s_Actor s ∈ w_authorized w /\ k_begun k - s_Checked s < Minute.
Proof.
  intros Hw%auth_reachable_Inv Hi (_ & Ht & _) E. destruct (Ht now now' eq_refl) as (_ & Hm & Hm').
  pose proof (v_check _ Hw true k ltac:(by eapply list_elem_of_lookup_2)) as Hk.
  destruct (check_end_ok w k now now' s a' Hw Hk E) as (cur & Hc & Hal & Hid & Hcr & Hch & Hact & _ & _ & _ & _).
  destruct (v_session _ Hw _ _ Hc) as [[d Hd] Ha (? & ? & ?)]. destruct Hk as [[_ Ha' _] _ Hr].
  unfold session_alive in Hal. rewrite !Sub_modern in Hal by done. bool_hyps. specialize (Hr eq_refl).
  split_and!.
  - exists d. by rewrite Hid, Hcr.
  - rewrite Hcr. done.
  - by exists cur.
  - destruct Hact as [-> | ->]; done.
  - unfold time in *. lia.
Qed.

(** ** Revocation *)
Record Revoked (user : string) (w : World) : Prop := {
  r_grant d g : grants (w_auth w) !! d = Some g -> lg_UserID g <> user;
  r_session key s : sessions (w_auth w) !! key = Some s -> a_ID (s_Actor s) <> user;
  r_exchange x : x ∈ w_exchanges w -> x_user x = user -> grants (w_auth w) !! x_digest x = None
}.

(** A world whose tables only lost entries and whose calls are old ones. *)
Lemma Revoked_shrink user w w' :
  Revoked user w -> (forall d g, grants (w_auth w') !! d = Some g -> grants (w_auth w) !! d = Some g) ->
  (forall key s, sessions (w_auth w') !! key = Some s -> sessions (w_auth w) !! key = Some s) ->
  (forall x, x ∈ w_exchanges w' -> x ∈ w_exchanges w \/ x_user x <> user) -> Revoked user w'.
Proof.
  intros [] Hg Hs Hx. constructor; [eauto..|]. intros x [?|?]%Hx Hu; [|done].
  destruct (grants (w_auth w') !! x_digest x) eqn:E; [|done]. apply Hg in E. rewrite r_exchange0 in E; done.
Qed.

Definition not_issued (user : string) (p : auth_op) : Prop :=
  match p with OpIssue _ _ _ _ u _ => u <> user | _ => True end.

Lemma Revoked_step user p w :
  Inv w -> Revoked user w -> op_ok p w -> not_issued user p -> Revoked user (do_op c p w).
Proof.
  intros Hw Hr Hop Hp. unfold do_op.
  assert (Hadv : forall w', Revoked user w' -> Revoked user (advance p w')) by (by intros w' []; constructor).
  apply Hadv. clear Hadv. destruct p as [now now' token resp u iid|now now' token|now token nt|i now now' raw csrf resp|
    now now' raw touch|i checked resp|i now now'|u|raw]; simpl in Hp; unfold run_op.
  - set (w1 := w <| w_auth := _ |>). destruct (authorized_by_frame c resp u w1) as (Ea & _ & Ex & _).
    assert (Hold : forall d g, grants (w_auth w1) !! d = Some g -> grants (w_auth w) !! d = Some g \/ d = Digest token /\ lg_UserID g <> user).
    { intros d g [?|[-> ->]]%issue_spec; [by left|by right]. }
    constructor; rewrite ?Ea, ?Ex.
    + intros d g [?|[_ ?]]%Hold; [by eapply r_grant|done].
    + simpl. intros key s Hs. eapply r_session; [done|]. by eapply lookup_weaken, issue_sessions.
    + intros x Hx Hu. destruct (grants (w_auth w1) !! x_digest x) as [g|] eqn:E; [|done].
      apply Hold in E as [E|[E _]]; [by rewrite (r_exchange _ _ Hr x) in E|].
      apply (v_exchange _ Hw) in Hx as [Hx _]. rewrite E in Hx. by apply (op_fresh _ w token Hop) in Hx.
  - apply (Revoked_shrink user w); [done|..]; simpl; unfold landing; [| |by left].
    + intros d g. case_match; simpl; by intros [? _]%map_lookup_filter_Some.
    + intros key s. case_match; simpl; by intros [? _]%map_lookup_filter_Some.
  - pose proof (exchange_begin_shape now token nt (w_auth w)) as Hs. destruct (exchange_begin _ _ _ _) as [r a].
    destruct Hs as [-> Hs]. apply (Revoked_shrink user w); [done|..].
    + intros d g. apply prune_grants.
    + cbn. by intros key s [? _]%map_lookup_filter_Some.
    + cbn. intros x Hx. destruct r as [y|]; [|by left].
      apply elem_of_app in Hx as [?|Hy%list_elem_of_singleton]; [by left|right]. subst y.
      destruct Hs as (g & ? & ->). by eapply r_grant.
  - destruct (w_exchanges w !! i) as [x|] eqn:Hi; [|done].
    pose proof (exchange_end_shape c now now' raw csrf resp x (w_auth w)) as Hs.
    destruct (exchange_end _ _ _ _ _ _ _ _) as [r a']. set (w1 := w <| w_auth := a' |> <| w_exchanges ::= _ |> <| w_exchanged ::= _ |>).
    destruct (authorized_by_frame c resp (x_user x) w1) as (Ea & _ & Ex & _).
    destruct r as [[raw' s]|e].
    + destruct Hs as (who & g & Hwh%authorize_id & Hg & _ & -> & Hgr & Hse).
      assert (Hu : x_user x <> user).
      { intros Hu. rewrite (r_exchange _ _ Hr x) in Hg; [done|by eapply list_elem_of_lookup_2|done]. }
      constructor; rewrite ?Ea, ?Ex; simpl; rewrite ?Hgr, ?Hse.
      * intros d g' [_ ?%prune_grants]%lookup_delete_Some. by eapply r_grant.
      * intros key s [[<- <-]|[_ [? _]%prune_sessions]]%lookup_insert_Some; [simpl; congruence|by eapply r_session].
      * intros y Hy%elem_of_list_delete Hyu. pose proof (r_exchange _ _ Hr y Hy Hyu) as Hn.
        destruct (delete _ _ !! x_digest y) eqn:E; [|done]. apply lookup_delete_Some in E as [_ E%prune_grants]. congruence.
    + destruct Hs as [Hg Hse]. apply (Revoked_shrink user w); rewrite ?Ea, ?Ex; [done|..]; simpl.
      * intros. by eapply lookup_weaken.
      * intros. by eapply lookup_weaken.
      * intros y ?%elem_of_list_delete. by left.
  - assert (Hs : (check_begin now now' raw touch (w_auth w)).2 = prune now (w_auth w))
      by (unfold check_begin; cbv zeta; by case_match).
    destruct (check_begin _ _ _ _ _) as [r a]. cbn in Hs. subst a. apply (Revoked_shrink user w); [done|..|by left].
    + intros d g. apply prune_grants.
    + cbn. by intros key s [? _]%map_lookup_filter_Some.
  - destruct (w_checks w !! i) as [[[] k]|]; [done| |done].
    pose proof (check_authorize_shape c checked resp k (w_auth w)) as Hs.
    destruct (check_authorize _ _ _ _ _) as [r a']. set (w1 := w <| w_auth := a' |> <| w_checks ::= _ |>).
    assert (H1 : Revoked user w1).
    { destruct r; [destruct Hs as (-> & _)|destruct Hs as [-> _]]; (apply (Revoked_shrink user w); [done|..]; try done; try (by left)).
      - intros d g ?%drop_grants_Some. tauto.
      - intros key s ?%drop_sessions_Some. tauto. }
    destruct (check_due k); [|done]. destruct (authorized_by_frame c resp (a_ID (s_Actor (k_session k))) w1) as (Ea & _ & Ex & _).
    destruct H1. constructor; rewrite ?Ea, ?Ex; done.
  - destruct (w_checks w !! i) as [[[] k]|] eqn:Hi; [|done..].
    pose proof (v_check _ Hw true k ltac:(by eapply list_elem_of_lookup_2)) as Hk.
    destruct (check_end now now' k (w_auth w)) as [[s|e] a'] eqn:E.
    + destruct (check_end_ok w k now now' s a' Hw Hk E) as (cur & Hc & _ & Hid & _ & _ & _ & _ & _ & Hg & Hse).
      constructor; simpl; rewrite ?Hg, ?Hse.
      * intros d g ?%prune_grants. by eapply r_grant.
      * intros key s' [[<- <-]|[_ [? _]%prune_sessions]]%lookup_insert_Some; [rewrite Hid|]; by eapply r_session.
      * intros x Hx Hu. pose proof (r_exchange _ _ Hr x Hx Hu) as Hn.
        destruct (grants (prune now (w_auth w)) !! x_digest x) eqn:E'; [|done]. apply prune_grants in E'. congruence.
    + revert E. unfold check_end. cbv zeta. destruct (sessions _ !! _); [case_bool_decide; [|done]|]; intros [= _ <-];
        (apply (Revoked_shrink user w); [done|..]; simpl; [by intros ? ? [? _]%map_lookup_filter_Some..|by left]).
  - apply (Revoked_shrink user w); [done|..]; simpl; [by intros ? ? [? _]%drop_grants_Some|by intros ? ? [? _]%drop_sessions_Some|by left].
  - apply (Revoked_shrink user w); [done|..]; simpl; [done|by intros ? ? [_ ?]%lookup_delete_Some|by left].
Qed.

(** (safety) a revocation is final: once a user is revoked, no session of that
    user exists and none comes into being, not even from a link or through a call
    that was in flight, until a new link is issued to the user. *)
Theorem revocation_is_final user w w' :
  reachable c w -> run c (not_issued user) (do_op c (OpRevoke user) w) w' ->
  forall key s, sessions (w_auth w') !! key = Some s -> a_ID (s_Actor s) <> user.
Proof.
  intros Hw%auth_reachable_Inv Hrun.
  assert (Hop : op_ok (OpRevoke user) w) by by split_and!.
  assert (H0 : Revoked user (do_op c (OpRevoke user) w)).
  { constructor; simpl.
    - intros d g ?%drop_grants_Some. tauto.
    - intros key s ?%drop_sessions_Some. tauto.
    - intros x Hx Hu. destruct (drop_grants _ _ !! _) eqn:E; [|done]. apply drop_grants_Some in E as [E Hne].
      destruct Hne. destruct (v_exchange _ Hw x Hx) as [_ Hg]. by rewrite (Hg _ E). }
  pose proof (auth_op_Inv c _ _ Hw Hop) as Hw1. clear Hop.
  assert (Hr : Revoked user w' /\ Inv w').
  { induction Hrun as [|w1 p Hrun [Hr1 Hi1] Hop Hp]; [done|]. split; [by apply Revoked_step|by apply auth_op_Inv]. }
  intros key s. apply Hr.
Qed.

(** ** Bounds *)
Record Bounded (w : World) : Prop := {
  b_grants : Z.of_nat (size (grants (w_auth w))) <= 1000;
  b_nonces : Z.of_nat (size (nonces (w_auth w))) <= 10000;
  b_user d d' g g' : grants (w_auth w) !! d = Some g -> grants (w_auth w) !! d' = Some g' ->
    lg_UserID g = lg_UserID g' -> d = d'
}.


Lemma Bounded_shrink w a :
  Bounded w -> grants a ⊆ grants (w_auth w) -> nonces a ⊆ nonces (w_auth w) -> Bounded (w <| w_auth := a |>).
Proof.
  intros [] Hg Hn. constructor; simpl.
  - pose proof (map_subseteq_size _ _ Hg). lia.
  - pose proof (map_subseteq_size _ _ Hn). lia.
  - intros d d' g g' ? ?. eapply b_user0; by eapply lookup_weaken.
Qed.

Lemma prune_le now a : grants (prune now a) ⊆ grants a /\ nonces (prune now a) ⊆ nonces a.
Proof. split; apply map_filter_subseteq. Qed.

Lemma issue_bounded now now' token resp userID interactionID w :
  Bounded w -> Bounded (w <| w_auth := (issue c now now' token resp userID interactionID (w_auth w)).2 |>).
Proof.
  intros Hb. destruct (prune_le now (w_auth w)) as [Hg Hn]. unfold issue.
  destruct (negb _ || negb _); [by apply Bounded_shrink|].
  destruct (authorize c resp userID); [|by apply Bounded_shrink]. cbv zeta.
  destruct (interactions _ !! _); [by apply Bounded_shrink|].
  destruct (match issued _ !! _ with Some _ => _ | None => _ end); [by apply Bounded_shrink|].
  destruct (1000 <=? _) eqn:E; [by apply Bounded_shrink|]. bool_hyps.
  destruct (Bounded_shrink w _ Hb Hg Hn) as [_ Hb2 Hb3].
  set (b := prune now (w_auth w)) in *. clearbody b. cbn in Hb2, Hb3. constructor; cbn.
  - pose proof (insert_size (Digest token) (mkGrant userID (Add now' (2 * Minute))) (drop_grants userID (grants b))).
    pose proof (map_subseteq_size (drop_grants userID (grants b)) (grants b) (map_filter_subseteq _ _)).
    unfold time in *. lia.
  - exact Hb2.
  - intros d d' g g' [[<- <-]|[_ [? Hu]%drop_grants_Some]]%lookup_insert_Some
      [[<- <-]|[_ [? Hu']%drop_grants_Some]]%lookup_insert_Some; simpl; intros E'; [done|congruence..|by eapply Hb3].
Qed.

Lemma landing_bounded now now' token w :
  Bounded w -> Bounded (w <| w_auth := (landing now now' token (w_auth w)).2 |>).
Proof.
  intros Hb. destruct (prune_le now (w_auth w)) as [Hg Hn]. unfold landing. cbv zeta.
  destruct (10000 <=? _) eqn:E; [by apply Bounded_shrink|]. bool_hyps.
  destruct (Bounded_shrink w _ Hb Hg Hn) as [Hb1 _ Hb3].
  pose proof (insert_size (Digest token) (Add now' (5 * Minute)) (nonces (prune now (w_auth w)))) as Hi.
  set (a := prune now (w_auth w)) in *. clearbody a. constructor; cbn in *; [done| |done]. unfold time in *. lia.
Qed.

Lemma authorized_by_bounded resp id w : Bounded w -> Bounded (authorized_by c resp id w).
Proof. intros []. destruct (authorized_by_frame c resp id w) as (E & _). by constructor; rewrite E. Qed.

(** A world with the same tables is as bounded. *)
Lemma Bounded_tables w w' : w_auth w' = w_auth w -> Bounded w -> Bounded w'.
Proof. intros E []. by constructor; rewrite E. Qed.

Lemma do_op_bounded p w : Bounded w -> Bounded (do_op c p w).
Proof.
  intros Hb. unfold do_op. apply (Bounded_tables (run_op c p w)); [done|].
  assert (Hs : forall a w', grants a ⊆ grants (w_auth w) -> nonces a ⊆ nonces (w_auth w) -> w_auth w' = a -> Bounded w').
  { intros a w' Hg Hn E. apply (Bounded_tables (w <| w_auth := a |>)); [done|]. by apply Bounded_shrink. }
  assert (Hp : forall now, grants (prune now (w_auth w)) ⊆ grants (w_auth w) /\ nonces (prune now (w_auth w)) ⊆ nonces (w_auth w))
    by (intros; apply prune_le).
  destruct p as [now now' token resp u iid|now now' token|now token nt|i now now' raw csrf resp|now now' raw touch|
    i checked resp|i now now'|u|raw]; unfold run_op.
  - by apply authorized_by_bounded, issue_bounded.
  - by apply landing_bounded.
  - pose proof (exchange_begin_shape now token nt (w_auth w)) as E. destruct (exchange_begin _ _ _ _) as [r a].
    destruct E as [-> _]. by eapply Hs; [apply Hp..|].
  - destruct (w_exchanges w !! i) as [x|]; [|done].
    destruct (exchange_end _ _ _ _ _ _ _ _) as [r a] eqn:E. apply authorized_by_bounded. eapply (Hs a); [..|done].
    all: revert E; unfold exchange_end; destruct (authorize _ _ _); [|by intros [= _ <-]]; cbv zeta;
      destruct (grants _ !! _); [destruct (bool_decide _ || bool_decide _)|]; intros [= _ <-]; try apply Hp;
      cbn; etrans; first [apply delete_subseteq|apply map_filter_subseteq].
  - assert (E : (check_begin now now' raw touch (w_auth w)).2 = prune now (w_auth w))
      by (unfold check_begin; cbv zeta; by case_match).
    destruct (check_begin _ _ _ _ _) as [r a]. cbn in E. subst a. by eapply Hs; [apply Hp..|].
  - destruct (w_checks w !! i) as [[[] k]|]; [done| |done].
    pose proof (check_authorize_shape c checked resp k (w_auth w)) as E.
    destruct (check_authorize _ _ _ _ _) as [r a].
    assert (Ha : grants a ⊆ grants (w_auth w) /\ nonces a ⊆ nonces (w_auth w)).
    { destruct r; [destruct E as (-> & _); done|destruct E as [-> _]]. split; [apply map_filter_subseteq|done]. }
    destruct Ha. destruct (check_due k); [apply authorized_by_bounded|]; by eapply (Hs a).
  - destruct (w_checks w !! i) as [[[] k]|]; [|done..]. eapply Hs; [..|reflexivity];
      unfold check_end; cbv zeta; destruct (sessions _ !! _); [case_bool_decide| |case_bool_decide|]; apply Hp.
  - eapply Hs; [..|reflexivity]; [apply map_filter_subseteq|done].
  - by eapply Hs; [..|reflexivity].
Qed.

(** (bounds) the tables that anyone can fill stay bounded: at most a thousand
    pending links, at most one for each user, and at most ten thousand nonces. *)
Theorem tables_bounded w :
  reachable c w ->
  Z.of_nat (size (grants (w_auth w))) <= 1000 /\ Z.of_nat (size (nonces (w_auth w))) <= 10000 /\
  forall d d' g g', grants (w_auth w) !! d = Some g -> grants (w_auth w) !! d' = Some g' ->
    lg_UserID g = lg_UserID g' -> d = d'.
Proof.
  intros Hr. assert (Hb : Bounded w).
  { induction Hr; [|by apply do_op_bounded]. constructor; simpl; [by rewrite map_size_empty..|].
    intros d d' g g'. by rewrite lookup_empty. }
  destruct Hb. done.
Qed.
End theorems.

(** ** A concrete run: a moderator signs in, uses the session, and is revoked
    while an administrator's answer is still on its way *)
#[local] Instance plain_hash : Hashing := fun b => b.
Definition sample_config : Config := mkConfig "guild" ["900"] ["901"].
Definition moderator : option Authorization := Some (mkAuthorization "42" "mel" "guild" ["901"]).
Definition run_ops (l : list auth_op) (w : World) : World := foldl (fun w p => do_op sample_config p w) w l.

Definition sign_in_ops : list auth_op :=
  [OpLanding Second Second "nonce"; OpIssue (2 * Second) (2 * Second) "token" moderator "42" "i1";
   OpExchangeBegin (3 * Second) "token" "nonce"].
Definition pending_exchange : World := Eval vm_compute in run_ops sign_in_ops initialWorld.
Definition exchange_op : auth_op := OpExchangeEnd 0 (4 * Second) (4 * Second) "session" "csrf" moderator.
Definition signed_in : World := Eval vm_compute in run_ops [exchange_op] pending_exchange.
Definition check_ops : list auth_op :=
  [OpCheckBegin (70 * Second) (70 * Second) "session" true; OpCheckAuthorize 0 (71 * Second) moderator].
Definition checking : World := Eval vm_compute in run_ops check_ops signed_in.

Fixpoint ops_ok (l : list auth_op) (w : World) : Prop :=
  match l with [] => True | p :: l => op_ok p w /\ ops_ok l (do_op sample_config p w) end.

Lemma run_allowed allowed l w0 w :
  Forall allowed l -> ops_ok l w -> run sample_config allowed w0 w -> run sample_config allowed w0 (run_ops l w).
Proof.
  unfold run_ops. intros Hl. revert w. induction Hl as [|p l Hp _ IH]; intros w; simpl; [done|].
  intros [Hop Hok] Hr. apply IH; [done|]. by constructor.
Qed.

Ltac op_ok_by_computation :=
  split_and!; [intros ? [=]; subst; unfold time, modern, maxDuration, Second in *; simpl; split_and?; lia
              |intros ? ? [=]; subst; unfold time, modern, maxDuration, Second in *; simpl; split_and?; lia
              |intros ? [=]; subst; vm_decide].

Lemma sign_in_ok : ops_ok sign_in_ops initialWorld.
Proof. unfold sign_in_ops. cbn [ops_ok]. repeat (split; [op_ok_by_computation|]). exact I. Qed.
Lemma exchange_ok : ops_ok [exchange_op] pending_exchange.
Proof. split; [op_ok_by_computation|exact I]. Qed.
Lemma check_ok : ops_ok check_ops signed_in.
Proof. unfold check_ops. cbn [ops_ok]. repeat (split; [op_ok_by_computation|]). exact I. Qed.

Lemma pending_reachable : reachable sample_config pending_exchange.
Proof. apply (run_allowed _ sign_in_ops initialWorld initialWorld); [by repeat constructor|apply sign_in_ok|constructor]. Qed.
Lemma signed_in_reachable : reachable sample_config signed_in.
Proof. apply (run_allowed _ [exchange_op] initialWorld pending_exchange); [by repeat constructor|apply exchange_ok|apply pending_reachable]. Qed.
Lemma checking_reachable : reachable sample_config checking.
Proof. apply (run_allowed _ check_ops initialWorld signed_in); [by repeat constructor|apply check_ok|apply signed_in_reachable]. Qed.

Lemma link_used_once_witness :
  NoDup (w_exchanged signed_in).*1 /\ length (w_exchanged signed_in) = 1%nat.
Proof. split; [apply (link_used_once sample_config signed_in), signed_in_reachable|reflexivity]. Defined.

Lemma tables_bounded_witness :
  Z.of_nat (size (grants (w_auth pending_exchange))) <= 1000 /\ size (grants (w_auth pending_exchange)) = 1%nat.
Proof.
  split; [|reflexivity]. apply (tables_bounded sample_config pending_exchange).
  apply pending_reachable.
Defined.

Lemma accepted_session_live_witness :
  exists k s, w_checks checking !! 0%nat = Some (true, k) /\
    (check_end (72 * Second) (72 * Second) k (w_auth checking)).1 = Ok s /\ 72 * Second - s_Created s < 8 * Hour.
Proof.
  destruct (w_checks checking !! 0%nat) as [[b k]|] eqn:E; [|discriminate E].
  assert (Hb : b = true) by (vm_compute in E; injection E as <- <-; reflexivity). subst b.
  destruct (check_end (72 * Second) (72 * Second) k (w_auth checking)) as [[s|e] a'] eqn:Ec.
  - exists k, s. split; [reflexivity|]. split; [rewrite Ec; reflexivity|].
    apply (accepted_session_live sample_config checking 0 k (72 * Second) (72 * Second) s a');
      [apply checking_reachable|exact E| |exact Ec]. op_ok_by_computation.
  - exfalso. vm_compute in E. injection E as <-. vm_compute in Ec. discriminate Ec.
Defined.

(** The revocation lands while the exchange waits for the roles. *)
Definition revoked_exchange : World := Eval vm_compute in run_ops [OpRevoke "42"; exchange_op] pending_exchange.

Lemma revocation_is_final_witness :
  sessions (w_auth revoked_exchange) = ∅ /\
  forall key s, sessions (w_auth revoked_exchange) !! key = Some s -> a_ID (s_Actor s) <> "42".
Proof.
  split; [vm_compute; reflexivity|].
  apply (revocation_is_final sample_config "42" pending_exchange).
  - apply pending_reachable.
  - apply (run_allowed _ [exchange_op] _ (do_op sample_config (OpRevoke "42") pending_exchange));
      [by apply Forall_singleton| |constructor]. split; [op_ok_by_computation|exact I].
Defined.
