(* ===== verification/ModVersion.v ===== *)
(** * Version numbers: [src/modupdate/util.go], [src/factUpdater/util.go]

    Mods have versions of two or three parts, compared by [checkVersion] under one
    of five operators; the game has versions of exactly three.  Both comparisons
    are the lexicographic order on the parts. *)
From Stdlib Require Import Ascii.
From S2P Require Import Prelude.
From S2P Require Import GoInt.
From S2P Require Import GoString.
From S2P Require Import GoPath.

Definition dot : ascii := "."%char.
Definition version := (Z * Z * Z)%type.

(** The reference order. *)
Definition lex_lt (a b : version) : Prop :=
  let '(a0, a1, a2) := a in let '(b0, b1, b2) := b in
  a0 < b0 \/ a0 = b0 /\ (a1 < b1 \/ a1 = b1 /\ a2 < b2).

Lemma lex_lt_trichotomy a b : lex_lt a b \/ a = b \/ lex_lt b a.
Proof.
  destruct a as [[a0 a1] a2], b as [[b0 b1] b2]. simpl.
  destruct (Z.lt_trichotomy a0 b0) as [?|[->|?]]; [left; lia| |right; right; lia].
  destruct (Z.lt_trichotomy a1 b1) as [?|[->|?]]; [left; lia| |right; right; lia].
  destruct (Z.lt_trichotomy a2 b2) as [?|[->|?]]; [left; lia|by right; left|right; right; lia].
Qed.
#[export] Instance lex_lt_strict : StrictOrder lex_lt.
Proof.
  split; [intros [[a0 a1] a2]; unfold complement; simpl; lia|].
  intros [[a0 a1] a2] [[b0 b1] b2] [[c0 c1] c2]. simpl. lia.
Qed.

(** ** [src/modupdate/struct.go], [src/modupdate/util.go] *)
Inductive operator := EO_ERROR | EO_LESS | EO_LESSEQ | EO_EQUAL | EO_GREATEREQ | EO_GREATER.
#[export] Instance operator_eq_dec : EqDecision operator.
Proof. solve_decision. Defined.

Definition parseOperator (input : string) : operator :=
  if bool_decide (input = "<") then EO_LESS
  else if bool_decide (input = "<=") then EO_LESSEQ
  else if bool_decide (input = "=") then EO_EQUAL
  else if bool_decide (input = ">=") then EO_GREATEREQ
  else if bool_decide (input = ">") then EO_GREATER
  else EO_ERROR.

Definition operatorToString (input : operator) : string :=
  match input with
  | EO_LESS => "<" | EO_LESSEQ => "<=" | EO_EQUAL => "=" | EO_GREATEREQ => ">=" | EO_GREATER => ">"
  | EO_ERROR => "ERR"
  end.

Definition compareVersions (eo : operator) (av bv : Z) : result string bool :=
  match eo with
  | EO_LESS => Ok (bv <? av)
  | EO_LESSEQ => Ok (bv <=? av)
  | EO_EQUAL => Ok (bv =? av)
  | EO_GREATEREQ => Ok (av <=? bv)
  | EO_GREATER => Ok (av <? bv)
  | EO_ERROR => Err "invalid comparison operation"
  end.

(** The parts are parsed as 64-bit integers; two parts stand for three. *)
Definition versionToInt (data : string) : result string version :=
  match Split data dot with
  | [a; b] =>
      match ParseInt a, ParseInt b with
      | Some a, Some b => Ok (a, b, 0)
      | _, _ => Err "failed to parse version string"
      end
  | [a; b; c] =>
      match ParseInt a, ParseInt b, ParseInt c with
      | Some a, Some b, Some c => Ok (a, b, c)
      | _, _, _ => Err "failed to parse version string"
      end
  | _ => Err ("malformed version string: " +:+ data)
  end.

Definition checkVersion (op : operator) (local remote : string) : result string bool :=
  cInt ← versionToInt local;
  rInt ← versionToInt remote;
  let '(c0, c1, c2) := cInt in
  let '(r0, r1, r2) := rInt in
  if negb (r0 =? c0) then compareVersions op c0 r0
  else if negb (r1 =? c1) then compareVersions op c1 r1
  else if negb (r2 =? c2) then compareVersions op c2 r2
  else compareVersions op 0 0.

(** What an operator means. *)
Definition holds (op : operator) (remote local : version) : Prop :=
  match op with
  | EO_LESS => lex_lt remote local
  | EO_LESSEQ => lex_lt remote local \/ remote = local
  | EO_EQUAL => remote = local
  | EO_GREATEREQ => lex_lt local remote \/ remote = local
  | EO_GREATER => lex_lt local remote
  | EO_ERROR => False
  end.

Lemma compareVersions_holds op (c r : version) x y :
  op <> EO_ERROR ->
  (x < y <-> lex_lt c r) -> (y < x <-> lex_lt r c) -> (y = x <-> r = c) ->
  exists b, compareVersions op x y = Ok b /\ (b = true <-> holds op r c).
Proof.
  intros Hop H1 H2 H3. destruct op; [done|..]; simpl; eexists; (split; [reflexivity|]);
    rewrite ?Z.ltb_lt, ?Z.leb_le, ?Z.eqb_eq, ?Z.lt_eq_cases; [tauto|tauto|tauto| |tauto].
  rewrite H1. assert (x = y <-> y = x) by (split; congruence). tauto.
Qed.

Lemma checkVersion_spec op local remote l r :
  versionToInt local = Ok l -> versionToInt remote = Ok r -> op <> EO_ERROR ->
  exists b, checkVersion op local remote = Ok b /\ (b = true <-> holds op r l).
Proof.
  intros Hl Hr Hop. unfold checkVersion. rewrite Hl, Hr. clear Hl Hr.
  destruct l as [[c0 c1] c2], r as [[r0 r1] r2]. cbn -[compareVersions holds].
  destruct (r0 =? c0) eqn:E0; simpl; [destruct (r1 =? c1) eqn:E1; simpl; [destruct (r2 =? c2) eqn:E2; simpl|]|];
    bool_hyps; subst; apply compareVersions_holds; simpl; try done;
    first [lia|split; [intros; first [congruence|lia]|intros [=]; lia]].
Qed.

Lemma checkVersion_parsed op local remote b :
  checkVersion op local remote = Ok b ->
  op <> EO_ERROR /\ exists l r, versionToInt local = Ok l /\ versionToInt remote = Ok r.
Proof.
  unfold checkVersion. intros (l & Hl & (r & Hr & H)%result_bind_ok)%result_bind_ok.
  split; [|eauto]. intros ->. destruct l as [[??]?], r as [[??]?]. by repeat case_match.
Qed.

(** C40: (equivalence) the comparison part by part is the lexicographic order: it
    answers for every operator exactly what the operator means, and it fails
    exactly for an unknown operator or a version that does not parse. *)
Theorem checkVersion_lexicographic op local remote b :
  checkVersion op local remote = Ok b <->
  exists l r, versionToInt local = Ok l /\ versionToInt remote = Ok r /\ op <> EO_ERROR /\
    (b = true <-> holds op r l).
Proof.
  split.
  - intros H. destruct (checkVersion_parsed _ _ _ _ H) as (Hop & l & r & Hl & Hr).
    destruct (checkVersion_spec op local remote l r) as (b' & Hb' & ?); try done.
    rewrite H in Hb'. injection Hb' as ->. eauto 8.
  - intros (l & r & Hl & Hr & Hop & Hb).
    destruct (checkVersion_spec op local remote l r) as (b' & -> & ?); try done.
    f_equal. destruct b, b'; naive_solver.
Qed.

Lemma checkVersion_newer local remote l r :
  versionToInt local = Ok l -> versionToInt remote = Ok r ->
  checkVersion EO_GREATER local remote = Ok true <-> lex_lt l r.
Proof.
  intros Hl Hr. destruct (checkVersion_spec EO_GREATER local remote l r) as (b & -> & Hb); try done.
  simpl in Hb. destruct b; naive_solver.
Qed.

(** ** [src/factUpdater/util.go] *)
Definition versionInts := version.

Definition parseVersionString (input : string) : result string versionInts :=
  if bool_decide (input = "") then Ok (0, 0, 0)
  else
    match Split input dot with
    | [a; b; c] =>
        match ParseUint a, ParseUint b, ParseUint c with
        | Some a, Some b, Some c => Ok (swrap 64 a, swrap 64 b, swrap 64 c)
        | _, _, _ => Err "malformed version number: A part of the version number wasn't a valid positive integer"
        end
    | _ => Err "malformed version number: incorrect number of parts"
    end.

Definition IntToString (v : versionInts) : string :=
  let '(a, b, c) := v in Itoa a +:+ "." +:+ Itoa b +:+ "." +:+ Itoa c.

Definition isVersionNewerThan (a b : versionInts) : bool :=
  let '(a0, a1, a2) := a in let '(b0, b1, b2) := b in
  if negb (a0 =? b0) then b0 <? a0
  else if negb (a1 =? b1) then b1 <? a1
  else b2 <? a2.

Definition isVersionEqual (a b : versionInts) : bool :=
  let '(a0, a1, a2) := a in let '(b0, b1, b2) := b in (a0 =? b0) && (a1 =? b1) && (a2 =? b2).

Lemma isVersionNewerThan_spec a b : isVersionNewerThan a b = true <-> lex_lt b a.
Proof.
  destruct a as [[a0 a1] a2], b as [[b0 b1] b2]. unfold isVersionNewerThan, lex_lt.
  destruct (a0 =? b0) eqn:?; simpl; [destruct (a1 =? b1) eqn:?; simpl|]; bool_hyps; rewrite Z.ltb_lt; lia.
Qed.

Lemma isVersionEqual_spec a b : isVersionEqual a b = true <-> a = b.
Proof.
  destruct a as [[a0 a1] a2], b as [[b0 b1] b2]. unfold isVersionEqual.
  rewrite !andb_true_iff, !Z.eqb_eq. split; [intros ([-> ->] & ->); done|intros [= -> -> ->]; done].
Qed.

(** ** Printing and reading back *)
Lemma IntToString_Split a b c :
  0 <= a -> 0 <= b -> 0 <= c -> Split (IntToString (a, b, c)) dot = [Itoa a; Itoa b; Itoa c].
Proof.
  intros Ha Hb Hc. change (IntToString (a, b, c)) with (Join [Itoa a; Itoa b; Itoa c] (String dot "")).
  apply Split_Join; [done|]. rewrite !Forall_cons. by repeat split; try apply Itoa_no_byte.
Qed.

Lemma IntToString_nonempty v : IntToString v <> "".
Proof. destruct v as [[a b] c]. unfold IntToString. destruct (Itoa a) eqn:E; [by apply Itoa_nonempty in E|done]. Qed.

(** (roundtrip) a version whose parts fit 63 bits is read back from its own text. *)
Theorem parseVersionString_IntToString a b c :
  0 <= a < 2 ^ 63 -> 0 <= b < 2 ^ 63 -> 0 <= c < 2 ^ 63 ->
  parseVersionString (IntToString (a, b, c)) = Ok (a, b, c).
Proof.
  intros Ha Hb Hc. unfold parseVersionString.
  rewrite bool_decide_eq_false_2 by apply IntToString_nonempty. rewrite IntToString_Split by lia.
  rewrite !ParseUint_Itoa by (unfold in_u; lia).
  by rewrite !swrap_small by (unfold in_s; lia).
Qed.

Lemma parseVersionString_IntToString_witness : parseVersionString (IntToString (2, 0, 55)) = Ok (2, 0, 55).
Proof. apply (parseVersionString_IntToString 2 0 55); lia. Defined.
