(* ===== verification/ModDeps.v ===== *)
(** * Mod dependencies: [src/modupdate/newUpdate.go], [src/modupdate/util.go],
    [src/modedit/versionprefs.go]

    The parser of a dependency line, the list of planned downloads, the resolver
    that walks the releases of the mod portal, and the list of installed mods.
    The portal is [downloadModInfo], the package variable the resolver calls. *)
From Stdlib Require Import Ascii.
From S2P Require Import Prelude.
From S2P Require Import GoInt.
From S2P Require Import GoString.
From S2P Require Import ModVersion.

(** ** [src/modupdate/struct.go]: the fields the program reads *)
Record modInfoJSON := { ij_Dependencies : list string; ij_FactorioVersion : string }.
#[export] Instance modInfoJSON_settable : Settable modInfoJSON := mkSettable (fun r => {| ij_Dependencies := ij_Dependencies r; ij_FactorioVersion := ij_FactorioVersion r |}).
#[export] Instance modInfoJSON_eq_dec : EqDecision modInfoJSON.
Proof. solve_decision. Defined.

Record modRelease := {
  r_DownloadURL : string; r_FileName : string; r_InfoJSON : modInfoJSON;
  r_Sha1 : string; r_Version : string }.
#[export] Instance modRelease_eq_dec : EqDecision modRelease.
Proof. solve_decision. Defined.

(** [modRelease{Version: v}]. *)
Definition release_at (v : string) : modRelease :=
  {| r_DownloadURL := ""; r_FileName := ""; r_InfoJSON := {| ij_Dependencies := []; ij_FactorioVersion := "" |};
     r_Sha1 := ""; r_Version := v |}.

Record modZipInfo := {
  z_Name : string; z_Version : string; z_Title : string; z_FactorioVersion : string;
  z_Dependencies : list string; z_Filename : string; z_OldFilename : string; z_Enabled : bool }.
#[export] Instance modZipInfo_settable : Settable modZipInfo := mkSettable (fun r =>
  {| z_Name := z_Name r; z_Version := z_Version r; z_Title := z_Title r; z_FactorioVersion := z_FactorioVersion r;
     z_Dependencies := z_Dependencies r; z_Filename := z_Filename r; z_OldFilename := z_OldFilename r;
     z_Enabled := z_Enabled r |}).
#[export] Instance modZipInfo_eq_dec : EqDecision modZipInfo.
Proof. solve_decision. Defined.
Definition noZip : modZipInfo :=
  {| z_Name := ""; z_Version := ""; z_Title := ""; z_FactorioVersion := ""; z_Dependencies := [];
     z_Filename := ""; z_OldFilename := ""; z_Enabled := false |}.

Record modPortalFullData := {
  p_Name : string; p_Title : string; p_Releases : list modRelease;
  p_filename : string; p_installed : modZipInfo }.

Record downloadData := {
  d_Name : string; d_Title : string; d_Filename : string; d_OldFilename : string;
  d_RequiredByName : string; d_RequiredByVersion : string;
  d_Data : modRelease; d_Complete : bool; d_Version : string; d_OldVersion : string; d_wasDep : bool }.
#[export] Instance downloadData_settable : Settable downloadData := mkSettable (fun r =>
  {| d_Name := d_Name r; d_Title := d_Title r; d_Filename := d_Filename r; d_OldFilename := d_OldFilename r;
     d_RequiredByName := d_RequiredByName r; d_RequiredByVersion := d_RequiredByVersion r;
     d_Data := d_Data r; d_Complete := d_Complete r; d_Version := d_Version r; d_OldVersion := d_OldVersion r;
     d_wasDep := d_wasDep r |}).
#[export] Instance downloadData_eq_dec : EqDecision downloadData.
Proof. solve_decision. Defined.

Record ModData := { md_Name : string; md_Enabled : bool }.
#[export] Instance ModData_settable : Settable ModData := mkSettable (fun r => {| md_Name := md_Name r; md_Enabled := md_Enabled r |}).
#[export] Instance ModData_eq_dec : EqDecision ModData.
Proof. solve_decision. Defined.
Record ModListData := { Mods : list ModData }.

Record depRequires := {
  dep_name : string; dep_version : string; dep_equality : operator;
  dep_optional : bool; dep_incompatible : bool }.
#[export] Instance depRequires_eq_dec : EqDecision depRequires.
Proof. solve_decision. Defined.

Definition IsBaseMod (dep : string) : bool :=
  bool_decide (dep = "base") || bool_decide (dep = "elevated-rails") || bool_decide (dep = "quality")
  || bool_decide (dep = "space-age") || bool_decide (dep = "recycler").

(** ** [parseDep] *)
Definition is_comparator (c : ascii) : bool :=
  Ascii.eqb c ">" || Ascii.eqb c "<" || Ascii.eqb c "=".

(** The first comparator at an index other than 0, and the last comparator. *)
Fixpoint scan_comparators (c nameEnd versionStart : nat) (s : string) : nat * nat :=
  match s with
  | EmptyString => (nameEnd, versionStart)
  | String ch s =>
      if is_comparator ch then scan_comparators (S c) (if (nameEnd =? 0)%nat then c else nameEnd) c s
      else scan_comparators (S c) nameEnd versionStart s
  end.

Definition strip_dep_prefixes (input : string) : string :=
  TrimSpace (TrimPrefix (TrimPrefix (TrimPrefix (TrimPrefix (TrimPrefix input "~") "!") "?") "(?)") "( ? )").

Definition parseDep (input : string) : depRequires :=
  let input := TrimSpace input in
  let incompatible := Contains input "!" in
  let optional := HasPrefix input "?" || HasPrefix input "(?)" || HasPrefix input "( ? )" in
  let input := strip_dep_prefixes input in
  let '(nameEnd, versionStart) := scan_comparators 0 0 0 input in
  if (nameEnd =? 0)%nat then
    {| dep_name := input; dep_version := ""; dep_equality := EO_ERROR;
       dep_optional := optional; dep_incompatible := incompatible |}
  else
    {| dep_name := TrimSpace (string_take nameEnd input);
       dep_equality := parseOperator (TrimSpace (string_drop nameEnd (string_take (versionStart + 1) input)));
       dep_version := TrimSpace (string_drop (versionStart + 1) input);
       dep_optional := optional; dep_incompatible := incompatible |}.

Example parseDep_1 : parseDep " ( ? ) flare-stack>=1.2 " =
  {| dep_name := "flare-stack"; dep_version := "1.2"; dep_equality := EO_GREATEREQ;
     dep_optional := true; dep_incompatible := false |}.
Proof. reflexivity. Qed.
Example parseDep_2 : parseDep "! rampant = 1.0" =
  {| dep_name := "rampant"; dep_version := "1.0"; dep_equality := EO_EQUAL;
     dep_optional := false; dep_incompatible := true |}.
Proof. reflexivity. Qed.
Example parseDep_3 : dep_name (parseDep ">= 1.0") = ">". Proof. reflexivity. Qed.

(** ** [src/modedit/versionprefs.go] *)
Record ModVersion_ := { mv_Name : string; mv_Version : string }.
Definition VersionPrefs := list ModVersion_.

Section prefs.
Context `{UnicodeTables}.

Definition GetVersion (prefs : VersionPrefs) (name : string) : string :=
  match list_find (fun m => EqualFold (mv_Name m) name = true) prefs with
  | Some (_, m) => mv_Version m
  | None => ""
  end.

(** The preferences [SetVersion] writes back. *)
Definition set_pref (prefs : VersionPrefs) (name version : string) : VersionPrefs :=
  let rest :=
    match list_find (fun m => EqualFold (mv_Name m) name = true) prefs with
    | Some (i, _) => delete i prefs
    | None => prefs
    end in
  if bool_decide (version = "") then rest
  else rest ++ [{| mv_Name := name; mv_Version := version |}].
End prefs.

(** ** The list of planned downloads *)

(** A download whose version does not parse leaves the list as it is. *)
Fixpoint addDownload (input : downloadData) (list : list downloadData) : Datatypes.list downloadData :=
  match list with
  | [] => [input]
  | item :: rest =>
      if bool_decide (d_Name item = d_Name input) then
        match checkVersion EO_GREATER (r_Version (d_Data item)) (r_Version (d_Data input)) with
        | Ok true => input :: rest
        | _ => list
        end
      else item :: addDownload input rest
  end.

Definition dependencySatisfied (depInfo : depRequires) (installedVersion : string) (planned : list downloadData)
  : result string bool :=
  let version :=
    match list_find (fun item => d_Name item = dep_name depInfo) planned with
    | Some (_, item) => d_Version item
    | None => installedVersion
    end in
  if bool_decide (version = "") then Ok false
  else if bool_decide (dep_version depInfo = "") then Ok true
  else checkVersion (dep_equality depInfo) (dep_version depInfo) version.

(** ** The resolver *)
Section resolver.
Context `{UnicodeTables}.
Variable downloadModInfo : string -> result string modPortalFullData.
Variable FactorioVersion : string.
Variable prefs : VersionPrefs.

Definition Unknown : string := "Unknown".

Definition releaseMatchesFactorioVersion (rel : modRelease) : bool :=
  let modVersion := TrimSpace (ij_FactorioVersion (r_InfoJSON rel)) in
  let gameVersion := TrimSpace FactorioVersion in
  if bool_decide (modVersion = "") || bool_decide (gameVersion = "") || EqualFold gameVersion Unknown then true
  else
    match versionToInt modVersion with
    | Err _ => false
    | Ok (m0, m1, _) =>
        match versionToInt gameVersion with
        | Err _ => true
        | Ok (g0, g1, _) => (m0 =? g0) && (m1 =? g1)
        end
    end.

Definition preferred_version (name : string) : string :=
  let preferred := GetVersion prefs name in
  if EqualFold preferred "auto" then "" else preferred.

(** The walk over the releases of one mod: the best release so far, its
    dependencies, and whether the preferred release was accepted. *)
Record candidate_state := {
  candidate : modRelease; candidateDeps : list downloadData; preferredResolved : bool }.

(** [depDownload.RequiredByName == ""] *)
Definition tag_required_by (item : modPortalFullData) (rel : modRelease) (dl : downloadData) : downloadData :=
  if bool_decide (d_RequiredByName dl = "") then
    dl <| d_RequiredByName := p_Name item |> <| d_RequiredByVersion := r_Version rel |>
  else dl.

Section one_list.
Variable recurse : list modPortalFullData -> list string -> result string (list downloadData).
Variable modPortalData : list modPortalFullData.
Variable wasDep : bool.
Variable parents : list string.

(** One dependency of a release; an unmet one does not stop the loop. *)
Definition check_dep (item : modPortalFullData) (rel : modRelease) (acc : bool * list downloadData) (dep : string)
  : result string (bool * list downloadData) :=
  let '(depsMet, releaseDeps) := acc in
  let depInfo := parseDep dep in
  if dep_incompatible depInfo then Ok acc
  else if dep_optional depInfo then Ok acc
  else if IsBaseMod (dep_name depInfo) then
    if bool_decide (dep_version depInfo = "") then Ok acc
    else
      match checkVersion (dep_equality depInfo) (dep_version depInfo) FactorioVersion with
      | Ok true => Ok acc
      | _ => Ok (false, releaseDeps)
      end
  else
    depPortalInfo ←
      match list_find (fun item => p_Name item = dep_name depInfo) modPortalData with
       | Some (_, item) => Ok item
       | None => downloadModInfo (dep_name depInfo)
       end;
    dl ← recurse [depPortalInfo] (parents ++ [p_Name item]);
    good ← dependencySatisfied depInfo (z_Version (p_installed depPortalInfo)) dl;
    if (good : bool) then Ok (depsMet, foldl (fun deps d => addDownload (tag_required_by item rel d) deps) releaseDeps dl)
    else Ok (false, releaseDeps).

(** One release. *)
Definition check_release (item : modPortalFullData) (preferred : string) (st : candidate_state) (rel : modRelease)
  : result string candidate_state :=
  if negb (bool_decide (preferred = "")) && negb (bool_decide (r_Version rel = preferred)) then Ok st
  else
    releaseNewer ←
      (if negb (bool_decide (preferred = "")) || bool_decide (z_Version (p_installed item) = "") then Ok true
       else checkVersion EO_GREATER (z_Version (p_installed item)) (r_Version rel));
    if negb releaseNewer then Ok st
    else
      releaseNewer ← checkVersion EO_GREATER (r_Version (candidate st)) (r_Version rel);
      if negb (releaseNewer || negb (bool_decide (preferred = ""))) then Ok st
      else if negb (releaseMatchesFactorioVersion rel) then Ok st
      else
        deps ← foldM (check_dep item rel) (true, []) (ij_Dependencies (r_InfoJSON rel));
        let '(depsMet, releaseDeps) := (deps : bool * list downloadData) in
        if depsMet
        then Ok {| candidate := rel; candidateDeps := releaseDeps; preferredResolved := true |}
        else Ok st.

Definition first_candidate (item : modPortalFullData) : candidate_state :=
  {| candidate := release_at (if bool_decide (z_Version (p_installed item) = "") then "0.0.0"
                              else z_Version (p_installed item));
     candidateDeps := []; preferredResolved := false |}.

Definition planned_download (item : modPortalFullData) (rel : modRelease) : downloadData :=
  {| d_Title := p_Title item; d_Name := p_Name item; d_Filename := r_FileName rel;
     d_OldFilename := z_Filename (p_installed item); d_Data := rel; d_Version := r_Version rel;
     d_OldVersion := z_Version (p_installed item); d_wasDep := wasDep;
     d_RequiredByName := ""; d_RequiredByVersion := ""; d_Complete := false |}.

(** One mod. *)
Definition resolve_item (downloadMods : list downloadData) (item : modPortalFullData)
  : result string (list downloadData) :=
  if bool_decide (p_Name item ∈ parents) then Ok downloadMods
  else
    let preferred := preferred_version (p_Name item) in
    st ← foldM (check_release item preferred) (first_candidate item) (p_Releases item);
    if negb (bool_decide (preferred = "")) && negb (preferredResolved st) then
      Err ("cannot resolve preferred version " +:+ preferred +:+ " for " +:+ p_Name item
           +:+ " with compatible dependencies and Factorio version")
    else if negb wasDep && bool_decide (r_Version (candidate st) = "0.0.0") then
      Err ("cannot install " +:+ p_Name item +:+ ": no release has compatible dependencies and Factorio version")
    else
      let downloadMods := foldl (fun l d => addDownload d l) downloadMods (candidateDeps st) in
      if bool_decide (r_Version (candidate st) = "0.0.0")
         || bool_decide (z_Version (p_installed item) = r_Version (candidate st))
      then Ok downloadMods
      else Ok (addDownload (planned_download item (candidate st)) downloadMods).

Definition resolve_list : result string (list downloadData) := foldM resolve_item [] modPortalData.
End one_list.

(** [levels] is 11 less the depth: the call at depth 11 returns nothing. *)
Fixpoint resolve_levels (levels : nat) (modPortalData : list modPortalFullData) (wasDep : bool) (parents : list string)
  : result string (list downloadData) :=
  match levels with
  | O => Ok []
  | S levels => resolve_list (fun l p => resolve_levels levels l true p) modPortalData wasDep parents
  end.

Definition resolveDepsWithPrefs (modPortalData : list modPortalFullData) (wasDep : bool) (depth : nat)
    (parents : list string) : result string (list downloadData) :=
  resolve_levels (11 - depth) modPortalData wasDep parents.
End resolver.

Definition resolveDeps `{UnicodeTables} downloadModInfo FactorioVersion modPortalData wasDep depth parents :=
  resolveDepsWithPrefs downloadModInfo FactorioVersion [] modPortalData wasDep depth parents.

(** * What the resolver plans: soundness of [resolveDepsWithPrefs]

    Every planned download is a release the portal offers for that mod, for this
    game version, newer than the installed one or preferred; no mod is planned
    twice; and a set of mods that is up to date plans nothing. *)
(** ** The list of downloads *)
Lemma elem_of_addDownload d x l : x ∈ addDownload d l -> x = d \/ x ∈ l.
Proof.
  induction l as [|y l IH]; simpl; [set_solver|].
  case_bool_decide; [repeat case_match; set_solver|set_solver].
Qed.

Lemma addDownload_names d l x :
  x ∈ d_Name <$> addDownload d l <-> x = d_Name d \/ x ∈ d_Name <$> l.
Proof.
  induction l as [|y l IH]; simpl; [set_solver|].
  case_bool_decide as Hn; [repeat case_match; set_solver|set_solver].
Qed.

Lemma addDownload_NoDup d l : NoDup (d_Name <$> l) -> NoDup (d_Name <$> addDownload d l).
Proof.
  induction l as [|y l IH]; simpl; [intros _; apply NoDup_singleton|].
  rewrite NoDup_cons. intros [Hy Hl]. case_bool_decide as Hn.
  - assert (NoDup (d_Name y :: (d_Name <$> l))) by (apply NoDup_cons; done).
    repeat case_match; simpl; [by rewrite <-Hn|done|done].
  - simpl. rewrite NoDup_cons. split; [|auto]. rewrite addDownload_names. naive_solver.
Qed.

Lemma foldl_addDownload_NoDup (f : downloadData -> downloadData) ds l :
  NoDup (d_Name <$> l) -> NoDup (d_Name <$> foldl (fun l d => addDownload (f d) l) l ds).
Proof. revert l. induction ds as [|d ds IH]; intros l Hl; simpl; [done|]. by apply IH, addDownload_NoDup. Qed.

Lemma foldl_addDownload_Forall (P : downloadData -> Prop) (f : downloadData -> downloadData) ds l :
  Forall P l -> Forall P (f <$> ds) -> Forall P (foldl (fun l d => addDownload (f d) l) l ds).
Proof.
  revert l. induction ds as [|d ds IH]; intros l Hl; simpl; [done|]. intros [Hd Hds]%Forall_cons.
  apply IH; [|done]. rewrite Forall_forall in Hl |- *. intros x [->|Hx]%elem_of_addDownload; auto.
Qed.

(** A mod that is in the list is replaced exactly by a newer release. *)
Definition newer_download (x d : downloadData) : Prop :=
  checkVersion EO_GREATER (r_Version (d_Data x)) (r_Version (d_Data d)) = Ok true.

Lemma addDownload_entry d l :
  NoDup (d_Name <$> l) ->
  exists k, k ∈ addDownload d l /\ d_Name k = d_Name d /\
    (forall x, x ∈ l -> d_Name x = d_Name d -> k = d /\ newer_download x d \/ k = x /\ ~ newer_download x d) /\
    (k = d \/ k ∈ l).
Proof.
  induction l as [|y l IH]; intros Hnd; simpl in *; [exists d; set_solver|].
  apply NoDup_cons in Hnd as [Hy Hl]. case_bool_decide as Hn.
  - assert (Hsame : forall x, x ∈ y :: l -> d_Name x = d_Name d -> x = y).
    { intros x [->|Hx]%elem_of_cons Hxn; [done|]. contradict Hy. rewrite Hn, <-Hxn. by apply list_elem_of_fmap_2. }
    unfold newer_download. destruct (checkVersion EO_GREATER _ _) as [[]|e] eqn:E; [exists d|exists y|exists y];
      (split; [by left|]); (split; [done|]); (split; [|set_solver]); intros x Hx Hxn;
      rewrite (Hsame x Hx Hxn); rewrite E; [left|right|right]; done.
  - destruct (IH Hl) as (k & Hk & Hkn & Hkx & Hin). exists k. split; [by right|]. split; [done|].
    split; [|set_solver]. intros x [->|Hx]%elem_of_cons Hxn; [done|auto].
Qed.

(** (functional) a download is added under its name once: of two downloads of
    the same mod the list keeps one, and the newer of the two when both versions
    parse; the downloads of other mods stay as they are. *)
Theorem addDownload_keeps_newest d l :
  NoDup (d_Name <$> l) ->
  NoDup (d_Name <$> addDownload d l) /\
  (forall x, x ∈ l -> d_Name x <> d_Name d -> x ∈ addDownload d l) /\
  exists k, k ∈ addDownload d l /\ d_Name k = d_Name d /\
    forall x vd vx, x ∈ l -> d_Name x = d_Name d ->
      versionToInt (r_Version (d_Data d)) = Ok vd -> versionToInt (r_Version (d_Data x)) = Ok vx ->
      k = (if isVersionNewerThan vd vx then d else x).
Proof.
  intros Hnd. split; [by apply addDownload_NoDup|]. split.
  { clear Hnd. induction l as [|y l IH]; simpl; [set_solver|]. intros x Hx Hn.
    case_bool_decide; [repeat case_match; set_solver|set_solver]. }
  destruct (addDownload_entry d l Hnd) as (k & Hk & Hkn & Hkx & _). exists k. split; [done|]. split; [done|].
  intros x vd vx Hx Hxn Hvd Hvx. specialize (Hkx x Hx Hxn). unfold newer_download in Hkx.
  rewrite (checkVersion_newer _ _ _ _ Hvx Hvd), <-isVersionNewerThan_spec in Hkx.
  case_match; naive_solver.
Qed.

(** ** Soundness of the resolver *)
Section soundness.
Context `{UnicodeTables}.
Variable downloadModInfo : string -> result string modPortalFullData.
Variable FactorioVersion : string.
Variable prefs : VersionPrefs.

(** Where a mod comes from: the list of the call, or an answer of the portal. *)
Definition Offered (all : list modPortalFullData) (item : modPortalFullData) : Prop :=
  item ∈ all \/ exists q, downloadModInfo q = Ok item.

(** The game provides what a dependency line asks of a built-in mod. *)
Definition game_provides (line : string) : Prop :=
  let dep := parseDep line in
  dep_incompatible dep = false -> dep_optional dep = false -> IsBaseMod (dep_name dep) = true ->
  dep_version dep <> "" ->
  checkVersion (dep_equality dep) (dep_version dep) FactorioVersion = Ok true.

Definition Selected (item : modPortalFullData) (rel : modRelease) : Prop :=
  rel ∈ p_Releases item /\
  releaseMatchesFactorioVersion FactorioVersion rel = true /\
  Forall game_provides (ij_Dependencies (r_InfoJSON rel)) /\
  (if bool_decide (preferred_version prefs (p_Name item) = "")
   then z_Version (p_installed item) = "" \/
        checkVersion EO_GREATER (z_Version (p_installed item)) (r_Version rel) = Ok true
   else r_Version rel = preferred_version prefs (p_Name item)).

Definition Justified (all : list modPortalFullData) (d : downloadData) : Prop :=
  exists item, Offered all item /\ d_Name d = p_Name item /\ Selected item (d_Data d) /\
    d_Version d = r_Version (d_Data d) /\ d_Filename d = r_FileName (d_Data d) /\
    d_OldVersion d = z_Version (p_installed item) /\ d_OldFilename d = z_Filename (p_installed item) /\
    d_Version d <> d_OldVersion d.

Lemma Justified_offered all item d : Offered all item -> Justified [item] d -> Justified all d.
Proof.
  intros Hi (it & [Hit%list_elem_of_singleton|Hq] & Hd); exists it; (split; [|done]); [by subst it|by right].
Qed.

Lemma tag_Justified all item rel d : Justified all d -> Justified all (tag_required_by item rel d).
Proof. unfold tag_required_by. by case_bool_decide. Qed.

Section level.
Variable recurse : list modPortalFullData -> list string -> result string (list downloadData).
Hypothesis recurse_sound : forall l p dls,
  recurse l p = Ok dls -> NoDup (d_Name <$> dls) /\ Forall (Justified l) dls.
Variable all : list modPortalFullData.
Variable parents : list string.

Lemma check_dep_sound item rel done_ acc line acc' :
  (fst acc = true -> Forall game_provides done_) /\ Forall (Justified all) (snd acc) ->
  check_dep downloadModInfo FactorioVersion recurse all parents item rel acc line = Ok acc' ->
  (fst acc' = true -> Forall game_provides (done_ ++ [line])) /\ Forall (Justified all) (snd acc').
Proof.
  destruct acc as [met deps]. cbn [fst snd]. intros [Hmet Hdeps].
  assert (Hkeep : game_provides line -> (met = true -> Forall game_provides (done_ ++ [line])) /\ Forall (Justified all) deps)
    by (intros; split; [|done]; intros; apply Forall_app; split; [auto|by apply Forall_singleton]).
  unfold check_dep. destruct (dep_incompatible (parseDep line)) eqn:Ei.
  { intros [= <-]. apply Hkeep. unfold game_provides. congruence. }
  destruct (dep_optional (parseDep line)) eqn:Eo; [intros [= <-]; apply Hkeep; unfold game_provides; congruence|].
  destruct (IsBaseMod (dep_name (parseDep line))) eqn:Eb.
  - case_bool_decide as Ev; [intros [= <-]; apply Hkeep; unfold game_provides; congruence|].
    destruct (checkVersion _ _ _) as [[]|] eqn:Ec; intros [= <-]; [apply Hkeep; by intros ????|done..].
  - intros (info & Hinfo & (dl & Hdl & (good & _ & Hacc)%result_bind_ok)%result_bind_ok)%result_bind_ok.
    destruct good; injection Hacc as <-; [|done]. cbn [fst snd].
    split; [apply Hkeep; unfold game_provides; congruence|].
    apply foldl_addDownload_Forall; [done|]. apply Forall_fmap.
    destruct (recurse_sound _ _ _ Hdl) as [_ Hj]. eapply Forall_impl; [exact Hj|]. intros d Hd. simpl.
    apply tag_Justified, (Justified_offered _ info); [|done].
    destruct (list_find _ all) as [[i x]|] eqn:Ef; [|right; eauto].
    injection Hinfo as <-. left. apply list_find_Some in Ef as (Ef & _). by eapply list_elem_of_lookup_2.
Qed.

Definition sound_state (item : modPortalFullData) (st : candidate_state) : Prop :=
  (candidate st = candidate (first_candidate item) \/ Selected item (candidate st)) /\
  Forall (Justified all) (candidateDeps st).

Lemma check_release_sound item st rel st' :
  rel ∈ p_Releases item -> sound_state item st ->
  check_release downloadModInfo FactorioVersion recurse all parents item (preferred_version prefs (p_Name item)) st rel = Ok st' ->
  sound_state item st'.
Proof.
  intros Hrel Hst. unfold check_release.
  destruct (negb (bool_decide (preferred_version _ _ = "")) && _) eqn:Ep; [by intros [= <-]|].
  intros (newer & Hnewer & Hk)%result_bind_ok. destruct newer; [|by injection Hk as <-].
  apply result_bind_ok in Hk as (best & Hbest & Hk). cbn [negb] in Hk.
  destruct (negb (best || _)); [by injection Hk as <-|].
  destruct (releaseMatchesFactorioVersion _ rel) eqn:Em; [|by injection Hk as <-]. cbn [negb] in Hk.
  apply result_bind_ok in Hk as ([met deps] & Hdeps & Hk).
  destruct met; injection Hk as <-; [|done].
  apply (foldM_inv_prefix (fun done_ acc => (fst acc = true -> Forall game_provides done_) /\ Forall (Justified all) (snd acc)))
    in Hdeps as [Hb Hj]; [|by split; [intros; apply Forall_nil|apply Forall_nil]|intros; by eapply check_dep_sound].
  split; [right|exact Hj]. split; [done|]. split; [done|]. split; [by apply Hb|].
  destruct (bool_decide (preferred_version prefs (p_Name item) = "")) eqn:E; cbn in *.
  - case_bool_decide as Ei; [by left|by right].
  - apply negb_false_iff, bool_decide_eq_true in Ep. done.
Qed.

Lemma resolve_item_sound wasDep l item l' :
  item ∈ all ->
  NoDup (d_Name <$> l) /\ Forall (Justified all) l ->
  resolve_item downloadModInfo FactorioVersion prefs recurse all wasDep parents l item = Ok l' ->
  NoDup (d_Name <$> l') /\ Forall (Justified all) l'.
Proof.
  intros Hitem [Hnd Hl]. unfold resolve_item. case_bool_decide; [by intros [= <-]|].
  intros (st & Hst & Hk)%result_bind_ok.
  apply (foldM_inv (sound_state item)) in Hst as [Hc Hdeps]; [|by split; [left|apply Forall_nil]|intros; by eapply check_release_sound].
  case_match; [done|]. case_match; [done|]. case_match eqn:Ev; injection Hk as <-.
  - split; [by apply (foldl_addDownload_NoDup id)|].
    apply (foldl_addDownload_Forall _ id); [done|]. by rewrite list_fmap_id.
  - split; [by apply addDownload_NoDup, (foldl_addDownload_NoDup id)|].
    apply Forall_forall. intros x [->|Hx]%elem_of_addDownload.
    + apply orb_false_iff in Ev as [E1%bool_decide_eq_false E2%bool_decide_eq_false].
      exists item. split; [by left|]. split; [done|]. split; [|by split_and!; try done; simpl; congruence].
      destruct Hc as [Hc|Hc]; [|done]. exfalso. rewrite Hc in E1, E2. cbn in E1, E2.
      case_bool_decide; [by apply E1|by apply E2].
    + revert Hx. apply Forall_forall. apply (foldl_addDownload_Forall _ id); [done|]. by rewrite list_fmap_id.
Qed.
End level.

Lemma resolve_levels_sound n all wasDep parents dls :
  resolve_levels downloadModInfo FactorioVersion prefs n all wasDep parents = Ok dls ->
  NoDup (d_Name <$> dls) /\ Forall (Justified all) dls.
Proof.
  revert all wasDep parents dls. induction n as [|n IH]; intros all wasDep parents dls; simpl.
  { intros [= <-]. split; [apply NoDup_nil_2|apply Forall_nil_2]. }
  unfold resolve_list. apply (foldM_inv (fun l => NoDup (d_Name <$> l) /\ Forall (Justified all) l)).
  - split; [apply NoDup_nil_2|apply Forall_nil_2].
  - intros l item l' Hin Hl. apply resolve_item_sound; [|done|done]. intros; by eapply IH.
Qed.

(** (safety) every planned download is justified: it is a release the portal
    offers for that mod (found in the list or looked up), made for this game
    version, whose requirements on built-in mods the game meets, and it is the
    preferred version or newer than what is installed; no mod is planned twice and
    none is planned at the version it already has. *)
Theorem resolveDeps_sound all wasDep depth parents dls :
  resolveDepsWithPrefs downloadModInfo FactorioVersion prefs all wasDep depth parents = Ok dls ->
  NoDup (d_Name <$> dls) /\ Forall (Justified all) dls.
Proof. apply resolve_levels_sound. Qed.
End soundness.

(** ** An installation that is up to date *)
Section up_to_date.
Context `{UnicodeTables}.
Variable downloadModInfo : string -> result string modPortalFullData.
Variable FactorioVersion : string.
Variable prefs : VersionPrefs.

Definition nothing_newer (item : modPortalFullData) : Prop :=
  preferred_version prefs (p_Name item) = "" /\
  z_Version (p_installed item) <> "" /\ z_Version (p_installed item) <> "0.0.0" /\
  Forall (fun rel => checkVersion EO_GREATER (z_Version (p_installed item)) (r_Version rel) = Ok false) (p_Releases item).

Lemma foldM_idle {E S A} (f : S -> A -> result E S) l s :
  Forall (fun a => f s a = Ok s) l -> foldM f s l = Ok s.
Proof. induction 1 as [|a l Ha _ IH]; simpl; [done|]. by rewrite Ha. Qed.

Lemma resolve_item_idle recurse all wasDep parents l item :
  nothing_newer item ->
  resolve_item downloadModInfo FactorioVersion prefs recurse all wasDep parents l item = Ok l.
Proof.
  intros (Hp & Hne & Hnz & Hrel). unfold resolve_item. case_bool_decide; [done|].
  rewrite Hp, bool_decide_eq_true_2 by done. cbn [negb andb].
  rewrite foldM_idle.
  - cbn -[bool_decide]. rewrite (bool_decide_eq_false_2 (z_Version (p_installed item) = "")) by done.
    cbn -[bool_decide]. rewrite bool_decide_eq_false_2 by done. rewrite andb_false_r. cbn -[bool_decide].
    by rewrite bool_decide_eq_true_2.
  - eapply Forall_impl; [exact Hrel|]. intros rel Hr. unfold check_release.
    rewrite bool_decide_eq_true_2 by done. cbn [negb andb orb].
    rewrite bool_decide_eq_false_2 by done. by rewrite Hr.
Qed.

(** (functional) when no installed mod has a newer release and none has a
    preferred version, the resolver plans nothing and asks the portal nothing. *)
Theorem up_to_date_plans_nothing all wasDep depth parents :
  Forall nothing_newer all ->
  resolveDepsWithPrefs downloadModInfo FactorioVersion prefs all wasDep depth parents = Ok [].
Proof.
  intros Hall. unfold resolveDepsWithPrefs. destruct (11 - depth)%nat; [done|]. apply foldM_idle.
  eapply Forall_impl; [exact Hall|]. intros item. apply resolve_item_idle.
Qed.
End up_to_date.

(** ** On concrete data *)
Module DepsDemo.
Definition release (v : string) : modRelease := release_at v.
Definition item (installed : string) (vs : list string) : modPortalFullData :=
  {| p_Name := "alpha"; p_Title := "Alpha"; p_Releases := map release vs; p_filename := "";
     p_installed := noZip <| z_Name := "alpha" |> <| z_Version := installed |> |}.
Definition plan (installed : string) (vs : list string) : result string (list downloadData) :=
  @resolveDepsWithPrefs ascii_tables (fun _ => Err "offline") "2.0.55" [] [item installed vs] false 0 [].
Definition download (v : string) : downloadData := planned_download false (item "" []) (release v).
End DepsDemo.

Lemma resolveDeps_sound_witness :
  exists d, DepsDemo.plan "1.0.0" ["1.2.0"; "1.10.0"; "1.9.0"] = Ok [d] /\ d_Version d = "1.10.0" /\
    NoDup (d_Name <$> [d]) /\
    Forall (@Justified ascii_tables (fun _ => Err "offline") "2.0.55" [] [DepsDemo.item "1.0.0" ["1.2.0"; "1.10.0"; "1.9.0"]]) [d].
Proof.
  eexists. split; [reflexivity|]. split; [reflexivity|].
  apply (@resolveDeps_sound ascii_tables (fun _ => Err "offline") "2.0.55" []
    [DepsDemo.item "1.0.0" ["1.2.0"; "1.10.0"; "1.9.0"]] false 0 []). reflexivity.
Defined.

Lemma up_to_date_plans_nothing_witness : DepsDemo.plan "1.10.0" ["1.2.0"; "1.10.0"; "1.9.0"] = Ok [].
Proof.
  apply (@up_to_date_plans_nothing ascii_tables (fun _ => Err "offline") "2.0.55" []). apply Forall_singleton.
  split; [reflexivity|]. split; [done|]. split; [done|]. repeat (apply Forall_cons; split; [reflexivity|]). apply Forall_nil_2.
Defined.

Lemma addDownload_keeps_newest_witness :
  NoDup (d_Name <$> addDownload (DepsDemo.download "1.10.0") [DepsDemo.download "1.9.0"]).
Proof.
  apply (addDownload_keeps_newest (DepsDemo.download "1.10.0") [DepsDemo.download "1.9.0"]). apply NoDup_singleton.
Defined.
