(* ===== verification/ModPlan.v ===== *)
(** * The update plan: [validateDownloadPlan], [MergeModLists], [GetModFiles]

    The installed mods are the files of the mods folder merged with
    [mod-list.json]; a plan is accepted when the versions that will coexist
    after it satisfy every dependency line. *)
From Stdlib Require Import Ascii.
From S2P Require Import Prelude.
From S2P Require Import GoInt.
From S2P Require Import GoString.
From S2P Require Import ModVersion.
From S2P Require Import ModDeps.

(** ** The installed mods *)

(** [GetModFiles]: of two archives of one mod the newer is kept, and the first
    when a version does not parse.  [infos] are the archives of the folder, in
    the order of the directory, whose [info.json] could be read; the Go map is
    listed in no particular order, so the result is the map. *)
Definition add_mod_file (m : gmap string modZipInfo) (info : modZipInfo) : gmap string modZipInfo :=
  match m !! z_Name info with
  | Some old =>
      match checkVersion EO_GREATER (z_Version old) (z_Version info) with
      | Ok true => <[z_Name info := info]> m
      | _ => m
      end
  | None => <[z_Name info := info]> m
  end.

Definition GetModFiles (infos : list (string * option modZipInfo)) : gmap string modZipInfo :=
  foldl (fun m '(filename, info) =>
    if HasSuffix filename ".zip" then
      match info with
      | Some info => add_mod_file m (info <| z_Filename := filename |>)
      | None => m
      end
    else m) ∅ infos.

Section merge.
Variable FactorioVersion : string.

Definition merge_file (installedMods : list modZipInfo) (modFile : modZipInfo) : list modZipInfo :=
  if bool_decide (z_Name modFile ∈ z_Name <$> installedMods) then installedMods
  else installedMods ++ [modFile <| z_Enabled := true |>].

Definition merge_entry (installedMods : list modZipInfo) (md : ModData) : list modZipInfo :=
  match find_index (fun item => bool_decide (z_Name item = md_Name md)) installedMods with
  | Some i => alter (fun item => item <| z_Enabled := md_Enabled md |>) i installedMods
  | None =>
      installedMods ++
      [noZip <| z_Name := md_Name md |>
             <| z_Version := (if IsBaseMod (md_Name md) then FactorioVersion else "0.0.0") |>
             <| z_Enabled := md_Enabled md |>]
  end.

Definition MergeModLists (modFileList : list modZipInfo) (jsonModList : ModListData) : list modZipInfo :=
  foldl merge_entry (foldl merge_file [] modFileList) (Mods jsonModList).
End merge.

(** ** [validateDownloadPlan] *)
Record incMod := { im_Name : string; im_Version : string; im_Deps : list string }.
#[export] Instance incMod_eq_dec : EqDecision incMod.
Proof. solve_decision. Defined.

Definition final_mods (installed : list modZipInfo) (downloads : list downloadData) : gmap string incMod :=
  foldl (fun m md => <[d_Name md := {| im_Name := d_Name md; im_Version := d_Version md;
                                         im_Deps := ij_Dependencies (r_InfoJSON (d_Data md)) |}]> m)
    (foldl (fun m md =>
       if z_Enabled md
       then <[z_Name md := {| im_Name := z_Name md; im_Version := z_Version md; im_Deps := z_Dependencies md |}]> m
       else m) ∅ installed)
    downloads.

(** The errors carry the arguments of their messages. *)
Inductive plan_error :=
  | InvalidDependency (raw name err : string)
  | IncompatibleMod (name version dep depVersion : string)
  | MissingRequirement (name version raw depVersion : string).
#[export] Instance plan_error_eq_dec : EqDecision plan_error.
Proof. solve_decision. Defined.

Section validate.
Variable FactorioVersion : string.

(** The version of a dependency in the final set; a missing mod has none. *)
Definition final_version (final : gmap string incMod) (dep : string) : string :=
  if bool_decide (dep = "base") then FactorioVersion
  else default "" (im_Version <$> final !! dep).

Definition is_present (version : string) : bool :=
  negb (bool_decide (version = "")) && negb (bool_decide (version = "0.0.0")).

Definition validate_dep (final : gmap string incMod) (name : string) (md : incMod) (raw : string)
  : result plan_error unit :=
  let dep := parseDep raw in
  let version := final_version final (dep_name dep) in
  let present := is_present version in
  if negb present && (dep_optional dep || dep_incompatible dep) then Ok tt
  else
    matches ←
      (if present && negb (bool_decide (dep_version dep = "")) then
         map_err (InvalidDependency raw name) (checkVersion (dep_equality dep) (dep_version dep) version)
       else Ok present);
    if dep_incompatible dep then
      if (matches : bool) then Err (IncompatibleMod name (im_Version md) (dep_name dep) version) else Ok tt
    else if matches then Ok tt
    else Err (MissingRequirement name (im_Version md) raw version).

Definition validate_mod (final : gmap string incMod) (name : string) : result plan_error unit :=
  match final !! name with
  | Some md => foldM (fun _ => validate_dep final name md) tt (im_Deps md)
  | None => Ok tt
  end.

Definition validateDownloadPlan (installed : list modZipInfo) (downloads : list downloadData)
  : result plan_error unit :=
  let final := final_mods installed downloads in
  foldM (fun _ => validate_mod final) tt (sort_strings (map_to_list final).*1).

(** What one line asks of the final set. *)
Definition line_satisfied (final : gmap string incMod) (raw : string) : Prop :=
  let dep := parseDep raw in
  let version := final_version final (dep_name dep) in
  let present := is_present version = true in
  let in_range := dep_version dep = "" \/ checkVersion (dep_equality dep) (dep_version dep) version = Ok true in
  let out_of_range := dep_version dep <> "" /\ checkVersion (dep_equality dep) (dep_version dep) version = Ok false in
  if dep_incompatible dep then present -> out_of_range
  else if dep_optional dep then present -> in_range
  else present /\ in_range.

Lemma validate_dep_spec final name md raw :
  validate_dep final name md raw = Ok tt <-> line_satisfied final raw.
Proof.
  unfold validate_dep, line_satisfied. set (dep := parseDep raw).
  set (version := final_version final (dep_name dep)). clearbody dep version.
  destruct (is_present version); cbn [andb negb].
  - destruct (bool_decide_reflect (dep_version dep = "")) as [Hv|Hv]; cbn [negb].
    + destruct (dep_incompatible dep), (dep_optional dep); simpl; naive_solver.
    + destruct (checkVersion _ _ _) as [[]|]; destruct (dep_incompatible dep), (dep_optional dep); simpl; naive_solver.
  - destruct (dep_incompatible dep), (dep_optional dep); simpl; naive_solver.
Qed.

(** (safety) the plan check is exact: it passes exactly when, in the set of mods
    that will be enabled after the update, every dependency line of every mod holds:
    a requirement is there in an accepted version, an optional mod that is there has
    an accepted version, and an incompatible mod is absent or in another version. *)
Theorem validateDownloadPlan_exact installed downloads :
  validateDownloadPlan installed downloads = Ok tt <->
  forall name md, final_mods installed downloads !! name = Some md ->
    Forall (line_satisfied (final_mods installed downloads)) (im_Deps md).
Proof.
  unfold validateDownloadPlan. set (final := final_mods installed downloads). clearbody final.
  rewrite foldM_checks, Forall_forall. split.
  - intros H name md Hm. specialize (H name).
    assert (Hin : name ∈ sort_strings (map_to_list final).*1).
    { rewrite elem_of_sort_strings, elem_of_fst. exists md. by apply elem_of_map_to_list. }
    specialize (H Hin). unfold validate_mod in H. rewrite Hm, foldM_checks in H.
    eapply Forall_impl; [exact H|]. intros raw. exact (proj1 (validate_dep_spec final name md raw)).
  - intros H name Hin. rewrite elem_of_sort_strings, elem_of_fst in Hin. destruct Hin as [md Hm%elem_of_map_to_list].
    unfold validate_mod. rewrite Hm, foldM_checks. eapply Forall_impl; [exact (H name md Hm)|].
    intros raw. exact (proj2 (validate_dep_spec final name md raw)).
Qed.
End validate.
