(* ===== verification/ModHistory.v ===== *)
(** * The history of mod changes: [src/modupdate/modHistory.go]

    The history in memory and its file.  Writing the file is a parameter that
    says whether it succeeded; the text of the file is JSON, so the file is kept
    as the value it encodes. *)
From Stdlib Require Import Ascii.
From S2P Require Import Prelude.
From S2P Require Import GoString.
From S2P Require Import GoTime.

Definition BootName : string := "Factorio Booted".
Definition InstalledNote : string := "Installed".
Definition AddedNote : string := "Added by".
Definition UpdatedNote : string := "Updated".

Record ModHistoryItem := {
  h_InfoItem : bool; h_Name : string; h_Notes : string; h_Version : string; h_OldVersion : string;
  h_Filename : string; h_OldFilename : string; h_Date : time }.
#[export] Instance ModHistoryItem_settable : Settable ModHistoryItem := mkSettable (fun r =>
  {| h_InfoItem := h_InfoItem r; h_Name := h_Name r; h_Notes := h_Notes r; h_Version := h_Version r;
     h_OldVersion := h_OldVersion r; h_Filename := h_Filename r; h_OldFilename := h_OldFilename r;
     h_Date := h_Date r |}).
#[export] Instance ModHistoryItem_eq_dec : EqDecision ModHistoryItem.
Proof. solve_decision. Defined.

Record ModHistoryData := { History : list ModHistoryItem; Blacklist : list ModHistoryItem }.
#[export] Instance ModHistoryData_settable : Settable ModHistoryData := mkSettable (fun r =>
  {| History := History r; Blacklist := Blacklist r |}).

(** The package variable [ModHistory] and [modUpdateHistory.dat]. *)
Record history_state := { ModHistory : ModHistoryData; history_file : option ModHistoryData }.
#[export] Instance history_state_settable : Settable history_state := mkSettable (fun r =>
  {| ModHistory := ModHistory r; history_file := history_file r |}).

Definition WriteModHistory (write_ok : bool) (s : history_state) : history_state :=
  if write_ok then s <| history_file := Some (ModHistory s) |> else s.

(** The file of an earlier run; [None] when it is missing or does not parse. *)
Definition ReadModHistory (s : history_state) : bool * history_state :=
  match history_file s with
  | Some h => (true, s <| ModHistory := h |>)
  | None => (false, s)
  end.

Definition ClearHistory (write_ok : bool) (s : history_state) : string * history_state :=
  ("Mod history was cleared.",
   WriteModHistory write_ok (s <| ModHistory := {| History := []; Blacklist := [] |} |>)).

(** [strings.HasPrefix(item.Notes, AddedNote)] for the same mod. *)
Definition added_by (newItem item : ModHistoryItem) : bool :=
  bool_decide (h_Name item = h_Name newItem) && HasPrefix (h_Notes item) AddedNote.

Definition last_is_boot (l : list ModHistoryItem) : bool :=
  match last l with Some item => bool_decide (h_Name item = BootName) | None => false end.

Definition recorded (newItem item : ModHistoryItem) : bool :=
  negb (h_InfoItem item) && bool_decide (h_Name item = h_Name newItem) && bool_decide (h_Version item = h_Version newItem).

(** The entries after the call; the early returns of the code in their order. *)
Definition add_history_item (newItem : ModHistoryItem) (l : list ModHistoryItem) : list ModHistoryItem :=
  match (if bool_decide (h_Notes newItem = InstalledNote) then find_index (added_by newItem) l else None) with
  | Some i => alter (fun item => newItem <| h_Notes := h_Notes item |>) i l
  | None =>
      if bool_decide (h_Name newItem = BootName) && last_is_boot l then <[(length l - 1)%nat := newItem]> l
      else if existsb (recorded newItem) l then l
      else l ++ [newItem]
  end.

Definition AddModHistory (write_ok : bool) (newItem : ModHistoryItem) (s : history_state) : history_state :=
  WriteModHistory write_ok (s <| ModHistory ::= fun h => h <| History ::= add_history_item newItem |> |>).

(** ** Properties *)
Lemma last_lookup_length {A} (l : list A) x : last l = Some x -> l !! (length l - 1)%nat = Some x.
Proof. intros H. rewrite <-H, last_lookup. f_equal. lia. Qed.

(** No two boot records follow each other. *)
Definition boots_apart (l : list ModHistoryItem) : Prop :=
  forall i a b, l !! i = Some a -> l !! S i = Some b -> ~ (h_Name a = BootName /\ h_Name b = BootName).

(** The entries of the same mod stay at their place. *)
Lemma boots_apart_names l l' : h_Name <$> l = h_Name <$> l' -> boots_apart l -> boots_apart l'.
Proof.
  intros E H i a b Ha Hb. 
  assert (Ea : (h_Name <$> l) !! i = Some (h_Name a)) by (by rewrite E, list_lookup_fmap, Ha).
  assert (Eb : (h_Name <$> l) !! S i = Some (h_Name b)) by (by rewrite E, list_lookup_fmap, Hb).
  rewrite list_lookup_fmap in Ea, Eb.
  destruct (l !! i) as [a0|] eqn:Ha0; [|done]. destruct (l !! S i) as [b0|] eqn:Hb0; [|done].
  simpl in Ea, Eb. injection Ea as <-. injection Eb as <-. by apply (H i).
Qed.

Lemma list_alter_insert {A} (f : A -> A) (l : list A) i x : l !! i = Some x -> alter f i l = <[i := f x]> l.
Proof. intros Hx. apply list_eq. intros j. destruct (decide (i = j)) as [->|Hne].
  - rewrite list_lookup_alter_eq, list_lookup_insert_eq, Hx by (by eapply lookup_lt_Some). done.
  - by rewrite list_lookup_alter_ne, list_lookup_insert_ne.
Qed.

Lemma list_insert_fmap_same {A B} (f : A -> B) (l : list A) i x y :
  l !! i = Some x -> f y = f x -> f <$> <[i := y]> l = f <$> l.
Proof.
  intros Hx Hf. rewrite list_fmap_insert, Hf. apply list_insert_id. by rewrite list_lookup_fmap, Hx.
Qed.

Lemma add_history_item_names newItem l :
  h_Name <$> add_history_item newItem l = h_Name <$> l \/
  add_history_item newItem l = l ++ [newItem] /\ (h_Name newItem = BootName -> last_is_boot l = false).
Proof.
  unfold add_history_item. destruct (if bool_decide _ then _ else None) as [i|] eqn:E.
  - left. case_bool_decide; [|done]. apply find_index_Some in E as (x & Hx & Ha & _).
    unfold added_by in Ha. apply andb_true_iff in Ha as [Hn%bool_decide_eq_true _].
    rewrite (list_alter_insert _ _ _ _ Hx). by apply (list_insert_fmap_same _ _ _ x).
  - destruct (bool_decide (h_Name newItem = BootName)) eqn:Eb; cbn [andb]; bool_hyps.
    + destruct (last_is_boot l) eqn:El.
      * left. unfold last_is_boot in El. destruct (last l) as [x|] eqn:Ex; [|done]. bool_hyps.
        apply (list_insert_fmap_same _ _ _ x); [by apply last_lookup_length|congruence].
      * destruct (existsb (recorded newItem) l); [by left|by right].
    + destruct (existsb (recorded newItem) l); [by left|right; by split].
Qed.

Lemma add_history_item_has newItem l :
  exists item, item ∈ add_history_item newItem l /\ h_Name item = h_Name newItem /\ h_Version item = h_Version newItem.
Proof.
  unfold add_history_item. destruct (if bool_decide _ then _ else None) as [i|] eqn:E.
  - case_bool_decide; [|done]. apply find_index_Some in E as (x & Hx & _).
    rewrite (list_alter_insert _ _ _ _ Hx). exists (newItem <| h_Notes := h_Notes x |>). split; [|by split].
    eapply list_elem_of_lookup_2, list_lookup_insert_eq. by eapply lookup_lt_Some.
  - destruct (bool_decide (h_Name newItem = BootName) && last_is_boot l) eqn:Eb.
    + exists newItem. split; [|done]. apply andb_true_iff in Eb as [_ Eb]. unfold last_is_boot in Eb.
      destruct (last l) as [x|] eqn:Ex; [|done]. apply last_lookup_length in Ex.
      eapply list_elem_of_lookup_2, list_lookup_insert_eq. by eapply lookup_lt_Some.
    + destruct (existsb (recorded newItem) l) eqn:Er; [|exists newItem; set_solver].
      apply existsb_exists in Er as (x & Hx & Hr). exists x. unfold recorded in Hr. bool_hyps.
      split; [by apply list_elem_of_In|done].
Qed.

Lemma boots_apart_snoc l x :
  boots_apart l -> (h_Name x = BootName -> last_is_boot l = false) -> boots_apart (l ++ [x]).
Proof.
  intros H Hx i a b Ha Hb [Ea Eb].
  assert (Hlt : (i < length l)%nat) by (apply lookup_lt_Some in Hb; rewrite length_app in Hb; simpl in Hb; lia).
  rewrite lookup_app_l in Ha by done. destruct (decide (S i < length l)%nat) as [Hs|Hs].
  { rewrite lookup_app_l in Hb by done. by apply (H i a b). }
  rewrite lookup_app_r in Hb by lia. replace (S i - length l)%nat with 0%nat in Hb by lia. injection Hb as ->.
  specialize (Hx Eb). unfold last_is_boot in Hx. rewrite last_lookup in Hx.
  replace (Init.Nat.pred (length l)) with i in Hx by lia. rewrite Ha in Hx. bool_hyps. done.
Qed.

(** (invariant) however many entries are added, two boots of the server are
    never recorded one after the other, and an entry that has been added is found
    in the history under its mod and version, in memory and, when the file could be
    written, in the file. *)
Theorem AddModHistory_records write_ok newItem s :
  let s' := AddModHistory write_ok newItem s in
  (boots_apart (History (ModHistory s)) -> boots_apart (History (ModHistory s'))) /\
  (exists item, item ∈ History (ModHistory s') /\ h_Name item = h_Name newItem /\ h_Version item = h_Version newItem) /\
  (length (History (ModHistory s)) <= length (History (ModHistory s')) <= S (length (History (ModHistory s))))%nat /\
  (write_ok = true -> history_file s' = Some (ModHistory s')).
Proof.
  cbv zeta. assert (E : History (ModHistory (AddModHistory write_ok newItem s)) = add_history_item newItem (History (ModHistory s)))
    by (by destruct write_ok). rewrite E.
  set (l := History (ModHistory s)). split_and!.
  - intros H. destruct (add_history_item_names newItem l) as [Hn|[-> Hb]].
    + by apply (boots_apart_names l).
    + by apply boots_apart_snoc.
  - apply add_history_item_has.
  - destruct (add_history_item_names newItem l) as [Hn|[-> _]]; [|rewrite length_app; simpl; lia].
    apply (f_equal length) in Hn. rewrite !length_fmap in Hn. lia.
  - destruct (add_history_item_names newItem l) as [Hn|[-> _]]; [|rewrite length_app; simpl; lia].
    apply (f_equal length) in Hn. rewrite !length_fmap in Hn. lia.
  - intros ->. done.
Qed.
