(* ===== verification/ModDownload.v ===== *)
(** * Downloading mods: [downloadMods] of [src/modupdate/util.go]

    Every planned download is fetched, checked against the hash of the portal,
    its own [info.json] and the size limit, written under a temporary name,
    renamed, and only then the old archive is removed.  The mods folder is a map
    from paths to contents.  The network, the hash, the archive format and the
    JSON of [info.json] are parameters, as are the file operations that fail.
    The Discord messages on the way are not modelled. *)
From Stdlib Require Import Ascii.
From S2P Require Import Prelude.
From S2P Require Import GoInt.
From S2P Require Import GoString.
From S2P Require Import GoTime.
From S2P Require Import WebProtocol.
From S2P Require Import ModVersion.
From S2P Require Import ModDeps.
From S2P Require Import ModHistory.

(** A file of an archive: its name, its content when it can be read, its size. *)
Record zip_entry := { ze_Name : string; ze_Content : option string; ze_UncompressedSize64 : Z }.

(** [archive/zip], [encoding/json] for [modZipInfo], [crypto/sha1]. *)
Class Archives := {
  zip_files : string -> option (list zip_entry);
  unmarshal_mod_info : string -> option modZipInfo;
  sha1_sum : string -> bytes
}.

Definition downloadPrefix : string := "https://mods.factorio.com".
Definition MaxZipSize : Z := 1024 * 1024 * 1024.

Section archives.
Context `{UnicodeTables, Archives}.

(** [strings.Count(name, "/")] *)
Definition count_slashes (name : string) : nat := (length (Split name "/"%char) - 1)%nat.

Definition is_info_json (file : zip_entry) : bool :=
  HasSuffix (ze_Name file) "info.json" && (count_slashes (ze_Name file) <? 2)%nat.

Definition getModJSON (data : string) : option string :=
  match zip_files data with
  | None => None
  | Some files =>
      match list_find (fun file => is_info_json file = true) files with
      | Some (_, file) => ze_Content file
      | None => None
      end
  end.

(** With [rawData] given; no JSON is an empty document, which does not parse. *)
Definition modInfoRead (rawData : string) : option modZipInfo :=
  unmarshal_mod_info (default "" (getModJSON rawData)).

Definition checkSHA1 (data checkHash : string) : bool :=
  EqualFold (hex_EncodeToString (sha1_sum data)) checkHash.

Fixpoint zip_bomb (totalSize : Z) (files : list zip_entry) : bool :=
  match files with
  | [] => MaxZipSize <? totalSize
  | file :: files =>
      let size := ze_UncompressedSize64 file in
      if MaxZipSize <? size then true else zip_bomb (wrap 64 (totalSize + size)) files
  end.

Definition BytesHasZipBomb (data : string) : bool :=
  match zip_files data with None => false | Some files => zip_bomb 0 files end.

(** What a fetched archive must pass before it is written. *)
Definition verified (dl : downloadData) (data : string) : Prop :=
  checkSHA1 data (r_Sha1 (d_Data dl)) = true /\
  (exists info, modInfoRead data = Some info /\ z_Name info = d_Name dl /\ z_Version info = r_Version (d_Data dl)) /\
  BytesHasZipBomb data = false.

Record mod_world := { mw_files : gmap string string; mw_history : history_state }.
#[export] Instance mod_world_settable : Settable mod_world := mkSettable (fun r =>
  {| mw_files := mw_files r; mw_history := mw_history r |}).

(** The outside: the answer to a request, the file operations that fail (by
    path; a failed write leaves some content behind), whether the history file can be written, and the clock. *)
Record download_env := {
  HttpGet : string -> option string;
  write_fails : string -> option string; rename_fails : string -> bool; remove_fails : string -> bool;
  history_ok : bool; clock : nat -> time;
  Username : string; FactorioToken : string; ModsFolder : string }.

Variable env : download_env.

Definition download_url (dl : downloadData) : string :=
  downloadPrefix +:+ r_DownloadURL (d_Data dl) +:+ "?username=" +:+ Username env +:+ "&token=" +:+ FactorioToken env.

Definition tmp_path (dl : downloadData) : string := ModsFolder env +:+ r_FileName (d_Data dl) +:+ ".tmp".
Definition final_path (dl : downloadData) : string := ModsFolder env +:+ r_FileName (d_Data dl).
Definition old_path (dl : downloadData) : string := ModsFolder env +:+ d_OldFilename dl.

(** Fetching and checking one archive, in the order of the code. *)
Definition fetch_mod (dl : downloadData) : result string string :=
  match HttpGet env (download_url dl) with
  | None => Err "Unable to fetch URL"
  | Some data =>
      if negb (checkSHA1 data (r_Sha1 (d_Data dl))) then Err "Mod download is corrupted (invalid hash)."
      else
        match modInfoRead data with
        | None => Err "Mod download has invalid info.json."
        | Some zipIJ =>
            if negb (bool_decide (z_Name zipIJ = d_Name dl)) || negb (bool_decide (z_Version zipIJ = r_Version (d_Data dl)))
            then Err "Mod download info.json failed verification."
            else if BytesHasZipBomb data then Err "Download contains possible zip bomb."
            else Ok data
        end
  end.

(** Writing, renaming and removing: the files, and the error. *)
Definition install_mod (dl : downloadData) (data : string) (files : gmap string string)
  : gmap string string * option string :=
  match write_fails env (tmp_path dl) with
  | Some partial => (<[tmp_path dl := partial]> files, Some "Unable to write to mods directory")
  | None =>
      let files := <[tmp_path dl := data]> files in
      if rename_fails env (final_path dl) then (files, Some "Unable to rename temp file in mods directory")
      else
        let files := <[final_path dl := data]> (delete (tmp_path dl) files) in
        if bool_decide (d_OldFilename dl = "") then (files, None)
        else if remove_fails env (old_path dl) && bool_decide (is_Some (files !! old_path dl))
        then (files, Some "Unable to remove old mod file")
        else (delete (old_path dl) files, None)
  end.

Definition history_note (dl : downloadData) : string :=
  let noteMsg := if bool_decide (d_OldFilename dl = "") then InstalledNote else UpdatedNote in
  if d_wasDep dl && negb (bool_decide (d_RequiredByName dl = ""))
  then noteMsg +:+ " dependency for " +:+ d_RequiredByName dl +:+ "-" +:+ d_RequiredByVersion dl
  else noteMsg.

Definition history_item (now : time) (dl : downloadData) : ModHistoryItem :=
  {| h_Name := d_Name dl; h_Notes := history_note dl; h_Date := now; h_Version := r_Version (d_Data dl);
     h_Filename := r_FileName (d_Data dl); h_OldVersion := d_OldVersion dl; h_OldFilename := d_OldFilename dl;
     h_InfoItem := false |}.

(** The state of the loop: the world, the downloads with their completion, the
    text of the announcement in the game. *)
Record download_state := { ds_world : mod_world; ds_list : list downloadData; ds_short : string }.

Definition download_one (downloadCount : nat) (st : download_state) (d : nat) : download_state :=
  match ds_list st !! d with
  | None => st
  | Some dl =>
      if Contains (d_Name dl) "!" then st
      else if IsBaseMod (d_Name dl) then st
      else
        match fetch_mod dl with
        | Err _ => st
        | Ok data =>
            let '(files, err) := install_mod dl data (mw_files (ds_world st)) in
            let w := ds_world st <| mw_files := files |> in
            match err with
            | Some _ => {| ds_world := w; ds_list := ds_list st; ds_short := ds_short st |}
            | None =>
                {| ds_world := w <| mw_history ::= AddModHistory (history_ok env) (history_item (clock env d) dl) |>;
                   ds_list := alter (fun x => x <| d_Complete := true |>) d (ds_list st);
                   ds_short := (if (downloadCount =? 0)%nat then ds_short st else ds_short st +:+ ", ")
                               +:+ d_Name dl +:+ "-" +:+ r_Version (d_Data dl) |}
            end
        end
  end.

Definition downloadMods (downloadList : list downloadData) (w : mod_world) : download_state :=
  foldl (download_one (length downloadList))
    {| ds_world := w; ds_list := downloadList; ds_short := "" |} (seq 0 (length downloadList)).

(** ** What a run of downloads does to the folder *)
Lemma fetch_mod_verified dl data : fetch_mod dl = Ok data -> verified dl data.
Proof.
  unfold fetch_mod, verified. destruct (HttpGet env _) as [x|]; [|done].
  destruct (checkSHA1 x _) eqn:E1; [|done]. destruct (modInfoRead x) as [z|] eqn:E2; [|done].
  cbn [negb]. destruct (_ || _) eqn:E3; [done|]. destruct (BytesHasZipBomb x) eqn:E4; [done|].
  intros [= <-]. bool_hyps. eauto 10.
Qed.

(** A path of the folder that is not one of the three keeps its content; the
    temporary path may hold anything, the final path the checked archive, the old
    path nothing new. *)
Lemma install_mod_content dl data files files' err p c :
  install_mod dl data files = (files', err) -> files' !! p = Some c ->
  files !! p = Some c \/ p = tmp_path dl \/ p = final_path dl /\ c = data.
Proof.
  unfold install_mod. destruct (write_fails env _) as [partial|].
  { intros [= <- <-]. rewrite lookup_insert_Some. naive_solver. }
  destruct (rename_fails env _); [intros [= <- <-]; rewrite lookup_insert_Some; naive_solver|].
  destruct (bool_decide (d_OldFilename dl = "")).
  { intros [= <- <-]. rewrite lookup_insert_Some, lookup_delete_Some, lookup_insert_Some. naive_solver. }
  destruct (_ && _); intros [= <- <-];
    rewrite ?lookup_delete_Some, lookup_insert_Some, lookup_delete_Some, lookup_insert_Some; naive_solver.
Qed.

Lemma install_mod_removed dl data files files' err p :
  install_mod dl data files = (files', err) -> files' !! p = None ->
  files !! p = None \/ p = tmp_path dl \/ p = old_path dl /\ err = None.
Proof.
  unfold install_mod. destruct (write_fails env _) as [partial|].
  { intros [= <- <-]. rewrite lookup_insert_None. naive_solver. }
  destruct (rename_fails env _); [intros [= <- <-]; rewrite lookup_insert_None; naive_solver|].
  destruct (bool_decide (d_OldFilename dl = "")).
  { intros [= <- <-]. rewrite lookup_insert_None, lookup_delete_None, lookup_insert_None. naive_solver. }
  destruct (_ && _); intros [= <- <-];
    rewrite ?lookup_delete_None, lookup_insert_None, lookup_delete_None, lookup_insert_None; naive_solver.
Qed.

Lemma install_mod_done dl data files files' :
  install_mod dl data files = (files', None) -> final_path dl <> old_path dl -> files' !! final_path dl = Some data.
Proof.
  unfold install_mod. intros Hi Hne. repeat case_match; try done; injection Hi as <-.
  - by rewrite lookup_insert_eq.
  - by rewrite lookup_delete_ne, lookup_insert_eq.
Qed.

(** One pass of the loop. *)
Lemma download_one_cases n st d :
  download_one n st d = st \/
  exists dl data files err,
    ds_list st !! d = Some dl /\ verified dl data /\
    install_mod dl data (mw_files (ds_world st)) = (files, err) /\
    mw_files (ds_world (download_one n st d)) = files /\
    ds_list (download_one n st d) =
      (if err then ds_list st else alter (fun x => x <| d_Complete := true |>) d (ds_list st)).
Proof.
  unfold download_one. destruct (ds_list st !! d) as [dl|] eqn:Ed; [|by left].
  destruct (Contains (d_Name dl) "!"); [by left|]. destruct (IsBaseMod (d_Name dl)); [by left|].
  destruct (fetch_mod dl) as [data|] eqn:Ef; [|by left]. right.
  destruct (install_mod dl data (mw_files (ds_world st))) as [files err] eqn:Ei.
  exists dl, data, files, err. apply fetch_mod_verified in Ef. by destruct err.
Qed.

Definition download_run (l : list downloadData) (w : mod_world) (n : nat) : download_state :=
  foldl (download_one (length l)) {| ds_world := w; ds_list := l; ds_short := "" |} (seq 0 n).

Lemma download_run_S l w n : download_run l w (S n) = download_one (length l) (download_run l w n) n.
Proof. unfold download_run. by rewrite seq_S, foldl_app. Qed.

(** The downloads still to come are as planned, the others differ in [Complete]. *)
Lemma download_run_list l w n i :
  (ds_list (download_run l w n) !! i = l !! i) \/
  (i < n)%nat /\ ds_list (download_run l w n) !! i = (fun x => x <| d_Complete := true |>) <$> l !! i.
Proof.
  induction n as [|n IH]; [by left|]. rewrite download_run_S.
  destruct (download_one_cases (length l) (download_run l w n) n) as [->|(dl & data & files & err & _ & _ & _ & _ & ->)].
  { destruct IH as [IH|[? IH]]; [by left|right; split; [lia|done]]. }
  destruct err; [destruct IH as [IH|[? IH]]; [by left|right; split; [lia|done]]|].
  destruct (decide (i = n)) as [->|Hne].
  - rewrite list_lookup_alter_eq. destruct IH as [->|[? IH]]; [right; split; [lia|done]|lia].
  - rewrite list_lookup_alter_ne by done. destruct IH as [IH|[? IH]]; [by left|right; split; [lia|done]].
Qed.

Lemma download_run_at l w n : ds_list (download_run l w n) !! n = l !! n.
Proof. destruct (download_run_list l w n n) as [?|[? _]]; [done|lia]. Qed.

Lemma download_run_step l w n :
  download_run l w (S n) = download_run l w n \/
  exists dl data files err,
    l !! n = Some dl /\ verified dl data /\
    install_mod dl data (mw_files (ds_world (download_run l w n))) = (files, err) /\
    mw_files (ds_world (download_run l w (S n))) = files /\
    ds_list (download_run l w (S n)) =
      (if err then ds_list (download_run l w n)
       else alter (fun x => x <| d_Complete := true |>) n (ds_list (download_run l w n))).
Proof. rewrite download_run_S, <-(download_run_at l w n). apply download_one_cases. Qed.

Lemma download_run_content l w n p c :
  mw_files (ds_world (download_run l w n)) !! p = Some c ->
  mw_files w !! p = Some c \/ exists dl, dl ∈ l /\ (p = tmp_path dl \/ p = final_path dl /\ verified dl c).
Proof.
  induction n as [|n IH]; [by left|].
  destruct (download_run_step l w n) as [->|(dl & data & files & err & Hn & Hv & Hi & -> & _)]; [done|].
  intros Hp. apply (install_mod_content _ _ _ _ _ _ _ Hi) in Hp. apply list_elem_of_lookup_2 in Hn.
  destruct Hp as [Hp|[->|[-> ->]]]; eauto 10.
Qed.

(** A completed download stays completed. *)
Lemma complete_after_step l w n i x :
  ds_list (download_run l w n) !! i = Some x -> d_Complete x = true ->
  exists y, ds_list (download_run l w (S n)) !! i = Some y /\ d_Complete y = true /\ d_OldFilename y = d_OldFilename x.
Proof.
  intros Hx Hc. destruct (download_run_step l w n) as [->|(dl & data & files & err & _ & _ & _ & _ & ->)]; [eauto|].
  destruct err; [eauto|]. destruct (decide (i = n)) as [->|Hne].
  - rewrite list_lookup_alter_eq, Hx. simpl. eauto.
  - rewrite list_lookup_alter_ne by done. eauto.
Qed.

Lemma download_run_removed l w n p :
  mw_files (ds_world (download_run l w n)) !! p = None ->
  mw_files w !! p = None \/ (exists dl, dl ∈ l /\ p = tmp_path dl) \/
  exists dl, dl ∈ ds_list (download_run l w n) /\ d_Complete dl = true /\ p = ModsFolder env +:+ d_OldFilename dl.
Proof.
  induction n as [|n IH]; [by left|]. intros Hp.
  assert (Hold : mw_files (ds_world (download_run l w n)) !! p = None ->
    mw_files w !! p = None \/ (exists dl, dl ∈ l /\ p = tmp_path dl) \/
    exists dl, dl ∈ ds_list (download_run l w (S n)) /\ d_Complete dl = true /\ p = ModsFolder env +:+ d_OldFilename dl).
  { intros [?|[?|(x & (i & Hx)%list_elem_of_lookup_1 & Hc & ->)]]%IH; [by left|by right; left|].
    destruct (complete_after_step l w n i x Hx Hc) as (y & Hy & Hyc & <-). apply list_elem_of_lookup_2 in Hy. eauto 10. }
  destruct (download_run_step l w n) as [E|(dl & data & files & err & Hn & Hv & Hi & Hf & Hl)];
    [apply Hold; by rewrite <-E|].
  rewrite Hf in Hp. apply (install_mod_removed _ _ _ _ _ _ Hi) in Hp as [Hp|[->|[-> ->]]]; [by apply Hold| |].
  - right; left. apply list_elem_of_lookup_2 in Hn. eauto.
  - right; right. exists (dl <| d_Complete := true |>). split; [|by split].
    rewrite Hl. apply (list_elem_of_lookup_2 _ n). by rewrite list_lookup_alter_eq, download_run_at, Hn.
Qed.

(** (safety) whatever the network answers and whichever file operations fail,
    the mods folder gains nothing but archives that passed every check for their
    download (and left-over temporary files), and it loses nothing but temporary
    files and the old archives of downloads that completed. *)
Theorem downloads_are_safe l w p :
  let st := downloadMods l w in
  (forall c, mw_files (ds_world st) !! p = Some c ->
     mw_files w !! p = Some c \/ exists dl, dl ∈ l /\ (p = tmp_path dl \/ p = final_path dl /\ verified dl c)) /\
  (mw_files (ds_world st) !! p = None ->
     mw_files w !! p = None \/ (exists dl, dl ∈ l /\ p = tmp_path dl) \/
     exists dl, dl ∈ ds_list st /\ d_Complete dl = true /\ p = old_path dl).
Proof. split; [intros c; apply download_run_content|apply download_run_removed]. Qed.

Lemma install_mod_keeps dl data files files' err p :
  install_mod dl data files = (files', err) ->
  p <> tmp_path dl -> p <> final_path dl -> p <> old_path dl -> files' !! p = files !! p.
Proof.
  unfold install_mod. intros Hi Hp1 Hp2 Hp3. repeat case_match; injection Hi as <- _;
    rewrite ?lookup_delete_ne, ?lookup_insert_ne, ?lookup_delete_ne, ?lookup_insert_ne by done; done.
Qed.

(** No download writes where another one works, or where it removes its old file. *)
Definition paths_apart (l : list downloadData) : Prop :=
  forall i j x y, l !! i = Some x -> l !! j = Some y ->
    final_path x <> old_path y /\ final_path x <> tmp_path y /\ (i <> j -> final_path x <> final_path y).

Lemma completed_run l w n :
  paths_apart l -> Forall (fun d => d_Complete d = false) l ->
  forall i x, l !! i = Some x -> d_Complete <$> ds_list (download_run l w n) !! i = Some true ->
  (i < n)%nat /\ exists c, mw_files (ds_world (download_run l w n)) !! final_path x = Some c /\ verified x c.
Proof.
  intros Hapart Hnone. induction n as [|n IH]; intros i x Hx Hc.
  { simpl in Hc. rewrite Hx in Hc. simpl in Hc. injection Hc as Hc.
    rewrite Forall_forall in Hnone. rewrite Hnone in Hc; [done|]. by eapply list_elem_of_lookup_2. }
  destruct (download_run_step l w n) as [E|(dl & data & files & err & Hn & Hv & Hi & Hf & Hl)].
  { rewrite E in *. destruct (IH i x Hx Hc) as [? ?]. split; [lia|done]. }
  rewrite Hf. rewrite Hl in Hc. destruct (decide (i = n)) as [->|Hne].
  - rewrite Hn in Hx. injection Hx as ->. split; [lia|]. destruct err.
    { rewrite download_run_at, Hn in Hc. simpl in Hc. injection Hc as Hc.
      rewrite Forall_forall in Hnone. rewrite Hnone in Hc; [done|]. by eapply list_elem_of_lookup_2. }
    exists data. split; [|done]. eapply install_mod_done; [done|]. by apply (Hapart n n x x).
  - assert (Hc' : d_Complete <$> ds_list (download_run l w n) !! i = Some true)
      by (destruct err; [done|by rewrite list_lookup_alter_ne in Hc]).
    destruct (IH i x Hx Hc') as (? & c & Hfile & Hvc). split; [lia|]. exists c. split; [|done].
    destruct (Hapart i n x dl Hx Hn) as (Hp1 & Hp2 & Hp3).
    rewrite (install_mod_keeps _ _ _ _ _ _ Hi); auto.
Qed.

(** (functional) a download that is reported complete is in the mods folder when
    the run is over, and its archive passed every check, provided the planned
    downloads do not share file names. *)
Theorem completed_downloads_installed l w i x :
  paths_apart l -> Forall (fun d => d_Complete d = false) l ->
  l !! i = Some x -> d_Complete <$> ds_list (downloadMods l w) !! i = Some true ->
  exists c, mw_files (ds_world (downloadMods l w)) !! final_path x = Some c /\ verified x c.
Proof. intros Ha Hn Hx Hc. by destruct (completed_run l w (length l) Ha Hn i x Hx Hc). Qed.

Definition getDownloadCount (downloadList : list downloadData) : nat := length downloadList.
Definition getCompletedDownloadCount (downloadList : list downloadData) : nat := length (filter d_Complete downloadList).
End archives.

(** ** A run on concrete data *)
Module Demo.
(** Archives that hold one file whose content is [name@version]; no hash. *)
Definition demo_archives : Archives := {|
  zip_files := fun data => Some [{| ze_Name := "x/info.json"; ze_Content := Some data; ze_UncompressedSize64 := slen data |}];
  unmarshal_mod_info := fun json =>
    match Split json "@"%char with
    | [n; v] => Some (noZip <| z_Name := n |> <| z_Version := v |>)
    | _ => None
    end;
  sha1_sum := fun _ => [] |}.

Definition demo_env : download_env := {|
  HttpGet := fun url => if HasPrefix url "https://mods.factorio.com/a?" then Some "alpha@1.1.0" else None;
  write_fails := fun _ => None; rename_fails := fun _ => false; remove_fails := fun _ => false;
  history_ok := true; clock := fun _ => 0; Username := "u"; FactorioToken := "t"; ModsFolder := "mods/" |}.

Definition demo_release : modRelease :=
  {| r_DownloadURL := "/a"; r_FileName := "alpha_1.1.0.zip";
     r_InfoJSON := {| ij_Dependencies := []; ij_FactorioVersion := "" |}; r_Sha1 := ""; r_Version := "1.1.0" |}.
Definition demo_download : downloadData :=
  {| d_Title := "Alpha"; d_Name := "alpha"; d_Filename := "alpha_1.1.0.zip"; d_OldFilename := "alpha_1.0.0.zip";
     d_Data := demo_release; d_Version := "1.1.0"; d_OldVersion := "1.0.0"; d_wasDep := false;
     d_RequiredByName := ""; d_RequiredByVersion := ""; d_Complete := false |}.
Definition demo_world : mod_world :=
  {| mw_files := {["mods/alpha_1.0.0.zip" := "alpha@1.0.0"]};
     mw_history := {| ModHistory := {| History := []; Blacklist := [] |}; history_file := None |} |}.

Example demo_files :
  map_to_list (mw_files (ds_world (@downloadMods ascii_tables demo_archives demo_env [demo_download] demo_world)))
  = [("mods/alpha_1.1.0.zip", "alpha@1.1.0")].
Proof. vm_compute. reflexivity. Qed.

(** The announcement in the game begins with a separator: the code compares the
    number of planned downloads, not of finished ones, with 0. *)
Example announcement_separator :
  ds_short (@downloadMods ascii_tables demo_archives demo_env [demo_download] demo_world) = ", alpha-1.1.0".
Proof. vm_compute. reflexivity. Qed.
End Demo.

Lemma completed_downloads_installed_witness :
  exists c, mw_files (ds_world (@downloadMods ascii_tables Demo.demo_archives Demo.demo_env [Demo.demo_download] Demo.demo_world))
    !! "mods/alpha_1.1.0.zip" = Some c /\ @verified ascii_tables Demo.demo_archives Demo.demo_download c.
Proof.
  apply (@completed_downloads_installed ascii_tables Demo.demo_archives Demo.demo_env [Demo.demo_download] Demo.demo_world
    0 Demo.demo_download).
  - intros [|i] [|j] x y [= <-] [= <-]; split_and!; done.
  - by apply Forall_singleton.
  - reflexivity.
  - vm_compute. reflexivity.
Defined.
