(* ===== verification/ModUpdate.v ===== *)
(** * A mod update from end to end: [CheckModUpdates] of [src/modupdate/newUpdate.go]

    The check composes the operation status, the list of installed mods, the
    portal, the resolver, the plan check, the downloads and the history.  The
    inputs of one run are in [update_run]; what it changes is [update_world].
    Discord messages and the chat of the game are not modelled. *)
From Stdlib Require Import Ascii.
From stdpp Require Import pretty.
From S2P Require Import Prelude.
From S2P Require Import GoInt.
From S2P Require Import GoString.
From S2P Require Import GoTime.
From S2P Require Import OperationStatus.
From S2P Require Import ModVersion.
From S2P Require Import ModDeps.
From S2P Require Import ModPlan.
From S2P Require Import ModHistory.
From S2P Require Import ModDownload.

Record update_world := {
  uw_op : OpWorld;              (* the operation status *)
  uw_mods : mod_world;          (* the mods folder and the history *)
  uw_modop : bool               (* [ModOperationInProgress] *)
}.
#[export] Instance update_world_settable : Settable update_world := mkSettable (fun r =>
  {| uw_op := uw_op r; uw_mods := uw_mods r; uw_modop := uw_modop r |}).

(** What a run meets: the control lock, the files and lists it reads, the portal,
    the progress lines that fall due, the clock and the downloads. *)
Record update_run := {
  ur_lockErr : option string;
  ur_modFiles : result string (list modZipInfo);     (* [GetModFiles] *)
  ur_modList : ModListData;                          (* [GetModList], empty on error *)
  ur_prefs : VersionPrefs;                           (* [ReadPrefs] *)
  ur_factorio : string;                              (* [fact.FactorioVersion] *)
  ur_portal : string -> result string modPortalFullData;
  ur_progress : list (time * string);                (* progress lines, with their times *)
  ur_begin : time * time * time; ur_end : time; ur_started : time;
  ur_download : download_env
}.

Section update.
Context `{UnicodeTables, Archives}.
Variable ChatChannel : string.
Variable delete_ok : operationMessageRef -> bool.
(** [strconv.Quote], the [%q] of [fmt]. *)
Variable Quote : string -> string.

Definition plan_message (e : plan_error) : string :=
  match e with
  | InvalidDependency raw name err => "invalid dependency " +:+ Quote raw +:+ " for " +:+ name +:+ ": " +:+ err
  | IncompatibleMod name version dep depVersion =>
      "planned mod " +:+ name +:+ "-" +:+ version +:+ " is incompatible with " +:+ dep +:+ "-" +:+ depVersion
  | MissingRequirement name version raw depVersion =>
      "planned mod " +:+ name +:+ "-" +:+ version +:+ " requires " +:+ raw
      +:+ "; selected dependency version is " +:+ Quote depVersion
  end.

(** The mods whose portal entry is fetched, in order. *)
Definition checkable (item : modZipInfo) : bool := z_Enabled item && negb (IsBaseMod (z_Name item)).

Definition portal_item (portal : string -> result string modPortalFullData) (item : modZipInfo)
  : result string modPortalFullData :=
  newInfo ← portal (z_Name item);
  Ok {| p_Name := p_Name newInfo; p_Title := p_Title newInfo; p_Releases := p_Releases newInfo;
        p_filename := z_Filename item; p_installed := item |}.

Definition portal_data (portal : string -> result string modPortalFullData) (installedMods : list modZipInfo)
  : result string (list modPortalFullData) :=
  foldM (fun acc item =>
    if checkable item then newInfo ← portal_item portal item; Ok (acc ++ [newInfo]) else Ok acc) [] installedMods.

(** The plan, or the title-less text of the failed operation and the error. *)
Definition update_plan (r : update_run) (installedMods : list modZipInfo)
  : result (string * string) (list downloadData) :=
  match installedMods with
  | [] => let emsg := "the game has no installed mods to update" in Err (emsg, emsg)
  | _ =>
      match portal_data (ur_portal r) installedMods with
      | Err e => Err ("Checking mod updates failed: " +:+ e, e)
      | Ok modPortalData =>
          match resolveDepsWithPrefs (ur_portal r) (ur_factorio r) (ur_prefs r) modPortalData false 0 [] with
          | Err e => Err ("Resolving mod dependencies failed: " +:+ e, e)
          | Ok downloadList =>
              match validateDownloadPlan (ur_factorio r) installedMods downloadList with
              | Err e => Err (plan_message e, plan_message e)
              | Ok _ => Ok downloadList
              end
          end
      end
  end.

Definition started_item (now : time) : ModHistoryItem :=
  {| h_InfoItem := true; h_Name := "Mod update started"; h_Notes := ""; h_Version := ""; h_OldVersion := "";
     h_Filename := ""; h_OldFilename := ""; h_Date := now |}.

Definition partial_message (completed requested : nat) : string :=
  "Only " +:+ pretty completed +:+ " of " +:+ pretty requested +:+ " mod updates downloaded successfully. Restart canceled.".

(** The end of a run whose plan was carried out: how the operation is closed,
    and what the call returns. *)
Definition update_outcome (suppressNoUpdates : bool) (requested completed : nat)
  : option string * (bool * option string) :=
  if (0 <? requested)%nat && (completed =? requested)%nat
  then (Some "Mod updates are ready and will apply on reboot.", (true, None))
  else if (0 <? requested)%nat && (0 <? completed)%nat
  then let emsg := partial_message completed requested in (Some emsg, (false, Some emsg))
  else if (0 <? requested)%nat
  then let emsg := "Mod update downloads failed. Restart canceled." in (Some emsg, (false, Some emsg))
  else (if suppressNoUpdates then None else Some "No mod updates available.",
        (false, Some "no mod updates available")).

Definition finish (r : update_run) (opToken : string) (text : option string) (w : update_world) : update_world :=
  w <| uw_op ::= (match text with
                  | Some t => finalizeOperation ChatChannel delete_ok (ur_end r) opToken "Mod Updates" t
                  | None => CancelOperation ChatChannel delete_ok (ur_end r) opToken
                  end) |>.

Definition report_progress (opToken : string) (lines : list (time * string)) (w : OpWorld) : OpWorld :=
  foldl (fun w '(now, line) => UpdateOperationProgress ChatChannel delete_ok now opToken "Mod Updates" line w) w lines.

Definition CheckModUpdates (dryRun emitProgress suppressChecking suppressNoUpdates : bool) (r : update_run)
    (w : update_world) : update_world * (bool * option string) :=
  match ur_lockErr r with
  | Some e => (w, (false, Some e))
  | None =>
      let '(now0, now1, now2) := ur_begin r in
      let '(opToken, op) := BeginOperation now0 now1 now2 "Mod Updates" "Checking for mod updates." (uw_op w) in
      let op := if suppressChecking then SuppressPendingOperationAnnouncement opToken op else op in
      let w := w <| uw_op := op |> <| uw_modop := true |> in
      let '(w, ret) :=
        match ur_modFiles r with
        | Err e => (w, (false, Some e))
        | Ok modFileList =>
            let installedMods := MergeModLists (ur_factorio r) modFileList (ur_modList r) in
            let w := if emitProgress then w <| uw_op ::= report_progress opToken (ur_progress r) |> else w in
            match update_plan r installedMods with
            | Err (text, e) => (finish r opToken (Some text) w, (false, Some e))
            | Ok downloadList =>
                if dryRun then (finish r opToken (Some "Mod update check complete.") w, (false, None))
                else
                  let w := if (0 <? length downloadList)%nat
                           then w <| uw_mods ::= (fun m => m <| mw_history ::= AddModHistory (history_ok (ur_download r)) (started_item (ur_started r)) |>) |>
                           else w in
                  let st := downloadMods (ur_download r) downloadList (uw_mods w) in
                  let w := w <| uw_mods := ds_world st |> in
                  let '(text, ret) := update_outcome suppressNoUpdates
                                        (getDownloadCount (ds_list st)) (getCompletedDownloadCount (ds_list st)) in
                  (finish r opToken text w, ret)
            end
        end in
      (w <| uw_modop := false |>, ret)
  end.

(** ** How an operation ends *)
Lemma report_keeps_token token lines w :
  os_token (ow_status (report_progress token lines w)) = os_token (ow_status w).
Proof.
  unfold report_progress. revert w. induction lines as [|[now line] lines IH]; intros w; simpl; [done|].
  rewrite IH. apply update_keeps_token.
Qed.

Lemma op_token_nonempty now : op_token now <> "".
Proof. done. Qed.

(** The operation a run starts. *)
Lemma begin_update now0 now1 now2 (suppress : bool) op :
  let '(token, op') := BeginOperation now0 now1 now2 "Mod Updates" "Checking for mod updates." op in
  token = op_token now0 /\
  os_token (ow_status (if suppress then SuppressPendingOperationAnnouncement token op' else op')) = op_token now0.
Proof.
  unfold BeginOperation, SuppressPendingOperationAnnouncement, status, spawn. simpl.
  split; [done|]. destruct suppress; [|done]. repeat case_bool_decide; done.
Qed.

Lemma finish_ends r token text w :
  token <> "" -> os_token (ow_status (uw_op w)) = token -> ow_status (uw_op (finish r token text w)) = noOperation.
Proof. intros. destruct text; by apply finalize_op_ends. Qed.

Section run.
Variable r : update_run.
Variable w : update_world.
Variables dryRun emitProgress suppressChecking suppressNoUpdates : bool.
Local Notation result_of_check := (CheckModUpdates dryRun emitProgress suppressChecking suppressNoUpdates r w).

(** (error) a check that gets the control lock leaves no trace of being under
    way: the mod-operation flag is off, and when the mods folder can be read the
    operation is over, whatever failed in between. *)
Theorem update_check_ends :
  ur_lockErr r = None ->
  uw_modop result_of_check.1 = false /\
  (is_ok (ur_modFiles r) = true -> ow_status (uw_op result_of_check.1) = noOperation).
Proof.
  intros Hlock. unfold CheckModUpdates. rewrite Hlock. destruct (ur_begin r) as [[now0 now1] now2].
  pose proof (begin_update now0 now1 now2 suppressChecking (uw_op w)) as Hb.
  destruct (BeginOperation _ _ _ _ _ _) as [token op]. destruct Hb as [-> Ht].
  set (op' := if suppressChecking then _ else _) in *. clearbody op'.
  destruct (ur_modFiles r) as [files|e]; [|done].
  set (w1 := if emitProgress then _ else _).
  assert (H1 : os_token (ow_status (uw_op w1)) = op_token now0)
    by (subst w1; destruct emitProgress; [etrans; [apply report_keeps_token|]|]; exact Ht).
  clearbody w1. destruct (update_plan r _) as [dls|[text e]].
  - destruct dryRun; [split; [done|]; intros _; by apply finish_ends|].
    destruct (update_outcome _ _ _) as [text ret]. split; [done|]. intros _. simpl.
    apply finish_ends; [done|]. simpl. by case_match.
  - split; [done|]. intros _. by apply finish_ends.
Qed.

(** (error) when the mods folder cannot be read the check returns that error but
    never closes the operation it began: its status stays in force. *)
Theorem unreadable_folder_leaves_operation e :
  ur_lockErr r = None -> ur_modFiles r = Err e ->
  result_of_check.2 = (false, Some e) /\
  os_token (ow_status (uw_op result_of_check.1)) = op_token (ur_begin r).1.1.
Proof.
  intros Hlock He. unfold CheckModUpdates. rewrite Hlock, He. destruct (ur_begin r) as [[now0 now1] now2].
  pose proof (begin_update now0 now1 now2 suppressChecking (uw_op w)) as Hb.
  destruct (BeginOperation _ _ _ _ _ _) as [token op]. by destruct Hb as [-> Ht].
Qed.

(** What a plan is when there is one. *)
Definition plan_of (installed : list modZipInfo) (dls : list downloadData) : Prop :=
  exists data, portal_data (ur_portal r) installed = Ok data /\
    resolveDepsWithPrefs (ur_portal r) (ur_factorio r) (ur_prefs r) data false 0 [] = Ok dls /\
    validateDownloadPlan (ur_factorio r) installed dls = Ok tt.

Lemma update_plan_Ok installed dls : update_plan r installed = Ok dls -> plan_of installed dls.
Proof.
  unfold update_plan, plan_of. destruct installed as [|i installed]; [done|].
  destruct (portal_data _ _) as [data|] eqn:E1; [|done].
  destruct (resolveDepsWithPrefs _ _ _ _ _ _ _) as [l|] eqn:E2; [|done].
  destruct (validateDownloadPlan _ _ _) as [[]|] eqn:E3; [|done]. intros [= <-]. eauto.
Qed.

Lemma completed_all (l : list downloadData) :
  getCompletedDownloadCount l = getDownloadCount l -> Forall (fun d => d_Complete d = true) l.
Proof.
  unfold getCompletedDownloadCount, getDownloadCount. induction l as [|d l IH]; intros Hl; [done|].
  pose proof (length_filter d_Complete l). rewrite filter_cons in Hl. case_decide as Hd; simpl in Hl; [|lia].
  apply Forall_cons. split; [by destruct (d_Complete d)|]. apply IH. lia.
Qed.

Lemma outcome_ready suppress requested completed text err :
  update_outcome suppress requested completed = (text, (true, err)) ->
  err = None /\ (0 < requested)%nat /\ completed = requested.
Proof.
  unfold update_outcome. destruct (Nat.ltb_spec 0 requested), (Nat.eqb_spec completed requested), (0 <? completed)%nat;
    simpl; intros [=]; done.
Qed.

(** (safety) mods are announced as ready for a restart only when a whole
    plan was carried out: the plan was not empty, it came from the resolver and
    passed the plan check against the installed mods, every download of it is
    justified, and every one of them was completed. *)
Theorem ready_updates_complete err :
  result_of_check.2 = (true, err) ->
  err = None /\ dryRun = false /\
  exists files dls data mods,
    let installed := MergeModLists (ur_factorio r) files (ur_modList r) in
    let st := downloadMods (ur_download r) dls mods in
    ur_modFiles r = Ok files /\ dls <> [] /\
    portal_data (ur_portal r) installed = Ok data /\
    validateDownloadPlan (ur_factorio r) installed dls = Ok tt /\
    NoDup (d_Name <$> dls) /\ Forall (Justified (ur_portal r) (ur_factorio r) (ur_prefs r) data) dls /\
    mw_files mods = mw_files (uw_mods w) /\ uw_mods result_of_check.1 = ds_world st /\
    Forall (fun d => d_Complete d = true) (ds_list st).
Proof.
  unfold CheckModUpdates. destruct (ur_lockErr r); [done|]. destruct (ur_begin r) as [[now0 now1] now2].
  destruct (BeginOperation _ _ _ _ _ _) as [token op]. set (op' := if suppressChecking then _ else _). clearbody op'.
  destruct (ur_modFiles r) as [files|e]; [|done].
  set (w1 := if emitProgress then _ else _).
  assert (Hw1 : uw_mods w1 = uw_mods w) by (subst w1; by destruct emitProgress). clearbody w1.
  destruct (update_plan r _) as [dls|[text e]] eqn:Ep; [|done]. destruct dryRun; [done|].
  apply update_plan_Ok in Ep as (data & Hdata & Hres & Hval).
  set (w2 := if (0 <? length dls)%nat then _ else _).
  assert (Hw2 : mw_files (uw_mods w2) = mw_files (uw_mods w)) by (subst w2; rewrite <-Hw1; by case_match). clearbody w2.
  set (st := downloadMods (ur_download r) dls (uw_mods w2)).
  destruct (update_outcome _ _ _) as [text ret] eqn:Eo. cbn [snd fst]. intros ->.
  apply outcome_ready in Eo as (-> & Hpos & Hall).
  split; [done|]. split; [done|]. exists files, dls, data, (uw_mods w2).
  destruct (resolveDeps_sound _ _ _ _ _ _ _ _ Hres) as [Hnd Hj].
  split_and!; try done; [|by apply completed_all].
  intros ->. subst st. unfold downloadMods, getDownloadCount in Hpos. simpl in Hpos. lia.
Qed.
End run.
End update.

(** ** Runs on concrete data *)
Module UpdateDemo.
Definition rel (n v : string) (deps : list string) : modRelease :=
  {| r_DownloadURL := "/a"; r_FileName := n +:+ "_" +:+ v +:+ ".zip";
     r_InfoJSON := {| ij_Dependencies := deps; ij_FactorioVersion := "2.0" |}; r_Sha1 := ""; r_Version := v |}.
Definition entry (n : string) (rels : list modRelease) : modPortalFullData :=
  {| p_Name := n; p_Title := n; p_Releases := rels; p_filename := ""; p_installed := noZip |}.
Definition archive (n v : string) : modZipInfo :=
  noZip <| z_Name := n |> <| z_Version := v |> <| z_Filename := n +:+ "_" +:+ v +:+ ".zip" |>.

(** [alpha] has an update; [beta] and [gamma] too, each needed by the one before. *)
Definition portal (n : string) : result string modPortalFullData :=
  if bool_decide (n = "alpha") then Ok (entry n [rel n "1.0.0" []; rel n "1.1.0" ["base >= 2.0"]])
  else if bool_decide (n = "beta") then Ok (entry n [rel n "1.1.0" ["gamma"]])
  else if bool_decide (n = "gamma") then Ok (entry n [rel n "1.1.0" []])
  else if bool_decide (n = "delta") then Ok (entry n [rel n "1.1.0" ["beta >= 1.1"]])
  else if bool_decide (n = "omega") then Ok (entry n [rel n "1.1.0" ["+ alpha"]])
  else Err "not found".

Definition run (files : result string (list modZipInfo)) : update_run :=
  {| ur_lockErr := None; ur_modFiles := files; ur_modList := {| Mods := [] |}; ur_prefs := [];
     ur_factorio := "2.0.55"; ur_portal := portal; ur_progress := [];
     ur_begin := (1, 1, 1); ur_end := 2; ur_started := 1; ur_download := Demo.demo_env |}.
Definition world : update_world :=
  {| uw_op := initOpWorld; uw_mods := Demo.demo_world; uw_modop := false |}.

Definition check (files : result string (list modZipInfo)) : update_world * (bool * option string) :=
  @CheckModUpdates ascii_tables Demo.demo_archives "1" (fun _ => true) id false false false false (run files) world.
Definition installed_data (l : list modZipInfo) : list modPortalFullData :=
  match portal_data portal (MergeModLists "2.0.55" l {| Mods := [] |}) with Ok data => data | Err _ => [] end.
Definition resolved (l : list modZipInfo) : result string (list downloadData) :=
  @resolveDepsWithPrefs ascii_tables portal "2.0.55" [] (installed_data l) false 0 [].

(** Name, version, replaced version and replaced archive of each planned download. *)
Definition plan_lines (p : result string (list downloadData)) : result string (list (string * string * string * string)) :=
  match p with
  | Ok l => Ok (map (fun d => (d_Name d, d_Version d, d_OldVersion d, d_OldFilename d)) l)
  | Err e => Err e
  end.

(** A dependency that is only recommended is looked up under a name that still has
    its prefix, so the whole check fails. *)
Theorem recommended_dependency_blocks_update :
  portal "alpha" <> Err "not found" /\ resolved [archive "omega" "1.0.0"] = Err "not found".
Proof. split; [done|]. vm_compute. reflexivity. Qed.

(** [delta] needs [beta], which needs [gamma]; all three are installed.  [gamma] is
    planned as a mod that is not installed: its old archive is not replaced. *)
Theorem installed_dependency_planned_as_new :
  plan_lines (resolved [archive "delta" "1.0.0"; archive "beta" "1.0.0"; archive "gamma" "1.0.0"])
  = Ok [("gamma", "1.1.0", "", ""); ("beta", "1.1.0", "1.0.0", "beta_1.0.0.zip");
        ("delta", "1.1.0", "1.0.0", "delta_1.0.0.zip")].
Proof. vm_compute. reflexivity. Qed.
End UpdateDemo.

Lemma update_check_ends_witness :
  uw_modop (UpdateDemo.check (Ok [])).1 = false /\
  (is_ok (Ok (E := string) (A := list modZipInfo) []) = true ->
   ow_status (uw_op (UpdateDemo.check (Ok [])).1) = noOperation).
Proof.
  exact (@update_check_ends ascii_tables Demo.demo_archives "1" (fun _ => true) id (UpdateDemo.run (Ok []))
    UpdateDemo.world false false false false eq_refl).
Defined.

Lemma unreadable_folder_leaves_operation_witness :
  (UpdateDemo.check (Err "unable to read mods dir")).2 = (false, Some "unable to read mods dir") /\
  os_token (ow_status (uw_op (UpdateDemo.check (Err "unable to read mods dir")).1)) = "op-1".
Proof.
  exact (@unreadable_folder_leaves_operation ascii_tables Demo.demo_archives "1" (fun _ => true) id
    (UpdateDemo.run (Err "unable to read mods dir")) UpdateDemo.world false false false false
    "unable to read mods dir" eq_refl eq_refl).
Defined.

Lemma ready_updates_complete_witness :
  exists dls mods, dls <> [] /\ NoDup (d_Name <$> dls) /\
    uw_mods (UpdateDemo.check (Ok [UpdateDemo.archive "alpha" "1.0.0"])).1
    = ds_world (@downloadMods ascii_tables Demo.demo_archives Demo.demo_env dls mods).
Proof.
  destruct (@ready_updates_complete ascii_tables Demo.demo_archives "1" (fun _ => true) id
    (UpdateDemo.run (Ok [UpdateDemo.archive "alpha" "1.0.0"])) UpdateDemo.world false false false false None)
    as (_ & _ & files & dls & data & mods & _ & Hne & _ & _ & Hnd & _ & _ & Hw & _); [vm_compute; reflexivity|].
  exists dls, mods. exact (conj Hne (conj Hnd Hw)).
Defined.
