(* ===== verification/ModBuiltin.v ===== *)
(** * The mods that come with the game: [src/modupdate/builtin.go]

    [SetBuiltinModEnabled] switches a bundled mod and, when it is switched on, the
    bundled mods it requires.  The recursive closure of the code shares the list
    and the set of visited names; here they are the state [set_state].  The fuel of
    [set_mod] is the number of visits that are left: one more than the number of
    bundled mods is enough ([set_mod_total]). *)
From Stdlib Require Import Ascii.
From S2P Require Import Prelude.
From S2P Require Import GoString.
From S2P Require Import ModVersion.
From S2P Require Import ModDeps.

(** The [data] directory of the game: its entries with their [info.json], read
    and parsed. *)
Inductive builtin_dir :=
  | DirMissing
  | DirError (e : string)
  | DirEntries (entries : list (string * result string modZipInfo)).

Definition GetBuiltinModFiles (dir : builtin_dir) : result string (list modZipInfo) :=
  match dir with
  | DirMissing => Ok []
  | DirError e => Err e
  | DirEntries entries =>
      foldM (fun mods '(name, info) =>
        if IsBaseMod name then
          match info with
          | Err e => Err ("read built-in mod " +:+ name +:+ ": " +:+ e)
          | Ok m => Ok (mods ++ [m <| z_Name := name |>])
          end
        else Ok mods) [] entries
  end.

(** [installed[mod.Name] = mod], the last one wins. *)
Definition by_name (mods : list modZipInfo) : gmap string modZipInfo :=
  foldl (fun m x => <[z_Name x := x]> m) ∅ mods.

(** ** [GetModInventory] *)
Record ModInventoryEntry := {
  ie_Name : string; ie_Title : string; ie_Version : string; ie_Enabled : bool;
  ie_Configured : bool; ie_Builtin : bool; ie_Dependencies : list string }.

Definition inventory_le (a b : ModInventoryEntry) : Prop :=
  if eqb (ie_Builtin a) (ie_Builtin b) then String.le (ie_Name a) (ie_Name b) else ie_Builtin a = true.
#[export] Instance inventory_le_dec a b : Decision (inventory_le a b).
Proof. unfold inventory_le. destruct (eqb _ _); apply _. Defined.

Definition builtin_entry (configured : gmap string ModData) (m : modZipInfo) : ModInventoryEntry :=
  {| ie_Name := z_Name m; ie_Title := z_Title m; ie_Version := z_Version m;
     ie_Enabled := match configured !! z_Name m with Some e => md_Enabled e | None => false end;
     ie_Configured := bool_decide (is_Some (configured !! z_Name m)); ie_Builtin := true;
     ie_Dependencies := z_Dependencies m |}.

Definition configured_entry (m : ModData) : ModInventoryEntry :=
  {| ie_Name := md_Name m; ie_Title := ""; ie_Version := ""; ie_Enabled := md_Enabled m;
     ie_Configured := true; ie_Builtin := IsBaseMod (md_Name m); ie_Dependencies := [] |}.

(** The loop over the bundled mods takes each out of [configured]; the rest is
    listed in the order of the map, and the result is sorted. *)
Fixpoint inventory_builtins (configured : gmap string ModData) (mods : list modZipInfo)
  : list ModInventoryEntry * gmap string ModData :=
  match mods with
  | [] => ([], configured)
  | m :: mods =>
      let '(out, rest) := inventory_builtins (delete (z_Name m) configured) mods in
      (builtin_entry configured m :: out, rest)
  end.

Definition GetModInventory (list : ModListData) (dir : builtin_dir) : result string (Datatypes.list ModInventoryEntry) :=
  builtins ← GetBuiltinModFiles dir;
  let configured := foldl (fun m x => <[md_Name x := x]> m) ∅ (Mods list) in
  let '(out, rest) := inventory_builtins configured builtins in
  Ok (merge_sort inventory_le (out ++ (configured_entry <$> (map_to_list rest).*2))).

(** ** [SetBuiltinModEnabled] *)
Record set_state := { st_mods : list ModData; st_seen : gset string }.

Definition set_enabled (name : string) (value : bool) (l : list ModData) : list ModData :=
  match find_index (fun m => bool_decide (md_Name m = name)) l with
  | Some i => alter (fun m => m <| md_Enabled := value |>) i l
  | None => l ++ [{| md_Name := name; md_Enabled := value |}]
  end.

Definition is_recommended (raw : string) : bool := HasPrefix (TrimSpace raw) "+".
Definition parse_builtin_dep (raw : string) : depRequires := parseDep (TrimSpace (TrimPrefix (TrimSpace raw) "+")).

#[global] Arguments is_recommended : simpl never.
#[global] Arguments parse_builtin_dep : simpl never.

(** Some entry of the list switches the mod off. *)
Definition disabled_in (l : list ModData) (name : string) : bool :=
  existsb (fun m => bool_decide (md_Name m = name) && negb (md_Enabled m)) l.

Section set_builtin.
Variable installed : gmap string modZipInfo.

(** One dependency line of [name]; [visit] is the recursive call. *)
Definition set_dep (visit : string -> set_state -> option (set_state * option string)) (name : string)
    (s : set_state) (raw : string) : option (set_state * option string) :=
  let dep := parse_builtin_dep raw in
  if dep_optional dep || dep_incompatible dep then Some (s, None)
  else if is_recommended raw && disabled_in (st_mods s) (dep_name dep) then Some (s, None)
  else
    match installed !! dep_name dep with
    | None => Some (s, Some (name +:+ " requires unavailable built-in mod " +:+ dep_name dep))
    | Some _ => visit (dep_name dep) s
    end.

(** The loop over the lines, left at the first error. *)
Fixpoint set_deps (visit : string -> set_state -> option (set_state * option string)) (name : string)
    (s : set_state) (lines : list string) : option (set_state * option string) :=
  match lines with
  | [] => Some (s, None)
  | raw :: lines =>
      match set_dep visit name s raw with
      | Some (s, None) => set_deps visit name s lines
      | r => r
      end
  end.

Definition dependencies (name : string) : list string :=
  match installed !! name with Some m => z_Dependencies m | None => [] end.

Fixpoint set_mod (fuel : nat) (name : string) (value : bool) (s : set_state) : option (set_state * option string) :=
  match fuel with
  | O => None
  | S fuel =>
      if bool_decide (name ∈ st_seen s) then Some (s, None)
      else
        let s := {| st_mods := set_enabled name value (st_mods s); st_seen := {[name]} ∪ st_seen s |} in
        if negb value then Some (s, None)
        else set_deps (fun n => set_mod fuel n true) name s (dependencies name)
  end.
End set_builtin.

(** The list as it is left, also when there is an error. *)
Definition SetBuiltinModEnabled (dir : builtin_dir) (list : ModListData) (name : string) (enabled : bool)
  : option (ModListData * option string) :=
  match GetBuiltinModFiles dir with
  | Err e => Some (list, Some e)
  | Ok mods =>
      let installed := by_name mods in
      if bool_decide (installed !! name = None) then Some (list, Some ("built-in mod " +:+ name +:+ " is not installed"))
      else if bool_decide (name = "base") && negb enabled then Some (list, Some "the base mod is required")
      else
        match set_mod installed (S (size installed)) name enabled {| st_mods := Mods list; st_seen := ∅ |} with
        | Some (s, e) => Some ({| Mods := st_mods s |}, e)
        | None => None
        end
  end.

(** ** [ValidateBuiltinModDependencies] *)
Definition enabled_mods (mods : list modZipInfo) (list : ModListData) : gmap string bool :=
  foldl (fun m x => <[md_Name x := md_Enabled x]> m) (foldl (fun m x => <[z_Name x := true]> m) ∅ mods) (Mods list).

Definition is_enabled (enabled : gmap string bool) (name : string) : bool := default false (enabled !! name).

Definition validate_builtin_dep (installed : gmap string modZipInfo) (enabled : gmap string bool) (name raw : string)
  : result string unit :=
  if is_recommended raw then Ok tt
  else
    let dep := parseDep raw in
    if dep_optional dep || dep_incompatible dep then Ok tt
    else
      match installed !! dep_name dep with
      | Some actual =>
          if negb (is_enabled enabled (dep_name dep))
          then Err (name +:+ " requires enabled built-in mod " +:+ dep_name dep)
          else if bool_decide (dep_version dep = "") then Ok tt
          else
            match checkVersion (dep_equality dep) (dep_version dep) (z_Version actual) with
            | Ok true => Ok tt
            | _ => Err (name +:+ " requires " +:+ raw)
            end
      | None => Err (name +:+ " requires enabled built-in mod " +:+ dep_name dep)
      end.

Definition ValidateBuiltinModDependencies (dir : builtin_dir) (list : ModListData) : result string unit :=
  mods ← GetBuiltinModFiles dir;
  let installed := by_name mods in
  let enabled := enabled_mods mods list in
  foldM (fun _ (m : modZipInfo) =>
    if is_enabled enabled (z_Name m)
    then foldM (fun _ raw => validate_builtin_dep installed enabled (z_Name m) raw) tt (z_Dependencies m)
    else Ok tt) tt mods.

(** ** The list *)

(** What the first entry of a name says. *)
Definition mod_enabled (l : list ModData) (name : string) : option bool :=
  i ← find_index (fun m => bool_decide (md_Name m = name)) l; md_Enabled <$> l !! i.

Lemma find_index_app_None {A} (p : A -> bool) l k :
  find_index p l = None -> find_index p (l ++ k) = (fun i => (length l + i)%nat) <$> find_index p k.
Proof.
  induction l as [|x l IH]; simpl; [intros _; by destruct (find_index p k)|].
  destruct (p x); [done|]. destruct (find_index p l); [done|]. intros _. rewrite IH by done.
  by destruct (find_index p k).
Qed.

Lemma find_index_app_Some {A} (p : A -> bool) l k i : find_index p l = Some i -> find_index p (l ++ k) = Some i.
Proof.
  revert i. induction l as [|x l IH]; simpl; [done|]. intros i. destruct (p x); [done|].
  destruct (find_index p l) as [j|] eqn:E; [|done]. intros [= <-]. by rewrite (IH j).
Qed.

Lemma find_index_alter {A} (p : A -> bool) (f : A -> A) l i :
  (forall x, p (f x) = p x) -> find_index p (alter f i l) = find_index p l.
Proof.
  intros Hf. revert i. induction l as [|x l IH]; intros [|i]; simpl; try done; [by rewrite Hf|].
  change (list_alter f i l) with (alter f i l). by rewrite IH.
Qed.

Lemma mod_enabled_set name value l n :
  mod_enabled (set_enabled name value l) n = if decide (n = name) then Some value else mod_enabled l n.
Proof.
  unfold set_enabled, mod_enabled. destruct (find_index (fun m => bool_decide (md_Name m = name)) l) as [i|] eqn:E.
  - apply find_index_Some in E as Hi. destruct Hi as (x & Hx & Hn & _). bool_hyps.
    rewrite find_index_alter by done. case_decide as Hd; subst.
    + rewrite E. simpl. by rewrite list_lookup_alter_eq, Hx.
    + destruct (find_index (fun m => bool_decide (md_Name m = n)) l) as [j|] eqn:Ej; [|done]. simpl.
      apply find_index_Some in Ej as (y & Hy & Hny & _). bool_hyps.
      rewrite list_lookup_alter_ne; [done|]. intros ->. congruence.
  - case_decide as Hd; subst.
    + rewrite find_index_app_None by done. simpl. rewrite bool_decide_eq_true_2 by done. simpl.
      rewrite Nat.add_0_r, lookup_app_r, Nat.sub_diag by lia. done.
    + destruct (find_index (fun m => bool_decide (md_Name m = n)) l) as [j|] eqn:Ej.
      * rewrite (find_index_app_Some _ _ _ _ Ej). simpl. apply find_index_Some in Ej as (y & Hy & _).
        by rewrite lookup_app_l by (by eapply lookup_lt_Some).
      * rewrite find_index_app_None by done. simpl. by rewrite bool_decide_eq_false_2 by congruence.
Qed.

(** ** What a visit does *)
Section visits.
#[local] Opaque parse_builtin_dep is_recommended.
Variable installed : gmap string modZipInfo.

(** A line that names a bundled mod the mod cannot do without. *)
Definition required_line (raw : string) : Prop :=
  dep_optional (parse_builtin_dep raw) = false /\ dep_incompatible (parse_builtin_dep raw) = false /\
  is_recommended raw = false.

(** From [s] to [s']: the mods visited in between are on, with everything they
    require; the entries of all others are as they were. *)
Record grows (s s' : set_state) : Prop := {
  grows_seen : st_seen s ⊆ st_seen s';
  grows_on : forall n, n ∈ st_seen s' -> n ∉ st_seen s -> mod_enabled (st_mods s') n = Some true;
  grows_same : forall n, n ∈ st_seen s \/ n ∉ st_seen s' -> mod_enabled (st_mods s') n = mod_enabled (st_mods s) n;
  grows_closed : forall n raw, n ∈ st_seen s' -> n ∉ st_seen s -> raw ∈ dependencies installed n ->
    required_line raw -> dep_name (parse_builtin_dep raw) ∈ st_seen s'
}.

Lemma grows_refl s : grows s s.
Proof. split; naive_solver. Qed.

Lemma grows_trans s1 s2 s3 : grows s1 s2 -> grows s2 s3 -> grows s1 s3.
Proof.
  intros [A1 B1 C1 D1] [A2 B2 C2 D2]. split.
  - by etrans.
  - intros n H3 H1. destruct (decide (n ∈ st_seen s2)); [|by apply B2].
    rewrite C2 by (by left). by apply B1.
  - intros n [H1|H3].
    + rewrite C2 by (left; by apply A1). apply C1. by left.
    + rewrite C2 by (by right). apply C1. right. intros H2. by apply H3, A2.
  - intros n raw H3 H1 Hraw Hreq. destruct (decide (n ∈ st_seen s2)) as [H2|H2].
    + apply A2. exact (D1 n raw H2 H1 Hraw Hreq).
    + exact (D2 n raw H3 H2 Hraw Hreq).
Qed.

Section loop.
Variable visit : string -> set_state -> option (set_state * option string).
Hypothesis visit_grows : forall n s s', visit n s = Some (s', None) -> grows s s' /\ n ∈ st_seen s'.

Lemma set_dep_grows name s raw s' :
  set_dep installed visit name s raw = Some (s', None) ->
  grows s s' /\ (required_line raw -> dep_name (parse_builtin_dep raw) ∈ st_seen s').
Proof.
  unfold set_dep, required_line.
  destruct (dep_optional _ || dep_incompatible _) eqn:E1.
  { intros [= <-]. split; [apply grows_refl|]. apply orb_true_iff in E1. intros (Ho & Hi & _). destruct E1; congruence. }
  destruct (is_recommended raw && _) eqn:E2.
  { intros [= <-]. split; [apply grows_refl|]. apply andb_true_iff in E2. intros (_ & _ & ?). destruct E2; congruence. }
  destruct (installed !! _); [|done]. intros Hv. by destruct (visit_grows _ _ _ Hv).
Qed.

Lemma set_deps_grows name s lines s' :
  set_deps installed visit name s lines = Some (s', None) ->
  grows s s' /\ forall raw, raw ∈ lines -> required_line raw -> dep_name (parse_builtin_dep raw) ∈ st_seen s'.
Proof.
  revert s. induction lines as [|raw lines IH]; intros s; cbn [set_deps].
  { intros [= <-]. split; [apply grows_refl|set_solver]. }
  destruct (set_dep installed visit name s raw) as [[s1 [e|]]|] eqn:E; [done| |done].
  apply set_dep_grows in E as [H1 Hraw]. intros [H2 Hl]%IH. split; [by eapply grows_trans|].
  intros x [->|Hx]%elem_of_cons Hreq; [|auto]. by apply (grows_seen _ _ H2), Hraw.
Qed.
End loop.

Lemma set_mod_grows fuel : forall name s s',
  set_mod installed fuel name true s = Some (s', None) -> grows s s' /\ name ∈ st_seen s'.
Proof.
  induction fuel as [|fuel IH]; intros name s s'; cbn [set_mod]; [done|].
  case_bool_decide as Hseen; [intros [= <-]; split; [apply grows_refl|done]|].
  set (s0 := {| st_mods := _; st_seen := _ |}).
  intros [[A B C D] Hdeps]%set_deps_grows; [|done].
  assert (H0 : forall n, n ∈ st_seen s0 <-> n = name \/ n ∈ st_seen s)
    by (intros n; simpl; by rewrite elem_of_union, elem_of_singleton).
  assert (Hname : name ∈ st_seen s') by (apply A, H0; by left).
  assert (Hset : forall n, n ∈ st_seen s0 \/ n ∉ st_seen s' -> mod_enabled (st_mods s') n
    = if decide (n = name) then Some true else mod_enabled (st_mods s) n)
    by (intros n Hn; rewrite C by done; apply mod_enabled_set).
  clearbody s0. split; [|done]. split.
  - intros n Hn. apply A, H0. by right.
  - intros n H1 H2. destruct (decide (n = name)) as [->|Hne].
    + rewrite Hset by (left; apply H0; by left). by rewrite decide_True.
    + apply B; [done|]. rewrite H0. by intros [?|?].
  - intros n Hn. rewrite Hset by (destruct Hn; [left; apply H0; by right|by right]).
    rewrite decide_False; [done|]. intros ->. by destruct Hn.
  - intros n raw H1 H2 Hraw Hreq. destruct (decide (n = name)) as [->|Hne]; [by apply Hdeps|].
    eapply D; [done| |done|done]. rewrite H0. by intros [?|?].
Qed.

(** *** Enough fuel *)
Definition unseen (s : set_state) : nat := size (dom installed ∖ st_seen s).

Lemma unseen_mono s s' : st_seen s ⊆ st_seen s' -> (unseen s' <= unseen s)%nat.
Proof. intros Hs. unfold unseen. apply subseteq_size. intros x [Hx Hn]%elem_of_difference.
  apply elem_of_difference. split; [done|]. intros Hin. by apply Hn, Hs. Qed.

Definition total_visit (fuel : nat) (visit : string -> set_state -> option (set_state * option string)) : Prop :=
  forall n s, n ∈ dom installed -> (unseen s < fuel)%nat -> exists s' e, visit n s = Some (s', e) /\ st_seen s ⊆ st_seen s'.

Lemma set_deps_total fuel visit name lines s :
  total_visit fuel visit -> (unseen s < fuel)%nat ->
  exists s' e, set_deps installed visit name s lines = Some (s', e) /\ st_seen s ⊆ st_seen s'.
Proof.
  intros Hv. revert s. induction lines as [|raw lines IH]; intros s Hs; cbn [set_deps]; [eauto|].
  assert (Hd : exists s' e, set_dep installed visit name s raw = Some (s', e) /\ st_seen s ⊆ st_seen s').
  { unfold set_dep. destruct (_ || _); [eauto|]. destruct (_ && _); [eauto|].
    destruct (installed !! _) eqn:E; [|eauto]. apply Hv; [|done]. by apply elem_of_dom. }
  destruct Hd as (s1 & e & -> & H1). destruct e; [eauto|].
  destruct (IH s1) as (s2 & e & -> & H2). { pose proof (unseen_mono _ _ H1). lia. } exists s2, e. split; [done|by etrans].
Qed.

Lemma set_mod_total fuel : forall name value s,
  name ∈ dom installed -> (unseen s < fuel)%nat ->
  exists s' e, set_mod installed fuel name value s = Some (s', e) /\ st_seen s ⊆ st_seen s'.
Proof.
  induction fuel as [|fuel IH]; intros name value s Hn Hs; simpl; [lia|].
  case_bool_decide as Hseen; [eauto|]. destruct value; simpl; [|eexists _, _; split; [done|]; simpl; apply union_subseteq_r].
  set (s0 := {| st_mods := _; st_seen := _ |}).
  assert (H0 : (unseen s0 < unseen s)%nat) by (unfold unseen; apply subset_size; simpl; clear -Hn Hseen; set_solver).
  destruct (set_deps_total fuel (fun n => set_mod installed fuel n true) name (dependencies installed name) s0)
    as (s' & e & -> & Hs'); [intros n t Hd Ht; by apply IH|lia|].
  exists s', e. split; [done|]. etrans; [|exact Hs']. apply union_subseteq_r.
Qed.
End visits.

(** ** Properties *)
Lemma set_deps_grows_at_end installed fuel name s s' :
  set_mod installed fuel name false s = Some (s', None) -> name ∉ st_seen s ->
  st_mods s' = set_enabled name false (st_mods s).
Proof. destruct fuel; simpl; [done|]. intros Hs Hn. rewrite bool_decide_eq_false_2 in Hs by done. by injection Hs as <-. Qed.

(** (termination) switching a bundled mod always answers: the recursion through
    its requirements ends, also when mods require each other. *)
Theorem SetBuiltinModEnabled_answers dir list name enabled :
  exists r, SetBuiltinModEnabled dir list name enabled = Some r.
Proof.
  unfold SetBuiltinModEnabled. destruct (GetBuiltinModFiles dir) as [mods|e]; [|eauto].
  case_bool_decide as Hi; [eauto|]. destruct (_ && _); [eauto|].
  destruct (set_mod_total (by_name mods) (S (size (by_name mods))) name enabled {| st_mods := Mods list; st_seen := ∅ |})
    as (s & e & -> & _); [|unfold unseen; rewrite <-size_dom; apply Nat.lt_succ_r, subseteq_size; simpl; clear; set_solver|eauto].
  apply elem_of_dom. by destruct (by_name mods !! name).
Qed.

(** (functional) a bundled mod that was switched on is on together with a set of
    bundled mods closed under requirements: every mod the lines of one of them
    require is itself in the set and on, and no entry outside the set has changed.
    A mod that was switched off changes its own entry only. *)
Theorem SetBuiltinModEnabled_closed dir mods list name enabled list' :
  GetBuiltinModFiles dir = Ok mods ->
  SetBuiltinModEnabled dir list name enabled = Some (list', None) ->
  exists S : gset string,
    name ∈ S /\
    (forall n, mod_enabled (Mods list') n =
       if decide (n ∈ S) then Some enabled else mod_enabled (Mods list) n) /\
    (enabled = true -> forall n raw, n ∈ S -> raw ∈ dependencies (by_name mods) n -> required_line raw ->
       dep_name (parse_builtin_dep raw) ∈ S) /\
    (enabled = false -> S = {[name]}).
Proof.
  intros Hmods. unfold SetBuiltinModEnabled. rewrite Hmods.
  case_bool_decide; [done|]. destruct (_ && _); [done|].
  destruct (set_mod _ _ _ _ _) as [[s e]|] eqn:E; [|done]. intros [= <- ->]. destruct enabled.
  - apply set_mod_grows in E as [[A B C D] Hname]. exists (st_seen s). cbn [st_mods st_seen Mods] in *.
    split; [done|]. split; [|split; [|done]].
    + intros n. case_decide as Hn; [by apply B; [|apply not_elem_of_empty]|]. apply C. by right.
    + intros _ n raw Hn Hraw Hreq. eapply D; [done|apply not_elem_of_empty|done|done].
  - exists {[name]}. apply set_deps_grows_at_end in E; [|apply not_elem_of_empty]. cbn [st_mods Mods] in *.
    split; [by apply elem_of_singleton|]. split; [|done]. intros n. rewrite E, mod_enabled_set.
    destruct (decide (n ∈ {[name]})) as [Hs|Hs]; rewrite elem_of_singleton in Hs.
    + by rewrite decide_True.
    + by rewrite decide_False.
Qed.

(** What a line of an enabled mod asks. *)
Definition builtin_line_ok (installed : gmap string modZipInfo) (enabled : gmap string bool) (raw : string) : Prop :=
  is_recommended raw = false -> dep_optional (parseDep raw) = false -> dep_incompatible (parseDep raw) = false ->
  exists actual, installed !! dep_name (parseDep raw) = Some actual /\
    is_enabled enabled (dep_name (parseDep raw)) = true /\
    (dep_version (parseDep raw) = "" \/
     checkVersion (dep_equality (parseDep raw)) (dep_version (parseDep raw)) (z_Version actual) = Ok true).

Section validation.
#[local] Opaque parseDep is_recommended checkVersion.

Lemma validate_builtin_dep_spec installed enabled name raw :
  validate_builtin_dep installed enabled name raw = Ok tt <-> builtin_line_ok installed enabled raw.
Proof.
  unfold validate_builtin_dep, builtin_line_ok. destruct (is_recommended raw); [by split|].
  set (dep := parseDep raw). clearbody dep.
  destruct (dep_optional dep); [by split|]. destruct (dep_incompatible dep); [by split|]. cbn [orb].
  destruct (installed !! dep_name dep) as [actual|]; [|split; [done|intros Hx; by destruct (Hx eq_refl eq_refl eq_refl) as (? & ? & _)]].
  destruct (is_enabled enabled (dep_name dep)); cbn [negb];
    [|split; [done|intros Hx; by destruct (Hx eq_refl eq_refl eq_refl) as (? & _ & ? & _)]].
  case_bool_decide as Hv; [split; [|done]; intros _ _ _ _; eauto|].
  destruct (checkVersion _ _ _) as [[]|] eqn:E; split; try done.
  - intros _ _ _ _. eauto.
  - intros Hx. destruct (Hx eq_refl eq_refl eq_refl) as (x & [= <-] & _ & [?|Hc]); [done|congruence].
  - intros Hx. destruct (Hx eq_refl eq_refl eq_refl) as (x & [= <-] & _ & [?|Hc]); [done|congruence].
Qed.

(** (safety) a list is accepted exactly when every requirement of every bundled
    mod that is on is installed, on, and of an accepted version. *)
Theorem ValidateBuiltinModDependencies_exact dir mods list :
  GetBuiltinModFiles dir = Ok mods ->
  ValidateBuiltinModDependencies dir list = Ok tt <->
  forall m, m ∈ mods -> is_enabled (enabled_mods mods list) (z_Name m) = true ->
    Forall (builtin_line_ok (by_name mods) (enabled_mods mods list)) (z_Dependencies m).
Proof.
  intros Hmods. unfold ValidateBuiltinModDependencies. rewrite Hmods. cbn -[foldM enabled_mods by_name].
  rewrite foldM_checks, Forall_forall. apply forall_proper. intros m. apply forall_proper. intros Hm.
  destruct (is_enabled _ _); [|split; [done|by intros]].
  rewrite foldM_checks. split.
  - intros Hl _. eapply Forall_impl; [exact Hl|]. intros raw. apply validate_builtin_dep_spec.
  - intros Hl. eapply Forall_impl; [exact (Hl eq_refl)|]. intros raw. apply validate_builtin_dep_spec.
Qed.
End validation.

(** ** Release 2.1.23 of the game *)
Module BuiltinDemo.
Definition bundled (name : string) (deps : list string) : string * result string modZipInfo :=
  (name, Ok (noZip <| z_Name := name |> <| z_Version := "2.1.23" |> <| z_Dependencies := deps |>)).
Definition data_dir : builtin_dir := DirEntries
  [bundled "base" []; bundled "core" []; bundled "elevated-rails" ["base >= 2.0.0"];
   bundled "quality" ["base >= 2.1.0"; "recycler >= 2.1.0"]; bundled "recycler" ["base >= 2.1.0"];
   bundled "space-age" ["base >= 2.1.0"; "elevated-rails >= 2.1.0"; "+ quality >= 2.1.0"; "recycler >= 2.1.0"]].
Definition mods : list modZipInfo := match GetBuiltinModFiles data_dir with Ok l => l | Err _ => [] end.
Definition all_on : ModListData :=
  {| Mods := map (fun n => {| md_Name := n; md_Enabled := true |}) ["space-age"; "base"; "elevated-rails"; "quality"; "recycler"] |}.

Example space_age_on : SetBuiltinModEnabled data_dir {| Mods := [] |} "space-age" true = Some (all_on, None).
Proof. vm_compute. reflexivity. Qed.
Example all_on_valid : ValidateBuiltinModDependencies data_dir all_on = Ok tt.
Proof. vm_compute. reflexivity. Qed.
Example base_required : SetBuiltinModEnabled data_dir all_on "base" false = Some (all_on, Some "the base mod is required").
Proof. vm_compute. reflexivity. Qed.
Example inventory_sorted :
  map ie_Name (match GetModInventory {| Mods := [{| md_Name := "zeta"; md_Enabled := true |}] |} data_dir with Ok l => l | Err _ => [] end)
  = ["base"; "elevated-rails"; "quality"; "recycler"; "space-age"; "zeta"].
Proof. vm_compute. reflexivity. Qed.
End BuiltinDemo.

Lemma SetBuiltinModEnabled_closed_witness :
  exists S : gset string, "space-age" ∈ S /\
    (forall n, mod_enabled (Mods BuiltinDemo.all_on) n = if decide (n ∈ S) then Some true else mod_enabled [] n).
Proof.
  destruct (SetBuiltinModEnabled_closed BuiltinDemo.data_dir BuiltinDemo.mods {| Mods := [] |} "space-age" true BuiltinDemo.all_on)
    as (S & HS & Hn & _); [vm_compute; reflexivity|vm_compute; reflexivity|].
  exists S. exact (conj HS Hn).
Defined.

Lemma ValidateBuiltinModDependencies_exact_witness :
  forall m, m ∈ BuiltinDemo.mods -> is_enabled (enabled_mods BuiltinDemo.mods BuiltinDemo.all_on) (z_Name m) = true ->
    Forall (builtin_line_ok (by_name BuiltinDemo.mods) (enabled_mods BuiltinDemo.mods BuiltinDemo.all_on)) (z_Dependencies m).
Proof.
  apply (ValidateBuiltinModDependencies_exact BuiltinDemo.data_dir BuiltinDemo.mods BuiltinDemo.all_on).
  - vm_compute. reflexivity.
  - vm_compute. reflexivity.
Defined.
