(* ===== verification/Fetch.v ===== *)
(** * Fetching over HTTP: [src/factUpdater/fetch.go]

    [HttpGet] repeats a request the server turns away with 429, at most five
    times, waiting between the attempts.  What the server answers to each attempt
    is a parameter; the waits are recorded. *)
From Stdlib Require Import Ascii.
From S2P Require Import Prelude.
From S2P Require Import GoInt.
From S2P Require Import GoString.
From S2P Require Import GoTime.
From S2P Require Import GoPath.

Definition httpMaxRetries : Z := 5.
Definition httpStatusBodyLimit : nat := 256.
Definition StatusOK : Z := 200.
Definition StatusTooManyRequests : Z := 429.

(** A response: the body delivers [BodyData] and then ends, or fails with [BodyErr];
    [RequestURL] is where the request ended after redirects. *)
Record Response := {
  StatusCode : Z; StatusText : string; RetryAfter : string;
  BodyData : string; BodyErr : option string; ContentLength : Z; RequestURL : string }.

(** [io.ReadAll] of the body, and of its first bytes. *)
Definition ReadAll (res : Response) : result string string :=
  match BodyErr res with Some e => Err e | None => Ok (BodyData res) end.
Definition ReadLimited (n : nat) (res : Response) : result string string :=
  if (n <=? String.length (BodyData res))%nat then Ok (string_take n (BodyData res)) else ReadAll res.

Section fetch.
(** [http.ParseTime] with the time left until then; whether a proxy is configured;
    the answers of the server, attempt by attempt. *)
Variable until_time : string -> option duration.
Variable proxied : bool.
Variable answer : Z -> result string Response.

(** [strconv.Atoi] is [ParseInt] where an [int] has 64 bits. *)
Definition retryAfterDelay (res : Response) (attempt : Z) : duration :=
  let fallback := swrap 64 (Z.shiftl (2 * Second) attempt) in
  let by_date h :=
    match until_time h with
    | Some wait => if 0 <? wait then wait else fallback
    | None => fallback
    end in
  let header := TrimSpace (RetryAfter res) in
  if bool_decide (header = "") then fallback
  else
    match ParseInt header with
    | Some secs => if 0 <=? secs then swrap 64 (secs * Second) else by_date header
    | None => by_date header
    end.

Definition ReplaceAll_byte (c d : ascii) : string -> string := map_bytes (fun x => if Ascii.eqb x c then d else x).

Definition formatHTTPStatusError (res : Response) : string :=
  let msg := "http status error: " +:+ Itoa (StatusCode res) +:+ " " +:+ StatusText res in
  match ReadLimited httpStatusBodyLimit res with
  | Err _ => msg
  | Ok body =>
      let snippet := TrimSpace body in
      if bool_decide (snippet = "") then msg
      else msg +:+ ": " +:+ ReplaceAll_byte "013" " " (ReplaceAll_byte "010" " " snippet)
  end.

(** The attempts from [attempt] on: the response the loop ends with, and the waits.
    [fuel] is the number of attempts that are left. *)
Fixpoint http_attempts (fuel : nat) (attempt : Z) : result string (option Response) * list duration :=
  match fuel with
  | O => (Ok None, [])
  | S fuel =>
      match answer attempt with
      | Err e => (Err ("failed to get response: " +:+ e), [])
      | Ok res =>
          if (StatusCode res =? StatusTooManyRequests) && (attempt <? httpMaxRetries) then
            let '(r, waits) := http_attempts fuel (attempt + 1) in
            (r, retryAfterDelay res attempt :: waits)
          else (Ok (Some res), [])
      end
  end.

(** The checks on the length of the body. *)
Definition check_length (body : string) (length : Z) : result string unit :=
  if 0 <? length then if slen body =? length then Ok tt else Err "data ended early"
  else if proxied then Err "proxy did not supply content length"
  else if length =? -1 then Ok tt
  else Err "content length did not match".

(** The last element of the path, without the query. *)
Definition url_file (url : string) : string := default "" (head (Split (after_last slash url) "?"%char)).

Definition read_response (res : Response) : result string (string * string) :=
  if negb (StatusCode res =? StatusOK) then Err (formatHTTPStatusError res)
  else
    match ReadAll res with
    | Err e => Err ("unable to read response body: " +:+ e)
    | Ok body => _ ← check_length body (ContentLength res); Ok (body, url_file (RequestURL res))
    end.

Definition HttpGet : result string (string * string) * list duration :=
  let '(r, waits) := http_attempts 6 0 in
  match r with
  | Err e => (Err e, waits)
  | Ok None => (Err "http status error: no response", waits)
  | Ok (Some res) => (read_response res, waits)
  end.

(** ** Properties *)
Lemma http_attempts_ends fuel : forall attempt,
  0 <= attempt -> Z.of_nat fuel = httpMaxRetries + 1 - attempt -> (0 < fuel)%nat ->
  (exists e, (http_attempts fuel attempt).1 = Err e) \/
  exists k res, attempt <= k <= httpMaxRetries /\ answer k = Ok res /\ (http_attempts fuel attempt).1 = Ok (Some res) /\
    (StatusCode res = StatusTooManyRequests -> k = httpMaxRetries).
Proof.
  induction fuel as [|fuel IH]; intros attempt H0 Hf Hpos; [lia|]. simpl.
  destruct (answer attempt) as [res|e] eqn:Ea; [|left; eauto].
  destruct ((StatusCode res =? StatusTooManyRequests) && _) eqn:E.
  - apply andb_true_iff in E as [_ E%Z.ltb_lt]. unfold httpMaxRetries in *.
    destruct (IH (attempt + 1)) as [[e He]|(k & r & Hk & Ha & Hr & Hs)]; [lia..| |];
      destruct (http_attempts fuel (attempt + 1)) as [r' ws]; simpl in *; subst.
    + left. eauto.
    + right. exists k, r. split; [lia|]. done.
  - right. exists attempt, res. unfold httpMaxRetries in *. split; [lia|]. split; [done|]. split; [done|].
    intros Hs. rewrite Hs, Z.eqb_refl in E. simpl in E. bool_hyps. lia.
Qed.

Lemma http_attempts_waits fuel : forall attempt,
  0 <= attempt -> Z.of_nat fuel = httpMaxRetries + 1 - attempt ->
  Z.of_nat (length (http_attempts fuel attempt).2) <= httpMaxRetries - attempt \/ fuel = O.
Proof.
  induction fuel as [|fuel IH]; intros attempt H0 Hf; [by right|]. left. simpl.
  unfold httpMaxRetries in *. destruct (answer attempt) as [res|e]; simpl; [|lia].
  destruct (_ && _) eqn:E; [|simpl; lia]. apply andb_true_iff in E as [_ E%Z.ltb_lt].
  destruct (IH (attempt + 1)) as [Hw| ->]; [lia..| |simpl in *; lia].
  destruct (http_attempts fuel (attempt + 1)) as [r' ws]. simpl in *. lia.
Qed.

(** (termination) a request is made at most six times and waited for at most
    five; the call then either fails or reads a response of the server, one that was
    not turned away unless all six were; what it returns was answered with status
    200 and has the length the server announced. *)
Theorem HttpGet_answers :
  (length HttpGet.2 <= 5)%nat /\
  ((exists e, HttpGet.1 = Err e) \/
   exists k res body file, 0 <= k <= 5 /\ answer k = Ok res /\ StatusCode res = StatusOK /\
     ReadAll res = Ok body /\ HttpGet.1 = Ok (body, file) /\
     (0 < ContentLength res -> slen body = ContentLength res) /\
     (proxied = true -> 0 < ContentLength res)).
Proof.
  pose proof (http_attempts_waits 6 0 ltac:(lia) eq_refl) as Hw.
  pose proof (http_attempts_ends 6 0 ltac:(lia) eq_refl ltac:(lia)) as He.
  unfold HttpGet. destruct (http_attempts 6 0) as [r ws]. simpl in Hw, He.
  split; [destruct r as [[]|]; unfold httpMaxRetries in Hw; simpl; destruct Hw; lia|].
  destruct He as [[e ->]|(k & res & Hk & Ha & -> & _)]; [left; eauto|]. simpl.
  unfold read_response. destruct (StatusCode res =? StatusOK) eqn:Es; [|left; simpl; eauto]. apply Z.eqb_eq in Es.
  simpl. destruct (ReadAll res) as [body|e] eqn:Eb; [|left; eauto].
  unfold check_length. destruct (0 <? ContentLength res) eqn:El; bool_hyps.
  - destruct (slen body =? ContentLength res) eqn:E2; simpl; [|left; eauto]. apply Z.eqb_eq in E2.
    right. exists k, res, body, (url_file (RequestURL res)). unfold httpMaxRetries in Hk. split_and!; try done; lia.
  - destruct proxied; [left; simpl; eauto|]. destruct (_ =? -1); simpl; [|left; eauto].
    right. exists k, res, body, (url_file (RequestURL res)). unfold httpMaxRetries in Hk. split_and!; try done; lia.
Qed.

(** (bounds) a server that does not say how long to wait is waited for 2, 4, 8,
    16 and 32 seconds; one that does is obeyed up to the range of a duration. *)
Theorem retryAfterDelay_bounds res attempt :
  0 <= attempt < httpMaxRetries ->
  (TrimSpace (RetryAfter res) = "" -> retryAfterDelay res attempt = 2 ^ (attempt + 1) * Second) /\
  (forall secs, TrimSpace (RetryAfter res) <> "" -> ParseInt (TrimSpace (RetryAfter res)) = Some secs ->
     0 <= secs <= 9223372036 -> retryAfterDelay res attempt = secs * Second).
Proof.
  unfold httpMaxRetries. intros Ha. unfold retryAfterDelay. split.
  - intros ->. rewrite bool_decide_eq_true_2 by done. rewrite Z.shiftl_mul_pow2 by lia.
    assert (attempt = 0 \/ attempt = 1 \/ attempt = 2 \/ attempt = 3 \/ attempt = 4) as Hc by lia.
    repeat destruct Hc as [->|Hc]; try subst; reflexivity.
  - intros secs Hne Hp Hs. rewrite bool_decide_eq_false_2 by done. rewrite Hp.
    rewrite (proj2 (Z.leb_le 0 secs)) by lia. apply swrap_small; [lia|]. unfold in_s, Second. lia.
Qed.
End fetch.

Definition no_header : Response :=
  {| StatusCode := 429; StatusText := "Too Many Requests"; RetryAfter := " "; BodyData := ""; BodyErr := None; ContentLength := 0; RequestURL := "" |}.

Lemma retryAfterDelay_bounds_witness :
  0 <= 4 < httpMaxRetries /\ retryAfterDelay (fun _ => None) no_header 4 = 32 * Second.
Proof.
  split; [unfold httpMaxRetries; lia|].
  destruct (retryAfterDelay_bounds (fun _ => None) no_header 4) as [Hw _]; [unfold httpMaxRetries; lia|].
  exact (Hw eq_refl).
Defined.
