(* ===== verification/FactUpdater.v ===== *)
(** * Updating the game: [src/factUpdater/factUpdater.go], [fullPackage.go],
    [latest.go], [util.go]

    [doQuickLatest] compares the installed version with the newest release of the
    channel; [fullPackage] downloads the package, checks its SHA-256 sum and its
    contents, stops the game, removes its directories and unpacks the archive.  The
    files are a map from paths to contents.  The network, xz, tar, JSON, SHA-256,
    the stop of the game and the file operations that fail are parameters. *)
From Stdlib Require Import Ascii.
From S2P Require Import Prelude.
From S2P Require Import GoInt.
From S2P Require Import GoString.
From S2P Require Import GoPath.
From S2P Require Import GoTime.
From S2P Require Import WebProtocol.
From S2P Require Import OperationStatus.
From S2P Require Import ModVersion.

Definition baseDownloadURL : string := "https://www.factorio.com/get-download/".
Definition releaseURL : string := "https://factorio.com/api/latest-releases".
Definition sha256URL : string := "https://www.factorio.com/download/sha256sums/".

(** ** [util.go]: [parseStringsLatest] *)
Record getLatestPartData := { Headless : string; HeadlessInt : versionInts }.
Record getLatestData := { Experimental : getLatestPartData; Stable : getLatestPartData }.

(** The entry as it is left, and the error. *)
Definition parseStringsLatest (entry : getLatestData) : getLatestData * option string :=
  match parseVersionString (Headless (Stable entry)) with
  | Err e => (entry, Some e)
  | Ok sInt =>
      match parseVersionString (Headless (Experimental entry)) with
      | Err e => (entry, Some e)
      | Ok xInt =>
          ({| Experimental := {| Headless := Headless (Experimental entry); HeadlessInt := xInt |};
              Stable := {| Headless := Headless (Stable entry); HeadlessInt := sInt |} |}, None)
      end
  end.

(** ** [factUpdater.go] *)
Record InfoData := { i_Version : string; i_Distro : string; i_Build : string; i_Xreleases : bool; i_VersInt : versionInts }.
#[export] Instance InfoData_settable : Settable InfoData := mkSettable (fun r =>
  {| i_Version := i_Version r; i_Distro := i_Distro r; i_Build := i_Build r; i_Xreleases := i_Xreleases r;
     i_VersInt := i_VersInt r |}).

(** The first line of at least six words that is a version or a goodbye. *)
Fixpoint parse_version_lines (lines : list string) : result string (versionInts * string * string) :=
  match lines with
  | [] => Err "unexpected error"
  | line :: lines =>
      match Split line " "%char with
      | w0 :: w1 :: _ :: _ :: w4 :: w5 :: _ =>
          if bool_decide (w0 = "Version:") then
            fversion ← parseVersionString w1;
            Ok (fversion, TrimSuffix w5 ")", TrimSuffix w4 ",")
          else if bool_decide (w1 = "Goodbye") then Err "factorio quit"
          else parse_version_lines lines
      | _ => parse_version_lines lines
      end
  end.

Definition parseFactorioVersion (input : string) : result string (versionInts * string * string) :=
  parse_version_lines (Split input "010"%char).

Definition saveFoundVersion (info : InfoData) (fversion : versionInts) (fbuild fdistro : string) : InfoData :=
  let info := if bool_decide (i_Version info = "") then info <| i_VersInt := fversion |> else info in
  let info := if bool_decide (i_Build info = "") then info <| i_Build := fbuild |> else info in
  if bool_decide (i_Distro info = "") then info <| i_Distro := fdistro |> else info.

(** [version_output] is what the game prints, or why it did not start. *)
Definition GetFactorioVersion (binary_exists : result string bool) (binary : string)
    (version_output : result string string) (info : InfoData) : result string InfoData :=
  if negb (bool_decide (i_Version info = "")) then Ok info
  else
    found ← binary_exists;
    if negb found then Err ("factorio binary was not found at: " +:+ binary)
    else
      output ← version_output;
      v ← parseFactorioVersion output;
      let '(fversion, fbuild, fdistro) := v in
      Ok (saveFoundVersion info fversion fbuild fdistro).

Example parse_1 : parseFactorioVersion ("Version: 2.0.55 (build 81234, linux64, headless)" +:+ String "010" "Binary version: 64")
  = Ok ((2, 0, 55), "headless", "linux64").
Proof. reflexivity. Qed.
Example parse_2 : parseFactorioVersion "Version: 2.0.55" = Err "unexpected error". Proof. reflexivity. Qed.

(** ** The archive *)
Inductive tar_type := TypeReg | TypeDir | TypeOther.
#[export] Instance tar_type_eq_dec : EqDecision tar_type.
Proof. solve_decision. Defined.

(** A header and, for a file, what can be read of it, and the error that ends it. *)
Record tar_entry := { te_Name : string; te_Type : tar_type; te_Data : string; te_Err : option string }.

(** What successive calls of [Next] return until the end of the archive. *)
Definition tar_stream := list (result string tar_entry).

Definition install_files : list string :=
  ["factorio/data/eula.txt"; "factorio/data/licenses.txt"; "factorio/data/credits.txt";
   "factorio/data/changelog.txt"; "factorio/data/core/backers.json"; "factorio/data/core/data.lua";
   "factorio/data/core/info.json"].

(** The names of the regular files up to the end, or the error of the reader. *)
Definition tar_regular (s : tar_stream) : result string (list string) :=
  foldM (fun names e =>
    h ← e; Ok (match te_Type h with TypeReg => names ++ [te_Name h] | _ => names end)) [] s.

Definition checkInstallTar (s : tar_stream) : result string unit :=
  names ← tar_regular s;
  foldM (fun _ item =>
    if bool_decide (item ∈ names) then Ok tt else Err ("file " +:+ item +:+ " missing from install package")) tt install_files.

(** A file that is there is written over from its start and not cut. *)
Definition overwrite (old new : string) : string := new +:+ string_drop (String.length new) old.

Notation files_t := (gmap string string).

Section untar.
Variable open_error : string -> option string.

Definition untar_entry (dst : string) (files : files_t) (header : tar_entry) : files_t * option string :=
  let target := path_Join [dst; te_Name header] in
  match te_Type header with
  | TypeReg =>
      match open_error target with
      | Some e => (files, Some e)
      | None =>
          let old := default "" (files !! target) in
          (<[target := overwrite old (te_Data header)]> files, te_Err header)
      end
  | _ => (files, None)
  end.

(** The files as they are left, and the error that stopped it. *)
Fixpoint untar (dst : string) (files : files_t) (s : tar_stream) : files_t * option string :=
  match s with
  | [] => (files, None)
  | Err e :: _ => (files, Some e)
  | Ok header :: s =>
      match untar_entry dst files header with
      | (files, Some e) => (files, Some e)
      | (files, None) => untar dst files s
      end
  end.
End untar.

(** [os.RemoveAll]: the path and everything below it. *)
Definition below (dir p : string) : bool := bool_decide (p = dir) || HasPrefix p (dir +:+ "/").
Definition RemoveAll (dir : string) (files : files_t) : files_t :=
  filter (fun pc : string * string => below dir pc.1 = false) files.

(** ** [fullPackage.go] *)
Fixpoint find_sum (filename : string) (lines : list (list string)) : result string string :=
  match lines with
  | [] => Err "SHA256 not found for that file"
  | [sum; file] :: lines => if bool_decide (filename = file) then Ok sum else find_sum filename lines
  | _ :: _ => Err "SHA256 data is invalid"
  end.

(** [strings.Split(sum, "  ")], on a two-byte separator. *)
Fixpoint split2 (cur s : string) : list string :=
  match s with
  | String " " (String " " s) => cur :: split2 "" s
  | String c s => split2 (cur +:+ String c "") s
  | EmptyString => [cur]
  end.

Section full_package.
Context `{UnicodeTables, Hashing}.

(** The outside of one installation. *)
Record install_env := {
  HttpGet : string -> result string (string * string);
  unXZData : string -> result string string;
  tar_read : string -> tar_stream;
  stop_game : option string;                    (* [fact.WaitFactQuit] *)
  remove_error : string -> bool;
  open_error : string -> option string;
  Binary : string                               (* [fact.GetFactorioBinary] *)
}.

Record fu_world := {
  fu_files : files_t;
  fu_updating : bool;                           (* [UpdateInProgress] *)
  fu_version : string;                          (* [fact.FactorioVersion] *)
  fu_updated : bool                             (* [MarkFactorioUpdated] *)
}.
#[export] Instance fu_world_settable : Settable fu_world := mkSettable (fun r =>
  {| fu_files := fu_files r; fu_updating := fu_updating r; fu_version := fu_version r; fu_updated := fu_updated r |}).

Variable env : install_env.

Definition getSHA256 (filename : string) : result string string :=
  match HttpGet env sha256URL with
  | Err e => Err ("Unable to fetch SHA256 sum data: " +:+ e)
  | Ok (data, _) => find_sum filename (split2 "" <$> Split data "010"%char)
  end.

Definition checkSHA256 (data checkHash : string) : bool :=
  EqualFold (hex_EncodeToString (sha256 (to_bytes data))) checkHash.

Definition checkFullPackage (data : string) : result string string :=
  match unXZData env data with
  | Err e => Err ("checkFullPackage: xz failed to decompress:" +:+ e)
  | Ok archive =>
      match checkInstallTar (tar_read env archive) with
      | Err e => Err ("checkFullPackage: tar verify failed:" +:+ e)
      | Ok _ => Ok archive
      end
  end.

Definition package_url (info : InfoData) : string :=
  baseDownloadURL +:+ (if i_Xreleases info then "latest" else "stable") +:+ "/" +:+ i_Build info +:+ "/" +:+ i_Distro info.

Definition package_name (info : InfoData) : string :=
  "factorio-" +:+ i_Build info +:+ "_" +:+ TrimSuffix (i_Distro info) "64" +:+ "_" +:+ IntToString (i_VersInt info) +:+ ".tar.xz".

(** The package as it is after every check, and the directory above the game. *)
Definition verified_package (info : InfoData) : result string string :=
  match HttpGet env (package_url info) with
  | Err e => Err ("Download failed: " +:+ e)
  | Ok (data, _) =>
      match getSHA256 (package_name info) with
      | Err e => Err ("unable to get SHA256 data: " +:+ e)
      | Ok hash =>
          if negb (checkSHA256 data hash) then Err "the download has an invalid checksum"
          else
            match checkFullPackage data with
            | Err e => Err ("checking full package failed: " +:+ e)
            | Ok archive => Ok archive
            end
      end
  end.

Definition fact_path : result string string :=
  let pathParts := Split (Binary env) "/"%char in
  let numParts := length pathParts in
  if (numParts <? 4)%nat
  then Err "factorio's binary path does not seem valid. Make sure to include factorio/bin/x64/factorio"
  else Ok (Join (take (numParts - 4) pathParts) "/").

(** An error of [RemoveAll] is logged and passed over. *)
Definition remove_dir (files : files_t) (dir : string) : files_t :=
  if remove_error env dir then files else RemoveAll dir files.

Definition removed_dirs (factPath : string) : list string :=
  (fun d => factPath +:+ "/factorio/" +:+ d) <$> ["bin"; "config"; "data"; "temp"; "bin"].

Definition fullPackage (info : InfoData) (w : fu_world) : fu_world * option string :=
  match verified_package info with
  | Err e => (w, Some e)
  | Ok archive =>
      match fact_path with
      | Err e => (w, Some e)
      | Ok factPath =>
          let w := w <| fu_updating := true |> in
          let '(w, err) :=
            match stop_game env with
            | Some e => (w, Some ("aborting Factorio installation: " +:+ e))
            | None =>
                let files := foldl remove_dir (fu_files w) (removed_dirs factPath) in
                let '(files, err) := untar (open_error env) factPath files (tar_read env archive) in
                let w := w <| fu_files := files |> in
                match err with
                | Some e => (w, Some ("installing Factorio to '" +:+ factPath +:+ "' failed: " +:+ e))
                | None => (w <| fu_version := IntToString (i_VersInt info) |> <| fu_updated := true |>, None)
                end
            end in
          (w <| fu_updating := false |>, err)
      end
  end.
End full_package.

(** ** [latest.go] *)
Section quick_latest.
Context `{UnicodeTables, Hashing}.
Variable ChatChannel : string.
Variable delete_ok : operationMessageRef -> bool.

(** One run: the lock on the game files, the configured channel, the binary and
    what it prints, the list of releases, the clock, the installation. *)
Record quick_run := {
  qr_lockErr : bool; qr_exp : bool;
  qr_binary : result string bool; qr_output : result string string;
  qr_releases : string -> option getLatestData;      (* [json.Unmarshal] *)
  qr_begin : time * time * time; qr_now : time;
  qr_env : install_env
}.

Record ql_world := { ql_fu : fu_world; ql_op : OpWorld; ql_new : string }.   (* [fact.NewVersion] *)
#[export] Instance ql_world_settable : Settable ql_world := mkSettable (fun r =>
  {| ql_fu := ql_fu r; ql_op := ql_op r; ql_new := ql_new r |}).

(** The error of [parseStringsLatest] is dropped. *)
Definition quickLatest (r : quick_run) (info : InfoData) : result string versionInts :=
  match HttpGet (qr_env r) releaseURL with
  | Err e => Err ("downloading release list failed: " +:+ e)
  | Ok (body, _) =>
      match qr_releases r body with
      | None => Err "unable to unmarshal json data"
      | Some tempList =>
          let tempList := (parseStringsLatest tempList).1 in
          Ok (HeadlessInt (if i_Xreleases info then Experimental tempList else Stable tempList))
      end
  end.

Definition title : string := "Updating Factorio".

Section report.
Variable r : quick_run.
Variable reportDiscord : bool.
Variable opToken : string.

Definition op_end (text : string) (w : ql_world) : ql_world :=
  if reportDiscord then w <| ql_op ::= finalizeOperation ChatChannel delete_ok (qr_now r) opToken title text |> else w.
Definition op_update (text : string) (w : ql_world) : ql_world :=
  if reportDiscord then w <| ql_op ::= UpdateOperation ChatChannel delete_ok (qr_now r) opToken title text |> else w.

(** What the call returns: the text, whether it is an error, whether the game is
    up to date. *)
Definition quick_result := (ql_world * (string * bool * bool))%type.

Definition force_install (info : InfoData) (w : ql_world) : quick_result :=
  match quickLatest r info with
  | Err e => (op_end ("Checking latest Factorio release failed: " +:+ e) w, ("quickLatest: " +:+ e, true, false))
  | Ok newVersion =>
      let info := info <| i_VersInt := newVersion |> in
      let w := op_update ("Installing Factorio " +:+ IntToString newVersion +:+ ".") w in
      let '(fu, err) := fullPackage (qr_env r) info (ql_fu w) in
      let w := w <| ql_fu := fu |> in
      match err with
      | Some e => (op_end ("Factorio install failed: " +:+ e) w, ("DoQuickLatest: fullPackage: " +:+ e, true, false))
      | None => (op_end "Factorio installed." w, ("Factorio " +:+ IntToString newVersion +:+ " installed.", false, false))
      end
  end.

Definition older_text : string :=
  "Current version is older, use install-factorio option if you want to downgrade." +:+ String "010"
  "WARNING: downgrading will likely break existing maps/saves.".

Definition check_install (info : InfoData) (w : ql_world) : quick_result :=
  match GetFactorioVersion (qr_binary r) (Binary (qr_env r)) (qr_output r) info with
  | Err e => (op_end ("Unable to determine current Factorio version: " +:+ e) w,
              ("Unable to get Factorio version: " +:+ e, true, false))
  | Ok info =>
      let oldVersion := i_VersInt info in
      match quickLatest r info with
      | Err e => (op_end ("Checking latest Factorio release failed: " +:+ e) w, ("quickLatest: " +:+ e, true, false))
      | Ok newVersion =>
          let w := w <| ql_new := IntToString newVersion |> in
          if isVersionNewerThan newVersion oldVersion then
            let w := op_update ("Found Factorio update " +:+ IntToString newVersion +:+ ". Downloading and installing.") w in
            let '(fu, err) := fullPackage (qr_env r) (info <| i_VersInt := newVersion |>) (ql_fu w) in
            let w := w <| ql_fu := fu |> in
            match err with
            | Some e => (op_end ("Factorio update failed: " +:+ e) w, ("DoQuickLatest: fullPackage: " +:+ e, true, false))
            | None =>
                let text := "Factorio upgraded from " +:+ IntToString oldVersion +:+ " to " +:+ IntToString newVersion +:+ "." in
                (op_end text w, (text, false, false))
            end
          else if isVersionEqual newVersion (i_VersInt info)
          then (op_end "Factorio is already up-to-date." w, ("Factorio is up-to-date.", false, true))
          else (op_end "Current version is newer than the selected release channel." w, (older_text, false, true))
      end
  end.
End report.

Definition doQuickLatest (force reportDiscord : bool) (r : quick_run) (w : ql_world) : quick_result :=
  if qr_lockErr r then (w, ("Shared game files are busy.", true, false))
  else
    let '(now0, now1, now2) := qr_begin r in
    let '(opToken, op) :=
      if reportDiscord then BeginOperation now0 now1 now2 title "Checking for Factorio updates." (ql_op w)
      else ("", ql_op w) in
    let w := w <| ql_op := op |> in
    let info := {| i_Version := ""; i_Distro := "linux64"; i_Build := "headless"; i_Xreleases := qr_exp r; i_VersInt := (0, 0, 0) |} in
    if force then force_install r reportDiscord opToken info w
    else check_install r reportDiscord opToken info w.
End quick_latest.
