(* ===== verification/FactUpdaterSafety.v ===== *)
(** * What an update of the game guarantees

    Nothing is touched before the package passed every check and the game has
    stopped; what is unpacked is the archive; an automatic update never goes back to
    an older version; and whatever fails, the flags and the announced operation are
    closed. *)
From S2P Require Import Prelude.
From S2P Require Import GoInt.
From S2P Require Import GoString.
From S2P Require Import GoPath.
From S2P Require Import GoTime.
From S2P Require Import WebProtocol.
From S2P Require Import OperationStatus.
From S2P Require Import ModVersion.
From S2P Require Import FactUpdater.

(** ** Unpacking *)
Definition target_of (dst : string) (h : tar_entry) : string := path_Join [dst; te_Name h].

Definition regular (e : result string tar_entry) : option tar_entry :=
  match e with
  | Ok h => if decide (te_Type h = TypeReg) then Some h else None
  | Err _ => None
  end.

Lemma overwrite_nothing new : overwrite "" new = new.
Proof. unfold overwrite. destruct (String.length new); simpl; apply string_app_nil_r. Qed.

Section untar_lemmas.
Variable open_error : string -> option string.
Variable dst : string.

Lemma untar_entry_done files h files' :
  untar_entry open_error dst files h = (files', None) ->
  files' = if decide (te_Type h = TypeReg)
           then <[target_of dst h := overwrite (default "" (files !! target_of dst h)) (te_Data h)]> files
           else files.
Proof.
  unfold untar_entry, target_of. destruct (te_Type h); simpl; try by intros [= <-].
  destruct (open_error _); [done|]. by intros [= <- _].
Qed.

(** The paths an archive does not name keep their content. *)
Lemma untar_other files s p :
  p ∉ target_of dst <$> omap regular s -> (untar open_error dst files s).1 !! p = files !! p.
Proof.
  revert files. induction s as [|[h|e] s IH]; intros files Hp; simpl; [done| |done].
  assert (Hh : (untar_entry open_error dst files h).1 !! p = files !! p /\ p ∉ target_of dst <$> omap regular s).
  { simpl in Hp. destruct (decide (te_Type h = TypeReg)) as [Ht|Ht]; simpl in Hp.
    - apply not_elem_of_cons in Hp as [Hp1 Hp2]. split; [|done]. unfold untar_entry. rewrite Ht.
      destruct (open_error _); [done|]. simpl. by apply lookup_insert_ne.
    - split; [|done]. unfold untar_entry. by destruct (te_Type h). }
  destruct Hh as [Hh Hs]. destruct (untar_entry open_error dst files h) as [files1 [e|]]; simpl in *; [done|].
  by rewrite IH.
Qed.

Lemma untar_content files s files' h :
  untar open_error dst files s = (files', None) -> NoDup (target_of dst <$> omap regular s) -> h ∈ omap regular s ->
  files' !! target_of dst h = Some (overwrite (default "" (files !! target_of dst h)) (te_Data h)).
Proof.
  revert files. induction s as [|[x|e] s IH]; intros files; simpl; [intros _ _; set_solver| |done].
  destruct (untar_entry open_error dst files x) as [files1 [e|]] eqn:E; [done|].
  apply untar_entry_done in E. intros Hu Hnd Hin.
  destruct (decide (te_Type x = TypeReg)) as [Ht|Ht]; simpl in *; subst files1.
  - apply NoDup_cons in Hnd as [Hx Hnd]. apply elem_of_cons in Hin as [->|Hin].
    + pose proof (fun m => untar_other m s _ Hx) as Ho. match type of Hu with untar _ _ ?m _ = _ => specialize (Ho m) end. rewrite Hu in Ho. cbn [fst] in Ho.
      rewrite Ho. apply lookup_insert_eq.
    + rewrite (IH _ Hu Hnd Hin). rewrite lookup_insert_ne; [done|]. intros Heq. apply Hx. rewrite Heq.
      by apply list_elem_of_fmap_2.
  - by apply (IH files).
Qed.
End untar_lemmas.

(** ** Removing the old directories *)
Lemma RemoveAll_below dir files p : below dir p = true -> RemoveAll dir files !! p = None.
Proof. intros Hp. apply map_lookup_filter_None_2. right. intros c _. simpl. by rewrite Hp. Qed.

Lemma RemoveAll_None dir files p : files !! p = None -> RemoveAll dir files !! p = None.
Proof. intros Hp. apply map_lookup_filter_None_2. by left. Qed.

Section installs.
Context `{UnicodeTables, Hashing}.
Variable env : install_env.

Lemma remove_dirs_below dirs files dir p :
  dir ∈ dirs -> remove_error env dir = false -> below dir p = true -> foldl (remove_dir env) files dirs !! p = None.
Proof.
  intros Hdir Hok Hp. revert files. induction dirs as [|d dirs IH]; intros files; simpl; [set_solver|].
  apply elem_of_cons in Hdir as [->|Hdir]; [|by apply IH]. clear IH.
  assert (Hd : remove_dir env files d !! p = None) by (unfold remove_dir; rewrite Hok; by apply RemoveAll_below).
  revert Hd. generalize (remove_dir env files d). clear files. induction dirs as [|d' dirs IH]; intros files Hd; simpl; [done|].
  apply IH. unfold remove_dir. destruct (remove_error env d'); [done|]. by apply RemoveAll_None.
Qed.

(** A package that passed every check. *)
Definition checked (info : InfoData) (archive : string) : Prop :=
  exists data file sum names, HttpGet env (package_url info) = Ok (data, file) /\
    getSHA256 env (package_name info) = Ok sum /\ checkSHA256 data sum = true /\
    unXZData env data = Ok archive /\ tar_regular (tar_read env archive) = Ok names /\
    Forall (fun f => f ∈ names) install_files.

Lemma checkInstallTar_spec s :
  checkInstallTar s = Ok tt <-> exists names, tar_regular s = Ok names /\ Forall (fun f => f ∈ names) install_files.
Proof.
  unfold checkInstallTar. destruct (tar_regular s) as [names|e].
  - change (Ok names ≫= ?f) with (f names). rewrite foldM_checks. split.
    + intros Hall. exists names. split; [done|]. eapply Forall_impl; [exact Hall|]. intros f. simpl. by case_bool_decide.
    + intros (x & [= <-] & Hall). eapply Forall_impl; [exact Hall|]. intros f Hf. simpl. by rewrite bool_decide_eq_true_2.
  - split; [done|by intros (? & ? & _)].
Qed.

Lemma verified_package_checked info archive : verified_package env info = Ok archive <-> checked info archive.
Proof.
  unfold verified_package, checked, checkFullPackage. split.
  - destruct (HttpGet env _) as [[data file]|]; [|done]. destruct (getSHA256 env _) as [sum|]; [|done].
    destruct (checkSHA256 data sum) eqn:Es; [|done]. cbn [negb].
    destruct (unXZData env data) as [ar|] eqn:Ex; [|done].
    destruct (checkInstallTar _) as [[]|] eqn:Ec; [|done]. intros [= <-].
    apply checkInstallTar_spec in Ec as (names & Ht & Hf).
    exists data, file, sum, names. done.
  - intros (data & file & sum & names & -> & -> & -> & -> & Ht & Hf). cbn [negb].
    by rewrite (proj2 (checkInstallTar_spec _) (ex_intro _ names (conj Ht Hf))).
Qed.

(** C31: (safety) the files of the game are touched only for a package whose SHA-256
    sum is the published one and which holds every file that is looked for, and only
    once the game has stopped; in every case the update flag is off afterwards. *)
Theorem install_only_verified info w w' err :
  fullPackage env info w = (w', err) -> fu_updating w = false ->
  fu_updating w' = false /\
  (fu_files w' <> fu_files w \/ fu_updated w' <> fu_updated w \/ fu_version w' <> fu_version w ->
   stop_game env = None /\ exists archive, checked info archive).
Proof.
  unfold fullPackage. intros Hf Hu. destruct (verified_package env info) as [archive|e] eqn:Ev.
  2: { injection Hf as <- _. split; [done|]. naive_solver. }
  destruct (fact_path env) as [factPath|e]; [|injection Hf as <- _; split; [done|naive_solver]].
  destruct (stop_game env) as [e|]; [injection Hf as <- _; split; [done|]; simpl; naive_solver|].
  apply verified_package_checked in Ev.
  destruct (untar _ _ _ _) as [files [e|]]; injection Hf as <- _; (split; [done|]); intros _; eauto.
Qed.

(** (functional) an installation that reports success has put the content of the
    archive in place: in the directories of the game that were removed, every file
    the archive names has exactly its content, and the version is the new one. *)
Theorem install_unpacks_archive info w w' archive factPath h dir :
  fullPackage env info w = (w', None) -> verified_package env info = Ok archive -> fact_path env = Ok factPath ->
  NoDup (target_of factPath <$> omap regular (tar_read env archive)) -> h ∈ omap regular (tar_read env archive) ->
  dir ∈ removed_dirs factPath -> remove_error env dir = false -> below dir (target_of factPath h) = true ->
  fu_files w' !! target_of factPath h = Some (te_Data h) /\
  fu_version w' = IntToString (i_VersInt info) /\ fu_updated w' = true.
Proof.
  intros Hf Hv Hp Hnd Hin Hdir Hrm Hbelow. unfold fullPackage in Hf. rewrite Hv, Hp in Hf.
  destruct (stop_game env); [done|].
  destruct (untar _ _ _ _) as [files [e|]] eqn:Eu; [done|]. injection Hf as <-. simpl. split; [|done].
  rewrite (untar_content _ _ _ _ _ _ Eu Hnd Hin). rewrite (remove_dirs_below _ _ dir) by done.
  by rewrite overwrite_nothing.
Qed.
End installs.

(** ** Checking for a new release *)
Section quick.
Context `{UnicodeTables, Hashing}.
Variable ChatChannel : string.
Variable delete_ok : operationMessageRef -> bool.
Variable r : quick_run.
Variable w : ql_world.
Local Notation quick force report := (doQuickLatest ChatChannel delete_ok force report r w).

Definition first_info : InfoData :=
  {| i_Version := ""; i_Distro := "linux64"; i_Build := "headless"; i_Xreleases := qr_exp r; i_VersInt := (0, 0, 0) |}.

Lemma op_end_files report token text v : ql_fu (op_end ChatChannel delete_ok r report token text v) = ql_fu v.
Proof. unfold op_end. by destruct report. Qed.
Lemma op_update_files report token text v : ql_fu (op_update ChatChannel delete_ok r report token text v) = ql_fu v.
Proof. unfold op_update. by destruct report. Qed.

(** (safety) a check that is not forced installs a release only when it is newer
    than the version the game itself reports: it never downgrades, and it leaves the
    files alone when either version cannot be determined. *)
Theorem update_never_downgrades report :
  ql_fu (quick false report).1 <> ql_fu w ->
  exists info newVersion, GetFactorioVersion (qr_binary r) (Binary (qr_env r)) (qr_output r) first_info = Ok info /\
    quickLatest r info = Ok newVersion /\ lex_lt (i_VersInt info) newVersion.
Proof.
  unfold doQuickLatest. destruct (qr_lockErr r); [done|]. destruct (qr_begin r) as [[now0 now1] now2].
  destruct (if report then _ else _) as [token op]. unfold check_install. fold first_info.
  destruct (GetFactorioVersion _ _ _ _) as [info|e]; [|cbn [fst]; by rewrite op_end_files].
  destruct (quickLatest r info) as [newVersion|e] eqn:Eq; [|cbn [fst]; by rewrite op_end_files].
  destruct (isVersionNewerThan newVersion (i_VersInt info)) eqn:En.
  { intros _. exists info, newVersion. split; [done|]. split; [done|]. by apply isVersionNewerThan_spec. }
  destruct (isVersionEqual _ _); cbn [fst]; by rewrite op_end_files.
Qed.

Lemma token_fixed token v : 
  token <> "" -> os_token (ow_status (ql_op v)) = token -> forall text,
  os_token (ow_status (ql_op (op_update ChatChannel delete_ok r true token text v))) = token /\
  ow_status (ql_op (op_end ChatChannel delete_ok r true token text v)) = noOperation.
Proof.
  intros Hne Ht text. unfold op_update, op_end, UpdateOperation. simpl. split.
  - rewrite <-Ht at 2. apply update_keeps_token.
  - by apply finalize_op_ends.
Qed.

Local Ltac not_both := intros [??]; discriminate.

(** (error) a check that reports to Discord and gets the lock always closes the
    operation it announced, and its answer is never both an error and "up to date". *)
Theorem quick_latest_ends force :
  qr_lockErr r = false ->
  ow_status (ql_op (quick force true).1) = noOperation /\
  ~ ((quick force true).2.1.2 = true /\ (quick force true).2.2 = true).
Proof.
  intros Hlock. unfold doQuickLatest. rewrite Hlock. destruct (qr_begin r) as [[now0 now1] now2].
  unfold BeginOperation. cbn [fst snd]. change (TrimSpace title) with title.
  change (TrimSpace "Checking for Factorio updates.") with "Checking for Factorio updates.".
  rewrite !bool_decide_eq_false_2 by done. cbn [orb].
  set (v := w <| ql_op := _ |>). assert (Hv : os_token (ow_status (ql_op v)) = op_token now0) by done. clearbody v.
  fold first_info. assert (Hne : op_token now0 <> "") by done.
  assert (Hend : forall u text, os_token (ow_status (ql_op u)) = op_token now0 ->
    ow_status (ql_op (op_end ChatChannel delete_ok r true (op_token now0) text u)) = noOperation)
    by (intros u text Hu; exact (proj2 (token_fixed (op_token now0) u Hne Hu text))).
  assert (Hupd : forall u text, os_token (ow_status (ql_op u)) = op_token now0 ->
    os_token (ow_status (ql_op (op_update ChatChannel delete_ok r true (op_token now0) text u))) = op_token now0)
    by (intros u text Hu; exact (proj1 (token_fixed (op_token now0) u Hne Hu text))).
  destruct force.
  - unfold force_install. destruct (quickLatest r first_info) as [nv|e]; [|split; [by apply Hend|not_both]].
    set (u := op_update _ _ _ _ _ _ v). assert (Hu := Hupd v _ Hv : os_token (ow_status (ql_op u)) = _). clearbody u.
    destruct (fullPackage _ _ _) as [fu [e|]]; cbn [fst snd]; (split; [by apply Hend|not_both]).
  - unfold check_install. destruct (GetFactorioVersion _ _ _ _) as [info|e]; [|split; [by apply Hend|not_both]].
    destruct (quickLatest r info) as [nv|e]; [|split; [by apply Hend|not_both]].
    destruct (isVersionNewerThan nv (i_VersInt info)).
    + set (u := op_update _ _ _ _ _ _ _).
      assert (Hu : os_token (ow_status (ql_op u)) = op_token now0) by (subst u; exact (Hupd _ _ Hv)). clearbody u.
      destruct (fullPackage _ _ _) as [fu [e|]]; cbn [fst snd]; (split; [by apply Hend|not_both]).
    + destruct (isVersionEqual _ _); cbn [fst snd]; (split; [by apply Hend|not_both]).
Qed.

(** (error) the release list is all or nothing, and its error is dropped: when the
    version of the other channel does not parse, a well-formed release is read as
    0.0.0, so no update is ever found. *)
Theorem malformed_release_hides_update body file data e info :
  FactUpdater.HttpGet (qr_env r) releaseURL = Ok (body, file) -> qr_releases r body = Some data ->
  HeadlessInt (Stable data) = (0, 0, 0) -> HeadlessInt (Experimental data) = (0, 0, 0) ->
  parseVersionString (Headless (Experimental data)) = Err e ->
  quickLatest r info = Ok (0, 0, 0).
Proof.
  intros Hget Hdata Hs Hx He. unfold quickLatest. rewrite Hget, Hdata.
  assert (Hp : (parseStringsLatest data).1 = data) by (unfold parseStringsLatest; rewrite He; destruct (parseVersionString (Headless (Stable data))); reflexivity).
  rewrite Hp. destruct (i_Xreleases info); by rewrite ?Hs, ?Hx.
Qed.
End quick.

(** ** Cases *)
Module UpdaterDemo.
Definition entry (n c : string) : result string tar_entry :=
  Ok {| te_Name := n; te_Type := TypeReg; te_Data := c; te_Err := None |}.
Definition package : tar_stream :=
  (fun f => entry f "new") <$> (install_files ++ ["factorio/bin/x64/factorio"; "factorio/config-path.cfg"]).

(** A sum that is the text itself, in a package that is not compressed. *)
Definition no_hash : Hashing := fun b => b.
Definition sums : string := "6e6577  factorio-headless_linux_2.0.76.tar.xz".
Definition env (binary : string) (stop : option string) : install_env := {|
  FactUpdater.HttpGet := fun url =>
    if bool_decide (url = sha256URL) then Ok (sums, "") else if bool_decide (url = releaseURL) then Ok ("list", "") else Ok ("new", "");
  unXZData := fun d => Ok d; tar_read := fun _ => package; stop_game := stop;
  remove_error := fun _ => false; open_error := fun _ => None; Binary := binary |}.
Definition info : InfoData :=
  {| i_Version := ""; i_Distro := "linux64"; i_Build := "headless"; i_Xreleases := false; i_VersInt := (2, 0, 76) |}.
Definition world (files : list (string * string)) : fu_world :=
  {| fu_files := list_to_map files; fu_updating := false; fu_version := "2.0.55"; fu_updated := false |}.
Definition install (binary : string) (files : list (string * string)) : fu_world * option string :=
  @fullPackage ascii_tables no_hash (env binary None) info (world files).

(** A file outside the removed directories keeps the tail of a longer old version. *)
Theorem stale_tail :
  (install "/opt/factorio/bin/x64/factorio" [("/opt/factorio/config-path.cfg", "old text")]).2 = None /\
  fu_files (install "/opt/factorio/bin/x64/factorio" [("/opt/factorio/config-path.cfg", "old text")]).1
    !! "/opt/factorio/config-path.cfg" = Some "new text".
Proof. split; vm_compute; reflexivity. Qed.

(** With the game directly below the root the old files are removed there and the new
    ones are unpacked into the working directory. *)
Theorem root_install_misplaced :
  (install "/factorio/bin/x64/factorio" [("/factorio/bin/x64/factorio", "old")]).2 = None /\
  fu_files (install "/factorio/bin/x64/factorio" [("/factorio/bin/x64/factorio", "old")]).1
    !! "/factorio/bin/x64/factorio" = None /\
  fu_files (install "/factorio/bin/x64/factorio" [("/factorio/bin/x64/factorio", "old")]).1
    !! "factorio/bin/x64/factorio" = Some "new".
Proof. split_and!; vm_compute; reflexivity. Qed.

Definition releases (exp stable : string) : getLatestData :=
  {| Experimental := {| Headless := exp; HeadlessInt := (0, 0, 0) |}; Stable := {| Headless := stable; HeadlessInt := (0, 0, 0) |} |}.
Definition run (exp stable : string) : quick_run :=
  {| qr_lockErr := false; qr_exp := false; qr_binary := Ok true;
     qr_output := Ok "Version: 2.0.55 (build 1, linux64, headless)"; qr_releases := fun _ => Some (releases exp stable);
     qr_begin := (1, 1, 1); qr_now := 2; qr_env := env "/opt/factorio/bin/x64/factorio" None |}.
Definition ql : ql_world := {| ql_fu := world [("/opt/factorio/bin/x64/factorio", "old")]; ql_op := initOpWorld; ql_new := "" |}.
Definition quick (exp stable : string) : ql_world * (string * bool * bool) :=
  @doQuickLatest ascii_tables no_hash "1" (fun _ => true) false true (run exp stable) ql.

Example quick_updates : (quick "2.1.1" "2.0.76").2 = ("Factorio upgraded from 2.0.55 to 2.0.76.", false, false).
Proof. vm_compute. reflexivity. Qed.
(** A newer installation is called older. *)
Example newer_called_older : (quick "2.1.1" "2.0.54").2.1.1 = older_text.
Proof. vm_compute. reflexivity. Qed.
End UpdaterDemo.

Lemma install_only_verified_witness :
  let w' := (UpdaterDemo.install "/opt/factorio/bin/x64/factorio" []).1 in
  fu_updating w' = false /\
  (fu_files w' <> fu_files (UpdaterDemo.world []) \/ fu_updated w' <> false \/ fu_version w' <> "2.0.55" ->
   stop_game (UpdaterDemo.env "/opt/factorio/bin/x64/factorio" None) = None /\
   exists archive, @checked ascii_tables UpdaterDemo.no_hash (UpdaterDemo.env "/opt/factorio/bin/x64/factorio" None) UpdaterDemo.info archive).
Proof.
  exact (@install_only_verified ascii_tables UpdaterDemo.no_hash (UpdaterDemo.env "/opt/factorio/bin/x64/factorio" None)
    UpdaterDemo.info (UpdaterDemo.world []) (UpdaterDemo.install "/opt/factorio/bin/x64/factorio" []).1
    (UpdaterDemo.install "/opt/factorio/bin/x64/factorio" []).2 (surjective_pairing _) eq_refl).
Defined.

Lemma install_unpacks_archive_witness :
  fu_files (UpdaterDemo.install "/opt/factorio/bin/x64/factorio" [("/opt/factorio/bin/x64/factorio", "old binary")]).1
    !! "/opt/factorio/bin/x64/factorio" = Some "new" /\
  fu_version (UpdaterDemo.install "/opt/factorio/bin/x64/factorio" [("/opt/factorio/bin/x64/factorio", "old binary")]).1 = "2.0.76" /\
  fu_updated (UpdaterDemo.install "/opt/factorio/bin/x64/factorio" [("/opt/factorio/bin/x64/factorio", "old binary")]).1 = true.
Proof.
  apply (@install_unpacks_archive ascii_tables UpdaterDemo.no_hash (UpdaterDemo.env "/opt/factorio/bin/x64/factorio" None)
    UpdaterDemo.info (UpdaterDemo.world [("/opt/factorio/bin/x64/factorio", "old binary")])
    (UpdaterDemo.install "/opt/factorio/bin/x64/factorio" [("/opt/factorio/bin/x64/factorio", "old binary")]).1 "new" "/opt"
    {| te_Name := "factorio/bin/x64/factorio"; te_Type := TypeReg; te_Data := "new"; te_Err := None |} "/opt/factorio/bin").
  - vm_compute. reflexivity.
  - vm_compute. reflexivity.
  - vm_compute. reflexivity.
  - apply (bool_decide_unpack _). vm_compute. exact I.
  - apply (list_elem_of_lookup_2 _ 7). vm_compute. reflexivity.
  - apply (bool_decide_unpack _). vm_compute. exact I.
  - reflexivity.
  - vm_compute. reflexivity.
Defined.

Lemma update_never_downgrades_witness :
  exists info newVersion, lex_lt (i_VersInt info) newVersion /\
    @quickLatest (UpdaterDemo.run "2.1.1" "2.0.76") info = Ok newVersion.
Proof.
  destruct (@update_never_downgrades ascii_tables UpdaterDemo.no_hash "1" (fun _ => true)
    (UpdaterDemo.run "2.1.1" "2.0.76") UpdaterDemo.ql true) as (info & v & _ & Hq & Hlt).
  - intros E. apply (f_equal fu_version) in E. vm_compute in E. discriminate E.
  - exists info, v. exact (conj Hlt Hq).
Defined.

Lemma quick_latest_ends_witness :
  ow_status (ql_op (UpdaterDemo.quick "2.1.1" "2.0.76").1) = noOperation /\
  ~ ((UpdaterDemo.quick "2.1.1" "2.0.76").2.1.2 = true /\ (UpdaterDemo.quick "2.1.1" "2.0.76").2.2 = true).
Proof.
  exact (@quick_latest_ends ascii_tables UpdaterDemo.no_hash "1" (fun _ => true)
    (UpdaterDemo.run "2.1.1" "2.0.76") UpdaterDemo.ql false eq_refl).
Defined.

Lemma malformed_release_hides_update_witness :
  @quickLatest (UpdaterDemo.run "2.1" "2.0.76") UpdaterDemo.info = Ok (0, 0, 0).
Proof.
  exact (@malformed_release_hides_update (UpdaterDemo.run "2.1" "2.0.76") "list" "" (UpdaterDemo.releases "2.1" "2.0.76")
    "malformed version number: incorrect number of parts" UpdaterDemo.info eq_refl eq_refl eq_refl eq_refl eq_refl).
Defined.
