(* ===== verification/Control.v ===== *)
(** * Confirmed actions: [src/controlruntime/server.go]

    A web user first previews an action and gets a token; the action itself must
    bring that token, with the same actor, action and parameters, within two
    minutes and while the state of the server is unchanged.  The previews of the
    process and the job store of Jobs.v are the state; the handlers are functions
    on it.  The revision of the server's state (the digest of the lifecycle state
    and the configuration) is read at each call and is an argument, and so is the
    JSON encoding of the parameters. *)
From Stdlib Require Import Ascii.
From S2P Require Import Prelude.
From S2P Require Import GoInt.
From S2P Require Import GoString.
From S2P Require Import GoTime.
From S2P Require Import WebProtocol.
From S2P Require Import Jobs.

Record preview := mkPreview {
  pv_Actor : string; pv_Action : string; pv_Hash : string; pv_Revision : string; pv_Expires : time }.
#[export] Instance preview_eq_dec : EqDecision preview.
Proof. solve_decision. Defined.

Record Params := mkParams {
  Reason : string; WhenEmpty : bool; Force : bool; SaveID : string; ExchangeString : string;
  Command : string; Operation : string; ModNames : list string; Version : string; Player : string;
  Level : Z; IP : string; UploadIDs : list string; StartAfter : bool; ConfirmationToken : string }.
#[export] Instance Params_settable : Settable Params := mkSettable (fun r =>
  mkParams (Reason r) (WhenEmpty r) (Force r) (SaveID r) (ExchangeString r) (Command r) (Operation r)
    (ModNames r) (Version r) (Player r) (Level r) (IP r) (UploadIDs r) (StartAfter r) (ConfirmationToken r)).

Definition noParams : Params := mkParams "" false false "" "" "" "" [] "" "" 0 "" [] false "".

(** The names [actions] lists. *)
Definition action_names (primary : bool) : list string :=
  ["factorio-start"; "factorio-stop"; "factorio-restart"; "chatwire-restart"; "config-reload"; "map-create";
   "map-reset"; "map-load"; "map-exchange"; "map-archive"; "mods-update"; "mods-sync"; "mods-edit"; "mods-clear";
   "mods-clear-history"; "factorio-update"; "factorio-install"; "rcon"; "upload-apply"]
  ++ (if primary then ["player-level"; "ip-ban"; "ip-unban"] else []).

Definition known (primary : bool) (action : string) : bool := bool_decide (action ∈ action_names primary).

Definition preview_lifetime : duration := 2 * Minute.
Definition max_previews : nat := 1000.

Section control.
Context `{Hashing, ResultValues}.
(** [json.Marshal] of the parameters; the identity of the instance and whether it
    is the primary one. *)
Variable marshal : Params -> string.
Variable server_id : string.
Variable primary : bool.

Inductive response :=
  | Refused (status : Z) (code : string)
  | Previewed (token : string) (revision : string) (expires_in : Z)
  | Accepted (status : Z) (v : Job).

(** One request, as decoded; [rq_params] is [None] when the body is not accepted.
    [rq_target] is the player in the path. *)
Record request := {
  rq_now : time; rq_actor : Actor; rq_action : string; rq_target : string; rq_params : option Params;
  rq_key : string; rq_revision : string }.

(** The parameters without the token, and with the player of the path. *)
Definition target_params (target : string) (p : Params) : option Params :=
  if bool_decide (target = "") then Some (p <| ConfirmationToken := "" |>)
  else if negb (bool_decide (Player p = "")) && negb (bool_decide (Player p = target)) then None
  else Some (p <| Player := target |> <| ConfirmationToken := "" |>).

Definition drop_expired (now : time) (m : gmap string preview) : gmap string preview :=
  filter (fun kv : string * preview => After now (pv_Expires kv.2) = false) m.

(** [previewAction], with the 32 random bytes of its token. *)
Definition previewAction (rand : bytes) (r : request) (previews : gmap string preview)
  : response * gmap string preview :=
  if negb (known primary (rq_action r)) then (Refused 404 "not_found", previews)
  else
    match rq_params r with
    | None => (Refused 400 "invalid_request", previews)
    | Some p =>
        match target_params (rq_target r) p with
        | None => (Refused 422 "target_mismatch", previews)
        | Some p =>
            let token := Token rand in
            let previews := drop_expired (rq_now r) previews in
            if (max_previews <? size previews)%nat then (Refused 429 "rate_limited", previews)
            else
              let pv := mkPreview (a_ID (rq_actor r)) (rq_action r) (Digest (marshal p)) (rq_revision r)
                          (Add (rq_now r) preview_lifetime) in
              (Previewed token (rq_revision r) 120, <[Digest token := pv]> previews)
        end
    end.

(** What the confirmation must match. *)
Definition confirmed (r : request) (payload : string) (pv : preview) : bool :=
  bool_decide (pv_Actor pv = a_ID (rq_actor r)) && bool_decide (pv_Action pv = rq_action r)
  && bool_decide (pv_Hash pv = Digest payload) && negb (After (rq_now r) (pv_Expires pv)).

(** A key that is known answers with its job, or with a conflict. *)
Definition lookup_reply (r : request) (payload : string) (j : Jobs) : option response :=
  match Lookup server_id (rq_actor r) (rq_action r) (rq_key r) payload j with
  | None => None
  | Some (Err _) => Some (Refused 409 "idempotency_conflict")
  | Some (Ok v) => Some (Accepted 200 v)
  end.

(** The storage events of one acceptance: see [Start]. *)
Record start_env := {
  se_rand : bytes; se_order : list string; se_repair : string -> save_outcome; se_accept : save_outcome }.

(** The part of [action] that holds the lock of the runtime; the lookup before it is
    [lookup_reply], at an earlier state of the store.  The last component is the job
    whose goroutine was started. *)
Definition action_locked (e : start_env) (r : request) (token payload : string) (previews : gmap string preview) (j : Jobs)
  : response * gmap string preview * Jobs * option string :=
  match lookup_reply r payload j with
  | Some reply => (reply, previews, j, None)
  | None =>
      match previews !! Digest token with
      | None => (Refused 409 "confirmation_required", previews, j, None)
      | Some pv =>
          if negb (confirmed r payload pv) then (Refused 409 "confirmation_required", previews, j, None)
          else if negb (bool_decide (pv_Revision pv = rq_revision r)) then (Refused 409 "state_changed", previews, j, None)
          else
            match Start (rq_now r) (Token (se_rand e)) (se_order e) (se_repair e) (se_accept e) server_id
                    (rq_actor r) (rq_action r) (rq_key r) payload j with
            | (Err (status, _), j) => (Refused status "action_rejected", previews, j, None)
            | (Ok (v, status), j) => (Accepted status v, delete (Digest token) previews, j, if status =? 202 then Some (j_ID v) else None)
            end
      end
  end.

(** What [action] checks before any lock: the token and the payload, or a refusal. *)
Definition action_checks (r : request) : result response (string * string) :=
  if negb (known primary (rq_action r)) then Err (Refused 404 "not_found")
  else if negb (ValidID (rq_key r)) then Err (Refused 428 "idempotency_required")
  else
    match rq_params r with
    | None => Err (Refused 400 "invalid_request")
    | Some p =>
        match target_params (rq_target r) p with
        | None => Err (Refused 422 "target_mismatch")
        | Some p' => Ok (ConfirmationToken p, marshal p')
        end
    end.

(** ** The runtime as a system

    The world of the job store, the previews in memory, and three histories: the
    previews that were issued, with their times; the confirmations that started a
    job; the digests of the tokens. *)
Record confirmation := mkConf {
  cf_actor : Actor; cf_action : string; cf_key : string; cf_payload : string; cf_token : string;
  cf_revision : string; cf_time : time }.

Record Runtime := mkRuntime {
  rt_world : World; rt_previews : gmap string preview;
  rt_issued : list (string * preview); rt_log : list confirmation }.
#[export] Instance Runtime_settable : Settable Runtime := mkSettable (fun r =>
  mkRuntime (rt_world r) (rt_previews r) (rt_issued r) (rt_log r)).

Definition initialRuntime : Runtime := mkRuntime initialWorld ∅ [] [].

Inductive control_op :=
  | CPreview (rand : bytes) (r : request)
  | CAction (e : start_env) (r : request)
  | CJobs (p : job_op).

Definition is_start (p : job_op) : bool := match p with OpStart _ _ _ _ _ _ _ _ _ _ => true | _ => false end.

(** A process that starts or dies has no previews. *)
Definition forgets (p : job_op) (w : World) : bool :=
  match p with OpBoot _ _ => negb (w_up w) | OpDie | OpPowerLoss _ => true | _ => false end.

Definition do_control (p : control_op) (c : Runtime) : Runtime :=
  match p with
  | CPreview rand r =>
      let '(reply, previews) := previewAction rand r (rt_previews c) in
      let c' := c <| rt_previews := previews |> in
      match reply with
      | Previewed token _ _ =>
          match previews !! Digest token with
          | Some pv => c' <| rt_issued ::= cons (Digest token, pv) |>
          | None => c'
          end
      | _ => c'
      end
  | CAction e r =>
      match action_checks r with
      | Err _ => c
      | Ok (token, payload) =>
          if negb (w_up (rt_world c)) then c
          else
            let '(_, previews, j, started) := action_locked e r token payload (rt_previews c) (w_jobs (rt_world c)) in
            let w := rt_world c <| w_jobs := j |> in
            let c' := c <| rt_previews := previews |> in
            match started with
            | Some id =>
              c' <| rt_world := w <| w_workers ::= fun l => l ++ [(id, WBegin)] |> |>
                 <| rt_log ::= cons (mkConf (rq_actor r) (rq_action r) (rq_key r) payload (Digest token) (rq_revision r) (rq_now r)) |>
            | None => c' <| rt_world := w |>
            end
      end
  | CJobs p =>
      let c' := c <| rt_world ::= do_op p |> in
      if forgets p (rt_world c) then c' <| rt_previews := ∅ |> else c'
  end.

Definition start_op (e : start_env) (r : request) (payload : string) : job_op :=
  OpStart (rq_now r) (se_rand e) (se_order e) (se_repair e) (se_accept e) server_id (rq_actor r) (rq_action r) (rq_key r) payload.

(** What the runtime relies on: jobs are started by [action] only, random tokens are
    new, and the job store relies on the same as before. *)
Definition control_ok (p : control_op) (c : Runtime) : Prop :=
  match p with
  | CPreview rand _ => Digest (Token rand) ∉ (rt_issued c).*1
  | CAction e r =>
      match action_checks r with
      | Ok (_, payload) => op_ok (start_op e r payload) (rt_world c)
      | Err _ => True
      end
  | CJobs p => is_start p = false /\ op_ok p (rt_world c)
  end.

Inductive control_step : Runtime -> control_op -> Runtime -> Prop :=
  | control_step_op p c : control_ok p c -> control_step c p (do_control p c).
Inductive control_reachable : Runtime -> Prop :=
  | control_init : control_reachable initialRuntime
  | control_more c p c' : control_reachable c -> control_step c p c' -> control_reachable c'.
End control.
