(* ===== verification/ControlSafety.v ===== *)
(** * Nothing runs unconfirmed

    The runtime of Control.v over the job store of Jobs.v: every operation that is
    ever executed was confirmed by the user who previewed it, a token starts at most
    one job, and the table of previews stays bounded. *)
From Stdlib Require Import Ascii.
From S2P Require Import Prelude.
From S2P Require Import GoInt.
From S2P Require Import GoString.
From S2P Require Import GoTime.
From S2P Require Import WebProtocol.
From S2P Require Import Jobs.
From S2P Require Import JobsSafety.
From S2P Require Import Control.

Section safety.
Context `{Hashing, ResultValues}.
Variable marshal : Params -> string.
Variable server_id : string.
Variable primary : bool.
Local Notation step := (control_step marshal server_id primary).
Local Notation reachable := (control_reachable marshal server_id primary).
Local Notation do := (do_control marshal server_id primary).
Local Notation ok := (control_ok marshal server_id primary).
Implicit Types (c : Runtime) (r : request) (w : World) (j : Jobs).

(** ** The action handler and the job store *)

(** The store after the locked part, and the job that was started. *)
Lemma action_locked_jobs e r token payload previews j :
  let '(reply, previews', j', started) := action_locked server_id e r token payload previews j in
  (j' = j /\ started = None /\ previews' = previews) \/
  exists pv, previews !! Digest token = Some pv /\ confirmed r payload pv = true /\ pv_Revision pv = rq_revision r /\
    j' = (Start (rq_now r) (Token (se_rand e)) (se_order e) (se_repair e) (se_accept e) server_id
            (rq_actor r) (rq_action r) (rq_key r) payload j).2 /\
    match (Start (rq_now r) (Token (se_rand e)) (se_order e) (se_repair e) (se_accept e) server_id
            (rq_actor r) (rq_action r) (rq_key r) payload j).1 with
    | Err _ => started = None /\ previews' = previews
    | Ok (v, status) => started = (if status =? 202 then Some (j_ID v) else None) /\ previews' = delete (Digest token) previews
    end.
Proof.
  unfold action_locked. destruct (lookup_reply server_id r payload j); [by left|].
  destruct (previews !! Digest token) as [pv|]; [|by left].
  destruct (confirmed r payload pv) eqn:Ec; cbn [negb]; [|by left].
  destruct (bool_decide (pv_Revision pv = rq_revision r)) eqn:Er; cbn [negb]; [|by left]. bool_hyps.
  destruct (Start _ _ _ _ _ _ _ _ _ _ _) as [[[v status]|[status msg]] j']; cbn [fst snd]; right; exists pv; done.
Qed.

(** An action moves the job store as [OpStart] does, or not at all. *)
Lemma action_world e r token payload c :
  action_checks marshal primary r = Ok (token, payload) ->
  rt_world (do (CAction e r) c) = rt_world c \/
  rt_world (do (CAction e r) c) = do_op (start_op server_id e r payload) (rt_world c).
Proof.
  intros Hc. unfold do_control. rewrite Hc. unfold start_op, do_op.
  destruct (w_up (rt_world c)) eqn:Hup; cbn [negb]; [|by left].
  pose proof (action_locked_jobs e r token payload (rt_previews c) (w_jobs (rt_world c))) as Ha.
  destruct (action_locked _ _ _ _ _ _ _) as [[[reply previews'] j'] started].
  destruct Ha as [(-> & -> & ->)|(pv & _ & _ & _ & -> & Hs)]; [left; by destruct (rt_world c)|]. right.
  destruct (Start _ _ _ _ _ _ _ _ _ _ _) as [[[v status]|[status msg]] j1]; cbn [fst snd] in *.
  - destruct Hs as [-> _]. destruct (Z.eqb_spec status 202) as [->|Hne]; [done|].
    cbn. repeat case_match; done.
  - by destruct Hs as [-> _].
Qed.

Lemma control_world_Inv p c : Inv (rt_world c) -> ok p c -> Inv (rt_world (do p c)).
Proof.
  intros Hi Hok. destruct p as [rand r|e r|p].
  - unfold do_control. destruct (previewAction _ _ _ _ _) as [[| |] previews]; try done. by destruct (previews !! _).
  - cbn [control_ok] in Hok. destruct (action_checks marshal primary r) as [[token payload]|] eqn:Hc.
    + destruct (action_world e r token payload c Hc) as [->| ->]; [done|by apply job_op_Inv].
    + unfold do_control. by rewrite Hc.
  - destruct Hok as [_ Hok]. cbn. destruct (forgets p (rt_world c)); cbn; by apply job_op_Inv.
Qed.

(** ** The keys of what runs *)

(** Nothing but [OpStart] brings new goroutines, and a goroutine runs its own key. *)
Definition no_new_keys (w w' : World) : Prop :=
  (forall id pc, (id, pc) ∈ w_workers w' -> (exists pc0, (id, pc0) ∈ w_workers w) /\ job_key id w' = job_key id w) /\
  (forall id k, (id, k) ∈ w_ran w' -> (id, k) ∈ w_ran w \/ exists pc, (id, pc) ∈ w_workers w /\ k = job_key id w).

Lemma no_new_keys_refl w : no_new_keys w w.
Proof. split; eauto. Qed.

Lemma keeps_no_new_keys w j' i id pc pc' ran ret :
  Inv w -> w_workers w !! i = Some (id, pc) -> keeps (w_jobs w) j' ->
  (forall x k, (x, k) ∈ ran -> (x, k) ∈ w_ran w \/ x = id /\ k = job_key id w) ->
  no_new_keys w (w <| w_jobs := j' |> <| w_workers ::= <[i := (id, pc')]> |> <| w_ran := ran |> <| w_returned := ret |>).
Proof.
  intros Hi Hpc Hk Hran. destruct (the_worker w i id pc Hi Hpc) as (-> & Hl & _ & _ & (v & Hv & _) & _).
  assert (Hin : (id, pc) ∈ w_workers w) by (rewrite Hl; by left).
  split; simpl.
  - rewrite Hl. simpl. intros x pcx [= -> ->]%list_elem_of_singleton.
    split; [exists pc; by left|]. unfold job_key. simpl.
    by destruct (keeps_key _ _ _ Hk (ex_intro _ v Hv)) as [_ ->].
  - intros x k [?|[-> ->]]%Hran; [by left|right; eauto].
Qed.

Lemma job_step_keys p w : Inv w -> is_start p = false -> no_new_keys w (do_op p w).
Proof.
  intros Hi Hp. destruct p as [now o| |kept|?????? ????|i now o r|i now o u]; [| | |done| |].
  - simpl. destruct (w_up w) eqn:Hup; [apply no_new_keys_refl|].
    destruct (NewJobs _ _ _) as [[] j]; split; simpl; rewrite ?(inv_down _ Hi Hup); try (intros ?? []%not_elem_of_nil); by left.
  - split; simpl; [intros ?? []%not_elem_of_nil|by left].
  - split; simpl; [intros ?? []%not_elem_of_nil|by left].
  - simpl. unfold worker_step. destruct (w_workers w !! i) as [[id pc]|] eqn:Hw; [|apply no_new_keys_refl].
    destruct (the_worker w i id pc Hi Hw) as (-> & Hl & _ & _ & (v & Hv & Hid) & Hpc & _).
    pose proof (inv_data _ Hi) as Hd. destruct pc as [| |state phase result msg|].
    + destruct (Update_data (w_ran w) (w_returned w) now o id "running" "executing" None "" _ v Hd Hv) as [_ Hk];
        [by apply honest_other|].
      destruct (Update now o id _ _ _ _ _) as [[] j1]; simpl in Hk.
      * apply (keeps_no_new_keys w j1 0 id WBegin WRunning ((id, job_key id w) :: w_ran w) (w_returned w)); try done.
        intros x k [[= -> ->]|?]%elem_of_cons; [by right|by left].
      * apply (keeps_no_new_keys w j1 0 id WBegin never_executed (w_ran w) (w_returned w)); try done. by left.
    + apply (keeps_no_new_keys w (w_jobs w) 0 id WRunning (after_run r) (w_ran w) ((id, r) :: w_returned w)); try done;
        [apply keeps_refl|by left].
    + destruct (finish_data _ _ now o id state phase result msg _ v Hd Hv Hpc) as [_ Hk].
      apply (keeps_no_new_keys w _ 0 id (WFinish state phase result msg) WRelease (w_ran w) (w_returned w) Hi Hw Hk). by left.
    + split; simpl; [rewrite Hl; intros ?? []%not_elem_of_nil|by left].
  - simpl. destruct (w_workers w !! i) as [[id []]|] eqn:Hw; try apply no_new_keys_refl.
    destruct (run_state _ u) as [[[state phase] result]|] eqn:Hu; [|apply no_new_keys_refl].
    destruct (the_worker w i id _ Hi Hw) as (-> & Hl & _ & _ & (v & Hv & Hid) & Hr & _).
    assert (Hk : keeps (w_jobs w) (Update now o id state phase result "" (w_jobs w)).2).
    { unfold Update. rewrite Hv. pose proof (save_frame o (outcome now state phase result "" v) (w_jobs w)) as (Ei & Ek & Eb & _).
      destruct (save o _ _) as [[] j1]; simpl in *.
      - eapply keeps_trans; [|apply keeps_set]; [split_and!; [done..|]; rewrite Ei; eauto|].
        intros v0. rewrite Ei, Hv. by intros [= <-].
      - split_and!; [done..|]. rewrite Ei. eauto. }
    set (j' := (Update now o id state phase result "" (w_jobs w)).2) in *. clearbody j'.
    assert (Ew : w <| w_jobs := j' |> = w <| w_jobs := j' |> <| w_workers ::= <[0%nat := (id, WRunning)]> |>
      <| w_ran := w_ran w |> <| w_returned := w_returned w |>) by (destruct w; simpl in *; f_equal; by rewrite Hl).
    change (no_new_keys w (w <| w_jobs := j' |>)). rewrite Ew.
    apply (keeps_no_new_keys w j' 0 id WRunning WRunning (w_ran w) (w_returned w)); try done. by left.
Qed.

(** ** The invariant of the runtime *)
Definition conf_key (cf : confirmation) : string := request_key (cf_actor cf) server_id (cf_key cf).

(** The preview a confirmation rests on. *)
Definition rests_on (cf : confirmation) (pv : preview) : Prop :=
  pv_Actor pv = a_ID (cf_actor cf) /\ pv_Action pv = cf_action cf /\ pv_Hash pv = Digest (cf_payload cf) /\
  pv_Revision pv = cf_revision cf /\ cf_time cf <= pv_Expires pv.

Record CInv c : Prop := {
  ci_world : Inv (rt_world c);
  ci_fresh : NoDup (rt_issued c).*1;
  ci_previews : forall d pv, rt_previews c !! d = Some pv -> (d, pv) ∈ rt_issued c;
  ci_log : forall cf, cf ∈ rt_log c -> exists pv, (cf_token cf, pv) ∈ rt_issued c /\ rests_on cf pv;
  ci_once : NoDup (cf_token <$> rt_log c);
  ci_used : forall cf, cf ∈ rt_log c -> rt_previews c !! cf_token cf = None;
  ci_workers : forall id pc, (id, pc) ∈ w_workers (rt_world c) -> job_key id (rt_world c) ∈ conf_key <$> rt_log c;
  ci_ran : forall id k, (id, k) ∈ w_ran (rt_world c) -> k ∈ conf_key <$> rt_log c;
  ci_bound : (size (rt_previews c) <= S max_previews)%nat
}.

Lemma initial_CInv : CInv initialRuntime.
Proof.
  constructor; simpl; try apply NoDup_nil_2; try (intros; match goal with Hin : _ ∈ [] |- _ => by apply not_elem_of_nil in Hin end).
  - apply jobs_initial_Inv.
  - intros d pv Hd. by rewrite lookup_empty in Hd.
  - rewrite map_size_empty. unfold max_previews. lia.
Qed.

(** The job store moves without a new confirmation. *)
Lemma world_moves c w' previews :
  CInv c -> Inv w' -> no_new_keys (rt_world c) w' -> previews ⊆ rt_previews c ->
  CInv (c <| rt_previews := previews |> <| rt_world := w' |>).
Proof.
  intros [Hw Hf Hp Hl Ho Hu Hk Hr Hb] Hi [Hwk Hran] Hsub. constructor; simpl; try done.
  - intros d pv Hd. apply Hp. by eapply lookup_weaken.
  - intros cf Hcf. eapply lookup_weaken_None; [|exact Hsub]. by apply Hu.
  - intros id pc Hin. destruct (Hwk id pc Hin) as [[pc0 Hpc0] ->]. by eapply Hk.
  - intros id k Hin. destruct (Hran id k Hin) as [?|(pc & Hpc & ->)]; [by eapply Hr|by eapply Hk].
  - etrans; [|exact Hb]. by apply map_subseteq_size.
Qed.

Lemma preview_CInv rand r c :
  CInv c -> Digest (Token rand) ∉ (rt_issued c).*1 -> CInv (do (CPreview rand r) c).
Proof.
  intros Hc Hfresh. unfold do_control, previewAction.
  assert (Hsub : drop_expired (rq_now r) (rt_previews c) ⊆ rt_previews c) by apply map_filter_subseteq.
  assert (Hsame : forall m, m ⊆ rt_previews c -> CInv (c <| rt_previews := m |>)).
  { intros m Hm. pose proof (world_moves c (rt_world c) m Hc (ci_world _ Hc) (no_new_keys_refl _) Hm) as Hx.
    by destruct c. }
  destruct (known primary (rq_action r)); cbn [negb]; [|by apply Hsame].
  destruct (rq_params r) as [p|]; [|by apply Hsame].
  destruct (target_params (rq_target r) p) as [p'|]; [|by apply Hsame].
  set (kept := drop_expired _ _) in *. clearbody kept.
  destruct (max_previews <? size kept)%nat eqn:Eb; [by apply Hsame|]. apply Nat.ltb_ge in Eb.
  rewrite lookup_insert_eq. set (pv := mkPreview _ _ _ _ _). destruct Hc as [Hw Hf Hp Hl Ho Hu Hk Hr Hb].
  constructor; simpl; try done.
  - by constructor.
  - intros d x [[<- <-]|[_ Hd]]%lookup_insert_Some; [by left|]. right. apply Hp. by eapply lookup_weaken.
  - intros cf Hcf. destruct (Hl cf Hcf) as (x & Hx & ?). exists x. split; [by right|done].
  - intros cf Hcf. apply lookup_insert_None. split; [eapply lookup_weaken_None; [by apply Hu|exact Hsub]|].
    destruct (Hl cf Hcf) as (x & Hx & _). intros E. apply Hfresh, elem_of_fst. exists x. by rewrite E.
  - etrans; [apply insert_size|]. lia.
Qed.

(** A start that was refused, or that found an older job. *)
Lemma start_keeps e r payload w :
  let res := Start (rq_now r) (Token (se_rand e)) (se_order e) (se_repair e) (se_accept e) server_id
            (rq_actor r) (rq_action r) (rq_key r) payload (w_jobs w) in
  Inv w -> op_ok (start_op server_id e r payload) w ->
  match res.1 with
  | Ok (v, status) =>
      if status =? 202 then
        w_workers w = [] /\ job_key (j_ID v) (w <| w_jobs := res.2 |>) = request_key (rq_actor r) server_id (rq_key r)
      else keeps (w_jobs w) res.2
  | Err _ => keeps (w_jobs w) res.2
  end.
Proof.
  cbv zeta. intros Hi (_ & Hnew & Hord).
  pose proof (Start_spec (w_ran w) (w_returned w) (rq_now r) (Token (se_rand e)) (se_order e) (se_repair e) (se_accept e)
    server_id (rq_actor r) (rq_action r) (rq_key r) payload (w_jobs w) (inv_data _ Hi)) as Hs.
  assert (Hids : forall id, id ∈ se_order e -> is_Some (items (w_jobs w) !! id)).
  { intros id. rewrite Hord, elem_of_elements. apply Hi. }
  specialize (Hs Hids Hnew).
  destruct (Start _ _ _ _ _ _ _ _ _ _ _) as [[[v status]|[status msg]] j1]; cbn [fst snd] in *; [|by destruct Hs].
  destruct (Z.eqb_spec status 202) as [->|Hne].
  - destruct Hs as (-> & _ & Hb & _ & Hv & _). split.
    + pose proof (inv_workers _ Hi) as Hwk. destruct (w_workers w) as [|[id pc] [|]]; [done| |done].
      destruct Hwk as (? & ? & _). congruence.
    + unfold job_key, item. set (v := accepted_job _ _ _ _ _ _ _) in *.
      assert (Hkey : j_Key v = request_key (rq_actor r) server_id (rq_key r)) by done. clearbody v.
      change (w_jobs (w <| w_jobs := j1 |>)) with j1. by rewrite Hv.
  - by repeat case_match; destruct Hs.
Qed.

Lemma confirmed_rests r payload token pv :
  confirmed r payload pv = true -> pv_Revision pv = rq_revision r ->
  rests_on (mkConf (rq_actor r) (rq_action r) (rq_key r) payload token (rq_revision r) (rq_now r)) pv.
Proof.
  unfold confirmed, rests_on, After. intros Hc Hr. bool_hyps. simpl. split_and!; try done.
Qed.

(** *** The action *)
Lemma action_CInv e r c : CInv c -> ok (CAction e r) c -> CInv (do (CAction e r) c).
Proof.
  intros Hc Hok. pose proof (control_world_Inv (CAction e r) c (ci_world _ Hc) Hok) as Hi'. revert Hi'.
  unfold do_control. cbn [control_ok] in Hok.
  destruct (action_checks marshal primary r) as [[token payload]|] eqn:Hchk; [|done].
  destruct (w_up (rt_world c)) eqn:Hup; cbn [negb]; [|done].
  pose proof (action_locked_jobs e r token payload (rt_previews c) (w_jobs (rt_world c))) as Ha.
  pose proof (start_keeps e r payload (rt_world c) (ci_world _ Hc) Hok) as Hs. cbv zeta in Hs.
  destruct (action_locked _ _ _ _ _ _ _) as [[[reply previews'] j'] started].
  assert (Hkeeps : forall j1 m, keeps (w_jobs (rt_world c)) j1 -> m ⊆ rt_previews c ->
    Inv (rt_world c <| w_jobs := j1 |>) -> CInv (c <| rt_previews := m |> <| rt_world := rt_world c <| w_jobs := j1 |> |>)).
  { intros j1 m Hk Hm Hi. apply world_moves; [done|done| |done]. split; simpl; [|by left].
    intros id pc Hin. split; [eauto|]. pose proof (inv_workers _ (ci_world _ Hc)) as Hwk.
    destruct (w_workers (rt_world c)) as [|[id0 pc0] [|]]; [by apply not_elem_of_nil in Hin| |done].
    apply list_elem_of_singleton in Hin as [= -> ->]. destruct Hwk as (_ & _ & Hsome & _).
    by destruct (keeps_key _ _ _ Hk Hsome). }
  destruct Ha as [(-> & -> & ->)|(pv & Hpv & Hconf & Hrev & -> & Hst)];
    [intros Hi; by apply Hkeeps; [apply keeps_refl| |]|].
  destruct (Start _ _ _ _ _ _ _ _ _ _ _) as [[[v status]|[status msg]] j1]; cbn [fst snd] in *.
  2: { destruct Hst as [-> ->]. intros Hi. by apply Hkeeps. }
  destruct Hst as [-> ->]. destruct (Z.eqb_spec status 202) as [->|Hne].
  2: { intros Hi. by apply Hkeeps; [|apply delete_subseteq|]. }
  destruct Hs as [Hwk Hkey]. intros Hi. destruct Hc as [Hw Hf Hp Hl Ho Hu Hk Hr Hb].
  assert (Hlog : (Digest token, pv) ∈ rt_issued c) by by apply Hp.
  assert (Hnew : forall cf, cf ∈ rt_log c -> cf_token cf <> Digest token).
  { intros cf Hcf E. specialize (Hu cf Hcf). rewrite E in Hu. congruence. }
  constructor; simpl; try done.
  - intros d x [_ Hd]%lookup_delete_Some. by apply Hp.
  - intros cf [->|Hcf]%elem_of_cons; [|by apply Hl]. exists pv. split; [done|]. by apply confirmed_rests.
  - apply NoDup_cons. split; [|done]. intros (cf & E & Hcf)%list_elem_of_fmap. symmetry in E. by apply (Hnew cf Hcf).
  - intros cf [->|Hcf]%elem_of_cons; [apply lookup_delete_eq|]. apply lookup_delete_None. right. by apply Hu.
  - intros id pc. rewrite Hwk. simpl. intros [= -> ->]%list_elem_of_singleton.
    unfold job_key in *. simpl in *. rewrite Hkey. by left.
  - intros id k Hin. right. by eapply Hr.
  - etrans; [|exact Hb]. apply map_subseteq_size, delete_subseteq.
Qed.

Lemma control_step_CInv p c c' : CInv c -> step c p c' -> CInv c'.
Proof.
  intros Hc Hs. destruct Hs as [q c0 Hok]. destruct q as [rand r|e r|q].
  - by apply preview_CInv.
  - by apply action_CInv.
  - destruct Hok as [Hp Hop].
    pose proof (job_op_Inv q _ (ci_world _ Hc) Hop) as Hi. pose proof (job_step_keys q _ (ci_world _ Hc) Hp) as Hn.
    unfold do_control. destruct (forgets q _).
    + pose proof (world_moves c0 (do_op q (rt_world c0)) ∅ Hc Hi Hn (map_empty_subseteq _)) as Hx. by destruct c0.
    + pose proof (world_moves c0 (do_op q (rt_world c0)) (rt_previews c0) Hc Hi Hn) as Hx. destruct c0. by apply Hx.
Qed.

Lemma control_reachable_CInv c : reachable c -> CInv c.
Proof. induction 1; [apply initial_CInv|by eapply control_step_CInv]. Qed.

(** ** The promises *)

(** C26: (safety) nothing runs unconfirmed: for every operation the runtime ever
    executes, through any interleaving, crash and restart, there is a confirmation of
    its idempotency key that rests on a preview issued to the same user for the same
    action, parameters and state of the server, and that came before it expired. *)
Theorem nothing_runs_unconfirmed c id k :
  reachable c -> (id, k) ∈ w_ran (rt_world c) ->
  exists cf pv, cf ∈ rt_log c /\ k = request_key (cf_actor cf) server_id (cf_key cf) /\
    (cf_token cf, pv) ∈ rt_issued c /\ rests_on cf pv.
Proof.
  intros Hc%control_reachable_CInv Hin.
  apply (ci_ran _ Hc), list_elem_of_fmap in Hin as (cf & -> & Hcf).
  destruct (ci_log _ Hc cf Hcf) as (pv & ? & ?). by exists cf, pv.
Qed.

(** (safety) a confirmation token starts at most one operation: no two of the
    confirmations that ever started a job used the same token, and a token that was
    used is no longer in the table. *)
Theorem token_starts_one_job c :
  reachable c -> NoDup (cf_token <$> rt_log c) /\ forall cf, cf ∈ rt_log c -> rt_previews c !! cf_token cf = None.
Proof. intros Hc%control_reachable_CInv. split; [by apply ci_once|by apply ci_used]. Qed.

(** (bounds) however many previews are asked for, at most 1001 are kept. *)
Theorem previews_bounded c : reachable c -> (size (rt_previews c) <= 1001)%nat.
Proof. intros Hc%control_reachable_CInv. by apply ci_bound. Qed.
End safety.

(** ** A session: preview, confirm, execute, confirm again *)
#[local] Existing Instance plain_hash.
#[local] Existing Instance text_values.
Module ControlDemo.
Definition marshal (p : Params) : string := Reason p.
Definition ask (now : Z) (token key : string) : request := {|
  rq_now := now; rq_actor := alice; rq_action := "factorio-stop"; rq_target := "";
  rq_params := Some (noParams <| Reason := "maintenance" |> <| ConfirmationToken := token |>);
  rq_key := key; rq_revision := "rev" |}.
Definition env (n : Z) : start_env :=
  {| se_rand := rand_bytes n; se_order := []; se_repair := all_saved; se_accept := Saved |}.
Definition session : list control_op :=
  [CJobs (OpBoot 0 all_saved); CPreview (rand_bytes 1) (ask 5 "" "");
   CAction (env 2) (ask 6 (Token (rand_bytes 1)) "k1"); CJobs (work 1); CAction (env 3) (ask 7 (Token (rand_bytes 1)) "k2")].
Definition run (l : list control_op) (c : Runtime) : Runtime :=
  foldl (fun c p => do_control marshal "alpha" true p c) c l.
Definition finished : Runtime := Eval vm_compute in run session initialRuntime.

Fixpoint all_ok (l : list control_op) (c : Runtime) : Prop :=
  match l with
  | [] => True
  | p :: l => control_ok marshal "alpha" true p c /\ all_ok l (do_control marshal "alpha" true p c)
  end.

Lemma run_control l c :
  control_reachable marshal "alpha" true c -> all_ok l c -> control_reachable marshal "alpha" true (run l c).
Proof.
  unfold run. revert c. induction l as [|p l IH]; intros c Hc; simpl; [done|]. intros [Hp Hl]. apply IH; [|done].
  eapply control_more; [done|]. by constructor.
Qed.

Lemma session_reachable : control_reachable marshal "alpha" true finished.
Proof.
  apply (run_control session initialRuntime); [constructor|].
  cbn [session all_ok]. split_and!; try exact I.
  all: apply (bool_decide_unpack _); vm_compute; exact I.
Qed.
End ControlDemo.

Lemma nothing_runs_unconfirmed_witness :
  w_ran (rt_world ControlDemo.finished) = [("job_" +:+ Token (rand_bytes 2), request_key alice "alpha" "k1")] /\
  exists cf pv, cf ∈ rt_log ControlDemo.finished /\ request_key alice "alpha" "k1" = request_key (cf_actor cf) "alpha" (cf_key cf) /\
    (cf_token cf, pv) ∈ rt_issued ControlDemo.finished /\ rests_on (H := plain_hash) cf pv.
Proof.
  assert (E : w_ran (rt_world ControlDemo.finished) = [("job_" +:+ Token (rand_bytes 2), request_key alice "alpha" "k1")])
    by (vm_compute; reflexivity).
  split; [exact E|].
  apply (nothing_runs_unconfirmed (H := plain_hash) (H0 := text_values) ControlDemo.marshal "alpha" true
    ControlDemo.finished ("job_" +:+ Token (rand_bytes 2))); [exact ControlDemo.session_reachable|].
  rewrite E. left.
Defined.

Lemma token_starts_one_job_witness :
  length (rt_log ControlDemo.finished) = 1%nat /\ NoDup (cf_token <$> rt_log ControlDemo.finished).
Proof.
  split; [vm_compute; reflexivity|].
  apply (token_starts_one_job (H := plain_hash) (H0 := text_values) ControlDemo.marshal "alpha" true).
  exact ControlDemo.session_reachable.
Defined.

Lemma previews_bounded_witness : (size (rt_previews ControlDemo.finished) <= 1001)%nat.
Proof.
  apply (previews_bounded (H := plain_hash) (H0 := text_values) ControlDemo.marshal "alpha" true).
  exact ControlDemo.session_reachable.
Defined.
