(* ===== verification/Uploads.v ===== *)
(** * Staged uploads and saves: [src/controlruntime/files.go]

    A moderator uploads a save, a mod list or mod settings; the file is validated and
    staged for an hour; [applyUploads] stops the game, copies the staged files to their
    places and starts it again.  The staged files and the game's files are maps from
    paths to contents.  The multipart reader, the zip and JSON formats and every file
    operation that fails are parameters; what is done to the game is recorded. *)
From Stdlib Require Import Ascii.
From S2P Require Import Prelude.
From S2P Require Import GoInt.
From S2P Require Import GoString.
From S2P Require Import GoBase64.
From S2P Require Import GoPath.
From S2P Require Import GoTime.
From S2P Require Import WebProtocol.
From S2P Require Import ModVersion.
From S2P Require Import ModDeps.
From S2P Require Import ModHistory.
From S2P Require Import ModDownload.

(** ** Save identifiers *)
Definition backslash : ascii := ascii_of_nat 92.
Definition nul : ascii := ascii_of_nat 0.

Definition saveID (name : string) : string := of_bytes (RawURLEncoding_Encode (to_bytes name)).
Definition good_save_name (name : string) : bool :=
  negb (bool_decide (name = "")) && bool_decide (Base name = name) && negb (ContainsAny name [slash; backslash; nul]) && HasSuffix name ".zip".
Definition saveName (id : string) : option string :=
  match RawURLEncoding_Decode (to_bytes id) with
  | Some b => let name := of_bytes b in if good_save_name name then Some name else None
  | None => None
  end.

(** ** Validation *)
Definition maxUpload : Z := 512 * 2 ^ 20.
Definition kind_limit (kind : string) : option Z :=
  if bool_decide (kind = "mod-list") then Some (2 ^ 20)
  else if bool_decide (kind = "mod-settings") then Some (16 * 2 ^ 20)
  else if bool_decide (kind = "save") then Some maxUpload else None.

(** [entry.Mode()&os.ModeSymlink], and the names of [modupdate.ModListData]. *)
Class UploadFormats := {
  zip_symlink : zip_entry -> bool;
  mod_list_names : string -> option (list string) }.

Definition mod_name_char (c : ascii) : bool :=
  is_lower c || is_upper c || is_digit c || Ascii.eqb c "_"%char || Ascii.eqb c "-"%char.
Definition validModName (name : string) : bool :=
  negb (bool_decide (name = "")) && (slen name <=? 200) && all_bytes mod_name_char name.

Section formats.
Context `{UnicodeTables, Archives, UploadFormats}.

Definition unsafe_entry (entry : zip_entry) : bool :=
  let n := ze_Name entry in
  Contains n (String backslash "") || HasPrefix n "/" || bool_decide (Clean n = "..") || HasPrefix (Clean n) "../" || zip_symlink entry.

Definition is_level (n : string) : bool := HasSuffix n "/level.dat" || HasSuffix n "/level.dat0".

(** The loop over the entries: the error, or whether a level was seen. *)
Fixpoint check_entries (total : Z) (level : bool) (l : list zip_entry) : result string bool :=
  match l with
  | [] => Ok level
  | entry :: l =>
      if unsafe_entry entry then Err "unsafe archive entry"
      else
        let total := wrap 64 (total + ze_UncompressedSize64 entry) in
        if (8 * 2 ^ 30 <? total) || (4 * 2 ^ 30 <? ze_UncompressedSize64 entry) then Err "archive expands beyond allowed size"
        else check_entries total (level || is_level (ze_Name entry)) l
  end.

Definition le16 (s : string) (i : nat) : Z := le_get (take 2 (drop i (to_bytes s))).

(** [FileHasZipBomb]; a file that cannot be read is not one. *)
Definition FileHasZipBomb (content : option string) : bool :=
  match content with Some data => BytesHasZipBomb data | None => false end.

(** [validateUpload]; [content] is [None] when the file cannot be read. *)
Definition validateUpload (content : option string) (kind : string) : result string unit :=
  if bool_decide (kind = "save") then
    match content ≫= zip_files with
    | None => Err "save must be a valid ZIP archive"
    | Some entries =>
        if 20000 <? Z.of_nat (length entries) then Err "too many archive entries"
        else
          level ← check_entries 0 false entries;
          if negb level then Err "archive does not contain a Factorio level"
          else if FileHasZipBomb content then Err "archive exceeds compression safety limits"
          else Ok tt
    end
  else
    match content with
    | None => Err "cannot validate upload"
    | Some b =>
        if bool_decide (kind = "mod-list") then
          match mod_list_names b with
          | None => Err "invalid mod-list.json"
          | Some names =>
              if bool_decide (names = []) || (1000 <? Z.of_nat (length names)) then Err "invalid mod-list.json"
              else if forallb validModName names then Ok tt else Err "invalid mod name"
          end
        else if (slen b <? 8) || negb (le16 b 6 =? 0) || ((le16 b 0 =? 0) && (le16 b 2 <? 12)) then Err "invalid mod-settings.dat header"
        else Ok tt
    end.

(** ** Staging *)
Record Upload := mkUpload {
  u_ID : string; u_Kind : string; u_Name : string; u_Size : Z; u_Expires : time; u_Actor : string; u_Path : string }.

Record staging := mkStaging { uploads : gmap string Upload; staged : gmap string string }.
#[export] Instance staging_settable : Settable staging := mkSettable (fun r => mkStaging (uploads r) (staged r)).

Inductive upload_reply :=
  | Refused (status : Z) (code : string)
  | Created (u : Upload)
  | Deleted.

(** The file of a request: the kind and the name the browser sent, its bytes, whether
    reading it fails, and whether another part follows. *)
Record upload_part := mkPart { pt_kind : string; pt_name : string; pt_bytes : string; pt_error : bool; pt_more : bool }.
Inductive multipart := NotMultipart | NoPart | Part (p : upload_part).

Record upload_request := mkUploadRequest {
  ur_now : time; ur_actor : string; ur_body : multipart;
  ur_path : option string;       (* the file [os.CreateTemp] makes *)
  ur_sync : bool; ur_rand : bytes }.

(** Remove the uploads that satisfy [p], with their files.  The code does not look at what
    [os.Remove] answers; here the file of an upload, which this process made, goes. *)
Definition drop_uploads (p : Upload -> bool) (s : staging) : staging :=
  mkStaging (filter (fun ku : string * Upload => p ku.2 = false) (uploads s))
    (filter (fun kc : string * string => existsb (fun u => p u && bool_decide (u_Path u = kc.1)) (map_to_list (uploads s)).*2 = false) (staged s)).
Definition purge (now : time) (s : staging) : staging := drop_uploads (fun u => After now (u_Expires u)) s.

Definition max_staged : nat := 20.

Definition upload (r : upload_request) (s : staging) : upload_reply * staging :=
  match ur_body r with
  | NotMultipart => (Refused 400 "invalid_upload", s)
  | NoPart => (Refused 400 "invalid_upload", s)
  | Part p =>
      match kind_limit (pt_kind p) with
      | None => (Refused 422 "invalid_upload", s)
      | Some limit =>
          let s := purge (ur_now r) s in
          if (max_staged <=? size (uploads s))%nat then (Refused 429 "upload_quota", s)
          else
            match ur_path r with
            | None => (Refused 500 "storage_error", s)
            | Some path =>
                let content := pt_bytes p in   (* the copy stops one byte behind the limit, which is refused *)
                if pt_error p || (limit <? slen content) then (Refused 413 "upload_too_large", s)
                else if pt_more p then (Refused 400 "invalid_upload", s)
                else if negb (ur_sync r) then (Refused 500 "storage_error", s)
                else
                  match validateUpload (Some content) (pt_kind p) with
                  | Err _ => (Refused 422 "invalid_upload", s)
                  | Ok _ =>
                      let u := mkUpload ("upload_" +:+ Token (ur_rand r)) (pt_kind p) (Base (pt_name p)) (slen content)
                                 (Add (ur_now r) Hour) (ur_actor r) path in
                      (Created u, mkStaging (<[u_ID u := u]> (uploads s)) (<[path := content]> (staged s)))
                  end
            end
      end
  end.

(** [DELETE /internal/v1/uploads/{upload}]. *)
Definition delete_upload (actor id : string) (s : staging) : upload_reply * staging :=
  match uploads s !! id with
  | Some u =>
      if bool_decide (u_Actor u = actor) then (Deleted, mkStaging (delete id (uploads s)) (delete (u_Path u) (staged s)))
      else (Refused 404 "not_found", s)
  | None => (Refused 404 "not_found", s)
  end.

(** ** Applying *)
Inductive game_step :=
  | SetAutolaunch (on : bool)
  | StopGame
  | LockFiles
  | UnlockFiles
  | Activate (source dest : string)
  | SyncMods (save : string)
  | StartGame
  | ChangeMap (save : string)
  | InstallSave (source dest : string)
  | WaitReady.
#[export] Instance game_step_eq_dec : EqDecision game_step.
Proof. solve_decision. Defined.

(** How a start ends: [executeStart] of [lifecycle.go]; a launch that fails for good
    switches the automatic start off (Launcher.v, [launch_failed]). *)
Inductive start_outcome := Started | NotStarted (disable : bool).

(** How far a request to change the map comes: [stageMapChange] may refuse the save, the
    stop or [doChangeMapAfterStop] may fail, and then there is the start. *)
Inductive change_outcome := NotStaged | NotPrepared | Prepared (o : start_outcome).

Record apply_env := mkApply {
  ap_now : time; ap_saves : string; ap_mods : string; ap_name : string;   (* the folders, cfg.Local.Name *)
  ap_stop : bool; ap_lock : bool; ap_copy : string -> bool;    (* what succeeds *)
  ap_sync : bool; ap_start : start_outcome; ap_change : change_outcome; ap_ready : option string; ap_rand : bytes }.

(** [aw_auto] is [AutostartEnabled]: the loop over the process starts the game when it is
    stopped and this is on. *)
Record apply_world := mkApplyWorld { aw_staging : staging; aw_files : gmap string string; aw_auto : bool; aw_steps : list game_step }.
#[export] Instance apply_world_settable : Settable apply_world := mkSettable (fun r =>
  mkApplyWorld (aw_staging r) (aw_files r) (aw_auto r) (aw_steps r)).
Definition step (g : game_step) (w : apply_world) : apply_world := w <| aw_steps ::= fun l => l ++ [g] |>.
Definition set_autolaunch (on : bool) (w : apply_world) : apply_world := step (SetAutolaunch on) w <| aw_auto := on |>.

(** The loop that collects the uploads. *)
Definition collect_one (now : time) (actor : string) (s : staging) (acc : list Upload) (id : string) : result string (list Upload) :=
  match uploads s !! id with
  | Some u =>
      if negb (bool_decide (u_Actor u = actor)) || After now (u_Expires u) || existsb (fun v => bool_decide (u_Kind v = u_Kind u)) acc
      then Err "Missing, expired, or duplicate upload."
      else validateUpload (staged s !! u_Path u) (u_Kind u) ≫= fun _ => Ok (acc ++ [u])
  | None => Err "Missing, expired, or duplicate upload."
  end.

Definition collect (now : time) (actor : string) (ids : list string) (s : staging) : result string (list Upload) :=
  if bool_decide (ids = []) || (3 <? length ids)%nat then Err "Supply one to three staged uploads."
  else foldM (collect_one now actor s) [] ids.

Definition save_file (rand : bytes) : string := "upload-" +:+ Token rand +:+ ".zip".
Definition destination (e : apply_env) (u : Upload) : string :=
  if bool_decide (u_Kind u = "save") then path_Join [ap_saves e; save_file (ap_rand e)]
  else if bool_decide (u_Kind u = "mod-list") then path_Join [ap_mods e; "mod-list.json"]
  else if bool_decide (u_Kind u = "mod-settings") then path_Join [ap_mods e; "mod-settings.dat"]
  else "".

(** [copyAtomic]: the destination is replaced as a whole or not at all. *)
Definition copyAtomic (e : apply_env) (src dst : string) (w : apply_world) : bool * apply_world :=
  match staged (aw_staging w) !! src with
  | Some content => if ap_copy e dst then (true, step (Activate src dst) w <| aw_files ::= <[dst := content]> |>) else (false, w)
  | None => (false, w)
  end.

Fixpoint activate (e : apply_env) (l : list Upload) (w : apply_world) : bool * apply_world :=
  match l with
  | [] => (true, w)
  | u :: l => let '(ok, w) := copyAtomic e (u_Path u) (destination e u) w in if ok then activate e l w else (false, w)
  end.

(** [executeStart], as far as the automatic start goes. *)
Definition start_game (o : start_outcome) (w : apply_world) : bool * apply_world :=
  match o with
  | Started => (true, w)
  | NotStarted disable => (false, if disable then set_autolaunch false w else w)
  end.

(** The save that [doChangeMapAfterStop] puts in place: the snapshot of the selected one. *)
Definition installed_save (e : apply_env) : string := path_Join [ap_saves e; ap_name e +:+ "_new.zip"].
Definition install_save (e : apply_env) (save : string) (w : apply_world) : apply_world :=
  let w := step (InstallSave save (installed_save e)) w in
  match aw_files w !! save with Some content => w <| aw_files ::= <[installed_save e := content]> |> | None => w end.

(** The case [ActionChangeMap] of [execute]: the automatic start is off for the stop and
    the preparation, on before the start, and as it was when these fail. *)
Definition change_map (e : apply_env) (save : string) (w : apply_world) : bool * apply_world :=
  match ap_change e with
  | NotStaged => (false, w)
  | NotPrepared => let wasAuto := aw_auto w in (false, set_autolaunch wasAuto (set_autolaunch false w))
  | Prepared o => start_game o (set_autolaunch true (install_save e save (set_autolaunch false w)))
  end.

(** The request of [applyUploads]: the save that was uploaded is loaded, or the game is
    started as it is. *)
Definition request_start (e : apply_env) (save : string) (w : apply_world) : bool * apply_world :=
  if bool_decide (save = "") then start_game (ap_start e) (step StartGame w)
  else change_map e (path_Join [ap_saves e; save]) (step (ChangeMap (TrimSuffix save ".zip")) w).

(** The end of [applyUploads]: the files are in place and the lock is released. *)
Definition load_and_start (e : apply_env) (l : list Upload) (start : bool) (save : string) (w : apply_world)
    : result string (bool * string) * apply_world :=
  let has_save := negb (bool_decide (save = "")) in
  let w := if has_save then step (SyncMods (path_Join [ap_saves e; save])) w else w in
  if has_save && negb (ap_sync e) then (Err "Save staged but mod sync failed; Factorio remains stopped.", w)
  else
    let '(ok, w) := if start then request_start e save w else (true, w) in
    if negb ok then (Err "Files applied but Factorio failed to start.", w)
    else
      let w := if start then step WaitReady w else w in
      match (if start then ap_ready e else None) with
      | Some m => (Err m, w)
      | None =>
        let w := if start then set_autolaunch true w else w in
        let w := w <| aw_staging ::= drop_uploads (fun u => existsb (fun v => bool_decide (u_ID v = u_ID u)) l) |> in
        (Ok (start, saveID save), w)
      end.

Definition applyUploads (e : apply_env) (actor : string) (ids : list string) (start : bool) (w : apply_world)
    : result string (bool * string) * apply_world :=
  match collect (ap_now e) actor ids (aw_staging w) with
  | Err m => (Err m, w)
  | Ok l =>
      let w := step StopGame (set_autolaunch false w) in
      if negb (ap_stop e) then (Err "Could not stop Factorio; files were not activated.", w)
      else if negb (ap_lock e) then (Err "Shared game files are busy.", w)
      else
        let '(ok, w) := activate e l (step LockFiles w) in
        let w := step UnlockFiles w in
        if negb ok then (Err "File activation failed; Factorio remains stopped. Some earlier files may have been applied.", w)
        else load_and_start e l start (if existsb (fun u => bool_decide (u_Kind u = "save")) l then save_file (ap_rand e) else "") w
  end.
End formats.

(** ** Pages *)

(** The listing of the saves, of at most a hundred: the entries after the cursor, in
    the order of their names, and the next cursor. *)
Record dir_entry := { de_Name : string; de_Regular : bool; de_Info : bool }.
Definition page_size : nat := 100.

Definition listed (cursor : string) (entry : dir_entry) : bool :=
  negb (bool_decide (String.le (de_Name entry) cursor)) && de_Regular entry && HasSuffix (de_Name entry) ".zip" && de_Info entry.
Definition save_page (entries : list dir_entry) (cursor : string) : list string * string :=
  let out := take page_size (de_Name <$> filter (fun entry => listed cursor entry = true) entries) in
  (out, if (length out =? page_size)%nat then default "" (last out) else "").
