(* ===== verification/UploadsSafety.v ===== *)
(** * What the uploads guarantee

    An accepted save is a safe archive of bounded size; staged files stay valid and at
    most twenty; the game's files are replaced only by checked uploads of their owner
    and only while the game is stopped; and the pages of the listing show every save
    exactly once. *)
From Stdlib Require Import Ascii.
From S2P Require Import Prelude.
From S2P Require Import GoInt.
From S2P Require Import GoString.
From S2P Require Import GoBase64.
From S2P Require Import GoPath.
From S2P Require Import GoTime.
From S2P Require Import WebProtocol.
From S2P Require Import ModVersion.
From S2P Require Import ModDeps.
From S2P Require Import ModHistory.
From S2P Require Import ModDownload.
From S2P Require Import Uploads.

(** ** Identifiers *)

(** (roundtrip) the name of every save the server would open is recovered from its
    identifier, and an identifier names nothing else. *)
Theorem save_ids_name_saves name id :
  (good_save_name name = true -> saveName (saveID name) = Some name) /\
  (saveName id = Some name -> good_save_name name = true /\ RawURLEncoding_Decode (to_bytes id) = Some (to_bytes name)).
Proof.
  unfold saveName, saveID. rewrite to_of_bytes. split.
  - intros Hn. unfold RawURLEncoding_Decode, RawURLEncoding_Encode.
    rewrite b64_roundtrip. cbn zeta. by rewrite of_to_bytes, Hn.
  - destruct (RawURLEncoding_Decode _) as [b|]; [|done]. cbn zeta.
    destruct (good_save_name (of_bytes b)) eqn:E; [|done]. intros [= <-]. by rewrite to_of_bytes.
Qed.

(** ** Archives *)
Section formats.
Context `{UnicodeTables, Archives, UploadFormats}.

Fixpoint true_size (l : list zip_entry) : Z :=
  match l with [] => 0 | entry :: l => ze_UncompressedSize64 entry + true_size l end.

(** The sizes of an archive are 64-bit and not negative. *)
Definition sizes_ok (l : list zip_entry) : Prop := Forall (fun entry => in_u 64 (ze_UncompressedSize64 entry)) l.

Lemma check_entries_ok l total level b :
  sizes_ok l -> 0 <= total <= 8 * 2 ^ 30 ->
  check_entries total level l = Ok b ->
  forallb (fun entry => negb (unsafe_entry entry)) l = true /\ total + true_size l <= 8 * 2 ^ 30 /\
  b = level || existsb (fun entry => is_level (ze_Name entry)) l.
Proof.
  intros Hl. revert total level. induction Hl as [|entry l He Hl IH]; intros total level Ht; cbn [check_entries forallb true_size existsb].
  { intros [= <-]. rewrite orb_false_r. repeat split; lia. }
  destruct (unsafe_entry entry); [done|]. cbn zeta. unfold in_u in He.
  destruct (_ || _) eqn:E; [done|]. apply orb_false_iff in E as [E1 E2]. apply Z.ltb_ge in E1, E2.
  unfold wrap in *. rewrite Z.mod_small in E1 |- * by lia. intros Hc.
  destruct (IH (total + ze_UncompressedSize64 entry) (level || is_level (ze_Name entry))) as (Ha & Hb & Hd); [lia|done|].
  split; [done|]. split; [lia|]. by rewrite Hd, orb_assoc.
Qed.

Lemma zip_bomb_false l total :
  sizes_ok l -> 0 <= total -> total + true_size l <= 8 * 2 ^ 30 -> zip_bomb total l = false -> total + true_size l <= MaxZipSize.
Proof.
  intros Hl. revert total. induction Hl as [|entry l He Hl IH]; intros total Ht Hs; cbn [zip_bomb true_size] in *.
  { intros Hz%Z.ltb_ge. lia. }
  cbn zeta. destruct (_ <? _); [done|]. unfold in_u in He.
  assert (Hp : 0 <= true_size l) by (clear -Hl; induction Hl; cbn; unfold in_u in *; lia).
  unfold wrap. rewrite Z.mod_small by lia. intros Hz. apply IH in Hz; lia.
Qed.

(** C34: (bounds) a file accepted as a save is an archive of at most twenty thousand entries,
    none of them a link or a path that leaves its folder, one of them a level, and whose
    entries unpack to at most 1 GiB together - the sums being taken modulo [2^64]. *)
Theorem accepted_save_is_bounded content entries :
  zip_files content = Some entries -> sizes_ok entries ->
  validateUpload (Some content) "save" = Ok tt ->
  Z.of_nat (length entries) <= 20000 /\ true_size entries <= MaxZipSize /\
  Forall (fun entry => unsafe_entry entry = false) entries /\
  Exists (fun entry => is_level (ze_Name entry) = true) entries.
Proof.
  intros Hz Hs. unfold validateUpload. rewrite bool_decide_eq_true_2 by done.
  change (Some content ≫= zip_files) with (zip_files content). rewrite Hz.
  destruct (20000 <? _) eqn:E1; [done|]. apply Z.ltb_ge in E1.
  destruct (check_entries 0 false entries) as [level|e] eqn:E2; cbn [mbind result_bind]; [|done].
  destruct (check_entries_ok entries 0 false level Hs ltac:(lia) E2) as (Ha & Hb & Hd).
  destruct level; [|done]. cbn [negb]. unfold FileHasZipBomb, BytesHasZipBomb. rewrite Hz.
  destruct (zip_bomb 0 entries) eqn:E3; [done|]. intros _.
  pose proof (zip_bomb_false entries 0 Hs ltac:(lia) Hb E3). split; [lia|]. split; [lia|]. split.
  - apply Forall_forall. intros entry He. rewrite forallb_forall in Ha.
    apply negb_true_iff, Ha. by apply list_elem_of_In.
  - symmetry in Hd. apply existsb_exists in Hd as (entry & He & Hv). apply Exists_exists.
    exists entry. split; [by apply list_elem_of_In|done].
Qed.

(** ** Staging *)

(** What holds of the staged files: at most twenty, each under its identifier, on a
    path of its own, of the recorded size, within the limit of its kind, and valid;
    and no file is left behind. *)
Record staged_ok (s : staging) : Prop := {
  so_count : (size (uploads s) <= max_staged)%nat;
  so_file id u : uploads s !! id = Some u -> exists content limit,
    u_ID u = id /\ staged s !! u_Path u = Some content /\ u_Size u = slen content /\
    kind_limit (u_Kind u) = Some limit /\ u_Size u <= limit /\ validateUpload (Some content) (u_Kind u) = Ok tt;
  so_path id1 u1 id2 u2 : uploads s !! id1 = Some u1 -> uploads s !! id2 = Some u2 -> u_Path u1 = u_Path u2 -> id1 = id2;
  so_owned path : is_Some (staged s !! path) -> exists id u, uploads s !! id = Some u /\ u_Path u = path }.

Lemma dropped_path p s path :
  existsb (fun u => p u && bool_decide (u_Path u = path)) (map_to_list (uploads s)).*2 = true <->
  exists id u, uploads s !! id = Some u /\ p u = true /\ u_Path u = path.
Proof.
  rewrite existsb_exists. split.
  - intros (u & Hu & Hp). apply list_elem_of_In, elem_of_snd in Hu as [id Hu].
    apply elem_of_map_to_list in Hu. apply andb_true_iff in Hp as [Hp Hq%bool_decide_eq_true]. eauto.
  - intros (id & u & Hu & Hp & <-). exists u. split.
    + apply list_elem_of_In, elem_of_snd. exists id. by apply elem_of_map_to_list.
    + by rewrite Hp, bool_decide_eq_true_2.
Qed.

Lemma drop_uploads_lookup p s id u : uploads (drop_uploads p s) !! id = Some u <-> uploads s !! id = Some u /\ p u = false.
Proof. unfold drop_uploads. cbn [uploads]. by rewrite map_lookup_filter_Some. Qed.

Lemma drop_uploads_staged p s path content :
  staged (drop_uploads p s) !! path = Some content <->
  staged s !! path = Some content /\ forall id u, uploads s !! id = Some u -> u_Path u = path -> p u = false.
Proof.
  unfold drop_uploads. cbn [staged]. rewrite map_lookup_filter_Some. cbn [fst].
  rewrite <- not_true_iff_false, dropped_path. apply and_iff_compat_l. split.
  - intros Hn id u Hu Hp. destruct (p u) eqn:E; [|done]. destruct Hn. eauto.
  - intros Hn (id & u & Hu & Hp & Hq). by rewrite (Hn _ _ Hu Hq) in Hp.
Qed.

Lemma drop_uploads_ok p s : staged_ok s -> staged_ok (drop_uploads p s).
Proof.
  intros [Hc Hf Hp Ho]. split.
  - etrans; [|exact Hc]. unfold drop_uploads. cbn [uploads]. apply map_size_filter.
  - intros id u [Hu Hpu]%drop_uploads_lookup. destruct (Hf _ _ Hu) as (c & limit & H1' & H2' & H3').
    exists c, limit. split; [done|]. split; [|done]. apply drop_uploads_staged. split; [done|].
    intros id' u' Hu' Hq. pose proof (Hp _ _ _ _ Hu' Hu Hq) as ->. by simplify_eq.
  - intros id1 u1 id2 u2 [? _]%drop_uploads_lookup [? _]%drop_uploads_lookup. eauto.
  - intros path [c [Hs Hn]%drop_uploads_staged]. destruct (Ho path) as (id & u & Hu & Hq); [by eexists|].
    exists id, u. split; [|done]. apply drop_uploads_lookup. eauto.
Qed.

(** What [os.CreateTemp] and the random token guarantee: the file and the identifier are new. *)
Definition fresh_request (r : upload_request) (s : staging) : Prop :=
  uploads s !! ("upload_" +:+ Token (ur_rand r)) = None /\ forall path, ur_path r = Some path -> staged s !! path = None.

Lemma drop_uploads_fresh r p s : fresh_request r s -> fresh_request r (drop_uploads p s).
Proof.
  intros [Hi Hp]. split.
  - destruct (uploads (drop_uploads p s) !! _) as [u|] eqn:E; [|done]. apply drop_uploads_lookup in E as [E _]. congruence.
  - intros path Hr. destruct (staged (drop_uploads p s) !! path) as [c|] eqn:E; [|done].
    apply drop_uploads_staged in E as [E _]. by rewrite (Hp _ Hr) in E.
Qed.

Lemma stage_ok s u content limit :
  staged_ok s -> (size (uploads s) < max_staged)%nat -> uploads s !! u_ID u = None -> staged s !! u_Path u = None ->
  u_Size u = slen content -> kind_limit (u_Kind u) = Some limit -> u_Size u <= limit ->
  validateUpload (Some content) (u_Kind u) = Ok tt ->
  staged_ok (mkStaging (<[u_ID u := u]> (uploads s)) (<[u_Path u := content]> (staged s))).
Proof.
  intros [Hc Hf Hp Ho] Hsz Hid Hpath H1' H2' H3' H4'.
  assert (Hne : forall id v, uploads s !! id = Some v -> u_Path v <> u_Path u).
  { intros id v Hv Hq. destruct (Hf _ _ Hv) as (c & ? & _ & Hs & _). by rewrite Hq, Hpath in Hs. }
  split; cbn [uploads staged].
  - rewrite map_size_insert_None by done. lia.
  - intros id v [[<- <-]|[Hn Hv]]%lookup_insert_Some.
    + exists content, limit. rewrite lookup_insert_eq. done.
    + destruct (Hf _ _ Hv) as (c & lm & ?). exists c, lm. by rewrite lookup_insert_ne by (intros Heq; by eapply Hne).
  - intros id1 u1 id2 u2 [[<- <-]|[Hn1 Hv1]]%lookup_insert_Some [[<- <-]|[Hn2 Hv2]]%lookup_insert_Some Hq.
    + done.
    + by edestruct Hne.
    + by edestruct Hne.
    + eauto.
  - intros path [c [[<- <-]|[Hn Hv]]%lookup_insert_Some].
    + exists (u_ID u), u. by rewrite lookup_insert_eq.
    + destruct (Ho path) as (id & v & Hv' & Hq); [by eexists|]. exists id, v.
      by rewrite lookup_insert_ne by congruence.
Qed.

Lemma upload_ok r s : fresh_request r s -> staged_ok s -> staged_ok (upload r s).2.
Proof.
  intros Hfr Hs. unfold upload. destruct (ur_body r) as [| |p]; try done.
  destruct (kind_limit (pt_kind p)) as [limit|] eqn:Ek; [|done]. cbn zeta.
  pose proof (drop_uploads_ok (fun u => After (ur_now r) (u_Expires u)) s Hs) as Hd.
  pose proof (drop_uploads_fresh r (fun u => After (ur_now r) (u_Expires u)) s Hfr) as [Hi Hp].
  unfold purge in *. set (s1 := drop_uploads _ s) in *. clearbody s1.
  destruct (_ <=? _)%nat eqn:Ec; [done|]. apply Nat.leb_gt in Ec.
  destruct (ur_path r) as [path|] eqn:Er; [|done]. specialize (Hp path eq_refl).
  destruct (pt_error p || _) eqn:Es; [done|]. apply orb_false_iff in Es as [_ Es%Z.ltb_ge].
  destruct (pt_more p); [done|]. destruct (negb (ur_sync r)); [done|].
  destruct (validateUpload _ (pt_kind p)) as [[]|e] eqn:Ev; [|done].
  set (u := mkUpload _ _ _ _ _ _ _). cbn [snd]. by apply (stage_ok s1 u _ limit).
Qed.

Lemma delete_upload_ok actor id s : staged_ok s -> staged_ok (delete_upload actor id s).2.
Proof.
  intros Hs. unfold delete_upload. destruct (uploads s !! id) as [u|] eqn:Eu; [|done].
  case_bool_decide; [|done]. cbn [snd]. destruct Hs as [Hc Hf Hp Ho]. split; cbn [uploads staged].
  - rewrite map_size_delete_Some by eauto. lia.
  - intros id' v [Hn Hv]%lookup_delete_Some. destruct (Hf _ _ Hv) as (c & lm & Hx). exists c, lm.
    rewrite lookup_delete_ne; [done|]. intros Hq. apply Hn. by eapply Hp.
  - intros id1 u1 id2 u2 [_ Hv1]%lookup_delete_Some [_ Hv2]%lookup_delete_Some. eauto.
  - intros path [c [Hn Hv]%lookup_delete_Some]. destruct (Ho path) as (id' & v & Hv' & Hq); [by eexists|].
    exists id', v. split; [|done]. apply lookup_delete_Some. split; [|done]. congruence.
Qed.

(** ** Applying *)





(** What [activate] does: some first uploads of the list are copied, all when it succeeds. *)
Definition activations (e : apply_env) (l : list Upload) : list game_step := (fun u => Activate (u_Path u) (destination e u)) <$> l.
Definition put_one (e : apply_env) (s : staging) (files : gmap string string) (u : Upload) : gmap string string :=
  match staged s !! u_Path u with Some content => <[destination e u := content]> files | None => files end.
Definition put (e : apply_env) (s : staging) (l : list Upload) (files : gmap string string) : gmap string string :=
  fold_left (put_one e s) l files.

Lemma activate_does e l w ok w' :
  activate e l w = (ok, w') -> exists n, (n <= length l)%nat /\ aw_staging w' = aw_staging w /\
    aw_files w' = put e (aw_staging w) (take n l) (aw_files w) /\ aw_steps w' = aw_steps w ++ activations e (take n l) /\
    (ok = true -> n = length l).
Proof.
  revert w. induction l as [|u l IH]; intros w; cbn [activate].
  { intros [= <- <-]. exists 0%nat. cbn. by rewrite app_nil_r. }
  unfold copyAtomic. assert (Hno : (false, w) = (ok, w') -> exists n, (n <= length (u :: l))%nat /\ aw_staging w' = aw_staging w /\
    aw_files w' = put e (aw_staging w) (take n (u :: l)) (aw_files w) /\
    aw_steps w' = aw_steps w ++ activations e (take n (u :: l)) /\ (ok = true -> n = length (u :: l))).
  { intros [= <- <-]. exists 0%nat. cbn. rewrite app_nil_r. split; [lia|done]. }
  destruct (staged (aw_staging w) !! u_Path u) as [content|] eqn:Es; [|done].
  destruct (ap_copy e _); [|done]. clear Hno. intros (n & Hn & H1' & H2' & H3' & H4')%IH. exists (S n).
  cbn [take length]. split; [lia|]. split; [done|]. cbn [step aw_staging aw_files aw_steps] in *. split; [|split].
  - rewrite H2'. unfold put. cbn [fold_left]. unfold put_one at 3. by rewrite Es.
  - rewrite H3'. exact (eq_sym (app_assoc (aw_steps w) [Activate (u_Path u) (destination e u)] (activations e (take n l)))).
  - intros Hok. by rewrite (H4' Hok).
Qed.











Lemma change_map_staging e save w : aw_staging (change_map e save w).2 = aw_staging w.
Proof.
  unfold change_map, install_save. destruct (ap_change e) as [| |[|[]]]; cbn; try done; by destruct (aw_files w !! save).
Qed.








Lemma request_start_staging e save w : aw_staging (request_start e save w).2 = aw_staging w.
Proof.
  unfold request_start. case_bool_decide; [by destruct (ap_start e) as [|[]]|]. apply (change_map_staging e _ (step (ChangeMap _) w)).
Qed.

Lemma load_and_start_staging e l start save w :
  let w' := (load_and_start e l start save w).2 in
  aw_staging w' = aw_staging w \/ exists p, aw_staging w' = drop_uploads p (aw_staging w).
Proof.
  unfold load_and_start. generalize (negb (bool_decide (save = ""))). intros has_save. cbn zeta.
  set (w1 := if has_save then _ else w). assert (Hst : aw_staging w1 = aw_staging w) by (unfold w1; by destruct has_save). clearbody w1.
  destruct (has_save && _); [by left|].
  assert (Hst2 : aw_staging (if start then request_start e save w1 else (true, w1)).2 = aw_staging w)
    by (destruct start; [by rewrite request_start_staging|done]).
  destruct (if start then request_start e save w1 else (true, w1)) as [ok w2]. cbn [snd] in Hst2.
  destruct (negb ok); [by left|]. destruct start; cbn; [destruct (ap_ready e); [by left|]|];
    right; eexists; cbn; rewrite Hst2; reflexivity.
Qed.

Lemma applyUploads_staging e actor ids start w :
  let w' := (applyUploads e actor ids start w).2 in
  aw_staging w' = aw_staging w \/ exists p, aw_staging w' = drop_uploads p (aw_staging w).
Proof.
  unfold applyUploads. destruct (collect _ _ _ _) as [l|m]; [|by left]. cbn zeta.
  destruct (negb (ap_stop e)); [by left|]. destruct (negb (ap_lock e)); [by left|].
  destruct (activate e l _) as [ok w1] eqn:Ea. apply activate_does in Ea as (n & _ & Hg & _).
  destruct (negb ok); [by left|].
  destruct (load_and_start_staging e l start (if existsb (fun u => bool_decide (u_Kind u = "save")) l then save_file (ap_rand e) else "")
    (step UnlockFiles w1)) as [Hl|[p Hl]]; cbn zeta in Hl.
  - left. rewrite Hl. exact Hg.
  - right. exists p. rewrite Hl. exact (f_equal (drop_uploads p) Hg).
Qed.

(** The requests that change the staged files. *)
Inductive staging_step : staging -> staging -> Prop :=
  | step_upload r s : fresh_request r s -> staging_step s (upload r s).2
  | step_delete actor id s : staging_step s (delete_upload actor id s).2
  | step_apply e actor ids start w : staging_step (aw_staging w) (aw_staging (applyUploads e actor ids start w).2).

(** C30: (invariant) whatever is uploaded, deleted and applied, in any order, at most twenty files
    are staged; each has a path of its own, the size that was recorded, at most the
    limit of its kind, and content that passes the validation of its kind; and no
    staged file is left without its upload. *)
Theorem staging_stays_valid s : rtc staging_step (mkStaging ∅ ∅) s -> staged_ok s.
Proof.
  apply (rtc_ind_r (fun s => staged_ok s)).
  - split; cbn; [unfold max_staged; rewrite map_size_empty; lia|intros *; rewrite ?lookup_empty; by intros..|].
    intros path [c Hc]. by rewrite lookup_empty in Hc.
  - intros s1 s2 _ Hst Hok. destruct Hst as [r s1 Hf|actor id s1|e actor ids start w].
    + by apply upload_ok.
    + by apply delete_upload_ok.
    + destruct (applyUploads_staging e actor ids start w) as [->|[p ->]]; [done|by apply drop_uploads_ok].
Qed.
End formats.

(** ** Pages *)

(** A browser that follows the cursors, at most [fuel] pages. *)
Fixpoint all_pages (fuel : nat) (entries : list dir_entry) (cursor : string) : option (list string) :=
  match fuel with
  | O => None
  | S fuel =>
      let '(out, next) := save_page entries cursor in
      if bool_decide (next = "") then Some out else rest ← all_pages fuel entries next; Some (out ++ rest)
  end.

Definition is_save (entry : dir_entry) : bool := de_Regular entry && HasSuffix (de_Name entry) ".zip" && de_Info entry.

(** [os.ReadDir] sorts by name, and names are not empty. *)
Definition sorted_dir (entries : list dir_entry) : Prop :=
  StronglySorted (fun a b => String.le a b /\ a <> b) ("" :: (de_Name <$> entries)).

Definition name_lt (a b : string) : Prop := String.le a b /\ a <> b.
Lemma name_lt_not_le a b : name_lt a b -> ~ String.le b a.
Proof. intros [Hl Hn] Hb. apply Hn. by apply (anti_symm String.le). Qed.

Definition shown (cursor : string) (entries : list dir_entry) : list dir_entry := filter (fun entry => listed cursor entry = true) entries.

Lemma listed_after cursor next entry :
  String.le cursor next -> listed next entry = negb (bool_decide (String.le (de_Name entry) next)) && listed cursor entry.
Proof.
  intros Hc. unfold listed. destruct (bool_decide (String.le (de_Name entry) next)) eqn:E; cbn; [done|].
  rewrite (bool_decide_eq_false_2 (String.le (de_Name entry) cursor)); [done|].
  apply bool_decide_eq_false in E. intros Hl. apply E. by etrans.
Qed.

Lemma sorted_filter (P : dir_entry -> Prop) `{!forall x, Decision (P x)} l :
  StronglySorted name_lt (de_Name <$> l) -> StronglySorted name_lt (de_Name <$> filter P l).
Proof.
  induction l as [|x l IH]; [done|]. rewrite fmap_cons. intros [Hs Hf]%StronglySorted_inv.
  rewrite filter_cons. case_decide; [|auto]. rewrite fmap_cons. constructor; [auto|].
  rewrite Forall_fmap in Hf |- *. apply Forall_forall. intros y [_ Hy]%list_elem_of_filter. by rewrite Forall_forall in Hf; apply Hf.
Qed.

Lemma filter_every (P : dir_entry -> Prop) `{!forall x, Decision (P x)} l : Forall P l -> filter P l = l.
Proof. induction 1 as [|x l Hx _ IH]; [done|]. by rewrite filter_cons_True, IH. Qed.
Lemma filter_none (P : dir_entry -> Prop) `{!forall x, Decision (P x)} l : Forall (fun x => ~ P x) l -> filter P l = [].
Proof. induction 1 as [|x l Hx _ IH]; [done|]. by rewrite filter_cons_False. Qed.

Lemma filter_same (f g : dir_entry -> bool) l :
  Forall (fun x => f x = g x) l -> filter (fun x => f x = true) l = filter (fun x => g x = true) l.
Proof. induction 1 as [|x l Hx _ IH]; [done|]. rewrite !filter_cons, Hx, IH. done. Qed.

Lemma after_split pre x post :
  StronglySorted name_lt (de_Name <$> pre ++ x :: post) ->
  filter (fun y => ~ String.le (de_Name y) (de_Name x)) (pre ++ x :: post) = post.
Proof.
  intros Hs. rewrite filter_app. replace (filter _ pre) with (@nil dir_entry); cbn [app].
  - rewrite filter_cons_False by (intros Hn; by apply Hn). rewrite fmap_app in Hs.
    apply filter_every. apply Forall_forall. intros y Hy. apply name_lt_not_le.
    apply StronglySorted_app in Hs as (_ & _ & Hs). rewrite fmap_cons in Hs. apply StronglySorted_inv in Hs as [_ Hs].
    rewrite Forall_fmap, Forall_forall in Hs. by apply Hs.
  - symmetry. apply filter_none, Forall_forall. intros y Hy Hn. apply Hn.
    rewrite fmap_app in Hs. apply StronglySorted_app in Hs as (Hs & _ & _).
    apply (Hs (de_Name y) (de_Name x)); [by apply list_elem_of_fmap_2|rewrite fmap_cons; by left].
Qed.

Lemma filter_shown cursor next entries :
  String.le cursor next -> shown next entries = filter (fun y => ~ String.le (de_Name y) next) (shown cursor entries).
Proof.
  intros Hc. unfold shown. rewrite list_filter_filter. apply list_filter_iff. intros x.
  rewrite (listed_after cursor next x Hc), andb_true_iff, negb_true_iff, bool_decide_eq_false. done.
Qed.

(** One page: all that is left, or the first hundred and the cursor behind them. *)
Lemma page_cases cursor entries :
  StronglySorted name_lt (de_Name <$> entries) -> Forall (fun entry => de_Name entry <> "") entries ->
  (save_page entries cursor = (de_Name <$> shown cursor entries, "")) \/
  exists pre next post, shown cursor entries = pre ++ post /\ save_page entries cursor = (de_Name <$> pre, next) /\
    next <> "" /\ (1 <= length pre)%nat /\ shown next entries = post.
Proof.
  intros Hs Hn. unfold save_page. fold (shown cursor entries).
  destruct (Nat.eqb_spec (length (take page_size (de_Name <$> shown cursor entries))) page_size) as [El|El].
  2:{ left. f_equal. apply take_ge. rewrite length_take in El. lia. }
  right. rewrite <- fmap_take in El |- *. rewrite length_fmap in El. set (pre := take page_size (shown cursor entries)) in *.
  destruct (last pre) as [x|] eqn:Ex.
  2:{ apply last_None in Ex. by rewrite Ex in El. }
  assert (Hsplit : shown cursor entries = pre ++ drop page_size (shown cursor entries)) by (symmetry; apply take_drop).
  apply last_Some in Ex as [pre' Ep].
  assert (Hx : x ∈ shown cursor entries) by (rewrite Hsplit, Ep; set_solver).
  unfold shown in Hx. apply list_elem_of_filter in Hx as [Hl Hx].
  exists pre, (de_Name x), (drop page_size (shown cursor entries)).
  split; [done|]. split; [|split; [|split; [unfold page_size in El; lia|]]].
  - f_equal. by rewrite fmap_last, Ep, last_snoc.
  - rewrite Forall_forall in Hn. by apply Hn.
  - rewrite (filter_shown cursor).
    + rewrite Hsplit at 1. rewrite Ep, <- app_assoc. cbn [app]. apply after_split.
      rewrite Ep, <- app_assoc in Hsplit. cbn [app] in Hsplit. rewrite <- Hsplit. by apply sorted_filter.
    + unfold listed in Hl. apply andb_true_iff in Hl as [Hl _]. apply andb_true_iff in Hl as [Hl _].
      apply andb_true_iff in Hl as [Hl _]. apply negb_true_iff, bool_decide_eq_false in Hl.
      destruct (total String.le cursor (de_Name x)); [done|contradiction].
Qed.

(** (termination) a browser that follows the cursors from the start ends after at most one more
    page than there are entries, and has then listed every save of the folder, each
    once and in the order of the folder. *)
Theorem pages_list_every_save entries :
  sorted_dir entries -> all_pages (S (length entries)) entries "" = Some (de_Name <$> filter (fun entry => is_save entry = true) entries).
Proof.
  intros [Hs Hf]%StronglySorted_inv. rewrite Forall_fmap in Hf.
  assert (Hn : Forall (fun entry => de_Name entry <> "") entries).
  { eapply Forall_impl; [exact Hf|]. intros entry [_ Hne] Heq. cbn in Hne. by rewrite Heq in Hne. }
  assert (Hgen : forall fuel cursor, (length (shown cursor entries) < fuel)%nat -> all_pages fuel entries cursor = Some (de_Name <$> shown cursor entries)).
  { induction fuel as [|fuel IH]; intros cursor Hl; [lia|]. cbn [all_pages].
    destruct (page_cases cursor entries Hs Hn) as [->|(pre & next & post & Hp & -> & Hne & H1' & Hpost)].
    - by rewrite bool_decide_eq_true_2.
    - rewrite bool_decide_eq_false_2 by done. rewrite IH, Hpost.
      + cbn. by rewrite Hp, fmap_app.
      + rewrite Hp, length_app in Hl. rewrite Hpost. lia. }
  rewrite Hgen by (apply Nat.lt_succ_r, length_filter).
  do 2 f_equal. apply filter_same. eapply Forall_impl; [exact Hf|]. intros entry Hlt. unfold listed, is_save.
  by rewrite (bool_decide_eq_false_2 (String.le (de_Name entry) "")) by exact (name_lt_not_le "" (de_Name entry) Hlt).
Qed.

(** ** At concrete inputs *)
Module UploadsDemo.
#[local] Existing Instance ascii_tables.

(** An archive is its level; a link is an entry called [link]; a mod list is one name. *)
#[local] Instance demo_archives : Archives := {|
  zip_files := fun data =>
    if HasPrefix data "PK" then Some [{| ze_Name := "s/level.dat0"; ze_Content := Some data; ze_UncompressedSize64 := slen data |}] else None;
  unmarshal_mod_info := fun _ => None;
  sha1_sum := to_bytes |}.
#[local] Instance demo_formats : UploadFormats := {|
  zip_symlink := fun entry => bool_decide (ze_Name entry = "link");
  mod_list_names := fun b => Some [b] |}.

Definition request (kind name content path : string) (n : nat) : upload_request :=
  mkUploadRequest 0 "moderator" (Part (mkPart kind name content false false)) (Some path) true [ascii_of_nat n].
Definition staged0 : staging := mkStaging ∅ ∅.
Definition staged1 : staging := (upload (request "save" "up/my save.zip" "PK level" "u/1" 1) staged0).2.
Definition staged2 : staging := (upload (request "mod-list" "mod-list.json" "flib" "u/2" 2) staged1).2.

Definition env : apply_env := mkApply 0 "saves" "mods" "map" true true (fun _ => true) true Started (Prepared Started) None [ascii_of_nat 9].
Definition ids : list string := ["upload_" +:+ Token [ascii_of_nat 1]; "upload_" +:+ Token [ascii_of_nat 2]].
Definition world : apply_world := mkApplyWorld staged2 {["mods/mod-list.json" := "old"]} false [].
Definition outcome := applyUploads env "moderator" ids true world.

Definition entry (n : string) : dir_entry := {| de_Name := n; de_Regular := true; de_Info := true |}.

Example applied_files : aw_files outcome.2 !! "mods/mod-list.json" = Some "flib" /\ size (uploads (aw_staging outcome.2)) = 0%nat.
Proof. by vm_compute. Qed.

Lemma save_ids_name_saves_witness : saveName (saveID "a map.zip") = Some "a map.zip".
Proof. apply (save_ids_name_saves "a map.zip" ""). vm_compute. reflexivity. Defined.

Definition level_entries : list zip_entry :=
  [{| ze_Name := "s/level.dat0"; ze_Content := Some "PK level"; ze_UncompressedSize64 := 8 |}].
Lemma accepted_save_is_bounded_witness : true_size level_entries <= MaxZipSize.
Proof.
  apply (accepted_save_is_bounded "PK level" level_entries).
  - vm_compute. reflexivity.
  - repeat constructor; vm_compute; congruence.
  - vm_compute. reflexivity.
Defined.

(** The uploaded save is installed and the start fails: the moderator is told that the
    game failed to start, and it stays set to be started by itself. *)
Definition failing : apply_env := mkApply 0 "saves" "mods" "map" true true (fun _ => true) true Started (Prepared (NotStarted false)) None [ascii_of_nat 9].
Theorem failed_start_stays_automatic :
  let '(r, w) := applyUploads failing "moderator" ids true world in
  r = Err "Files applied but Factorio failed to start." /\ aw_auto w = true /\ aw_files w !! "saves/map_new.zip" = Some "PK level".
Proof. vm_compute. by split_and!. Qed.


Lemma staging_stays_valid_witness : size (uploads staged2) = 2%nat /\ staged_ok staged2.
Proof.
  split; [vm_compute; reflexivity|].
  apply (staging_stays_valid staged2).
  eapply rtc_l; [apply (step_upload (request "save" "up/my save.zip" "PK level" "u/1" 1)); split; [vm_compute; reflexivity|]|].
  { intros path [= <-]. vm_compute. reflexivity. }
  eapply rtc_l; [apply (step_upload (request "mod-list" "mod-list.json" "flib" "u/2" 2)); split; [vm_compute; reflexivity|]|].
  { intros path [= <-]. vm_compute. reflexivity. }
  apply rtc_refl.
Defined.

Lemma pages_list_every_save_witness : all_pages 3 [entry "a.zip"; entry "b.txt"] "" = Some ["a.zip"].
Proof.
  etrans; [apply (pages_list_every_save [entry "a.zip"; entry "b.txt"])|vm_compute; reflexivity].
  repeat constructor; vm_compute; congruence.
Defined.
End UploadsDemo.
