(* ===== verification/MapReset.v ===== *)
(** * Generating a new map: [src/fact/mapReset.go], [src/cfg/pathutil.go]

    The choice of the generator and its cached copy, the arguments of the game, the
    staged save that is checked and installed, and only then the settings that are
    committed and the older maps that are removed.  Files are maps from paths to
    contents, the saves folder a map from names; the game itself, the archive format
    and the file operations that fail are parameters.  Messages are recorded by what
    they tell, not by their text. *)
From Stdlib Require Import Ascii.
From S2P Require Import Prelude.
From S2P Require Import GoInt.
From S2P Require Import GoString.
From S2P Require Import GoBase64.
From S2P Require Import GoPath.
From S2P Require Import GoTime.
From S2P Require Import GoCalendar.
From S2P Require Import WebProtocol.
From S2P Require Import ModVersion.
From S2P Require Import ModDeps.
From S2P Require Import ModHistory.
From S2P Require Import ModDownload.
From S2P Require Import VoteMap.
From S2P Require Import ResetSchedule.
From S2P Require Import FactUpdater.
From S2P Require Import WebSchema.

Notation file_map := (gmap string string).

(** ** Folders: [src/cfg/pathutil.go] *)
Record folder_config := mkFolders {
  fc_ServersRoot : string; fc_MapGenerators : string;
  fc_cwd : option string     (* the working directory, when it is known *) }.

Definition MapGenSettingsName : string := "map-gen-settings.json".
Definition MapSettingsName : string := "map-settings.json".
Definition DefaultMapGeneratorsDir : string := "map-gen-json".
Definition MapGeneratorCacheDir : string := "cache".
Definition CustomMapGeneratorName : string := "custom".

Definition GetSharedMapGeneratorFolder (c : folder_config) : string := path_Join [fc_ServersRoot c; fc_MapGenerators c].

Definition GetLocalMapGeneratorFolder (c : folder_config) : string :=
  let folder := if bool_decide (fc_MapGenerators c = "") then DefaultMapGeneratorsDir else fc_MapGenerators c in
  let folder := Base (Clean folder) in
  let folder := if bool_decide (folder = ".") || bool_decide (folder = "/") then DefaultMapGeneratorsDir else folder in
  let localPath := path_Join ["."; folder] in
  match fc_cwd c with Some cwd => if IsAbs localPath then Clean localPath else path_Join [cwd; localPath] | None => localPath end.

(** The characters of the raw string literal are two backslashes and a slash. *)
Definition cacheableMapGeneratorName (name : string) : string :=
  let name := TrimSpace name in
  if bool_decide (name = "") || ContainsAny name [ascii_of_nat 92; slash] then ""
  else
    let clean := Clean name in
    if bool_decide (clean = ".") || bool_decide (clean = "..") || negb (bool_decide (clean = Base clean)) then "" else clean.

Definition GetMapGeneratorCacheFolder (c : folder_config) (name : string) : string :=
  let safeName := cacheableMapGeneratorName name in
  if bool_decide (safeName = "") then "" else path_Join [GetLocalMapGeneratorFolder c; MapGeneratorCacheDir; safeName].

Definition GetCachedMapGeneratorFiles (c : folder_config) (name : string) : string * string :=
  let dir := GetMapGeneratorCacheFolder c name in
  if bool_decide (dir = "") then ("", "") else (path_Join [dir; MapGenSettingsName], path_Join [dir; MapSettingsName]).

Definition fileExists (path : string) (files : file_map) : bool := bool_decide (is_Some (files !! path)).

Section tables.
Context `{UnicodeTables}.

Definition GetMapGeneratorFolder (c : folder_config) (name : string) : string :=
  if EqualFold name CustomMapGeneratorName then GetLocalMapGeneratorFolder c else GetSharedMapGeneratorFolder c.

Definition GetMapGeneratorFiles (c : folder_config) (name : string) (files : file_map) : string * string :=
  let dir := GetMapGeneratorFolder c name in
  let folderGenPath := path_Join [dir; name; MapGenSettingsName] in
  let folderSetPath := path_Join [dir; name; MapSettingsName] in
  if fileExists folderGenPath files && fileExists folderSetPath files then (folderGenPath, folderSetPath)
  else (path_Join [dir; name +:+ "-gen.json"], path_Join [dir; name +:+ "-set.json"]).

(** What can fail while a file is cached: the folder, and each file. *)
Record cache_env := mkCacheEnv { ce_mkdir : bool; ce_write : string -> bool }.

Definition copyMapGeneratorFile (e : cache_env) (src dst : string) (files : file_map) : bool * file_map :=
  match files !! src with
  | Some data => if ce_write e dst then (true, <[dst := data]> files) else (false, files)
  | None => (false, files)
  end.

(** Whether it succeeded; a name that is not cached on purpose counts as success. *)
Definition CacheMapGenerator (c : folder_config) (e : cache_env) (name : string) (files : file_map) : bool * file_map :=
  let name := TrimSpace name in
  if bool_decide (name = "") || EqualFold name "none" || EqualFold name CustomMapGeneratorName then (true, files)
  else if bool_decide (cacheableMapGeneratorName name = "") then (false, files)
  else
    let '(genSrc, setSrc) := GetMapGeneratorFiles c name files in
    if negb (fileExists genSrc files) || negb (fileExists setSrc files) then (false, files)
    else
      let '(genDst, setDst) := GetCachedMapGeneratorFiles c name in
      if bool_decide (genDst = "") || bool_decide (setDst = "") then (false, files)
      else if negb (ce_mkdir e) then (false, files)
      else
        let '(ok, files) := copyMapGeneratorFile e genSrc genDst files in
        if ok then copyMapGeneratorFile e setSrc setDst files else (false, files).

(** ** The settings of a new map *)

Inductive notice :=
  | UsingSeed (seed : Z)
  | UsingCachedCopy (generator : string)
  | NoCachedCopy (generator preset : string)
  | CachedGeneratorFailed (generator preset : string)
  | ArchiveUnreadable
  | ArchiveNotCreated
  | ArchiveNotWritten
  | ArchivedAs (path : string)
  | ResetFailed (error : string)
  | ResetAnnounced (ping : string).

Record mapCreateSettings := mkCreate {
  mc_preset : string; mc_generator : string; mc_mapGenSettingsPath : string; mc_mapSettingsPath : string;
  mc_usingCachedGenerator : bool; mc_fallbackNotice : option notice }.
#[export] Instance mapCreateSettings_settable : Settable mapCreateSettings := mkSettable (fun r =>
  mkCreate (mc_preset r) (mc_generator r) (mc_mapGenSettingsPath r) (mc_mapSettingsPath r) (mc_usingCachedGenerator r) (mc_fallbackNotice r)).

Definition usesGenerator (s : mapCreateSettings) : bool :=
  negb (bool_decide (mc_generator s = "")) && negb (bool_decide (mc_mapGenSettingsPath s = "")) && negb (bool_decide (mc_mapSettingsPath s = "")).
Definition withoutGenerator (s : mapCreateSettings) : mapCreateSettings := mkCreate (mc_preset s) "" "" "" false None.

Definition normalizeMapPreset (mapPreset : string) : option string :=
  let mapPreset := TrimSpace mapPreset in
  if bool_decide (mapPreset = "") then None else List.find (fun preset => EqualFold preset mapPreset) MapTypes.

Definition getMapTypeNum (mapt : string) : Z :=
  match find_index (fun preset => EqualFold preset mapt) MapTypes with Some i => Z.of_nat i | None => -1 end.

Definition resolveMapCreateSettings (c : folder_config) (e : cache_env) (mapGenerator mapPreset : string) (files : file_map)
    : mapCreateSettings * file_map :=
  let settings := mkCreate (default "" (normalizeMapPreset mapPreset)) "" "" "" false None in
  let generator := TrimSpace mapGenerator in
  if bool_decide (generator = "") || EqualFold generator "none" then (settings, files)
  else
    let '(genSettingsPath, mapSettingsPath) := GetMapGeneratorFiles c generator files in
    if fileExists genSettingsPath files && fileExists mapSettingsPath files then
      (mkCreate (mc_preset settings) generator genSettingsPath mapSettingsPath false None, (CacheMapGenerator c e generator files).2)
    else
      let '(cacheGen, cacheSet) := GetCachedMapGeneratorFiles c generator in
      if fileExists cacheGen files && fileExists cacheSet files then
        (mkCreate (mc_preset settings) generator cacheGen cacheSet true (Some (UsingCachedCopy generator)), files)
      else (settings <| mc_fallbackNotice := Some (NoCachedCopy generator (mc_preset settings)) |>, files).

Definition buildNewMapArgs (filename : string) (haveSeed : bool) (seed : Z) (settings : mapCreateSettings) : list string :=
  ["--create"; filename]
  ++ (if haveSeed then ["--map-gen-seed"; Itoa seed] else [])
  ++ (if usesGenerator settings then ["--map-gen-settings"; mc_mapGenSettingsPath settings; "--map-settings"; mc_mapSettingsPath settings]
      else if negb (bool_decide (mc_preset settings = "")) then ["--preset"; mc_preset settings] else []).
End tables.

(** ** The generation *)
Section generate.
Context `{UnicodeTables, Archives, Durafmt}.

(** [CheckSave]: whether the entries before the level open, and the level is large enough. *)
Variable zip_opens : zip_entry -> bool.
Definition LevelDatMinSize : Z := 50 * 1024.

Fixpoint check_level (l : list zip_entry) : bool * string :=
  match l with
  | [] => (false, "")
  | file :: l =>
      if negb (zip_opens file) then (false, "")
      else if HasSuffix (ze_Name file) "level.dat0" then
        match ze_Content file with
        | Some content => if LevelDatMinSize <? slen content then (true, Dir (ze_Name file)) else (false, "")
        | None => (false, "")
        end
      else check_level l
  end.
Definition CheckSave (content : option string) : bool * string :=
  match content ≫= zip_files with Some l => check_level l | None => (false, "") end.

Definition CWEpoch : Z := 1653239822390688174.

(** [binary.BigEndian], 64 bits. *)
Definition be64 (v : Z) : bytes := (fun i => byte_of (v / 256 ^ (7 - Z.of_nat i))) <$> seq 0 8.

Definition save_name (mapTypeNum ourseed : Z) : string :=
  "gen-" +:+ (pad 2 mapTypeNum +:+ of_bytes (RawURLEncoding_Encode (be64 (wrap 64 ourseed)))) +:+ ".zip".

(** The settings of the server that a new map changes ([lc_Speed] is the bits of a [float32]). *)
Record map_config := mkMapConfig {
  lc_Seed : Z; lc_MapGenerator : string; lc_MapPreset : string; lc_Scenario : string;
  lc_Speed : Z; lc_AutoPause : bool; lc_NewMap : bool; lc_PendingSave : string }.
#[export] Instance map_config_settable : Settable map_config := mkSettable (fun r =>
  mkMapConfig (lc_Seed r) (lc_MapGenerator r) (lc_MapPreset r) (lc_Scenario r) (lc_Speed r) (lc_AutoPause r) (lc_NewMap r) (lc_PendingSave r)).

Record map_world := mkMapWorld {
  mw_generators : file_map;        (* the files outside the saves folder *)
  mw_saves : file_map;             (* the saves folder, by name *)
  mw_config : map_config; mw_schedule : schedule;
  mw_runs : list (list string);    (* the arguments of every run of the game *)
  mw_notices : list notice }.
#[export] Instance map_world_settable : Settable map_world := mkSettable (fun r =>
  mkMapWorld (mw_generators r) (mw_saves r) (mw_config r) (mw_schedule r) (mw_runs r) (mw_notices r)).

(** The outside of one generation: the temporary folder, the clock, what each run of the
    game answers and leaves at the file it was to create (given what was there), and
    the file operations that fail. *)
Record map_env := mkMapEnv {
  me_folders : folder_config; me_cache : cache_env;
  me_lock : option string; me_staging : result string string; me_now : time; me_commit : time;
  me_create : nat -> list string -> option string; me_leaves : nat -> list string -> option string -> option string;
  me_remove_staged : bool; me_rename : option string; me_remove : string -> bool }.

Definition tell (n : notice) (w : map_world) : map_world := w <| mw_notices ::= fun l => l ++ [n] |>.
Definition tell_opt (n : option notice) (w : map_world) : map_world := match n with Some n => tell n w | None => w end.

Definition runMapCreateCommand (e : map_env) (n : nat) (factargs : list string) (staged : option string) (w : map_world)
    : option string * option string * map_world :=
  (match me_create e n factargs with Some m => Some ("an error occurred attempting to generate the map: " +:+ m) | None => None end,
   me_leaves e n factargs staged, w <| mw_runs ::= fun l => l ++ [factargs] |>).

(** Both attempts: the error, what is staged, and what was done. *)
Definition create_map (e : map_env) (filename : string) (haveSeed : bool) (ourseed : Z) (s : mapCreateSettings) (w : map_world)
    : option string * option string * map_world :=
  let '(err, staged, w) := runMapCreateCommand e 0 (buildNewMapArgs filename haveSeed ourseed s) None w in
  match err with
  | None => (None, staged, w)
  | Some m =>
      if negb (mc_usingCachedGenerator s) then (Some m, staged, w)
      else
        let fallback := withoutGenerator s in
        let w := tell (CachedGeneratorFailed (mc_generator s) (mc_preset fallback)) w in
        let staged := if me_remove_staged e then None else staged in
        let '(err, staged, w) := runMapCreateCommand e 1 (buildNewMapArgs filename haveSeed ourseed fallback) staged w in
        match err with
        | Some f => (Some (m +:+ "; fallback after cached map generator also failed: " +:+ f), staged, w)
        | None => (None, staged, w)
        end
  end.

(** [filepath.Glob] of [gen-*.zip]. *)
Definition is_generated (name : string) : bool := HasPrefix name "gen-" && HasSuffix name ".zip" && (8 <=? slen name).

Definition float32_one : Z := 0x3F800000.

(** The end of [GenNewMap], once the save is in its place. *)
Definition commit_map (e : map_env) (haveSeed : bool) (sName : string) (w : map_world) : map_world :=
  let c := mw_config w in
  let c := c <| lc_Speed := float32_one |> <| lc_AutoPause := true |> in
  let c := if haveSeed then c <| lc_Seed := 0 |> else c in
  let c := c <| lc_NewMap := negb (bool_decide (lc_Scenario c = "")) && negb (EqualFold (lc_Scenario c) "none") |> <| lc_PendingSave := sName |> in
  w <| mw_config := c |> <| mw_schedule ::= commit_reset (me_commit e) |>
    <| mw_saves ::= filter (fun nc : string * string => is_generated nc.1 && negb (bool_decide (nc.1 = sName)) && me_remove e nc.1 = false) |>.

Definition map_seed (e : map_env) (c : map_config) : bool * Z :=
  if 0 <? lc_Seed c then (true, lc_Seed c) else (false, swrap 64 (swrap 64 (me_now e) - CWEpoch)).

Definition map_type_num (s : mapCreateSettings) : Z :=
  if negb (usesGenerator s) && negb (bool_decide (mc_preset s = ""))
  then let n := getMapTypeNum (mc_preset s) in if n <? 0 then 0 else n else 0.

Definition GenNewMap (e : map_env) (w : map_world) : result string string * map_world :=
  match me_lock e with
  | Some m => (Err m, w)
  | None =>
      match me_staging e with
      | Err m => (Err m, w)
      | Ok staging =>
          let '(haveSeed, ourseed) := map_seed e (mw_config w) in
          let w := if haveSeed then tell (UsingSeed ourseed) w else w in
          let '(createSettings, files) :=
            resolveMapCreateSettings (me_folders e) (me_cache e) (lc_MapGenerator (mw_config w)) (lc_MapPreset (mw_config w)) (mw_generators w) in
          let w := w <| mw_generators := files |> in
          let sName := save_name (map_type_num createSettings) ourseed in
          let filename := path_Join [staging; sName] in
          let w := tell_opt (mc_fallbackNotice createSettings) w in
          let '(err, staged, w) := create_map e filename haveSeed ourseed createSettings w in
          match err with
          | Some m => (Err m, w)
          | None =>
              if negb (CheckSave staged).1 then (Err "map generator did not produce a valid save", w)
              else
                match me_rename e with
                | Some m => (Err ("install generated map: " +:+ m), w)
                | None => (Ok sName, commit_map e haveSeed sName (w <| mw_saves ::= <[sName := default "" staged]> |>))
                end
          end
      end
  end.

(** ** The reset: [quickArchive], [mapResetAfterStop] *)
Record archive_env := mkArchiveEnv {
  ar_FactorioVersion : string; ar_GameMapPath : string; ar_Callsign : string; ar_Name : string;
  ar_MapArchives : string; ar_today : time;
  ar_create : bool; ar_fails_after : option nat   (* how much was copied when the copy failed *) }.

Definition Unknown : string := "Unknown".
Definition ArchiveFolderSuffix : string := " maps".

(** The path of the archive; [None] when the version has one component and the slice panics. *)
Definition archive_path (a : archive_env) : option string :=
  match Split (ar_FactorioVersion a) "."%char with
  | x :: y :: _ =>
      Some (ar_MapArchives a +:+ Join [x; y] "." +:+ ArchiveFolderSuffix +:+ "/" +:+
            (ar_Callsign a +:+ "-" +:+ ar_Name a +:+ "-" +:+ date_text (date_of (ar_today a)) +:+ ".zip"))
  | _ => None
  end.

Definition quickArchive (a : archive_env) (game_map : option string) (w : map_world) : option map_world :=
  match archive_path a with
  | None => None
  | Some path => Some
      match game_map with
      | None => tell ArchiveUnreadable w
      | Some content =>
          if negb (ar_create a) then tell ArchiveNotCreated w
          else
            let old := default "" (mw_generators w !! path) in
            match ar_fails_after a with
            | Some n => tell ArchiveNotWritten (w <| mw_generators ::= <[path := overwrite old (string_take n content)]> |>)
            | None => tell (ArchivedAs path) (w <| mw_generators ::= <[path := overwrite old content]> |>)
            end
      end
  end.

Record reset_env := mkResetEnv {
  re_map : map_env; re_archive : archive_env; re_game_map : option string;   (* what [GameMapPath] holds *)
  re_local_role : string; re_global_role : string; re_now : time }.

Definition ping_text (e : reset_env) : string :=
  let role := if bool_decide (re_local_role e = "") then re_global_role e else re_local_role e in
  if bool_decide (role = "") then "" else "<@&" +:+ role +:+ ">".

(** [None] is a panic; the vote box loses its votes only after a map was made. *)
Definition mapResetAfterStop (e : reset_env) (w : map_world) (b : VoteContainerData)
    : option (result string string * map_world * VoteContainerData) :=
  let a := re_archive e in
  w ← (if negb (bool_decide (ar_GameMapPath a = "")) && negb (bool_decide (ar_FactorioVersion a = Unknown))
       then quickArchive a (re_game_map e) w else Some w);
  Some
    match GenNewMap (re_map e) w with
    | (Err m, w) => (Err m, tell (ResetFailed m) w, b)
    | (Ok saveName, w) => (Ok saveName, tell (ResetAnnounced (ping_text e)) w, VoidAllVotes (b <| LastMapChange := re_now e |>))
    end.
End generate.
