(* ===== verification/MapResetSafety.v ===== *)
(** * What a map reset guarantees

    A generation that fails leaves the saves, the settings and the schedule; one that
    succeeds has installed a checked save and removed only older generated maps.  The
    game is run with a generator only when its files exist, and a generator that was
    used once can be used again from the cache. *)
From Stdlib Require Import Ascii.
From S2P Require Import Prelude.
From S2P Require Import GoInt.
From S2P Require Import GoString.
From S2P Require Import GoBase64.
From S2P Require Import GoPath.
From S2P Require Import GoTime.
From S2P Require Import GoCalendar.
From S2P Require Import WebProtocol.
From S2P Require Import ModDownload.
From S2P Require Import VoteMap.
From S2P Require Import ResetSchedule.
From S2P Require Import FactUpdater.
From S2P Require Import WebSchema.
From S2P Require Import MapReset.

Section generate.
Context `{UnicodeTables, Archives, Durafmt}.
Variable zip_opens : zip_entry -> bool.

(** ** The generation *)
Lemma save_name_generated n seed : is_generated (save_name n seed) = true.
Proof.
  unfold is_generated, save_name. rewrite HasPrefix_app. cbn [andb]. apply andb_true_iff. split.
  - apply HasSuffix_spec. eexists. symmetry. apply string_app_assoc.
  - unfold slen. rewrite !string_length_app. apply Z.leb_le. cbn [String.length]. lia.
Qed.

(** ** What is asked of a generation

    It is told here without the definitions of the code that choose the arguments of the
    game, the name of the save and the attempts. *)

(** A number of eight bytes, the first the most significant. *)
Definition be_value (b : bytes) : Z := foldl (fun v c => 256 * v + byte_val c) 0 b.

(** The seed that was requested, if one was, and the one the map is called after. *)
Definition requested_seed (c : map_config) : option Z := if 0 <? lc_Seed c then Some (lc_Seed c) else None.
Definition seed_of_name (e : map_env) (c : map_config) : Z := default (me_now e - CWEpoch) (requested_seed c).

(** The number of the type of a map: the place of its preset among the types; 0 for a map
    of a generator or of an unknown preset. *)
Definition is_type_number (s : mapCreateSettings) (n : Z) : Prop :=
  let preset_at i := exists t, MapTypes !! i = Some t /\ EqualFold t (mc_preset s) = true in
  (usesGenerator s = false /\ mc_preset s <> "" /\ 0 <= n /\ preset_at (Z.to_nat n) /\ forall i, (i < Z.to_nat n)%nat -> ~ preset_at i) \/
  (n = 0 /\ (usesGenerator s = true \/ mc_preset s = "" \/ forall i, ~ preset_at i)).

(** A name from which the type and the seed can be read. *)
Definition tells (sName : string) (s : mapCreateSettings) (seed : Z) : Prop :=
  exists n code b, sName = "gen-" +:+ (pad 2 n +:+ of_bytes code) +:+ ".zip" /\ is_type_number s n /\
    RawURLEncoding_Decode code = Some b /\ length b = 8%nat /\ be_value b = seed mod 2 ^ 64.

(** What the game is asked to create. *)
Definition asked_for (file : string) (seed : option Z) (s : mapCreateSettings) : list string :=
  "--create" :: file :: match seed with Some z => ["--map-gen-seed"; Itoa z] | None => [] end ++
  if usesGenerator s then ["--map-gen-settings"; mc_mapGenSettingsPath s; "--map-settings"; mc_mapSettingsPath s]
  else if decide (mc_preset s <> "") then ["--preset"; mc_preset s] else [].

(** The runs of the game that end well, and what the last one leaves: the first run; or,
    when it failed with the cached copy of a generator, one without the generator. *)
Inductive made (e : map_env) (ask : mapCreateSettings -> list string) (s : mapCreateSettings) : list (list string) -> option string -> Prop :=
  | at_once : me_create e 0 (ask s) = None -> made e ask s [ask s] (me_leaves e 0 (ask s) None)
  | without_it : mc_usingCachedGenerator s = true -> me_create e 0 (ask s) <> None -> me_create e 1 (ask (withoutGenerator s)) = None ->
      made e ask s [ask s; ask (withoutGenerator s)]
        (me_leaves e 1 (ask (withoutGenerator s)) (if me_remove_staged e then None else me_leaves e 0 (ask s) None)).

Definition resolved_for (e : map_env) (w : map_world) : mapCreateSettings :=
  (resolveMapCreateSettings (me_folders e) (me_cache e) (lc_MapGenerator (mw_config w)) (lc_MapPreset (mw_config w)) (mw_generators w)).1.

(** Everything went well: the lock, the folder, the game, the check of what it left, and the rename. *)
Definition generated (e : map_env) (w : map_world) (sName : string) (runs : list (list string)) (content : string) : Prop :=
  me_lock e = None /\
  (exists staging, me_staging e = Ok staging /\
    made e (asked_for (path_Join [staging; sName]) (requested_seed (mw_config w))) (resolved_for e w) runs (Some content)) /\
  (CheckSave zip_opens (Some content)).1 = true /\ me_rename e = None.

(** The save is in its place, and what becomes of everything else. *)
Definition installed (e : map_env) (w : map_world) (sName : string) (runs : list (list string)) (content : string) (w' : map_world) : Prop :=
  mw_runs w' = mw_runs w ++ runs /\
  (forall n, mw_saves w' !! n = if decide (n = sName) then Some content
    else if is_generated n && me_remove e n then None else mw_saves w !! n) /\
  mw_config w' = mw_config w <| lc_Seed := if 0 <? lc_Seed (mw_config w) then 0 else lc_Seed (mw_config w) |>
    <| lc_Speed := float32_one |> <| lc_AutoPause := true |> <| lc_PendingSave := sName |>
    <| lc_NewMap := negb (bool_decide (lc_Scenario (mw_config w) = "")) && negb (EqualFold (lc_Scenario (mw_config w)) "none") |> /\
  mw_schedule w' = commit_reset (me_commit e) (mw_schedule w).

(** ** The name *)
Lemma next_byte x j k : 0 <= k -> j = k + 1 -> 256 * (x / 256 ^ j) + (x / 256 ^ k) mod 256 = x / 256 ^ k.
Proof. intros Hk ->. rewrite Z.pow_add_r, <- Z.div_div, Z.pow_1_r by lia. symmetry. apply Z.div_mod. lia. Qed.

Lemma be64_value v : be_value (be64 (wrap 64 v)) = v mod 2 ^ 64 /\ length (be64 (wrap 64 v)) = 8%nat.
Proof.
  split; [|done]. assert (in_u 64 (wrap 64 v)) as [H1' H2'] by (apply wrap_range; lia).
  change (v mod 2 ^ 64) with (wrap 64 v). generalize dependent (wrap 64 v). intros x H1' H2'.
  unfold be_value, be64. cbn [fmap list_fmap seq foldl]. rewrite !byte_val_of, Z.mul_0_r, Z.add_0_l.
  rewrite (Z.mod_small (x / 256 ^ (7 - Z.of_nat 0))) by
    (split; [apply Z.div_pos; lia|apply Z.div_lt_upper_bound; [lia|exact H2']]).
  do 7 (rewrite next_byte by lia). apply Z.div_1_r.
Qed.

Lemma map_type_number s : is_type_number s (map_type_num s).
Proof.
  unfold map_type_num, is_type_number. destruct (usesGenerator s); cbn [negb andb]; [right; by eauto|].
  case_bool_decide as Hp; cbn [negb andb]; [right; by eauto|]. unfold getMapTypeNum.
  destruct (find_index _ MapTypes) as [i|] eqn:E.
  - apply find_index_Some in E as (t & Ht & Heq & Hmin). left. rewrite (proj2 (Z.ltb_ge _ 0)) by lia. rewrite Nat2Z.id.
    split_and!; [done|done|lia|by exists t|]. intros j Hj (t' & Ht' & Heq'). by rewrite (Hmin j t' Hj Ht') in Heq'.
  - right. split; [done|]. right; right. intros i (t & Ht & Heq). rewrite find_index_None in E.
    apply (Forall_lookup_1 _ _ _ _ E) in Ht. congruence.
Qed.

Lemma map_seed_number e c : wrap 64 (map_seed e c).2 = seed_of_name e c mod 2 ^ 64.
Proof.
  unfold map_seed, seed_of_name, requested_seed. destruct (0 <? lc_Seed c); [done|]. cbn [snd default].
  unfold wrap, swrap. rewrite Zminus_mod_idemp_l, Z.add_simpl_r, <- Z.sub_add_distr, Zminus_mod_idemp_l. f_equal. unfold time in *. lia.
Qed.

Lemma save_name_tells e c s : tells (save_name (map_type_num s) (map_seed e c).2) s (seed_of_name e c).
Proof.
  set (seed := (map_seed e c).2).
  exists (map_type_num s), (RawURLEncoding_Encode (be64 (wrap 64 seed))), (be64 (wrap 64 seed)).
  split; [done|]. split; [apply map_type_number|]. split; [apply b64_roundtrip|].
  destruct (be64_value seed) as [-> ->]. split; [done|]. apply map_seed_number.
Qed.

Lemma buildNewMapArgs_asks e c file s :
  buildNewMapArgs file (map_seed e c).1 (map_seed e c).2 s = asked_for file (requested_seed c) s.
Proof.
  unfold buildNewMapArgs, asked_for, map_seed, requested_seed. destruct (0 <? lc_Seed c); cbn; repeat f_equal;
    destruct (usesGenerator s); try done; case_bool_decide; by case_decide.
Qed.

(** ** The two attempts *)
Lemma made_once e ask s runs1 c1 runs2 c2 : made e ask s runs1 c1 -> made e ask s runs2 c2 -> c1 = c2.
Proof. intros [?|???] Hm; inversion Hm; congruence. Qed.

(** What [create_map] leaves alone, the runs it made, and when it succeeds. *)
Lemma create_map_does e filename haveSeed seed s w err staged w' ask :
  (forall s, buildNewMapArgs filename haveSeed seed s = ask s) ->
  create_map e filename haveSeed seed s w = (err, staged, w') ->
  mw_generators w' = mw_generators w /\ mw_saves w' = mw_saves w /\ mw_config w' = mw_config w /\ mw_schedule w' = mw_schedule w /\
  (exists runs, mw_runs w' = mw_runs w ++ runs /\
    (runs = [ask s] \/ runs = [ask s; ask (withoutGenerator s)] /\ mc_usingCachedGenerator s = true /\ me_create e 0 (ask s) <> None) /\
    match err with None => made e ask s runs staged | Some _ => forall runs content, ~ made e ask s runs content end).
Proof.
  intros Hask. unfold create_map, runMapCreateCommand. rewrite !Hask. destruct (me_create e 0 (ask s)) as [m|] eqn:E0.
  2:{ intros [= <- <- <-]. repeat split; try done. exists [ask s]. split; [done|]. split; [by left|]. by apply at_once. }
  destruct (mc_usingCachedGenerator s) eqn:Ec; cbn [negb].
  2:{ intros [= <- <- <-]. repeat split; try done. exists [ask s]. split; [done|]. split; [by left|]. intros runs content Hm. inversion Hm; congruence. }
  cbn zeta. destruct (me_create e 1 (ask (withoutGenerator s))) as [m2|] eqn:E1; intros [= <- <- <-]; (repeat split; try done);
    (exists [ask s; ask (withoutGenerator s)]; split; [exact (eq_sym (app_assoc (mw_runs w) [_] [_]))|]; split; [by right|]).
  - intros runs content Hm. inversion Hm; congruence.
  - apply without_it; congruence.
Qed.

Lemma commit_map_saves e haveSeed sName w n :
  mw_saves (commit_map e haveSeed sName w) !! n =
  if is_generated n && negb (bool_decide (n = sName)) && me_remove e n then None else mw_saves w !! n.
Proof.
  assert (mw_saves (commit_map e haveSeed sName w) =
    filter (fun nc : string * string => is_generated nc.1 && negb (bool_decide (nc.1 = sName)) && me_remove e nc.1 = false) (mw_saves w)) as -> by done.
  rewrite map_lookup_filter. cbn [fst]. destruct (mw_saves w !! n) as [c|]; [|by case_match]. cbn.
  destruct (_ && _); case_guard; done.
Qed.

Lemma tell_opt_same n w : mw_generators (tell_opt n w) = mw_generators w /\ mw_saves (tell_opt n w) = mw_saves w /\
  mw_config (tell_opt n w) = mw_config w /\ mw_schedule (tell_opt n w) = mw_schedule w /\ mw_runs (tell_opt n w) = mw_runs w.
Proof. by destruct n. Qed.

(** Where a generation ends: before the first run of the game, after a failed attempt or
    check, or with the new map committed on top of the world [w1] the attempts leave. *)
Lemma GenNewMap_cases e w r w' (s := resolved_for e w) (sName := save_name (map_type_num s) (map_seed e (mw_config w)).2) :
  GenNewMap zip_opens e w = (r, w') ->
  (is_ok r = false /\ w' = w /\ forall runs content, ~ generated e w sName runs content) \/
  exists w1 filename runs, let ask := asked_for filename (requested_seed (mw_config w)) in
    mw_generators w1 = (resolveMapCreateSettings (me_folders e) (me_cache e) (lc_MapGenerator (mw_config w)) (lc_MapPreset (mw_config w)) (mw_generators w)).2 /\
    mw_saves w1 = mw_saves w /\ mw_config w1 = mw_config w /\ mw_schedule w1 = mw_schedule w /\ mw_runs w1 = mw_runs w ++ runs /\
    (runs = [ask s] \/ runs = [ask s; ask (withoutGenerator s)] /\ mc_usingCachedGenerator s = true /\ me_create e 0 (ask s) <> None) /\
    (is_ok r = false /\ w' = w1 /\ (forall runs content, ~ generated e w sName runs content) \/
     exists content, generated e w sName runs content /\ r = Ok sName /\
       w' = commit_map e (map_seed e (mw_config w)).1 sName (w1 <| mw_saves ::= <[sName := content]> |>)).
Proof.
  unfold GenNewMap, generated. destruct (me_lock e) as [m|] eqn:Elock; [intros [= <- <-]; left; repeat split; [done..|]; by intros ?? [? _]|].
  destruct (me_staging e) as [staging|m] eqn:Estaging.
  2:{ intros [= <- <-]. left. repeat split; [done..|]. by intros ?? (_ & (? & ? & _) & _). }
  intros Hr. right.
  pose proof (buildNewMapArgs_asks e (mw_config w)) as Hask. subst s sName. unfold resolved_for in *.
  destruct (map_seed e (mw_config w)) as [haveSeed seed] eqn:Eseed. cbn [fst snd] in *.
  set (w0 := if haveSeed then tell (UsingSeed seed) w else w) in *.
  assert (H0' : mw_generators w0 = mw_generators w /\ mw_saves w0 = mw_saves w /\ mw_config w0 = mw_config w /\
    mw_schedule w0 = mw_schedule w /\ mw_runs w0 = mw_runs w) by (unfold w0; by destruct haveSeed).
  clearbody w0. destruct H0' as (E1 & E2 & E3 & E4 & E5). rewrite E1, E3 in Hr.
  destruct (resolveMapCreateSettings _ _ _ _ _) as [s files]. cbn [fst snd] in *. cbn zeta in Hr.
  destruct (tell_opt_same (mc_fallbackNotice s) (w0 <| mw_generators := files |>)) as (T1 & T2 & T3 & T4 & T5).
  set (w2 := tell_opt _ _) in *. clearbody w2. set (sName := save_name _ _) in *.
  destruct (create_map e _ haveSeed seed s w2) as [[err staged] w1] eqn:Ec.
  apply (create_map_does _ _ _ _ _ _ _ _ _ _ (Hask _)) in Ec as (C1 & C2 & C3 & C4 & runs & C5 & C6 & C7).
  exists w1, (path_Join [staging; sName]), runs. cbn zeta.
  split; [rewrite C1; exact T1|]. split; [rewrite C2, T2; exact E2|]. split; [rewrite C3, T3; exact E3|]. split; [rewrite C4, T4; exact E4|].
  split; [rewrite C5, T5, <- E5; done|]. split; [exact C6|].
  destruct err as [m|].
  { injection Hr as <- <-. left. repeat split; [done..|]. intros ?? (_ & (? & [= <-] & Hm) & _). by eapply C7. }
  destruct (CheckSave zip_opens staged).1 eqn:Es; cbn [negb] in Hr.
  2:{ injection Hr as <- <-. left. repeat split; [done..|]. intros ?? (_ & (? & [= <-] & Hm) & Hs & _).
      rewrite <- (made_once _ _ _ _ _ _ _ C7 Hm) in Hs. congruence. }
  destruct staged as [content|]; [|done].
  destruct (me_rename e) as [m|]; injection Hr as <- <-; [left|right].
  - repeat split; [done..|]. by intros ?? (_ & _ & _ & ?).
  - exists content. split; [|done]. split; [done|]. split; [|done]. exists staging. by split.
Qed.

(** C32: (error) a new map is installed exactly when everything went well: the lock and
    the folder were had; a run of the game ended well that was asked for the requested
    seed, if there is one, and the resolved settings - or, when the run with the cached
    copy of a generator failed, for none; what that run left is a save with a level; and
    it could be renamed.  Then that content is the pending save, under a name from
    which the type of the map and the seed can be read (a save of that name is replaced); a requested seed is consumed, speed and
    pausing are back to normal and the schedule moves; and of the other files exactly
    the generated maps that can be removed are gone.  Otherwise neither the saves nor
    the settings nor the schedule change. *)
Theorem new_map_installed_or_nothing_changed e w r w' :
  GenNewMap zip_opens e w = (r, w') ->
  exists sName, tells sName (resolved_for e w) (seed_of_name e (mw_config w)) /\
    match r with
    | Ok name => name = sName /\ exists runs content, generated e w sName runs content /\ installed e w sName runs content w'
    | Err _ => (forall runs content, ~ generated e w sName runs content) /\
        mw_saves w' = mw_saves w /\ mw_config w' = mw_config w /\ mw_schedule w' = mw_schedule w
    end.
Proof.
  intros Hr%GenNewMap_cases. eexists. split; [apply save_name_tells|]. set (sName := save_name _ _) in *.
  destruct Hr as [(Hr & -> & Hg)|(w1 & filename & runs & _ & E2 & E3 & E4 & E5 & _ & Hend)]; [by destruct r|].
  destruct Hend as [(Hr & -> & Hg)|(content & Hg & -> & ->)]; [by destruct r|].
  split; [done|]. exists runs, content. split; [done|]. split; [done|]. split.
  { intros n. rewrite commit_map_saves.
    change (mw_saves (w1 <| mw_saves ::= <[sName:=content]> |>)) with (<[sName := content]> (mw_saves w1)).
    case_decide as Hn; [subst n; by rewrite bool_decide_eq_true_2, andb_false_r, lookup_insert_eq|].
    by rewrite bool_decide_eq_false_2, andb_true_r, lookup_insert_ne, E2 by done. }
  rewrite <- E3, <- E4. split; [|done]. assert (Hseed : (map_seed e (mw_config w1)).1 = (0 <? lc_Seed (mw_config w1))) by (unfold map_seed; by destruct (0 <? _)).
  unfold commit_map. rewrite Hseed. destruct w1 as [? ? [] ? ? ?]; cbn. by destruct (0 <? _).
Qed.

(** ** The generator *)
Lemma fileExists_insert p q v files : fileExists p files = true -> fileExists p (<[q := v]> files) = true.
Proof. unfold fileExists. rewrite !bool_decide_eq_true. intros Hp. apply lookup_insert_is_Some'. by right. Qed.

Lemma copy_keeps p ce src dst files ok files' :
  copyMapGeneratorFile ce src dst files = (ok, files') -> fileExists p files = true -> fileExists p files' = true.
Proof. intros E Hp. unfold copyMapGeneratorFile in E. repeat case_match; injection E as <- <-; try done. by apply fileExists_insert. Qed.

Lemma CacheMapGenerator_keeps p c ce name files : fileExists p files = true -> fileExists p (CacheMapGenerator c ce name files).2 = true.
Proof.
  intros Hp. unfold CacheMapGenerator. cbn zeta. repeat (case_match; try done).
  - destruct (copyMapGeneratorFile _ _ _ g) as [ok files'] eqn:E. eauto using copy_keeps.
  - eauto using copy_keeps.
Qed.

(** A resolved generator has both of its files. *)
Lemma resolve_exists c ce g p files s files' :
  resolveMapCreateSettings c ce g p files = (s, files') -> usesGenerator s = true ->
  fileExists (mc_mapGenSettingsPath s) files' = true /\ fileExists (mc_mapSettingsPath s) files' = true.
Proof.
  unfold resolveMapCreateSettings. cbn zeta. destruct (_ || _); [by intros [= <- <-]|].
  destruct (GetMapGeneratorFiles c (TrimSpace g) files) as [gen st]. destruct (fileExists gen files && fileExists st files) eqn:E.
  { apply andb_true_iff in E as [E1 E2]. intros [= <- <-] _. cbn. split; by apply CacheMapGenerator_keeps. }
  destruct (GetCachedMapGeneratorFiles c (TrimSpace g)) as [gen2 st2]. destruct (fileExists gen2 files && _) eqn:E'; [|by intros [= <- <-]].
  apply andb_true_iff in E' as [E1 E2]. by intros [= <- <-] _.
Qed.

(** (safety) a generation runs the game at most twice: with the settings that were
    resolved, and once more without a generator only when the run with a cached copy
    failed.  Whenever a generator is passed, both of its files exist; and both runs are
    given the same file and, when one was requested, the same seed. *)
Theorem generator_runs e w r w' :
  GenNewMap zip_opens e w = (r, w') ->
  exists runs, mw_runs w' = mw_runs w ++ runs /\
    (runs = [] \/ exists s filename, let args := buildNewMapArgs filename (map_seed e (mw_config w)).1 (map_seed e (mw_config w)).2 in
      (usesGenerator s = true -> fileExists (mc_mapGenSettingsPath s) (mw_generators w') = true /\ fileExists (mc_mapSettingsPath s) (mw_generators w') = true) /\
      (runs = [args s] \/ runs = [args s; args (withoutGenerator s)] /\ mc_usingCachedGenerator s = true /\ me_create e 0 (args s) <> None)).
Proof.
  intros [(_ & -> & _)|(w1 & filename & runs & E1 & _ & _ & _ & E5 & Hruns & Hend)]%GenNewMap_cases.
  { exists []. rewrite app_nil_r. auto. }
  assert (mw_runs w' = mw_runs w1 /\ mw_generators w' = mw_generators w1) as [-> ->] by (by destruct Hend as [(_ & -> & _)|(content & _ & _ & ->)]).
  exists runs. split; [done|]. right. exists (resolved_for e w), filename. cbn zeta. rewrite !(buildNewMapArgs_asks e (mw_config w)). split; [|done].
  rewrite E1. intros Hu. eapply resolve_exists; [|exact Hu]. apply surjective_pairing.
Qed.

Lemma CacheMapGenerator_ok c ce name files cg cs gen st v1 v2 :
  TrimSpace name = name -> bool_decide (name = "") || EqualFold name "none" || EqualFold name CustomMapGeneratorName = false ->
  GetMapGeneratorFiles c name files = (gen, st) -> GetCachedMapGeneratorFiles c name = (cg, cs) ->
  files !! gen = Some v1 -> files !! st = Some v2 -> st <> cg ->
  (CacheMapGenerator c ce name files).1 = true -> (CacheMapGenerator c ce name files).2 = <[cs := v2]> (<[cg := v1]> files).
Proof.
  intros Htrim Hname Eg Ec Hv1 Hv2 Hne. unfold CacheMapGenerator. cbn zeta. rewrite Htrim, Hname, Eg, Ec.
  unfold fileExists.
  rewrite (bool_decide_eq_true_2 (is_Some (files !! gen))), (bool_decide_eq_true_2 (is_Some (files !! st))) by eauto. cbn [orb negb].
  case_match; [done|]. case_match; [done|]. case_match; [done|]. unfold copyMapGeneratorFile at 1 3. rewrite Hv1.
  destruct (ce_write ce cg); [|done]. unfold copyMapGeneratorFile. rewrite lookup_insert_ne, Hv2 by done.
  by destruct (ce_write ce cs).
Qed.

(** C33: (roundtrip) a shared generator that was found and could be cached can be used again
    when its shared files are gone, and the copy has the same content - provided the
    cache is not itself the shared folder. *)
Theorem cached_generator_replaces_shared c ce g p files s files1 files2 :
  resolveMapCreateSettings c ce g p files = (s, files1) -> usesGenerator s = true -> mc_usingCachedGenerator s = false ->
  EqualFold (TrimSpace (TrimSpace g)) CustomMapGeneratorName = false -> TrimSpace (TrimSpace g) = TrimSpace g ->
  (CacheMapGenerator c ce (TrimSpace g) files).1 = true ->
  let cached := GetCachedMapGeneratorFiles c (TrimSpace g) in
  NoDup [mc_mapSettingsPath s; cached.1; cached.2] ->
  files2 !! cached.1 = files1 !! cached.1 -> files2 !! cached.2 = files1 !! cached.2 ->
  (let shared := GetMapGeneratorFiles c (TrimSpace g) files2 in fileExists shared.1 files2 && fileExists shared.2 files2 = false) ->
  exists s2, resolveMapCreateSettings c ce g p files2 = (s2, files2) /\ mc_usingCachedGenerator s2 = true /\
    mc_preset s2 = mc_preset s /\
    files2 !! mc_mapGenSettingsPath s2 = files !! mc_mapGenSettingsPath s /\ files2 !! mc_mapSettingsPath s2 = files !! mc_mapSettingsPath s.
Proof.
  intros Hres Huse Hnc Hcustom Htrim Hok cached Hnd H1c H2c Hgone. revert Hres. unfold resolveMapCreateSettings. cbn zeta.
  destruct (_ || EqualFold (TrimSpace g) "none") eqn:Enone; [intros [= <- <-]; by cbn in Huse|].
  destruct (GetMapGeneratorFiles c (TrimSpace g) files) as [gen st] eqn:Eg.
  destruct (fileExists gen files && fileExists st files) eqn:Ex.
  2:{ destruct (GetCachedMapGeneratorFiles c (TrimSpace g)) as [x y]. case_match; intros [= <- <-]; [done|by cbn in Huse]. }
  apply andb_true_iff in Ex as [Ex1 Ex2]. unfold fileExists in Ex1, Ex2. apply bool_decide_eq_true in Ex1 as [v1 Hv1], Ex2 as [v2 Hv2].
  intros [= <- <-]. cbn [mc_mapGenSettingsPath mc_mapSettingsPath mc_preset] in *.
  destruct (GetMapGeneratorFiles c (TrimSpace g) files2) as [gen2 st2]. cbn [fst snd] in Hgone. rewrite Hgone.
  subst cached. destruct (GetCachedMapGeneratorFiles c (TrimSpace g)) as [cg cs] eqn:Ec. cbn [fst snd] in *.
  apply NoDup_cons in Hnd as [Hn1 Hnd]. apply NoDup_cons in Hnd as [Hn2 _]. rewrite Htrim in Hcustom.
  pose proof (CacheMapGenerator_ok c ce (TrimSpace g) files cg cs gen st v1 v2 Htrim ltac:(by rewrite Enone, Hcustom) Eg Ec Hv1 Hv2 ltac:(set_solver) Hok) as Hc.
  rewrite Hc in H1c. rewrite Hc in H2c.
  rewrite lookup_insert_eq in H2c. rewrite lookup_insert_ne, lookup_insert_eq in H1c by set_solver.
  unfold fileExists. rewrite !bool_decide_eq_true_2 by eauto. cbn [andb]. eexists. split; [done|]. cbn.
  repeat split; congruence.
Qed.
End generate.

(** ** At concrete inputs *)
Module MapDemo.
#[local] Existing Instance ascii_tables.

(** Every archive holds one level that is large enough, unless it is called bad. *)
#[local] Instance demo_archives : Archives := {|
  zip_files := fun data => if String.eqb data "bad" then None
    else Some [{| ze_Name := "s/level.dat0"; ze_Content := Some (of_bytes (repeat "x"%char 51201)); ze_UncompressedSize64 := 51201 |}];
  unmarshal_mod_info := fun _ => None;
  sha1_sum := to_bytes |}.
#[local] Instance demo_durafmt : Durafmt := {| units_fail := false; durafmt_Format := fun _ => ""; durafmt_First2 := fun _ => "" |}.

Definition folders : folder_config := mkFolders "/srv" "gens" (Some "/srv/cw-a").
Definition cache : cache_env := mkCacheEnv true (fun _ => true).
Definition shared_files : file_map :=
  {["/srv/gens/rails/map-gen-settings.json" := "gen"; "/srv/gens/rails/map-settings.json" := "set"]}.
Definition config : map_config := mkMapConfig 7 "rails" "Rail-World" "" 0 false false "".
Definition sched : schedule := mkSchedule zeroTime 0 (mkInterval 0 1 0 0) 0 false zeroTime zeroTime [].
Definition saves : file_map := {["gen-00old.zip" := "old"; "mine.zip" := "mine"]}.
Definition world (files : file_map) : map_world := mkMapWorld files saves config sched [] [].

(** The game fails when it is told to use the cached copy. *)
Definition env : map_env := mkMapEnv folders cache None (Ok "/srv/cw-a/saves/.cw-map-create-1") (1000 * Second) (1000 * Second)
  (fun n _ => if (n =? 0)%nat then Some "exit status 1" else None) (fun _ _ _ => Some "PK") true None (fun _ => true).
Definition env_ok : map_env := mkMapEnv folders cache None (Ok "/srv/cw-a/saves/.cw-map-create-1") (1000 * Second) (1000 * Second)
  (fun _ _ => None) (fun _ _ _ => Some "PK") true None (fun _ => true).
Definition opens (_ : zip_entry) : bool := true.

Definition resolved : mapCreateSettings := Eval vm_compute in (resolveMapCreateSettings folders cache "rails" "" shared_files).1.
Definition cached_files : file_map := Eval vm_compute in (resolveMapCreateSettings folders cache "rails" "" shared_files).2.
Definition cache_only : file_map := Eval vm_compute in
  delete "/srv/gens/rails/map-gen-settings.json" (delete "/srv/gens/rails/map-settings.json" cached_files).

Example cached_run : (GenNewMap opens env (world cache_only)).1 = Ok "gen-00AAAAAAAAAAc.zip".
Proof. by vm_compute. Qed.

Lemma new_map_installed_or_nothing_changed_witness :
  let w' := (GenNewMap opens env_ok (world shared_files)).2 in
  (GenNewMap opens env_ok (world shared_files)).1 = Ok "gen-00AAAAAAAAAAc.zip" /\
  (exists runs content, installed env_ok (world shared_files) "gen-00AAAAAAAAAAc.zip" runs content w') /\
  mw_saves w' !! "mine.zip" = Some "mine" /\ mw_saves w' !! "gen-00old.zip" = None.
Proof.
  assert (E : (GenNewMap opens env_ok (world shared_files)).1 = Ok "gen-00AAAAAAAAAAc.zip") by (vm_compute; reflexivity).
  split; [exact E|]. split; [|split; vm_compute; reflexivity].
  destruct (new_map_installed_or_nothing_changed opens env_ok (world shared_files) (Ok "gen-00AAAAAAAAAAc.zip") (GenNewMap opens env_ok (world shared_files)).2)
    as (sName & _ & <- & runs & content & _ & Hi); [rewrite <- E; apply surjective_pairing|]. by exists runs, content.
Defined.

Lemma generator_runs_witness :
  length (mw_runs (GenNewMap opens env (world cache_only)).2) = 2%nat /\
  exists runs, mw_runs (GenNewMap opens env (world cache_only)).2 = mw_runs (world cache_only) ++ runs.
Proof.
  split; [vm_compute; reflexivity|].
  destruct (generator_runs opens env (world cache_only) _ _ (surjective_pairing (GenNewMap opens env (world cache_only)))) as (runs & Hr & _).
  by exists runs.
Defined.

Lemma cached_generator_replaces_shared_witness :
  exists s2, resolveMapCreateSettings folders cache "rails" "" cache_only = (s2, cache_only) /\ mc_usingCachedGenerator s2 = true /\
    cache_only !! mc_mapGenSettingsPath s2 = Some "gen".
Proof.
  destruct (cached_generator_replaces_shared folders cache "rails" "" shared_files
    resolved cached_files cache_only) as (s2 & Hr & Hu & _ & Hg & _).
  - reflexivity.
  - reflexivity.
  - reflexivity.
  - reflexivity.
  - reflexivity.
  - reflexivity.
  - apply (bool_decide_unpack _). vm_compute. exact I.
  - reflexivity.
  - reflexivity.
  - reflexivity.
  - exists s2. split; [exact Hr|]. split; [exact Hu|]. rewrite Hg. vm_compute. reflexivity.
Defined.

(** An archive of the day that was longer keeps its old end behind the new map. *)
Theorem archive_keeps_stale_tail :
  let a := mkArchiveEnv "2.0.1" "/srv/m.zip" "a" "Alpha" "/arch/" 0 true None in
  let w := world {["/arch/2.0 maps/a-Alpha-1970-01-01.zip" := "longer map"]} in
  (mw_generators <$> quickArchive a (Some "map") w) ≫= lookup "/arch/2.0 maps/a-Alpha-1970-01-01.zip" = Some "mapger map".
Proof. vm_compute. reflexivity. Qed.
End MapDemo.
