(* ===== verification/Sanitize.v ===== *)
(** * Cleaning of text: [src/sclean/clean.go]

    What becomes of text on its way between the game, Discord and the file system:
    runes that cannot be printed are dropped, the formatting of Discord is escaped,
    the tags of the game are removed, names of files are reduced to safe bytes.  The
    regular expressions are written out as the matchers they are.  Which runes beyond
    ASCII can be printed is a table of package [unicode]. *)
From Stdlib Require Import Ascii.
From S2P Require Import Prelude.
From S2P Require Import GoInt.
From S2P Require Import GoString.

(** [unicode.IsPrint], for the runes beyond ASCII. *)
Class PrintTable := { uni_print : Z -> bool }.

(** ** UTF-8 *)
Definition between (lo hi z : Z) : bool := (lo <=? z) && (z <=? hi).
Definition cont (c : ascii) : bool := between 128 191 (byte_val c).
Definition low6 (c : ascii) : Z := byte_val c - 128.

(** The range of the second byte, by the first. *)
Definition second_range (x : Z) : Z * Z :=
  if x =? 0xE0 then (0xA0, 0xBF) else if x =? 0xED then (0x80, 0x9F)
  else if x =? 0xF0 then (0x90, 0xBF) else if x =? 0xF4 then (0x80, 0x8F) else (0x80, 0xBF).

(** The rune at the head of the bytes and its width; [None] for an invalid byte. *)
Definition decode_rune (b : bytes) : option (Z * nat) :=
  match b with
  | [] => None
  | c0 :: b =>
      let x := byte_val c0 in
      if x <? 128 then Some (x, 1%nat)
      else
        match b with
        | [] => None
        | c1 :: b =>
            let '(lo, hi) := second_range x in
            if negb (between lo hi (byte_val c1)) then None
            else if between 0xC2 0xDF x then Some ((x - 0xC0) * 64 + low6 c1, 2%nat)
            else
              match b with
              | [] => None
              | c2 :: b =>
                  if negb (cont c2) then None
                  else if between 0xE0 0xEF x then Some (((x - 0xE0) * 64 + low6 c1) * 64 + low6 c2, 3%nat)
                  else
                    match b with
                    | [] => None
                    | c3 :: _ =>
                        if negb (cont c3) then None
                        else if between 0xF0 0xF4 x then Some ((((x - 0xF0) * 64 + low6 c1) * 64 + low6 c2) * 64 + low6 c3, 4%nat)
                        else None
                    end
              end
        end
  end.

(** ** Runes that cannot be printed *)
Section print.
Context `{PrintTable}.

(** [r == ' ' || (!unicode.IsSpace(r) && unicode.IsPrint(r))] *)
Definition keep_rune (r : Z) : bool := if r <? 128 then between 32 126 r else uni_print r.

(** [strings.ToValidUTF8] with the empty replacement, then [strings.Map]. *)
Fixpoint cleanup (fuel : nat) (b : bytes) : bytes :=
  match fuel with
  | O => []
  | S fuel =>
      match b with
      | [] => []
      | _ :: tl =>
          match decode_rune b with
          | None => cleanup fuel tl
          | Some (r, n) => (if keep_rune r then take n b else []) ++ cleanup fuel (drop n b)
          end
      end
  end.
Definition UnicodeCleanup (input : string) : string := of_bytes (cleanup (String.length input) (to_bytes input)).
End print.

(** ** Replacement *)

(** [strings.ReplaceAll] of a pattern that is not empty. *)
Fixpoint replace_go (fuel : nat) (s old new : string) : string :=
  match fuel with
  | O => s
  | S fuel =>
      match s with
      | EmptyString => EmptyString
      | String c tl => if HasPrefix s old then new +:+ replace_go fuel (string_drop (String.length old) s) old new else String c (replace_go fuel tl old new)
      end
  end.
Definition ReplaceAll (s old new : string) : string := replace_go (String.length s) s old new.

(** ... and of one byte. *)
Fixpoint replace_byte (c : ascii) (new s : string) : string :=
  match s with
  | EmptyString => EmptyString
  | String d s => (if Ascii.eqb d c then new else String d "") +:+ replace_byte c new s
  end.

(** [ReplaceAllString] of a run of the bytes outside a set by nothing. *)
Fixpoint keep_bytes (p : ascii -> bool) (s : string) : string :=
  match s with
  | EmptyString => EmptyString
  | String c s => if p c then String c (keep_bytes p s) else keep_bytes p s
  end.

Definition is_letter (c : ascii) : bool := is_lower c || is_upper c.
Definition AlphaOnly : string -> string := keep_bytes is_letter.
Definition NumOnly : string -> string := keep_bytes is_digit.
Definition AlphaNumOnly : string -> string := keep_bytes (fun c => is_letter c || is_digit c).
Definition unix_byte (c : ascii) : bool := is_letter c || is_digit c || Ascii.eqb c "-"%char || Ascii.eqb c "_"%char.
Definition UnixPreFilter : string -> string := keep_bytes unix_byte.

(** ** Length *)
Definition slice_to (str : string) (num : Z) : string := string_take (Z.to_nat num) str.
Definition TruncateStringEllipsis (str : string) (num : Z) : string :=
  if num <? slen str then let num := if 3 <? num then num - 3 else num in slice_to str num +:+ "..." else str.
Definition TruncateString (str : string) (num : Z) : string := if num <? slen str then slice_to str num else str.

Definition UnixSafeFilename `{PrintTable} (input : string) : string :=
  let input := UnicodeCleanup input in
  let input := ReplaceAll input " " "_" in
  let input := ReplaceAll input ".." "_" in
  let input := ReplaceAll input "." "_" in
  let input := UnixPreFilter input in
  let input := TrimPrefix input "." in
  let input := TrimPrefix input "." in
  let input := TrimSuffix input ".sh" in
  TruncateString input 64.

(** ** Discord *)
Definition backslash_char : ascii := ascii_of_nat 92.
Definition esc (c : ascii) : string := String backslash_char (String c "").
Definition markdown : list ascii := [backslash_char; "_"; "*"; "~"; "`"; "|"]%char.

(** One replacement after the other, the backslash first. *)
Definition EscapeDiscordMarkdown (input : string) : string :=
  fold_left (fun s c => replace_byte c (esc c) s) markdown input.

(** The runs of the three characters, and the backtick when there was one of them. *)
Definition plain_byte (c : ascii) : bool := negb (existsb (Ascii.eqb c) ["*"; "~"; "_"]%char).
Fixpoint remove_markdown (fuel : nat) (input : string) : string :=
  match fuel with
  | O => input
  | S fuel =>
      if all_bytes plain_byte input then input
      else remove_markdown fuel (keep_bytes (fun c => negb (Ascii.eqb c "`"%char)) (keep_bytes plain_byte input))
  end.
Definition RemoveDiscordMarkdown (input : string) : string := remove_markdown (S (String.length input)) input.

(** ** Tags of the game *)

(** The length of a match at the head of the text, for each expression. *)
Fixpoint upto_bracket (n : nat) (s : string) : option nat :=
  match s with
  | EmptyString => None
  | String c s => if Ascii.eqb c "]"%char then Some (S n) else upto_bracket (S n) s
  end.
Definition open_tag (name : string) (s : string) : option nat :=
  if HasPrefix s name then upto_bracket (String.length name) (string_drop (String.length name) s) else None.
Definition color_tag : string -> option nat := open_tag "[color=".
Definition font_tag : string -> option nat := open_tag "[font=".

Fixpoint tag_body (n : nat) (s : string) : option nat :=
  match s with
  | EmptyString => None
  | String c s =>
      if Ascii.eqb c "]"%char then (if (2 <? n)%nat then Some (S n) else None)
      else if Ascii.eqb c "["%char then None else tag_body (S n) s
  end.
Definition close_tag (s : string) : option nat := if HasPrefix s "[/" then tag_body 2 (string_drop 2 s) else None.

Section tags.
Variable tag : string -> option nat.

(** [ReplaceAllString] by nothing, and [MatchString]. *)
Fixpoint strip (fuel : nat) (s : string) : string :=
  match fuel with
  | O => s
  | S fuel =>
      match s with
      | EmptyString => EmptyString
      | String c tl => match tag s with Some n => strip fuel (string_drop n s) | None => String c (strip fuel tl) end
      end
  end.
Fixpoint has_match (s : string) : bool :=
  match s with
  | EmptyString => false
  | String _ tl => match tag s with Some _ => true | None => has_match tl end
  end.
Definition strip_all (s : string) : string := strip (String.length s) s.
End tags.

Fixpoint remove_colors (fuel : nat) (s : string) : string :=
  match fuel with
  | O => s
  | S fuel => if has_match color_tag s || has_match font_tag s then remove_colors fuel (strip_all font_tag (strip_all color_tag s)) else s
  end.
Fixpoint remove_closing (fuel : nat) (s : string) : string :=
  match fuel with
  | O => s
  | S fuel => if has_match close_tag s then remove_closing fuel (strip_all close_tag s) else s
  end.

Definition blank : string -> string :=
  map_bytes (fun c => if existsb (Ascii.eqb c) [ascii_of_nat 10; ascii_of_nat 13; ascii_of_nat 9] then " "%char else c).

Definition RemoveFactorioTags (input : string) : string :=
  let input := blank input in
  let input := remove_colors (S (String.length input)) input in
  remove_closing (S (String.length input)) input.
