(* ===== verification/SanitizeSafety.v ===== *)
(** * What the cleaning guarantees

    No control character survives, file names are safe, the formatting of Discord is
    escaped exactly and stays escaped when tags are removed, and the loops that remove
    tags end without a match. *)
From Stdlib Require Import Ascii.
From S2P Require Import Prelude.
From S2P Require Import GoInt.
From S2P Require Import GoString.
From S2P Require Import Sanitize.

(** ** UTF-8 *)

(** A rune is one ASCII byte or a sequence of bytes beyond it. *)
Lemma decode_rune_bytes b r n : decode_rune b = Some (r, n) ->
  (1 <= n <= length b)%nat /\
  ((exists c tl, b = c :: tl /\ n = 1%nat /\ r = byte_val c /\ r < 128) \/ Forall (fun c => 128 <= byte_val c) (take n b)).
Proof.
  destruct b as [|c0 b]; [done|]. cbn [decode_rune]. destruct (Z.ltb_spec (byte_val c0) 128) as [H0|H0].
  { intros [= <- <-]. cbn [length]. split; [lia|]. left. eauto 10. }
  unfold cont, between. destruct b as [|c1 b]; [done|].
  assert (Hs : 128 <= (second_range (byte_val c0)).1) by (unfold second_range; repeat case_match; cbn; lia).
  destruct (second_range (byte_val c0)) as [lo hi]. cbn [fst] in Hs.
  destruct (negb _) eqn:E1; [done|]. apply negb_false_iff, andb_true_iff in E1 as [E1%Z.leb_le _].
  destruct (_ && _); [intros [= <- <-]; cbn [take length]; split; [lia|right; repeat constructor; lia]|].
  destruct b as [|c2 b]; [done|]. destruct (negb _) eqn:E2; [done|]. apply negb_false_iff, andb_true_iff in E2 as [E2%Z.leb_le _].
  destruct (_ && _); [intros [= <- <-]; cbn [take length]; split; [lia|right; repeat constructor; lia]|].
  destruct b as [|c3 b]; [done|]. destruct (negb _) eqn:E3; [done|]. apply negb_false_iff, andb_true_iff in E3 as [E3%Z.leb_le _].
  destruct (_ && _); [intros [= <- <-]; cbn [take length]; split; [lia|right; repeat constructor; lia]|done].
Qed.

(** Only the bytes of the rune matter. *)
Lemma decode_rune_app b r n k : decode_rune b = Some (r, n) -> decode_rune (take n b ++ k) = Some (r, n).
Proof.
  destruct b as [|c0 b]; [done|]. cbn [decode_rune]. destruct (byte_val c0 <? 128) eqn:E0.
  { intros [= <- <-]. cbn. by rewrite E0. }
  destruct b as [|c1 b]; [done|]. destruct (second_range (byte_val c0)) as [lo hi] eqn:Es.
  destruct (negb (between lo hi _)) eqn:E1; [done|]. destruct (between 194 _ _) eqn:F1.
  { intros [= <- <-]. cbn [take app decode_rune]. by rewrite E0, Es, E1, F1. }
  destruct b as [|c2 b]; [done|]. destruct (negb (cont c2)) eqn:E2; [done|]. destruct (between 224 _ _) eqn:F2.
  { intros [= <- <-]. cbn [take app decode_rune]. by rewrite E0, Es, E1, F1, E2, F2. }
  destruct b as [|c3 b]; [done|]. destruct (negb (cont c3)) eqn:E3; [done|]. destruct (between 240 _ _) eqn:F3; [|done].
  intros [= <- <-]. cbn [take app decode_rune]. by rewrite E0, Es, E1, F1, E2, F2, E3, F3.
Qed.

Section print.
Context `{PrintTable}.

Definition printable (c : ascii) : Prop := 128 <= byte_val c \/ 32 <= byte_val c <= 126.

Lemma cleanup_printable fuel b : Forall printable (cleanup fuel b).
Proof.
  revert b. induction fuel as [|fuel IH]; intros b; [constructor|]. cbn [cleanup]. destruct b as [|c b]; [constructor|].
  destruct (decode_rune (c :: b)) as [[r n]|] eqn:E; [|apply IH]. apply Forall_app. split; [|apply IH].
  destruct (keep_rune r) eqn:Ek; [|constructor]. apply decode_rune_bytes in E as [Hn [(c' & tl & [= <- <-] & -> & -> & Hr)|Hf]].
  - cbn. constructor; [|constructor]. right. unfold keep_rune in Ek. destruct (Z.ltb_spec (byte_val c) 128); [|lia].
    apply andb_true_iff in Ek. unfold between in Ek. lia.
  - eapply Forall_impl; [exact Hf|]. intros x Hx. by left.
Qed.

Lemma cleanup_idem fuel b m : (length b <= fuel)%nat -> (length (cleanup fuel b) <= m)%nat -> cleanup m (cleanup fuel b) = cleanup fuel b.
Proof.
  revert b m. induction fuel as [|fuel IH]; intros b m Hl; [by destruct m|]. cbn [cleanup]. destruct b as [|c b]; [by destruct m|].
  destruct (decode_rune (c :: b)) as [[r n]|] eqn:E; cbn [length] in Hl; [|intros Hm; apply IH; [lia|done]].
  pose proof (decode_rune_bytes _ _ _ E) as [Hn _].
  assert (Hd : (length (drop n (c :: b)) <= fuel)%nat) by (rewrite length_drop; cbn [length] in *; lia).
  destruct (keep_rune r) eqn:Ek; [|intros Hm; by apply IH]. intros Hm. rewrite length_app, length_take_le in Hm by lia.
  destruct m as [|m]; [lia|]. cbn [cleanup].
  pose proof (decode_rune_app _ _ _ (cleanup fuel (drop n (c :: b))) E) as Ed.
  destruct (take n (c :: b) ++ cleanup fuel (drop n (c :: b))) as [|x l] eqn:El; [done|]. rewrite Ed, Ek.
  rewrite <- El. rewrite take_app_length', drop_app_length' by (rewrite length_take_le; lia). f_equal. apply IH; [done|lia].
Qed.

(** (safety) whatever a line holds, what is left of it has no line feed, no other control
    character and no delete character, and cleaning it again changes nothing. *)
Theorem cleaned_text_is_printable input :
  Forall printable (to_bytes (UnicodeCleanup input)) /\ UnicodeCleanup (UnicodeCleanup input) = UnicodeCleanup input.
Proof.
  assert (Hlen : forall s, String.length s = length (to_bytes s)).
  { intros s. pose proof (length_to_bytes s). unfold slen in *. lia. }
  unfold UnicodeCleanup at 1 3 4. split; [rewrite to_of_bytes; apply cleanup_printable|].
  unfold UnicodeCleanup. rewrite to_of_bytes. f_equal. rewrite !Hlen, to_of_bytes. by apply cleanup_idem.
Qed.
End print.

(** ** Kept bytes *)
Lemma keep_bytes_all p s : all_bytes p (keep_bytes p s) = true.
Proof. induction s as [|c s IH]; [done|]. cbn [keep_bytes]. destruct (p c) eqn:E; [cbn [all_bytes]; by rewrite E, IH|done]. Qed.
Lemma keep_bytes_id p s : all_bytes p s = true -> keep_bytes p s = s.
Proof. induction s as [|c s IH]; [done|]. cbn. intros [Hc Hs]%andb_true_iff. by rewrite Hc, IH. Qed.
Lemma keep_bytes_length p s : (String.length (keep_bytes p s) <= String.length s)%nat.
Proof. induction s as [|c s IH]; [done|]. cbn [keep_bytes String.length]. destruct (p c); cbn [String.length]; lia. Qed.
Lemma keep_bytes_keeps p q s : all_bytes q s = true -> all_bytes q (keep_bytes p s) = true.
Proof. induction s as [|c s IH]; [done|]. cbn. intros [Hc Hs]%andb_true_iff. destruct (p c); [cbn; by rewrite Hc, IH|by apply IH]. Qed.

Lemma all_bytes_append p s t : all_bytes p (s +:+ t) = all_bytes p s && all_bytes p t.
Proof. induction s as [|c s IH]; [done|]. change (String c s +:+ t) with (String c (s +:+ t)). cbn [all_bytes]. by rewrite IH, andb_assoc. Qed.
Lemma all_bytes_take p n s : all_bytes p s = true -> all_bytes p (string_take n s) = true.
Proof.
  intros Hs. pose proof (all_bytes_append p (string_take n s) (string_drop n s)) as Ha. rewrite string_take_drop, Hs in Ha.
  symmetry in Ha. apply andb_true_iff in Ha. tauto.
Qed.
Lemma all_bytes_drop p n s : all_bytes p s = true -> all_bytes p (string_drop n s) = true.
Proof.
  intros Hs. pose proof (all_bytes_append p (string_take n s) (string_drop n s)) as Ha. rewrite string_take_drop, Hs in Ha.
  symmetry in Ha. apply andb_true_iff in Ha. tauto.
Qed.

Lemma take_length_le n s : (String.length (string_take n s) <= n)%nat.
Proof. revert n. induction s as [|c s IH]; intros [|n]; cbn; try lia. specialize (IH n). lia. Qed.

(** A byte that is kept, at the head of the name: the prefix of a dot is never there. *)
Lemma TrimPrefix_keeps p s t : all_bytes p s = true -> all_bytes p (TrimPrefix s t) = true.
Proof. intros Hs. unfold TrimPrefix. case_match; [by apply all_bytes_drop|done]. Qed.
Lemma TrimSuffix_keeps p s t : all_bytes p s = true -> all_bytes p (TrimSuffix s t) = true.
Proof. intros Hs. unfold TrimSuffix. case_match; [by apply all_bytes_take|done]. Qed.

(** (safety) a name made safe for the file system has at most 64 bytes, each a letter, a
    digit, a hyphen or an underscore; so it is no path and has no extension. *)
Theorem safe_filename_is_safe `{PrintTable} input :
  all_bytes unix_byte (UnixSafeFilename input) = true /\ slen (UnixSafeFilename input) <= 64.
Proof.
  unfold UnixSafeFilename. cbn zeta. set (name := TrimSuffix _ _).
  assert (Hn : all_bytes unix_byte name = true).
  { apply TrimSuffix_keeps, TrimPrefix_keeps, TrimPrefix_keeps, keep_bytes_all. }
  clearbody name. unfold TruncateString. destruct (Z.ltb_spec 64 (slen name)) as [Hl|Hl]; [|done].
  split; [by apply all_bytes_take|]. unfold slice_to, slen. pose proof (take_length_le (Z.to_nat 64) name). lia.
Qed.

(** ** Discord's formatting *)
Definition is_special (c : ascii) : bool := existsb (Ascii.eqb c) markdown.

(** One pass, and its inverse. *)
Fixpoint escape_once (s : string) : string :=
  match s with
  | EmptyString => EmptyString
  | String c s => (if is_special c then esc c else String c "") +:+ escape_once s
  end.
Fixpoint unescape (s : string) : string :=
  match s with
  | String c (String d t as s') => if Ascii.eqb c backslash_char then String d (unescape t) else String c (unescape s')
  | _ => s
  end.

Lemma replace_byte_app c new s t : replace_byte c new (s +:+ t) = replace_byte c new s +:+ replace_byte c new t.
Proof. induction s as [|d s IH]; [done|]. change (String d s +:+ t) with (String d (s +:+ t)). cbn [replace_byte]. by rewrite IH, string_app_assoc. Qed.

Lemma fold_replace_app l s t :
  fold_left (fun s c => replace_byte c (esc c) s) l (s +:+ t) =
  fold_left (fun s c => replace_byte c (esc c) s) l s +:+ fold_left (fun s c => replace_byte c (esc c) s) l t.
Proof. revert s t. induction l as [|c l IH]; intros s t; [done|]. cbn [fold_left]. by rewrite replace_byte_app, IH. Qed.

Lemma escape_byte c : EscapeDiscordMarkdown (String c "") = if is_special c then esc c else String c "".
Proof.
  apply String.eqb_eq. revert c. apply byte_cases. by vm_compute.
Qed.

(** The six replacements, one after the other, are one pass over the text. *)
Lemma escape_is_one_pass s : EscapeDiscordMarkdown s = escape_once s.
Proof.
  induction s as [|c s IH]; [by vm_compute|]. cbn [escape_once]. rewrite <- escape_byte, <- IH.
  apply (fold_replace_app markdown (String c "") s).
Qed.

(** Every special byte behind a backslash, every backslash in front of a special byte;
    [open] when the byte before was such a backslash. *)
Fixpoint escaped (open : bool) (s : string) : bool :=
  match s with
  | EmptyString => negb open
  | String c s =>
      if open then is_special c && escaped false s
      else if Ascii.eqb c backslash_char then escaped true s
      else negb (is_special c) && escaped false s
  end.

Lemma backslash_special c : Ascii.eqb c backslash_char = true -> is_special c = true.
Proof. intros ->%Ascii.eqb_eq. by vm_compute. Qed.

Lemma escape_escaped s : escaped false (escape_once s) = true.
Proof.
  induction s as [|c s IH]; [done|]. cbn [escape_once]. destruct (is_special c) eqn:E.
  - change (esc c +:+ escape_once s) with (String backslash_char (String c (escape_once s))). cbn [escaped].
    rewrite Ascii.eqb_refl, E. exact IH.
  - change (String c "" +:+ escape_once s) with (String c (escape_once s)). cbn [escaped].
    destruct (Ascii.eqb c backslash_char) eqn:Eb; [by rewrite (backslash_special _ Eb) in E|]. by rewrite E, IH.
Qed.

Lemma escaped_text_is_escaped s : escaped false (EscapeDiscordMarkdown s) = true.
Proof. rewrite escape_is_one_pass. apply escape_escaped. Qed.

(** (roundtrip) the escaping loses nothing: reading the escaped text the way Discord does
    gives the text back, so no character of it formats anything. *)
Theorem escaped_text_reads_back s :
  escaped false (EscapeDiscordMarkdown s) = true /\ unescape (EscapeDiscordMarkdown s) = s.
Proof.
  rewrite escape_is_one_pass. split; [apply escape_escaped|].
  induction s as [|c s IH]; [done|]. cbn [escape_once]. destruct (is_special c) eqn:E.
  - change (esc c +:+ escape_once s) with (String backslash_char (String c (escape_once s))). cbn [unescape].
    by rewrite Ascii.eqb_refl, IH.
  - change (String c "" +:+ escape_once s) with (String c (escape_once s)).
    assert (Eb : Ascii.eqb c backslash_char = false) by (apply not_true_iff_false; intros Hb; by rewrite (backslash_special _ Hb) in E).
    cbn [unescape]. rewrite Eb. destruct (escape_once s) as [|d t] eqn:Es; [by rewrite <- IH|]. by rewrite IH.
Qed.

(** ** Tags *)

(** A match starts with an opening bracket and ends with the closing one. *)
Definition bracketed (tag : string -> option nat) : Prop := forall s n, tag s = Some n ->
  exists t, s = String "["%char (t +:+ String "]"%char (string_drop n s)).

Lemma upto_bracket_spec k s n : upto_bracket k s = Some n ->
  exists t, s = t +:+ String "]"%char (string_drop (S (String.length t)) s) /\ n = (k + S (String.length t))%nat.
Proof.
  revert k. induction s as [|c s IH]; intros k; [done|]. cbn [upto_bracket]. destruct (Ascii.eqb_spec c "]"%char) as [->|Hc].
  - intros [= <-]. exists "". split; [by destruct s|cbn; lia].
  - intros (t & Ht & ->)%IH. exists (String c t). split; [|cbn; lia]. cbn [String.length string_drop]. by rewrite Ht at 1.
Qed.

Lemma tag_body_spec k s n : tag_body k s = Some n ->
  exists t, s = t +:+ String "]"%char (string_drop (S (String.length t)) s) /\ n = (k + S (String.length t))%nat.
Proof.
  revert k. induction s as [|c s IH]; intros k; [done|]. cbn [tag_body]. destruct (Ascii.eqb_spec c "]"%char) as [->|Hc].
  - case_match; [|done]. intros [= <-]. exists "". split; [by destruct s|cbn; lia].
  - case_match; [done|]. intros (t & Ht & ->)%IH. exists (String c t). split; [|cbn; lia]. cbn [String.length string_drop]. by rewrite Ht at 1.
Qed.

Lemma string_drop_drop n m s : string_drop n (string_drop m s) = string_drop (m + n) s.
Proof. revert s. induction m as [|m IH]; intros s; [done|]. destruct s as [|c s]; cbn; [by destruct n|apply IH]. Qed.

Lemma bracketed_from name b s n t :
  s = String "["%char b +:+ string_drop (String.length name) s -> name = String "["%char b ->
  string_drop (String.length name) s = t +:+ String "]"%char (string_drop (S (String.length t)) (string_drop (String.length name) s)) ->
  n = (String.length name + S (String.length t))%nat ->
  exists t', s = String "["%char (t' +:+ String "]"%char (string_drop n s)).
Proof.
  intros Hs Hname Ht ->. exists (b +:+ t). rewrite <- string_drop_drop, string_app_assoc, <- Ht. exact Hs.
Qed.

Lemma open_tag_bracketed b : bracketed (open_tag (String "["%char b)).
Proof.
  intros s n. unfold open_tag. destruct (HasPrefix s _) eqn:Ep; [|done]. apply HasPrefix_spec in Ep as [u Hu].
  intros (t & Ht & Hn)%upto_bracket_spec. eapply (bracketed_from (String "["%char b) b); [|done|exact Ht|exact Hn].
  rewrite Hu at 1. f_equal. rewrite Hu. symmetry. apply string_drop_app.
Qed.
Lemma close_tag_bracketed : bracketed close_tag.
Proof.
  intros s n. unfold close_tag. destruct (HasPrefix s _) eqn:Ep; [|done]. apply HasPrefix_spec in Ep as [u Hu].
  intros (t & Ht & Hn)%tag_body_spec. eapply (bracketed_from "[/" "/"); [|done|exact Ht|exact Hn].
  rewrite Hu at 1. f_equal. rewrite Hu. symmetry. apply (string_drop_app "[/").
Qed.

Section tag.
Variable tag : string -> option nat.
Hypothesis tag_ok : bracketed tag.

Lemma drop_length n s : (String.length (string_drop n s) <= String.length s)%nat.
Proof. revert n. induction s as [|c s IH]; intros [|n]; cbn; try lia. specialize (IH n). lia. Qed.

Lemma tag_shorter s n : tag s = Some n -> (String.length (string_drop n s) < String.length s)%nat.
Proof. intros (t & Ht)%tag_ok. rewrite Ht at 2. cbn. rewrite string_length_app. cbn. lia. Qed.

Lemma escaped_after o t rest : escaped o (t +:+ String "]"%char rest) = true -> escaped false rest = true.
Proof.
  revert o. induction t as [|c t IH]; intros o.
  - change ("" +:+ String "]"%char rest) with (String "]"%char rest). destruct o; [by vm_compute|]. exact (fun H => H).
  - change (String c t +:+ String "]"%char rest) with (String c (t +:+ String "]"%char rest)). cbn [escaped].
    destruct o; [by intros [_ H%IH]%andb_true_iff|]. destruct (Ascii.eqb c backslash_char); [apply IH|]. by intros [_ H%IH]%andb_true_iff.
Qed.

Lemma strip_escaped fuel o s : escaped o s = true -> escaped o (strip tag fuel s) = true.
Proof.
  revert o s. induction fuel as [|fuel IH]; intros o s Hs; [done|]. cbn [strip]. destruct s as [|c s]; [done|].
  destruct (tag (String c s)) as [n|] eqn:Et.
  - pose proof (tag_ok _ _ Et) as [t Ht]. set (rest := string_drop n (String c s)) in *. clearbody rest. rewrite Ht in Hs.
    destruct o; [by vm_compute in Hs|]. apply IH. by apply (escaped_after false t).
  - cbn [escaped] in Hs |- *. destruct o.
    + apply andb_true_iff in Hs as [Hc Hs]. by rewrite Hc, IH.
    + destruct (Ascii.eqb c backslash_char); [by apply IH|]. apply andb_true_iff in Hs as [Hc Hs]. by rewrite Hc, IH.
Qed.

Lemma strip_none fuel s : has_match tag s = false -> strip tag fuel s = s.
Proof.
  revert s. induction fuel as [|fuel IH]; intros s Hm; [done|]. destruct s as [|c s]; [done|]. cbn [strip has_match] in *.
  destruct (tag (String c s)); [done|]. by rewrite IH.
Qed.

Lemma strip_length fuel s : (String.length (strip tag fuel s) <= String.length s)%nat.
Proof.
  revert s. induction fuel as [|fuel IH]; intros s; [done|]. cbn [strip]. destruct s as [|c s]; [done|].
  destruct (tag (String c s)) as [n|] eqn:Et; [|cbn; specialize (IH s); lia].
  etrans; [apply IH|]. apply drop_length.
Qed.

Lemma strip_shorter fuel s : (String.length s <= fuel)%nat -> has_match tag s = true -> (String.length (strip tag fuel s) < String.length s)%nat.
Proof.
  revert s. induction fuel as [|fuel IH]; intros s Hl Hm; [destruct s; [done|cbn in Hl; lia]|]. destruct s as [|c s]; [done|].
  cbn [strip has_match String.length] in *. destruct (tag (String c s)) as [n|] eqn:Et.
  - eapply Nat.le_lt_trans; [apply strip_length|]. by apply tag_shorter.
  - cbn [String.length]. specialize (IH s ltac:(lia) Hm). lia.
Qed.
End tag.

Lemma remove_colors_ends fuel s : (String.length s < fuel)%nat ->
  has_match color_tag (remove_colors fuel s) = false /\ has_match font_tag (remove_colors fuel s) = false.
Proof.
  revert s. induction fuel as [|fuel IH]; intros s Hl; [lia|]. cbn [remove_colors].
  destruct (_ || _) eqn:E; [|by apply orb_false_iff in E]. apply IH.
  pose proof (strip_length font_tag (String.length (strip_all color_tag s)) (strip_all color_tag s)) as Hf.
  pose proof (strip_length color_tag (String.length s) s) as Hc. fold (strip_all color_tag s) in Hc.
  fold (strip_all font_tag (strip_all color_tag s)) in Hf.
  destruct (has_match color_tag s) eqn:Ec.
  - pose proof (strip_shorter color_tag (open_tag_bracketed "color=") (String.length s) s (le_n _) Ec) as Hlt.
    fold (strip_all color_tag s) in Hlt. lia.
  - assert (Hs : strip_all color_tag s = s) by (by apply strip_none). rewrite Hs in *.
    pose proof (strip_shorter font_tag (open_tag_bracketed "font=") (String.length s) s (le_n _) E) as Hlt.
    fold (strip_all font_tag s) in Hlt. lia.
Qed.

Lemma remove_closing_ends fuel s : (String.length s < fuel)%nat -> has_match close_tag (remove_closing fuel s) = false.
Proof.
  revert s. induction fuel as [|fuel IH]; intros s Hl; [lia|]. cbn [remove_closing]. destruct (has_match close_tag s) eqn:E; [|done]. apply IH.
  pose proof (strip_shorter close_tag close_tag_bracketed (String.length s) s (le_n _) E) as Hlt.
  fold (strip_all close_tag s) in Hlt. lia.
Qed.

Lemma remove_colors_escaped fuel s : escaped false s = true -> escaped false (remove_colors fuel s) = true.
Proof.
  revert s. induction fuel as [|fuel IH]; intros s Hs; [done|]. cbn [remove_colors]. case_match; [|done]. apply IH.
  apply (strip_escaped _ (open_tag_bracketed "font=")), (strip_escaped _ (open_tag_bracketed "color=")), Hs.
Qed.
Lemma remove_closing_escaped fuel s : escaped false s = true -> escaped false (remove_closing fuel s) = true.
Proof.
  revert s. induction fuel as [|fuel IH]; intros s Hs; [done|]. cbn [remove_closing]. case_match; [|done]. apply IH.
  apply (strip_escaped _ close_tag_bracketed), Hs.
Qed.

Definition blank_byte (c : ascii) : ascii := if existsb (Ascii.eqb c) [ascii_of_nat 10; ascii_of_nat 13; ascii_of_nat 9] then " "%char else c.
Lemma blank_byte_special c : is_special (blank_byte c) = is_special c /\ Ascii.eqb (blank_byte c) backslash_char = Ascii.eqb c backslash_char.
Proof.
  enough (Bool.eqb (is_special (blank_byte c)) (is_special c) && Bool.eqb (Ascii.eqb (blank_byte c) backslash_char) (Ascii.eqb c backslash_char) = true) as Hc.
  { apply andb_true_iff in Hc as [?%Bool.eqb_prop ?%Bool.eqb_prop]. done. }
  revert c. apply byte_cases. by vm_compute.
Qed.
Lemma blank_escaped o s : escaped o (blank s) = escaped o s.
Proof.
  revert o. induction s as [|c s IH]; intros o; [done|]. change (blank (String c s)) with (String (blank_byte c) (blank s)).
  cbn [escaped]. destruct (blank_byte_special c) as [-> ->]. by rewrite !IH.
Qed.

(** (termination) the loops that remove the tags of the game end: the fuel of the model is
    enough for every text, no closing tag is left, and a text that was escaped for
    Discord stays escaped. *)
Theorem tags_are_removed s :
  has_match close_tag (RemoveFactorioTags s) = false /\
  (forall fuel, let t := blank s in (String.length t < fuel)%nat ->
    has_match color_tag (remove_colors fuel t) = false /\ has_match font_tag (remove_colors fuel t) = false) /\
  escaped false (RemoveFactorioTags (EscapeDiscordMarkdown s)) = true.
Proof.
  unfold RemoveFactorioTags. cbn zeta. split; [apply remove_closing_ends; lia|]. split; [intros fuel Hf; by apply remove_colors_ends|].
  apply remove_closing_escaped, remove_colors_escaped. rewrite blank_escaped. apply escaped_text_is_escaped.
Qed.

(** A closing tag inside an opening one: what is left is a tag that sets the color. *)
Theorem nested_tag_survives : RemoveFactorioTags "[col[/x]or=red]hello" = "[color=red]hello".
Proof. vm_compute. reflexivity. Qed.

(** A backtick alone is not removed, unlike next to other formatting. *)
Theorem lone_backtick_survives : RemoveDiscordMarkdown "`code`" = "`code`" /\ RemoveDiscordMarkdown "`code`*" = "code".
Proof. vm_compute. done. Qed.

Lemma remove_markdown_done fuel s : all_bytes plain_byte (remove_markdown (S (S fuel)) s) = true.
Proof.
  cbn [remove_markdown]. destruct (all_bytes plain_byte s) eqn:E; [done|]. set (t := keep_bytes _ (keep_bytes plain_byte s)).
  assert (Ht : all_bytes plain_byte t = true) by (apply keep_bytes_keeps, keep_bytes_all). by rewrite Ht.
Qed.

(** Two rounds of the loop are enough. *)
Theorem markdown_is_removed s : s <> "" -> all_bytes plain_byte (RemoveDiscordMarkdown s) = true.
Proof. intros Hs. unfold RemoveDiscordMarkdown. destruct s as [|c s]; [done|]. apply remove_markdown_done. Qed.

Lemma markdown_is_removed_witness : RemoveDiscordMarkdown "**bold**" = "bold" /\ all_bytes plain_byte (RemoveDiscordMarkdown "**bold**") = true.
Proof. split; [vm_compute; reflexivity|]. apply (markdown_is_removed "**bold**"). discriminate. Defined.
