(* ===== verification/OutputLine.v ===== *)
(** * Lines of the game: [src/support/pipeParse.go]

    One line the game prints, taken apart; what the handlers read and change; and the
    monad they run in: a handler says whether it took the line, or it panics, or it
    waits for a lock that is never released.  Lines of the log are recorded only where
    they go to the game log, which players see. *)
From Stdlib Require Import Ascii.
From S2P Require Import Prelude.
From S2P Require Import GoInt.
From S2P Require Import GoString.
From S2P Require Import GoTime.
From S2P Require Import Glob.
From S2P Require Import PlayerCodec.
From S2P Require Import PlayerDB.

(** ** A line *)
Definition Unknown_text : string := "Unknown".

(** The lengths the code keeps next to the lists are their lengths. *)
Record handleData := mkLine {
  hd_generation : Z; hd_line : string; hd_lowerLine : string; hd_noTimecode : string; hd_noDatestamp : string;
  hd_wordList : list string; hd_lowerWordList : list string; hd_noTimecodeList : list string;
  hd_noDatestampList : list string; hd_trimmedWords : list string }.
#[export] Instance handleData_settable : Settable handleData := mkSettable (fun r =>
  mkLine (hd_generation r) (hd_line r) (hd_lowerLine r) (hd_noTimecode r) (hd_noDatestamp r)
    (hd_wordList r) (hd_lowerWordList r) (hd_noTimecodeList r) (hd_noDatestampList r) (hd_trimmedWords r)).

Definition space : ascii := " "%char.

(** [strings.TrimLeft(line, " ")] *)
Fixpoint TrimLeft_space (s : string) : string :=
  match s with
  | String c tl => if Ascii.eqb c space then TrimLeft_space tl else s
  | EmptyString => s
  end.

Definition preProcessFactorioOutput `{UnicodeTables} (line : string) : handleData :=
  let trimmedWords := Split (TrimLeft_space line) space in
  let noTimecode := if (1 <? length trimmedWords)%nat then Join (drop 1 trimmedWords) " " else Unknown_text in
  let noDatestamp := if (2 <? length trimmedWords)%nat then Join (drop 2 trimmedWords) " " else Unknown_text in
  mkLine 0 line (ToLower line) noTimecode noDatestamp
    (Split line space) (Split (ToLower line) space) (Split noTimecode space) (Split noDatestamp space) trimmedWords.

(** ** What the handlers do *)
Inductive channel := ChatChannel | ReportChannel.
#[export] Instance channel_eq_dec : EqDecision channel.
Proof. solve_decision. Defined.

Inductive out_effect :=
  | LogGame (text : string)
  | CMS (ch : channel) (text : string)
  | ChatEmbed (author text : string)              (* in the chat channel *)
  | LogCMS (ch : channel) (text : string)
  | LogGameCMS (game : bool) (ch : channel) (text : string)
  | FactChat (text : string)
  | FactWhisper (name text : string)
  | ReportStatus (text : string)
  | RequestOnlinePlayers
  | UpdateChannelName
  | DoUpdateChannelNameForce
  | UpdateDuration
  | SoftModSpeed (speed : Z)                       (* the bits of the [float32] *)
  | SoftModSupporter (name : string) (nitro : bool)
  | AddRole (id role : string)
  | SetAutolaunch (on : bool)
  | NotifyFactorioGoodbye (generation : Z)
  | NotifyFactorioReady (generation : Z)
  | NotifyFactorioProgress (generation : Z) (phase detail : string)
  | RequestFactorioStatus
  | SoftModDetected (generation : Z)
  | ConfigSoftMod
  | RecordGameTick (tick : Z) (speed : string) (paused : bool)
  | AnnounceMapPreview (exchange : string)
  | LogAudit (text : string)
  | AddModHistory (name notes : string)
  | RestartWhenEmpty (reason : string)
  | RemoveFile (path : string)
  | CopyFile (src dst : string)
  | WriteLCfg.
#[export] Instance out_effect_eq_dec : EqDecision out_effect.
Proof. solve_decision. Defined.

(** Who is online, as the soft mod reports it. *)
Record OnlinePlayerData := mkOnline { op_Name : string; op_ScoreTicks : Z; op_TimeTicks : Z; op_Level : Z; op_AFK : string }.

(** A registration code: who may use it, and when it was made ([src/glob/struct.go]). *)
Record PassData := mkPass { pw_Code : string; pw_DiscID : string; pw_Time : Z }.

(** What the handlers share and change.  [chatterLocked] and [passwordLocked]: the lock
    was left held by a handler that has returned. *)
Record out_world := mkOut {
  ow_db : playerdb;
  ow_out : list out_effect;
  ow_ChatterList : gmap string time; ow_ChatterSpamScore : gmap string Z; chatterLocked : bool;
  ow_PassList : gmap string PassData; passwordLocked : bool;
  ow_NumPlayers : Z; ow_OnlinePlayers : list OnlinePlayerData;
  ow_PausedForConnect : bool; ow_PausedFor : string; ow_PausedConnectAttempt : bool;
  lastConnectTime : time; lastConnector : string;
  ow_LastSusWarning : time; ow_LastCrashReport : time;
  ow_GameMapName : string; ow_GameMapPath : string; ow_LastSaveName : string; ow_LastSaveBackup : Z;
  ow_Scenario : string; ow_FactorioVersion : string; ow_PausedTicks : Z; ow_SoftModVersion : string; ow_NoResponseCount : Z }.
#[export] Instance out_world_settable : Settable out_world := mkSettable (fun r =>
  mkOut (ow_db r) (ow_out r) (ow_ChatterList r) (ow_ChatterSpamScore r) (chatterLocked r) (ow_PassList r) (passwordLocked r)
    (ow_NumPlayers r) (ow_OnlinePlayers r) (ow_PausedForConnect r) (ow_PausedFor r) (ow_PausedConnectAttempt r)
    (lastConnectTime r) (lastConnector r) (ow_LastSusWarning r) (ow_LastCrashReport r)
    (ow_GameMapName r) (ow_GameMapPath r) (ow_LastSaveName r) (ow_LastSaveBackup r) (ow_Scenario r) (ow_FactorioVersion r) (ow_PausedTicks r) (ow_SoftModVersion r) (ow_NoResponseCount r)).

(** What they read: the game and the settings, the clock in [g_now oe_game]. *)
Record out_env := mkOutEnv {
  oe_game : game; oe_gametime : string; oe_bootedAt : time;
  oe_DisableSpamProtect : bool; oe_ShutupSusWarn : bool; oe_HideAutosaves : bool; oe_HideResearch : bool;
  oe_Callsign : string; oe_Name : string; oe_GroupName : string; oe_PrimaryServer : string;
  oe_ChatChannelID : string; oe_GameLogURL : string; oe_BanishPingRole : string; oe_SusPingRole : string;
  oe_SavesFolder : string; oe_Port : Z; oe_Speed : Z }.

(** ** The monad *)
Inductive ran (A : Type) := Done (a : A) (w : out_world) | Panic | Blocked.
Arguments Done {A}. Arguments Panic {A}. Arguments Blocked {A}.

Definition H (A : Type) : Type := out_world -> ran A.
#[export] Instance H_ret : MRet H := fun A a w => Done a w.
#[export] Instance H_bind : MBind H := fun A B f m w =>
  match m w with Done a w => f a w | Panic => Panic | Blocked => Blocked end.

Definition panic {A} : H A := fun _ => Panic.
Definition blocked {A} : H A := fun _ => Blocked.
Definition get {A} (f : out_world -> A) : H A := fun w => Done (f w) w.
Definition modify (f : out_world -> out_world) : H () := fun w => Done tt (f w).
Definition say (e : out_effect) : H () := modify (fun w => w <| ow_out ::= fun l => l ++ [e] |>).
(** [SoftModVersion != Unknown] *)
Definition softmod : H bool := get (fun w => negb (bool_decide (ow_SoftModVersion w = Unknown_text))).
Definition on_db {A} (f : playerdb -> A * playerdb) : H A := fun w =>
  let '(a, d) := f (ow_db w) in Done a (w <| ow_db := d |>).
Definition on_db_ (f : playerdb -> playerdb) : H () := on_db (fun d => (tt, f d)).

(** [l[i]] *)
Definition index {A} (l : list A) (i : nat) : H A := match l !! i with Some x => mret x | None => panic end.

Declare Scope handler_scope.
Notation "m1 ;; m2" := (mbind (M := H) (fun _ => m2) m1) (at level 100, right associativity) : handler_scope.
Open Scope handler_scope.

(** ** The handlers in order *)
Definition handler : Type := handleData -> H bool.

Fixpoint runHandles (handles : list handler) (input : handleData) : H () :=
  match handles with
  | [] => mret tt
  | h :: handles => b ← h input; if (b : bool) then mret tt else runHandles handles input
  end.
