(* ===== verification/OutputChat.v ===== *)
(** * Chat of the game: [src/support/pipeHandle_chat.go], [src/support/pipeHandle_softmod.go]

    A line of chat is scored for flooding, searched for slurs, cleaned and relayed to
    Discord.  The lock around the scores is a flag of the world: a handler that returns
    without releasing it leaves it set, and the next one waits forever. *)
From Stdlib Require Import Ascii.
From S2P Require Import Prelude.
From S2P Require Import GoInt.
From S2P Require Import GoString.
From S2P Require Import GoTime.
From S2P Require Import Glob.
From S2P Require Import PlayerCodec.
From S2P Require Import PlayerDB.
From S2P Require Import Moderation.
From S2P Require Import Sanitize.
From S2P Require Import OutputLine.

Definition SpamScoreLimit : Z := 30.
Definition SpamScoreWarning : Z := 15.
Definition Millisecond_500 : duration := Second / 2.
Definition SpamSlowThres : duration := 2 * Second.
Definition SpamFastThres : duration := Millisecond_500.
Definition SpamCoolThres : duration := 6 * Second.
Definition SpamResetThres : duration := 15 * Second.

Definition slurList : list string :=
  (fun l => of_bytes (byte_of <$> l)) <$> [[110; 105; 103; 103; 101; 114]; [102; 97; 103; 103; 111; 116]; [107; 105; 107; 101]; [107; 121; 107; 101]].

Section chat.
Context `{UnicodeTables, PrintTable}.
Variable env : out_env.
Variable NameFromID : string -> string.     (* the members of the Discord guild *)

Definition now : time := g_now (oe_game env).

(** [fact.WriteBanBy] *)
Definition WriteBanBy (name reason banBy : string) (d : playerdb) : playerdb :=
  doBan name (name +:+ " " +:+ reason +:+ " -- " +:+ banBy +:+ " " +:+ g_date (oe_game env) +:+ " " +:+ oe_GameLogURL env) d.

Definition slur_word (word : string) : bool := existsb (fun slur => HasPrefix word slur || HasSuffix word slur) slurList.

Definition slurFilter (name : string) (input : handleData) : H bool :=
  if existsb slur_word (hd_lowerWordList input)
  then on_db_ (WriteBanBy name "Use of extreme slurs" "[Auto-Ban]") ;; mret true
  else mret false.

(** The score of a player and the time it was last looked at. *)
Record chatter := mkChatter { ct_last : time; ct_score : Z }.

Definition cool_down (now : time) (c : chatter) : chatter :=
  if SpamResetThres <? Sub now (ct_last c) then mkChatter now 0
  else if SpamCoolThres <? Sub now (ct_last c) then mkChatter now (if 0 <? ct_score c then ct_score c - 1 else ct_score c)
  else c.
Definition add_points (now : time) (c : chatter) : chatter :=
  if Sub now (ct_last c) <? SpamSlowThres then mkChatter now (ct_score c + 1)
  else if Sub now (ct_last c) <? SpamFastThres then mkChatter now (ct_score c + 2)
  else c.

Definition chatter_of (pname : string) (w : out_world) : chatter :=
  mkChatter (default zeroTime (ow_ChatterList w !! pname)) (default 0 (ow_ChatterSpamScore w !! pname)).
Definition set_score (pname : string) (score : Z) : H () := modify (fun w => w <| ow_ChatterSpamScore ::= <[pname := score]> |>).
Definition set_chatter (pname : string) (c : chatter) : H () :=
  modify (fun w => w <| ow_ChatterList ::= <[pname := ct_last c]> |>) ;; set_score pname (ct_score c).

(** [glob.PlayerList[pname]]: the name as the game printed it. *)
Definition mark_banned (pname : string) : H () :=
  on_db_ (with_player pname (fun p => p <| pd_AlreadyBanned := true |>)).

Definition score_line (pname : string) (input : handleData) : H bool :=
  c ← get (chatter_of pname);
  let c := add_points now (cool_down now c) in
  set_chatter pname c ;;
  (if SpamScoreWarning <? ct_score c then say (FactWhisper pname "*** SPAMMING / FLOODING WARNING! ***") else mret tt) ;;
  (if SpamScoreLimit <? ct_score c then
     on_db_ (WriteBanBy pname "Spamming/Flooding" "[Auto-Ban]") ;; mark_banned pname ;; set_score pname 0
   else mret tt) ;;
  slurFilter pname input.

Definition lock_chatter : H () := locked ← get chatterLocked; if (locked : bool) then blocked else modify (fun w => w <| chatterLocked := true |>).
Definition unlock_chatter : H () := modify (fun w => w <| chatterLocked := false |>).

(** Whether the line ends here; then the lock is still held. *)
Definition spam_check (pname : string) (input : handleData) : H bool :=
  if oe_DisableSpamProtect env then mret false
  else
    lock_chatter ;;
    nores ← get ow_NoResponseCount;
    level ← (if nores <? 5 then on_db (PlayerLevelGet (oe_game env) pname true) else mret 255);
    if negb (level =? 255) then
      stop ← score_line pname input;
      if (stop : bool) then mret true else unlock_chatter ;; mret false
    else
      c ← get (chatter_of pname);
      (if 0 <? ct_score c then set_score pname (ct_score c - 1) else mret tt) ;;
      unlock_chatter ;; mret false.

(** ** The message *)
Definition clean_message (text : string) : string := RemoveFactorioTags (EscapeDiscordMarkdown (UnicodeCleanup text)).

Definition cut_message (cmess : string) : string :=
  if 500 <? slen cmess then TruncateStringEllipsis cmess 500 +:+ "**(message cut, too long!)**" else cmess.

Definition clean_name (pname : string) : string :=
  EscapeDiscordMarkdown (UnicodeCleanup (TruncateString (UnicodeCleanup pname) 25)).

Definition chat_text (dname pname cmess : string) : string :=
  let factname := clean_name pname in
  "`" +:+ oe_gametime env +:+ "` " +:+ (if negb (bool_decide (dname = "")) then "**" +:+ factname +:+ "**: " else factname +:+ ": ") +:+ cmess.

Definition other_name (dname pname : string) : bool :=
  let dnamereduced := AlphaOnly (ToLower dname) in
  let fnamereduced := AlphaOnly (ToLower pname) in
  negb (bool_decide (dname = "")) && negb (Contains dnamereduced fnamereduced) && negb (Contains fnamereduced dnamereduced).

Definition relay (pname : string) (words : list string) : H bool :=
  let cmess := cut_message (clean_message (Join (drop 2 words) " ")) in
  if bool_decide (cmess = "") then mret true
  else
    on_db_ (UpdateSeen (oe_game env) pname) ;;
    did ← get (fun w => GetDiscordIDFromFactorioName pname (ow_db w));
    let dname := NameFromID did in
    let fbuf := chat_text dname pname cmess in
    (if other_name dname pname then say (ChatEmbed ("@" +:+ dname) fbuf) else say (CMS ChatChannel fbuf)) ;;
    mret true.

Definition chat_line (input : handleData) : bool :=
  HasPrefix (hd_noDatestamp input) "[CHAT]" || HasPrefix (hd_noDatestamp input) "[SHOUT]".

Definition handleChatMsg : handler := fun input =>
  if negb (chat_line input) then mret false
  else
    say (LogGame (hd_noDatestamp input)) ;;
    match hd_noDatestampList input with
    | tag :: name :: rest =>
        let pname := replace_byte ":"%char "" name in
        if bool_decide (pname = "<server>") then mret false
        else
          stop ← spam_check pname input;
          if (stop : bool) then mret true else relay pname (tag :: pname :: rest)
    | _ => mret false
    end.

(** ** Messages of the soft mod *)
Definition handleSoftModMsg : handler := fun input =>
  if negb (HasPrefix (hd_line input) "[MSG]") then mret false
  else
    say (LogGame (hd_line input)) ;;
    let cmess := clean_message (Join (drop 1 (hd_wordList input)) " ") in
    let cmess := if 500 <? slen cmess then TruncateStringEllipsis cmess 500 +:+ "(cut, too long!)" else cmess in
    if HasPrefix cmess "Research" && oe_HideResearch env then mret true
    else say (CMS ChatChannel ("`" +:+ oe_gametime env +:+ "` **" +:+ cmess +:+ "**")) ;; mret true.
End chat.
