(* ===== verification/OutputAccess.v ===== *)
(** * Registration: [src/support/pipeHandle_access.go], [src/support/idiotProtect.go],
    [src/commands/user/register.go]

    A member of the Discord guild asks for a code and gives it to the game, which
    connects the two accounts.  A code that is typed into the chat is withdrawn, one
    that is not used expires.  The codes are a map by Discord ID; [order] is the order
    in which Go visits it. *)
From Stdlib Require Import Ascii.
From S2P Require Import Prelude.
From S2P Require Import GoInt.
From S2P Require Import GoString.
From S2P Require Import GoTime.
From S2P Require Import Glob.
From S2P Require Import PlayerCodec.
From S2P Require Import PlayerDB.
From S2P Require Import Moderation.
From S2P Require Import Sanitize.
From S2P Require Import OutputLine.

Definition PassExpireSec : Z := 5 * 60.

(** The answer to [/register]: the code of the member is replaced. *)
Definition register_code (discid code : string) (now : time) (w : out_world) : out_world :=
  w <| ow_PassList ::= <[discid := mkPass code discid (now / Second)]> |>.

(** The loop that deletes expired codes. *)
Definition expire_codes (now : time) (w : out_world) : out_world :=
  w <| ow_PassList ::= filter (fun kp : string * PassData => (PassExpireSec <? now / Second - pw_Time kp.2) = false) |>.

Section access.
Context `{UnicodeTables}.
Variable env : out_env.
Variable order : list string.          (* of [PassList] *)
Variable players_order : list string.  (* of [PlayerList] *)

(** ** Codes in the chat *)
Definition leaks (checkme code : string) : bool :=
  let password := AlphaOnly (ToLower code) in
  Contains checkme password ||
  (let plen := slen password in
   (3 <? plen) && (Contains checkme (slice_to password (plen - 2)) || Contains checkme (string_drop 2 password))).

Definition leaked_code (text : string) (codes : gmap string PassData) : string :=
  let checkme := AlphaOnly (ToLower text) in
  match omap (fun i => p ← codes !! i; if leaks checkme (pw_Code p) then Some i else None) order with
  | i :: _ => i
  | [] => ""
  end.

Definition lock_passwords : H () := locked ← get passwordLocked; if (locked : bool) then blocked else modify (fun w => w <| passwordLocked := true |>).
Definition unlock_passwords : H () := modify (fun w => w <| passwordLocked := false |>).

Definition ProtectIdiots (text : string) : H bool :=
  lock_passwords ;;
  codes ← get ow_PassList;
  let idiotID := leaked_code text codes in
  let found := negb (bool_decide (idiotID = "")) in
  (if found then modify (fun w => w <| ow_PassList ::= delete idiotID |>) else mret tt) ;;
  unlock_passwords ;; mret found.

Definition idiot_text : string :=
  "You did not enter that as a command!" +:+ String (ascii_of_nat 10) "You have posted your registration code publicly."
  +:+ String (ascii_of_nat 10) "To protect you, the code has been invalidated."
  +:+ String (ascii_of_nat 10) "Please try again, and read the directions more carefully!".

Definition handleIdiots : handler := fun input =>
  found ← ProtectIdiots (hd_line input);
  if (found : bool) then say (LogGameCMS true ChatChannel idiot_text) ;; mret true else mret false.

(** ** The command *)

(** The Discord guild: whether it is there, the role of a name, and whether adding it works. *)
Record guild := mkGuild { gu_known : bool; gu_role : string -> option string; gu_add : bool }.
Variable discord : guild.

Definition requested_role (ptype : string) : string * Z :=
  let r := g_roles (oe_game env) in
  if EqualFold ptype "member" then (role_Member r, 1)
  else if EqualFold ptype "regular" then (role_Regular r, 2)
  else if EqualFold ptype "veteran" then (role_Veteran r, 3)
  else if EqualFold ptype "moderator" then (role_Moderator r, 255)
  else (role_New r, 0).

Definition sys : string -> string := fun s => "[SYSTEM] " +:+ s.

Definition give_role (pname pid newrole : string) : H () :=
  if gu_known discord then
    match gu_role discord newrole with
    | None =>
        say (LogCMS ReportChannel ("Register: Can not find role '" +:+ newrole +:+ "'. Requested for user '" +:+ pname +:+ "'")) ;;
        say (FactWhisper pname (sys ("Sorry, there was an internal error. I could not find the discord role '" +:+ newrole +:+ "'. The moderatators will be informed of the issue.")))
    | Some role =>
        if negb (gu_add discord) then
          say (LogCMS ReportChannel ("Register: Could not assign role '" +:+ newrole +:+ "'. Requested for user '" +:+ pname +:+ "'.")) ;;
          say (FactWhisper pname (sys ("Sorry, there was an internal error. I could not assign discord role '" +:+ newrole +:+ "'. The moderatators will be informed of the issue.")))
        else
          say (AddRole pid role) ;;
          say (FactWhisper pname (sys "Registration complete!")) ;;
          say (LogGameCMS true ReportChannel ("Registered player: " +:+ pname))
    end
  else
    say (FactWhisper pname (sys "Sorry, I couldn't find the discord guild info! The moderators will be informed of the issue.")) ;;
    say (LogCMS ReportChannel "Register: Unable to get discord guild info!").

(** What is known while the codes are visited. *)
Record visit := mkVisit { vi_good : bool; vi_found : bool; vi_return : bool }.

(** A code that matches: it is deleted, and the accounts are connected unless one of
    them is connected to another.  On another server than the primary one the
    function returns, with the lock still held. *)
Definition use_code (i : string) (pass : PassData) (ptype pname : string) (v : visit) : H visit :=
  modify (fun w => w <| ow_PassList ::= delete i |>) ;;
  let pid := pw_DiscID pass in
  let '(newrole, plevel) := requested_role ptype in
  discid ← get (fun w => GetDiscordIDFromFactorioName pname (ow_db w));
  factname ← get (fun w => GetFactorioNameFromDiscordID players_order pid (ow_db w));
  if negb (EqualFold (oe_PrimaryServer env) (oe_Callsign env)) then
    say (LogCMS ReportChannel ("Factorio player '" +:+ pname +:+ "', tried to register... but can't read the directions.")) ;;
    say (FactWhisper pname (sys ("This is not the correct server for entering registration codes! You need to connect to " +:+ oe_GroupName env +:+ "-" +:+ oe_PrimaryServer env +:+ " to use that command. Please read the directions more carefully..."))) ;;
    mret (mkVisit (vi_good v) true true)
  else
    good ←
      (if EqualFold discid pid && EqualFold factname pname then
         say (LogCMS ReportChannel ("Factorio player '" +:+ pname +:+ "', wants to register a few times... just to be sure.")) ;;
         say (FactWhisper pname (sys "This Factorio user, and discord user are already connected! You do not need to re-register...")) ;;
         mret true
       else if negb (bool_decide (discid = "")) && negb (bool_decide (discid = "0")) then
         say (LogCMS ReportChannel ("Factorio player '" +:+ pname +:+ "', tried to register a discord user that is already registered to different Factorio player.")) ;;
         say (FactWhisper pname (sys "That discord user is already connected to a different Factorio user... Unable to complete registration.")) ;;
         mret false
       else if negb (bool_decide (factname = "")) then
         say (LogCMS ReportChannel ("Factorio player '" +:+ pname +:+ "', tried to register a Factorio user that is already registered to a different discord user.")) ;;
         say (FactWhisper pname (sys "This Factorio user is already connected to a different discord user... Unable to complete registration.")) ;;
         mret false
       else mret (vi_good v));
    (if (good : bool) then on_db (PlayerSetID (oe_game env) pname pid plevel) ≫= (fun _ => give_role pname pid newrole) else mret tt) ;;
    mret (mkVisit good true false).

Definition code_matches (inputCode : string) (pass : PassData) : bool := EqualFold (AlphaOnly (pw_Code pass)) inputCode.

Fixpoint visit_codes (codes : list string) (ptype pname inputCode : string) (v : visit) : H visit :=
  match codes with
  | [] => mret v
  | i :: codes =>
      p ← get (fun w => ow_PassList w !! i);
      match p with
      | Some pass =>
          if code_matches inputCode pass then
            v ← use_code i pass ptype pname v;
            if vi_return v then mret v else visit_codes codes ptype pname inputCode v
          else visit_codes codes ptype pname inputCode v
      | None => visit_codes codes ptype pname inputCode v
      end
  end.

Definition handlePlayerRegister : handler := fun input =>
  if negb (HasPrefix (hd_line input) "[ACCESS]") then mret false
  else
    match hd_wordList input with
    | _ :: ptype :: pname :: _ :: _ =>
        let inputCode := AlphaOnly (Join (drop 3 (hd_wordList input)) "") in
        lock_passwords ;;
        v ← visit_codes order ptype pname inputCode (mkVisit true false false);
        if vi_return v then mret true
        else
          unlock_passwords ;;
          (if vi_found v then mret tt else say (FactWhisper pname (sys "Sorry, that code is invalid or expired."))) ;;
          mret true
    | _ => mret true
    end.
End access.
