(* ===== verification/OutputPlayers.v ===== *)
(** * Players of the game: [src/support/pipeHandle_players.go], [pipeHandle_moderation.go],
    [pipeHandle_disconnect.go], [pipeHandle_admin.go], the report of [pipeHandle_access.go]
    and [CheckBanList] of [src/banlist/banList.go]

    Joining, leaving, being banned and what a player does, as the game prints it. *)
From Stdlib Require Import Ascii.
From S2P Require Import Prelude.
From S2P Require Import GoInt.
From S2P Require Import GoString.
From S2P Require Import GoTime.
From S2P Require Import Glob.
From S2P Require Import PlayerCodec.
From S2P Require Import PlayerDB.
From S2P Require Import Moderation.
From S2P Require Import Sanitize.
From S2P Require Import OutputLine.

(** [strconv.Atoi], its error ignored: the nearest [int] when the number is out of range. *)
Definition Atoi (s : string) : Z :=
  let '(neg, body) := match s with
    | String c r => if Ascii.eqb c "-"%char then (true, r) else if Ascii.eqb c "+"%char then (false, r) else (false, s)
    | EmptyString => (false, s) end in
  match body with
  | EmptyString => 0
  | _ => match digits_val 0 body with
         | Some n => Z.max (- 2 ^ 63) (Z.min (2 ^ 63 - 1) (if (neg : bool) then - n else n))
         | None => 0
         end
  end.

Definition newline : string := String (ascii_of_nat 10) "".
Definition SusWarningThresh : Z := 40.
Definition SusWarningInterval : Z := 2.

(** An entry of the ban list. *)
Record ban_entry := mkBan { bn_UserName : string; bn_Reason : string; bn_Revoked : bool }.

(** Who supports the server, and the options of the ban list. *)
Record community := mkCommunity {
  co_BanList : list ban_entry; co_FCLWarnOnly : bool; co_FCLWarnRegulars : bool;
  co_Patreon : string -> bool; co_Nitro : string -> bool }.

Section players.
Context `{UnicodeTables, PrintTable}.
Variable env : out_env.
Variable com : community.
Variable players_order : list string.

Definition gm : game := oe_game env.

(** ** The ban list *)
Definition ban_warning (pname reason : string) : string := "Warning: [FCL] ban found for '" +:+ pname +:+ "': " +:+ reason.

Definition CheckBanList (name : string) (doWarn : bool) : H bool :=
  let pname := ToLower name in
  match List.find (fun ban => negb (bn_Revoked ban) && EqualFold (bn_UserName ban) pname) (co_BanList com) with
  | Some ban =>
      let warn := if doWarn then say (CMS ChatChannel (ban_warning pname (bn_Reason ban))) else mret tt in
      level ← on_db (PlayerLevelGet gm (bn_UserName ban) true);
      if level <? 2 then
        if co_FCLWarnOnly com then warn ;; mret false
        else on_db_ (WriteBan pname ("[FCL] " +:+ bn_Reason ban)) ;; mret true
      else (if co_FCLWarnRegulars com then warn else mret tt) ;; mret false
  | None =>
      level ← on_db (PlayerLevelGet gm pname false);
      if level =? -1 then
        p ← get (fun w => PlayerList (ow_db w) !! pname);
        match p with Some p => on_db_ (WriteBan pname (pd_BanReason p)) | None => mret tt end ;; mret true
      else mret false
  end.

(** ** Who is online *)
Definition handleOnlinePlayers : handler := fun input =>
  if negb (HasPrefix (hd_line input) "Online players") then mret false
  else
    (if (2 <? length (hd_wordList input))%nat then
       prevCount ← get ow_NumPlayers;
       let poc := keep_bytes (fun c => negb (existsb (Ascii.eqb c) ["("; ")"; ":"; " "]%char)) (Join (drop 2 (hd_wordList input)) " ") in
       let nump := Atoi poc in
       modify (fun w => w <| ow_NumPlayers := nump |>) ;; say UpdateChannelName ;;
       (if negb (prevCount =? 0) && (nump =? 0) then say DoUpdateChannelNameForce else mret tt)
     else mret tt) ;;
    mret true.

Definition unpause (pname buf : string) : H string :=
  soft ← softmod;
  paused ← get (fun w => ow_PausedForConnect w && EqualFold (ow_PausedFor w) pname);
  if (soft : bool) && g_running gm && (paused : bool) then
    modify (fun w => w <| ow_PausedForConnect := false |> <| ow_PausedFor := "" |> <| ow_PausedConnectAttempt := false |>) ;;
    say (SoftModSpeed (oe_Speed env)) ;; mret (buf +:+ " (Unpausing game)")
  else mret buf.

Definition handlePlayerJoin : handler := fun input =>
  if negb (HasPrefix (hd_noDatestamp input) "[JOIN]") then mret false
  else
    say RequestOnlinePlayers ;; say (LogGame (hd_noDatestamp input)) ;;
    match hd_noDatestampList input with
    | _ :: name :: _ =>
        let pname := UnicodeCleanup name in
        banned ← CheckBanList pname true;
        if (banned : bool) then mret true
        else
          plevelname ← on_db (AutoPromote gm players_order pname false true);
          let pname := EscapeDiscordMarkdown pname in
          buf ← unpause pname ("`" +:+ oe_gametime env +:+ "` **" +:+ pname +:+ " joined**" +:+ plevelname);
          say (CMS ChatChannel buf) ;;
          soft ← softmod;
          (if (soft : bool) then
             say UpdateDuration ;;
             did ← get (fun w => GetDiscordIDFromFactorioName pname (ow_db w));
             if bool_decide (did = "") then mret tt
             else
               (if co_Patreon com did then say (SoftModSupporter pname false) else mret tt) ;;
               (if co_Nitro com did then say (SoftModSupporter pname true) else mret tt)
           else mret tt) ;;
          mret true
    | _ => mret true
    end.

Definition handlePlayerLeave : handler := fun input =>
  if negb (HasPrefix (hd_noDatestamp input) "[LEAVE]" && g_running gm) then mret false
  else
    say (LogGame (hd_noDatestamp input)) ;;
    match hd_noDatestampList input with
    | _ :: pname :: _ =>
        soft ← softmod;
        (if (soft : bool) then mret tt else say (CMS ChatChannel (pname +:+ " left."))) ;;
        say RequestOnlinePlayers ;; on_db_ (UpdateSeen gm pname) ;; mret true
    | _ => mret true
    end.

Definition slow_speed : Z := 0x3D888889.   (* [float32(4.0 / 60.0)] *)

Definition handleIncomingAnnounce : handler := fun input =>
  match last (hd_trimmedWords input) with
  | Some pName =>
      if negb (Contains (hd_noTimecode input) "Queuing ban recommendation check for user ") || (length (hd_trimmedWords input) <=? 1)%nat
      then mret false
      else
        let dmsg := "`" +:+ oe_gametime env +:+ "` " +:+ pName +:+ " is connecting." in
        say (LogGame dmsg) ;;
        again ← get (fun w => negb (30 * Second <? Sub (g_now gm) (lastConnectTime w)) && bool_decide (lastConnector w = pName));
        (if (again : bool) then mret tt else say (FactChat (pName +:+ " is connecting.")) ;; say (CMS ChatChannel dmsg)) ;;
        modify (fun w => w <| lastConnectTime := g_now gm |> <| lastConnector := pName |>) ;;
        paused ← get (fun w => ow_PausedForConnect w && EqualFold (ow_PausedFor w) pName);
        (if (paused : bool) then
           modify (fun w => w <| ow_PausedConnectAttempt := true |>) ;; say (SoftModSpeed slow_speed) ;;
           say (LogGameCMS true ChatChannel ("Pausing game, requested by " +:+ pName))
         else mret tt) ;;
        mret true
  | None => mret false
  end.

Definition handleDisconnect : handler := fun input =>
  (if HasPrefix (hd_noTimecode input) "Info ServerMultiplayerManager" && Contains (hd_line input) "removing peer" then
     soft ← softmod;
     (if (soft : bool) then mret tt else say (LogGameCMS false ChatChannel "A player has disconnected.")) ;; say RequestOnlinePlayers
   else mret tt) ;;
  mret false.

(** ** Bans *)

(** [strings.Cut(line, "Reason:")] *)
Fixpoint behind (sep s : string) : option string :=
  match s with
  | EmptyString => if bool_decide (sep = "") then Some "" else None
  | String _ tl => if HasPrefix s sep then Some (string_drop (String.length sep) s) else behind sep tl
  end.
Definition banReasonFromLine (line : string) : option string :=
  match behind "Reason:" line with Some reason => Some (TrimSpace reason) | None => None end.

Definition SetLastBan (name : string) (d : playerdb) : playerdb := d <| lastBanName := name |>.

Definition relay_game_line (words : list string) : out_effect :=
  LogGameCMS false ChatChannel ("`" +:+ oe_gametime env +:+ "` " +:+ Join words " ").

Definition handleBan : handler := fun input =>
  if negb (HasPrefix (hd_noDatestamp input) "[BAN]") then mret false
  else
    say (LogGame (hd_noDatestamp input)) ;;
    match hd_noDatestampList input with
    | _ :: (trustname :: _) as words =>
        on_db_ (SetLastBan trustname) ;;
        (if Contains (hd_noDatestamp input) "was banned by" then
           match banReasonFromLine (hd_noDatestamp input) with
           | Some reason => on_db (PlayerSetBanReason gm trustname reason false) ≫= (fun _ => mret tt)
           | None => on_db (PlayerLevelSet gm trustname (-1) false) ≫= (fun _ => mret tt)
           end
         else mret tt) ;;
        say (relay_game_line (drop 1 (hd_noDatestampList input))) ;; say RequestOnlinePlayers ;; mret true
    | _ => mret true
    end.

Definition handleUnBan : handler := fun input =>
  if negb (HasPrefix (hd_noDatestamp input) "[UNBANNED]") then mret false
  else
    say (LogGame (hd_noDatestamp input)) ;;
    match hd_noDatestampList input with
    | _ :: trustname :: _ =>
        on_db_ (SetLastBan "") ;;
        (if Contains (hd_noDatestamp input) "was unbanned by" then
           level ← on_db (PlayerLevelGet gm trustname true);
           if level <? 0 then on_db (PlayerLevelSet gm trustname 0 false) ≫= (fun _ => mret tt) else mret tt
         else mret tt) ;;
        say (relay_game_line (drop 1 (hd_noDatestampList input))) ;; mret true
    | _ => mret true
    end.

(** ** What players do *)
Definition sus_change (action : string) : Z :=
  if Contains action "placed-ghost" then -2
  else if Contains action "mined-ghost" then -1
  else if Contains action "placed" then -1
  else if Contains action "mined" then 1
  else if Contains action "decon" then 2
  else 0.

(** The score of the player after the action, and whether the moderators are warned. *)
Definition sus_player (action : string) (lastWarning : time) (p : PlayerData) : PlayerData * bool :=
  if pd_Level p <? 2 then
    let score := swrap 64 (pd_SusScore p + sus_change action) in
    let thresh := if 0 <? pd_Level p then SusWarningThresh + 1000 else SusWarningThresh in
    if (thresh <? score) && (Minute * SusWarningInterval <? Sub (g_now gm) lastWarning) then (p <| pd_SusScore := 0 |>, true)
    else (p <| pd_SusScore := score |>, false)
  else (p <| pd_SusScore := 0 |>, false).

Definition server_tag : string :=
  let tag := oe_Callsign env +:+ "-" +:+ oe_Name env in
  if bool_decide (oe_ChatChannelID env = "") then tag else "<#" +:+ oe_ChatChannelID env +:+ "> [" +:+ tag +:+ "]" +:+ newline.
Definition log_link : string := if bool_decide (oe_GameLogURL env = "") then "" else "Log: " +:+ oe_GameLogURL env +:+ newline.
Definition ping_tag (role : string) : string := if bool_decide (role = "") then "" else newline +:+ "<@&" +:+ role +:+ ">".

Definition suspect_player (pname action : string) : H () :=
  on_db_ (UpdateSeen gm pname) ;;
  let key := ToLower pname in
  p ← get (fun w => PlayerList (ow_db w) !! key);
  match p with
  | Some p =>
      if bool_decide (pd_Name p = "") then mret tt
      else
        lastWarning ← get ow_LastSusWarning;
        let '(p, warn) := sus_player action lastWarning p in
        on_db_ (fun d => d <| PlayerList ::= <[key := p]> |>) ;;
        if (warn : bool) then
          modify (fun w => w <| ow_LastSusWarning := g_now gm |>) ;;
          if oe_ShutupSusWarn env then mret tt
          else
            let suspect := "Possible suspicious activity: " +:+ pname +:+ newline in
            say (ReportStatus (server_tag +:+ suspect +:+ log_link +:+ ping_tag (oe_SusPingRole env))) ;; say (FactChat suspect)
        else mret tt
  | None => mret tt
  end.

Definition handleActMsg : handler := fun input =>
  if HasPrefix (hd_line input) "[ERROR]" then mret true
  else if HasPrefix (hd_line input) "[ACT]" || HasPrefix (hd_line input) "[TODO]" then
    say (LogGame (hd_line input)) ;;
    match hd_wordList input with
    | _ :: pname :: action :: _ => (if bool_decide (pname = "") then mret tt else suspect_player pname action) ;; mret true
    | _ => mret true
    end
  else mret false.

Definition handlePlayerReport : handler := fun input =>
  if negb (HasPrefix (hd_line input) "[REPORT]") then mret false
  else
    say (LogGame (hd_line input)) ;;
    match hd_wordList input with
    | _ :: name :: (_ :: _) as words =>
        let reporter := "Reporter: " +:+ name +:+ newline in
        let msg := Join (drop 2 (hd_wordList input)) " " +:+ newline in
        say (LogCMS ReportChannel (server_tag +:+ reporter +:+ msg +:+ log_link +:+ ping_tag (oe_BanishPingRole env))) ;;
        say (FactChat ("REPORT: " +:+ reporter +:+ ": " +:+ msg)) ;; mret true
    | _ => mret true
    end.

Definition handleAuditMsg : handler := fun input =>
  if HasPrefix (hd_line input) "[AUDIT]" then say (LogAudit (hd_line input)) ;; mret true else mret false.
End players.
