(* ===== verification/OutputServer.v ===== *)
(** * The state of the game: [src/support/pipeHandle_errors.go], [pipeHandle_state.go],
    [pipeHandle_map.go], [pipeHandle_time.go]

    What the game prints when it starts, loads, saves, stops and fails.  The regular
    expressions are written out as matchers; the clock of the game, which is a float,
    is left out. *)
From Stdlib Require Import Ascii.
From S2P Require Import Prelude.
From S2P Require Import GoInt.
From S2P Require Import GoString.
From S2P Require Import GoTime.
From S2P Require Import Glob.
From S2P Require Import PlayerCodec.
From S2P Require Import PlayerDB.
From S2P Require Import Sanitize.
From S2P Require Import OutputLine.
From S2P Require Import OutputPlayers.

Definition CrashReportInterval : Z := 300.
Definition MaxSaveBackups : Z := 10.

(** ** Matchers *)
Fixpoint digits_len (s : string) : nat :=
  match s with String c tl => if is_digit c then S (digits_len tl) else O | EmptyString => O end.

(** [\((\d+/\d+)\)] at the head of the text: the group. *)
Definition load_count_here (s : string) : option string :=
  match s with
  | String c tl =>
      if negb (Ascii.eqb c "("%char) then None
      else
        let n := digits_len tl in
        let rest := string_drop n tl in
        match rest with
        | String d tl2 =>
            let m := digits_len tl2 in
            if (1 <=? n)%nat && Ascii.eqb d "/"%char && (1 <=? m)%nat && HasPrefix (string_drop m tl2) ")"
            then Some (string_take (n + 1 + m) tl) else None
        | EmptyString => None
        end
  | EmptyString => None
  end.

(** The first match: what is before it, the group, what is behind it. *)
Fixpoint load_count (pre s : string) : option (string * string * string) :=
  match load_count_here s with
  | Some g => Some (pre, g, string_drop (String.length g + 2) s)
  | None => match s with String c tl => load_count (pre +:+ String c "") tl | EmptyString => None end
  end.

Definition at_space (s : string) : bool := existsb (fun p => HasPrefix s p) space_encodings.

(** The first of [strings.Fields]. *)
Fixpoint word (s : string) : string :=
  match s with String c tl => if at_space s then "" else String c (word tl) | EmptyString => "" end.
Definition first_field (s : string) : string := word (TrimSpace s).

(** [/.*?/saves/] *)
Fixpoint find_saves (n : nat) (s : string) : option nat :=
  if HasPrefix s "/saves/" then Some (n + 7)%nat
  else match s with String _ tl => find_saves (S n) tl | EmptyString => None end.
Definition saves_prefix (s : string) : option nat :=
  match s with String c tl => if Ascii.eqb c "/"%char then find_saves 1 tl else None | EmptyString => None end.

(** [Info AppManager.cpp:\d+: Saving to _(autosave\d+)], found anywhere. *)
Definition autosave_here (s : string) : option string :=
  if HasPrefix s "Info AppManager" && HasPrefix (string_drop 16 s) "cpp:" then
    let rest := string_drop 20 s in
    let n := digits_len rest in
    let rest := string_drop n rest in
    if (1 <=? n)%nat && HasPrefix rest ": Saving to _autosave" then
      let m := digits_len (string_drop 21 rest) in
      if (1 <=? m)%nat then Some ("autosave" +:+ string_take m (string_drop 21 rest)) else None
    else None
  else None.
Fixpoint autosave_name (s : string) : option string :=
  match autosave_here s with
  | Some g => Some g
  | None => match s with String _ tl => autosave_name tl | EmptyString => None end
  end.

Section server.
Context `{UnicodeTables}.
Variable env : out_env.
Variable remove_ok : string -> bool.     (* [os.Remove] *)
Variable copy_ok : bool.                 (* [util.CopyFileAtomic] *)

(** ** Start and stop *)
Definition isFactorioReadyLine (line : string) : bool :=
  let line := TrimSpace line in negb (bool_decide (line = "")) && Contains line "Starting RCON interface".

Definition handleFactGoodbye : handler := fun input =>
  if HasPrefix (hd_noTimecode input) "Goodbye"
  then on_db_ (SetLastBan "") ;; say (NotifyFactorioGoodbye (hd_generation input)) ;; mret true
  else mret false.

Definition handleFactReady : handler := fun input =>
  (if isFactorioReadyLine (hd_noTimecode input) then
     say (NotifyFactorioProgress (hd_generation input) "rcon-ready" "") ;;
     modify (fun w => w <| ow_NumPlayers := 0 |> <| ow_OnlinePlayers := [] |>) ;;
     say (NotifyFactorioReady (hd_generation input)) ;; say (AddModHistory "Factorio Booted" "") ;; say RequestFactorioStatus
   else mret tt) ;;
  mret false.

Definition modLoadStatusDetail (line : string) : string :=
  let line := TrimSpace line in
  if negb (HasPrefix line "Loading mod ") then ""
  else
    let modInfo := TrimSpace (TrimPrefix line "Loading mod ") in
    if bool_decide (modInfo = "") then ""
    else
      let '(count, modInfo) := match load_count "" modInfo with Some (pre, g, post) => (g, pre +:+ post) | None => ("", modInfo) end in
      let name := first_field modInfo in
      if bool_decide (name = "") then "" else if bool_decide (count = "") then name else count +:+ " " +:+ name.

Definition handleFactVersion : handler := fun input =>
  (if HasPrefix (hd_noTimecode input) "Loading mod base" then
     say (NotifyFactorioProgress (hd_generation input) "mod-load" (modLoadStatusDetail (hd_noTimecode input))) ;;
     match hd_noTimecodeList input !! 3%nat with
     | Some v => modify (fun w => w <| ow_FactorioVersion := v |>)
     | None => mret tt
     end
   else if HasPrefix (hd_noTimecode input) "Loading mod " then
     say (NotifyFactorioProgress (hd_generation input) "mod-load" (modLoadStatusDetail (hd_noTimecode input)))
   else mret tt) ;;
  mret false.

(** ** The map *)
Definition handleMapLoad : handler := fun input =>
  if negb (HasPrefix (hd_noTimecode input) "Loading map") then mret false
  else
    say (NotifyFactorioProgress (hd_generation input) "map-load" "") ;;
    match hd_noTimecodeList input with
    | _ :: _ :: path :: _ :: _ =>
        let fullpath := replace_byte ":"%char "" path in
        let filename := strip_all saves_prefix fullpath in
        modify (fun w => w <| ow_GameMapName := filename |> <| ow_GameMapPath := fullpath |> <| ow_LastSaveName := filename |>)
    | _ => mret tt
    end ;;
    mret true.

Definition handleSaveMsg : handler := fun input =>
  if negb (HasPrefix (hd_noTimecode input) "Info AppManager" && Contains (hd_noTimecode input) "Saving to") then mret false
  else
    say (NotifyFactorioProgress (hd_generation input) "save" "") ;;
    (if oe_HideAutosaves env then mret tt
     else
       match autosave_name (hd_noTimecode input) with
       | Some name =>
           players ← get ow_NumPlayers;
           (if 0 <? players then say (CMS ChatChannel ("`" +:+ oe_gametime env +:+ "` 💾 " +:+ name)) else mret tt) ;;
           say (LogGame name) ;; modify (fun w => w <| ow_LastSaveName := name |>)
       | None => mret tt
       end) ;;
    mret true.

(** The backup that follows the last one, and its name. *)
Definition next_backup (n : Z) : Z := if n <? MaxSaveBackups then n + 1 else 1.

Definition handleExitSave : handler := fun input =>
  if negb (HasPrefix (hd_noTimecode input) "Info MainLoop" && Contains (hd_noTimecode input) "Saving map as") then mret false
  else
    say (NotifyFactorioProgress (hd_generation input) "save" "") ;;
    (if (5 <? length (hd_noTimecodeList input))%nat then
       let fullpath := Join (drop 5 (hd_noTimecodeList input)) " " in
       let filename := replace_byte ":"%char "" (strip_all saves_prefix fullpath) in
       n ← get ow_LastSaveBackup;
       modify (fun w => w <| ow_LastSaveBackup := next_backup n |> <| ow_GameMapName := filename |>
                          <| ow_GameMapPath := fullpath |> <| ow_LastSaveName := filename |>) ;;
       if copy_ok
       then say (CopyFile fullpath (oe_SavesFolder env +:+ "/" +:+ "bak-" +:+ Itoa (next_backup n) +:+ ".zip")) ;; say WriteLCfg
       else mret tt
     else mret tt) ;;
    mret true.

(** ** Failures *)
Definition handleDesync : handler := fun input =>
  if negb (HasPrefix (hd_noTimecode input) "Info" && Contains (hd_noTimecode input) "DesyncedWaitingForMap") then mret false
  else
    say (CMS ChatChannel ("Desync: " +:+ hd_noTimecode input)) ;;
    say (AddModHistory "Desync" (hd_noTimecode input)) ;;
    (if negb (IsZero (oe_bootedAt env)) && (15 * Minute <=? Sub (g_now (oe_game env)) (oe_bootedAt env)) then
       say (RestartWhenEmpty "Desync detected; Factorio reboot queued.") ;;
       say (LogCMS ChatChannel "**Desync detected; Factorio reboot queued.**")
     else mret tt) ;;
    mret true.

(** The game has failed: it is stopped, and not started again by itself. *)
Definition shut_down (input : handleData) : H bool :=
  say (SetAutolaunch false) ;; say (NotifyFactorioGoodbye (hd_generation input)) ;; mret true.
(** ... or it is stopped and started again. *)
Definition stopped (input : handleData) : H bool := say (NotifyFactorioGoodbye (hd_generation input)) ;; mret true.

Definition mod_load_failed (input : handleData) : H bool :=
  (if (10 <=? length (hd_wordList input))%nat then
     modName ← index (hd_wordList input) 10;
     say (LogCMS ChatChannel ("Factorio failed loading game mod: " +:+ modName)) ;;
     say (AddModHistory "Mod load failed" (hd_noTimecode input))
   else
     say (LogCMS ChatChannel "Factorio failed loading game mods.") ;;
     say (AddModHistory "Loading game mods failed" (hd_noTimecode input))) ;;
  shut_down input.

(** [None]: no zip file is named, the search goes on. *)
Definition bad_zip (input : handleData) : H (option bool) :=
  if (6 <? length (hd_trimmedWords input))%nat then
    path ← index (hd_trimmedWords input) 7;
    if HasSuffix path ".zip" || HasSuffix path ".tmp.zip" then
      if remove_ok path then say (RemoveFile path) ;; mret (Some true)
      else b ← shut_down input; mret (Some b)
    else mret None
  else mret None.

Definition multiplayer_failed (input : handleData) : H bool :=
  let t := hd_noTimecode input in
  if Contains t "Host address is already in use"
  then say (CMS ChatChannel ("The specified port is already in use: " +:+ Itoa (oe_Port env))) ;; shut_down input
  else if Contains t "cannot be loaded because it is higher than the game version"
  then say (CMS ChatChannel "**Factorio version is too old for the save game.**") ;; shut_down input
  else if Contains t "syntax error" || Contains t "unexpected symbol" || Contains t "expected" then
    say (AddModHistory "Lua Syntax Error" t) ;;
    say (CMS ChatChannel "**Factorio encountered a lua syntax error and will stop.**") ;; shut_down input
  else if Contains t "Error while running command" then
    say (AddModHistory "Lua Command Error" t) ;;
    say (CMS ChatChannel "**Factorio encountered a lua command error.**") ;; shut_down input
  else if Contains t "info.json not found" then say (CMS ChatChannel "Unable to load save-game.") ;; shut_down input
  else
    zip ← (if Contains t "(Bad zip file)" then bad_zip input else mret None);
    match zip with
    | Some b => mret b
    | None =>
        if Contains t "Closing file" then
          path ← get ow_GameMapPath;
          if remove_ok path then
            say (RemoveFile path) ;;
            say (CMS ChatChannel "Save-game corrupted, performing automatic roll-back.") ;; stopped input
          else say (CMS ChatChannel "Unable to remove corrupted save-game.") ;; shut_down input
        else if Contains t "Exception at tick" then
          say (AddModHistory "Factorio Crashed" t) ;; say (CMS ChatChannel "**Factorio crashed.**") ;; stopped input
        else mret true
    end.

Definition handleCrashes : handler := fun input =>
  let t := hd_noTimecode input in
  if negb (HasPrefix t "Error") then mret false
  else if Contains t "Failed to load mod" then mod_load_failed input
  else if Contains t "Couldn't acquire exclusive lock" then say (LogCMS ChatChannel "Factorio is already running.") ;; shut_down input
  else if Contains t "caused a non-recoverable error." then
    say (LogCMS ChatChannel "**Factorio encountered a lua-script error and will reboot.**") ;;
    say (AddModHistory "Factorio closed with a lua error." t) ;; stopped input
  else if Contains t "Hosting multiplayer game failed" then
    say (LogCMS ChatChannel (if Contains t "directory iterator cannot open directory" then "Factorio didn't find any save-games."
                             else "Factorio was unable to load a multiplayer game.")) ;; shut_down input
  else if Contains t "level.dat not found." then say (LogCMS ChatChannel "Unable to load save-game.") ;; shut_down input
  else if Contains t "Unexpected error occurred." then
    say (LogCMS ChatChannel "**Factorio crashed.**") ;; say (NotifyFactorioGoodbye (hd_generation input)) ;;
    say (AddModHistory "Factorio crashed" t) ;; mret true
  else if Contains t "CommandLineMultiplayer" && Contains t "No latest save file found in"
  then say (CMS ChatChannel "No save-game found.") ;; shut_down input
  else if Contains t "Scenario" && HasSuffix t "not found" then
    say (CMS ChatChannel "Invalid scenario specified, clearing scenario setting.") ;;
    modify (fun w => w <| ow_Scenario := "" |>) ;; shut_down input
  else
    lastReport ← get ow_LastCrashReport;
    (if HasPrefix t "Error ServerMultiplayerManager" && (CrashReportInterval * Second <? Sub (g_now (oe_game env)) lastReport) then
       modify (fun w => w <| ow_LastCrashReport := g_now (oe_game env) |>) ;;
       (if Contains t "Matching server connection failed" then mret tt
        else say (CMS ReportChannel (oe_GroupName env +:+ "-" +:+ oe_Callsign env +:+ ": " +:+ oe_Name env +:+ ":" +:+ newline +:+ t)))
     else mret tt) ;;
    if Contains t "MultiplayerManager failed:" then multiplayer_failed input else mret true.

(** ** The time of the game *)

(** The loop over the words of the answer to [/time]: day, hour, minute, second. *)
Fixpoint time_words (x : nat) (l all : list string) (t : Z * Z * Z * Z) : H (Z * Z * Z * Z) :=
  match l with
  | [] => mret t
  | word :: l =>
      let '(day, hour, minute, second) := t in
      let before := match x with O => panic | S y => v ← index all y; mret (Atoi v) end in
      t ← (if Contains word "day" then n ← before; mret (n, hour, minute, second)
           else if Contains word "hour" then n ← before; mret (day, n, minute, second)
           else if Contains word "minute" then n ← before; mret (day, hour, n, second)
           else if Contains word "second" then n ← before; mret (day, hour, minute, n)
           else mret t);
      time_words (S x) l all t
  end.

Definition game_time_line (line : string) : bool :=
  Contains line " second" || Contains line " minute" || Contains line " hour" || Contains line " day".
Definition read_game_time (input : handleData) : H (option (Z * Z * Z * Z)) :=
  if game_time_line (hd_lowerLine input) && (1 <? length (hd_lowerWordList input))%nat
  then t ← time_words 0 (hd_lowerWordList input) (hd_lowerWordList input) (0, 0, 0, 0); mret (Some t)
  else mret None.
Definition handleGameTime : handler := fun input => t ← read_game_time input; mret false.
End server.
