(* ===== verification/Output.v ===== *)
(** * The output of the game: [src/support/pipeParse.go], [src/support/pipeHandle_chatwire.go],
    the decoder of [src/fact/softmod_protocol.go]

    The messages of the soft mod, the order of the handlers, and what [HandleChat] does
    with one line.  The compression and the JSON of the messages are parameters. *)
From Stdlib Require Import Ascii.
From S2P Require Import Prelude.
From S2P Require Import GoInt.
From S2P Require Import GoString.
From S2P Require Import GoBase64.
From S2P Require Import GoTime.
From S2P Require Import Glob.
From S2P Require Import PlayerCodec.
From S2P Require Import PlayerDB.
From S2P Require Import Moderation.
From S2P Require Import Sanitize.
From S2P Require Import OutputLine.
From S2P Require Import OutputChat.
From S2P Require Import OutputAccess.
From S2P Require Import OutputPlayers.
From S2P Require Import OutputServer.

(** ** Messages of the soft mod *)
Record chatWireEnvelope := mkEnvelope {
  ev_Version : Z; ev_Kind : string; ev_Command : string; ev_Event : string; ev_OK : bool; ev_Data : string }.
Record chatWireOnlinePlayer := mkOnlinePlayer { cp_Name : string; cp_ScoreTicks : Z; cp_TimeTicks : Z; cp_Type : string; cp_AFK : string }.

(** [compress/zlib], reading at most so many bytes, and [json.Unmarshal] into the types
    of the code; [None] is an error. *)
Class SoftModFormats := {
  zlib_read : Z -> bytes -> option string;
  json_envelope : string -> option chatWireEnvelope;
  json_hello : string -> option string;
  json_status : string -> option (Z * string * bool);
  json_online : string -> option string;                       (* the raw array *)
  json_players : string -> option (list chatWireOnlinePlayer);
  json_preview : string -> option string;
  json_level : string -> option (string * Z);
  json_registration : string -> option (string * string * string);
  json_text : string -> option string }.

Definition SoftModProtocolVersion : Z := 1.
Definition maxPayload : Z := 2 ^ 20.
Definition chatWireTag : string := "[CHATWIRE] ".

Definition DecodeSoftModPayload `{SoftModFormats} (encoded : string) : option string :=
  compressed ← b64_decode StdAlphabet true (to_bytes encoded);
  payload ← zlib_read (maxPayload + 1) compressed;
  if maxPayload <? slen payload then None else Some payload.

Section output.
Context `{UnicodeTables, PrintTable, SoftModFormats}.
Variable env : out_env.
Variable NameFromID : string -> string.
Variable com : community.
Variable discord : guild.
Variables order players_order : list string.
Variable remove_ok : string -> bool.
Variable copy_ok : bool.

Definition online_player (p : chatWireOnlinePlayer) : OnlinePlayerData :=
  mkOnline (cp_Name p) (cp_ScoreTicks p) (cp_TimeTicks p) (StringToLevel (cp_Type p)) (cp_AFK p).

Fixpoint seen_players (l : list chatWireOnlinePlayer) : H (list OnlinePlayerData) :=
  match l with
  | [] => mret []
  | p :: l =>
      if bool_decide (cp_Name p = "") then seen_players l
      else
        on_db_ (UpdateSeen (oe_game env) (cp_Name p)) ;;
        banned ← CheckBanList env com (cp_Name p) false;
        rest ← seen_players l;
        mret (online_player p :: rest)
  end.

Definition handleChatWireOnline (raw : string) : H () :=
  match json_online raw with
  | None => mret tt
  | Some players =>
      let playersJSON := TrimSpace players in
      let parsed := if bool_decide (playersJSON = "") || bool_decide (playersJSON = "null") || bool_decide (playersJSON = "{}")
                    then Some [] else json_players players in
      match parsed with
      | None => mret tt
      | Some l =>
          online ← seen_players l;
          previous ← get ow_NumPlayers;
          let n := Z.of_nat (length online) in
          modify (fun w => w <| ow_NumPlayers := n |> <| ow_OnlinePlayers := online |>) ;;
          if previous =? n then mret tt
          else say UpdateChannelName ;; if n =? 0 then say DoUpdateChannelNameForce else mret tt
      end
  end.

(** [fact.RecordGameTick]: the clock of the game is left out, the count of idle answers is not. *)
Definition PauseThresh : Z := 5.
Definition handleChatWireStatus (raw : string) : H () :=
  match json_status raw with
  | None => mret tt
  | Some (tick, speed, paused) =>
      say (RecordGameTick tick speed paused) ;;
      modify (fun w => w <| ow_PausedTicks := if (paused : bool) then PauseThresh + 1 else 0 |>)
  end.

Definition handleChatWireResponse (generation : Z) (e : chatWireEnvelope) : H () :=
  if negb (ev_OK e) then mret tt
  else if bool_decide (ev_Command e = "hello") then
    match json_hello (ev_Data e) with
    | None => mret tt
    | Some version =>
        if bool_decide (version = "") then mret tt
        else
          soft ← softmod;
          modify (fun w => w <| ow_SoftModVersion := version |>) ;;
          say (SoftModDetected generation) ;;
          if (soft : bool) then mret tt else say ConfigSoftMod ;; say RequestOnlinePlayers
    end
  else if bool_decide (ev_Command e = "status") then handleChatWireStatus (ev_Data e)
  else if bool_decide (ev_Command e = "online") then handleChatWireOnline (ev_Data e)
  else mret tt.

Definition event_tag (event : string) : string :=
  if bool_decide (event = "message") then "[MSG] " else if bool_decide (event = "activity") then "[ACT] "
  else if bool_decide (event = "audit") then "[AUDIT] " else if bool_decide (event = "report") then "[REPORT] "
  else if bool_decide (event = "todo") then "[TODO] " else if bool_decide (event = "error") then "[ERROR] " else "".

Definition ignore {A} (m : H A) : H () := _ ← m; mret tt.

Definition dispatchChatWireTextEvent (event text : string) : H () :=
  let input := preProcessFactorioOutput (event_tag event +:+ text) in
  if bool_decide (event = "message") then ignore (handleSoftModMsg env input)
  else if bool_decide (event ∈ ["activity"; "todo"; "error"]) then ignore (handleActMsg env input)
  else if bool_decide (event = "audit") then ignore (handleAuditMsg input)
  else if bool_decide (event = "report") then ignore (handlePlayerReport env input)
  else if bool_decide (event = "log") then say (LogGame text) else mret tt.

Definition text_events : list string := ["message"; "activity"; "audit"; "report"; "todo"; "error"; "log"].

Definition handleChatWireEvent (event data : string) : H () :=
  if bool_decide (event = "map-preview") then match json_preview data with Some s => say (AnnounceMapPreview s) | None => mret tt end
  else if bool_decide (event = "online") then handleChatWireOnline data
  else if bool_decide (event = "player-level") then
    match json_level data with
    | Some (name, level) =>
        if bool_decide (name = "") then mret tt else ignore (on_db (PlayerLevelSetFromGame (oe_game env) name level))
    | None => mret tt
    end
  else if bool_decide (event = "registration") then
    match json_registration data with
    | Some (ptype, name, code) =>
        ignore (handlePlayerRegister env order players_order discord (preProcessFactorioOutput ("[ACCESS] " +:+ ptype +:+ " " +:+ name +:+ " " +:+ code)))
    | None => mret tt
    end
  else if bool_decide (event ∈ text_events) then match json_text data with Some text => dispatchChatWireTextEvent event text | None => mret tt end
  else mret tt.

Definition handleChatWire : handler := fun input =>
  if negb (HasPrefix (hd_line input) chatWireTag) then mret false
  else
    match DecodeSoftModPayload (TrimSpace (TrimPrefix (hd_line input) chatWireTag)) ≫= json_envelope with
    | None => mret true
    | Some e =>
        (if negb (ev_Version e =? SoftModProtocolVersion) then mret tt
         else if bool_decide (ev_Kind e = "response") then handleChatWireResponse (hd_generation input) e
         else if bool_decide (ev_Kind e = "event") then handleChatWireEvent (ev_Event e) (ev_Data e)
         else mret tt) ;;
        mret true
    end.

(** ** The handlers, and one line *)
Definition noChatHandles : list handler :=
  [handleDisconnect; handleChatWire; handleGameTime; handleOnlinePlayers;
   handlePlayerJoin env com players_order; handlePlayerLeave env; handleMapLoad; handleBan env; handleUnBan env;
   handleFactGoodbye; handleFactReady; handleIncomingAnnounce env; handleFactVersion; handleSaveMsg env;
   handleExitSave env copy_ok; handleDesync env; handleCrashes env remove_ok].

Definition handle_chat (input : handleData) : H () :=
  found ← handleIdiots order input;
  if (found : bool) then mret tt else ignore (handleChatMsg env NameFromID input).

(** The body of the loop of [HandleChat]; [current] is whether the server that printed
    the line still runs. *)
Definition HandleLine (generation : Z) (current : bool) (readLine : string) : H () :=
  if negb (generation =? 0) && negb current then mret tt
  else
    let rawLine := UnicodeCleanup readLine in
    modify (fun w => w <| ow_NoResponseCount := 0 |>
                       <| ow_PausedTicks := if 0 <? ow_PausedTicks w then ow_PausedTicks w - 1 else ow_PausedTicks w |>) ;;
    if bool_decide (rawLine = "") then mret tt
    else
      let input := preProcessFactorioOutput rawLine <| hd_generation := generation |> in
      if HasPrefix (hd_line input) "<server>" then mret tt
      else if chat_line input then handle_chat input
      else runHandles noChatHandles input.

End output.

(** Lines one after the other, each with what is read while it is handled, until one
    stops the loop for good. *)
Record out_line := mkOutLine { ol_env : out_env; ol_generation : Z; ol_current : bool; ol_text : string }.

Section loop.
Context `{UnicodeTables, PrintTable, SoftModFormats}.
Variable NameFromID : string -> string.
Variable com : community.
Variable discord : guild.
Variables order players_order : list string.
Variable remove_ok : string -> bool.
Variable copy_ok : bool.

Fixpoint HandleChat (lines : list out_line) : H () :=
  match lines with
  | [] => mret tt
  | l :: lines =>
      HandleLine (ol_env l) NameFromID com discord order players_order remove_ok copy_ok (ol_generation l) (ol_current l) (ol_text l) ;;
      HandleChat lines
  end.
End loop.
