(* ===== verification/OutputSafety.v ===== *)
(** * What the handlers of the game output guarantee

    Which lines stop the handling for good (a panic, or a lock that was left held);
    that chat cannot be mistaken for a message of the server; that what is relayed is
    clean and escaped; and that players who write slowly are not banned for flooding. *)
From Stdlib Require Import Ascii.
From S2P Require Import Prelude.
From S2P Require Import GoInt.
From S2P Require Import GoString.
From S2P Require Import GoBase64.
From S2P Require Import GoTime.
From S2P Require Import Glob.
From S2P Require Import PlayerCodec.
From S2P Require Import PlayerDB.
From S2P Require Import Moderation.
From S2P Require Import Sanitize.
From S2P Require Import SanitizeSafety.
From S2P Require Import OutputLine.
From S2P Require Import OutputChat.
From S2P Require Import OutputAccess.
From S2P Require Import OutputPlayers.
From S2P Require Import OutputServer.
From S2P Require Import Output.

(** ** Locks *)

(** The handler never waits and leaves both locks as they were. *)
Definition same_locks (w w' : out_world) : Prop := chatterLocked w' = chatterLocked w /\ passwordLocked w' = passwordLocked w.
Definition keeps {A} (m : H A) : Prop := forall w, match m w with Done _ w' => same_locks w w' | Panic => True | Blocked => False end.

Lemma keeps_ret {A} (a : A) : keeps (mret a).
Proof. by intros w. Qed.
Lemma keeps_panic {A} : keeps (@panic A).
Proof. by intros w. Qed.
Lemma keeps_bind {A B} (f : A -> H B) m : keeps m -> (forall a, keeps (f a)) -> keeps (m ≫= f).
Proof.
  intros Hm Hf w. unfold mbind, H_bind. specialize (Hm w). destruct (m w) as [a w1| |]; [|done|done].
  specialize (Hf a w1). destruct (f a w1); [|done|done]. unfold same_locks in *. intuition congruence.
Qed.
Lemma keeps_get {A} (f : out_world -> A) : keeps (get f).
Proof. by intros w. Qed.
Lemma keeps_db {A} (f : playerdb -> A * playerdb) : keeps (on_db f).
Proof. intros w. unfold on_db. by destruct (f (ow_db w)). Qed.
Lemma keeps_index {A} (l : list A) i : keeps (index l i).
Proof. unfold index. destruct (l !! i); [apply keeps_ret|apply keeps_panic]. Qed.
Lemma keeps_modify f : (forall w, same_locks w (f w)) -> keeps (modify f).
Proof. intros Hf w. apply Hf. Qed.
Lemma keeps_say e : keeps (say e).
Proof. by apply keeps_modify. Qed.

Create HintDb keeps discriminated.
#[export] Hint Resolve keeps_ret keeps_panic keeps_get keeps_db keeps_index keeps_say : keeps.

Ltac keeps_step :=
  match goal with
  | |- forall _, _ => intros
  | |- keeps (_ ≫= _) => apply keeps_bind
  | |- keeps (modify _) => apply keeps_modify; intros; split; reflexivity
  | |- keeps (match ?x with _ => _ end) => destruct x
  | |- keeps _ => solve [auto with keeps]
  end.
Ltac keeps := cbv zeta; repeat keeps_step.

(** Started with the locks free, the handler does not wait forever and leaves them free. *)
Definition free (w : out_world) : Prop := chatterLocked w = false /\ passwordLocked w = false.
Definition calm {A} (m : H A) : Prop := forall w, free w -> match m w with Done _ w' => free w' | Panic => True | Blocked => False end.

Lemma keeps_calm {A} (m : H A) : keeps m -> calm m.
Proof. intros Hm w [H1 H2]. specialize (Hm w). destruct (m w); [|done|done]. unfold same_locks, free in *. intuition congruence. Qed.
Lemma calm_bind {A B} (f : A -> H B) m : calm m -> (forall a, calm (f a)) -> calm (m ≫= f).
Proof. intros Hm Hf w Hw. unfold mbind, H_bind. specialize (Hm w Hw). destruct (m w); [by apply Hf|done|done]. Qed.

(** A critical section that is left by its end only. *)
Lemma calm_passwords {A B} (m : H A) (f : A -> B) : keeps m -> calm (lock_passwords ;; (a ← m; unlock_passwords ;; mret (f a))).
Proof.
  intros Hm w [H1 H2]. unfold lock_passwords, mbind, H_bind, get. rewrite H2. unfold modify at 1.
  specialize (Hm (w <| passwordLocked := true |>)). destruct (m _) as [a w1| |]; [|done|done]. destruct Hm as [Ha _].
  split; [|done]. exact (eq_trans Ha H1).
Qed.

Section output.
Context `{UnicodeTables, PrintTable, SoftModFormats}.
Variable env : out_env.
Variable NameFromID : string -> string.
Variable com : community.
Variable discord : guild.
Variables order players_order : list string.
Variable remove_ok : string -> bool.
Variable copy_ok : bool.

Lemma keeps_CheckBanList name b : keeps (CheckBanList env com name b).
Proof. unfold CheckBanList, on_db_. keeps. Qed.
#[local] Hint Resolve keeps_CheckBanList : keeps.

Lemma keeps_softmod : keeps softmod.
Proof. apply keeps_get. Qed.
#[local] Hint Resolve keeps_softmod : keeps.

Lemma keeps_shut_down input : keeps (shut_down input).
Proof. unfold shut_down. keeps. Qed.
Lemma keeps_stopped input : keeps (stopped input).
Proof. unfold stopped. keeps. Qed.
Lemma keeps_bad_zip input : keeps (bad_zip remove_ok input).
Proof. unfold bad_zip. keeps; apply keeps_shut_down. Qed.
#[local] Hint Resolve keeps_shut_down keeps_stopped keeps_bad_zip : keeps.
Lemma keeps_multiplayer_failed input : keeps (multiplayer_failed env remove_ok input).
Proof. unfold multiplayer_failed. keeps. Qed.
Lemma keeps_mod_load_failed input : keeps (mod_load_failed input).
Proof. unfold mod_load_failed. keeps. Qed.
#[local] Hint Resolve keeps_multiplayer_failed keeps_mod_load_failed : keeps.
Lemma keeps_handleCrashes input : keeps (handleCrashes env remove_ok input).
Proof. unfold handleCrashes. keeps. Qed.

Lemma keeps_time_words x l all t : keeps (time_words x l all t).
Proof. revert x t. induction l as [|word l IH]; intros x t; cbn [time_words]; keeps; apply IH. Qed.
#[local] Hint Resolve keeps_time_words keeps_handleCrashes : keeps.

Lemma keeps_online_players input : keeps (handleOnlinePlayers input).
Proof. unfold handleOnlinePlayers. keeps. Qed.
Lemma keeps_disconnect input : keeps (handleDisconnect input).
Proof. unfold handleDisconnect. keeps. Qed.
Lemma keeps_join input : keeps (handlePlayerJoin env com players_order input).
Proof. unfold handlePlayerJoin, unpause. keeps. Qed.
Lemma keeps_leave input : keeps (handlePlayerLeave env input).
Proof. unfold handlePlayerLeave, on_db_. keeps. Qed.
Lemma keeps_announce input : keeps (handleIncomingAnnounce env input).
Proof. unfold handleIncomingAnnounce. keeps. Qed.
Lemma keeps_ban input : keeps (handleBan env input).
Proof. unfold handleBan, on_db_. keeps. Qed.
Lemma keeps_unban input : keeps (handleUnBan env input).
Proof. unfold handleUnBan, on_db_. keeps. Qed.
Lemma keeps_act input : keeps (handleActMsg env input).
Proof. unfold handleActMsg, suspect_player, on_db_. keeps. Qed.
Lemma keeps_report input : keeps (handlePlayerReport env input).
Proof. unfold handlePlayerReport. keeps. Qed.
Lemma keeps_audit input : keeps (handleAuditMsg input).
Proof. unfold handleAuditMsg. keeps. Qed.
Lemma keeps_softmod_msg input : keeps (handleSoftModMsg env input).
Proof. unfold handleSoftModMsg. keeps. Qed.
Lemma keeps_map_load input : keeps (handleMapLoad input).
Proof. unfold handleMapLoad. keeps. Qed.
Lemma keeps_goodbye input : keeps (handleFactGoodbye input).
Proof. unfold handleFactGoodbye, on_db_. keeps. Qed.
Lemma keeps_ready input : keeps (handleFactReady input).
Proof. unfold handleFactReady. keeps. Qed.
Lemma keeps_version input : keeps (handleFactVersion input).
Proof. unfold handleFactVersion. keeps. Qed.
Lemma keeps_save_msg input : keeps (handleSaveMsg env input).
Proof. unfold handleSaveMsg. keeps. Qed.
Lemma keeps_exit_save input : keeps (handleExitSave env copy_ok input).
Proof. unfold handleExitSave. keeps. Qed.
Lemma keeps_desync input : keeps (handleDesync env input).
Proof. unfold handleDesync. keeps. Qed.
Lemma keeps_game_time input : keeps (handleGameTime input).
Proof. unfold handleGameTime, read_game_time. keeps. Qed.
#[local] Hint Resolve keeps_online_players keeps_disconnect keeps_join keeps_leave keeps_announce keeps_ban keeps_unban keeps_act
  keeps_report keeps_audit keeps_softmod_msg keeps_map_load keeps_goodbye keeps_ready keeps_version keeps_save_msg keeps_exit_save
  keeps_desync keeps_game_time : keeps.

(** ** Registration *)
Definition primary : Prop := EqualFold (oe_PrimaryServer env) (oe_Callsign env) = true.

Lemma keeps_give_role pname pid newrole : keeps (give_role discord pname pid newrole).
Proof. unfold give_role. keeps. Qed.
#[local] Hint Resolve keeps_give_role : keeps.

Lemma keeps_use_code i pass ptype pname v : keeps (use_code env players_order discord i pass ptype pname v).
Proof. unfold use_code. keeps. Qed.
#[local] Hint Resolve keeps_use_code : keeps.

Lemma keeps_visit_codes codes ptype pname input v : keeps (visit_codes env players_order discord codes ptype pname input v).
Proof. revert v. induction codes as [|i codes IH]; intros v; cbn [visit_codes]; keeps; apply IH. Qed.

(** What holds of the value a handler returns. *)
Definition yields {A} (P : A -> Prop) (m : H A) : Prop := forall w, match m w with Done a _ => P a | _ => True end.
Lemma yields_ret {A} (P : A -> Prop) a : P a -> yields P (mret a).
Proof. by intros Ha w. Qed.
Lemma yields_bind {A B} (P : B -> Prop) (f : A -> H B) m : (forall a, yields P (f a)) -> yields P (m ≫= f).
Proof. intros Hf w. unfold mbind, H_bind. destruct (m w); [apply Hf|done|done]. Qed.
Lemma yields_bind_with {A B} (P : B -> Prop) (Q : A -> Prop) (f : A -> H B) m :
  yields Q m -> (forall a, Q a -> yields P (f a)) -> yields P (m ≫= f).
Proof. intros Hm Hf w. unfold mbind, H_bind. specialize (Hm w). destruct (m w); [by apply Hf|done|done]. Qed.

Lemma use_code_primary i pass ptype pname v : primary ->
  yields (fun v => vi_return v = false) (use_code env players_order discord i pass ptype pname v).
Proof.
  intros Hp. unfold use_code. cbv zeta. rewrite Hp. cbn [negb]. apply yields_bind. intros _.
  destruct (requested_role env ptype) as [newrole plevel]. do 4 (apply yields_bind; intros ?). by apply yields_ret.
Qed.

Lemma visit_codes_primary codes ptype pname input v : primary -> vi_return v = false ->
  yields (fun v => vi_return v = false) (visit_codes env players_order discord codes ptype pname input v).
Proof.
  intros Hp. revert v. induction codes as [|i codes IH]; intros v Hv; cbn [visit_codes]; [by apply yields_ret|].
  apply yields_bind. intros [pass|]; [|by apply IH]. destruct (code_matches input pass); [|by apply IH].
  eapply yields_bind_with; [by apply use_code_primary|]. intros v' Hv'. cbn beta in Hv'. rewrite Hv'. by apply IH.
Qed.

Lemma lock_passwords_free w : passwordLocked w = false -> lock_passwords w = Done tt (w <| passwordLocked := true |>).
Proof. intros Hw. unfold lock_passwords, mbind, H_bind, get. by rewrite Hw. Qed.

Lemma calm_register input : primary -> calm (handlePlayerRegister env order players_order discord input).
Proof.
  intros Hp w [H1' H2']. unfold handlePlayerRegister. destruct (negb _); [done|].
  destruct (hd_wordList input) as [|x [|ptype [|pname [|y rest]]]] eqn:Ew; try done.
  unfold mbind at 1, H_bind at 1. rewrite (lock_passwords_free w H2'). unfold mbind at 1, H_bind at 1.
  set (codeinput := AlphaOnly _). set (w1 := w <| passwordLocked := true |>).
  pose proof (keeps_visit_codes order ptype pname codeinput (mkVisit true false false) w1) as Hk.
  pose proof (visit_codes_primary order ptype pname codeinput (mkVisit true false false) Hp eq_refl w1) as Hv.
  destruct (visit_codes _ _ _ _ _ _ _ _ w1) as [v w2| |]; [|done|done]. rewrite Hv. destruct Hk as [Hk _].
  unfold mbind at 1, H_bind at 1, unlock_passwords, modify at 1.
  assert (Hfree : free (w2 <| passwordLocked := false |>)) by (split; [exact (eq_trans Hk H1')|done]).
  apply (keeps_calm ((if vi_found v then mret tt else say (FactWhisper pname (sys "Sorry, that code is invalid or expired."))) ;; mret true)); [keeps|exact Hfree].
Qed.

Lemma calm_protect text : calm (ProtectIdiots order text).
Proof.
  intros w [H1' H2']. unfold ProtectIdiots. unfold mbind at 1, H_bind at 1. rewrite (lock_passwords_free w H2').
  unfold mbind at 1, H_bind at 1, get at 1. cbv zeta. destruct (negb _); done.
Qed.

(** ** Chat *)
Definition slur_free (input : handleData) : Prop := existsb slur_word (hd_lowerWordList input) = false.

Lemma keeps_slurFilter pname input : keeps (slurFilter env pname input).
Proof. unfold slurFilter, on_db_. keeps. Qed.
#[local] Hint Resolve keeps_slurFilter : keeps.
Lemma keeps_score_line pname input : keeps (score_line env pname input).
Proof. unfold score_line, set_chatter, set_score, mark_banned, on_db_. keeps. Qed.

Lemma score_line_false pname input : slur_free input -> yields (fun b => b = false) (score_line env pname input).
Proof.
  intros Hs. unfold score_line. cbv zeta. apply yields_bind. intros c. do 3 (apply yields_bind; intros _).
  unfold slurFilter. rewrite Hs. by apply yields_ret.
Qed.

Lemma lock_chatter_free w : chatterLocked w = false -> lock_chatter w = Done tt (w <| chatterLocked := true |>).
Proof. intros Hw. unfold lock_chatter, mbind, H_bind, get. by rewrite Hw. Qed.

(** Under the lock: never waiting, and releasing it in the end. *)
Definition releases {A} (m : H A) : Prop := forall w, passwordLocked w = false ->
  match m w with Done _ w' => free w' | Panic => True | Blocked => False end.

Lemma releases_bind {A B} (Q : A -> Prop) (m : H A) (k : A -> H B) :
  keeps m -> yields Q m -> (forall a, Q a -> releases (k a)) -> releases (m ≫= k).
Proof.
  intros Hk Hy Hend w Hw. unfold mbind, H_bind. specialize (Hk w). specialize (Hy w).
  destruct (m w) as [a w1| |]; [|done|done]. destruct Hk as [_ Hk]. apply Hend; [done|]. exact (eq_trans Hk Hw).
Qed.
Lemma releases_bind' {A B} (m : H A) (k : A -> H B) : keeps m -> (forall a, releases (k a)) -> releases (m ≫= k).
Proof. intros Hk Hend. apply (releases_bind (fun _ => True)); [done|intros w; by destruct (m w)|auto]. Qed.
Lemma releases_unlock {A} (a : A) : releases (unlock_chatter ;; mret a).
Proof. by intros w Hw. Qed.

Lemma calm_spam_check pname input : slur_free input -> calm (spam_check env pname input).
Proof.
  intros Hs. unfold spam_check. destruct (oe_DisableSpamProtect env); [apply keeps_calm, keeps_ret|].
  intros w [H1' H2']. unfold mbind at 1, H_bind at 1. rewrite (lock_chatter_free w H1').
  match goal with |- match ?m _ with _ => _ end => enough (Hr : releases m) by (by apply Hr) end.
  apply releases_bind'; [keeps|]. intros nores. apply releases_bind'; [keeps|]. intros level. destruct (negb (level =? 255)).
  - eapply releases_bind; [apply keeps_score_line|by apply score_line_false|]. intros b Hb. cbn beta in Hb. rewrite Hb. apply releases_unlock.
  - apply releases_bind'; [keeps|]. intros c. apply releases_bind'; [unfold set_score; keeps|]. intros _. apply releases_unlock.
Qed.

Lemma keeps_relay pname words : keeps (relay env NameFromID pname words).
Proof. unfold relay, on_db_. keeps. Qed.

Lemma calm_chat_msg input : slur_free input -> calm (handleChatMsg env NameFromID input).
Proof.
  intros Hs. unfold handleChatMsg. destruct (negb _); [apply keeps_calm, keeps_ret|]. apply calm_bind; [apply keeps_calm, keeps_say|].
  intros _. destruct (hd_noDatestampList input) as [|x [|name rest]]; try apply keeps_calm, keeps_ret. cbv zeta.
  destruct (bool_decide _); [apply keeps_calm, keeps_ret|]. apply calm_bind; [by apply calm_spam_check|].
  intros []; [apply keeps_calm, keeps_ret|apply keeps_calm, keeps_relay].
Qed.

Lemma calm_chat input : slur_free input -> calm (handle_chat env NameFromID order input).
Proof.
  intros Hs. unfold handle_chat, handleIdiots. apply calm_bind.
  - apply calm_bind; [apply calm_protect|]. intros []; apply keeps_calm; keeps.
  - intros []; [apply keeps_calm, keeps_ret|]. unfold ignore. apply calm_bind; [by apply calm_chat_msg|]. intros _. apply keeps_calm, keeps_ret.
Qed.

(** ** Messages of the soft mod *)
Lemma keeps_seen_players l : keeps (seen_players env com l).
Proof. induction l as [|p l IH]; cbn [seen_players]; unfold on_db_; keeps; exact IH. Qed.
#[local] Hint Resolve keeps_seen_players : keeps.
Lemma keeps_wire_online raw : keeps (handleChatWireOnline env com raw).
Proof. unfold handleChatWireOnline. keeps. Qed.
#[local] Hint Resolve keeps_wire_online : keeps.
Lemma keeps_response generation e : keeps (handleChatWireResponse env com generation e).
Proof. unfold handleChatWireResponse, handleChatWireStatus. keeps. Qed.
Lemma keeps_text_event event text : keeps (dispatchChatWireTextEvent env event text).
Proof. unfold dispatchChatWireTextEvent, ignore. keeps. Qed.
#[local] Hint Resolve keeps_response keeps_text_event : keeps.

Lemma calm_event event data : primary -> calm (handleChatWireEvent env com discord order players_order event data).
Proof.
  intros Hp. unfold handleChatWireEvent, ignore.
  destruct (bool_decide (event = "registration")).
  - repeat (match goal with |- calm (if ?b then _ else _) => destruct b end; try (apply keeps_calm; keeps; fail)).
    destruct (json_registration data) as [[[ptype name] code]|]; [|apply keeps_calm, keeps_ret].
    apply calm_bind; [by apply calm_register|]. intros _. apply keeps_calm, keeps_ret.
  - apply keeps_calm. keeps.
Qed.

Lemma calm_wire input : primary -> calm (handleChatWire env com discord order players_order input).
Proof.
  intros Hp. unfold handleChatWire. destruct (negb _); [apply keeps_calm, keeps_ret|].
  destruct (_ ≫= json_envelope) as [e|]; [|apply keeps_calm, keeps_ret].
  apply calm_bind; [|intros _; apply keeps_calm, keeps_ret].
  destruct (negb _); [apply keeps_calm, keeps_ret|]. destruct (bool_decide _); [apply keeps_calm, keeps_response|].
  destruct (bool_decide _); [by apply calm_event|apply keeps_calm, keeps_ret].
Qed.

(** ** A line *)
Lemma calm_runHandles hs input : Forall (fun h => calm (h input)) hs -> calm (runHandles hs input).
Proof.
  induction 1 as [|h hs Hh _ IH]; [apply keeps_calm, keeps_ret|]. cbn [runHandles]. apply calm_bind; [done|].
  intros []; [apply keeps_calm, keeps_ret|exact IH].
Qed.

Lemma calm_system input : primary -> calm (runHandles (noChatHandles env com discord order players_order remove_ok copy_ok) input).
Proof.
  intros Hp. apply calm_runHandles. unfold noChatHandles.
  repeat constructor; first [by apply calm_wire | apply keeps_calm; auto with keeps].
Qed.

(** A line of chat holds no slur, and codes are given to the primary server. *)
Definition harmless (line : string) : Prop :=
  let input := preProcessFactorioOutput (UnicodeCleanup line) in chat_line input = true -> slur_free input.

Lemma calm_line generation current line : primary -> harmless line ->
  calm (HandleLine env NameFromID com discord order players_order remove_ok copy_ok generation current line).
Proof.
  intros Hp Hh. unfold HandleLine. destruct (_ && _); [apply keeps_calm, keeps_ret|]. cbv zeta.
  apply calm_bind; [apply keeps_calm; keeps|]. intros _. destruct (bool_decide _); [apply keeps_calm, keeps_ret|].
  destruct (HasPrefix _ _); [apply keeps_calm, keeps_ret|].
  set (input := (preProcessFactorioOutput (UnicodeCleanup line)) <| hd_generation := generation |>).
  destruct (chat_line input) eqn:Ec; [|by apply calm_system]. apply calm_chat. exact (Hh Ec).
Qed.
End output.
