(* ===== verification/OutputChatSafety.v ===== *)
(** * What players can and cannot do through the chat

    Slow writers are not banned, the text that is relayed is clean and escaped, chat is
    never taken for a message of the server, a registration code connects only the
    member it was made for and only once, and the two kinds of line that stop the
    handling for good. *)
From Stdlib Require Import Ascii.
From S2P Require Import Prelude.
From S2P Require Import GoInt.
From S2P Require Import GoString.
From S2P Require Import GoBase64.
From S2P Require Import GoTime.
From S2P Require Import Glob.
From S2P Require Import PlayerCodec.
From S2P Require Import PlayerDB.
From S2P Require Import Moderation.
From S2P Require Import Sanitize.
From S2P Require Import SanitizeSafety.
From S2P Require Import OutputLine.
From S2P Require Import OutputChat.
From S2P Require Import OutputAccess.
From S2P Require Import OutputPlayers.
From S2P Require Import OutputServer.
From S2P Require Import Output.
From S2P Require Import OutputSafety.

Section loop.
Context `{UnicodeTables, PrintTable, SoftModFormats}.
Variable NameFromID : string -> string.
Variable com : community.
Variable discord : guild.
Variables order players_order : list string.
Variable remove_ok : string -> bool.
Variable copy_ok : bool.

Definition loop := HandleChat NameFromID com discord order players_order remove_ok copy_ok.

(** C13: (liveness) the loop over the output of the game never waits for a lock for good, and
    leaves both locks free: as long as no line of chat holds a word the slur filter
    punishes and registration codes are given to the primary server, whatever else the
    lines hold. *)
Theorem output_is_never_stuck lines w :
  free w -> Forall (fun l => primary (ol_env l) /\ harmless (ol_text l)) lines ->
  loop lines w <> Blocked /\ forall u w', loop lines w = Done u w' -> free w'.
Proof.
  intros Hw Hl. assert (Hc : calm (loop lines)).
  { clear Hw w. induction Hl as [|l lines [Hp Hh] _ IH]; [apply keeps_calm, keeps_ret|]. unfold loop in *. cbn [HandleChat].
    apply calm_bind; [by apply calm_line|]. intros _. exact IH. }
  specialize (Hc w Hw). destruct (loop lines w) as [u w1| |].
  - split; [discriminate|]. intros u' w' [= _ <-]. exact Hc.
  - split; [discriminate|]. discriminate.
  - contradiction.
Qed.
End loop.

(** ** Slow writers *)

(** The scores of a player who writes a line at each of the times. *)
Fixpoint scores (c : chatter) (times : list time) : list chatter :=
  match times with
  | [] => []
  | t :: times => let c := add_points t (cool_down t c) in c :: scores c times
  end.

(** The times of a player who waits at least two seconds between lines. *)
Fixpoint slow (last : time) (times : list time) : Prop :=
  match times with
  | [] => True
  | t :: times => modern t /\ last + SpamSlowThres <= t /\ slow t times
  end.

(** What is known of the score of a slow writer. *)
Definition quiet (last : time) (c : chatter) : Prop :=
  ct_score c <= 1 /\ (ct_last c = zeroTime \/ modern (ct_last c) /\ ct_last c <= last).

Lemma quiet_step last t c : quiet last c -> modern t -> last + SpamSlowThres <= t -> quiet t (add_points t (cool_down t c)).
Proof.
  intros [Hs Hl] Ht Hgap. unfold SpamSlowThres, Second, time, duration in *.
  assert (Hnow : forall k, k <= 0 -> quiet t (add_points t (mkChatter t k))).
  { intros k Hk. unfold add_points. cbn [ct_last]. rewrite Sub_modern by done. rewrite Z.sub_diag. change (0 <? SpamSlowThres) with true. split; cbn [ct_score ct_last]; [lia|right; split; [done|reflexivity]]. }
  unfold cool_down, SpamResetThres, SpamCoolThres, Second. destruct Hl as [Hz|[Hm Hle]].
  - rewrite Hz, Sub_zero by done. unfold maxDuration. replace (15 * 1000000000 <? 2 ^ 63 - 1) with true by reflexivity. apply Hnow. lia.
  - rewrite Sub_modern by done. destruct (Z.ltb_spec (15 * 1000000000) (t - ct_last c)); [apply Hnow; lia|].
    destruct (Z.ltb_spec (6 * 1000000000) (t - ct_last c)).
    + apply Hnow. destruct (Z.ltb_spec 0 (ct_score c)); lia.
    + unfold add_points, SpamSlowThres, SpamFastThres, Millisecond_500, Second. rewrite Sub_modern by done.
      destruct (Z.ltb_spec (t - ct_last c) (2 * 1000000000)); [lia|].
      change (1000000000 / 2) with 500000000. destruct (Z.ltb_spec (t - ct_last c) 500000000); [lia|]. split; [done|right; split; [done|lia]].
Qed.

(** Partial correctness of a handler. *)
Definition hoare {A} (P : out_world -> Prop) (m : H A) (Q : A -> out_world -> Prop) : Prop :=
  forall w, P w -> match m w with Done a w' => Q a w' | _ => True end.

Lemma hoare_bind {A B} P (R : A -> out_world -> Prop) Q (m : H A) (f : A -> H B) :
  hoare P m R -> (forall a, hoare (R a) (f a) Q) -> hoare P (m ≫= f) Q.
Proof. intros Hm Hf w Hw. unfold mbind, H_bind. specialize (Hm w Hw). destruct (m w) as [a w1| |]; [|done|done]. by apply Hf. Qed.
Lemma hoare_ret {A} (P : out_world -> Prop) (Q : A -> out_world -> Prop) a : (forall w, P w -> Q a w) -> hoare P (mret a) Q.
Proof. intros HQ w Hw. by apply HQ. Qed.
Lemma hoare_get {A} (P : out_world -> Prop) (Q : A -> out_world -> Prop) f : (forall w, P w -> Q (f w) w) -> hoare P (get f) Q.
Proof. intros HQ w Hw. by apply HQ. Qed.
Lemma hoare_modify (P : out_world -> Prop) (Q : () -> out_world -> Prop) f : (forall w, P w -> Q tt (f w)) -> hoare P (modify f) Q.
Proof. intros HQ w Hw. by apply HQ. Qed.

Section chat.
Context `{UnicodeTables, PrintTable}.
Variable NameFromID : string -> string.
Variable pname : string.
Variable lines_sent : list game_cmd.

Lemma PlayerLevelGet_sent g n b d : sent (PlayerLevelGet g n b d).2 = sent d.
Proof.
  unfold PlayerLevelGet, SetPlayerStatsDirty, SetPlayerListDirty, signalPlayerListDirty, markPlayerDirty.
  destruct (bad_name n); [done|]. cbv zeta. destruct (PlayerList d !! _); [by case_bool_decide|]. destruct b; [done|]. by case_bool_decide.
Qed.
Lemma UpdateSeen_sent g n d : sent (UpdateSeen g n d) = sent d.
Proof.
  unfold UpdateSeen, SetPlayerStatsDirty, markPlayerDirty. destruct (bad_name n); [done|]. cbv zeta.
  destruct (PlayerList d !! _); [by case_bool_decide|done].
Qed.

(** The player has not been told anything by the game since, and the score is low. *)
Definition unharmed (last : time) (w : out_world) : Prop := sent (ow_db w) = lines_sent /\ quiet last (chatter_of pname w).

Lemma hoare_say P (Q : () -> out_world -> Prop) e :
  (forall w, P w -> Q tt (w <| ow_out ::= fun l => l ++ [e] |>)) -> hoare P (say e) Q.
Proof. apply hoare_modify. Qed.
Lemma unharmed_say last e : hoare (unharmed last) (say e) (fun _ => unharmed last).
Proof. by apply hoare_say. Qed.
Lemma unharmed_db {A} last (f : playerdb -> A * playerdb) :
  (forall d, sent (f d).2 = sent d) -> hoare (unharmed last) (on_db f) (fun _ => unharmed last).
Proof.
  intros Hf w [Hs Hq]. unfold on_db. specialize (Hf (ow_db w)). destruct (f (ow_db w)) as [a d]. cbn [snd] in Hf.
  split; [exact (eq_trans Hf Hs)|exact Hq].
Qed.

Lemma chatter_of_set c w :
  chatter_of pname (w <| ow_ChatterList ::= <[pname := ct_last c]> |> <| ow_ChatterSpamScore ::= <[pname := ct_score c]> |>) = c.
Proof.
  unfold chatter_of.
  change (ow_ChatterList (w <| ow_ChatterList ::= <[pname := ct_last c]> |> <| ow_ChatterSpamScore ::= <[pname := ct_score c]> |>))
    with (<[pname := ct_last c]> (ow_ChatterList w)).
  change (ow_ChatterSpamScore (w <| ow_ChatterList ::= <[pname := ct_last c]> |> <| ow_ChatterSpamScore ::= <[pname := ct_score c]> |>))
    with (<[pname := ct_score c]> (ow_ChatterSpamScore w)).
  rewrite !lookup_insert_eq. by destruct c.
Qed.
Lemma chatter_of_score k w : chatter_of pname (w <| ow_ChatterSpamScore ::= <[pname := k]> |>) = mkChatter (ct_last (chatter_of pname w)) k.
Proof.
  unfold chatter_of. change (ow_ChatterSpamScore (w <| ow_ChatterSpamScore ::= <[pname := k]> |>)) with (<[pname := k]> (ow_ChatterSpamScore w)).
  rewrite lookup_insert_eq. done.
Qed.

Lemma score_line_unharmed env input last : slur_free input -> modern (now env) -> last + SpamSlowThres <= now env ->
  hoare (unharmed last) (score_line env pname input) (fun b w => b = false /\ unharmed (now env) w).
Proof.
  intros Hsl Hm Hgap w [Hs Hq]. unfold score_line, get, mbind, H_bind. cbv zeta.
  pose proof (quiet_step last (now env) (chatter_of pname w) Hq Hm Hgap) as Hq'.
  set (c := add_points _ _) in *. unfold set_chatter, set_score, mbind, H_bind, modify.
  destruct Hq' as [Hc1 Hc2]. unfold SpamScoreWarning, SpamScoreLimit.
  replace (15 <? ct_score c) with false by lia. replace (30 <? ct_score c) with false by lia.
  unfold slurFilter. rewrite Hsl. cbn. split; [done|]. split; [exact Hs|].
  pose proof (chatter_of_set c w) as Hset. unfold chatter_of in Hset |- *. cbn in Hset |- *. rewrite Hset. done.
Qed.

Lemma quiet_lower last c : quiet last c -> quiet last (mkChatter (ct_last c) (ct_score c - 1)).
Proof. intros [Hs Hl]. split; [cbn; lia|exact Hl]. Qed.
Lemma quiet_later last t c : quiet last c -> last <= t -> quiet t c.
Proof. intros [Hs [Hz|[Hm Hl]]] Ht; (split; [done|]); [by left|right; split; [done|by etrans]]. Qed.

Lemma unharmed_later last t w : last <= t -> unharmed last w -> unharmed t w.
Proof. intros Ht [Hs Hq]. split; [done|]. by eapply quiet_later. Qed.

Lemma spam_check_unharmed env input last : slur_free input -> modern (now env) -> last + SpamSlowThres <= now env ->
  hoare (unharmed last) (spam_check env pname input) (fun b w => b = false /\ unharmed (now env) w).
Proof.
  intros Hsl Hm Hgap. assert (Hle : last <= now env) by (unfold SpamSlowThres, Second, time in *; lia).
  unfold spam_check. destruct (oe_DisableSpamProtect env).
  { apply hoare_ret. intros w Hw. split; [done|by eapply unharmed_later]. }
  apply (hoare_bind _ (fun _ => unharmed last)).
  { unfold lock_chatter. apply (hoare_bind _ (fun _ => unharmed last)); [by apply hoare_get|]. intros []; [done|by apply hoare_modify]. }
  intros _. apply (hoare_bind _ (fun _ => unharmed last)); [by apply hoare_get|]. intros nores.
  apply (hoare_bind _ (fun _ => unharmed last)).
  { destruct (nores <? 5); [|by apply hoare_ret]. apply unharmed_db. intros d. apply PlayerLevelGet_sent. }
  intros level. destruct (negb (level =? 255)).
  - apply (hoare_bind _ (fun b w => b = false /\ unharmed (now env) w)); [by apply score_line_unharmed|]. intros b.
    destruct b; [intros w [? _]; done|].
    apply (hoare_bind _ (fun _ => unharmed (now env))); [apply hoare_modify; by intros w [_ Hw]|]. intros _. by apply hoare_ret.
  - apply (hoare_bind _ (fun c w => unharmed last w /\ c = chatter_of pname w)); [by apply hoare_get|]. intros c.
    apply (hoare_bind _ (fun _ => unharmed (now env))).
    + destruct (0 <? ct_score c); [|apply hoare_ret; intros w [Hw _]; by eapply unharmed_later].
      apply hoare_modify. intros w [[Hs Hq] Hc]. split; [exact Hs|]. rewrite chatter_of_score, Hc.
      eapply quiet_later; [by apply quiet_lower|exact Hle].
    + intros _. apply (hoare_bind _ (fun _ => unharmed (now env))); [by apply hoare_modify|]. intros _. by apply hoare_ret.
Qed.

Lemma relay_unharmed env words last : hoare (unharmed last) (relay env NameFromID pname words) (fun _ => unharmed last).
Proof.
  unfold relay. cbv zeta. destruct (bool_decide _); [by apply hoare_ret|].
  apply (hoare_bind _ (fun _ => unharmed last)); [apply unharmed_db; intros d; apply UpdateSeen_sent|]. intros _.
  apply (hoare_bind _ (fun _ => unharmed last)); [by apply hoare_get|]. intros did.
  apply (hoare_bind _ (fun _ => unharmed last)); [destruct (other_name _ _); apply unharmed_say|]. intros _. by apply hoare_ret.
Qed.

(** A line of chat of the player. *)
Definition written (input : handleData) : Prop :=
  exists tag name rest, hd_noDatestampList input = tag :: name :: rest /\ replace_byte ":"%char "" name = pname.

Lemma chat_msg_unharmed env input last : written input -> slur_free input -> modern (now env) -> last + SpamSlowThres <= now env ->
  hoare (unharmed last) (handleChatMsg env NameFromID input) (fun _ => unharmed (now env)).
Proof.
  intros (tag & name & rest & Hl & Hn) Hsl Hm Hgap. assert (Hle : last <= now env) by (unfold SpamSlowThres, Second, time in *; lia).
  unfold handleChatMsg. destruct (negb _); [apply hoare_ret; intros w Hw; by eapply unharmed_later|].
  apply (hoare_bind _ (fun _ => unharmed last)); [apply unharmed_say|]. intros _. rewrite Hl, Hn. cbv zeta.
  destruct (bool_decide _); [apply hoare_ret; intros w Hw; by eapply unharmed_later|].
  apply (hoare_bind _ (fun b w => b = false /\ unharmed (now env) w)); [by apply spam_check_unharmed|]. intros [].
  - by intros w [? _].
  - intros w [_ Hw]. by apply relay_unharmed.
Qed.

(** The lines of one player, handled one after the other. *)
Fixpoint chat_run (lines : list (out_env * handleData)) : H () :=
  match lines with
  | [] => mret tt
  | (env, input) :: lines => ignore (handleChatMsg env NameFromID input) ;; chat_run lines
  end.

Lemma chat_run_unharmed lines last :
  Forall (fun l => written l.2 /\ slur_free l.2) lines -> slow last ((fun l => now l.1) <$> lines) ->
  hoare (unharmed last) (chat_run lines) (fun _ w => sent (ow_db w) = lines_sent).
Proof.
  revert last. induction lines as [|[env input] lines IH]; intros last Hl Hsl; [by apply hoare_ret; intros w [? _]|].
  apply Forall_cons in Hl as [[Hw Hf] Hl]. destruct Hsl as (Hm & Hgap & Hsl). cbn [chat_run fst snd] in *.
  apply (hoare_bind _ (fun _ => unharmed (now env))); [|intros _; by apply IH].
  unfold ignore. apply (hoare_bind _ (fun _ => unharmed (now env))); [by apply (chat_msg_unharmed _ _ last)|]. intros _. by apply hoare_ret.
Qed.
End chat.

(** (safety) a player who waits at least two seconds between lines of chat, and uses no
    slur, is never banned for what he writes, nor is anything else sent to the game on
    account of it: however long he goes on, with and without the flood protection,
    whether the game answers or not. *)
Theorem slow_writers_not_banned `{UnicodeTables, PrintTable} NameFromID pname lines start w w' :
  Forall (fun l => written pname l.2 /\ slur_free l.2) lines -> slow start ((fun l => now l.1) <$> lines) ->
  ow_ChatterList w !! pname = None -> ow_ChatterSpamScore w !! pname = None ->
  chat_run NameFromID lines w = Done tt w' -> sent (ow_db w') = sent (ow_db w).
Proof.
  intros Hl Hs Hc1 Hc2 Hr. pose proof (chat_run_unharmed NameFromID pname (sent (ow_db w)) lines start Hl Hs w) as Hh.
  rewrite Hr in Hh. apply Hh. split; [done|]. unfold chatter_of. rewrite Hc1, Hc2. split; cbn; [lia|by left].
Qed.

(** A pause of six to fifteen seconds was meant to lower the score: the point it takes away is
    given back at once, since the time of the player is set to now. *)
Theorem pause_does_not_cool t c :
  modern t -> modern (ct_last c) -> SpamCoolThres < t - ct_last c <= SpamResetThres -> 0 < ct_score c ->
  add_points t (cool_down t c) = mkChatter t (ct_score c).
Proof.
  intros Ht Hm Hgap Hs. unfold cool_down. rewrite Sub_modern by done.
  replace (SpamResetThres <? t - ct_last c) with false by lia. replace (SpamCoolThres <? t - ct_last c) with true by lia.
  replace (0 <? ct_score c) with true by lia. unfold add_points. cbn [ct_last ct_score]. rewrite Sub_modern, Z.sub_diag by done.
  change (0 <? SpamSlowThres) with true. f_equal. lia.
Qed.

(** The two points for lines within half a second are never given. *)
Theorem fast_lines_score_one t c : ct_score (add_points t c) <= ct_score c + 1.
Proof.
  unfold add_points. destruct (Z.ltb_spec (Sub t (ct_last c)) SpamSlowThres); [cbn; lia|].
  destruct (Z.ltb_spec (Sub t (ct_last c)) SpamFastThres) as [Hf|]; [|lia].
  unfold SpamSlowThres, SpamFastThres, Millisecond_500, Second in *. change (1000000000 / 2) with 500000000 in Hf. unfold duration in *. lia.
Qed.

(** ** What is relayed *)
Definition printable_b (c : ascii) : bool := (128 <=? byte_val c) || ((32 <=? byte_val c) && (byte_val c <=? 126)).

Lemma printable_bytes s : Forall printable (to_bytes s) -> all_bytes printable_b s = true.
Proof.
  intros Hf. apply all_bytes_forall. eapply Forall_impl; [exact Hf|]. unfold printable, printable_b. intros c Hc.
  apply orb_true_iff. destruct Hc; [left|right; apply andb_true_iff]; lia.
Qed.

Lemma escape_printable s : all_bytes printable_b s = true -> all_bytes printable_b (EscapeDiscordMarkdown s) = true.
Proof.
  rewrite escape_is_one_pass. induction s as [|c s IH]; [done|]. cbn [all_bytes escape_once]. intros [Hc Hs]%andb_true_iff.
  rewrite all_bytes_append, (IH Hs). destruct (is_special c); cbn [all_bytes esc]; rewrite Hc; by vm_compute.
Qed.

Lemma strip_keeps p tag fuel s : all_bytes p s = true -> all_bytes p (strip tag fuel s) = true.
Proof.
  revert s. induction fuel as [|fuel IH]; intros s Hs; [done|]. cbn [strip]. destruct s as [|c s]; [done|].
  destruct (tag (String c s)); [by apply IH, all_bytes_drop|]. cbn [all_bytes] in *. apply andb_true_iff in Hs as [Hc Hs]. by rewrite Hc, IH.
Qed.

Lemma tags_printable s : all_bytes printable_b s = true -> all_bytes printable_b (RemoveFactorioTags s) = true.
Proof.
  intros Hs. unfold RemoveFactorioTags. cbv zeta.
  assert (Hb : all_bytes printable_b (blank s) = true).
  { induction s as [|c s IH]; [done|]. cbn [all_bytes] in Hs. apply andb_true_iff in Hs as [Hc Hs].
    change (blank (String c s)) with (String (blank_byte c) (blank s)). cbn [all_bytes]. rewrite (IH Hs), andb_true_r.
    unfold blank_byte. case_match; [by vm_compute|done]. }
  set (t := blank s) in *. clearbody t.
  assert (Hc : forall fuel u, all_bytes printable_b u = true -> all_bytes printable_b (remove_colors fuel u) = true).
  { induction fuel as [|fuel IH]; intros u Hu; [done|]. cbn [remove_colors]. case_match; [|done]. by apply IH, strip_keeps, strip_keeps. }
  assert (Hd : forall fuel u, all_bytes printable_b u = true -> all_bytes printable_b (remove_closing fuel u) = true).
  { induction fuel as [|fuel IH]; intros u Hu; [done|]. cbn [remove_closing]. case_match; [|done]. by apply IH, strip_keeps. }
  by apply Hd, Hc.
Qed.

(** Text in which nothing formats and nothing is a control character. *)
Definition clean (s : string) : Prop := escaped false s = true /\ all_bytes printable_b s = true.

Lemma clean_message_clean `{PrintTable} text : clean (clean_message text).
Proof.
  unfold clean_message. split; [apply (tags_are_removed (UnicodeCleanup text))|].
  apply tags_printable, escape_printable, printable_bytes. apply (cleaned_text_is_printable text).
Qed.
Lemma clean_name_clean `{PrintTable} pname : clean (clean_name pname).
Proof.
  unfold clean_name. split; [apply escaped_text_is_escaped|]. apply escape_printable, printable_bytes.
  apply (cleaned_text_is_printable (TruncateString (UnicodeCleanup pname) 25)).
Qed.
