(* ===== verification/OutputPanics.v ===== *)
(** * Which lines of the game crash the program

    The handlers index the words of a line; two of them do it without enough words.
    The panic is not recovered, so such a line ends the process. *)
From Stdlib Require Import Ascii.
From S2P Require Import Prelude.
From S2P Require Import GoInt.
From S2P Require Import GoString.
From S2P Require Import GoBase64.
From S2P Require Import GoTime.
From S2P Require Import Glob.
From S2P Require Import PlayerCodec.
From S2P Require Import PlayerDB.
From S2P Require Import Moderation.
From S2P Require Import Sanitize.
From S2P Require Import OutputLine.
From S2P Require Import OutputChat.
From S2P Require Import OutputAccess.
From S2P Require Import OutputPlayers.
From S2P Require Import OutputServer.
From S2P Require Import Output.

(** The handler panics in no world. *)
Definition total {A} (m : H A) : Prop := forall w, m w <> Panic.

Lemma total_ret {A} (a : A) : total (mret a).
Proof. by intros w. Qed.
Lemma total_blocked {A} : total (@blocked A).
Proof. by intros w. Qed.
Lemma total_bind {A B} (f : A -> H B) m : total m -> (forall a, total (f a)) -> total (m ≫= f).
Proof. intros Hm Hf w. unfold mbind, H_bind. specialize (Hm w). destruct (m w); [apply Hf|done|done]. Qed.
Lemma total_get {A} (f : out_world -> A) : total (get f).
Proof. by intros w. Qed.
Lemma total_db {A} (f : playerdb -> A * playerdb) : total (on_db f).
Proof. intros w. unfold on_db. by destruct (f (ow_db w)). Qed.
Lemma total_modify f : total (modify f).
Proof. by intros w. Qed.
Lemma total_say e : total (say e).
Proof. apply total_modify. Qed.

Create HintDb total discriminated.
#[export] Hint Resolve total_ret total_blocked total_get total_db total_modify total_say : total.

Ltac total_step :=
  match goal with
  | |- forall _, _ => intros
  | |- total (_ ≫= _) => apply total_bind
  | |- total (match ?x with _ => _ end) => destruct x
  | |- total _ => solve [auto with total]
  end.
Ltac total := cbv zeta; repeat total_step.

(** A line that names a mod which failed to load in its eleventh word, and has ten. *)
Definition short_mod_line (input : handleData) : Prop :=
  Contains (hd_noTimecode input) "Failed to load mod" = true /\ length (hd_wordList input) = 10%nat.
(** A line that names a bad archive in its eighth word, and has seven. *)
Definition short_zip_line (input : handleData) : Prop :=
  Contains (hd_noTimecode input) "(Bad zip file)" = true /\ length (hd_trimmedWords input) = 7%nat.
(** A line whose first word is taken for a unit of time. *)
Definition unit_word (word : string) : bool := Contains word "day" || Contains word "hour" || Contains word "minute" || Contains word "second".
Definition unit_first (input : handleData) : Prop :=
  game_time_line (hd_lowerLine input) = true /\ (1 < length (hd_lowerWordList input))%nat /\
  exists word rest, hd_lowerWordList input = word :: rest /\ unit_word word = true.

Definition crashing (input : handleData) : Prop := short_mod_line input \/ short_zip_line input \/ unit_first input.

Section output.
Context `{UnicodeTables, PrintTable, SoftModFormats}.
Variable env : out_env.
Variable com : community.
Variable discord : guild.
Variables order players_order : list string.
Variable remove_ok : string -> bool.
Variable copy_ok : bool.

Lemma total_index {A} (l : list A) i : (i < length l)%nat -> total (index l i).
Proof. intros Hi. unfold index. apply lookup_lt_is_Some in Hi as [x ->]. apply total_ret. Qed.

Lemma total_shut_down input : total (shut_down input).
Proof. unfold shut_down. total. Qed.
Lemma total_stopped input : total (stopped input).
Proof. unfold stopped. total. Qed.
#[local] Hint Resolve total_shut_down total_stopped : total.

Lemma total_bad_zip input : length (hd_trimmedWords input) <> 7%nat -> total (bad_zip remove_ok input).
Proof.
  intros Hl. unfold bad_zip. destruct (Nat.ltb_spec 6 (length (hd_trimmedWords input))); [|total].
  apply total_bind; [apply total_index; lia|]. total.
Qed.
Lemma total_mod_load_failed input : length (hd_wordList input) <> 10%nat -> total (mod_load_failed input).
Proof.
  intros Hl. unfold mod_load_failed. apply total_bind; [|total]. destruct (Nat.leb_spec 10 (length (hd_wordList input))); [|total].
  apply total_bind; [apply total_index; lia|]. total.
Qed.

Lemma total_multiplayer input : ~ short_zip_line input -> total (multiplayer_failed env remove_ok input).
Proof.
  intros Hn. unfold multiplayer_failed. cbv zeta.
  repeat (match goal with |- total (if ?b then _ else _) => destruct b end; [total|]).
  apply total_bind; [|total]. destruct (Contains _ "(Bad zip file)") eqn:E; [|total].
  apply total_bad_zip. intros Hl. apply Hn. by split.
Qed.

Lemma total_crashes input : ~ short_mod_line input -> ~ short_zip_line input -> total (handleCrashes env remove_ok input).
Proof.
  intros Hm Hz. unfold handleCrashes. cbv zeta. destruct (negb _); [total|]. destruct (Contains _ "Failed to load mod") eqn:E.
  { apply total_mod_load_failed. intros Hl. apply Hm. by split. }
  repeat (match goal with |- total (if ?b then _ else _) => destruct b end; [total|]).
  apply total_bind; [total|]. intros lastReport. apply total_bind; [total|]. intros _. destruct (Contains _ "MultiplayerManager failed:"); [by apply total_multiplayer|total].
Qed.

Lemma total_time_words x l all t : (length all = x + length l)%nat -> (0 < x)%nat \/ (forall word rest, l = word :: rest -> unit_word word = false) ->
  total (time_words x l all t).
Proof.
  revert x t. induction l as [|word l IH]; intros x t Hl Hx; cbn [time_words length] in *; [total|].
  destruct t as [[[day hour] minute] second]. cbv zeta.
  assert (Hnext : forall t, total (time_words (S x) l all t)) by (intros t; apply IH; [lia|left; lia]).
  destruct x as [|x].
  - destruct Hx as [Hx|Hx]; [lia|]. specialize (Hx word l eq_refl). unfold unit_word in Hx. apply orb_false_iff in Hx as [Hx Hsec].
    apply orb_false_iff in Hx as [Hx Hmin]. apply orb_false_iff in Hx as [Hday Hhour]. rewrite Hday, Hhour, Hmin, Hsec. apply total_bind; [total|exact Hnext].
  - apply total_bind; [|exact Hnext].
    assert (Hi : total (index all x)) by (apply total_index; lia).
    repeat (match goal with |- total (if ?b then _ else _) => destruct b end; [apply total_bind; [apply total_bind; [exact Hi|total]|total]|]). total.
Qed.

Lemma total_game_time input : ~ unit_first input -> total (handleGameTime input).
Proof.
  intros Hn. unfold handleGameTime, read_game_time. apply total_bind; [|total].
  destruct (game_time_line _) eqn:E1; cbn [andb]; [|total]. destruct (Nat.ltb_spec 1 (length (hd_lowerWordList input))); cbn [andb]; [|total].
  apply total_bind; [|total]. apply total_time_words; [done|]. right. intros word rest Hw.
  destruct (unit_word word) eqn:E2; [|done]. destruct Hn. split; [done|]. split; [done|]. eauto.
Qed.

(** ** The other handlers *)
Lemma total_softmod : total softmod.
Proof. apply total_get. Qed.
Lemma total_CheckBanList name b : total (CheckBanList env com name b).
Proof. unfold CheckBanList, on_db_. total. Qed.
#[local] Hint Resolve total_softmod total_CheckBanList : total.

Lemma total_lock_passwords : total lock_passwords.
Proof. unfold lock_passwords. total. Qed.
#[local] Hint Resolve total_lock_passwords : total.
Lemma total_give_role pname pid newrole : total (give_role discord pname pid newrole).
Proof. unfold give_role. total. Qed.
#[local] Hint Resolve total_give_role : total.
Lemma total_use_code i pass ptype pname v : total (use_code env players_order discord i pass ptype pname v).
Proof. unfold use_code. total. Qed.
#[local] Hint Resolve total_use_code : total.
Lemma total_visit_codes codes ptype pname input v : total (visit_codes env players_order discord codes ptype pname input v).
Proof. revert v. induction codes as [|i codes IH]; intros v; cbn [visit_codes]; total; apply IH. Qed.
#[local] Hint Resolve total_visit_codes : total.
Lemma total_register input : total (handlePlayerRegister env order players_order discord input).
Proof. unfold handlePlayerRegister, unlock_passwords. total. Qed.

Lemma total_seen_players l : total (seen_players env com l).
Proof. induction l as [|p l IH]; cbn [seen_players]; unfold on_db_; total; exact IH. Qed.
#[local] Hint Resolve total_register total_seen_players : total.
Lemma total_wire input : total (handleChatWire env com discord order players_order input).
Proof.
  unfold handleChatWire, handleChatWireResponse, handleChatWireEvent, handleChatWireStatus, handleChatWireOnline, dispatchChatWireTextEvent, ignore,
    handleSoftModMsg, handleActMsg, suspect_player, handleAuditMsg, handlePlayerReport, on_db_. total.
Qed.

Lemma total_runHandles hs input : Forall (fun h => total (h input)) hs -> total (runHandles hs input).
Proof. induction 1 as [|h hs Hh _ IH]; [apply total_ret|]. cbn [runHandles]. apply total_bind; [done|]. intros []; [apply total_ret|exact IH]. Qed.

(** (error) a line of the server can crash the program in three ways only: it reports a mod
    that failed to load in exactly ten words, a bad archive in exactly seven, or it
    reads like an answer to the question for the time and begins with the unit. *)
Theorem only_short_lines_crash input w :
  ~ crashing input -> runHandles (noChatHandles env com discord order players_order remove_ok copy_ok) input w <> Panic.
Proof.
  intros Hn. revert w. apply total_runHandles. unfold noChatHandles.
  assert (Hm : ~ short_mod_line input) by (intros Hx; apply Hn; by left).
  assert (Hz : ~ short_zip_line input) by (intros Hx; apply Hn; right; by left).
  assert (Ht : ~ unit_first input) by (intros Hx; apply Hn; right; by right).
  repeat constructor; first [by apply total_crashes | by apply total_game_time | apply total_wire
    | unfold handleDisconnect, handleOnlinePlayers, handlePlayerJoin, unpause, handlePlayerLeave, handleMapLoad, handleBan, handleUnBan,
        handleFactGoodbye, handleFactReady, handleIncomingAnnounce, handleFactVersion, handleSaveMsg, handleExitSave, handleDesync, on_db_; total].
Qed.
End output.

(** ** Lines that do crash it *)
Module PanicDemo.
#[local] Existing Instance ascii_tables.
#[local] Instance demo_print : PrintTable := {| uni_print := fun _ => true |}.
#[local] Instance demo_formats : SoftModFormats := {|
  zlib_read := fun _ _ => None; json_envelope := fun _ => None; json_hello := fun _ => None; json_status := fun _ => None; json_online := fun _ => None;
  json_players := fun _ => None; json_preview := fun _ => None; json_level := fun _ => None; json_registration := fun _ => None; json_text := fun _ => None |}.

Definition demo_game : game := {|
  g_now := 1000 * Second; g_date := "01-01-2026"; g_running := true; g_CustomWhitelist := false; g_RegularsOnly := false; g_MembersOnly := false;
  g_online := []; g_roles := {| role_New := "n"; role_Member := "m"; role_Regular := "r"; role_Veteran := "v"; role_Moderator := "o" |} |}.
Definition demo_env : out_env := mkOutEnv demo_game "10-00" 0 false false false false "a" "Alpha" "Group" "a" "1" "" "" "" "/saves" 34197 0.
Definition demo_world : out_world :=
  mkOut emptyDB [] ∅ ∅ false ∅ false 0 [] false "" false zeroTime "" zeroTime zeroTime "" "" "" 0 "" "" 0 "Unknown" 0.
Definition demo_community : community := mkCommunity [] false false (fun _ => false) (fun _ => false).
Definition demo_guild : guild := mkGuild true (fun r => Some r) true.
Definition demo_line (text : string) : ran () :=
  HandleLine demo_env (fun _ => "") demo_community demo_guild [] [] (fun _ => true) true 0 true text demo_world.

Theorem ten_words_crash : demo_line "1.0 Error Main.cpp:1: Failed to load mod x: no file" = Panic.
Proof. vm_compute. reflexivity. Qed.
Theorem seven_words_crash : demo_line "1.0 Error MultiplayerManager failed: (Bad zip file)" = Panic.
Proof. vm_compute. reflexivity. Qed.
Theorem unit_first_crashes : demo_line "Monday in 1 day" = Panic.
Proof. vm_compute. reflexivity. Qed.

Lemma only_short_lines_crash_witness :
  runHandles (noChatHandles demo_env demo_community demo_guild [] [] (fun _ => true) true) (preProcessFactorioOutput "1.0 Goodbye") demo_world <> Panic.
Proof.
  apply only_short_lines_crash. intros [[H1 _]|[[H1 _]|[H1 _]]]; vm_compute in H1; discriminate H1.
Defined.
End PanicDemo.
