(* ===== verification/OutputRelay.v ===== *)
(** * What a line of chat can do: it is logged and relayed, clean and escaped

    The game prints the date, the time and then what happened; a line of chat says so
    in its third word.  Whatever a player writes behind it, no handler of the server's
    own messages sees the line, and what reaches Discord is the name and the text with
    the formatting escaped. *)
From Stdlib Require Import Ascii.
From S2P Require Import Prelude.
From S2P Require Import GoInt.
From S2P Require Import GoString.
From S2P Require Import GoPath.
From S2P Require Import GoBase64.
From S2P Require Import GoTime.
From S2P Require Import Glob.
From S2P Require Import PlayerCodec.
From S2P Require Import PlayerDB.
From S2P Require Import Moderation.
From S2P Require Import Sanitize.
From S2P Require Import SanitizeSafety.
From S2P Require Import OutputLine.
From S2P Require Import OutputChat.
From S2P Require Import OutputAccess.
From S2P Require Import OutputPlayers.
From S2P Require Import OutputServer.
From S2P Require Import Output.
From S2P Require Import OutputSafety.
From S2P Require Import OutputChatSafety.
From S2P Require Import OutputPanics.

(** ** What is sent *)
Definition emitted (ok : out_effect -> Prop) (w w' : out_world) : Prop := exists l, ow_out w' = ow_out w ++ l /\ Forall ok l.
Definition emits {A} (ok : out_effect -> Prop) (m : H A) : Prop := forall w, match m w with Done _ w' => emitted ok w w' | _ => True end.

Lemma emitted_refl ok w : emitted ok w w.
Proof. exists []. by rewrite app_nil_r. Qed.
Lemma emitted_trans ok w1 w2 w3 : emitted ok w1 w2 -> emitted ok w2 w3 -> emitted ok w1 w3.
Proof. intros (l1 & E1 & H1) (l2 & E2 & H2). exists (l1 ++ l2). rewrite E2, E1, app_assoc. split; [done|]. by apply Forall_app. Qed.

Section emits.
Context (ok : out_effect -> Prop).
Lemma emits_ret {A} (a : A) : emits ok (mret a).
Proof. intros w. apply emitted_refl. Qed.
Lemma emits_blocked {A} : emits ok (@blocked A).
Proof. by intros w. Qed.
Lemma emits_get {A} (f : out_world -> A) : emits ok (get f).
Proof. intros w. apply emitted_refl. Qed.
Lemma emits_db {A} (f : playerdb -> A * playerdb) : emits ok (on_db f).
Proof. intros w. unfold on_db. destruct (f (ow_db w)). exists []. by rewrite app_nil_r. Qed.
Lemma emits_modify f : (forall w, ow_out (f w) = ow_out w) -> emits ok (modify f).
Proof. intros Hf w. exists []. cbn. by rewrite app_nil_r, Hf. Qed.
Lemma emits_say e : ok e -> emits ok (say e).
Proof. intros He w. exists [e]. split; [done|by constructor]. Qed.
Lemma emits_bind {A B} (f : A -> H B) m : emits ok m -> (forall a, emits ok (f a)) -> emits ok (m ≫= f).
Proof.
  intros Hm Hf w. unfold mbind, H_bind. specialize (Hm w). destruct (m w) as [a w1| |]; [|done|done].
  specialize (Hf a w1). destruct (f a w1); [|done|done]. by eapply emitted_trans.
Qed.
End emits.

Create HintDb emits discriminated.
#[export] Hint Resolve emits_ret emits_blocked emits_get emits_db emits_say : emits.

Ltac emits_step :=
  match goal with
  | |- forall _, _ => intros
  | |- emits _ (_ ≫= _) => apply emits_bind
  | |- emits _ (modify _) => apply emits_modify; intros; reflexivity
  | |- emits _ (match ?x with _ => _ end) => destruct x
  | |- emits _ _ => solve [auto with emits]
  end.
Ltac emits := cbv zeta; repeat emits_step.

(** ** What is changed *)

(** The handler leads from a world to one in the relation. *)
Definition respects {A} (R : out_world -> out_world -> Prop) (m : H A) : Prop :=
  forall w, match m w with Done _ w' => R w w' | _ => True end.

Lemma bind_run {A B} (m : H A) (f : A -> H B) w :
  (m ≫= f) w = match m w with Done a w1 => f a w1 | Panic => Panic | Blocked => Blocked end.
Proof. done. Qed.
Lemma bind_get {A B} (f : out_world -> A) (k : A -> H B) w : (get f ≫= k) w = k (f w) w.
Proof. done. Qed.
Lemma bind_db {A B} (f : playerdb -> A * playerdb) (k : A -> H B) w :
  (on_db f ≫= k) w = k (f (ow_db w)).1 (w <| ow_db := (f (ow_db w)).2 |>).
Proof. rewrite bind_run. unfold on_db. by destruct (f (ow_db w)). Qed.

Section respects.
Context (R : out_world -> out_world -> Prop) `{!PreOrder R}.
Lemma respects_ret {A} (a : A) : respects R (mret a).
Proof. intros w. cbn. reflexivity. Qed.
Lemma respects_modify f : (forall w, R w (f w)) -> respects R (modify f).
Proof. intros Hf w. apply Hf. Qed.
Lemma respects_get {A} (f : out_world -> A) : respects R (get f).
Proof. intros w. cbn. reflexivity. Qed.
Lemma respects_bind {A B} (f : A -> H B) m : respects R m -> (forall a, respects R (f a)) -> respects R (m ≫= f).
Proof.
  intros Hm Hf w. unfold mbind, H_bind. specialize (Hm w). destruct (m w) as [a w1| |]; [|done|done].
  specialize (Hf a w1). destruct (f a w1); [|done|done]. by etrans.
Qed.
End respects.

(** The list of players after a line of [P]: only the time a player was last seen and the
    note that a ban was sent can change, and only for [P]; the game is told nothing but a
    ban of [P], and that only if [mayban]. *)
Section spoken.
Context `{UnicodeTables}.
Context (env : out_env) (P : string) (mayban : Prop).

Definition lasting (p : PlayerData) : PlayerData := p <| pd_LastSeen := 0 |> <| pd_AlreadyBanned := false |>.
Definition ban_text (reason : string) : string :=
  P +:+ " " +:+ reason +:+ " -- [Auto-Ban] " +:+ g_date (oe_game env) +:+ " " +:+ oe_GameLogURL env.
Definition ban_command (c : game_cmd) : Prop :=
  c = GameLine ("/ban " +:+ ban_text "Spamming/Flooding") \/ c = GameLine ("/ban " +:+ ban_text "Use of extreme slurs") \/
  c = GameLine ("/purge " +:+ P).

Record db_spoken (d d' : playerdb) : Prop := {
  sd_others : forall k, k <> P -> k <> ToLower P -> PlayerList d' !! k = PlayerList d !! k;
  sd_lasting : forall k, lasting <$> PlayerList d' !! k = lasting <$> PlayerList d !! k;
  sd_marks : forall k, k <> ToLower (TrimSpace (ToLower P)) -> versions d' !! k = versions d !! k;
  sd_flags : PlayerListDirty d' = PlayerListDirty d /\ signalled d' = signalled d;
  sd_sent : exists l, sent d' = sent d ++ l /\ Forall ban_command l /\ (l <> [] -> mayban);
  sd_lastban : lastBanName d' = lastBanName d \/ lastBanName d' = P /\ mayban }.

#[export] Instance db_spoken_preorder : PreOrder db_spoken.
Proof.
  split.
  - intros d. split; try done; [|by left]. exists []. by rewrite app_nil_r.
  - intros d1 d2 d3 [A1 A2 A3 [A4 A4'] (l1 & E1 & F1 & M1) A6] [B1 B2 B3 [B4 B4'] (l2 & E2 & F2 & M2) B6].
    split; [intros; by rewrite B1, A1|intros; by rewrite B2, A2|intros; by rewrite B3, A3|split; congruence| |].
    + exists (l1 ++ l2). rewrite E2, E1, app_assoc. split_and!; [done|by apply Forall_app|].
      destruct l1; [by apply M2|]. intros _. by apply M1.
    + destruct B6 as [->|?]; [done|by right].
Qed.

(** What a line of chat of [P] leaves alone: everything but the list of players, what is
    sent, the scores, the registration codes and the locks. *)
Definition kept (w : out_world) : out_world :=
  w <| ow_db := emptyDB |> <| ow_out := [] |> <| ow_ChatterList := ∅ |> <| ow_ChatterSpamScore := ∅ |> <| chatterLocked := false |>.

Record spoken (w w' : out_world) : Prop := {
  sp_kept : kept w' = kept w;
  sp_scores : forall k, k <> P -> ow_ChatterList w' !! k = ow_ChatterList w !! k /\ ow_ChatterSpamScore w' !! k = ow_ChatterSpamScore w !! k;
  sp_db : db_spoken (ow_db w) (ow_db w') }.

#[export] Instance spoken_preorder : PreOrder spoken.
Proof.
  split.
  - by intros w.
  - intros w1 w2 w3 [A1 A2 A3] [B1 B2 B3]. split; [congruence| |by etrans].
    intros k Hk. destruct (A2 k Hk) as [<- <-]. by apply B2.
Qed.

Lemma lasting_alter f k m j : (forall p, lasting (f p) = lasting p) ->
  lasting <$> alter f k m !! j = lasting <$> (m : gmap string PlayerData) !! j.
Proof.
  intros Hf. destruct (decide (k = j)) as [->|Hne]; [|by rewrite lookup_alter_ne].
  rewrite lookup_alter_eq, <-option_fmap_compose. destruct (m !! j); [|done]. simpl. by rewrite Hf.
Qed.

Lemma seen_spoken n d :
  db_spoken d (SetPlayerStatsDirty (ToLower P) (with_player (ToLower P) (fun p => p <| pd_LastSeen := n |>) d)).
Proof.
  unfold SetPlayerStatsDirty, markPlayerDirty, with_player. split; case_bool_decide; simpl; try done; try (by left);
    try (by intros; rewrite lookup_alter_ne); try (intros; by apply lasting_alter); try (intros; by rewrite lookup_insert_ne);
    exists []; by rewrite app_nil_r.
Qed.

Lemma UpdateSeen_spoken d : db_spoken d (UpdateSeen (oe_game env) P d).
Proof. unfold UpdateSeen. destruct (bad_name P); [done|]. destruct (PlayerList d !! _); [apply seen_spoken|done]. Qed.
Lemma PlayerLevelGet_spoken d : db_spoken d (PlayerLevelGet (oe_game env) P true d).2.
Proof. unfold PlayerLevelGet. destruct (bad_name P); [done|]. destruct (PlayerList d !! _); [apply seen_spoken|done]. Qed.
Lemma mark_spoken d : db_spoken d (with_player P (fun p => p <| pd_AlreadyBanned := true |>) d).
Proof.
  unfold with_player. split; simpl; try done; [by intros; rewrite lookup_alter_ne|intros; by apply lasting_alter| |by left].
  exists []. by rewrite app_nil_r.
Qed.
Lemma ban_spoken reason d : reason = "Spamming/Flooding" \/ reason = "Use of extreme slurs" -> mayban ->
  db_spoken d (WriteBanBy env P reason "[Auto-Ban]" d).
Proof.
  intros Hr Hm. unfold WriteBanBy, doBan, WriteFact. split; simpl; try done; [|by right].
  eexists. rewrite <-app_assoc. split_and!; [reflexivity| |done].
  assert (Hc : ban_command (GameLine ("/ban " +:+ ban_text reason))) by (destruct Hr as [->| ->]; [by left|by right; left]).
  constructor; [|constructor; [by right; right|done]]. exact Hc.
Qed.

Lemma respects_db {A} (f : playerdb -> A * playerdb) : (forall d, db_spoken d (f d).2) -> respects spoken (on_db f).
Proof. intros Hf w. unfold on_db. specialize (Hf (ow_db w)). destruct (f (ow_db w)). by split. Qed.
Lemma respects_db_ f : (forall d, db_spoken d (f d)) -> respects spoken (on_db_ f).
Proof. intros Hf. by apply respects_db. Qed.
Lemma respects_say e : respects spoken (say e).
Proof. by apply respects_modify. Qed.
Lemma respects_score n : respects spoken (set_score P n).
Proof. apply respects_modify. intros w. split; [done| |reflexivity]. intros k Hk. simpl. by rewrite lookup_insert_ne. Qed.
Lemma respects_chatter c : respects spoken (set_chatter P c).
Proof.
  apply (respects_bind spoken); [|intros _; apply respects_score].
  apply respects_modify. intros w. split; [done| |reflexivity]. intros k Hk. simpl. by rewrite lookup_insert_ne.
Qed.
Lemma respects_lock : respects spoken lock_chatter.
Proof. apply (respects_bind spoken); [apply respects_get, _|]. intros []; [by intros w|]. by apply respects_modify. Qed.
Lemma respects_unlock : respects spoken unlock_chatter.
Proof. by apply respects_modify. Qed.

Lemma respects_slurs input : (existsb slur_word (hd_lowerWordList input) = true -> mayban) -> respects spoken (slurFilter env P input).
Proof.
  intros Hm. unfold slurFilter. destruct (existsb _ _); [|apply respects_ret, _]. apply (respects_bind spoken); [|intros; apply respects_ret, _].
  apply respects_db_. intros d. apply ban_spoken; [by right|by apply Hm].
Qed.
End spoken.

(** ** The words of a line *)
Definition first_byte_not (c : ascii) (s : string) : Prop := match s with String b _ => b <> c | EmptyString => True end.

Lemma TrimLeft_other s : first_byte_not space s -> TrimLeft_space s = s.
Proof. destruct s as [|b s]; [done|]. intros Hb. cbn. destruct (Ascii.eqb_spec b space); [done|reflexivity]. Qed.

Lemma split_go_cons sep cur s : exists p ps, split_go sep cur s = p :: ps.
Proof. revert cur. induction s as [|c s IH]; intros cur; cbn [split_go]; [by eauto|]. destruct (Ascii.eqb c sep); [by eauto|apply IH]. Qed.

Lemma Join_Split s : Join (Split s space) " " = s.
Proof.
  unfold Split. enough (Hg : forall cur, Join (split_go space cur s) " " = cur +:+ s) by exact (Hg "").
  induction s as [|c s IH]; intros cur; cbn [split_go]; [by rewrite string_app_nil_r|].
  destruct (Ascii.eqb_spec c space) as [->|Hc].
  - specialize (IH ""). destruct (split_go_cons space "" s) as (p & ps & E). rewrite E in IH |- *.
    change (Join (cur :: p :: ps) " ") with (cur +:+ " " +:+ Join (p :: ps) " "). by rewrite IH.
  - rewrite IH. by rewrite string_app_assoc.
Qed.

(** A line as the game prints it: the date, the time, and what happened. *)
Definition printed (d t text : string) : string := d +:+ String space (t +:+ String space text).

Lemma first_word_byte d rest : no_byte space d -> d <> "" -> first_byte_not space (d +:+ rest).
Proof. intros Hd Hne. destruct d as [|b d]; [done|]. intros ->. apply Hd. left. Qed.

Lemma preProcess_printed `{UnicodeTables} d t text : no_byte space d -> no_byte space t -> d <> "" ->
  hd_noDatestamp (preProcessFactorioOutput (printed d t text)) = text /\
  hd_noDatestampList (preProcessFactorioOutput (printed d t text)) = Split text space.
Proof.
  intros Hd Ht Hne. unfold preProcessFactorioOutput. cbn [hd_noDatestamp hd_noDatestampList].
  rewrite (TrimLeft_other (printed d t text)) by by apply first_word_byte.
  unfold printed. rewrite !Split_app by done. destruct (split_go_cons space "" text) as (p & ps & E).
  change (split_go space "" text) with (Split text space) in E.
  replace (2 <? length (d :: t :: Split text space))%nat with true by (rewrite E; reflexivity).
  change (drop 2 (d :: t :: Split text space)) with (Split text space). by rewrite Join_Split.
Qed.

(** ** What is relayed *)
Section relay.
Context `{UnicodeTables, PrintTable, SoftModFormats}.
Variable env : out_env.
Variable NameFromID : string -> string.
Variable com : community.
Variable discord : guild.
Variables order players_order : list string.
Variable remove_ok : string -> bool.
Variable copy_ok : bool.

(** The name and the message of a line of chat, as they are shown. *)
Definition chat_name (words : list string) : string := replace_byte ":"%char "" (nth 1 words "").
Definition chat_message (words : list string) : string := clean_message (Join (drop 2 words) " ").

Definition shown (words : list string) (s : string) : Prop :=
  clean (clean_name (chat_name words)) /\ clean (chat_message words) /\
  exists dname, s = chat_text env dname (chat_name words) (cut_message (chat_message words)).

(** What may follow from a line of chat. *)
Definition relayed (words : list string) (e : out_effect) : Prop :=
  match e with
  | LogGame text => text = Join words " "
  | FactWhisper name text => name = chat_name words /\ text = "*** SPAMMING / FLOODING WARNING! ***"
  | CMS ChatChannel text | ChatEmbed _ text => shown words text
  | LogGameCMS true ChatChannel text => text = idiot_text
  | _ => False
  end.

Lemma emits_relay words : (2 <= length words)%nat ->
  emits (relayed words) (relay env NameFromID (chat_name words) (nth 0 words "" :: chat_name words :: drop 2 words)).
Proof.
  intros Hw. unfold relay, on_db_. emits.
  - apply emits_say. split; [apply clean_name_clean|]. split; [apply clean_message_clean|]. by eexists.
  - apply emits_say. split; [apply clean_name_clean|]. split; [apply clean_message_clean|]. by eexists.
Qed.

Lemma emits_spam_check words input : emits (relayed words) (spam_check env (chat_name words) input).
Proof.
  unfold spam_check, lock_chatter, unlock_chatter, score_line, set_chatter, set_score, mark_banned, slurFilter, on_db_. emits.
  apply emits_say. by split.
Qed.

Lemma emits_chat_msg input : hd_noDatestampList input = Split (hd_noDatestamp input) space ->
  emits (relayed (hd_noDatestampList input)) (handleChatMsg env NameFromID input).
Proof.
  intros Hl. unfold handleChatMsg. destruct (negb _); [apply emits_ret|]. apply emits_bind.
  { apply emits_say. cbn [relayed]. by rewrite Hl, Join_Split. }
  intros _. destruct (hd_noDatestampList input) as [|tag [|name rest]]; [apply emits_ret..|].
  cbv zeta. destruct (bool_decide _); [apply emits_ret|]. apply emits_bind.
  { apply (emits_spam_check (tag :: name :: rest)). }
  intros []; [apply emits_ret|]. apply (emits_relay (tag :: name :: rest)). cbn. lia.
Qed.

Lemma emits_idiots words input : emits (relayed words) (handleIdiots order input).
Proof.
  unfold handleIdiots, ProtectIdiots, lock_passwords, unlock_passwords. emits; apply emits_say; reflexivity.
Qed.

Lemma emits_handle_chat input : hd_noDatestampList input = Split (hd_noDatestamp input) space ->
  emits (relayed (hd_noDatestampList input)) (handle_chat env NameFromID order input).
Proof.
  intros Hl. unfold handle_chat, ignore. emits; [apply emits_idiots|by apply emits_chat_msg].
Qed.

(** *** What it changes *)

(** A line counts as a sign of life of the game. *)
Definition counted (w : out_world) : out_world :=
  w <| ow_NoResponseCount := 0 |> <| ow_PausedTicks := if 0 <? ow_PausedTicks w then ow_PausedTicks w - 1 else ow_PausedTicks w |>.

(** When a line of [P] may ban [P]: the protection is on, the player is no moderator, and
    a word of the line is a slur or the score with this line is over the limit. *)
Definition bannable (P line : string) (w : out_world) : Prop :=
  oe_DisableSpamProtect env = false /\ (PlayerLevelGet (oe_game env) P true (ow_db w)).1 <> 255 /\
  (existsb slur_word (Split (ToLower line) space) = true \/
   SpamScoreLimit < ct_score (add_points (now env) (cool_down (now env) (chatter_of P w)))).

Lemma score_line_spoken P input mayban w :
  (existsb slur_word (hd_lowerWordList input) = true \/
   SpamScoreLimit < ct_score (add_points (now env) (cool_down (now env) (chatter_of P w))) -> mayban) ->
  match score_line env P input w with Done _ w' => spoken env P mayban w w' | _ => True end.
Proof.
  intros Hm. unfold score_line. rewrite bind_get. cbv zeta. set (c := add_points _ _) in *. clearbody c.
  revert w Hm. intros w Hm. match goal with |- match ?m w with _ => _ end => enough (He : respects (spoken env P mayban) m) by exact (He w) end.
  apply (respects_bind (spoken env P mayban)); [apply respects_chatter|]. intros _.
  apply (respects_bind (spoken env P mayban)); [destruct (_ <? _); [apply respects_say|apply respects_ret, _]|]. intros _.
  apply (respects_bind (spoken env P mayban)).
  - destruct (Z.ltb_spec SpamScoreLimit (ct_score c)); [|apply respects_ret, _].
    apply (respects_bind (spoken env P mayban)); [apply respects_db_; intros d; apply ban_spoken; [by left|apply Hm; by right]|]. intros _.
    apply (respects_bind (spoken env P mayban)); [apply respects_db_; intros d; apply mark_spoken|]. intros _. apply respects_score.
  - intros _. apply respects_slurs. intros Hs. apply Hm. by left.
Qed.

Lemma spam_check_spoken P input w mayban :
  hd_lowerWordList input = Split (ToLower (hd_line input)) space -> (bannable P (hd_line input) w -> mayban) -> ow_NoResponseCount w = 0 ->
  match spam_check env P input w with Done _ w' => spoken env P mayban w w' | _ => True end.
Proof.
  intros Hl Hm Hn. unfold spam_check. destruct (oe_DisableSpamProtect env) eqn:Hd; [cbn; reflexivity|].
  pose proof (respects_lock env P mayban w) as Hlock. rewrite bind_run.
  assert (Hw1 : match lock_chatter w with Done _ w1 => ow_NoResponseCount w1 = 0 /\ ow_db w1 = ow_db w /\ chatter_of P w1 = chatter_of P w | _ => True end).
  { unfold lock_chatter, mbind, H_bind, get. by destruct (chatterLocked w). }
  destruct (lock_chatter w) as [u w1| |]; [|done|done]. destruct Hw1 as (Hn1 & Hdb & Hc).
  match goal with |- match ?m w1 with _ => _ end => set (k := m) end.
  enough (Hr : match k w1 with Done _ w' => spoken env P mayban w1 w' | _ => True end)
    by (destruct (k w1); [by etrans|done|done]).
  subst k. cbv beta.
  rewrite bind_get, Hn1. change (0 <? 5) with true. cbv iota. rewrite bind_db, Hdb.
  pose proof (PlayerLevelGet_spoken env P mayban (ow_db w)) as Hlv.
  assert (Hnot : (PlayerLevelGet (oe_game env) P true (ow_db w)).1 <> 255 -> existsb slur_word (hd_lowerWordList input) = true \/
    SpamScoreLimit < ct_score (add_points (now env) (cool_down (now env) (chatter_of P w))) -> mayban)
    by (intros Hne Hb; apply Hm; split_and!; [done|done|by rewrite <-Hl]).
  destruct (PlayerLevelGet (oe_game env) P true (ow_db w)) as [level d]. cbn [fst snd] in *.
  assert (Hdbs : spoken env P mayban w1 (w1 <| ow_db := d |>)) by (split; [done|done|by rewrite Hdb]).
  assert (Hc2 : chatter_of P (w1 <| ow_db := d |>) = chatter_of P w) by (rewrite <-Hc; done).
  set (w2 := w1 <| ow_db := d |>) in *. clearbody w2.
  destruct (Z.eqb_spec level 255) as [->|Hne]; cbn [negb].
  - match goal with |- match ?m w2 with _ => _ end => enough (He : respects (spoken env P mayban) m) by (specialize (He w2); destruct (m w2); [by etrans|done|done]) end.
    apply (respects_bind (spoken env P mayban)); [apply respects_get, _|]. intros c.
    apply (respects_bind (spoken env P mayban)); [destruct (_ <? _); [apply respects_score|apply respects_ret, _]|]. intros _.
    apply (respects_bind (spoken env P mayban)); [apply respects_unlock|]. intros _. apply respects_ret, _.
  - pose proof (score_line_spoken P input mayban w2) as Hs. rewrite Hc2 in Hs. specialize (Hs (Hnot Hne)).
    rewrite bind_run. destruct (score_line env P input w2) as [[] w3| |]; cbn; [by etrans| |done|done].
    change (spoken env P mayban w1 (w3 <| chatterLocked := false |>)).
    etrans; [exact Hdbs|]. etrans; [exact Hs|]. by split.
Qed.

Lemma relay_spoken P mayban words : respects (spoken env P mayban) (OutputChat.relay env NameFromID P words).
Proof.
  unfold OutputChat.relay. case_bool_decide; [apply respects_ret, _|].
  apply (respects_bind (spoken env P mayban)); [apply respects_db_; intros d; apply UpdateSeen_spoken|]. intros _.
  apply (respects_bind (spoken env P mayban)); [apply respects_get, _|]. intros did.
  apply (respects_bind (spoken env P mayban)); [|intros _; apply respects_ret, _]. destruct (other_name _ _); apply respects_say.
Qed.

Lemma chat_msg_spoken input w :
  hd_lowerWordList input = Split (ToLower (hd_line input)) space -> ow_NoResponseCount w = 0 ->
  let P := chat_name (hd_noDatestampList input) in
  match handleChatMsg env NameFromID input w with Done _ w' => spoken env P (bannable P (hd_line input) w) w w' | _ => True end.
Proof.
  intros Hl Hn. cbv zeta. unfold handleChatMsg, chat_name. destruct (negb _); [cbn; reflexivity|].
  unfold mbind at 1, H_bind at 1, say at 1, modify at 1. set (w1 := w <| ow_out ::= _ |>).
  destruct (hd_noDatestampList input) as [|tag [|name rest]]; [by split..|]. cbn [nth].
  set (P := replace_byte ":"%char "" name). set (mb := bannable P (hd_line input) w).
  case_bool_decide; [by split|].
  pose proof (spam_check_spoken P input w1 mb Hl (fun x => x) Hn) as Hs. unfold mbind, H_bind.
  destruct (spam_check env P input w1) as [[] w2| |]; cbn; [by etrans; [|exact Hs]| |done|done].
  pose proof (relay_spoken P mb (tag :: P :: rest) w2) as Hr. destruct (OutputChat.relay _ _ _ _ w2) as [b w3| |]; [|done|done].
  etrans; [|exact Hr]. by etrans; [|exact Hs].
Qed.

(** What a line of chat does to the world: a code that it gives away is withdrawn, and
    that is all; or it is relayed and scored. *)
Definition chat_changes (line : string) (words : list string) (w w' : out_world) : Prop :=
  let code := leaked_code order line (ow_PassList w) in
  if bool_decide (code = "") then
    let P := chat_name words in spoken env P (bannable P line w) (w <| passwordLocked := false |>) w'
  else w' = w <| ow_PassList ::= delete code |> <| passwordLocked := false |> <| ow_out ::= fun l => l ++ [LogGameCMS true ChatChannel idiot_text] |>.

Lemma handle_chat_changes input w u w' :
  hd_lowerWordList input = Split (ToLower (hd_line input)) space -> ow_NoResponseCount w = 0 ->
  handle_chat env NameFromID order input w = Done u w' -> chat_changes (hd_line input) (hd_noDatestampList input) w w'.
Proof.
  intros Hl Hn. unfold handle_chat, handleIdiots, ProtectIdiots, lock_passwords, unlock_passwords, chat_changes, say, ignore.
  unfold mbind, H_bind, get, modify, mret, H_ret. destruct (passwordLocked w); [done|]. cbn [ow_PassList].
  change (ow_PassList (w <| passwordLocked := true |>)) with (ow_PassList w). set (code := leaked_code order (hd_line input) (ow_PassList w)).
  case_bool_decide as Hc; cbn [negb].
  - set (w1 := _ <| passwordLocked := false |>). pose proof (chat_msg_spoken input w1 Hl Hn) as Hs. cbv zeta in Hs.
    replace w1 with (w <| passwordLocked := false |>) in * by (unfold w1; by destruct w).
    destruct (handleChatMsg env NameFromID input _) as [b w2| |]; [|done|done]. intros [= _ <-]. exact Hs.
  - intros [= _ <-]. by destruct w.
Qed.

(** C11: (safety) a line of chat, whatever the player writes, is only logged, relayed and
    scored: it is never taken for a message of the game or of the soft mod.  What is sent
    is what [relayed] lists, with the name and the text that reach Discord free of
    control characters and of formatting that is not escaped.  And nothing else changes:
    no other player, no level, no ban reason, no score of another, no setting and nothing
    known about the game; the game is told nothing but a ban of the writer, and that only
    for a slur or a score over the limit ([bannable]).  A registration code in the line
    is withdrawn, and then the line is not relayed. *)
Theorem chat_is_only_relayed generation current line d t text w w' :
  UnicodeCleanup line = printed d t text -> no_byte space d -> no_byte space t -> d <> "" ->
  HasPrefix text "[CHAT]" || HasPrefix text "[SHOUT]" = true ->
  HandleLine env NameFromID com discord order players_order remove_ok copy_ok generation current line w = Done tt w' ->
  emitted (relayed (Split text space)) w w' /\
  (w' = w \/ w' = counted w \/ chat_changes (printed d t text) (Split text space) (counted w) w').
Proof.
  intros Hl Hd Ht Hne Hc. destruct (preProcess_printed d t text Hd Ht Hne) as [Hn Hs].
  unfold HandleLine. rewrite Hl. set (input := (preProcessFactorioOutput (printed d t text)) <| hd_generation := generation |>).
  assert (Hn' : hd_noDatestamp input = text) by exact Hn. assert (Hs' : hd_noDatestampList input = Split text space) by exact Hs.
  assert (Hlow : hd_lowerWordList input = Split (ToLower (hd_line input)) space) by done.
  assert (Hln : hd_line input = printed d t text) by done.
  assert (Hline : chat_line input = true) by (unfold chat_line; by rewrite Hn').
  set (m := if negb (generation =? 0) && negb current then _ else _). intros Hr. split.
  - enough (He : emits (relayed (Split text space)) m) by (specialize (He w); by rewrite Hr in He).
    subst m. clearbody input. rewrite Hline. emits. rewrite <-Hs'. apply emits_handle_chat. by rewrite Hs', Hn'.
  - revert Hr. subst m. clearbody input. destruct (negb (generation =? 0) && negb current); [intros [= <-]; by left|]. intros Hr. right. revert Hr.
    match goal with |- context [modify ?f ;; ?k] => change ((modify f ;; k) w) with (k (counted w)) end.
    case_bool_decide; [intros [= <-]; by left|]. destruct (HasPrefix (hd_line input) "<server>"); [intros [= <-]; by left|]. intros Hr. right.
    rewrite Hline in Hr. rewrite <-Hs', <-Hln. by eapply handle_chat_changes.
Qed.
End relay.

(** ** A line that tries to be more *)
Module RelayDemo.
#[local] Existing Instance ascii_tables.
#[local] Existing Instance PanicDemo.demo_print.
#[local] Existing Instance PanicDemo.demo_formats.

Definition forged_text : string := "[CHAT] eve: *hi* [CHATWIRE] [gps=1,2] [BAN] bob was banned by admin. Reason: x".
Definition forged : string := printed "2026-01-01" "10:00:00" forged_text.
Definition forged_world : out_world := match PanicDemo.demo_line forged with Done _ w => w | _ => PanicDemo.demo_world end.

Definition effects_of (r : ran ()) : option (list out_effect) := match r with Done _ w => Some (ow_out w) | _ => None end.

Example forged_is_relayed : effects_of (PanicDemo.demo_line forged) =
  Some [LogGame "[CHAT] eve: *hi* [CHATWIRE] [gps=1,2] [BAN] bob was banned by admin. Reason: x";
        CMS ChatChannel "`10-00` eve: \*hi\* [CHATWIRE] [gps=1,2] [BAN] bob was banned by admin. Reason: x"].
Proof. vm_compute. reflexivity. Qed.

Lemma chat_is_only_relayed_witness :
  emitted (relayed PanicDemo.demo_env (Split forged_text space)) PanicDemo.demo_world forged_world /\
  (forged_world = PanicDemo.demo_world \/ forged_world = counted PanicDemo.demo_world \/
   chat_changes PanicDemo.demo_env [] (printed "2026-01-01" "10:00:00" forged_text) (Split forged_text space) (counted PanicDemo.demo_world) forged_world).
Proof.
  apply (chat_is_only_relayed PanicDemo.demo_env (fun _ => "") PanicDemo.demo_community PanicDemo.demo_guild [] [] (fun _ => true) true 0 true
    forged "2026-01-01" "10:00:00" forged_text).
  - vm_compute. reflexivity.
  - unfold no_byte. vm_compute. intros Hin. repeat (apply elem_of_cons in Hin as [Hin|Hin]; [discriminate Hin|]). by apply not_elem_of_nil in Hin.
  - unfold no_byte. vm_compute. intros Hin. repeat (apply elem_of_cons in Hin as [Hin|Hin]; [discriminate Hin|]). by apply not_elem_of_nil in Hin.
  - discriminate.
  - vm_compute. reflexivity.
  - vm_compute. reflexivity.
Defined.
End RelayDemo.
