(* ===== verification/OutputRegister.v ===== *)
(** * What a registration code can do: [handlePlayerRegister]

    Giving a code to the game connects the player with the member the code was made for,
    changes no one else, and uses the code up. *)
From Stdlib Require Import Ascii.
From S2P Require Import Prelude.
From S2P Require Import GoInt.
From S2P Require Import GoString.
From S2P Require Import GoBase64.
From S2P Require Import Glob.
From S2P Require Import PlayerCodec.
From S2P Require Import GoTime.
From S2P Require Import PlayerDB.
From S2P Require Import PlayerDBSafety.
From S2P Require Import Moderation.
From S2P Require Import Sanitize.
From S2P Require Import OutputLine.
From S2P Require Import OutputChat.
From S2P Require Import OutputAccess.
From S2P Require Import OutputPlayers.
From S2P Require Import OutputServer.
From S2P Require Import Output.
From S2P Require Import OutputSafety.
From S2P Require Import OutputChatSafety.
From S2P Require Import OutputPanics.

Section register.
Context `{UnicodeTables}.
Variable env : out_env.
Variables order players_order : list string.
Variable discord : guild.
Variable pname : string.
Variable inputCode : string.
Variable w0 : out_world.

Definition player_key : string := ToLower pname.

(** The member who made the code [i] is connected with the player. *)
Definition connected_by (i : string) (pass : PassData) (w : out_world) : Prop :=
  primary env /\ ow_PassList w0 !! i = Some pass /\ code_matches inputCode pass = true /\ ow_PassList w !! i = None /\
  exists p, PlayerList (ow_db w) !! player_key = Some p /\ pd_ID p = pw_DiscID pass.

Definition progress (w : out_world) : Prop :=
  touches player_key (ow_db w0) (ow_db w) /\ ow_PassList w ⊆ ow_PassList w0 /\
  (PlayerList (ow_db w) !! player_key = PlayerList (ow_db w0) !! player_key \/ exists i pass, connected_by i pass w).

(** Nothing but messages. *)
Definition same_state (w w' : out_world) : Prop := ow_db w' = ow_db w /\ ow_PassList w' = ow_PassList w.

(** No code that was visited is left to match. *)
Definition gone (seen : list string) (w : out_world) : Prop :=
  Forall (fun i => forall pass, ow_PassList w !! i = Some pass -> code_matches inputCode pass = false) seen.

Lemma gone_shrinks seen w w' : ow_PassList w' ⊆ ow_PassList w -> gone seen w -> gone seen w'.
Proof.
  intros Hs Hg. eapply Forall_impl; [exact Hg|]. intros i Hi pass Hp. apply Hi. by eapply lookup_weaken.
Qed.

Definition known (seen : list string) (w : out_world) : Prop := progress w /\ gone seen w.

(** The code [i] has just been deleted. *)
Definition used (i : string) (pass : PassData) (seen : list string) (w : out_world) : Prop :=
  known seen w /\ ow_PassList w !! i = None /\ ow_PassList w0 !! i = Some pass /\ code_matches inputCode pass = true.

Lemma used_delete i pass seen w : known seen w -> ow_PassList w !! i = Some pass -> code_matches inputCode pass = true ->
  used i pass seen (w <| ow_PassList ::= delete i |>).
Proof.
  intros [(Ht & Hs & Hp) Hg] Hi Hm. set (w1 := w <| ow_PassList ::= delete i |>).
  assert (Hd : ow_PassList w1 ⊆ ow_PassList w) by apply delete_subseteq.
  split; [|split; [apply (lookup_delete_eq (ow_PassList w))|split; [by eapply lookup_weaken|done]]].
  split; [|by eapply gone_shrinks]. split; [exact Ht|]. split; [by etrans|].
  destruct Hp as [Hp|(j & q & Hpr & H0' & Hc & Hn & Hx)]; [by left|right]. exists j, q. split; [done|]. split; [done|]. split; [done|]. split; [|exact Hx].
  destruct (ow_PassList w1 !! j) eqn:E; [|done]. eapply lookup_weaken in E; [|exact Hd]. congruence.
Qed.

Lemma used_say i pass seen e : hoare (used i pass seen) (say e) (fun _ => used i pass seen).
Proof. by apply hoare_say. Qed.

Lemma PlayerSetID_at g id level d :
  touches player_key d (PlayerSetID g pname id level d).2 /\
  (PlayerList (PlayerSetID g pname id level d).2 !! player_key = PlayerList d !! player_key \/
   exists p, PlayerList (PlayerSetID g pname id level d).2 !! player_key = Some p /\ pd_ID p = id).
Proof.
  unfold PlayerSetID. fold player_key. destruct (_ || _); [by split; [apply touches_refl|left]|].
  destruct (PlayerList d !! player_key) as [p|] eqn:E; cbn [snd].
  - split.
    + eapply touches_trans; [apply touches_with|]. eapply touches_trans; [apply touches_admin|]. eapply touches_trans; [apply touches_whitelist|].
      eapply touches_trans; [apply touches_with|apply touches_list_dirty].
    + right. rewrite (proj1 (marks_lookup _ _ _)), with_player_lookup, (proj1 (WhitelistPlayer_same _ _ _ _)), (proj1 (syncPlayerAdminAccess_same _ _ _ _ _)), with_player_lookup, E.
      by eexists.
  - split.
    + eapply touches_trans; [apply touches_insert|]. eapply touches_trans; [apply touches_list_dirty|]. eapply touches_trans; [apply touches_admin|apply touches_whitelist].
    + right. rewrite (proj1 (WhitelistPlayer_same _ _ _ _)), (proj1 (syncPlayerAdminAccess_same _ _ _ _ _)), (proj1 (marks_lookup _ _ _)). cbn. rewrite lookup_insert_eq. by eexists.
Qed.

Lemma used_set_id i pass seen level : primary env ->
  hoare (used i pass seen) (on_db (PlayerSetID (oe_game env) pname (pw_DiscID pass) level)) (fun _ => used i pass seen).
Proof.
  intros Hpr w ([(Ht & Hs & Hp) Hg] & Hn & H0' & Hm). unfold on_db. pose proof (PlayerSetID_at (oe_game env) (pw_DiscID pass) level (ow_db w)) as [Htd Hd].
  destruct (PlayerSetID _ _ _ _ _) as [b d]. cbn [snd] in *. split; [|split; [exact Hn|by split]]. split; [|exact Hg].
  split; [by eapply touches_trans|]. split; [exact Hs|]. destruct Hd as [Hd|(p & Hd & Hid)].
  - destruct Hp as [Hp|(j & q & H1' & H2' & H3' & H4' & r & H5' & H6')]; [left; exact (eq_trans Hd Hp)|right].
    exists j, q. do 4 (split; [done|]). exists r. split; [exact (eq_trans Hd H5')|done].
  - right. exists i, pass. do 4 (split; [done|]). exists p. by split.
Qed.

(** The messages of a step keep what is known. *)
Ltac used_step :=
  match goal with
  | |- forall _, _ => intros
  | |- hoare (used ?i ?p ?s) (say _ ;; _) _ => apply (hoare_bind _ (fun _ => used i p s)); [apply used_say|]
  | |- hoare (used ?i ?p ?s) (mret _) _ => apply hoare_ret; intros w Hw; apply Hw
  | |- hoare _ (match ?x with _ => _ end) _ => destruct x
  | |- hoare _ (say _) _ => apply used_say
  end.

Lemma used_give_role i pass seen newrole : hoare (used i pass seen) (give_role discord pname (pw_DiscID pass) newrole) (fun _ => used i pass seen).
Proof. unfold give_role. repeat used_step. Qed.

Lemma use_code_used i pass seen ptype v : code_matches inputCode pass = true ->
  hoare (fun w => known seen w /\ ow_PassList w !! i = Some pass) (use_code env players_order discord i pass ptype pname v)
    (fun _ => used i pass seen).
Proof.
  intros Hm. unfold use_code. apply (hoare_bind _ (fun _ => used i pass seen)).
  { apply hoare_modify. intros w [Hk Hi]. by apply used_delete. }
  intros _. cbv zeta. destruct (requested_role env ptype) as [newrole plevel].
  apply (hoare_bind _ (fun _ => used i pass seen)); [by apply hoare_get|]. intros discid.
  apply (hoare_bind _ (fun _ => used i pass seen)); [by apply hoare_get|]. intros factname.
  destruct (EqualFold _ _) eqn:Hpr; cbn [negb]; [|repeat used_step].
  apply (hoare_bind _ (fun _ => used i pass seen)); [repeat used_step|]. intros good.
  apply (hoare_bind _ (fun _ => used i pass seen)); [|intros _; repeat used_step].
  destruct good; [|repeat used_step]. apply (hoare_bind _ (fun _ => used i pass seen)); [by apply used_set_id|]. intros _. apply used_give_role.
Qed.

Lemma used_known i pass seen w : used i pass seen w -> known (seen ++ [i]) w.
Proof.
  intros ([Hp Hg] & Hn & _). split; [done|]. apply Forall_app. split; [done|]. apply Forall_singleton. intros q Hq. congruence.
Qed.

Lemma visit_codes_known codes seen ptype v :
  hoare (known seen) (visit_codes env players_order discord codes ptype pname inputCode v)
    (fun v w => progress w /\ (vi_return v = false -> gone (seen ++ codes) w)).
Proof.
  revert seen v. induction codes as [|i codes IH]; intros seen v; cbn [visit_codes].
  { apply hoare_ret. intros w [Hp Hg]. by rewrite app_nil_r. }
  replace (seen ++ i :: codes) with ((seen ++ [i]) ++ codes) by by rewrite <-app_assoc.
  apply (hoare_bind _ (fun p w => known seen w /\ ow_PassList w !! i = p)); [by apply hoare_get|]. intros [pass|].
  - destruct (code_matches inputCode pass) eqn:Em.
    + apply (hoare_bind _ (fun _ => used i pass seen)); [by apply use_code_used|]. intros v'. destruct (vi_return v') eqn:Er.
      * apply hoare_ret. intros w (Hk & _). split; [apply Hk|]. by rewrite Er.
      * intros w Hw. apply IH. by eapply used_known.
    + intros w [[Hp Hg] Hi]. apply IH. split; [done|]. apply Forall_app. split; [done|]. apply Forall_singleton. intros q Hq. congruence.
  - intros w [[Hp Hg] Hi]. apply IH. split; [done|]. apply Forall_app. split; [done|]. apply Forall_singleton. intros q Hq. congruence.
Qed.

Lemma hoare_post {A} (P : out_world -> Prop) (Q R : A -> out_world -> Prop) m : hoare P m Q -> (forall a w, Q a w -> R a w) -> hoare P m R.
Proof. intros Hm HQ w Hw. specialize (Hm w Hw). destruct (m w); [by apply HQ|done|done]. Qed.

Lemma register_known input access ptype word rest :
  HasPrefix (hd_line input) "[ACCESS]" = true -> hd_wordList input = access :: ptype :: pname :: word :: rest ->
  inputCode = AlphaOnly (Join (word :: rest) "") ->
  hoare (known []) (handlePlayerRegister env order players_order discord input) (fun _ w => progress w /\ (primary env -> gone order w)).
Proof.
  intros Ha Hl Hc. unfold handlePlayerRegister. rewrite Ha, Hl. cbn [negb drop]. rewrite <-Hc.
  apply (hoare_bind _ (fun _ => known [])).
  { unfold lock_passwords. apply (hoare_bind _ (fun _ => known [])); [by apply hoare_get|]. intros []; [done|by apply hoare_modify]. }
  intros _.
  apply (hoare_bind _ (fun v w => progress w /\ (primary env -> gone order w))).
  - intros w Hw. pose proof (visit_codes_known order [] ptype (mkVisit true false false) w Hw) as Hk.
    pose proof (visit_codes_primary env discord players_order order ptype pname inputCode (mkVisit true false false)) as Hp.
    destruct (visit_codes _ _ _ _ _ _ _ _ w) as [v w1| |] eqn:E; [|done|done]. destruct Hk as [Hk Hg]. split; [done|]. intros Hpr.
    specialize (Hp Hpr eq_refl w). rewrite E in Hp. by apply Hg.
  - intros v. destruct (vi_return v); [by apply hoare_ret|].
    apply (hoare_bind _ (fun _ w => progress w /\ (primary env -> gone order w))); [by apply hoare_modify|]. intros _.
    apply (hoare_bind _ (fun _ w => progress w /\ (primary env -> gone order w))); [|intros _; by apply hoare_ret].
    destruct (vi_found v); [by apply hoare_ret|]. by apply hoare_say.
Qed.

Lemma known_start : known [] w0.
Proof. split; [|constructor]. split; [apply touches_refl|]. split; [done|by left]. Qed.
End register.

(** C12: (safety) what giving a registration code to the game can do: only the record of the
    player who gave it changes; it is connected with another member only if that member
    had a code that matches what was given, on the primary server, and that code is
    gone then; no code is added, and on the primary server none that matches is left. *)
Theorem code_connects_its_member `{UnicodeTables} env order players_order discord input access ptype pname word rest w b w' :
  HasPrefix (hd_line input) "[ACCESS]" = true -> hd_wordList input = access :: ptype :: pname :: word :: rest ->
  handlePlayerRegister env order players_order discord input w = Done b w' ->
  let code := AlphaOnly (Join (word :: rest) "") in
  touches (ToLower pname) (ow_db w) (ow_db w') /\ ow_PassList w' ⊆ ow_PassList w /\
  (PlayerList (ow_db w') !! ToLower pname = PlayerList (ow_db w) !! ToLower pname \/
   exists i pass, connected_by env pname code w i pass w') /\
  (primary env -> gone code order w').
Proof.
  intros Ha Hl Hr code.
  pose proof (register_known env order players_order discord pname code w input access ptype word rest Ha Hl eq_refl w (known_start env pname code w)) as Hk.
  rewrite Hr in Hk. destruct Hk as [(Ht & Hs & Hp) Hg]. done.
Qed.

(** ** Findings *)

(** A matching code given to another server than the primary one: the handler returns while
    it holds the lock of the codes ([src/support/pipeHandle_access.go:118]) ... *)
Module RegisterDemo.
#[local] Existing Instance ascii_tables.
#[local] Existing Instance PanicDemo.demo_print.
#[local] Existing Instance PanicDemo.demo_formats.
Import PanicDemo.

Definition with_code : out_world := register_code "77" "Fox-Owl-Elk" (1000 * Second) demo_world.
Definition given : handleData := preProcessFactorioOutput "[ACCESS] member Bob Fox-Owl-Elk".
Definition give (env : out_env) (w : out_world) : ran bool := handlePlayerRegister env ["77"] [] demo_guild given w.
Definition elsewhere : out_env := mkOutEnv demo_game "10-00" 0 false false false false "b" "Beta" "Group" "a" "1" "" "" "" "/saves" 34197 0.
Definition after (r : ran bool) : out_world := match r with Done _ w => w | _ => demo_world end.

Theorem wrong_server_keeps_lock : passwordLocked (after (give elsewhere with_code)) = true.
Proof. vm_compute. reflexivity. Qed.

(** ... so the next line of chat, which is searched for codes, waits forever. *)
Theorem wrong_server_stops_chat :
  HandleLine elsewhere (fun _ => "") demo_community demo_guild ["77"] [] (fun _ => true) true 0 true
    "2026-01-01 10:00:00 [CHAT] ann: hello" (after (give elsewhere with_code)) = Blocked.
Proof. vm_compute. reflexivity. Qed.

Lemma code_connects_its_member_witness :
  let w' := after (give demo_env with_code) in
  (touches "bob" (ow_db with_code) (ow_db w') /\ ow_PassList w' ⊆ ow_PassList with_code /\
   (PlayerList (ow_db w') !! "bob" = PlayerList (ow_db with_code) !! "bob" \/
    exists i pass, connected_by demo_env "Bob" "FoxOwlElk" with_code i pass w') /\
   (primary demo_env -> gone "FoxOwlElk" ["77"] w')) /\
  pd_ID <$> PlayerList (ow_db w') !! "bob" = Some "77".
Proof.
  split.
  - apply (code_connects_its_member demo_env ["77"] [] demo_guild given "[ACCESS]" "member" "Bob" "Fox-Owl-Elk" [] with_code true);
      vm_compute; reflexivity.
  - vm_compute. reflexivity.
Defined.
End RegisterDemo.

(** * The output of the game on concrete lines

    The theorems about the handlers applied to a short session, and the lines on which
    the code does not do what it means to. *)
Module OutputDemo.
#[local] Existing Instance ascii_tables.
#[local] Existing Instance PanicDemo.demo_print.
#[local] Existing Instance PanicDemo.demo_formats.
Import PanicDemo.

Definition at_ (env : out_env) (text : string) (w : out_world) : ran () :=
  HandleLine env (fun _ => "") demo_community demo_guild [] [] (fun _ => true) true 0 true text w.
Definition world_of (r : ran ()) : out_world := match r with Done _ w => w | _ => demo_world end.

Definition session : list out_line :=
  (fun t => mkOutLine demo_env 0 true t) <$>
  ["2026-01-01 10:00:00 [JOIN] bob joined the game"; "2026-01-01 10:00:09 [CHAT] bob: hello"; "2026-01-01 10:00:11 [LEAVE] bob left the game";
   "12.5 Goodbye"].

Lemma output_is_never_stuck_witness :
  loop (fun _ => "") demo_community demo_guild [] [] (fun _ => true) true session demo_world <> Blocked /\
  (forall u w', loop (fun _ => "") demo_community demo_guild [] [] (fun _ => true) true session demo_world = Done u w' -> free w').
Proof.
  apply output_is_never_stuck; [by split|].
  repeat (apply Forall_cons; split; [split; [vm_compute; reflexivity|vm_compute; reflexivity]|]). by apply Forall_nil.
Defined.

(** ** Slow and fast writers *)
Definition env_at (s : Z) : out_env :=
  mkOutEnv {| g_now := s * Second; g_date := "01-01-2026"; g_running := true; g_CustomWhitelist := false; g_RegularsOnly := false; g_MembersOnly := false;
              g_online := []; g_roles := g_roles demo_game |} "10-00" 0 false false false false "a" "Alpha" "Group" "a" "1" "" "" "" "/saves" 34197 0.
Definition chat_at (s : Z) : out_env * handleData := (env_at s, preProcessFactorioOutput "2026-01-01 10:00:00 [CHAT] bob: hello").
Definition in2026 : Z := 1780000000.

Definition slow_lines : list (out_env * handleData) := chat_at <$> [in2026; in2026 + 2; in2026 + 10; in2026 + 30].
Definition slow_end : out_world := match chat_run (fun _ => "") slow_lines demo_world with Done _ w => w | _ => demo_world end.

Lemma slow_writers_not_banned_witness : sent (ow_db slow_end) = sent (ow_db demo_world).
Proof.
  apply (slow_writers_not_banned (fun _ => "") "bob" slow_lines ((in2026 - 2) * Second)); [| |reflexivity|reflexivity|vm_compute; reflexivity].
  - repeat (apply Forall_cons; split; [split; [do 3 eexists; split; vm_compute; reflexivity|vm_compute; reflexivity]|]). by apply Forall_nil.
  - vm_compute. repeat split; first [reflexivity|discriminate].
Defined.

(** ** Findings *)

(** A banned word ends the handler while it holds the lock of the scores
    ([src/support/pipeHandle_chat.go:105]): no line of chat is handled after it. *)
Definition slur_line : string := "2026-01-01 10:00:00 [CHAT] eve: " +:+ nth 2 slurList "".
Theorem slur_stops_chat : at_ demo_env "2026-01-01 10:00:05 [CHAT] bob: hello" (world_of (at_ demo_env slur_line demo_world)) = Blocked.
Proof. vm_compute. reflexivity. Qed.

(** Players are not to be banned for flooding while the game lags; but every line of the game
    resets the count of missing answers before it is handled ([src/support/pipeParse.go:94]). *)
Definition flooding : out_world :=
  demo_world <| ow_ChatterSpamScore := {["Eve" := 30]} |> <| ow_ChatterList := {["Eve" := in2026 * Second]} |> <| ow_NoResponseCount := 100 |>.
Definition flood_line : string := "2026-01-01 10:00:00 [CHAT] Eve: hello".
Theorem lag_does_not_excuse : existsb (fun c => match c with GameLine l => HasPrefix l "/ban Eve Spamming/Flooding" | _ => false end)
  (sent (ow_db (world_of (at_ (env_at in2026) flood_line (flooding))))) = true.
Proof. vm_compute. reflexivity. Qed.

(** The player is then marked as banned, under the name as it was printed; the list of the
    players has it in lower case ([src/support/pipeHandle_chat.go:96]). *)
Theorem ban_is_not_marked : 
  let d := (PlayerLevelSet demo_game "Eve" 1 false (ow_db flooding)).2 in
  pd_AlreadyBanned <$> PlayerList (ow_db (world_of (at_ (env_at in2026) flood_line (flooding <| ow_db := d |>)))) !! "eve" = Some false.
Proof. vm_compute. reflexivity. Qed.

(** The game is paused for a player who connects, and goes on when he has joined; the name is
    compared after it was escaped for Discord ([src/support/pipeHandle_players.go:77]), so a
    name with an underscore never matches. *)
Definition paused_for (name : string) : out_world :=
  demo_world <| ow_PausedForConnect := true |> <| ow_PausedFor := name |> <| ow_SoftModVersion := "2" |>.
Definition still_paused (name : string) : bool :=
  ow_PausedForConnect (world_of (at_ demo_env ("2026-01-01 10:00:00 [JOIN] " +:+ name +:+ " joined the game") (paused_for name))).
Theorem underscore_is_not_unpaused : still_paused "bob" = false /\ still_paused "bob_1" = true.
Proof. split; vm_compute; reflexivity. Qed.
End OutputDemo.
