(* ===== verification/Console.v ===== *)
(** * The console of the game: [WriteFact], [FactChat], [FactWhisper] of [src/fact/util.go],
    [src/fact/softmod_protocol.go]

    What is written to the standard input of the game.  The pipe holds the bytes that
    were written; how many of them a write gets through, and the error it ends with, is
    given by the operating system.  The JSON and the compression of a request to the
    soft mod are parameters. *)
From Stdlib Require Import Ascii.
From S2P Require Import Prelude.
From S2P Require Import GoInt.
From S2P Require Import GoString.
From S2P Require Import GoBase64.
From S2P Require Import Sanitize.
From S2P Require Import SanitizeSafety.
From S2P Require Import Output.

Definition MaxDiscordMsgLen : Z := 2000.
Definition newline_char : ascii := ascii_of_nat 10.

(** ** The pipe *)

(** The error of a write, and its text. *)
Inductive pipe_error := ErrClosedPipe (text : string) | ErrClosed (text : string) | OtherError (text : string).
Definition error_text (e : pipe_error) : string := match e with ErrClosedPipe t | ErrClosed t | OtherError t => t end.

Definition classifyFactorioPipeError `{UnicodeTables} (err : option pipe_error) : string :=
  match err with
  | None => "stdin-write-failed"
  | Some (ErrClosedPipe _) | Some (ErrClosed _) => "stdin-closed"
  | Some e =>
      let lowerErr := ToLower (error_text e) in
      if Contains lowerErr "broken pipe" then "stdin-broken-pipe"
      else if Contains lowerErr "file already closed" then "stdin-closed"
      else if Contains lowerErr "closed pipe" then "stdin-closed"
      else "stdin-write-failed"
  end.

(** [cn_pipe]: what was written to the pipe that is there; [cn_health]: the reports to the
    lifecycle manager. *)
Record console := mkConsole {
  cn_pipe : option string; cn_generation : Z; cn_health : list (Z * string); cn_requests : Z }.
#[export] Instance console_settable : Settable console := mkSettable (fun r =>
  mkConsole (cn_pipe r) (cn_generation r) (cn_health r) (cn_requests r)).

(** What a write does: [None], all of it; else so many bytes, and an error. *)
Definition write_outcome : Type := option (nat * pipe_error).

(** [SoftModVersion], and the formats of the requests. *)
Class RequestFormats := {
  json_request : Z -> string -> string -> string -> option string;    (* version, id, command, data *)
  json_chat : string -> string; json_whisper : string -> string -> string;
  zlib_write : string -> option bytes }.

Section console.
Context `{UnicodeTables, PrintTable}.

(** The line that is written, if one is. *)
Definition console_line (input : string) : option string :=
  let buf := UnicodeCleanup input in
  if (MaxDiscordMsgLen <? slen buf) || (slen buf <=? 1) then None else Some buf.

Definition WriteFact (input : string) (os : write_outcome) (c : console) : console :=
  match console_line input with
  | None => c
  | Some buf =>
      match cn_pipe c with
      | None => c <| cn_health ::= fun l => l ++ [(cn_generation c, "stdin-missing")] |>
      | Some sent =>
          let line := buf +:+ String newline_char "" in
          match os with
          | None => c <| cn_pipe := Some (sent +:+ line) |>
          | Some (n, e) => c <| cn_pipe := Some (sent +:+ string_take n line) |>
                             <| cn_health ::= fun l => l ++ [(cn_generation c, classifyFactorioPipeError (Some e))] |>
          end
      end
  end.

(** ** Requests to the soft mod *)
Context `{RequestFormats}.

Definition EncodeSoftModPayload (payload : string) : option string :=
  compressed ← zlib_write payload; Some (of_bytes (b64_encode StdAlphabet true compressed)).

Definition request_id (n : Z) : string := "cw-" +:+ Itoa n.

Definition WriteSoftModCommand (command data : string) (os : write_outcome) (c : console) : console :=
  let n := wrap 64 (cn_requests c + 1) in
  let c := c <| cn_requests := n |> in
  match json_request SoftModProtocolVersion (request_id n) command data ≫= EncodeSoftModPayload with
  | Some encoded => WriteFact ("/chatwire " +:+ encoded) os c
  | None => c
  end.

(** ** Chat *)
Definition chat_cut (c : ascii) : bool := Ascii.eqb c " "%char || Ascii.eqb c "/"%char.
(** [strings.TrimLeft(input, " /")] and [strings.TrimRight(input, " ")]. *)
Fixpoint TrimLeft_cut (s : string) : string :=
  match s with String c tl => if chat_cut c then TrimLeft_cut tl else s | EmptyString => s end.
Fixpoint TrimRight_space (s : string) : string :=
  match s with
  | String c tl => let t := TrimRight_space tl in if bool_decide (t = "") && Ascii.eqb c " "%char then "" else String c t
  | EmptyString => s
  end.

Definition plain_chat (input : string) : string :=
  TrimRight_space (TrimLeft_cut (RemoveDiscordMarkdown (RemoveFactorioTags (UnicodeCleanup input)))).

Definition FactChat (softmod : bool) (input : string) (os : write_outcome) (c : console) : console :=
  if bool_decide (input = "") then c
  else
    let input := TruncateStringEllipsis input 2048 in
    if softmod then WriteSoftModCommand "chat" (json_chat input) os c else WriteFact (plain_chat input) os c.

Definition FactWhisper (softmod : bool) (player input : string) (os : write_outcome) (c : console) : console :=
  let input := TruncateStringEllipsis input 2048 in
  if softmod then WriteSoftModCommand "whisper" (json_whisper player input) os c
  else WriteFact ("/whisper " +:+ player +:+ " " +:+ plain_chat input) os c.
End console.

(** * What reaches the console of the game

    The standard input of the game is a list of lines.  Text that was cleaned stays
    clean when ASCII characters are taken out of it, so the cleaning in [WriteFact]
    cannot bring to the front what [FactChat] has cut off: chat is never a command. *)
(** ** Text that needs no cleaning *)
Section pure.
Context `{PrintTable}.

Inductive pure : bytes -> Prop :=
  | pure_nil : pure []
  | pure_rune c b r n : decode_rune (c :: b) = Some (r, n) -> keep_rune r = true -> pure (drop n (c :: b)) -> pure (c :: b).

Lemma cleanup_pure fuel b : (length b <= fuel)%nat -> pure (cleanup fuel b).
Proof.
  revert b. induction fuel as [|fuel IH]; intros b Hl; [constructor|]. cbn [cleanup]. destruct b as [|c b]; [constructor|]. cbn [length] in Hl.
  destruct (decode_rune (c :: b)) as [[r n]|] eqn:E; [|apply IH; lia].
  pose proof (decode_rune_bytes _ _ _ E) as [Hn _].
  assert (Hd : (length (drop n (c :: b)) <= fuel)%nat) by (rewrite length_drop; cbn [length] in *; lia).
  destruct (keep_rune r) eqn:Ek; [|by apply IH]. specialize (IH _ Hd). set (k := cleanup fuel _) in *. clearbody k.
  destruct n as [|n]; [lia|]. cbn [take app]. apply (pure_rune c (take n b ++ k) r (S n)); [|done|].
  - exact (decode_rune_app (c :: b) r (S n) k E).
  - cbn [drop]. rewrite drop_app_length'; [done|]. rewrite length_take_le; [done|]. cbn [length] in Hn. lia.
Qed.

Lemma pure_cleanup fuel b : pure b -> (length b <= fuel)%nat -> cleanup fuel b = b.
Proof.
  intros Hp. revert fuel. induction Hp as [|c b r n E Ek _ IH]; intros fuel Hl; [by destruct fuel|].
  destruct fuel as [|fuel]; [cbn in Hl; lia|]. cbn [cleanup]. rewrite E, Ek. pose proof (decode_rune_bytes _ _ _ E) as [Hn _].
  rewrite IH; [apply take_drop|]. rewrite length_drop. cbn [length] in *. lia.
Qed.

Lemma pure_app a b : pure a -> pure b -> pure (a ++ b).
Proof.
  intros Ha Hb. induction Ha as [|c a r n E Ek _ IH]; [done|]. pose proof (decode_rune_bytes _ _ _ E) as [Hn _].
  apply (pure_rune c (a ++ b) r n); [|done|].
  - pose proof (decode_rune_app (c :: a) r n (drop n (c :: a) ++ b) E) as Ed. by rewrite app_assoc, take_drop in Ed.
  - change (c :: a ++ b) with ((c :: a) ++ b). by rewrite drop_app_le by lia.
Qed.

(** An ASCII character is a rune of its own. *)
Lemma pure_split a c b : byte_val c < 128 -> pure (a ++ c :: b) -> pure a /\ pure b.
Proof.
  intros Hc. enough (Hg : forall l, pure l -> forall a, l = a ++ c :: b -> pure a /\ pure b) by (intros Hp; by apply (Hg _ Hp)).
  clear a. induction 1 as [|x l r n E Ek Hl IH]; intros a Ha; [by destruct a|].
  pose proof (decode_rune_bytes _ _ _ E) as [Hn Hcases]. destruct a as [|y a].
  - injection Ha as -> ->. split; [constructor|]. cbn [decode_rune] in E. destruct (Z.ltb_spec (byte_val c) 128); [|lia].
    injection E as <- <-. exact Hl.
  - injection Ha as -> ->. assert (Hna : (n <= length (y :: a))%nat).
    { destruct Hcases as [(c' & tl & _ & -> & _)|Hf]; [cbn; lia|]. destruct (Nat.le_gt_cases n (length (y :: a))) as [|Hgt]; [done|exfalso].
      change (y :: a ++ c :: b) with ((y :: a) ++ c :: b) in Hf. rewrite take_app, (take_ge (y :: a)) in Hf by lia. apply Forall_app in Hf as [_ Hf]. destruct (n - length (y :: a))%nat as [|k] eqn:Ek'; [lia|].
      cbn [take] in Hf. apply Forall_cons in Hf as [Hf _]. lia. }
    specialize (IH (drop n (y :: a))). destruct IH as [IHa IHb].
    { change (y :: a ++ c :: b) with ((y :: a) ++ c :: b). by rewrite drop_app_le. }
    split; [|done]. apply (pure_rune y a r n); [|done|done].
    pose proof (decode_rune_app _ _ _ (drop n (y :: a)) E) as Ed.
    change (y :: a ++ c :: b) with ((y :: a) ++ c :: b) in Ed. rewrite take_app_le in Ed by done. by rewrite take_drop in Ed.
Qed.

Lemma pure_remove a c b : byte_val c < 128 -> pure (a ++ c :: b) -> pure (a ++ b).
Proof. intros Hc Hp. apply pure_split in Hp as [Ha Hb]; [|done]. by apply pure_app. Qed.
End pure.

(** ** Taking characters out of it *)
Section text.
Context `{PrintTable}.

Definition pure_text (s : string) : Prop := pure (to_bytes s).

Lemma cleaned_pure s : pure_text (UnicodeCleanup s).
Proof.
  unfold pure_text, UnicodeCleanup. rewrite to_of_bytes. apply cleanup_pure. pose proof (length_to_bytes s). unfold slen in *. lia.
Qed.
Lemma pure_cleaned s : pure_text s -> UnicodeCleanup s = s.
Proof.
  intros Hp. unfold UnicodeCleanup. rewrite pure_cleanup; [apply of_to_bytes|exact Hp|]. pose proof (length_to_bytes s). unfold slen in *. lia.
Qed.
Lemma pure_printable s : pure_text s -> Forall printable (to_bytes s).
Proof. intros Hp. rewrite <-(pure_cleaned s Hp). apply (cleaned_text_is_printable s). Qed.

Lemma pure_text_app a b : pure_text a -> pure_text b -> pure_text (a +:+ b).
Proof. unfold pure_text. rewrite to_bytes_app. apply pure_app. Qed.
Lemma pure_text_split a c b : byte_val c < 128 -> pure_text (a +:+ String c b) -> pure_text a /\ pure_text b.
Proof. unfold pure_text. rewrite to_bytes_app. apply (pure_split (to_bytes a) c (to_bytes b)). Qed.
Lemma pure_text_remove a c b : byte_val c < 128 -> pure_text (a +:+ String c b) -> pure_text (a +:+ b).
Proof. intros Hc Hp. apply pure_text_split in Hp as [Ha Hb]; [|done]. by apply pure_text_app. Qed.

Lemma snoc_app a c s : a +:+ String c s = (a +:+ String c "") +:+ s.
Proof. by rewrite string_app_assoc. Qed.

(** Only ASCII characters are dropped. *)
Lemma keep_bytes_pure p s : (forall c, p c = false -> byte_val c < 128) -> pure_text s -> pure_text (keep_bytes p s).
Proof.
  intros Hp. enough (Hg : forall a, pure_text (a +:+ s) -> pure_text (a +:+ keep_bytes p s)) by exact (Hg "").
  induction s as [|c s IH]; intros a Ha; [done|]. cbn [keep_bytes]. destruct (p c) eqn:E.
  - rewrite snoc_app in Ha |- *. by apply IH.
  - apply IH. eapply pure_text_remove; [by apply Hp|exact Ha].
Qed.

Lemma plain_byte_ascii c : plain_byte c = false -> byte_val c < 128.
Proof.
  enough (He : plain_byte c || (byte_val c <? 128) = true) by (intros Hc; rewrite Hc in He; cbn in He; lia).
  revert c. apply byte_cases. by vm_compute.
Qed.

Lemma remove_markdown_pure fuel s : pure_text s -> pure_text (remove_markdown fuel s).
Proof.
  revert s. induction fuel as [|fuel IH]; intros s Hs; [done|]. cbn [remove_markdown]. case_match; [done|]. apply IH.
  apply keep_bytes_pure; [|by apply keep_bytes_pure; [apply plain_byte_ascii|]].
  intros c Hc. destruct (Ascii.eqb_spec c "`"%char); [subst; by vm_compute|done].
Qed.

Lemma strip_pure tag fuel s : bracketed tag -> pure_text s -> pure_text (strip tag fuel s).
Proof.
  intros Ht. enough (Hg : forall a, pure_text (a +:+ s) -> pure_text (a +:+ strip tag fuel s)) by exact (Hg "").
  revert s. induction fuel as [|fuel IH]; intros s a Ha; [done|]. cbn [strip]. destruct s as [|c s]; [done|].
  destruct (tag (String c s)) as [n|] eqn:Et.
  - apply Ht in Et as [t E]. apply IH. set (rest := string_drop n (String c s)) in *. clearbody rest. rewrite E in Ha.
    apply pure_text_split in Ha as [Ha Hb]; [|by vm_compute]. apply pure_text_split in Hb as [_ Hb]; [|by vm_compute]. by apply pure_text_app.
  - rewrite snoc_app in Ha |- *. by apply IH.
Qed.

Lemma blank_pure s : pure_text s -> blank s = s.
Proof.
  intros Hs. apply pure_printable in Hs. induction s as [|c s IH]; [done|]. change (blank (String c s)) with (String (blank_byte c) (blank s)).
  apply Forall_cons in Hs as [Hc Hs]. rewrite IH by done. f_equal.
  enough (He : Ascii.eqb (blank_byte c) c || negb ((128 <=? byte_val c) || ((32 <=? byte_val c) && (byte_val c <=? 126))) = true).
  { apply orb_true_iff in He as [He|He]; [by apply Ascii.eqb_eq|]. unfold printable in Hc. lia. }
  clear Hc. revert c. apply byte_cases. by vm_compute.
Qed.

Lemma tags_pure s : pure_text s -> pure_text (RemoveFactorioTags s).
Proof.
  intros Hs. unfold RemoveFactorioTags. cbv zeta. rewrite blank_pure by done.
  assert (Hc : forall fuel u, pure_text u -> pure_text (remove_colors fuel u)).
  { induction fuel as [|fuel IH]; intros u Hu; [done|]. cbn [remove_colors]. case_match; [|done].
    apply IH, (strip_pure _ _ _ (open_tag_bracketed "font=")), (strip_pure _ _ _ (open_tag_bracketed "color=")), Hu. }
  assert (Hd : forall fuel u, pure_text u -> pure_text (remove_closing fuel u)).
  { induction fuel as [|fuel IH]; intros u Hu; [done|]. cbn [remove_closing]. case_match; [|done]. apply IH, (strip_pure _ _ _ close_tag_bracketed), Hu. }
  by apply Hd, Hc.
Qed.

Lemma chat_cut_ascii c : chat_cut c = true -> byte_val c < 128.
Proof. unfold chat_cut. intros [Hc|Hc]%orb_true_iff; apply Ascii.eqb_eq in Hc; subst; by vm_compute. Qed.

Lemma TrimLeft_cut_pure s : pure_text s -> pure_text (TrimLeft_cut s).
Proof.
  induction s as [|c s IH]; intros Hs; [done|]. cbn [TrimLeft_cut]. destruct (chat_cut c) eqn:E; [|done]. apply IH.
  exact (pure_text_remove "" c s (chat_cut_ascii c E) Hs).
Qed.
Lemma TrimRight_space_pure s : pure_text s -> pure_text (TrimRight_space s).
Proof.
  enough (Hg : forall a, pure_text (a +:+ s) -> pure_text (a +:+ TrimRight_space s)) by exact (Hg "").
  induction s as [|c s IH]; intros a Ha; [done|]. cbn [TrimRight_space]. rewrite snoc_app in Ha. specialize (IH _ Ha).
  case_match eqn:E; [|by rewrite snoc_app]. apply andb_true_iff in E as [E1%bool_decide_eq_true E2%Ascii.eqb_eq]. rewrite E1, <-snoc_app in IH. subst c.
  apply (pure_text_remove a " "%char ""); [by vm_compute|exact IH].
Qed.

Lemma plain_chat_pure input : pure_text (plain_chat input).
Proof. apply TrimRight_space_pure, TrimLeft_cut_pure, remove_markdown_pure, tags_pure, cleaned_pure. Qed.

Lemma plain_chat_head input : HasPrefix (plain_chat input) "/" = false.
Proof.
  unfold plain_chat. set (s := RemoveDiscordMarkdown _). clearbody s. induction s as [|c s IH]; [done|]. cbn [TrimLeft_cut].
  destruct (chat_cut c) eqn:E; [done|]. unfold chat_cut in E. apply orb_false_iff in E as [_ E]. cbn [TrimRight_space].
  case_match; [done|]. clear IH.
  destruct (HasPrefix _ _) eqn:Hp; [|done]. apply HasPrefix_spec in Hp as [t [= -> _]]. by rewrite Ascii.eqb_refl in E.
Qed.
End text.

(** ** The lines *)
Section console.
Context `{UnicodeTables, PrintTable, RequestFormats}.

(** A line of the console: printable, not too long, at least two bytes. *)
Definition good_line (line : string) : Prop := pure_text line /\ 2 <= slen line <= MaxDiscordMsgLen.

Lemma console_line_good input line : console_line input = Some line -> good_line line /\ line = UnicodeCleanup input.
Proof. unfold console_line. destruct (_ || _) eqn:E; [done|]. intros [= <-]. split; [split; [apply cleaned_pure|lia]|done]. Qed.

Definition with_newline (line : string) : string := line +:+ String newline_char "".

(** What a write adds to the pipe. *)
Definition added (os : write_outcome) (line : string) : string :=
  match os with None => with_newline line | Some (n, _) => string_take n (with_newline line) end.

Lemma WriteFact_pipe input os c sent : cn_pipe c = Some sent ->
  cn_pipe (WriteFact input os c) = match console_line input with Some line => Some (sent +:+ added os line) | None => Some sent end.
Proof.
  intros Hc. unfold WriteFact. destruct (console_line input) as [line|]; [|done]. rewrite Hc. by destruct os as [[n e]|].
Qed.

Definition base64_line (line : string) : Prop := exists p, line = "/chatwire " +:+ of_bytes (b64_encode StdAlphabet true p).

Lemma plain_pure s : Forall (fun c => 32 <= byte_val c <= 126) (to_bytes s) -> pure_text s.
Proof.
  unfold pure_text. induction 1 as [|c l Hc _ IH]; [constructor|]. apply (pure_rune c l (byte_val c) 1); [|unfold keep_rune, between; replace (byte_val c <? 128) with true by lia; lia|exact IH].
  cbn [decode_rune]. replace (byte_val c <? 128) with true by lia. done.
Qed.

Lemma enc_digit_plain d : 0 <= d < 64 -> 32 <= byte_val (enc_digit StdAlphabet d) <= 126.
Proof.
  intros Hd. assert (He : forallb (fun n => let v := byte_val (enc_digit StdAlphabet (Z.of_nat n)) in (32 <=? v) && (v <=? 126)) (seq 0 64) = true) by by vm_compute.
  rewrite forallb_forall in He. specialize (He (Z.to_nat d)). rewrite Z2Nat.id in He by lia. specialize (He ltac:(apply in_seq; lia)).
  cbv zeta in He. apply andb_true_iff in He as [?%Z.leb_le ?%Z.leb_le]. done.
Qed.

Lemma base64_line_pure line : base64_line line -> pure_text line.
Proof.
  intros [p ->]. apply plain_pure. rewrite to_bytes_app, to_of_bytes. apply Forall_app. split; [repeat constructor; by vm_compute|].
  apply b64_encode_bytes; [apply enc_digit_plain|by vm_compute].
Qed.

Lemma softmod_line command data os c sent : cn_pipe c = Some sent ->
  cn_pipe (WriteSoftModCommand command data os c) = Some sent \/
  exists line, good_line line /\ base64_line line /\ cn_pipe (WriteSoftModCommand command data os c) = Some (sent +:+ added os line).
Proof.
  intros Hc. unfold WriteSoftModCommand. cbv zeta. destruct (_ ≫= EncodeSoftModPayload) as [encoded|] eqn:E; [|by left].
  destruct (json_request _ _ _ _) as [payload|]; [|done]. cbn [mbind option_bind] in E. unfold EncodeSoftModPayload in E.
  destruct (zlib_write payload) as [p|]; [|done]. injection E as <-.
  assert (Hb : base64_line ("/chatwire " +:+ of_bytes (b64_encode StdAlphabet true p))) by by exists p.
  rewrite (WriteFact_pipe _ _ _ sent) by exact Hc. destruct (console_line _) as [line|] eqn:El; [right|by left].
  destruct (console_line_good _ _ El) as [Hg ->]. rewrite (pure_cleaned _ (base64_line_pure _ Hb)) in *. by eexists.
Qed.

(** C25: (safety) chat that is sent to the game is never a command: whatever the text is,
    nothing is written, or one line of printable characters that does not begin with a
    slash, or, where the soft mod runs, one request in base 64. *)
Theorem chat_is_no_command softmod input os c sent : cn_pipe c = Some sent ->
  cn_pipe (FactChat softmod input os c) = Some sent \/
  exists line, good_line line /\ (if (softmod : bool) then base64_line line else HasPrefix line "/" = false) /\
    cn_pipe (FactChat softmod input os c) = Some (sent +:+ added os line).
Proof.
  intros Hc. unfold FactChat. case_bool_decide; [by left|]. cbv zeta. destruct softmod; [by apply softmod_line|].
  rewrite (WriteFact_pipe _ _ _ _ Hc). set (t := plain_chat _). destruct (console_line t) as [line|] eqn:El; [right|by left].
  destruct (console_line_good _ _ El) as [Hg ->]. rewrite (pure_cleaned t) in * by apply plain_chat_pure.
  exists t. split; [done|]. split; [apply plain_chat_head|done].
Qed.

(** ** Whole lines *)
Inductive console_call := CallWrite (input : string) | CallChat (softmod : bool) (input : string) | CallWhisper (softmod : bool) (player input : string) | CallRequest (command data : string).

Definition run_call (call : console_call) (os : write_outcome) (c : console) : console :=
  match call with
  | CallWrite input => WriteFact input os c
  | CallChat softmod input => FactChat softmod input os c
  | CallWhisper softmod player input => FactWhisper softmod player input os c
  | CallRequest command data => WriteSoftModCommand command data os c
  end.

Lemma call_adds_line call os c sent : cn_pipe c = Some sent ->
  cn_pipe (run_call call os c) = Some sent \/ exists line, good_line line /\ cn_pipe (run_call call os c) = Some (sent +:+ added os line).
Proof.
  assert (Hw : forall input c, cn_pipe c = Some sent -> cn_pipe (WriteFact input os c) = Some sent \/
    exists line, good_line line /\ cn_pipe (WriteFact input os c) = Some (sent +:+ added os line)).
  { intros input c' Hc. rewrite (WriteFact_pipe _ _ _ _ Hc). destruct (console_line input) as [line|] eqn:El; [right|by left].
    destruct (console_line_good _ _ El) as [Hg _]. eauto. }
  assert (Hs : forall command data c, cn_pipe c = Some sent -> cn_pipe (WriteSoftModCommand command data os c) = Some sent \/
    exists line, good_line line /\ cn_pipe (WriteSoftModCommand command data os c) = Some (sent +:+ added os line)).
  { intros command data c' Hc. destruct (softmod_line command data os c' sent Hc) as [|(line & Hg & _ & Hl)]; [by left|right; eauto]. }
  intros Hc. destruct call as [input|softmod input|softmod player input|command data]; cbn [run_call]; [by apply Hw| | |by apply Hs].
  - unfold FactChat. case_bool_decide; [by left|]. cbv zeta. destruct softmod; [by apply Hs|by apply Hw].
  - unfold FactWhisper. cbv zeta. destruct softmod; [by apply Hs|by apply Hw].
Qed.

(** The text of the lines. *)
Definition written (lines : list string) : string := foldr (fun line rest => with_newline line +:+ rest) "" lines.

(** (invariant) the standard input of the game is a list of whole lines: however the
    operations that write to it follow each other, as long as the writes succeed, what is
    in the pipe is a list of printable lines of two to two thousand bytes, each with the
    line feed that ends it. *)
Theorem pipe_holds_whole_lines calls c : cn_pipe c = Some "" ->
  exists lines, Forall good_line lines /\ cn_pipe (foldl (fun c call => run_call call None c) c calls) = Some (written lines).
Proof.
  intros Hc. enough (Hg : forall lines c, Forall good_line lines -> cn_pipe c = Some (written lines) ->
    exists lines', Forall good_line lines' /\ cn_pipe (foldl (fun c call => run_call call None c) c calls) = Some (written lines')).
  { by apply (Hg []). }
  clear c Hc. induction calls as [|call calls IH]; intros lines c Hl Hc; [by exists lines|]. cbn [foldl].
  destruct (call_adds_line call None c _ Hc) as [Hn|(line & Hg & Hn)]; [by apply (IH lines)|].
  apply (IH (lines ++ [line])); [apply Forall_app; split; [done|by apply Forall_singleton]|]. rewrite Hn. f_equal. cbn [added]. clear.
  induction lines as [|x lines IH]; cbn [app written foldr]; [by rewrite string_app_nil_r|]. rewrite string_app_assoc. f_equal. exact IH.
Qed.

(** ** Requests *)
Lemma string_take_all n s : (String.length s <= n)%nat -> string_take n s = s.
Proof. revert n. induction s as [|c s IH]; intros [|n] Hn; cbn in *; try done; [lia|]. by rewrite IH by lia. Qed.
Lemma string_take_length n s : String.length (string_take n s) = Nat.min n (String.length s).
Proof. revert n. induction s as [|c s IH]; intros [|n]; cbn; try done. by rewrite IH. Qed.

Context `{SoftModFormats}.

(** (roundtrip) the payload of a request is read back from its encoding, if the
    compression keeps what is written and the payload is at most a mebibyte; a longer
    one is refused. *)
Theorem request_reads_back payload encoded :
  (forall p b n, zlib_write p = Some b -> zlib_read n b = Some (string_take (Z.to_nat n) p)) ->
  EncodeSoftModPayload payload = Some encoded ->
  DecodeSoftModPayload encoded = if slen payload <=? maxPayload then Some payload else None.
Proof.
  intros Hz. unfold EncodeSoftModPayload, DecodeSoftModPayload. destruct (zlib_write payload) as [b|] eqn:Eb; [|done]. cbn [mbind option_bind].
  intros [= <-]. rewrite to_of_bytes, b64_roundtrip. cbn [mbind option_bind]. rewrite (Hz _ _ (maxPayload + 1) Eb). cbn [mbind option_bind].
  set (m := maxPayload). assert (Hm : 0 <= m) by (by vm_compute). clearbody m. unfold slen.
  destruct (Z.leb_spec (Z.of_nat (String.length payload)) m) as [Hle|Hgt].
  - rewrite string_take_all by lia. match goal with |- context [if ?b then _ else _] => replace b with false by lia end. done.
  - rewrite string_take_length, Nat2Z.inj_min, Z2Nat.id by lia. destruct (Z.ltb_spec m (Z.min (m + 1) (Z.of_nat (String.length payload)))); [done|lia].
Qed.
End console.

(** ** On concrete text *)
Module ConsoleDemo.
#[local] Existing Instance ascii_tables.
#[local] Instance demo_print : PrintTable := {| uni_print := fun _ => true |}.
(** Formats that keep the text as it is. *)
#[local] Instance demo_requests : RequestFormats := {|
  json_request := fun v id command data => Some (id +:+ " " +:+ command +:+ " " +:+ data); json_chat := fun t => t;
  json_whisper := fun n t => n +:+ " " +:+ t; zlib_write := fun p => Some (to_bytes p) |}.
#[local] Instance demo_reader : SoftModFormats := {|
  zlib_read := fun n b => Some (string_take (Z.to_nat n) (of_bytes b)); json_envelope := fun _ => None; json_hello := fun _ => None; json_status := fun _ => None;
  json_online := fun _ => None; json_players := fun _ => None; json_preview := fun _ => None; json_level := fun _ => None; json_registration := fun _ => None;
  json_text := fun _ => None |}.
Definition fresh : console := mkConsole (Some "") 1 [] 0.

Example slash_is_cut : cn_pipe (FactChat false " / /ban bob" None fresh) = Some (with_newline "ban bob").
Proof. vm_compute. reflexivity. Qed.

Lemma chat_is_no_command_witness :
  cn_pipe (FactChat false "/ban bob" None fresh) = Some "" \/
  exists line, good_line line /\ HasPrefix line "/" = false /\ cn_pipe (FactChat false "/ban bob" None fresh) = Some ("" +:+ added None line).
Proof. apply (chat_is_no_command false "/ban bob" None fresh ""). reflexivity. Defined.

Lemma pipe_holds_whole_lines_witness :
  exists lines, Forall good_line lines /\
    cn_pipe (foldl (fun c call => run_call call None c) fresh [CallWrite "/players"; CallChat true "hello"; CallWhisper false "bob" "hi"]) = Some (written lines).
Proof. apply pipe_holds_whole_lines. reflexivity. Defined.

Lemma request_reads_back_witness : DecodeSoftModPayload "aGVsbG8=" = Some "hello".
Proof.
  apply (request_reads_back "hello" "aGVsbG8="); [|vm_compute; reflexivity].
  intros p b n [= <-]. cbn. by rewrite of_to_bytes.
Defined.

(** ** Findings *)

(** Chat is cut at 2048 bytes, but a line of more than 2000 is not written at all: chat of
    2001 to 2048 bytes is lost instead of cut ([src/fact/util.go:1199]). *)
Fixpoint letters (n : nat) : string := match n with O => "" | S n => String "a"%char (letters n) end.
Theorem long_chat_is_lost : cn_pipe (FactChat false (letters 2001) None fresh) = Some "" /\ cn_pipe (FactChat false (letters 2000) None fresh) <> Some "".
Proof. split; [vm_compute; reflexivity|vm_compute; discriminate]. Qed.

(** The tags of the game are removed before the formatting of Discord; a tag that is split by
    it is put together again ([src/fact/util.go:1214]). *)
Theorem formatting_hides_tag : cn_pipe (FactChat false "[col*or=red]hello" None fresh) = Some (with_newline "[color=red]hello").
Proof. vm_compute. reflexivity. Qed.
End ConsoleDemo.
