(* ===== verification/MessageQueue.v ===== *)
(** * Messages to Discord: the queue of [src/disc/discUtils.go] and the loop of
    [src/support/mainLoops_cms.go]

    Messages wait in a channel of limited size; the loop collects what has arrived,
    packs the lines for the two channels of the server into as few messages as fit, and
    sends each of them with a token, of which there are five more every five seconds.  A
    message that cannot be sent for now goes back to the queue.  Other goroutines queue
    messages at any time, also while one makes room in a full queue. *)
From Stdlib Require Import Ascii.
From S2P Require Import Prelude.
From S2P Require Import GoInt.
From S2P Require Import GoString.
From S2P Require Import Sanitize.
From S2P Require Import Output.
From S2P Require Import Console.

Definition CMSChan_capacity : nat := 1024.
Definition token_capacity : nat := 5.
Definition cr : ascii := ascii_of_nat 13.
Definition lf : string := String newline_char "".

Record MessageEmbed := mkEmbed { em_Title : string; em_Description : string; em_Color : Z }.
#[export] Instance MessageEmbed_eq_dec : EqDecision MessageEmbed.
Proof. solve_decision. Defined.

Record CMSBuf := mkCMS { cb_Channel : string; cb_Text : string; cb_Embed : option MessageEmbed }.
#[export] Instance CMSBuf_eq_dec : EqDecision CMSBuf.
Proof. solve_decision. Defined.

(** [strings.TrimRight(line, "\r")] *)
Fixpoint TrimRight_cr (s : string) : string :=
  match s with
  | String c tl => let t := TrimRight_cr tl in if bool_decide (t = "") && Ascii.eqb c cr then "" else String c t
  | EmptyString => s
  end.

Definition isBlank (line : string) : bool := bool_decide (TrimSpace line = "").

(** ** Text *)
Definition compactDiscordDescription (input : string) : string :=
  Join (List.filter (fun line => negb (isBlank line)) (TrimRight_cr <$> Split input newline_char)) lf.

Definition appendDiscordDescription (existing next : string) : string :=
  let existing := compactDiscordDescription existing in
  let next := compactDiscordDescription next in
  if bool_decide (existing = "") then next else if bool_decide (next = "") then existing else existing +:+ lf +:+ next.

Definition formatStatusMessage (title description : string) : string :=
  let description := TrimSpace description in if negb (bool_decide (description = "")) then description else TrimSpace title.

Definition retryHints : list string :=
  ["discord session not connected"; "websocket is not open"; "connection reset"; "broken pipe"; "closed network connection";
   "unexpected eof"; "eof"; "timeout"; "temporarily unavailable"; "service unavailable"; "transport is closing"].
Definition isRetryableDiscordSendError `{UnicodeTables} (err : string) : bool := existsb (Contains (ToLower err)) retryHints.

(** ** The queue *)
(** The three operations on the channel: send without waiting, receive without waiting, and
    the second try, after which the message itself is dropped. *)
Definition try_put (item : CMSBuf) (q : list CMSBuf) : option (list CMSBuf) :=
  if (length q <? CMSChan_capacity)%nat then Some (q ++ [item]) else None.
Definition drop_oldest (q : list CMSBuf) : list CMSBuf * list CMSBuf := (drop 1 q, take 1 q).
Definition put_or_drop (item : CMSBuf) (q : list CMSBuf) : list CMSBuf * list CMSBuf :=
  match try_put item q with Some q => (q, []) | None => (q, [item]) end.

(** The call without another one in between: the queue and what was dropped. *)
Definition queueCMSItem (item : CMSBuf) (q : list CMSBuf) : list CMSBuf * list CMSBuf :=
  match try_put item q with
  | Some q => (q, [])
  | None =>
      let '(q, oldest) := drop_oldest q in
      let '(q, dropped) := put_or_drop item q in (q, oldest ++ dropped)
  end.

Fixpoint queue_items (items : list CMSBuf) (q : list CMSBuf) : list CMSBuf * list CMSBuf :=
  match items with
  | [] => (q, [])
  | item :: items =>
      let '(q, lost) := queueCMSItem item q in
      let '(q, lost') := queue_items items q in (q, lost ++ lost')
  end.

(** The lines of a text that are queued, and the text they come from. *)
Definition message_lines (text : string) : list string :=
  List.filter (fun line => negb (isBlank line)) (TrimRight_cr <$> Split (TruncateStringEllipsis text MaxDiscordMsgLen) newline_char).
Definition message_items (ch text : string) : list CMSBuf :=
  if bool_decide (ch = "") || bool_decide (text = "") then [] else (fun line => mkCMS ch line None) <$> message_lines text.

Definition QueueDiscordMessage (ch text : string) (q : list CMSBuf) : list CMSBuf * list CMSBuf := queue_items (message_items ch text) q.
Definition QueueDiscordEmbed (ch : string) (embed : MessageEmbed) (q : list CMSBuf) : list CMSBuf * list CMSBuf :=
  if bool_decide (ch = "") then (q, []) else queueCMSItem (mkCMS ch "" (Some embed)) q.

(** What the two functions give to [queueCMSItem]: one line, or an embed. *)
Definition queued_item (m : CMSBuf) : bool :=
  match cb_Embed m with
  | None => bool_decide (message_items (cb_Channel m) (cb_Text m) = [m])
  | Some _ => negb (bool_decide (cb_Channel m = "")) && bool_decide (cb_Text m = "")
  end.

(** ** Packing *)
Definition appendCMSBufferLine (buf line : string) : string :=
  let line := TrimRight_cr line in
  if isBlank line then buf else if bool_decide (buf = "") then line else buf +:+ lf +:+ line.

Fixpoint pack (buf : string) (lines : list string) : list string :=
  match lines with
  | [] => if bool_decide (buf = "") then [] else [buf]
  | line :: lines =>
      let next := appendCMSBufferLine buf line in
      if bool_decide (next = buf) then pack buf lines
      else if negb (bool_decide (buf = "")) && (MaxDiscordMsgLen <=? slen next) then buf :: pack (appendCMSBufferLine "" line) lines
      else pack next lines
  end.

Section loop.
Context `{UnicodeTables}.
Variable chatChannel : string.      (* [cfg.Local.Channel.ChatChannel] *)
Variable reportChannel : string.    (* [cfg.Global.Discord.ReportChannel] *)

(** The channel a message is for, as the loop tells them apart. *)
Inductive target := Chat | Report | Other (ch : string).
#[export] Instance target_eq_dec : EqDecision target.
Proof. solve_decision. Defined.

Definition target_of (ch : string) : target := if EqualFold ch chatChannel then Chat else if EqualFold ch reportChannel then Report else Other ch.
Definition channel_of (t : target) : string := match t with Chat => chatChannel | Report => reportChannel | Other ch => ch end.

(** What the loop sends for what it has collected, in order. *)
Inductive send := SendText (to : target) (text : string) | SendEmbed (ch : string) (embed : MessageEmbed).

Definition texts_for (to : target) (batch : list CMSBuf) : list string :=
  omap (fun m => match cb_Embed m with Some _ => None | None => if bool_decide (target_of (cb_Channel m) = to) then Some (cb_Text m) else None end) batch.
Definition sent_at_once (m : CMSBuf) : option send :=
  match cb_Embed m with
  | Some e => Some (SendEmbed (cb_Channel m) e)
  | None => match target_of (cb_Channel m) with Other ch => Some (SendText (Other ch) (cb_Text m)) | _ => None end
  end.
Definition batch_sends (batch : list CMSBuf) : list send :=
  omap sent_at_once batch ++ (SendText Chat <$> pack "" (texts_for Chat batch)) ++ (SendText Report <$> pack "" (texts_for Report batch)).

(** ** The loop *)
(** What Discord says to a message: it is taken, or the error. *)
Inductive answer := Taken | Refused (err : string) | NotConnected.

(** [cm_full]: the items of the calls that have found the queue full; [cm_made]: of those
    that have made room since.  [cm_held]: the loop has a token for the next message. *)
Record cms := mkLoop {
  cm_queue : list CMSBuf; cm_full : list CMSBuf; cm_made : list CMSBuf;
  cm_pending : list send; cm_tokens : nat; cm_held : bool;
  cm_sent : list send;                                  (* what Discord has taken *)
  cm_lost : list CMSBuf; cm_failed : list send }.
#[export] Instance cms_settable : Settable cms := mkSettable (fun r =>
  mkLoop (cm_queue r) (cm_full r) (cm_made r) (cm_pending r) (cm_tokens r) (cm_held r) (cm_sent r) (cm_lost r) (cm_failed r)).

Definition put (q : list CMSBuf * list CMSBuf) (w : cms) : cms := w <| cm_queue := q.1 |> <| cm_lost ::= fun l => l ++ q.2 |>.

(** [SmartWriteDiscord] and [SmartWriteDiscordEmbed] *)
Definition send_out (s : send) (a : answer) (w : cms) : cms :=
  match s with
  | SendText to text =>
      if bool_decide (channel_of to = "") || bool_decide (text = "") then w <| cm_failed ::= fun l => l ++ [s] |>
      else
        match a with
        | NotConnected => put (QueueDiscordMessage (channel_of to) text (cm_queue w)) w
        | Taken => w <| cm_sent ::= fun l => l ++ [s] |>
        | Refused err =>
            if isRetryableDiscordSendError err then put (QueueDiscordMessage (channel_of to) text (cm_queue w)) w
            else w <| cm_failed ::= fun l => l ++ [s] |>
        end
  | SendEmbed ch embed =>
      match a with Taken => if bool_decide (ch = "") then w <| cm_failed ::= fun l => l ++ [s] |> else w <| cm_sent ::= fun l => l ++ [s] |> | _ => w <| cm_failed ::= fun l => l ++ [s] |> end
  end.

Inductive cms_event :=
  | Message (ch text : string)            (* somebody queues a message, undisturbed *)
  | Embed (ch : string) (embed : MessageEmbed)
  | FindFull (m : CMSBuf)                 (* a call of [queueCMSItem], one operation at a time *)
  | MakeRoom (m : CMSBuf)
  | TryAgain (m : CMSBuf)
  | Collect (n : nat)                     (* the loop takes the first [n] of the queue *)
  | Take                                  (* the loop takes a token for the next message *)
  | Send (a : answer)                     (* the message is sent *)
  | Refill (waiting : bool).              (* the tokens are refilled; the loop waits for one *)

(** One of the items in the list is taken out of it. *)
Fixpoint take_out (m : CMSBuf) (l : list CMSBuf) : option (list CMSBuf) :=
  match l with
  | [] => None
  | x :: l => if bool_decide (x = m) then Some l else l ← take_out m l; Some (x :: l)
  end.

(** [None]: this cannot happen now.  A refill gives its first token to the loop when that is
    waiting for one, and then fills the channel. *)
Definition cms_step (e : cms_event) (w : cms) : option cms :=
  match e with
  | Message ch text => Some (put (QueueDiscordMessage ch text (cm_queue w)) w)
  | Embed ch embed => Some (put (QueueDiscordEmbed ch embed (cm_queue w)) w)
  | FindFull m =>
      if queued_item m then match try_put m (cm_queue w) with Some _ => None | None => Some (w <| cm_full ::= cons m |>) end else None
  | MakeRoom m => full ← take_out m (cm_full w); Some (put (drop_oldest (cm_queue w)) (w <| cm_full := full |> <| cm_made ::= cons m |>))
  | TryAgain m => made ← take_out m (cm_made w); Some (put (put_or_drop m (cm_queue w)) (w <| cm_made := made |>))
  | Collect n =>
      if bool_decide (cm_pending w = []) && (1 <=? n)%nat && (n <=? length (cm_queue w))%nat
      then Some (w <| cm_queue := drop n (cm_queue w) |> <| cm_pending := batch_sends (take n (cm_queue w)) |>)
      else None
  | Take =>
      match cm_held w, cm_tokens w, cm_pending w with
      | false, S k, _ :: _ => Some (w <| cm_tokens := k |> <| cm_held := true |>)
      | _, _, _ => None
      end
  | Send a =>
      match cm_held w, cm_pending w with
      | true, s :: rest => Some (send_out s a (w <| cm_held := false |> <| cm_pending := rest |>))
      | _, _ => None
      end
  | Refill waiting =>
      if waiting then
        match cm_held w, cm_tokens w, cm_pending w with
        | false, O, _ :: _ => Some (w <| cm_held := true |> <| cm_tokens := token_capacity |>)
        | _, _, _ => None
        end
      else Some (w <| cm_tokens := token_capacity |>)
  end.

Fixpoint cms_run (events : list cms_event) (w : cms) : option cms :=
  match events with
  | [] => Some w
  | e :: events => w ← cms_step e w; cms_run events w
  end.

Definition cms_start : cms := mkLoop [] [] [] [] token_capacity false [] [] [].
End loop.
