(* ===== verification/MessageQueueSafety.v ===== *)
(** * What the queue of messages to Discord guarantees

    No line is lost or sent twice: what was queued is what was sent, waits, or is in the
    list of what was given up, as a permutation; in order, when nothing goes wrong.  A
    message is at most two thousand bytes, and the tokens bound how many are sent. *)
From Stdlib Require Import Ascii.
From S2P Require Import Prelude.
From S2P Require Import GoInt.
From S2P Require Import GoString.
From S2P Require Import GoPath.
From S2P Require Import Sanitize.
From S2P Require Import SanitizeSafety.
From S2P Require Import Output.
From S2P Require Import Console.
From S2P Require Import MessageQueue.

(** ** Lines *)

(** A line as it is queued. *)
Definition ok_line (l : string) : Prop := TrimRight_cr l = l /\ isBlank l = false /\ no_byte newline_char l /\ slen l <= MaxDiscordMsgLen.

Lemma TrimRight_cr_idem s : TrimRight_cr (TrimRight_cr s) = TrimRight_cr s.
Proof.
  induction s as [|c s IH]; [done|]. cbn [TrimRight_cr]. destruct (bool_decide (TrimRight_cr s = "") && Ascii.eqb c cr) eqn:E; [done|].
  cbn [TrimRight_cr]. by rewrite IH, E.
Qed.
Lemma TrimRight_cr_length s : slen (TrimRight_cr s) <= slen s.
Proof. unfold slen. induction s as [|c s IH]; [done|]. cbn [TrimRight_cr]. case_match; cbn [String.length]; lia. Qed.
Lemma TrimRight_cr_no_byte b s : no_byte b s -> no_byte b (TrimRight_cr s).
Proof.
  unfold no_byte. induction s as [|c s IH]; [done|]. cbn [TrimRight_cr]. intros Hs.
  assert (Ht : b ∉ to_bytes (TrimRight_cr s)) by (apply IH; intros Hb; apply Hs; by right).
  case_match; [apply not_elem_of_nil|]. intros [->|Hb]%elem_of_cons; [apply Hs; left|done].
Qed.

Lemma Split_length sep s e : e ∈ Split s sep -> slen e <= slen s.
Proof.
  unfold Split, slen. enough (Hg : forall cur, e ∈ split_go sep cur s -> Z.of_nat (String.length e) <= Z.of_nat (String.length cur) + Z.of_nat (String.length s)).
  { intros He. apply Hg in He. cbn in He. lia. }
  induction s as [|c s IH]; intros cur; cbn [split_go String.length].
  - intros ->%list_elem_of_singleton. lia.
  - destruct (Ascii.eqb c sep).
    + intros [->|He]%elem_of_cons; [lia|]. apply IH in He. cbn in He. lia.
    + intros He. apply IH in He. rewrite string_length_app in He. cbn [String.length] in He. lia.
Qed.

Lemma Truncate_length s : slen (TruncateStringEllipsis s MaxDiscordMsgLen) <= MaxDiscordMsgLen.
Proof.
  unfold TruncateStringEllipsis. destruct (Z.ltb_spec MaxDiscordMsgLen (slen s)); [|lia]. cbv zeta. unfold slice_to, slen.
  rewrite string_length_app. pose proof (take_length_le (Z.to_nat (if 3 <? MaxDiscordMsgLen then MaxDiscordMsgLen - 3 else MaxDiscordMsgLen)) s) as Hl.
  change (3 <? MaxDiscordMsgLen) with true in *. cbv iota in *. unfold MaxDiscordMsgLen in *. cbn [String.length]. lia.
Qed.

Lemma message_lines_ok text : Forall ok_line (message_lines text).
Proof.
  apply Forall_forall. intros l Hl. unfold message_lines in Hl. apply list_elem_of_In, filter_In in Hl as [Hl Hb].
  apply list_elem_of_In, list_elem_of_fmap in Hl as (s & -> & Hs). apply negb_true_iff in Hb.
  split; [apply TrimRight_cr_idem|]. split; [done|]. split; [by apply TrimRight_cr_no_byte, (Split_no_byte _ _ _ Hs)|].
  pose proof (TrimRight_cr_length s). pose proof (Split_length _ _ _ Hs). pose proof (Truncate_length text). lia.
Qed.

(** ** Packing *)
Lemma Join_snoc l x : l <> [] -> Join (l ++ [x]) lf = Join l lf +:+ lf +:+ x.
Proof.
  induction l as [|y l IH]; [done|]. intros _. destruct l as [|z l]; [done|].
  change (Join ((y :: z :: l) ++ [x]) lf) with (y +:+ lf +:+ Join ((z :: l) ++ [x]) lf). rewrite IH by done.
  change (Join (y :: z :: l) lf) with (y +:+ lf +:+ Join (z :: l) lf). by rewrite !string_app_assoc.
Qed.

Lemma ok_line_nonempty l : ok_line l -> l <> "".
Proof. by intros (_ & Hb & _) ->. Qed.

Lemma Join_nonempty l : l <> [] -> Forall ok_line l -> Join l lf <> "".
Proof.
  intros Hl Hf. destruct Hf as [|x l Hx _]; [done|]. apply ok_line_nonempty in Hx. destruct l as [|y l]; [done|].
  change (Join (x :: y :: l) lf) with (x +:+ lf +:+ Join (y :: l) lf). by destruct x.
Qed.

(** A message is the lines of a group. *)
Definition group (text : string) (g : list string) : Prop := text = Join g lf /\ g <> [] /\ Forall ok_line g /\ slen text <= MaxDiscordMsgLen.

Lemma append_line d line : ok_line line ->
  appendCMSBufferLine (Join d lf) line = if bool_decide (Join d lf = "") then line else Join d lf +:+ lf +:+ line.
Proof. intros (Ht & Hb & _). unfold appendCMSBufferLine. cbv zeta. by rewrite Ht, Hb. Qed.

Lemma pack_groups d lines : Forall ok_line d -> slen (Join d lf) <= MaxDiscordMsgLen -> Forall ok_line lines ->
  exists gs, Forall2 group (pack (Join d lf) lines) gs /\ mjoin gs = d ++ lines.
Proof.
  intros Hd Hlen Hl. revert d Hd Hlen. induction Hl as [|line lines Hline _ IH]; intros d Hd Hlen; cbn [pack].
  { destruct d as [|x d]; [by exists []|]. rewrite bool_decide_false by (by apply Join_nonempty). exists [x :: d]. split; [|done].
    constructor; [|constructor]. by split_and!. }
  rewrite append_line by done. destruct d as [|x d].
  - change (Join [] lf) with "". rewrite (bool_decide_true ("" = "")) by done. rewrite (bool_decide_false (line = "")) by by apply ok_line_nonempty.
    cbn [negb andb]. apply (IH [line]); [by apply Forall_singleton|apply Hline].
  - set (dd := x :: d) in *. assert (Hne : Join dd lf <> "") by (by apply Join_nonempty). rewrite (bool_decide_false (Join dd lf = "")) by done.
    rewrite bool_decide_false.
    2:{ intros He. apply (f_equal String.length) in He. rewrite !string_length_app in He. cbn in He. lia. }
    cbn [negb andb]. destruct (Z.leb_spec MaxDiscordMsgLen (slen (Join dd lf +:+ lf +:+ line))) as [Hbig|Hsmall].
    + change (appendCMSBufferLine "" line) with (appendCMSBufferLine (Join [] lf) line). rewrite append_line by done. cbn [Join]. rewrite (bool_decide_true ("" = "")) by done.
      destruct (IH [line]) as (gs & Hf & Hj); [by apply Forall_singleton|apply Hline|]. exists (dd :: gs). split; [|change (mjoin (dd :: gs)) with (dd ++ mjoin gs); by rewrite Hj].
      constructor; [by split_and!|exact Hf].
    + rewrite <-Join_snoc by done. destruct (IH (dd ++ [line])) as (gs & Hf & Hj).
      * apply Forall_app; split; [done|by apply Forall_singleton].
      * rewrite Join_snoc by done. lia.
      * exists gs. split; [done|]. by rewrite Hj, <-app_assoc.
Qed.

Lemma group_lines text g : group text g -> Split text newline_char = g /\ message_lines text = g.
Proof.
  intros (-> & Hne & Hg & Hlen). assert (Hs : Split (Join g lf) newline_char = g).
  { apply Split_Join; [done|]. eapply Forall_impl; [exact Hg|]. by intros l (_ & _ & Hn & _). }
  split; [done|]. unfold message_lines, TruncateStringEllipsis. destruct (Z.ltb_spec MaxDiscordMsgLen (slen (Join g lf))); [lia|]. rewrite Hs.
  clear -Hg. induction Hg as [|l g (Ht & Hb & _) _ IH]; [done|]. cbn. rewrite Ht, Hb. cbn [negb]. by rewrite IH.
Qed.

(** ** The loop *)
Section loop.
Context `{UnicodeTables}.
Variables chatChannel reportChannel : string.
Notation target_of := (target_of chatChannel reportChannel).
Notation channel_of := (channel_of chatChannel reportChannel).
Notation texts_for := (texts_for chatChannel reportChannel).
Notation cms_step := (cms_step chatChannel reportChannel).
Notation cms_run := (cms_run chatChannel reportChannel).

(** The two channels of the server are two. *)
Hypothesis two_channels : target_of chatChannel = Chat /\ target_of reportChannel = Report.

Lemma target_of_channel_of ch : target_of (channel_of (target_of ch)) = target_of ch.
Proof.
  destruct two_channels as [Hc Hr]. destruct (target_of ch) as [| |ch'] eqn:E; [exact Hc|exact Hr|].
  assert (ch' = ch) as -> by (unfold MessageQueue.target_of in E; repeat case_match; congruence). exact E.
Qed.

(** The lines for a channel in what was sent or is about to be. *)
Definition send_lines (to : target) (s : send) : list string :=
  match s with SendText t text => if decide (t = to) then Split text newline_char else [] | SendEmbed _ _ => [] end.
Definition sends_lines (to : target) (l : list send) : list string := flat_map (send_lines to) l.

Lemma sends_lines_app to a b : sends_lines to (a ++ b) = sends_lines to a ++ sends_lines to b.
Proof. apply flat_map_app. Qed.
Lemma texts_for_app to a b : texts_for to (a ++ b) = texts_for to a ++ texts_for to b.
Proof. apply omap_app. Qed.

(** What was queued for a channel: a line counts when the call that queues it is over. *)
Definition accepted_by (to : target) (e : cms_event) : list string :=
  match e with Message ch text => texts_for to (message_items ch text) | TryAgain m => texts_for to [m] | _ => [] end.
Definition accepted (to : target) (events : list cms_event) : list string := flat_map (accepted_by to) events.

Definition ok_item (m : CMSBuf) : Prop := cb_Embed m = None -> ok_line (cb_Text m).
Definition ok_send (s : send) : Prop :=
  match s with SendText t text => target_of (channel_of t) = t /\ exists g, group text g | SendEmbed _ _ => True end.

Lemma message_items_ok ch text : Forall ok_item (message_items ch text).
Proof.
  unfold message_items. destruct (_ || _); [constructor|]. apply Forall_fmap. eapply Forall_impl; [apply message_lines_ok|]. by intros l Hl _.
Qed.

Lemma texts_for_ok to items : Forall ok_item items -> Forall ok_line (texts_for to items).
Proof.
  induction 1 as [|m items Hm _ IH]; [constructor|]. unfold MessageQueue.texts_for in *. cbn. destruct (cb_Embed m) eqn:E; [done|].
  case_bool_decide; [|done]. constructor; [by apply Hm|done].
Qed.

(** A message is queued as its lines, for its own channel. *)
Lemma message_items_texts to ch text :
  texts_for to (message_items ch text) = if bool_decide (ch = "") || bool_decide (text = "") then [] else if decide (target_of ch = to) then message_lines text else [].
Proof.
  unfold message_items. destruct (_ || _); [done|]. induction (message_lines text) as [|l ls IH]; [by destruct (decide _)|].
  unfold MessageQueue.texts_for in *. cbn. rewrite IH. destruct (decide (target_of ch = to)); [by rewrite bool_decide_true by done|by rewrite bool_decide_false by done].
Qed.

(** Queueing items: what was there and what comes is in the queue or dropped, and in its
    order as long as nothing is. *)
Lemma put_or_drop_keeps m q : let '(q', lost) := put_or_drop m q in lost ++ q' ≡ₚ q ++ [m] /\ (lost = [] -> q' = q ++ [m]).
Proof.
  unfold put_or_drop, try_put. destruct (_ <? _)%nat; [done|]. split; [|done]. cbn. by rewrite Permutation_app_comm.
Qed.
Lemma queueCMSItem_keeps m q : let '(q', lost) := queueCMSItem m q in lost ++ q' ≡ₚ q ++ [m] /\ (lost = [] -> q' = q ++ [m]).
Proof.
  unfold queueCMSItem. unfold try_put at 1. destruct (length q <? CMSChan_capacity)%nat eqn:El; [done|].
  cbn [drop_oldest]. pose proof (put_or_drop_keeps m (drop 1 q)) as Hp. unfold drop_oldest. destruct (put_or_drop m (drop 1 q)) as [q' lost].
  destruct Hp as [Hp _]. split.
  - by rewrite <-app_assoc, Hp, app_assoc, take_drop.
  - destruct q as [|x q]; [by vm_compute in El|done].
Qed.

Lemma queue_items_keeps items q : let '(q', lost) := queue_items items q in lost ++ q' ≡ₚ q ++ items /\ (lost = [] -> q' = q ++ items).
Proof.
  revert q. induction items as [|m items IH]; intros q; cbn [queue_items]; [by rewrite app_nil_r|].
  pose proof (queueCMSItem_keeps m q) as Hm. destruct (queueCMSItem m q) as [q1 lost1]. specialize (IH q1).
  destruct (queue_items items q1) as [q2 lost2]. destruct Hm as [Pm Em], IH as [Pi Ei]. split.
  - rewrite <-app_assoc, Pi, app_assoc, Pm, <-app_assoc. done.
  - intros [Hl1 Hl2]%app_nil. rewrite Ei, Em by done. by rewrite <-app_assoc.
Qed.

(** What is collected is sent, channel by channel. *)
Lemma groups_lines texts gs to : Forall2 group texts gs -> sends_lines to (SendText to <$> texts) = mjoin gs.
Proof.
  induction 1 as [|text g texts gs Hg _ IH]; [done|]. unfold sends_lines in *. cbn. rewrite decide_True by done. by rewrite (proj1 (group_lines _ _ Hg)), IH.
Qed.
Lemma other_target_lines texts t to : t <> to -> sends_lines to (SendText t <$> texts) = [].
Proof. intros Ht. induction texts as [|x texts IH]; [done|]. unfold sends_lines in *. cbn. by rewrite decide_False by done. Qed.

Lemma pack_lines lines to : Forall ok_line lines -> sends_lines to (SendText to <$> pack "" lines) = lines.
Proof.
  intros Hl. destruct (pack_groups [] lines) as (gs & Hg & Hj); [constructor|by vm_compute|done|]. by rewrite (groups_lines _ gs).
Qed.

Lemma at_once_lines batch to : Forall ok_item batch ->
  sends_lines to (omap (sent_at_once chatChannel reportChannel) batch) = match to with Other _ => texts_for to batch | _ => [] end.
Proof.
  induction 1 as [|m batch Hm _ IH]; [by destruct to|]. unfold MessageQueue.texts_for, sends_lines in *. cbn. unfold sent_at_once at 1.
  destruct (cb_Embed m) eqn:E; [cbn; by rewrite IH|]. destruct (target_of (cb_Channel m)) as [| |ch] eqn:Et; cbn.
  - rewrite IH. by destruct to.
  - rewrite IH. by destruct to.
  - rewrite IH. destruct (decide (Other ch = to)) as [<-|Hne].
    + rewrite bool_decide_true by done. cbn. destruct (Hm E) as (_ & _ & Hn & _). by rewrite (Split_no_sep _ _ Hn).
    + destruct to as [| |ch']; [done|done|]. by rewrite bool_decide_false by done.
Qed.

Lemma batch_lines batch to : Forall ok_item batch -> sends_lines to (batch_sends chatChannel reportChannel batch) = texts_for to batch.
Proof.
  intros Hb. unfold batch_sends. rewrite !sends_lines_app, at_once_lines by done. destruct to as [| |ch].
  - rewrite pack_lines by by apply texts_for_ok. rewrite other_target_lines by done. by rewrite app_nil_r.
  - rewrite pack_lines by by apply texts_for_ok. by rewrite other_target_lines by done.
  - rewrite !other_target_lines by done. by rewrite !app_nil_r.
Qed.

(** ** Every line is somewhere *)
Definition everywhere (to : target) (w : cms) : list string :=
  sends_lines to (cm_sent w) ++ sends_lines to (cm_failed w) ++ texts_for to (cm_lost w) ++ sends_lines to (cm_pending w) ++ texts_for to (cm_queue w).

Definition tidy (w : cms) : Prop :=
  Forall ok_item (cm_queue w) /\ Forall ok_item (cm_lost w) /\ Forall ok_send (cm_pending w) /\ Forall ok_send (cm_sent w) /\ Forall ok_send (cm_failed w) /\
  Forall ok_item (cm_full w) /\ Forall ok_item (cm_made w).

Lemma queued_item_ok m : queued_item m = true -> ok_item m.
Proof.
  unfold queued_item, ok_item. intros Hm E. rewrite E in Hm. apply bool_decide_eq_true in Hm.
  pose proof (message_items_ok (cb_Channel m) (cb_Text m)) as Hok. rewrite Hm, Forall_singleton in Hok. by apply Hok.
Qed.

Lemma take_out_perm m l l' : take_out m l = Some l' -> l ≡ₚ m :: l'.
Proof.
  revert l'. induction l as [|x l IH]; intros l'; cbn; [done|]. case_bool_decide as E; [intros [= <-]; by subst|].
  intros (k & Hk & [= <-])%bind_Some. rewrite (IH k Hk). constructor.
Qed.

Lemma batch_ok batch : Forall ok_item batch -> Forall ok_send (batch_sends chatChannel reportChannel batch).
Proof.
  destruct two_channels as [Hchat Hreport]. intros Hb. unfold batch_sends. apply Forall_app. split; [|apply Forall_app; split].
  - apply Forall_forall. intros s Hs. apply list_elem_of_omap in Hs as (m & Hin & Hs). rewrite Forall_forall in Hb. specialize (Hb _ Hin).
    unfold sent_at_once in Hs. destruct (cb_Embed m) eqn:E; [by injection Hs as <-|]. destruct (target_of (cb_Channel m)) as [| |ch] eqn:Et; try discriminate.
    injection Hs as <-. split; [by rewrite <-Et, target_of_channel_of|]. exists [cb_Text m]. split; [done|]. split; [done|]. specialize (Hb E).
    split; [by apply Forall_singleton|apply Hb].
  - destruct (pack_groups [] (texts_for Chat batch)) as (gs & Hg & _); [constructor|by vm_compute|by apply texts_for_ok|].
    apply Forall_fmap. change (Join [] lf) with "" in Hg. clear -Hg Hchat. induction Hg; [constructor|]. constructor; [|done]. split; [exact Hchat|by eexists].
  - destruct (pack_groups [] (texts_for Report batch)) as (gs & Hg & _); [constructor|by vm_compute|by apply texts_for_ok|].
    apply Forall_fmap. change (Join [] lf) with "" in Hg. clear -Hg Hreport. induction Hg; [constructor|]. constructor; [|done]. split; [exact Hreport|by eexists].
Qed.

(** Putting a new queue, of which nothing is missing. *)
Lemma put_keeps items (q : list CMSBuf * list CMSBuf) w : q.2 ++ q.1 ≡ₚ cm_queue w ++ items -> Forall ok_item items -> tidy w ->
  tidy (put q w) /\ forall to, everywhere to (put q w) ≡ₚ everywhere to w ++ texts_for to items.
Proof.
  destruct q as [q lost]. cbn [fst snd]. intros Hk Hi (Hq & Hl & Hr). assert (Ha : Forall ok_item (lost ++ q)) by (rewrite Hk; by apply Forall_app).
  apply Forall_app in Ha as [Ha1 Ha2]. split; [split; [exact Ha2|]; split; [|exact Hr]; by apply Forall_app|].
  intros to. change (everywhere to (put (q, lost) w)) with
    (sends_lines to (cm_sent w) ++ sends_lines to (cm_failed w) ++ texts_for to (cm_lost w ++ lost) ++ sends_lines to (cm_pending w) ++ texts_for to q).
  assert (Ht : texts_for to lost ++ texts_for to q ≡ₚ texts_for to (cm_queue w) ++ texts_for to items) by (rewrite <-!texts_for_app; by apply omap_Permutation).
  unfold everywhere. rewrite texts_for_app, <-!app_assoc, <-Ht. do 3 f_equiv. rewrite !app_assoc. f_equiv. apply Permutation_app_comm.
Qed.

Lemma put_tidy items w : Forall ok_item items -> tidy w -> tidy (put (queue_items items (cm_queue w)) w).
Proof. intros Hi Hw. pose proof (queue_items_keeps items (cm_queue w)) as Hk. destruct (queue_items _ _) as [q l]. destruct Hk as [Hk _]. by apply (put_keeps items (q, l)). Qed.

Lemma put_everywhere to items w : Forall ok_item items -> tidy w ->
  everywhere to (put (queue_items items (cm_queue w)) w) ≡ₚ everywhere to w ++ texts_for to items.
Proof. intros Hi Hw. pose proof (queue_items_keeps items (cm_queue w)) as Hk. destruct (queue_items _ _) as [q l]. destruct Hk as [Hk _]. by apply (put_keeps items (q, l)). Qed.

Lemma put_nothing w : put (cm_queue w, []) w = w.
Proof. unfold put. destruct w. cbn. by rewrite app_nil_r. Qed.

Lemma embed_keeps ch e w : tidy w -> let w' := put (QueueDiscordEmbed ch e (cm_queue w)) w in
  tidy w' /\ forall to, everywhere to w' ≡ₚ everywhere to w.
Proof.
  intros Hw. unfold QueueDiscordEmbed. case_bool_decide; [by rewrite put_nothing|].
  pose proof (queueCMSItem_keeps (mkCMS ch "" (Some e)) (cm_queue w)) as Hk. destruct (queueCMSItem _ _) as [q l]. destruct Hk as [Hk _].
  destruct (put_keeps [mkCMS ch "" (Some e)] (q, l) w) as [Ht He]; [done|by apply Forall_singleton|done|]. split; [done|].
  intros to. rewrite He. by rewrite app_nil_r.
Qed.

(** A step of a call of [queueCMSItem]. *)
Lemma made_keeps m q full made w : tidy w -> Forall ok_item full -> Forall ok_item made ->
  q.2 ++ q.1 ≡ₚ cm_queue w ++ m -> Forall ok_item m ->
  let w' := put q (w <| cm_full := full |> <| cm_made := made |>) in
  tidy w' /\ forall to, everywhere to w' ≡ₚ everywhere to w ++ texts_for to m.
Proof.
  intros (Hq & Hl & Hp & Hs & Hf & _) Hfull Hmade Hk Hm. set (w1 := w <| cm_full := full |> <| cm_made := made |>).
  assert (E : forall to, everywhere to w1 = everywhere to w) by (intros to; reflexivity).
  destruct (put_keeps m q w1) as [Ht He]; [exact Hk|exact Hm|unfold tidy; by split_and!|]. split; [exact Ht|]. intros to. by rewrite He, E.
Qed.

Lemma sends_lines_snoc to l s : sends_lines to (l ++ [s]) = sends_lines to l ++ send_lines to s.
Proof. rewrite sends_lines_app. unfold sends_lines at 2. cbn. by rewrite app_nil_r. Qed.

(** A message goes to Discord, is given up, or is queued again as its lines. *)
Lemma send_cases s a w : ok_send s ->
  (send_out chatChannel reportChannel s a w = w <| cm_sent ::= fun l => l ++ [s] |>) \/
  (a <> Taken \/ s = SendText Chat "" \/ (exists t text, s = SendText t text /\ channel_of t = "") \/ exists e, s = SendEmbed "" e) /\
  (send_out chatChannel reportChannel s a w = w <| cm_failed ::= fun l => l ++ [s] |> \/
   exists items, send_out chatChannel reportChannel s a w = put (queue_items items (cm_queue w)) w /\ Forall ok_item items /\
     forall to, texts_for to items = send_lines to s).
Proof.
  intros Hs. destruct s as [t text|ch e]; cbn [send_out].
  - destruct Hs as [Ht [g Hg]]. destruct (bool_decide (channel_of t = "") || bool_decide (text = "")) eqn:E.
    { right. split; [|by left]. apply orb_true_iff in E as [E%bool_decide_eq_true|E%bool_decide_eq_true]; [right; right; left; eauto|].
      exfalso. destruct Hg as (-> & Hne & Hok & _). by apply (Join_nonempty g). }
    assert (Hre : exists items, put (QueueDiscordMessage (channel_of t) text (cm_queue w)) w = put (queue_items items (cm_queue w)) w /\ Forall ok_item items /\
      forall to, texts_for to items = send_lines to (SendText t text)).
    { exists (message_items (channel_of t) text). split; [done|]. split; [apply message_items_ok|]. intros to. rewrite message_items_texts, E, Ht. cbn [send_lines].
      destruct (group_lines _ _ Hg) as [-> ->]. done. }
    destruct a as [|err|]; [by left| |right; split; [by left|by right]]. destruct (isRetryableDiscordSendError err); right; (split; [by left|]); [by right|by left].
  - destruct a; [|right; split; [by left|by left]..]. case_bool_decide; [|by left]. subst. right. split; [eauto 10|by left].
Qed.

(** Moving one part of a list to its end. *)
Lemma move_to_end {A} (x a b c d e : list A) : a ++ b ++ c ++ (x ++ d) ++ e ≡ₚ (a ++ b ++ c ++ d ++ e) ++ x.
Proof. rewrite <-!app_assoc. do 3 f_equiv. by rewrite (Permutation_app_comm x), <-app_assoc. Qed.
Lemma move_first {A} (x a b : list A) : (a ++ x) ++ b ≡ₚ (a ++ b) ++ x.
Proof. rewrite <-!app_assoc. f_equiv. apply Permutation_app_comm. Qed.
Lemma move_second {A} (x a b c : list A) : a ++ (b ++ x) ++ c ≡ₚ (a ++ b ++ c) ++ x.
Proof. rewrite <-!app_assoc. do 2 f_equiv. apply Permutation_app_comm. Qed.

Lemma send_out_keeps s a k rest w : tidy w -> cm_pending w = s :: rest ->
  let w1 := w <| cm_held := k |> <| cm_pending := rest |> in
  tidy (send_out chatChannel reportChannel s a w1) /\ forall to, everywhere to (send_out chatChannel reportChannel s a w1) ≡ₚ everywhere to w.
Proof.
  intros (Hq & Hl & Hp & Hse & Hf & Hfull & Hmade) Hpend w1. rewrite Hpend in Hp. apply Forall_cons in Hp as [Hs Hp].
  assert (He : forall to, everywhere to w ≡ₚ everywhere to w1 ++ send_lines to s).
  { intros to. unfold everywhere. rewrite Hpend. apply move_to_end. }
  destruct (send_cases s a w1 Hs) as [->|[_ [->|(items & -> & Hi & Ht)]]].
  - split; [unfold tidy; split_and!; try done; apply Forall_app; split; [done|by apply Forall_singleton]|]. intros to. rewrite He. unfold everywhere.
    change (cm_sent (w1 <| cm_sent ::= fun l => l ++ [s] |>)) with (cm_sent w1 ++ [s]). rewrite sends_lines_snoc. apply move_first.
  - split; [unfold tidy; split_and!; try done; apply Forall_app; split; [done|by apply Forall_singleton]|]. intros to. rewrite He. unfold everywhere.
    change (cm_failed (w1 <| cm_failed ::= fun l => l ++ [s] |>)) with (cm_failed w1 ++ [s]). rewrite sends_lines_snoc. apply move_second.
  - split; [apply put_tidy; [done|by unfold tidy; split_and!]|]. intros to. by rewrite put_everywhere, Ht, He by (try done; unfold tidy; by split_and!).
Qed.

Lemma cms_step_keeps e w w' : tidy w -> cms_step e w = Some w' -> tidy w' /\ forall to, everywhere to w' ≡ₚ everywhere to w ++ accepted_by to e.
Proof.
  intros Hw. destruct e as [ch text|ch em|m|m|m|n| |a|waiting]; cbn [MessageQueue.cms_step].
  - intros [= <-]. pose proof (message_items_ok ch text). split; [by apply put_tidy|]. intros to. by apply put_everywhere.
  - intros [= <-]. destruct (embed_keeps ch em w Hw) as [Ht He]. split; [exact Ht|]. intros to. by rewrite He, app_nil_r.
  - destruct (queued_item m) eqn:Hm; [|done]. destruct (try_put m (cm_queue w)); [done|]. intros [= <-].
    destruct Hw as (Hq & Hl & Hp & Hs & Hf & Hfull & Hmade). split; [unfold tidy; split_and!; try done; constructor; [by apply queued_item_ok|done]|].
    intros to. by rewrite app_nil_r.
  - intros (full & Hfull%take_out_perm & [= <-])%bind_Some. pose proof Hw as (_ & _ & _ & _ & _ & Hf & Hm). rewrite Hfull in Hf.
    apply Forall_cons in Hf as [Hi Hf].
    apply (made_keeps [] (drop_oldest (cm_queue w)) full (m :: cm_made w) w); [done|done|by constructor| |done].
    unfold drop_oldest. cbn. by rewrite take_drop, app_nil_r.
  - intros (made & Hmade%take_out_perm & [= <-])%bind_Some. pose proof Hw as (_ & _ & _ & _ & _ & Hf & Hm). rewrite Hmade in Hm.
    apply Forall_cons in Hm as [Hi Hm]. pose proof (put_or_drop_keeps m (cm_queue w)) as Hk. destruct (put_or_drop m (cm_queue w)) as [q l]. destruct Hk as [Hk _].
    apply (made_keeps [m] (q, l) (cm_full w) made w); [done..|by apply Forall_singleton].
  - destruct (_ && _) eqn:E; [|done]. intros [= <-]. apply andb_true_iff in E as [[Hp _]%andb_true_iff _]. apply bool_decide_eq_true in Hp.
    destruct Hw as (Hq & Hl & _ & Hs & Hf & Hr). split.
    + unfold tidy; split_and!; cbn; [by apply Forall_drop|done|by apply batch_ok, Forall_take|done|done|apply Hr|apply Hr].
    + intros to. set (n_items := take n (cm_queue w)).
      transitivity (sends_lines to (cm_sent w) ++ sends_lines to (cm_failed w) ++ texts_for to (cm_lost w) ++
        sends_lines to (batch_sends chatChannel reportChannel n_items) ++ texts_for to (drop n (cm_queue w))); [reflexivity|].
      rewrite (batch_lines n_items to) by by apply Forall_take. unfold everywhere, n_items. rewrite Hp, <-texts_for_app, take_drop. by rewrite !app_nil_r.
  - destruct (cm_held w), (cm_tokens w) as [|k], (cm_pending w) as [|s rest] eqn:Ep; try done. intros [= <-]. split; [exact Hw|]. intros to. by rewrite app_nil_r.
  - destruct (cm_held w); [|done]. destruct (cm_pending w) as [|s rest] eqn:Ep; [done|]. intros [= <-].
    destruct (send_out_keeps s a false rest w Hw Ep) as [Ht He].
    split; [exact Ht|]. intros to. by rewrite He, app_nil_r.
  - assert (Hsame : forall held k, tidy (w <| cm_held := held |> <| cm_tokens := k |>) /\
      forall to, everywhere to (w <| cm_held := held |> <| cm_tokens := k |>) ≡ₚ everywhere to w ++ []) by (intros; split; [exact Hw|intros to; by rewrite app_nil_r]).
    destruct waiting; [|intros [= <-]; exact (Hsame (cm_held w) token_capacity)].
    destruct (cm_held w), (cm_tokens w) as [|k], (cm_pending w) as [|s rest] eqn:Ep; try done. intros [= <-]. exact (Hsame true token_capacity).
Qed.

Lemma cms_run_keeps events w w' : tidy w -> cms_run events w = Some w' -> tidy w' /\ forall to, everywhere to w' ≡ₚ everywhere to w ++ accepted to events.
Proof.
  revert w. induction events as [|e events IH]; intros w Hw; cbn [MessageQueue.cms_run].
  { intros [= <-]. split; [done|]. intros to. by rewrite app_nil_r. }
  destruct (cms_step e w) as [w1|] eqn:E; [|done]. cbn [mbind option_bind]. intros Hr. destruct (cms_step_keeps _ _ _ Hw E) as [Ht He].
  destruct (IH _ Ht Hr) as [Ht' He']. split; [done|]. intros to. rewrite He', He. unfold accepted. cbn [flat_map]. by rewrite <-app_assoc.
Qed.

Lemma start_tidy : tidy cms_start.
Proof. unfold tidy. split_and!; constructor. Qed.
Lemma start_everywhere to : everywhere to cms_start = [].
Proof. done. Qed.
End loop.

(** C22: (invariant) no line that is queued for Discord disappears or is sent twice, whatever the
    order in which messages arrive, are collected and sent, whatever Discord answers, and
    however calls that queue are interleaved with each other and with the loop: when the
    two channels of the server are different, the lines whose calls are over were, up to
    their order, sent, or are in messages that were given up, or were dropped from a full
    queue - the oldest, or the new one if the queue was filled again before it got in -
    or wait; and no message is longer than Discord takes. *)
Theorem every_line_accounted_for `{UnicodeTables} chat report events w to :
  target_of chat report chat = Chat /\ target_of chat report report = Report ->
  cms_run chat report events cms_start = Some w ->
  accepted chat report to events ≡ₚ
    sends_lines to (cm_sent w) ++ sends_lines to (cm_failed w) ++ texts_for chat report to (cm_lost w) ++
    sends_lines to (cm_pending w) ++ texts_for chat report to (cm_queue w) /\
  Forall (fun s => match s with SendText _ text => slen text <= MaxDiscordMsgLen | SendEmbed _ _ => True end) (cm_sent w).
Proof.
  intros Hch Hr. destruct (cms_run_keeps chat report Hch events cms_start w (start_tidy chat report) Hr) as [(_ & _ & _ & Hs & _) He].
  split; [symmetry; exact (He to)|]. eapply Forall_impl; [exact Hs|]. intros [t text|]; [|done]. by intros [_ [g Hg]]; apply Hg.
Qed.

(** ** How fast *)
Definition refills (events : list cms_event) : nat := length (List.filter (fun e => match e with Refill _ => true | _ => false end) events).

(** What can be sent without another refill. *)
Definition credit (w : cms) : nat := cm_tokens w + (if cm_held w then 1 else 0).

Lemma send_out_sent `{UnicodeTables} chat report s a w : (length (cm_sent (send_out chat report s a w)) <= S (length (cm_sent w)))%nat /\
  credit (send_out chat report s a w) = credit w.
Proof.
  unfold send_out, put. destruct s as [to text|ch em]; repeat case_match; cbn; rewrite ?length_app; cbn; (split; [lia|done]).
Qed.

Lemma step_credit `{UnicodeTables} chat report e w w' : cms_step chat report e w = Some w' -> (cm_tokens w <= token_capacity)%nat ->
  (cm_tokens w' <= token_capacity /\ length (cm_sent w') + credit w' <= length (cm_sent w) + credit w + S token_capacity * refills [e])%nat.
Proof.
  intros E Ht. unfold refills, token_capacity in *. destruct e as [ch text|ch em|m|m|m|n| |a|waiting]; cbn [cms_step] in E; cbn [List.filter length].
  - injection E as <-. unfold credit. cbn. lia.
  - injection E as <-. unfold credit. cbn. lia.
  - destruct (queued_item m); [|done]. destruct (try_put m (cm_queue w)); [done|]. injection E as <-. unfold credit. cbn. lia.
  - apply bind_Some in E as (l & _ & [= <-]). unfold credit. cbn. lia.
  - apply bind_Some in E as (l & _ & [= <-]). unfold credit. cbn. lia.
  - destruct (_ && _); [|done]. injection E as <-. unfold credit. cbn. lia.
  - destruct (cm_held w) eqn:Eh, (cm_tokens w) as [|k] eqn:Ek, (cm_pending w); try done. injection E as <-. unfold credit. rewrite Eh, Ek. cbn. lia.
  - destruct (cm_held w) eqn:Eh, (cm_pending w) as [|s rest]; try done. apply (inj Some) in E. subst w'.
    set (w1 := w <| cm_held := false |> <| cm_pending := rest |>). destruct (send_out_sent chat report s a w1) as [Hs Hc].
    assert (Hk : cm_tokens (send_out chat report s a w1) = cm_tokens w) by (unfold send_out, put; destruct s; repeat case_match; done).
    rewrite Hc, Hk. split; [done|]. change (cm_sent w1) with (cm_sent w) in Hs. unfold credit at 2. rewrite Eh. change (credit w1) with (cm_tokens w + 0)%nat. lia.
  - destruct waiting; [|injection E as <-; unfold credit, token_capacity; cbn; destruct (cm_held w); lia].
    destruct (cm_held w) eqn:Eh, (cm_tokens w) as [|k] eqn:Ek, (cm_pending w); try done. injection E as <-. unfold credit, token_capacity. rewrite Eh, Ek. cbn. lia.
Qed.

Lemma run_credit `{UnicodeTables} chat report events w w' : cms_run chat report events w = Some w' -> (cm_tokens w <= token_capacity)%nat ->
  (cm_tokens w' <= token_capacity /\ length (cm_sent w') + credit w' <= length (cm_sent w) + credit w + S token_capacity * refills events)%nat.
Proof.
  revert w. induction events as [|e events IH]; intros w; cbn [cms_run]; [intros [= <-]; unfold refills; cbn; lia|].
  intros (w1 & E & Hr)%bind_Some Ht. destruct (step_credit chat report e w w1 E Ht) as [Ht1 Hc1]. destruct (IH w1 Hr Ht1) as [Ht' Hc'].
  split; [done|]. unfold refills in *. cbn [List.filter] in *. destruct e; cbn [length] in *; lia.
Qed.

(** C24: (bounds) however much there is to send, no more than five messages are sent before the
    first refill of the tokens, and no more than six between two refills, which are
    taken as one step each: a refill gives one token to the loop when that is waiting for
    it, and then fills the five places. *)
Theorem sends_are_limited `{UnicodeTables} chat report before between w1 w :
  cms_run chat report before cms_start = Some w1 -> cms_run chat report between w1 = Some w ->
  (refills between = 0 -> length (cm_sent w) <= length (cm_sent w1) + 6)%nat /\
  (length (cm_sent w) <= 5 + 6 * (refills before + refills between))%nat.
Proof.
  intros Hb Hr. destruct (run_credit chat report before cms_start w1 Hb) as [Ht1 Hc1]; [cbn; lia|].
  destruct (run_credit chat report between w1 w Hr Ht1) as [_ Hc]. change (length (cm_sent cms_start)) with 0%nat in Hc1.
  change (credit cms_start) with 5%nat in Hc1. unfold credit, token_capacity in *. split; [intros E; rewrite E in Hc; destruct (cm_held w1); lia|lia].
Qed.

(** ** In order *)
Section order.
Context `{UnicodeTables}.
Variables chat report : string.
Hypothesis two_channels : target_of chat report chat = Chat /\ target_of chat report report = Report.

Definition in_order (to : target) (w : cms) : list string :=
  sends_lines to (cm_sent w) ++ sends_lines to (cm_pending w) ++ texts_for chat report to (cm_queue w).
Definition nothing_lost (w : cms) : Prop := cm_lost w = [] /\ cm_failed w = [].

(** Discord takes what is sent. *)
Definition goes_well (e : cms_event) : Prop := match e with Send a => a = Taken | _ => True end.

Lemma put_in_order to items q w : (q.2 = [] -> q.1 = cm_queue w ++ items) -> nothing_lost (put q w) ->
  nothing_lost w /\ in_order to (put q w) = in_order to w ++ texts_for chat report to items.
Proof.
  destruct q as [q lost]. cbn [fst snd]. intros Hk [Hl Hf]. change (cm_lost w ++ lost = []) in Hl. apply app_eq_nil in Hl as [Hl ->]. split; [by split|].
  change (in_order to (put (q, []) w)) with (sends_lines to (cm_sent w) ++ sends_lines to (cm_pending w) ++ texts_for chat report to q).
  rewrite Hk by done. unfold in_order, texts_for. rewrite omap_app. by rewrite <-!app_assoc.
Qed.

Lemma step_in_order e w w' to : tidy chat report w -> goes_well e -> cms_step chat report e w = Some w' -> nothing_lost w' ->
  nothing_lost w /\ in_order to w' = in_order to w ++ accepted_by chat report to e.
Proof.
  intros Hw Hg. destruct e as [ch text|ch em|m|m|m|n| |a|waiting]; cbn [cms_step accepted_by].
  - intros [= <-]. apply put_in_order. pose proof (queue_items_keeps (message_items ch text) (cm_queue w)) as Hk. unfold QueueDiscordMessage.
    destruct (queue_items _ _). apply Hk.
  - intros [= <-]. unfold QueueDiscordEmbed. case_bool_decide; [rewrite put_nothing; intros ?; by rewrite app_nil_r|].
    change (@nil string) with (texts_for chat report to [mkCMS ch "" (Some em)]). apply put_in_order.
    pose proof (queueCMSItem_keeps (mkCMS ch "" (Some em)) (cm_queue w)) as Hk. destruct (queueCMSItem _ _). apply Hk.
  - destruct (queued_item m); [|done]. destruct (try_put m (cm_queue w)); [done|]. intros [= <-] Hn. split; [exact Hn|]. by rewrite app_nil_r.
  - intros (full & _ & Hr)%bind_Some Hn. apply (inj Some) in Hr. subst w'.
    destruct (put_in_order to [] (drop_oldest (cm_queue w)) (w <| cm_full := full |> <| cm_made ::= cons m |>)) as [Hn' E]; [|exact Hn|split; [exact Hn'|exact E]].
    unfold drop_oldest. cbn. intros E. rewrite app_nil_r. by destruct (cm_queue w).
  - intros (made & _ & Hr)%bind_Some Hn. apply (inj Some) in Hr. subst w'.
    destruct (put_in_order to [m] (put_or_drop m (cm_queue w)) (w <| cm_made := made |>)) as [Hn' E]; [|exact Hn|split; [exact Hn'|exact E]].
    pose proof (put_or_drop_keeps m (cm_queue w)) as Hk. destruct (put_or_drop _ _). apply Hk.
  - destruct (_ && _) eqn:E; [|done]. intros [= <-] Hn. apply andb_true_iff in E as [[Hp _]%andb_true_iff _]. apply bool_decide_eq_true in Hp.
    split; [exact Hn|]. destruct Hw as (Hq & _). set (items := take n (cm_queue w)).
    transitivity (sends_lines to (cm_sent w) ++ sends_lines to (batch_sends chat report items) ++ texts_for chat report to (drop n (cm_queue w))); [reflexivity|].
    rewrite batch_lines by by apply Forall_take. unfold in_order, items, texts_for. rewrite Hp, <-omap_app, take_drop. by rewrite app_nil_r.
  - destruct (cm_held w), (cm_tokens w) as [|k], (cm_pending w) as [|s rest] eqn:Ep; try done. intros [= <-] Hn. split; [exact Hn|]. by rewrite app_nil_r.
  - cbn in Hg. subst a. destruct (cm_held w); [|done]. destruct (cm_pending w) as [|s rest] eqn:Ep; [done|]. intros Hsend Hn. apply (inj Some) in Hsend. subst w'.
    set (w1 := w <| cm_held := false |> <| cm_pending := rest |>) in *.
    assert (Hs : send_out chat report s Taken w1 = w1 <| cm_sent ::= fun l => l ++ [s] |>).
    { assert (Hf : forall w2 : cms, nothing_lost (w2 <| cm_failed ::= fun l => l ++ [s] |>) -> False).
      { intros w2 [_ Hf]. change (cm_failed w2 ++ [s] = []) in Hf. by apply app_eq_nil in Hf as [_ ?]. }
      destruct s; cbn [send_out] in *; case_match; first [done | by destruct (Hf _ Hn)]. }
    split; [by rewrite Hs in Hn|]. rewrite Hs.
    transitivity (sends_lines to (cm_sent w ++ [s]) ++ sends_lines to rest ++ texts_for chat report to (cm_queue w)); [reflexivity|].
    unfold in_order. rewrite sends_lines_snoc, Ep, app_nil_r. unfold sends_lines. cbn [flat_map]. by rewrite <-!app_assoc.
  - assert (Hsame : forall held k, nothing_lost (w <| cm_held := held |> <| cm_tokens := k |>) -> nothing_lost w /\
      in_order to (w <| cm_held := held |> <| cm_tokens := k |>) = in_order to w ++ []) by (intros held k Hn; split; [exact Hn|by rewrite app_nil_r]).
    destruct waiting; [|intros [= <-]; exact (Hsame (cm_held w) token_capacity)].
    destruct (cm_held w), (cm_tokens w) as [|k], (cm_pending w) as [|s rest] eqn:Ep; try done. intros [= <-]. exact (Hsame true token_capacity).
Qed.

(** C23: (functional) while Discord takes what it is sent and the queue does not overflow, the lines
    for a channel are sent in the order in which they were queued, whatever else is sent
    in between: what was queued is what was sent, then what is about to be, then what
    waits. *)
Theorem lines_sent_in_order events w to :
  Forall goes_well events -> cms_run chat report events cms_start = Some w -> nothing_lost w ->
  accepted chat report to events = sends_lines to (cm_sent w) ++ sends_lines to (cm_pending w) ++ texts_for chat report to (cm_queue w).
Proof.
  intros Hg. enough (Hgen : forall w0, tidy chat report w0 -> cms_run chat report events w0 = Some w -> nothing_lost w ->
    nothing_lost w0 /\ in_order to w = in_order to w0 ++ accepted chat report to events).
  { intros Hr Hn. destruct (Hgen cms_start (start_tidy chat report) Hr Hn) as [_ He]. symmetry. exact He. }
  induction Hg as [|e events He _ IH]; intros w0 Hw; cbn [cms_run].
  { intros [= <-] Hn. split; [done|]. by rewrite app_nil_r. }
  destruct (cms_step chat report e w0) as [w1|] eqn:E; [|done]. cbn [mbind option_bind]. intros Hr Hn.
  destruct (cms_step_keeps chat report two_channels _ _ _ Hw E) as [Hw1 _]. destruct (IH w1 Hw1 Hr Hn) as [Hn1 Ho].
  destruct (step_in_order e w0 w1 to Hw He E Hn1) as [Hn0 Ho1]. split; [done|]. rewrite Ho, Ho1. unfold accepted. cbn [flat_map]. by rewrite <-app_assoc.
Qed.
End order.

(** ** A short run *)
Module QueueDemo.
#[local] Existing Instance ascii_tables.

Definition demo_events : list cms_event :=
  [Message "chat" ("one" +:+ lf +:+ lf +:+ "two"); Message "report" "bad"; Embed "chat" (mkEmbed "t" "d" 0); Message "else" "three";
   Collect 5; Take; Send Taken; Take; Send Taken; Take; Send Taken; Message "chat" "four"; Take; Send Taken].
Definition demo_end : cms := default cms_start (cms_run "chat" "report" demo_events cms_start).

Example demo_sent : cm_sent demo_end =
  [SendEmbed "chat" (mkEmbed "t" "d" 0); SendText (Other "else") "three"; SendText Chat ("one" +:+ lf +:+ "two"); SendText Report "bad"].
Proof. vm_compute. reflexivity. Qed.

Lemma every_line_accounted_for_witness :
  accepted "chat" "report" Chat demo_events ≡ₚ
    sends_lines Chat (cm_sent demo_end) ++ sends_lines Chat (cm_failed demo_end) ++ texts_for "chat" "report" Chat (cm_lost demo_end) ++
    sends_lines Chat (cm_pending demo_end) ++ texts_for "chat" "report" Chat (cm_queue demo_end) /\
  Forall (fun s => match s with SendText _ text => slen text <= MaxDiscordMsgLen | SendEmbed _ _ => True end) (cm_sent demo_end).
Proof. apply every_line_accounted_for; [split; vm_compute; reflexivity|vm_compute; reflexivity]. Defined.

(** Six messages after one refill: the loop waits for a token when it comes. *)
Definition many : list cms_event := replicate 12 (Embed "a" (mkEmbed "t" "d" 0)).
Definition send_one : list cms_event := [Take; Send Taken].
Definition first_five : list cms_event := many ++ [Collect 12] ++ concat (replicate 5 send_one) ++ [Refill true; Send Taken].
Definition next_five : list cms_event := concat (replicate 5 send_one).
Definition after_five : cms := default cms_start (cms_run "chat" "report" (take 23 first_five) cms_start).
Definition after_refill : cms := default cms_start (cms_run "chat" "report" (drop 23 first_five) after_five).
Definition after_six : cms := default cms_start (cms_run "chat" "report" next_five after_refill).
Example six_after_a_refill : length (cm_sent after_five) = 5%nat /\ length (cm_sent after_six) = 11%nat.
Proof. split; vm_compute; reflexivity. Qed.
Lemma sends_are_limited_witness : (length (cm_sent after_six) <= length (cm_sent after_refill) + 6)%nat.
Proof.
  apply (sends_are_limited "chat" "report" first_five next_five after_refill after_six); vm_compute; reflexivity.
Defined.

(** The queue is full, another call fills the place that was made, and the new message is
    dropped. *)
Definition crowd : list cms_event := replicate 1024 (Message "chat" "x").
Definition raced : list cms_event := [FindFull (mkCMS "chat" "new" None); MakeRoom (mkCMS "chat" "new" None); Message "chat" "y"; TryAgain (mkCMS "chat" "new" None)].
Example new_line_dropped : (cm_lost <$> (w ← cms_run "chat" "report" crowd cms_start; cms_run "chat" "report" raced w)) =
  Some [mkCMS "chat" "x" None; mkCMS "chat" "new" None].
Proof. vm_compute. reflexivity. Qed.

Lemma lines_sent_in_order_witness :
  accepted "chat" "report" Chat demo_events =
    sends_lines Chat (cm_sent demo_end) ++ sends_lines Chat (cm_pending demo_end) ++ texts_for "chat" "report" Chat (cm_queue demo_end).
Proof.
  apply lines_sent_in_order; [split; vm_compute; reflexivity|repeat (apply Forall_cons; split; [done|]); by apply Forall_nil|vm_compute; reflexivity|by split].
Defined.

(** An embed overtakes the lines that were queued for the same channel before it: the example
    above sends it first. *)
End QueueDemo.
