(* ===== verification/CommandTable.v ===== *)
(** * The slash commands and their settings: the tables of [src/commands] and
    [src/commands/moderator/settings.go]

    The commands with their options and choices, and the settings the two configuration
    commands take, as the source declares them.  A Go function is named by a constructor;
    a pointer to a setting by the path of its field. *)
From Stdlib Require Import Ascii.
From S2P Require Import Prelude.
From S2P Require Import GoInt.
From S2P Require Import GoString.
From S2P Require Import ConfigTree.
From S2P Require Import WebSchema.
From S2P Require Import Sanitize.

(** ** The types of [src/glob/struct.go] *)

(** The types of an option, as Discord numbers them. *)
Inductive option_type := OptString | OptInteger | OptBoolean | OptChannel | OptNumber | OptAttachment | OptSubCommand | OptSubCommandGroup | OptOther.
#[export] Instance option_type_eq_dec : EqDecision option_type.
Proof. solve_decision. Defined.

(** The functions that commands and choices name. *)
Inductive function :=
  GConfigServer | Web | RebootCW | QueReboot | ForceReboot | ReloadConfig | QueFactReboot | SetSchedule | StartFact |
  StopFact | NewMap | UpdateMods | SyncMods | ArchiveMap | UpdateFactorio | InstallFactorio | UploadFile | EditMods |
  RCONCmd | IPBan | MapReset | MapGenerator | MapExchange | ConfigServer | ConfigHours | PlayerLevel | ChangeMap |
  MapPreview | Info | ModPack | Players | VoteMap | PauseConnect | Register | Whois | Scoreboard | ListGameMods.
#[export] Instance function_eq_dec : EqDecision function.
Proof. solve_decision. Defined.

(** A value of type [interface{}], as far as the tables use it. *)
Inductive value := VNil | VStr (s : string) | VInt (z : Z).
#[export] Instance value_eq_dec : EqDecision value.
Proof. solve_decision. Defined.

Record ChoiceData := mkChoice { ch_Name : string; ch_Value : value; ch_Function : option function }.
#[export] Instance ChoiceData_eq_dec : EqDecision ChoiceData.
Proof. solve_decision. Defined.

Record OptionData := mkOption {
  o_Name : string; o_Description : string; o_Type : option_type; o_Required : bool;
  o_MinValue : option num; o_MaxValue : option num; o_Choices : list ChoiceData }.
#[export] Instance OptionData_eq_dec : EqDecision OptionData.
Proof. solve_decision. Defined.

Record AppCmdData := mkApp { a_Name : string; a_Description : string; a_Type : Z; a_Options : list OptionData }.
#[export] Instance AppCmdData_eq_dec : EqDecision AppCmdData.
Proof. solve_decision. Defined.
#[export] Instance AppCmdData_settable : Settable AppCmdData := mkSettable (fun r => mkApp (a_Name r) (a_Description r) (a_Type r) (a_Options r)).

Record CommandData := mkCommand {
  c_Function : option function; c_ModeratorOnly : bool; c_AdminOnly : bool;
  c_PrimaryOnly : bool; c_Global : bool; c_Disabled : bool; c_AppCmd : AppCmdData }.
#[export] Instance CommandData_eq_dec : EqDecision CommandData.
Proof. solve_decision. Defined.
#[export] Instance CommandData_settable : Settable CommandData := mkSettable (fun r =>
  mkCommand (c_Function r) (c_ModeratorOnly r) (c_AdminOnly r) (c_PrimaryOnly r) (c_Global r) (c_Disabled r) (c_AppCmd r)).

Definition ChatApplicationCommand : Z := 1.
Definition choice (name : string) (v : value) : ChoiceData := mkChoice name v None.
Definition runs (name : string) (f : function) : ChoiceData := mkChoice name VNil (Some f).
Definition at_ (z : Z) : option num := Some (num_of_Z z).

(** ** The commands *)
Definition cmd_config_global : CommandData :=
  mkCommand (Some GConfigServer) false true true false false
    (mkApp "config-global" "Settings that affect ALL servers." ChatApplicationCommand []).

Definition cmd_web : CommandData :=
  mkCommand (Some Web) true false true false false
    (mkApp "web" "Open web controls or revoke your web sessions." ChatApplicationCommand [
      mkOption "action" "Login or sign out all browsers"
        OptString false None None [choice "login" (VStr "login");
        choice "logout-all" (VStr "logout-all")]]).

Definition cmd_chatwire : CommandData :=
  mkCommand None true false false false false
    (mkApp "chatwire" "reboot, or reload config files." 0 [
      mkOption "action" "DO NOT use these unless you are certain of what you are doing"
        OptString true None None [runs "reboot" RebootCW;
        runs "queue-reboot" QueReboot;
        runs "force-reboot" ForceReboot;
        runs "reload-config" ReloadConfig;
        runs "queue-fact-reboot" QueFactReboot]]).

Definition cmd_map_schedule : CommandData :=
  mkCommand (Some SetSchedule) true false false false false
    (mkApp "map-schedule" "Change the map reset interval or date." ChatApplicationCommand [
      mkOption "interval-months" "Set the number of months in the map reset interval"
        OptInteger false (at_ 0) (at_ 6) [];
      mkOption "interval-weeks" "Set the number of weeks in the map reset interval"
        OptInteger false (at_ 0) (at_ 26) [];
      mkOption "interval-days" "Set the number of days in the map reset interval"
        OptInteger false (at_ 0) (at_ 182) [];
      mkOption "interval-hours" "Set the number of hours in the map reset interval"
        OptInteger false (at_ 0) (at_ 4320) [];
      mkOption "reset-hour" "Force hour to reset, 24 hour format UTC. USE 0 FOR NONE"
        OptInteger false (at_ 0) (at_ 23) [];
      mkOption "disable" "Turn automatic map resets off"
        OptBoolean false None None [];
      mkOption "reset-date" "Temporarily Force Reset-Date (YYYY-MM-DD HH-MM-SS) 24H-UTC"
        OptString false None None []]).

Definition cmd_factorio : CommandData :=
  mkCommand None true false false false false
    (mkApp "factorio" "Start/stop or update." 0 [
      mkOption "action" "DO NOT use these unless you are certain of what you are doing!"
        OptString true None None [runs "start" StartFact;
        runs "stop" StopFact;
        runs "new-map" NewMap;
        runs "update-mods" UpdateMods;
        runs "sync-mods" SyncMods;
        runs "archive-map" ArchiveMap;
        runs "update-factorio" UpdateFactorio;
        runs "install-factorio" InstallFactorio]]).

Definition cmd_upload : CommandData :=
  mkCommand (Some UploadFile) true false false false false
    (mkApp "upload" "upload a save-game, mod-list or mod-settings file." ChatApplicationCommand [
      mkOption "save-game" "select a save-game zip"
        OptAttachment false None None [];
      mkOption "mod-list" "select a mod-list.json file"
        OptAttachment false None None [];
      mkOption "mod-settings" "select a mod-settings.dat file"
        OptAttachment false None None []]).

Definition cmd_editmods : CommandData :=
  mkCommand (Some EditMods) true false false false false
    (mkApp "editmods" "enable/disable or add/remove Factorio mods" ChatApplicationCommand [
      mkOption "mod-history" "Show recent mod history"
        OptBoolean false None None [];
      mkOption "full-history" "Show extended mod history (large)"
        OptBoolean false None None [];
      mkOption "clear-history" "Clear all mod history and updater blacklist"
        OptBoolean false None None [];
      mkOption "enable-mod" "Enable mods by name: mod1, mod2"
        OptString false None None [];
      mkOption "disable-mod" "Disable mods by name: mod1, mod2"
        OptString false None None [];
      mkOption "add-mod" "Add mods by name or URL. mod1, mod2URL"
        OptString false None None [];
      mkOption "set-version-pref" "Set version preference: mod=ver or mod=auto"
        OptString false None None [];
      mkOption "clear-all-mods" "Clear entire mod directory (reset)"
        OptBoolean false None None []]).

Definition cmd_rcon : CommandData :=
  mkCommand (Some RCONCmd) true false false false false
    (mkApp "rcon" "Remotely run a factorio command." ChatApplicationCommand [
      mkOption "command" "factorio command to run"
        OptString true None None []]).

Definition cmd_rconall : CommandData :=
  mkCommand (Some RCONCmd) true false false true false
    (mkApp "rconall" "Remotely run a factorio command on all servers." ChatApplicationCommand [
      mkOption "command" "factorio command to run"
        OptString true None None []]).

Definition cmd_ip_ban : CommandData :=
  mkCommand (Some IPBan) true false true false false
    (mkApp "ip-ban" "Manage UFW deny rules for public IPv4 addresses." ChatApplicationCommand [
      mkOption "action" "Ban, unban, or list UFW deny entries"
        OptString true None None [choice "ban" (VStr "ban");
        choice "unban" (VStr "unban");
        choice "list" (VStr "list")];
      mkOption "ip" "Public IPv4 to ban or unban"
        OptString false None None []]).

Definition cmd_map_reset : CommandData :=
  mkCommand (Some MapReset) true false false false false
    (mkApp "map-reset" "Force a map reset, will kick players." ChatApplicationCommand []).

Definition cmd_map_generator : CommandData :=
  mkCommand (Some MapGenerator) true false false false false
    (mkApp "map-generator" "Choose the map generator for future maps." ChatApplicationCommand []).

Definition cmd_map_exchange : CommandData :=
  mkCommand (Some MapExchange) true false false false false
    (mkApp "map-exchange" "Generate a custom map from a Factorio map exchange string." ChatApplicationCommand [
      mkOption "exchange-string" "Paste the Factorio map exchange string."
        OptString true None None []]).

Definition cmd_config_server : CommandData :=
  mkCommand (Some ConfigServer) true false false false false
    (mkApp "config-server" "Server settings and options, such as the name." ChatApplicationCommand []).

Definition cmd_config_hours : CommandData :=
  mkCommand (Some ConfigHours) true false false false false
    (mkApp "config-hours" "Hours map can be played (24-hour UTC)" ChatApplicationCommand [
      mkOption "start-hour" "hour to start server (24-hour UTC)"
        OptInteger false (at_ 0) (at_ 23) [];
      mkOption "end-hour" "hour to stop server (24-hour UTC)"
        OptInteger false (at_ 0) (at_ 23) [];
      mkOption "enabled" "hour limits enabled"
        OptBoolean false None None []]).

Definition cmd_player_level : CommandData :=
  mkCommand (Some PlayerLevel) true false true false false
    (mkApp "player-level" "Ban, or sets a player's level." 0 [
      mkOption "name" "Factorio name of player"
        OptString true None None [];
      mkOption "level" "player level"
        OptInteger true None None [choice "Moderator" (VInt 255);
        choice "Veteran" (VInt 3);
        choice "Regular" (VInt 2);
        choice "Member" (VInt 1);
        choice "New" (VInt 0);
        choice "Banned" (VInt (-1));
        choice "Deleted" (VInt (-255))];
      mkOption "ban-reason" "reason for ban"
        OptString false None None []]).

Definition cmd_change_map : CommandData :=
  mkCommand (Some ChangeMap) true false false false false
    (mkApp "change-map" "Load a save. Lists last 25 in quick-load drop-down menu if no extra options are chosen." ChatApplicationCommand [
      mkOption "list" "Print out a list of all save files."
        OptBoolean false None None [];
      mkOption "load" "Manually enter a map name to load."
        OptString false None None []]).

Definition cmd_map_preview : CommandData :=
  mkCommand (Some MapPreview) false false false false false
    (mkApp "map-preview" "Get a FactMapGen preview link for the current map." ChatApplicationCommand []).

Definition cmd_info : CommandData :=
  mkCommand (Some Info) false false false false false
    (mkApp "info" "Displays status and settings of the server." ChatApplicationCommand [
      mkOption "options" "verbose shows all settings/info."
        OptString false None None [choice "verbose" VNil]]).

Definition cmd_modpack : CommandData :=
  mkCommand (Some ModPack) false false false false false
    (mkApp "modpack" "Provides a link to zip file of all game mods." ChatApplicationCommand []).

Definition cmd_players : CommandData :=
  mkCommand (Some Players) false false false false false
    (mkApp "players" "Lists players currently playing." ChatApplicationCommand []).

Definition cmd_vote_map : CommandData :=
  mkCommand (Some VoteMap) false false false false false
    (mkApp "vote-map" "PRESS ENTER to get a list of maps. Requires TWO vote points." ChatApplicationCommand [
      mkOption "moderator" "moderator-only options"
        OptString false None None [choice "erase-all" VNil;
        choice "void-all" VNil;
        choice "show-all" VNil]]).

Definition cmd_pause_game : CommandData :=
  mkCommand (Some PauseConnect) false false false false false
    (mkApp "pause-game" "Use BEFORE connecting, pauses map while you connect." ChatApplicationCommand [
      mkOption "action" "Choose whether to pause for connect or cancel a pending pause."
        OptString false None None [choice "Pause now" (VStr "pause");
        choice "Cancel pause-on-connect" (VStr "cancel")]]).

Definition cmd_register : CommandData :=
  mkCommand (Some Register) false false true false false
    (mkApp "register" "Get a discord role, get access to commands." ChatApplicationCommand []).

Definition cmd_whois : CommandData :=
  mkCommand (Some Whois) false false true false false
    (mkApp "whois" "Get info about <player>" ChatApplicationCommand [
      mkOption "search" "Factorio/Discord name, or any partial match."
        OptString true None None []]).

Definition cmd_scoreboard : CommandData :=
  mkCommand (Some Scoreboard) false false true false false
    (mkApp "scoreboard" "Top 40 players" ChatApplicationCommand []).

Definition cmd_list_mods : CommandData :=
  mkCommand (Some ListGameMods) false false false false false
    (mkApp "list-mods" "Show list of mod files" ChatApplicationCommand []).

Definition adminCommands : list CommandData := [cmd_config_global].

Definition moderatorCommands : list CommandData := [cmd_web; cmd_chatwire; cmd_map_schedule; cmd_factorio; cmd_upload;
  cmd_editmods; cmd_rcon; cmd_rconall; cmd_ip_ban; cmd_map_reset; cmd_map_generator; cmd_map_exchange;
  cmd_config_server; cmd_config_hours; cmd_player_level; cmd_change_map].

Definition userCommands : list CommandData := [cmd_map_preview; cmd_info; cmd_modpack; cmd_players; cmd_vote_map;
  cmd_pause_game; cmd_register; cmd_whois; cmd_scoreboard; cmd_list_mods].

Definition buildCommands : list CommandData := adminCommands ++ moderatorCommands ++ userCommands.

(** ** Names *)
Section names.
Context `{UnicodeTables}.

Definition filterName (name : string) : string := TruncateString (ReplaceAll (ToLower name) " " "-") 32.
Definition filterDesc (desc : string) : string :=
  let newDesc := TruncateStringEllipsis desc 100 in
  if 0 <? slen desc then newDesc else "No description available.".

(** [init]: a choice without a value has its name for one. *)
Definition fill_choice (c : ChoiceData) : ChoiceData :=
  if bool_decide (ch_Value c = VNil) then mkChoice (ch_Name c) (VStr (filterName (ch_Name c))) (ch_Function c) else c.
Definition fill_option (o : OptionData) : OptionData :=
  mkOption (o_Name o) (o_Description o) (o_Type o) (o_Required o) (o_MinValue o) (o_MaxValue o) (fill_choice <$> o_Choices o).
Definition init (cmds : list CommandData) : list CommandData :=
  (fun c => c <| c_AppCmd ::= fun a => a <| a_Options ::= fmap fill_option |> |>) <$> cmds.
Definition cmds : list CommandData := init buildCommands.

(** ** The settings *)
Inductive setting_type := TYPE_STRING | TYPE_INT | TYPE_BOOL | TYPE_F32 | TYPE_F64 | TYPE_CHANNEL.
#[export] Instance setting_type_eq_dec : EqDecision setting_type.
Proof. solve_decision. Defined.

Record SettingListData := mkSetting {
  s_Name : string; s_ShortDesc : string; s_Desc : string; s_Type : setting_type;
  s_SData : option string; s_IData : option string; s_BData : option string; s_FData32 : option string; s_FData64 : option string;
  s_MaxInt : Z; s_MaxF32 : num; s_MaxF64 : num; s_MinInt : Z; s_MinF32 : num; s_MinF64 : num;
  s_ValidStrings : list string; s_MaxStrLen : Z; s_MinStrLen : Z;
  s_CheckString : option (string -> bool); s_ListString : option (list string); s_LiveSoftMod : bool }.

Definition zero : num := num_of_Z 0.
(** [float32(0.01)] *)
Definition hundredth32 : num := mkNum 5368709 (-29).
(** [cfg.Global.Options.RconOffset] when the package variables are initialised, before the
    configuration is read. *)
Definition RconOffset : Z := 0.
Definition checkMapTypes (text : string) : bool := existsb (fun name => EqualFold name text) MapTypes.

Definition set_group_name : SettingListData :=
  mkSetting "group-name" "Group Name"
      "The name of the server group, used as prefix to name." TYPE_STRING
      (Some "Global.GroupName") None None None None 0 zero zero 0 zero zero
      [] 5 2 None None false.
Definition set_primary_server : SettingListData :=
  mkSetting "primary-server" "Primary Server"
      "Specify a server callsign to handle all global commands." TYPE_STRING
      (Some "Global.PrimaryServer") None None None None 0 zero zero 0 zero zero
      [] 2 1 None None false.
Definition set_report_channel : SettingListData :=
  mkSetting "report-channel" "Report Channel"
      "Channel-ID for user reports." TYPE_CHANNEL
      (Some "Global.Discord.ReportChannel") None None None None 0 zero zero 0 zero zero
      [] 0 0 None None false.
Definition set_announce_channel : SettingListData :=
  mkSetting "announce-channel" "Announce Channel"
      "Channel-ID for announcements." TYPE_CHANNEL
      (Some "Global.Discord.AnnounceChannel") None None None None 0 zero zero 0 zero zero
      [] 0 0 None None false.
Definition set_description : SettingListData :=
  mkSetting "description" "Description"
      "This description is shown in the server browser." TYPE_STRING
      (Some "Global.Options.Description") None None None None 0 zero zero 0 zero zero
      [] 128 1 None None false.
Definition set_autosave_max : SettingListData :=
  mkSetting "autosave-max" "Autosave Max"
      "Maximum number of autosaves to keep." TYPE_INT
      None (Some "Global.Options.AutosaveMax") None None None 1024 zero zero 64 zero zero
      [] 0 0 None None false.
Definition set_sus_shutup : SettingListData :=
  mkSetting "sus-shutup" "Sus Shutup"
      "Disable new-player suspicious activity warning." TYPE_BOOL
      None None (Some "Global.Options.ShutupSusWarn") None None 0 zero zero 0 zero zero
      [] 0 0 None None false.
Definition set_disable_spam_protect : SettingListData :=
  mkSetting "disable-spam-protect" "Disable Spam Protect"
      "Disable chat-spam protection (auto-ban)" TYPE_BOOL
      None None (Some "Global.Options.DisableSpamProtect") None None 0 zero zero 0 zero zero
      [] 0 0 None None false.
Definition set_fcl_warn_only : SettingListData :=
  mkSetting "fcl-warn-only" "FCL-Warn-Only"
      "Disable FCL auto-ban, only warn on login." TYPE_BOOL
      None None (Some "Global.Options.FCLWarnOnly") None None 0 zero zero 0 zero zero
      [] 0 0 None None false.
Definition set_fcl_warn_regulars : SettingListData :=
  mkSetting "fcl-warn-regulars" "FCL-warn-regulars"
      "Show FCL ban warning on login for regulars and veterans." TYPE_BOOL
      None None (Some "Global.Options.FCLWarnRegulars") None None 0 zero zero 0 zero zero
      [] 0 0 None None false.
Definition GSettingList : list SettingListData := [
  set_group_name; set_primary_server; set_report_channel; set_announce_channel; set_description; set_autosave_max;
  set_sus_shutup; set_disable_spam_protect; set_fcl_warn_only; set_fcl_warn_regulars].
Definition set_name : SettingListData :=
  mkSetting "name" "Server Name"
      "Server name, do not include callsign/letter." TYPE_STRING
      (Some "Local.Name") None None None None 0 zero zero 0 zero zero
      [] 64 1 None None true.
Definition set_port : SettingListData :=
  mkSetting "port" "Port Number"
      "UDP port the server will run on." TYPE_INT
      None (Some "Local.Port") None None None (65535 - RconOffset) zero zero 1024 zero zero
      [] 0 0 None None false.
Definition set_map_preset : SettingListData :=
  mkSetting "map-preset" "Map preset"
      "Factorio map preset to use." TYPE_STRING
      (Some "Local.Settings.MapPreset") None None None None 0 zero zero 0 zero zero
      MapTypes 64 1 (Some checkMapTypes) None false.
Definition set_auto_start_factorio : SettingListData :=
  mkSetting "auto-start-factorio" "Auto-Start"
      "Auto-start and auto-restart Factorio." TYPE_BOOL
      None None (Some "Local.Options.AutoStart") None None 0 zero zero 0 zero zero
      [] 0 0 None None false.
Definition set_auto_update_factorio : SettingListData :=
  mkSetting "auto-update-factorio" "Auto-Update"
      "Auto-update Factorio to newest stable version." TYPE_BOOL
      None None (Some "Local.Options.AutoUpdate") None None 0 zero zero 0 zero zero
      [] 0 0 None None false.
Definition set_auto_update_experimental : SettingListData :=
  mkSetting "auto-update-experimental" "Experimental Updates"
      "When updating factorio, use experimental releases." TYPE_BOOL
      None None (Some "Local.Options.ExpUpdates") None None 0 zero zero 0 zero zero
      [] 0 0 None None false.
Definition set_disable_blueprints : SettingListData :=
  mkSetting "disable-blueprints" "No Blueprints"
      "Disable blueprints (softmod)" TYPE_BOOL
      None None (Some "Local.Options.SoftModOptions.DisableBlueprints") None None 0 zero zero 0 zero zero
      [] 0 0 None None false.
Definition set_hide_autosaves : SettingListData :=
  mkSetting "hide-autosaves" "Hide Autosaves"
      "Don't display autosaves on Discord." TYPE_BOOL
      None None (Some "Local.Options.HideAutosaves") None None 0 zero zero 0 zero zero
      [] 0 0 None None false.
Definition set_hide_research : SettingListData :=
  mkSetting "hide-research" "Hide Science Research"
      "Don't display science research on Discord." TYPE_BOOL
      None None (Some "Local.Options.HideResearch") None None 0 zero zero 0 zero zero
      [] 0 0 None None false.
Definition set_members_only : SettingListData :=
  mkSetting "members-only" "Members Only"
      "Only members or higher can connect." TYPE_BOOL
      None None (Some "Local.Options.MembersOnly") None None 0 zero zero 0 zero zero
      [] 0 0 None None false.
Definition set_regulars_only : SettingListData :=
  mkSetting "regulars-only" "regulars only"
      "Only regulars or higher can connect." TYPE_BOOL
      None None (Some "Local.Options.RegularsOnly") None None 0 zero zero 0 zero zero
      [] 0 0 None None false.
Definition set_restrict_new_players : SettingListData :=
  mkSetting "restrict-new-players" "Restrict New"
      "Enable new-player restrictions. (softmod)." TYPE_BOOL
      None None (Some "Local.Options.SoftModOptions.Restrict") None None 0 zero zero 0 zero zero
      [] 0 0 None None true.
Definition set_friendly_fire : SettingListData :=
  mkSetting "friendly-fire" "Friendly Fire"
      "Allow damage to teammates or buildings (softmod)" TYPE_BOOL
      None None (Some "Local.Options.SoftModOptions.FriendlyFire") None None 0 zero zero 0 zero zero
      [] 0 0 None None true.
Definition set_one_life : SettingListData :=
  mkSetting "one-life" "One-Life"
      "Enable onelife mode, cannot be undone." TYPE_BOOL
      None None (Some "Local.Options.SoftModOptions.OneLife") None None 0 zero zero 0 zero zero
      [] 0 0 None None true.
Definition set_afk_kick_mins : SettingListData :=
  mkSetting "afk-kick-mins" "AFK Mins"
      "If idle/afk, kick after this amount of time (game time, at 60UPS)." TYPE_INT
      None (Some "Local.Settings.AFKMin") None None None 120 zero zero 5 zero zero
      [] 0 0 None None false.
Definition set_autosave_mins : SettingListData :=
  mkSetting "autosave-mins" "Autosave Mins"
      "Save the map this often (game time, 60ups)" TYPE_INT
      None (Some "Local.Settings.AutosaveMin") None None None 30 zero zero 5 zero zero
      [] 0 0 None None false.
Definition set_auto_pause : SettingListData :=
  mkSetting "auto-pause" "Auto Pause"
      "Game pauses when no players are connected." TYPE_BOOL
      None None (Some "Local.Settings.AutoPause") None None 0 zero zero 0 zero zero
      [] 0 0 None None false.
Definition set_auto_mod_update : SettingListData :=
  mkSetting "auto-mod-update" "Auto Mod Update"
      "Auto-update installed game mods." TYPE_BOOL
      None None (Some "Local.Options.ModUpdate") None None 0 zero zero 0 zero zero
      [] 0 0 None None false.
Definition set_map_seed : SettingListData :=
  mkSetting "map-seed" "Map Seed"
      "Seed for map gen, clears after map reset." TYPE_INT
      None (Some "Local.Settings.Seed") None None None 0 zero zero 0 zero zero
      [] 0 0 None None false.
Definition set_soft_mod_inject : SettingListData :=
  mkSetting "soft-mod-inject" "SoftMod Inject"
      "Inject softmod scripts." TYPE_BOOL
      None None (Some "Local.Options.SoftModOptions.InjectSoftMod") None None 0 zero zero 0 zero zero
      [] 0 0 None None false.
Definition set_speed : SettingListData :=
  mkSetting "Speed" "Game Speed"
      "Set the game speed (1.0 normal)" TYPE_F32
      None None None (Some "Local.Options.Speed") None 0 (num_of_Z 10) zero 0 hundredth32 zero
      [] 0 0 None None true.
Definition set_scenario : SettingListData :=
  mkSetting "scenario" "Scenario"
      "Specify a scenario to use for new maps, NONE for none." TYPE_STRING
      (Some "Local.Settings.Scenario") None None None None 0 zero zero 0 zero zero
      [] 64 1 None None false.
Definition SettingList : list SettingListData := [
  set_name; set_port; set_map_preset; set_auto_start_factorio; set_auto_update_factorio; set_auto_update_experimental;
  set_disable_blueprints; set_hide_autosaves; set_hide_research; set_members_only; set_regulars_only;
  set_restrict_new_players; set_friendly_fire; set_one_life; set_afk_kick_mins; set_autosave_mins; set_auto_pause;
  set_auto_mod_update; set_map_seed; set_soft_mod_inject; set_speed; set_scenario].
End names.

(** * Registration of the commands: [RegisterCommands] and [linkConfigData] of
    [src/commands/util.go]

    The list of commands that is sent to Discord at the start, with the settings added
    as options of the two configuration commands. *)
(** Who is offered a command. *)
Inductive permission := PermissionAdministrator | PermissionManageRoles | PermissionUseApplicationCommands.
Definition adminPerms : permission := PermissionAdministrator.
Definition modPerms : permission := PermissionManageRoles.
Definition playerPerms : permission := PermissionUseApplicationCommands.

(** [discordgo.ApplicationCommandOption]; a maximum of 0 is not sent. *)
Record registered_option := mkRegOption {
  ro_Name : string; ro_Description : string; ro_Type : option_type; ro_Required : bool;
  ro_Choices : list (string * value); ro_MinValue : option num; ro_MaxValue : num }.
Record registered := mkReg {
  rg_Name : string; rg_Description : string; rg_Type : Z; rg_Permissions : permission; rg_Options : list registered_option }.

Section register.
Context `{UnicodeTables}.

(** ** The settings as options *)
Definition string_choices (l : list string) : list ChoiceData := (fun v => choice (filterName v) (VStr (filterName v))) <$> l.

Definition link_option (o : SettingListData) : OptionData :=
  let option ty lo hi choices := mkOption (filterName (s_Name o)) (filterDesc (s_Desc o)) ty false lo hi choices in
  match s_Type o with
  | TYPE_STRING =>
      if negb (bool_decide (s_ValidStrings o = [])) then option OptString None None (string_choices (s_ValidStrings o))
      else match s_ListString o with
           | Some list => option OptString None None (string_choices list)
           | None => option OptString None None []
           end
  | TYPE_INT => option OptInteger (at_ (s_MinInt o)) (at_ (s_MaxInt o)) []
  | TYPE_BOOL => option OptBoolean None None []
  | TYPE_F32 => option OptNumber (Some (s_MinF32 o)) (Some (s_MaxF32 o)) []
  | TYPE_F64 => option OptNumber (Some (s_MinF64 o)) (Some (s_MaxF64 o)) []
  | TYPE_CHANNEL => option OptChannel None None []
  end.

Fixpoint link_from (i : Z) (selection : list SettingListData) : list OptionData :=
  match selection with
  | [] => []
  | o :: rest => if 25 <? i then [] else link_option o :: link_from (i + 1) rest
  end.

Definition linkConfigData (gconfig : bool) (c : CommandData) : CommandData :=
  let selection := if gconfig then GSettingList else SettingList in
  c <| c_AppCmd ::= fun a => a <| a_Options ::= fun l => l ++ link_from 0 selection |> |>.

(** ** The list that is sent *)
Definition link_one (c : CommandData) : CommandData :=
  let name := a_Name (c_AppCmd c) in
  let c := if EqualFold name "config-server" then linkConfigData false c else c in
  if EqualFold name "config-global" then linkConfigData true c else c.

Definition permission_of (c : CommandData) : permission :=
  if c_AdminOnly c then adminPerms else if c_ModeratorOnly c then modPerms else playerPerms.

Definition register_option (o : OptionData) : registered_option :=
  mkRegOption (o_Name o) (o_Description o) (o_Type o) (o_Required o) ((fun c => (ch_Name c, ch_Value c)) <$> o_Choices o)
    (o_MinValue o) (default zero (o_MaxValue o)).

Definition register_one (c : CommandData) : option registered :=
  let a := c_AppCmd c in
  if c_Disabled c then None
  else if bool_decide (a_Name a = "") || bool_decide (a_Description a = "") then None
  else Some (mkReg (filterName (a_Name a)) (filterDesc (a_Description a)) (a_Type a) (permission_of c)
               (register_option <$> a_Options (c_AppCmd (link_one c)))).

Definition RegisterCommands (cl : list CommandData) : list registered := omap register_one cl.

(** ** What Discord asks of a command *)
Definition name_char (c : ascii) : bool := is_lower c || is_digit c || Ascii.eqb c "-"%char || Ascii.eqb c "_"%char.
Definition good_name (s : string) : bool := (1 <=? slen s) && (slen s <=? 32) && all_bytes name_char s.
Definition good_text (s : string) : bool := (1 <=? slen s) && (slen s <=? 100).
Definition choice_fits (ty : option_type) (v : value) : bool :=
  match ty, v with OptString, VStr _ => true | OptInteger, VInt _ => true | _, _ => false end.
(** The least value is not over the greatest; a greatest value of 0 is not sent. *)
Definition good_range (o : registered_option) : bool :=
  match ro_MinValue o with Some lo => bool_decide (ro_MaxValue o = zero) || negb (num_lt (ro_MaxValue o) lo) | None => true end.
Definition good_option (o : registered_option) : bool :=
  good_name (ro_Name o) && good_text (ro_Description o) && (length (ro_Choices o) <=? 25)%nat
  && forallb (fun c => good_text c.1 && choice_fits (ro_Type o) c.2) (ro_Choices o) && bool_decide (NoDup (ro_Choices o).*1) && good_range o.
(** No option that must be given comes after one that need not. *)
Fixpoint required_first (l : list registered_option) : bool :=
  match l with [] => true | o :: l => (ro_Required o || negb (existsb ro_Required l)) && required_first l end.
Definition good_command (c : registered) : bool :=
  good_name (rg_Name c) && good_text (rg_Description c) && (length (rg_Options c) <=? 25)%nat && forallb good_option (rg_Options c)
  && required_first (rg_Options c) && bool_decide (NoDup (ro_Name <$> rg_Options c)).

(** ** Theorems *)

(** (type) the commands that are registered are what Discord accepts: at most a hundred,
    with different names; every name and description is of the length and of the
    characters that are allowed; no command has more than 25 options and no option more
    than 25 choices, with different names and of the type of the option; options that must
    be given come first; and each command is offered to those who may run it. *)
Theorem registered_commands_are_valid :
  (length (RegisterCommands cmds) <= 100)%nat /\ NoDup (rg_Name <$> RegisterCommands cmds) /\
  Forall (fun c => good_command c = true) (RegisterCommands cmds) /\
  (rg_Name <$> RegisterCommands cmds) = (a_Name ∘ c_AppCmd <$> cmds) /\
  (rg_Permissions <$> RegisterCommands cmds) = (permission_of <$> cmds).
Proof.
  split; [vm_compute; lia|]. split; [vm_decide|].
  split; [|split; by vm_compute]. apply Forall_forall. intros c Hc.
  apply (proj1 (forallb_forall good_command (RegisterCommands cmds))); [by vm_compute|by apply list_elem_of_In].
Qed.
End register.
