(* ===== verification/Commands.v ===== *)
(** * Slash commands: [src/commands/util.go], [src/support/cmdUtil.go] and the role checks of
    [src/disc/discUtils.go]

    An interaction of Discord is checked, found in the table of the commands, and run if
    the member may run it.  What the library of Discord reads out of an interaction comes
    with it: an option has the values its accessors return, [None] where they panic.  What
    a command does is an effect; whether it panics is given. *)
From Stdlib Require Import Ascii.
From S2P Require Import Prelude.
From S2P Require Import GoInt.
From S2P Require Import GoString.
From S2P Require Import GoTime.
From S2P Require Import Sanitize.
From S2P Require Import ConfigTree.
From S2P Require Import CommandTable.

(** ** Interactions *)
(** An option that was given; [io_text] is its value as it is printed, if it has one. *)
Inductive io_option := mkIO {
  io_Name : string; io_Type : option_type;
  io_StringValue : option string; io_BoolValue : option bool; io_IntValue : option Z; io_FloatValue : option num;
  io_text : option string; io_Options : list io_option }.

Inductive interaction_data := ApplicationCommand (name : string) (options : list io_option) | MessageComponent (custom_id : string) (values : list string) | OtherInteraction.

(** The [Member]; [None] for its user is a nil pointer. *)
Record Member := mkMember { mb_User : option string; mb_Roles : list string }.
Record interaction := mkInteraction { i_AppID : string; i_GuildID : string; i_ChannelID : string; i_Member : option Member; i_Data : interaction_data }.

(** The part of the configuration that is read. *)
Record RoleCache := mkRoles { rc_Admin : string; rc_Moderator : string; rc_Regular : string; rc_Veteran : string;
  rc_Member : string; rc_Patreon : string; rc_Supporter : string }.
Record commands_config := mkCmdCfg { cc_Application : string; cc_Guild : string; cc_ChatChannel : string;
  cc_Callsign : string; cc_PrimaryServer : string; cc_Roles : RoleCache }.

(** ** Effects *)
Inductive effect :=
  | Respond (title text : string) | Audit (text : string) | LogCMS (channel text : string)
  | Call (f : function) | DoChangeMap (save : string) | HandleMapGeneratorSelect | CheckVote (vote : string).
#[export] Instance effect_eq_dec : EqDecision effect.
Proof. solve_decision. Defined.

(** What was done, and the result; [None] is a panic. *)
Definition act (A : Type) : Type := list effect * option A.
#[export] Instance act_ret : MRet act := fun A a => ([], Some a).
#[export] Instance act_bind : MBind act := fun A B f m =>
  match m.2 with Some a => (m.1 ++ (f a).1, (f a).2) | None => (m.1, None) end.
Definition emit (e : effect) : act unit := ([e], Some tt).
Definition deref {A} (x : option A) : act A := ([], x).

Section commands.
Context `{UnicodeTables}.
Variable cfg : commands_config.
(** Whether what an effect calls panics. *)
Variable panics : effect -> bool.

Definition call (e : effect) : act unit := ([e], if panics e then None else Some tt).

(** ** Roles *)
Definition member_has (i : interaction) (roles : list string) : bool :=
  match i_Member i with Some m => existsb (fun r => existsb (EqualFold r) roles) (mb_Roles m) | None => false end.
Definition check_role (i : interaction) (role : string) : bool := if bool_decide (role = "") then false else member_has i [role].
Definition CheckAdmin (i : interaction) : bool := check_role i (rc_Admin (cc_Roles cfg)).
Definition CheckModerator (i : interaction) : bool := check_role i (rc_Moderator (cc_Roles cfg)).
Definition CheckRegular (i : interaction) : bool := check_role i (rc_Regular (cc_Roles cfg)).
Definition CheckVeteran (i : interaction) : bool := check_role i (rc_Veteran (cc_Roles cfg)).
Definition CheckMember (i : interaction) : bool := check_role i (rc_Member (cc_Roles cfg)).
Definition CheckSupporter (i : interaction) : bool :=
  if bool_decide (rc_Patreon (cc_Roles cfg) = "") || bool_decide (rc_Supporter (cc_Roles cfg) = "") then false
  else member_has i [rc_Patreon (cc_Roles cfg); rc_Supporter (cc_Roles cfg)].

(** ** [RunCommandOptions] *)
Definition choice_for (arg : string) (cmd : CommandData) : option function :=
  head (omap (fun c => if bool_decide (ch_Value c = VStr arg) then ch_Function c else None) (mjoin (o_Choices <$> a_Options (c_AppCmd cmd)))).

Definition RunCommandOptions (cmd : CommandData) (options : list io_option) : act unit :=
  match options with
  | [] => emit (Respond "Error" "Sorry, you didn't supply any valid options!")
  | [input] =>
      arg ← deref (io_StringValue input);
      match choice_for arg cmd with
      | Some f => call (Call f)
      | None => emit (Respond "Error" "Sorry, you didn't supply any valid options!")
      end
  | _ => emit (Respond "Error" "Sorry, supply one option only!")
  end.

Definition runCommand (c : CommandData) (options : list io_option) : act unit :=
  match c_Function c with None => RunCommandOptions c options | Some f => call (Call f) end.

(** ** [runSlashCommand] *)
Definition in_chat (i : interaction) : bool := EqualFold (i_ChannelID i) (cc_ChatChannel cfg).
Definition staff (i : interaction) : bool := CheckModerator i || CheckAdmin i.

(** The values of a component, to the first [break]. *)
Fixpoint run_component (i : interaction) (custom_id : string) (values : list string) : act unit :=
  match values with
  | [] => mret tt
  | c :: values =>
      if EqualFold custom_id "ChangeMap" then
        if staff i then emit (Respond "Notice" ("Loading: " +:+ c +:+ ", please wait.")) ≫= fun _ => call (DoChangeMap c)
        else run_component i custom_id values
      else if EqualFold custom_id "MapGenerator" then
        if staff i then call HandleMapGeneratorSelect else run_component i custom_id values
      else if EqualFold custom_id "VoteMap" then
        if CheckVeteran i || CheckRegular i || staff i
        then emit (Respond "Notice:" ("Submitting vote for " +:+ c +:+ ", one moment please.")) ≫= fun _ => call (CheckVote c)
        else run_component i custom_id values
      else run_component i custom_id values
  end.

(** Whether this server handles the command. *)
Definition eligible (i : interaction) (c : CommandData) : bool :=
  if negb (c_PrimaryOnly c) && negb (in_chat i) && negb (c_Global c) then false
  else negb (c_PrimaryOnly c && negb (EqualFold (cc_Callsign cfg) (cc_PrimaryServer cfg))).

Definition refused (i : interaction) (m : Member) (c : CommandData) (role : string) : act unit :=
  emit (Respond "Error" ("You must be a " +:+ role +:+ " to use this command.")) ≫= fun _ =>
  user ← deref (mb_User m);
  emit (LogCMS (i_ChannelID i) ("(" +:+ user +:+ " does not have Discord " +:+ role +:+ " permissions, and attempted to run the command: " +:+ a_Name (c_AppCmd c) +:+ ")")).

Definition run_found (i : interaction) (m : Member) (c : CommandData) (name : string) (options : list io_option) : act unit :=
  if c_AdminOnly c then
    if CheckAdmin i then
      runCommand c options ≫= fun _ =>
      user ← deref (mb_User m);
      emit (Audit (user +:+ ": ADMIN COMMAND: " +:+ name +:+ ": " +:+ Join (o_Name <$> a_Options (c_AppCmd c)) ", "))
    else refused i m c "admin"
  else if c_ModeratorOnly c then
    if staff i then
      user ← deref (mb_User m);
      emit (Audit (user +:+ ": MOD COMMAND: " +:+ name)) ≫= fun _ => runCommand c options
    else refused i m c "moderator"
  else
    user ← deref (mb_User m);
    emit (Audit (user +:+ ": command: " +:+ name)) ≫= fun _ => runCommand c options.

Definition find_command (cl : list CommandData) (i : interaction) (name : string) : option CommandData :=
  List.find (fun c => eligible i c && EqualFold (a_Name (c_AppCmd c)) name) cl.

Definition runSlashCommand (cl : list CommandData) (i : interaction) : act unit :=
  if negb (bool_decide (i_AppID i = cc_Application cfg)) || negb (bool_decide (i_GuildID i = cc_Guild cfg)) then mret tt
  else
    match i_Member i with
    | None => mret tt
    | Some m =>
        match i_Data i with
        | MessageComponent custom_id values => if in_chat i then run_component i custom_id values else mret tt
        | ApplicationCommand name options =>
            match find_command cl i name with Some c => run_found i m c name options | None => mret tt end
        | OtherInteraction => mret tt
        end
    end.

(** The list that is searched: [cmds], with the settings linked in when the commands were
    registered at this start. *)
Definition command_list (registered : bool) : list CommandData := if registered then link_one <$> cmds else cmds.
End commands.

(** ** Text about an interaction *)
Section text.
Context `{UnicodeTables, PrintTable}.

Definition interactionOptionValueString (text : option string) : string :=
  match text with
  | None => "true"
  | Some t => let value := TrimSpace t in if bool_decide (value = "") then "true" else value
  end.

Definition is_sub (ty : option_type) : bool := match ty with OptSubCommand | OptSubCommandGroup => true | _ => false end.
Fixpoint format_option (o : io_option) : option string :=
  match o with
  | mkIO name ty _ _ _ _ text opts =>
      if is_sub ty then
        let nested := Join (omap format_option opts) " " in
        let name := if negb (bool_decide (nested = "")) then name +:+ " " +:+ nested else name in
        if bool_decide (name = "") then None else Some name
      else Some (name +:+ ":" +:+ interactionOptionValueString text)
  end.
Definition formatInteractionOptions (options : list io_option) : string := Join (omap format_option options) " ".

Definition interactionCommandName (i : interaction) : string :=
  match i_Data i with ApplicationCommand name _ => name | MessageComponent custom_id _ => custom_id | OtherInteraction => "" end.
Definition interactionCommandArgs (i : interaction) : string :=
  match i_Data i with ApplicationCommand _ options => formatInteractionOptions options | _ => "" end.
Definition interactionUserName (i : interaction) : string := match i_Member i with Some m => default "" (mb_User m) | None => "" end.

(** [strconv.Quote]: [%q] of a string. *)
Definition quote_char : ascii := ascii_of_nat 34.
Definition hex_digit (z : Z) : ascii := byte_of (if z <? 10 then 48 + z else 87 + z).
Definition hex (n : nat) (z : Z) : string := of_bytes (map (fun k => hex_digit (z / 16 ^ Z.of_nat k mod 16)) (rev (seq 0 n))).
Definition escaped (c : ascii) : string := String backslash_char (String c "").
Definition quote_rune (r : Z) (enc : string) : string :=
  if (r =? 34) || (r =? 92) then escaped (byte_of r)
  else if r <? 128 then
    if between 32 126 r then enc
    else match list_find (eq r) [7; 8; 12; 10; 13; 9; 11] with
         | Some (k, _) => escaped (nth k ["a"; "b"; "f"; "n"; "r"; "t"; "v"]%char " "%char)
         | None => escaped "x"%char +:+ hex 2 r
         end
  else if uni_print r then enc else if r <? 65536 then escaped "u"%char +:+ hex 4 r else escaped "U"%char +:+ hex 8 r.
Fixpoint quote_go (fuel : nat) (b : bytes) : string :=
  match fuel, b with
  | S fuel, c :: tl =>
      match decode_rune b with
      | Some (r, n) => quote_rune r (of_bytes (take n b)) +:+ quote_go fuel (drop n b)
      | None => escaped "x"%char +:+ hex 2 (byte_val c) +:+ quote_go fuel tl
      end
  | _, _ => ""
  end.
Definition Quote (s : string) : string := String quote_char "" +:+ quote_go (String.length s) (to_bytes s) +:+ String quote_char "".

Record activeCommandState := mkActive { ac_Name : string; ac_Args : string; ac_User : string; ac_StartedAt : time }.
Definition no_command : activeCommandState := mkActive "" "" "" zeroTime.

(** The three greatest units of a duration in words, by the library. *)
Variable durafmt : duration -> string.

Definition formatBusyElapsed (elapsed : duration) : string := durafmt (Round (if elapsed <? 0 then 0 else elapsed) Second).

Definition formatBusyMessage (now : time) (state : activeCommandState) : string :=
  if IsZero (ac_StartedAt state) then "Another command is already in progress. Please wait and try again."
  else
    let name := if bool_decide (ac_Name state = "") then "unknown command" else ac_Name state in
    let name := if negb (bool_decide (ac_Args state = "")) then name +:+ " " +:+ ac_Args state else name in
    let user := if bool_decide (ac_User state = "") then "unknown user" else ac_User state in
    "Another command is already in progress: " +:+ Quote name +:+ " run by " +:+ user +:+ " for "
      +:+ formatBusyElapsed (Sub now (ac_StartedAt state)) +:+ ". Please wait and try again.".

(** ** The lock *)
(** An option that ends the loop of [isCommandLockExempt]; [None] is a panic. *)
Fixpoint exempt_options (options : list io_option) : option bool :=
  match options with
  | [] => Some false
  | o :: options =>
      if EqualFold (io_Name o) "action" then
        v ← io_StringValue o; if EqualFold v "force-reboot" then Some true else exempt_options options
      else exempt_options options
  end.
Definition isCommandLockExempt (i : interaction) : option bool :=
  match i_Data i with
  | ApplicationCommand name options =>
      if EqualFold name "web" then Some true else if negb (EqualFold name "chatwire") then Some false else exempt_options options
  | _ => Some false
  end.

(** The lock is shared with the control server, which takes it for its own operations. *)
Inductive holder := ByInteraction (id : Z) | ByControl.
#[export] Instance holder_eq_dec : EqDecision holder.
Proof. solve_decision. Defined.

(** A goroutine that runs an interaction. *)
Record goroutine := mkRun { rn_id : Z; rn_interaction : interaction; rn_holds : bool }.
Record slash := mkSlash { sl_lock : option holder; sl_active : activeCommandState; sl_running : list goroutine; sl_log : list (Z * effect) }.
#[export] Instance slash_settable : Settable slash := mkSettable (fun s => mkSlash (sl_lock s) (sl_active s) (sl_running s) (sl_log s)).

Inductive slash_event := Arrives (id : Z) (now : time) (i : interaction) | Finishes (id : Z) | ControlLocks | ControlUnlocks.

Context (cfg : commands_config) (panics : effect -> bool) (cl : list CommandData).

(** The interaction runs: what it does is logged, and it is there until it finishes. *)
Definition start_run (id : Z) (i : interaction) (holds : bool) (s : slash) : slash :=
  s <| sl_running ::= fun l => l ++ [mkRun id i holds] |> <| sl_log ::= fun l => l ++ ((fun e => (id, e)) <$> (runSlashCommand cfg panics cl i).1) |>.

Definition SlashCommand (id : Z) (now : time) (i : interaction) (s : slash) : slash :=
  match sl_lock s with
  | None =>
      start_run id i true (s <| sl_lock := Some (ByInteraction id) |>
        <| sl_active := mkActive (interactionCommandName i) (interactionCommandArgs i) (interactionUserName i) now |>)
  | Some _ =>
      match isCommandLockExempt i with
      | Some true => start_run id i false s
      | Some false => s <| sl_log ::= fun l => l ++ [(id, Respond "Busy" (formatBusyMessage now (sl_active s)))] |>
      | None => s
      end
  end.

(** The deferred calls, after a return and after a panic. *)
Definition finish (g : goroutine) (s : slash) : slash :=
  let s := s <| sl_running ::= List.filter (fun g' => negb (rn_id g' =? rn_id g)) |> in
  if rn_holds g then s <| sl_active := no_command |> <| sl_lock := None |> else s.

Definition slash_step (e : slash_event) (s : slash) : option slash :=
  match e with
  | Arrives id now i => if existsb (fun g => rn_id g =? id) (sl_running s) then None else Some (SlashCommand id now i s)
  | Finishes id => g ← List.find (fun g => rn_id g =? id) (sl_running s); Some (finish g s)
  | ControlLocks => match sl_lock s with None => Some (s <| sl_lock := Some ByControl |>) | Some _ => None end
  | ControlUnlocks => if bool_decide (sl_lock s = Some ByControl) then Some (s <| sl_lock := None |>) else None
  end.

Fixpoint slash_run (events : list slash_event) (s : slash) : option slash :=
  match events with [] => Some s | e :: events => s ← slash_step e s; slash_run events s end.

Definition slash_start : slash := mkSlash None no_command [] [].
End text.
