(* ===== verification/CommandsSafety.v ===== *)
(** * Slash commands: who may run what, and one at a time

    Permissions of the commands and of the menus, what happens to a command in each case,
    and the lock that commands share with the control server. *)
From Stdlib Require Import Ascii.
From S2P Require Import Prelude.
From S2P Require Import GoInt.
From S2P Require Import GoString.
From S2P Require Import GoTime.
From S2P Require Import Sanitize.
From S2P Require Import ConfigTree.
From S2P Require Import CommandTable.
From S2P Require Import Commands.

(** ** Effects of a computation *)
Lemma act_bind_effects {A B} (m : act A) (k : A -> act B) e :
  e ∈ (m ≫= k).1 -> e ∈ m.1 \/ exists a, m.2 = Some a /\ e ∈ (k a).1.
Proof.
  destruct m as [l [a|]]; cbn; [|by left]. rewrite elem_of_app. intros [He|He]; [by left|]. right. by exists a.
Qed.
Lemma deref_bind {A B} (x : option A) (k : A -> act B) e : e ∈ (deref x ≫= k).1 -> exists a, x = Some a /\ e ∈ (k a).1.
Proof. intros [He|(a & Ha & He)]%act_bind_effects; [by apply elem_of_nil in He|eauto]. Qed.
Lemma emit_bind {B} e' (k : unit -> act B) e : e ∈ (emit e' ≫= k).1 <-> e = e' \/ e ∈ (k tt).1.
Proof. change ((emit e' ≫= k).1) with (e' :: (k tt).1). apply elem_of_cons. Qed.
Lemma emit_effects e' e : e ∈ (emit e').1 <-> e = e'.
Proof. apply list_elem_of_singleton. Qed.

Section permissions.
Context `{UnicodeTables}.
Variable cfg : commands_config.
Variable panics : effect -> bool.

(** ** Permissions *)
Definition holds_role (i : interaction) (role : string) : Prop :=
  role <> "" /\ exists m r, i_Member i = Some m /\ r ∈ mb_Roles m /\ EqualFold r role = true.
Definition is_admin (i : interaction) : Prop := holds_role i (rc_Admin (cc_Roles cfg)).
Definition is_staff (i : interaction) : Prop := is_admin i \/ holds_role i (rc_Moderator (cc_Roles cfg)).
Definition may_vote (i : interaction) : Prop :=
  is_staff i \/ holds_role i (rc_Veteran (cc_Roles cfg)) \/ holds_role i (rc_Regular (cc_Roles cfg)).

Lemma check_role_true i role : check_role i role = true <-> holds_role i role.
Proof.
  unfold check_role, holds_role, member_has. case_bool_decide as Hr; [naive_solver|].
  destruct (i_Member i) as [m|]; [|naive_solver]. rewrite existsb_exists. split.
  - intros (r & Hin & Hf). cbn in Hf. rewrite orb_false_r in Hf. split; [done|]. exists m, r. by rewrite list_elem_of_In.
  - intros (_ & m' & r & [= <-] & Hin & Hf). exists r. cbn. rewrite orb_false_r. by rewrite <-list_elem_of_In.
Qed.

Lemma staff_true i : staff cfg i = true <-> is_staff i.
Proof. unfold staff, is_staff, is_admin, CheckModerator, CheckAdmin. rewrite orb_true_iff, !check_role_true. tauto. Qed.

(** What anyone may run. *)
Definition user_functions : list function := [MapPreview; Info; ModPack; Players; VoteMap; PauseConnect; Register; Whois; Scoreboard; ListGameMods].
(** What only the primary server runs. *)
Definition primary_functions : list function := [GConfigServer; Web; IPBan; PlayerLevel; Register; Whois; Scoreboard].

Definition for_us (i : interaction) : Prop := i_AppID i = cc_Application cfg /\ i_GuildID i = cc_Guild cfg /\ i_Member i <> None.
Definition level_reached (i : interaction) (f : function) : Prop :=
  if decide (f = GConfigServer) then is_admin i else if decide (f ∈ user_functions) then True else is_staff i.
Definition right_place (i : interaction) (f : function) : Prop :=
  if decide (f ∈ primary_functions) then EqualFold (cc_Callsign cfg) (cc_PrimaryServer cfg) = true
  else if decide (f = RCONCmd) then True else in_chat cfg i = true.

Definition permitted (i : interaction) (e : effect) : Prop :=
  match e with
  | Call f => level_reached i f /\ right_place i f
  | DoChangeMap _ | HandleMapGeneratorSelect => is_staff i /\ in_chat cfg i = true
  | CheckVote _ => may_vote i /\ in_chat cfg i = true
  | _ => True
  end.

(** ** The menus *)
Lemma call_effects e' e : e ∈ (call panics e').1 <-> e = e'.
Proof. apply list_elem_of_singleton. Qed.

Lemma run_component_permitted i custom_id values e :
  in_chat cfg i = true -> e ∈ (run_component cfg panics i custom_id values).1 -> permitted i e.
Proof.
  intros Hc. induction values as [|c values IH]; cbn [run_component]; [by intros ?%elem_of_nil|].
  destruct (EqualFold custom_id "ChangeMap").
  { destruct (staff cfg i) eqn:Es; [|done]. apply staff_true in Es. intros [->|He%call_effects]%emit_bind; [done|by subst]. }
  destruct (EqualFold custom_id "MapGenerator").
  { destruct (staff cfg i) eqn:Es; [|done]. apply staff_true in Es. intros He%call_effects; by subst. }
  destruct (EqualFold custom_id "VoteMap"); [|done].
  destruct (_ || staff cfg i) eqn:Es; [|done]. intros [->|He%call_effects]%emit_bind; [done|]. subst e. split; [|done].
  rewrite !orb_true_iff, staff_true in Es. unfold CheckVeteran, CheckRegular in Es. rewrite !check_role_true in Es. unfold may_vote. tauto.
Qed.

(** ** The table *)
Definition functions_of (c : CommandData) : list function :=
  match c_Function c with Some f => [f] | None => omap ch_Function (mjoin (o_Choices <$> a_Options (c_AppCmd c))) end.

Lemma runCommand_calls c options f : Call f ∈ (runCommand panics c options).1 -> f ∈ functions_of c.
Proof.
  unfold runCommand, functions_of. destruct (c_Function c) as [g|]; [intros [= ->]%call_effects; by apply list_elem_of_singleton|].
  unfold RunCommandOptions. destruct options as [|o [|]]; [by intros ?%emit_effects| |by intros ?%emit_effects].
  intros (arg & _ & He)%deref_bind. destruct (choice_for arg c) as [g|] eqn:E; [|by apply emit_effects in He].
  apply call_effects in He as [= ->]. unfold choice_for in E.
  apply head_Some_elem_of, list_elem_of_omap in E as (ch & Hch & E). case_bool_decide; [|done].
  apply list_elem_of_omap. eauto.
Qed.

Definition level_listed (c : CommandData) (f : function) : bool :=
  if bool_decide (f = GConfigServer) then c_AdminOnly c
  else if bool_decide (f ∈ user_functions) then true else c_AdminOnly c || c_ModeratorOnly c.
Definition place_listed (c : CommandData) (f : function) : bool :=
  if bool_decide (f ∈ primary_functions) then c_PrimaryOnly c
  else if bool_decide (f = RCONCmd) then true else negb (c_PrimaryOnly c) && negb (c_Global c).

Lemma table_listed registered c f : c ∈ command_list registered -> f ∈ functions_of c -> level_listed c f = true /\ place_listed c f = true.
Proof.
  intros Hc Hf. apply andb_true_iff.
  assert (Ht : forallb (fun c => forallb (fun f => level_listed c f && place_listed c f) (functions_of c)) (command_list registered) = true)
    by (destruct registered; by vm_compute).
  rewrite forallb_forall in Ht. specialize (Ht c (proj1 (list_elem_of_In _ _) Hc)). rewrite forallb_forall in Ht.
  apply Ht, list_elem_of_In, Hf.
Qed.

(** ** Commands *)
Definition may_run (i : interaction) (c : CommandData) : bool :=
  if c_AdminOnly c then CheckAdmin cfg i else if c_ModeratorOnly c then staff cfg i else true.

Lemma run_found_calls i m c name options e : e ∈ (run_found cfg panics i m c name options).1 ->
  match e with Call f => may_run i c = true /\ Call f ∈ (runCommand panics c options).1 | Respond _ _ | Audit _ | LogCMS _ _ => True | _ => False end.
Proof.
  assert (Hcmd : forall e, e ∈ (runCommand panics c options).1 -> match e with Call f => Call f ∈ (runCommand panics c options).1 | Respond _ _ => True | _ => False end).
  { intros e' He. destruct e'; try done; exfalso; revert He; unfold runCommand, RunCommandOptions;
      (destruct (c_Function c); [by intros ?%call_effects|]); (destruct options as [|o [|]]; [by intros ?%emit_effects| |by intros ?%emit_effects]);
      intros (arg & _ & He)%deref_bind; (destruct (choice_for arg c); [by apply call_effects in He|by apply emit_effects in He]). }
  assert (Href : forall role, e ∈ (refused i m c role).1 -> match e with Respond _ _ | LogCMS _ _ => True | _ => False end).
  { intros role. unfold refused. intros [->|He]%emit_bind; [done|]. apply deref_bind in He as (u & _ & He%emit_effects). by subst. }
  unfold run_found, may_run. intros He. destruct (c_AdminOnly c).
  { destruct (CheckAdmin cfg i); [|apply Href in He; by destruct e].
    apply act_bind_effects in He as [He|(_ & _ & He)]; [apply Hcmd in He; by destruct e|].
    apply deref_bind in He as (u & _ & He%emit_effects). by subst. }
  destruct (c_ModeratorOnly c).
  { destruct (staff cfg i); [|apply Href in He; by destruct e].
    apply deref_bind in He as (u & _ & He). apply emit_bind in He as [->|He]; [done|]. apply Hcmd in He; by destruct e. }
  apply deref_bind in He as (u & _ & He). apply emit_bind in He as [->|He]; [done|]. apply Hcmd in He; by destruct e.
Qed.

Lemma find_command_in cl i name c : find_command cfg cl i name = Some c -> c ∈ cl /\ eligible cfg i c = true /\ EqualFold (a_Name (c_AppCmd c)) name = true.
Proof. intros [Hin Hb]%find_some. apply andb_true_iff in Hb as [? ?]. by rewrite list_elem_of_In. Qed.

Lemma listed_permitted registered i c f : c ∈ command_list registered -> eligible cfg i c = true -> may_run i c = true ->
  f ∈ functions_of c -> permitted i (Call f).
Proof.
  intros Hc He Hm Hf. destruct (table_listed registered c f Hc Hf) as [Hl Hp]. unfold level_listed in Hl. unfold place_listed in Hp. split.
  - unfold level_reached. unfold may_run in Hm. destruct (decide (f = GConfigServer)).
    + rewrite bool_decide_eq_true_2 in Hl by done. rewrite Hl in Hm. by apply check_role_true.
    + rewrite bool_decide_eq_false_2 in Hl by done. destruct (decide (f ∈ user_functions)); [done|].
      rewrite bool_decide_eq_false_2 in Hl by done.
      destruct (c_AdminOnly c); [left; by apply check_role_true|]. rewrite orb_false_l in Hl. rewrite Hl in Hm. by apply staff_true.
  - unfold right_place, eligible in *. destruct (decide (f ∈ primary_functions)).
    + rewrite bool_decide_eq_true_2 in Hp by done. rewrite Hp in He. cbn in He. by apply negb_true_iff, negb_false_iff in He.
    + rewrite bool_decide_eq_false_2 in Hp by done. destruct (decide (f = RCONCmd)); [done|]. rewrite bool_decide_eq_false_2 in Hp by done.
      apply andb_true_iff in Hp as [Hp1%negb_true_iff Hp2%negb_true_iff]. rewrite Hp1, Hp2 in He. cbn in He. by destruct (in_chat cfg i).
Qed.

(** C14: (safety) whatever interaction arrives, a function of a command is called only for a
    member of the guild and the application of this server, with the role it needs (the
    global configuration an administrator, the ten user commands nobody, everything else a
    moderator or an administrator), on the primary server for what only that one runs,
    and in the chat channel of this server for everything else but the commands for all
    servers; a menu changes the map or its generator for staff only, and takes votes of
    regulars, veterans and staff only. *)
Theorem commands_need_permission registered i e :
  e ∈ (runSlashCommand cfg panics (command_list registered) i).1 -> for_us i /\ permitted i e.
Proof.
  unfold runSlashCommand, for_us. case_bool_decide; [|by intros ?%elem_of_nil]. case_bool_decide; [|by intros ?%elem_of_nil]. cbn [negb orb].
  destruct (i_Member i) as [m|]; [|by intros ?%elem_of_nil]. intros He. split; [done|].
  destruct (i_Data i) as [name options|custom_id values|]; [| |by apply elem_of_nil in He].
  - destruct (find_command _ _ i name) as [c|] eqn:Ef; [|by apply elem_of_nil in He].
    apply find_command_in in Ef as (Hc & Hel & _). apply run_found_calls in He. destruct e; try done.
    destruct He as [Hm Hf%runCommand_calls]. by apply (listed_permitted registered i c).
  - destruct (in_chat cfg i) eqn:Ec; [|by apply elem_of_nil in He]. by eapply run_component_permitted.
Qed.

(** ** Finding a command *)
Lemma names_are_different registered c c' : c ∈ command_list registered -> c' ∈ command_list registered ->
  EqualFold (a_Name (c_AppCmd c')) (a_Name (c_AppCmd c)) = true -> c' = c.
Proof.
  intros Hc Hc' Hf.
  assert (Ht : forallb (fun c => forallb (fun c' => negb (EqualFold (a_Name (c_AppCmd c')) (a_Name (c_AppCmd c))) || bool_decide (c' = c))
      (command_list registered)) (command_list registered) = true) by (destruct registered; by vm_compute).
  rewrite forallb_forall in Ht. specialize (Ht c (proj1 (list_elem_of_In _ _) Hc)). rewrite forallb_forall in Ht.
  specialize (Ht c' (proj1 (list_elem_of_In _ _) Hc')). rewrite Hf in Ht. by apply bool_decide_eq_true in Ht.
Qed.

Lemma name_folds_itself registered c : c ∈ command_list registered -> EqualFold (a_Name (c_AppCmd c)) (a_Name (c_AppCmd c)) = true.
Proof.
  intros Hc. assert (Ht : forallb (fun c => EqualFold (a_Name (c_AppCmd c)) (a_Name (c_AppCmd c))) (command_list registered) = true)
    by (destruct registered; by vm_compute).
  rewrite forallb_forall in Ht. apply Ht, list_elem_of_In, Hc.
Qed.

Lemma find_command_self registered i c : c ∈ command_list registered -> eligible cfg i c = true ->
  find_command cfg (command_list registered) i (a_Name (c_AppCmd c)) = Some c.
Proof.
  intros Hc He. destruct (find_command _ _ i _) as [c'|] eqn:E.
  - apply find_command_in in E as (Hc' & _ & Hf). f_equal. by apply (names_are_different registered).
  - pose proof (find_none _ _ E c (proj1 (list_elem_of_In _ _) Hc)) as Hn. cbn beta in Hn. by rewrite He, (name_folds_itself registered c) in Hn.
Qed.

Definition is_audit (e : effect) : Prop := match e with Audit _ => True | _ => False end.

(** (functional) a command of the table that is sent to the right server by a member with a
    name is found, and nothing else: if the member may run it, it is run with the options
    that were given, with an audit line before it or, for an administrator's command,
    after it; if not, the member is told so, and nothing is run. *)
Theorem listed_commands_run registered i m user c options :
  c ∈ command_list registered -> i_AppID i = cc_Application cfg -> i_GuildID i = cc_Guild cfg ->
  i_Member i = Some m -> mb_User m = Some user -> i_Data i = ApplicationCommand (a_Name (c_AppCmd c)) options ->
  eligible cfg i c = true ->
  let done := (runSlashCommand cfg panics (command_list registered) i).1 in
  if may_run i c then exists before after, done = before ++ (runCommand panics c options).1 ++ after /\ Forall is_audit (before ++ after)
  else exists text log, done = [Respond "Error" text; LogCMS (i_ChannelID i) log].
Proof.
  intros Hc Ha Hg Hm Hu Hd He. unfold runSlashCommand. rewrite Ha, Hg, !bool_decide_eq_true_2, Hm, Hd by done. cbn [negb orb].
  rewrite find_command_self by done. unfold run_found, may_run, refused. rewrite Hu.
  destruct (c_AdminOnly c).
  - destruct (CheckAdmin cfg i); [|by eexists _, _]. destruct (runCommand panics c options) as [l [u|]]; cbn.
    + eexists [], [_]. split; [done|]. by repeat constructor.
    + exists [], []. by rewrite app_nil_r.
  - destruct (c_ModeratorOnly c); [|by eexists [_], []; split; [cbn; by rewrite app_nil_r|repeat constructor]].
    destruct (staff cfg i); [|by eexists _, _]. eexists [_], []. split; [cbn; by rewrite app_nil_r|by repeat constructor].
Qed.
End permissions.

(** ** The lock *)
Section lock.
Context `{UnicodeTables, PrintTable}.
Variable durafmt : duration -> string.
Variable cfg : commands_config.
Variable panics : effect -> bool.
Variable registered : bool.

#[local] Abbreviation cl := (command_list registered).
#[local] Abbreviation step := (slash_step durafmt cfg panics cl).
#[local] Abbreviation run := (slash_run durafmt cfg panics cl).

(** What may run beside a command that holds the lock. *)
Definition beside : list function := [Web; ForceReboot].
Definition ascii_name (i : interaction) : Prop :=
  match i_Data i with ApplicationCommand name _ => all_bytes is_ascii_byte name = true | _ => True end.

Lemma fold_both_ascii s t : all_bytes is_ascii_byte s = true -> all_bytes is_ascii_byte t = true ->
  EqualFold s t = true <-> map_bytes lower_byte s = map_bytes lower_byte t.
Proof. intros Hs Ht. unfold EqualFold. rewrite Hs, Ht. cbn [andb]. apply String.eqb_eq. Qed.

Lemma table_names_ascii c : c ∈ cl -> all_bytes is_ascii_byte (a_Name (c_AppCmd c)) = true.
Proof.
  intros Hc. assert (Ht : forallb (fun c => all_bytes is_ascii_byte (a_Name (c_AppCmd c))) cl = true) by (destruct registered; by vm_compute).
  rewrite forallb_forall in Ht. apply Ht, list_elem_of_In, Hc.
Qed.

(** The command that a name finds has the functions that [P] holds of, if this can be
    read off the table. *)
Lemma found_in_table (P : CommandData -> bool) word c name :
  all_bytes is_ascii_byte word = true -> all_bytes is_ascii_byte name = true ->
  forallb (fun c => negb (EqualFold (a_Name (c_AppCmd c)) word) || P c) cl = true ->
  c ∈ cl -> EqualFold name word = true -> EqualFold (a_Name (c_AppCmd c)) name = true -> P c = true.
Proof.
  intros Hw Hn Ht Hc Hf Hcn. pose proof (table_names_ascii c Hc) as Ha.
  rewrite fold_both_ascii in Hf, Hcn by done. rewrite forallb_forall in Ht. specialize (Ht c (proj1 (list_elem_of_In _ _) Hc)).
  apply orb_true_iff in Ht as [Ht|Ht]; [|done]. apply negb_true_iff in Ht.
  assert (He : EqualFold (a_Name (c_AppCmd c)) word = true) by (rewrite fold_both_ascii by done; congruence). by rewrite He in Ht.
Qed.

(** The choices that are found for a word that reads [force-reboot]. *)
Definition reboot_choice (c : CommandData) : bool :=
  bool_decide (c_Function c = None) &&
  forallb (fun ch => match ch_Value ch, ch_Function ch with
                     | VStr v, Some f => negb (EqualFold v "force-reboot") || bool_decide (f ∈ beside)
                     | _, _ => true
                     end) (mjoin (o_Choices <$> a_Options (c_AppCmd c))).

Lemma reboot_choice_found c v f : reboot_choice c = true -> EqualFold v "force-reboot" = true -> choice_for v c = Some f -> f ∈ beside.
Proof.
  intros [_ Ht]%andb_true_iff Hv Hf. unfold choice_for in Hf. apply head_Some_elem_of, list_elem_of_omap in Hf as (ch & Hch & Hf).
  case_bool_decide as Hval; [|done]. rewrite forallb_forall in Ht. specialize (Ht ch (proj1 (list_elem_of_In _ _) Hch)).
  rewrite Hval, Hf, Hv in Ht. by apply bool_decide_eq_true in Ht.
Qed.

Lemma exempt_calls i f : isCommandLockExempt i = Some true -> ascii_name i -> Call f ∈ (runSlashCommand cfg panics cl i).1 -> f ∈ beside.
Proof.
  unfold isCommandLockExempt, ascii_name, runSlashCommand. destruct (i_Data i) as [name options| |]; [|done..]. intros Hx Ha.
  destruct (negb (bool_decide _) || negb (bool_decide _)); [by intros ?%elem_of_nil|]. destruct (i_Member i) as [m|]; [|by intros ?%elem_of_nil].
  destruct (find_command cfg cl i name) as [c|] eqn:Ef; [|by intros ?%elem_of_nil]. apply find_command_in in Ef as (Hc & _ & Hn).
  intros Hr. destruct (EqualFold name "web") eqn:Ew.
  { apply run_found_calls in Hr as [_ Hf%runCommand_calls].
    assert (Ht : forallb (fun f => bool_decide (f ∈ beside)) (functions_of c) = true).
    { apply (found_in_table (fun c => forallb (fun f => bool_decide (f ∈ beside)) (functions_of c)) "web" c name); try done; destruct registered; by vm_compute. }
    rewrite forallb_forall in Ht. apply (bool_decide_eq_true_1 _), Ht, list_elem_of_In, Hf. }
  destruct (EqualFold name "chatwire") eqn:Ec; [|done]. cbn [negb] in Hx.
  assert (Ht : reboot_choice c = true).
  { apply (found_in_table reboot_choice "chatwire" c name); try done; destruct registered; by vm_compute. }
  apply run_found_calls in Hr as [_ Hcmd].
  unfold runCommand in Hcmd. pose proof Ht as [Hnone%bool_decide_eq_true _]%andb_true_iff. rewrite Hnone in Hcmd. unfold RunCommandOptions in Hcmd.
  destruct options as [|o [|]]; [done| |by apply emit_effects in Hcmd]. cbn in Hx.
  apply deref_bind in Hcmd as (v & Hv & Hcmd). destruct (EqualFold (io_Name o) "action"); [|done]. rewrite Hv in Hx. cbn in Hx.
  destruct (EqualFold v "force-reboot") eqn:Efr; [|done]. destruct (choice_for v c) as [g|] eqn:Eg; [|by apply emit_effects in Hcmd].
  apply call_effects in Hcmd as [= ->]. by eapply reboot_choice_found.
Qed.

Record lock_inv (s : slash) : Prop := mkLockInv {
  li_ids : NoDup (rn_id <$> sl_running s);
  li_holder : forall g, g ∈ sl_running s -> rn_holds g = true -> sl_lock s = Some (ByInteraction (rn_id g));
  li_held : forall id, sl_lock s = Some (ByInteraction id) -> exists g, g ∈ sl_running s /\ rn_id g = id /\ rn_holds g = true;
  li_exempt : forall g, g ∈ sl_running s -> rn_holds g = false -> isCommandLockExempt (rn_interaction g) = Some true }.

Lemma start_inv : lock_inv slash_start.
Proof. split; cbn; [constructor|by intros ? ?%elem_of_nil|done|by intros ? ?%elem_of_nil]. Qed.

Lemma id_fresh id (l : list goroutine) : existsb (fun g => rn_id g =? id) l = false -> id ∉ rn_id <$> l.
Proof.
  intros Hn (g & -> & Hg)%list_elem_of_fmap. assert (Ht : existsb (fun g' => rn_id g' =? rn_id g) l = true); [|congruence].
  apply existsb_exists. exists g. rewrite <-list_elem_of_In. split; [done|lia].
Qed.

(** A goroutine that starts with the lock, or beside it. *)
Lemma start_run_inv s id i (holds : bool) :
  lock_inv s -> id ∉ rn_id <$> sl_running s -> (if holds then sl_lock s = None else isCommandLockExempt i = Some true) ->
  lock_inv (mkSlash (if holds then Some (ByInteraction id) else sl_lock s) (sl_active s) (sl_running s ++ [mkRun id i holds]) (sl_log s)).
Proof.
  intros [Hids Hh Hl Hx] Hid Hc. split; cbn.
  - rewrite fmap_app, NoDup_app. cbn. split; [done|]. split; [|by apply NoDup_singleton]. intros k Hk ->%list_elem_of_singleton. done.
  - intros g [Hg| ->%list_elem_of_singleton]%elem_of_app Hgh; cbn in *; [|by rewrite Hgh].
    apply Hh in Hgh; [|done]. destruct holds; congruence.
  - intros k Hk. destruct holds.
    + injection Hk as <-. eexists. rewrite elem_of_app, list_elem_of_singleton. split; [by right|done].
    + destruct (Hl k Hk) as (g & Hg & ? & ?). exists g. rewrite elem_of_app. by split; [left|].
  - intros g [Hg| ->%list_elem_of_singleton]%elem_of_app Hgh; cbn in *; [by apply Hx|by rewrite Hgh in Hc].
Qed.

Lemma lock_inv_ext s s' : sl_lock s = sl_lock s' -> sl_running s = sl_running s' -> lock_inv s -> lock_inv s'.
Proof. intros E1 E2 [??? ?]. split; rewrite <-?E1, <-?E2; done. Qed.

Lemma SlashCommand_inv id now i s : lock_inv s -> id ∉ rn_id <$> sl_running s -> lock_inv (SlashCommand durafmt cfg panics cl id now i s).
Proof.
  intros Hs Hid. unfold SlashCommand. destruct (sl_lock s) eqn:El.
  - destruct (isCommandLockExempt i) as [[]|] eqn:Ex; [|by eapply lock_inv_ext, Hs..|done].
    by eapply lock_inv_ext, (start_run_inv s id i false); [cbn|cbn|..].
  - by eapply lock_inv_ext, (start_run_inv s id i true); [cbn|cbn|..].
Qed.

Lemma same_goroutine s g g' : NoDup (rn_id <$> sl_running s) -> g ∈ sl_running s -> g' ∈ sl_running s -> rn_id g' = rn_id g -> g' = g.
Proof. intros Hn Hg Hg'. by apply (NoDup_fmap_eq rn_id (sl_running s)). Qed.

Lemma finish_inv g s : lock_inv s -> g ∈ sl_running s -> lock_inv (finish g s).
Proof.
  intros [Hids Hh Hl Hx] Hg.
  assert (Hin : forall g', g' ∈ List.filter (fun g' => negb (rn_id g' =? rn_id g)) (sl_running s) <-> g' ∈ sl_running s /\ rn_id g' <> rn_id g).
  { intros g'. rewrite !list_elem_of_In, filter_In, negb_true_iff, Z.eqb_neq. done. }
  assert (Hnd : NoDup (rn_id <$> List.filter (fun g' => negb (rn_id g' =? rn_id g)) (sl_running s))).
  { clear -Hids. induction (sl_running s) as [|x l IH]; cbn; [constructor|]. apply NoDup_cons in Hids as [Hx Hids].
    case_match; [|by apply IH]. cbn. apply NoDup_cons. split; [|by apply IH]. intros (y & E & Hy)%list_elem_of_fmap. apply Hx, list_elem_of_fmap.
    exists y. split; [done|]. rewrite list_elem_of_In in *. by apply filter_In in Hy as [? _]. }
  unfold finish. destruct (rn_holds g) eqn:Egh; split; cbn.
  - done.
  - intros g' [Hg' Hne]%Hin Hgh. pose proof (Hh g' Hg' Hgh). pose proof (Hh g Hg Egh). congruence.
  - done.
  - intros g' [Hg' Hne]%Hin. by apply Hx.
  - done.
  - intros g' [Hg' Hne]%Hin. by apply Hh.
  - intros k Hk. destruct (Hl k Hk) as (g' & Hg' & Hid & Hgh). exists g'. rewrite Hin. split; [|done]. split; [done|].
    intros E. apply (same_goroutine s g g' Hids) in E; [congruence|done..].
  - intros g' [Hg' Hne]%Hin. by apply Hx.
Qed.

Lemma step_inv e s s' : step e s = Some s' -> lock_inv s -> lock_inv s'.
Proof.
  intros Hst Hs. destruct e as [id now i|id| |]; cbn in Hst.
  - destruct (existsb _ _) eqn:Ex; [done|]. injection Hst as <-. apply SlashCommand_inv; [done|by apply id_fresh].
  - apply bind_Some in Hst as (g & [Hg _]%find_some & [= <-]). apply finish_inv; [done|by apply list_elem_of_In].
  - destruct (sl_lock s) eqn:El; [done|]. injection Hst as <-. destruct Hs as [? Hh Hl ?]. split; cbn; [done| |done|done].
    intros g Hg Hgh. pose proof (Hh g Hg Hgh). congruence.
  - case_bool_decide as El; [|done]. injection Hst as <-. destruct Hs as [? Hh Hl ?]. split; cbn; [done| |done|done].
    intros g Hg Hgh. pose proof (Hh g Hg Hgh). congruence.
Qed.

Lemma run_inv events s s' : run events s = Some s' -> lock_inv s -> lock_inv s'.
Proof.
  revert s. induction events as [|e events IH]; intros s; cbn; [by intros [= <-]|].
  intros (s1 & H1 & H2)%bind_Some Hs. by eapply IH, step_inv.
Qed.

(** C15: (invariant) however interactions arrive and finish, whether their commands return or
    panic, and whenever the control server takes the lock: at most one goroutine holds the
    lock, and the lock is held by it or by the control server; every other goroutine that
    runs calls nothing but the web login and the forced reboot; and when nothing runs the
    lock is free or the control server's. *)
Theorem one_command_at_a_time events s : run events slash_start = Some s ->
  (forall g g', g ∈ sl_running s -> g' ∈ sl_running s -> rn_holds g = true -> rn_holds g' = true -> g' = g) /\
  (forall g, g ∈ sl_running s -> rn_holds g = true <-> sl_lock s = Some (ByInteraction (rn_id g))) /\
  (forall g f, g ∈ sl_running s -> sl_lock s <> Some (ByInteraction (rn_id g)) -> ascii_name (rn_interaction g) ->
     Call f ∈ (runSlashCommand cfg panics cl (rn_interaction g)).1 -> f = Web \/ f = ForceReboot) /\
  (sl_running s = [] -> sl_lock s = None \/ sl_lock s = Some ByControl).
Proof.
  intros Hr. pose proof (run_inv _ _ _ Hr start_inv) as [Hids Hh Hl Hx].
  assert (Hiff : forall g, g ∈ sl_running s -> rn_holds g = true <-> sl_lock s = Some (ByInteraction (rn_id g))).
  { intros g Hg. split; [by apply Hh|]. intros (g' & Hg' & E & Hgh)%Hl. by apply (same_goroutine s g g') in E as ->. }
  split; [|split; [done|split]].
  - intros g g' Hg Hg' Hgh Hgh'. apply (same_goroutine s); [done..|]. pose proof (Hh g Hg Hgh). pose proof (Hh g' Hg' Hgh'). congruence.
  - intros g f Hg Hn Ha Hf. assert (Hno : rn_holds g = false).
    { destruct (rn_holds g) eqn:E; [|done]. exfalso. by apply Hn, Hh. }
    assert (Hb : f ∈ beside) by (apply (exempt_calls (rn_interaction g)); [by apply Hx|done..]).
    unfold beside in Hb. rewrite !elem_of_cons, elem_of_nil in Hb. tauto.
  - intros He. destruct (sl_lock s) as [[id|]|] eqn:El; [|by right|by left]. exfalso.
    destruct (Hl id eq_refl) as (g & Hg & _). rewrite He in Hg. by apply elem_of_nil in Hg.
Qed.
End lock.

(** ** Examples *)
Module CommandsDemo.
#[local] Existing Instance ascii_tables.
#[local] Instance ascii_print : PrintTable := {| uni_print := fun _ => false |}.

Definition cfg : commands_config := mkCmdCfg "app" "guild" "chat" "a" "A" (mkRoles "r-admin" "r-mod" "r-reg" "r-vet" "r-mem" "" "").
Definition from (roles : list string) (data : interaction_data) : interaction := mkInteraction "app" "guild" "chat" (Some (mkMember (Some "ann") roles)) data.
Definition text (name v : string) : io_option := mkIO name OptString (Some v) None None None (Some v) [].
Definition no_panic (e : effect) : bool := false.
Definition map_reset : interaction := from ["r-mod"] (ApplicationCommand "map-reset" []).
Definition web : interaction := from ["r-mod"] (ApplicationCommand "web" [text "action" "login"]).
Definition reboot : interaction := from ["r-mod"] (ApplicationCommand "chatwire" [text "action" "force-reboot"]).

Example moderator_resets : runSlashCommand cfg no_panic (command_list false) map_reset = ([Audit "ann: MOD COMMAND: map-reset"; Call MapReset], Some tt).
Proof. by vm_compute. Qed.
Example stranger_is_refused : runSlashCommand cfg no_panic (command_list false) (from [] (ApplicationCommand "rcon" [text "command" "/c game.clear()"])) =
  ([Respond "Error" "You must be a moderator to use this command.";
    LogCMS "chat" "(ann does not have Discord moderator permissions, and attempted to run the command: rcon)"], Some tt).
Proof. by vm_compute. Qed.
Example reboot_runs : (runSlashCommand cfg no_panic (command_list false) reboot).1 = [Audit "ann: MOD COMMAND: chatwire"; Call ForceReboot].
Proof. by vm_compute. Qed.

Lemma commands_need_permission_witness :
  Call MapReset ∈ (runSlashCommand cfg no_panic (command_list true) map_reset).1 /\ for_us cfg map_reset /\ permitted cfg map_reset (Call MapReset).
Proof. assert (He : Call MapReset ∈ (runSlashCommand cfg no_panic (command_list true) map_reset).1) by vm_decide. split; [exact He|]. apply (commands_need_permission cfg no_panic true), He. Defined.

Lemma listed_commands_run_witness :
  may_run cfg web cmd_web = true /\
  exists before after, (runSlashCommand cfg no_panic (command_list false) web).1 = before ++ [Call Web] ++ after /\ Forall is_audit (before ++ after).
Proof.
  split; [by vm_compute|].
  exact (listed_commands_run cfg no_panic false web (mkMember (Some "ann") ["r-mod"]) "ann" cmd_web [text "action" "login"]
    ltac:(vm_decide) eq_refl eq_refl eq_refl eq_refl eq_refl ltac:(by vm_compute)).
Defined.

(** A command waits for the one that runs; the web login and the forced reboot do not. *)
Definition duration_text (d : duration) : string := Itoa (d / Second) +:+ " seconds".
Definition events : list slash_event :=
  [Arrives 1 (5 * Second) map_reset; Arrives 2 (8 * Second) map_reset; Arrives 3 (9 * Second) web; Arrives 4 (9 * Second) reboot; Finishes 3].
Definition after_events : option slash := slash_run duration_text cfg no_panic (command_list false) events slash_start.
Example busy_says_who : exists s, after_events = Some s /\ sl_log s =
  [(1, Audit "ann: MOD COMMAND: map-reset"); (1, Call MapReset);
   (2, Respond "Busy" ("Another command is already in progress: " +:+ Quote "map-reset" +:+ " run by ann for 3 seconds. Please wait and try again."));
   (3, Audit "ann: MOD COMMAND: web"); (3, Call Web); (4, Audit "ann: MOD COMMAND: chatwire"); (4, Call ForceReboot)] /\
  (rn_id <$> sl_running s) = [1; 4] /\ sl_lock s = Some (ByInteraction 1).
Proof. eexists. repeat split; by vm_compute. Qed.

Lemma one_command_at_a_time_witness : exists s, after_events = Some s /\ length (sl_running s) = 2%nat /\
  (forall g g', g ∈ sl_running s -> g' ∈ sl_running s -> rn_holds g = true -> rn_holds g' = true -> g' = g).
Proof.
  destruct after_events as [s|] eqn:E; [|by vm_compute in E].
  exists s. split; [done|]. split.
  - revert E. vm_compute. intros [= <-]. done.
  - exact (proj1 (one_command_at_a_time duration_text cfg no_panic false events s E)).
Defined.

(** The audit line of an administrator's command names the options that the command has,
    not what was given ([src/commands/util.go:129]); it comes after the command, so that of
    a command that panics is missing. *)
Definition configure : interaction := from ["r-admin"] (ApplicationCommand "config-global" [text "group-name" "M45"]).
Theorem audit_names_no_value :
  (runSlashCommand cfg no_panic (command_list false) configure).1 = [Call GConfigServer; Audit "ann: ADMIN COMMAND: config-global: "] /\
  (runSlashCommand cfg (fun e => bool_decide (e = Call GConfigServer)) (command_list false) configure).1 = [Call GConfigServer].
Proof. split; by vm_compute. Qed.
End CommandsDemo.
