(* ===== verification/ConfigCommand.v ===== *)
(** * The configuration commands: [src/commands/moderator/config.go],
    [src/commands/admin/newGConfig.go]

    [/config-server] and [/config-global] set the settings of their tables.  The
    configuration is a map from the path of a field to its value; the text of the answer
    is kept as a list of lines, each with what it says. *)
From Stdlib Require Import Ascii.
From S2P Require Import Prelude.
From S2P Require Import GoInt.
From S2P Require Import GoString.
From S2P Require Import ConfigTree.
From S2P Require Import WebSchema.
From S2P Require Import WebSettings.
From S2P Require Import CommandTable.
From S2P Require Import Commands.

(** ** Values *)
Inductive cvalue := CStr (s : string) | CInt (z : Z) | CBool (b : bool) | CFloat (n : num).
#[export] Instance cvalue_eq_dec : EqDecision cvalue.
Proof. solve_decision. Defined.
Abbreviation config := (gmap string cvalue).

(** [float32(v)] of a float64: 24 bits, ties to even; [None] is an infinity. *)
Definition to_float32 (n : num) : option num :=
  let e := Z.max (Z.log2 (Z.abs (n_m n)) + 1 + n_e n - 24) (-149) in
  let r :=
    if e <=? n_e n then n
    else
      let k := e - n_e n in
      let a := Z.abs (n_m n) in
      let q := a / 2 ^ k in
      let rest := a mod 2 ^ k in
      let q := if (2 ^ (k - 1) <? rest) || ((rest =? 2 ^ (k - 1)) && Z.odd q) then q + 1 else q in
      num_dyadic (Z.sgn (n_m n) * q) e in
  if num_lt (num_dyadic (2 ^ 24 - 1) 104) (num_dyadic (Z.abs (n_m r)) (n_e r)) then None else Some r.

(** A line of the answer; [live] where the text adds that the game is told at once. *)
Inductive report := SetTo (name : string) (v : cvalue) (live : bool) | InvalidValue (name : string) (v : cvalue)
  | InvalidNumber (name : string) | TooLong (name : string) (s : string) | TooShort (name : string) (s : string).
#[export] Instance report_eq_dec : EqDecision report.
Proof. solve_decision. Defined.

Section config_command.
Context `{UnicodeTables}.
Variable FactorioBooted : bool.

(** Write through a pointer; [None] is a nil pointer. *)
Definition store (co : SettingListData) (p : option string) (v : cvalue) (c : config) : option (config * list report) :=
  p ← p; Some (<[p := v]> c, [SetTo (s_Name co) v (s_LiveSoftMod co && FactorioBooted)]).

Definition rejected (r : report) (c : config) : option (config * list report) := Some (c, [r]).

Definition set_bool (co : SettingListData) (o : io_option) (c : config) : option (config * list report) :=
  v ← io_BoolValue o; store co (s_BData co) (CBool v) c.

Definition set_string (co : SettingListData) (o : io_option) (c : config) : option (config * list report) :=
  val ← io_StringValue o;
  if match s_CheckString co with Some check => negb (check val) | None => false end then rejected (InvalidValue (s_Name co) (CStr val)) c
  else if negb (s_MaxStrLen co =? 0) && (s_MaxStrLen co <? slen val) then rejected (TooLong (s_Name co) val) c
  else if negb (s_MinStrLen co =? 0) && (slen val <? s_MinStrLen co) then rejected (TooShort (s_Name co) val) c
  else store co (s_SData co) (CStr val) c.

Definition set_int (co : SettingListData) (o : io_option) (c : config) : option (config * list report) :=
  val ← io_IntValue o;
  if (s_MaxInt co <? val) || (val <? s_MinInt co) then rejected (InvalidValue (s_Name co) (CInt val)) c
  else store co (s_IData co) (CInt val) c.

Definition set_number (co : SettingListData) (o : io_option) (c : config) : option (config * list report) :=
  match s_Type co with
  | TYPE_F32 =>
      v ← io_FloatValue o;
      match to_float32 v with
      | None => rejected (InvalidNumber (s_Name co)) c
      | Some val => if num_lt (s_MaxF32 co) val || num_lt val (s_MinF32 co) then rejected (InvalidValue (s_Name co) (CFloat val)) c
                    else store co (s_FData32 co) (CFloat val) c
      end
  | TYPE_F64 =>
      val ← io_FloatValue o;
      if num_lt (s_MaxF64 co) val || num_lt val (s_MinF64 co) then rejected (InvalidValue (s_Name co) (CFloat val)) c
      else store co (s_FData64 co) (CFloat val) c
  | _ => Some (c, [])
  end.

(** One option against one setting; the global command compares numbers with the settings
    that have another name. *)
Definition apply_setting (global : bool) (o : io_option) (co : SettingListData) (c : config) : option (config * list report) :=
  if EqualFold (s_Name co) (io_Name o) then
    match io_Type o with
    | OptBoolean => set_bool co o c
    | OptString => set_string co o c
    | OptInteger => set_int co o c
    | OptNumber => if global then Some (c, []) else set_number co o c
    | _ => Some (c, [])
    end
  else if global && bool_decide (io_Type o = OptNumber) then set_number co o c else Some (c, []).

Fixpoint apply_all (steps : list (config -> option (config * list report))) (c : config) : option (config * list report) :=
  match steps with
  | [] => Some (c, [])
  | f :: steps => r ← f c; r' ← apply_all steps r.1; Some (r'.1, r.2 ++ r'.2)
  end.

Definition config_steps (global : bool) (options : list io_option) : list (config -> option (config * list report)) :=
  let settings := if global then GSettingList else SettingList in
  mjoin ((fun o => (fun co => apply_setting global o co) <$> settings) <$> options).

Definition apply_options (global : bool) (options : list io_option) (c : config) : option (config * list report) :=
  apply_all (config_steps global options) c.

(** ** The commands *)
Inductive config_answer := Status (lines : list report) | SettingNotFound | NoMatchingOption | CannotWriteGame | CannotSave.
Inductive config_action := ConfigSoftMod | WriteLCfg | WriteGCfg | GenerateFactorioConfig | UpdateChannelName.

(** What a command leaves: the configuration, what it did, and the answer. *)
Record config_result := mkResult { cr_config : config; cr_actions : list config_action; cr_answer : config_answer }.

(** [written], [generated]: whether the two files could be written. *)
Definition ConfigServer (written generated : bool) (options : list io_option) (c : config) : option config_result :=
  r ← apply_options false options c;
  let status := if bool_decide (r.2 = []) then SettingNotFound else Status r.2 in
  Some (if written then
          if generated then mkResult r.1 [ConfigSoftMod; WriteLCfg; GenerateFactorioConfig; UpdateChannelName] status
          else mkResult r.1 [ConfigSoftMod; WriteLCfg; GenerateFactorioConfig] CannotWriteGame
        else mkResult r.1 [ConfigSoftMod; WriteLCfg] CannotSave).

Definition GConfigServer (written : bool) (options : list io_option) (c : config) : option config_result :=
  r ← apply_options true options c;
  Some (if negb (bool_decide (r.2 = [])) then mkResult r.1 [ConfigSoftMod; WriteGCfg] (if written then Status r.2 else CannotSave)
        else mkResult r.1 [] NoMatchingOption).
End config_command.

(** * The configuration commands: limits, reports, crashes

    The settings stay of their types and within their limits, the answer says exactly what
    was set, and the options that Discord can send do not lead to a nil pointer. *)
Section limits.
Context `{UnicodeTables}.
Variable booted : bool.

Definition settings_of (global : bool) : list SettingListData := if global then GSettingList else SettingList.

(** The value that a setting holds, and the limits of its kind. *)
Definition fits (co : SettingListData) (v : cvalue) : Prop :=
  match v with
  | CStr s => match s_CheckString co with Some check => check s = true | None => True end /\
              (s_MaxStrLen co = 0 \/ slen s <= s_MaxStrLen co) /\ (s_MinStrLen co = 0 \/ s_MinStrLen co <= slen s)
  | CInt z => s_MinInt co <= z <= s_MaxInt co
  | CBool _ => True
  | CFloat n => if bool_decide (s_Type co = TYPE_F32) then num_lt (s_MaxF32 co) n = false /\ num_lt n (s_MinF32 co) = false
                else num_lt (s_MaxF64 co) n = false /\ num_lt n (s_MinF64 co) = false
  end.
(** The pointer that a value of this kind is written through. *)
Definition pointer_for (co : SettingListData) (v : cvalue) : option string :=
  match v with
  | CStr _ => s_SData co | CInt _ => s_IData co | CBool _ => s_BData co
  | CFloat _ => if bool_decide (s_Type co = TYPE_F32) then s_FData32 co else s_FData64 co
  end.

(** The value that an option gives to a setting; a number is rounded to the type of the
    setting, and [None] is a number that becomes infinite. *)
Definition given_value (o : io_option) (co : SettingListData) : option cvalue :=
  match io_Type o with
  | OptBoolean => CBool <$> io_BoolValue o
  | OptString => CStr <$> io_StringValue o
  | OptInteger => CInt <$> io_IntValue o
  | OptNumber => n ← io_FloatValue o; CFloat <$> (if bool_decide (s_Type co = TYPE_F32) then to_float32 n else Some n)
  | _ => None
  end.

(** The option is for the setting: it has its name, which the global command turns round for
    numbers, and a type that the command handles. *)
Definition addressed (global : bool) (o : io_option) (co : SettingListData) : bool :=
  let named := EqualFold (s_Name co) (io_Name o) in
  match io_Type o with
  | OptBoolean | OptString | OptInteger => named
  | OptNumber => xorb global named && (bool_decide (s_Type co = TYPE_F32) || bool_decide (s_Type co = TYPE_F64))
  | _ => false
  end.

(** What a line says is true of the option and the setting. *)
Definition says (o : io_option) (co : SettingListData) (r : report) : Prop :=
  match r with
  | SetTo name v live => name = s_Name co /\ given_value o co = Some v /\ fits co v /\ is_Some (pointer_for co v) /\ live = s_LiveSoftMod co && booted
  | InvalidValue name v => name = s_Name co /\ given_value o co = Some v /\ ~ fits co v
  | InvalidNumber name => name = s_Name co /\ io_Type o = OptNumber /\ s_Type co = TYPE_F32 /\ exists n, io_FloatValue o = Some n /\ to_float32 n = None
  | TooLong name s => name = s_Name co /\ given_value o co = Some (CStr s) /\ s_MaxStrLen co < slen s
  | TooShort name s => name = s_Name co /\ given_value o co = Some (CStr s) /\ slen s < s_MinStrLen co
  end.

(** What a line says was set. *)
Definition written_by (co : SettingListData) (r : report) (c : config) : config :=
  match r with SetTo _ v _ => match pointer_for co v with Some p => <[p := v]> c | None => c end | _ => c end.

(** One option for one setting: a line that is true, and the configuration as it says. *)
Definition outcome (o : io_option) (co : SettingListData) (c : config) (res : config * list report) : Prop :=
  exists r, res = (written_by co r c, [r]) /\ says o co r.

Lemma store_outcome o co v c r : given_value o co = Some v -> fits co v -> store booted co (pointer_for co v) v c = Some r -> outcome o co c r.
Proof.
  intros Hg Hf (p & Hp & [= <-])%bind_Some. exists (SetTo (s_Name co) v (s_LiveSoftMod co && booted)).
  split; [cbn; by rewrite Hp|]. cbn. rewrite Hp. eauto.
Qed.

Lemma rejected_outcome o co l c r : (forall c, written_by co l c = c) -> says o co l -> rejected l c = Some r -> outcome o co c r.
Proof. intros Hw Hs [= <-]. exists l. by rewrite Hw. Qed.

Lemma set_string_outcome o co c r : io_Type o = OptString -> set_string booted co o c = Some r -> outcome o co c r.
Proof.
  intros Ht (val & Hval & Hr)%bind_Some. assert (Hg : given_value o co = Some (CStr val)) by (unfold given_value; by rewrite Ht, Hval).
  revert Hr. destruct (match s_CheckString co with Some check => negb (check val) | None => false end) eqn:Ec.
  { apply rejected_outcome; [done|]. split_and!; [done..|]. cbn. intros [Hk _]. destruct (s_CheckString co) as [check|]; [|done]. by rewrite Hk in Ec. }
  destruct (negb (s_MaxStrLen co =? 0) && (s_MaxStrLen co <? slen val)) eqn:Emax; [apply rejected_outcome; [done|]; split_and!; [done..|lia]|].
  destruct (negb (s_MinStrLen co =? 0) && (slen val <? s_MinStrLen co)) eqn:Emin; [apply rejected_outcome; [done|]; split_and!; [done..|lia]|].
  apply (store_outcome o co (CStr val)); [done|]. cbn. split; [|lia]. destruct (s_CheckString co) as [check|]; [|done]. by destruct (check val).
Qed.

Lemma set_number_outcome o co c r :
  io_Type o = OptNumber -> (bool_decide (s_Type co = TYPE_F32) || bool_decide (s_Type co = TYPE_F64)) = true ->
  set_number booted co o c = Some r -> outcome o co c r.
Proof.
  unfold set_number. intros Ht Hty. destruct (s_Type co) eqn:Et; try done; intros (v & Hv & Hr)%bind_Some.
  - destruct (to_float32 v) as [val|] eqn:Ef.
    2:{ revert Hr. apply rejected_outcome; [done|]. split_and!; [done..|]. eauto. }
    assert (Hg : given_value o co = Some (CFloat val)) by (unfold given_value; rewrite Ht, Hv, Et; cbn; by rewrite Ef).
    destruct (_ || _) eqn:Eb in Hr.
    + revert Hr. apply rejected_outcome; [done|]. split_and!; [done..|]. unfold fits. rewrite Et. intros [H1 H2]. by rewrite H1, H2 in Eb.
    + apply orb_false_iff in Eb. apply (store_outcome o co (CFloat val)); [done|unfold fits, pointer_for; by rewrite Et..].
  - assert (Hg : given_value o co = Some (CFloat v)) by (unfold given_value; by rewrite Ht, Hv, Et). destruct (_ || _) eqn:Eb in Hr.
    + revert Hr. apply rejected_outcome; [done|]. split_and!; [done..|]. unfold fits. rewrite Et. intros [H1 H2]. by rewrite H1, H2 in Eb.
    + apply orb_false_iff in Eb. apply (store_outcome o co (CFloat v)); [done|unfold fits, pointer_for; by rewrite Et..].
Qed.

Lemma set_number_other o co c : (bool_decide (s_Type co = TYPE_F32) || bool_decide (s_Type co = TYPE_F64)) = false -> set_number booted co o c = Some (c, []).
Proof. unfold set_number. by destruct (s_Type co). Qed.

Lemma apply_setting_outcome global o co c r : apply_setting booted global o co c = Some r ->
  if addressed global o co then outcome o co c r else r = (c, []).
Proof.
  assert (Hnum : io_Type o = OptNumber -> set_number booted co o c = Some r ->
    if bool_decide (s_Type co = TYPE_F32) || bool_decide (s_Type co = TYPE_F64) then outcome o co c r else r = (c, [])).
  { intros Ht. destruct (_ || _) eqn:E; [by apply set_number_outcome|]. rewrite set_number_other by done. by intros [= <-]. }
  unfold apply_setting, addressed. destruct (EqualFold _ _).
  - destruct (io_Type o) eqn:Ht; try (by intros [= <-]).
    + by apply set_string_outcome.
    + intros (val & Hv & Hr)%bind_Some. assert (Hg : given_value o co = Some (CInt val)) by (unfold given_value; by rewrite Ht, Hv).
      destruct (_ || _) eqn:Eb in Hr.
      * revert Hr. apply rejected_outcome; [done|]. split_and!; [done..|]. cbn. lia.
      * apply (store_outcome o co (CInt val)); [done|cbn; lia|done].
    + intros (v & Hv & Hr)%bind_Some. by apply (store_outcome o co (CBool v)); [unfold given_value; by rewrite Ht, Hv| |].
    + destruct global; cbn [xorb andb]; [by intros [= <-]|]. by apply Hnum.
  - destruct (io_Type o) eqn:Ht; rewrite ?bool_decide_eq_false_2, ?andb_false_r by done; try (by intros [= <-]).
    destruct global; cbn; [by apply Hnum|by intros [= <-]].
Qed.

(** ** The whole command *)
Definition settings_named (global : bool) (name : string) : option SettingListData := List.find (fun co => bool_decide (s_Name co = name)) (settings_of global).

(** What a line of the answer says was set. *)
Definition replay (global : bool) (c : config) (r : report) : config :=
  match r with
  | SetTo name v _ => match settings_named global name ≫= fun co => pointer_for co v with Some p => <[p := v]> c | None => c end
  | _ => c
  end.
Definition line_ok (global : bool) (r : report) : Prop :=
  match r with
  | SetTo name v _ => exists co, settings_named global name = Some co /\ fits co v /\ pointer_for co v <> None
  | _ => True
  end.

(** The settings that the options are for, in the order of the loops. *)
Definition pairs (global : bool) (options : list io_option) : list (io_option * SettingListData) :=
  mjoin ((fun o => (o,.) <$> settings_of global) <$> options).
Definition named_settings (global : bool) (options : list io_option) : list (io_option * SettingListData) :=
  filter (fun x => addressed global x.1 x.2 = true) (pairs global options).

Lemma named_in_list (l : list SettingListData) co : NoDup (s_Name <$> l) -> co ∈ l -> List.find (fun co' => bool_decide (s_Name co' = s_Name co)) l = Some co.
Proof.
  induction l as [|x l IH]; intros Hn Hin; [by apply elem_of_nil in Hin|]. cbn in *. apply NoDup_cons in Hn as [Hx Hn].
  apply elem_of_cons in Hin as [->|Hin]; [by rewrite bool_decide_eq_true_2|]. rewrite bool_decide_eq_false_2; [by apply IH|].
  intros E. apply Hx. rewrite E. by apply list_elem_of_fmap_2.
Qed.
Lemma named_self global co : co ∈ settings_of global -> settings_named global (s_Name co) = Some co.
Proof. intros Hin. apply named_in_list; [destruct global; vm_decide|done]. Qed.

Lemma says_line global o co r c : co ∈ settings_of global -> says o co r -> replay global c r = written_by co r c /\ line_ok global r.
Proof.
  intros Hco%named_self Hs. destruct r as [name v live| | | |]; [|done..]. destruct Hs as (-> & Hg & Hf & [p Hp] & _). cbn.
  rewrite Hco. cbn. rewrite Hp. split; [done|]. exists co. split_and!; [done..|congruence].
Qed.

Lemma config_steps_pairs global options :
  config_steps booted global options = (fun x => apply_setting booted global x.1 x.2) <$> pairs global options.
Proof.
  unfold config_steps, pairs. fold (settings_of global). induction options as [|o options IH]; [done|].
  rewrite !fmap_cons. cbn [mjoin list_join]. rewrite fmap_app. f_equal; [|exact IH]. by rewrite <-list_fmap_compose.
Qed.

Lemma pairs_settings global options x : x ∈ pairs global options -> x.2 ∈ settings_of global.
Proof.
  unfold pairs. intros (l & Hx & Hl)%list_elem_of_join. apply list_elem_of_fmap in Hl as (o & -> & _).
  by apply list_elem_of_fmap in Hx as (co & -> & Hco).
Qed.

(** The lines are those of the settings that were named, one for each, and the
    configuration is what they say. *)
Lemma options_lines global options c c' lines : apply_options booted global options c = Some (c', lines) ->
  Forall2 (fun x r => says x.1 x.2 r) (named_settings global options) lines /\ c' = foldl (replay global) c lines /\ Forall (line_ok global) lines.
Proof.
  unfold apply_options, named_settings. rewrite config_steps_pairs. pose proof (pairs_settings global options) as Hp. revert c c' lines.
  induction (pairs global options) as [|[o co] l IH]; intros c c' lines; [cbn; intros [= <- <-]; by repeat constructor|].
  rewrite fmap_cons. cbn [apply_all fst snd].
  intros ([c1 l1] & H1 & ([c2 l2] & H2 & [= <- <-])%bind_Some)%bind_Some. cbn [fst snd] in H1, H2 |- *.
  destruct (IH (fun g Hg => Hp g (list_elem_of_further _ _ _ Hg)) _ _ _ H2) as (F2 & E2 & O2).
  apply apply_setting_outcome in H1. rewrite filter_cons. cbn [fst snd]. destruct (addressed global o co).
  - destruct H1 as (r & [= -> ->] & Hs). rewrite decide_True by done.
    destruct (says_line global o co r c (Hp _ (list_elem_of_here _ _)) Hs) as [Er Ho]. cbn. rewrite Er. by repeat constructor.
  - injection H1 as -> ->. by rewrite decide_False.
Qed.

Lemma answer_replays global options c c' lines : apply_options booted global options c = Some (c', lines) ->
  c' = foldl (replay global) c lines /\ Forall (line_ok global) lines.
Proof. by intros (_ & ? & ?)%options_lines. Qed.

(** The answer that goes with the lines. *)
Definition expected_answer (global written generated : bool) (lines : list report) : config_answer :=
  if global then
    if bool_decide (lines = []) then NoMatchingOption else if written then Status lines else CannotSave
  else if negb written then CannotSave
  else if negb generated then CannotWriteGame
  else if bool_decide (lines = []) then SettingNotFound else Status lines.

Definition run_command (global written generated : bool) (options : list io_option) (c : config) : option config_result :=
  if global then GConfigServer booted written options c else ConfigServer booted written generated options c.

(** C17: (functional) the answer of a configuration command is true and complete.  There is one
    line for every setting that an option is for, in the order of the options, and what it
    says is so: a value that is said to be set is the one that was given (a number as it
    is rounded to the type of the setting), is within the limits and was stored; one that
    is called invalid is not within them; a number that is called invalid without its
    value is infinite in the type of the setting; a text that is called too long or too
    short is.  The configuration afterwards is the one before with what these lines say
    was set, in their order.  The lines are the answer when the files could be written;
    otherwise the answer is that they could not, and without any line that no setting was
    found. *)
Theorem answer_says_what_was_set global written generated options c res :
  run_command global written generated options c = Some res ->
  exists lines, Forall2 (fun x r => says x.1 x.2 r) (named_settings global options) lines /\
    cr_config res = foldl (replay global) c lines /\ cr_answer res = expected_answer global written generated lines.
Proof.
  unfold run_command, GConfigServer, ConfigServer, expected_answer.
  destruct global; intros ([c' lines] & (F & E & _)%options_lines & Hr)%bind_Some; exists lines; (split; [done|]); cbn [fst snd] in Hr.
  - case_bool_decide; injection Hr as <-; by destruct written.
  - destruct written; [|by injection Hr as <-]. destruct generated; by injection Hr as <-.
Qed.

(** ** Types *)
Definition own_pointer (co : SettingListData) : option string :=
  match s_Type co with
  | TYPE_STRING | TYPE_CHANNEL => s_SData co
  | TYPE_INT => s_IData co | TYPE_BOOL => s_BData co | TYPE_F32 => s_FData32 co | TYPE_F64 => s_FData64 co
  end.
Definition has_kind (co : SettingListData) (v : cvalue) : bool :=
  match s_Type co, v with
  | TYPE_STRING, CStr _ | TYPE_CHANNEL, CStr _ | TYPE_INT, CInt _ | TYPE_BOOL, CBool _ | TYPE_F32, CFloat _ | TYPE_F64, CFloat _ => true
  | _, _ => false
  end.

(** The pointers of the table are those of the types, and different. *)
Definition one_pointer (co : SettingListData) : bool :=
  let only (b : bool) (p : option string) := b || bool_decide (p = None) in
  let of_type (t : setting_type) := bool_decide (s_Type co = t) in
  only (of_type TYPE_STRING || of_type TYPE_CHANNEL) (s_SData co) && only (of_type TYPE_INT) (s_IData co) && only (of_type TYPE_BOOL) (s_BData co)
  && only (of_type TYPE_F32) (s_FData32 co) && only (of_type TYPE_F64) (s_FData64 co).

Lemma table_one_pointer global co : co ∈ settings_of global -> one_pointer co = true.
Proof.
  intros Hco. assert (Ht : forallb one_pointer (settings_of global) = true) by (destruct global; by vm_compute).
  rewrite forallb_forall in Ht. apply Ht, list_elem_of_In, Hco.
Qed.

Lemma pointer_kind global co v p : co ∈ settings_of global -> pointer_for co v = Some p -> own_pointer co = Some p /\ has_kind co v = true.
Proof.
  intros Hco%table_one_pointer. unfold one_pointer in Hco. rewrite !andb_true_iff, !orb_true_iff, !bool_decide_eq_true in Hco.
  unfold pointer_for, own_pointer, has_kind. destruct v; [| | |case_bool_decide]; destruct (s_Type co); intuition congruence.
Qed.

Lemma own_pointer_inj global co co' p : co ∈ settings_of global -> co' ∈ settings_of global -> own_pointer co = Some p -> own_pointer co' = Some p -> co = co'.
Proof.
  intros Hco Hco' E E'. apply (NoDup_fmap_eq own_pointer (settings_of global)); [destruct global; vm_decide|done|done|congruence].
Qed.

(** Every setting of the table has a value of its type, within its limits. *)
Definition well_formed (global : bool) (c : config) : Prop :=
  forall co p, co ∈ settings_of global -> own_pointer co = Some p -> exists v, c !! p = Some v /\ has_kind co v = true /\ fits co v.

Lemma replay_well_formed global c r : line_ok global r -> well_formed global c -> well_formed global (replay global c r).
Proof.
  destruct r as [name v live| | | |]; [|done..]. intros (co & Hn & Hf & _) Hc. cbn. rewrite Hn. cbn.
  destruct (pointer_for co v) as [p|] eqn:Ep; [|done]. apply find_some in Hn as [Hco%list_elem_of_In _].
  destruct (pointer_kind global co v p Hco Ep) as [Eo Ek]. intros co' p' Hco' Eo'. destruct (decide (p' = p)) as [->|Hne].
  - rewrite lookup_insert_eq. rewrite <-(own_pointer_inj global co co' p) by done. eauto.
  - rewrite lookup_insert_ne by done. by apply Hc.
Qed.

(** C16: (type) whatever options a configuration command is given, a configuration in which
    every setting of its table has a value of the type of the setting and within its
    limits is one again afterwards. *)
Theorem settings_keep_types_and_limits global options c c' lines :
  well_formed global c -> apply_options booted global options c = Some (c', lines) -> well_formed global c'.
Proof.
  intros Hc Ha. destruct (answer_replays _ _ _ _ _ Ha) as [-> Hl]. clear Ha. revert c Hc. induction Hl as [|r l Hr _ IH]; intros c Hc; [done|].
  cbn. by apply IH, replay_well_formed.
Qed.

(** ** Options as Discord sends them *)
(** The value of the type that the option has can be read. *)
Definition typed (o : io_option) : Prop :=
  match io_Type o with
  | OptString => is_Some (io_StringValue o) | OptBoolean => is_Some (io_BoolValue o)
  | OptInteger => is_Some (io_IntValue o) | OptNumber => is_Some (io_FloatValue o)
  | _ => True
  end.
Definition command_name (global : bool) : string := if global then "config-global" else "config-server".
Definition sent_by_discord (global : bool) (o : io_option) : Prop :=
  typed o /\ exists cmd ro, cmd ∈ RegisterCommands cmds /\ rg_Name cmd = command_name global /\ ro ∈ rg_Options cmd /\
    io_Name o = ro_Name ro /\ io_Type o = ro_Type ro.

(** The setting has what an option of this type is written to. *)
Definition accepts (global : bool) (ty : option_type) (co : SettingListData) : bool :=
  match ty with
  | OptString => bool_decide (s_SData co <> None) | OptInteger => bool_decide (s_IData co <> None) | OptBoolean => bool_decide (s_BData co <> None)
  | OptNumber => negb global && match s_Type co with TYPE_F32 => bool_decide (s_FData32 co <> None) | TYPE_F64 => bool_decide (s_FData64 co <> None) | _ => true end
  | _ => true
  end.

Lemma table_accepts global cmd ro co : cmd ∈ RegisterCommands cmds -> rg_Name cmd = command_name global -> ro ∈ rg_Options cmd -> co ∈ settings_of global ->
  EqualFold (s_Name co) (ro_Name ro) = true \/ global && bool_decide (ro_Type ro = OptNumber) = true -> accepts global (ro_Type ro) co = true.
Proof.
  intros Hcmd Hn Hro Hco Hf.
  assert (Ht : forallb (fun cmd => negb (bool_decide (rg_Name cmd = command_name global)) ||
      forallb (fun ro => forallb (fun co => negb (EqualFold (s_Name co) (ro_Name ro) || global && bool_decide (ro_Type ro = OptNumber)) || accepts global (ro_Type ro) co)
        (settings_of global)) (rg_Options cmd)) (RegisterCommands cmds) = true) by (destruct global; by vm_compute).
  rewrite forallb_forall in Ht. specialize (Ht cmd (proj1 (list_elem_of_In _ _) Hcmd)). rewrite bool_decide_eq_true_2 in Ht by done.
  apply orb_true_iff in Ht as [Ht|Ht]; [done|]. rewrite forallb_forall in Ht. specialize (Ht ro (proj1 (list_elem_of_In _ _) Hro)).
  rewrite forallb_forall in Ht. specialize (Ht co (proj1 (list_elem_of_In _ _) Hco)).
  apply orb_true_iff in Ht as [Ht|Ht]; [|done]. apply negb_true_iff, orb_false_iff in Ht as [H1 H2]. by destruct Hf; congruence.
Qed.

Lemma store_some co p v c : p <> None -> store booted co p v c <> None.
Proof. by destruct p. Qed.

Lemma accepted_runs global o co c : typed o -> accepts global (io_Type o) co = true ->
  EqualFold (s_Name co) (io_Name o) = true -> apply_setting booted global o co c <> None.
Proof.
  unfold typed, accepts, apply_setting. intros Ht Ha ->. destruct (io_Type o); try done.
  - destruct Ht as [v Hv]. apply bool_decide_eq_true in Ha. unfold set_string. rewrite Hv. cbn.
    destruct (match s_CheckString co with Some check => negb (check v) | None => false end); [done|].
    do 2 (destruct (negb _ && _); [done|]). by apply store_some.
  - destruct Ht as [v Hv]. apply bool_decide_eq_true in Ha. unfold set_int. rewrite Hv. cbn. case_match; [done|]. by apply store_some.
  - destruct Ht as [v Hv]. apply bool_decide_eq_true in Ha. unfold set_bool. rewrite Hv. cbn. by apply store_some.
  - destruct global; [done|]. destruct Ht as [v Hv]. unfold set_number. rewrite Hv. cbn in *. destruct (s_Type co); try done; apply bool_decide_eq_true in Ha.
    + destruct (to_float32 v); [|done]. case_match; [done|]. by apply store_some.
    + case_match; [done|]. by apply store_some.
Qed.

Lemma sent_runs global o co c : sent_by_discord global o -> co ∈ settings_of global -> apply_setting booted global o co c <> None.
Proof.
  intros (Ht & cmd & ro & Hcmd & Hn & Hro & En & Ety) Hco. pose proof (table_accepts global cmd ro co Hcmd Hn Hro Hco) as Ha. rewrite <-En, <-Ety in Ha.
  destruct (EqualFold (s_Name co) (io_Name o)) eqn:Ef; [apply accepted_runs; auto|]. unfold apply_setting. rewrite Ef.
  case_match eqn:E; [|done]. specialize (Ha (or_intror eq_refl)). apply andb_true_iff in E as [-> E%bool_decide_eq_true]. unfold accepts in Ha. by rewrite E in Ha.
Qed.

(** C18: (error) the options that Discord lets a member send for a configuration command, each
    with a registered name and a value of the registered type, are all handled: no nil
    pointer is written through, however many there are and whatever their values. *)
Theorem discord_options_never_crash global options c :
  Forall (sent_by_discord global) options -> exists c' lines, apply_options booted global options c = Some (c', lines).
Proof.
  intros Ho. unfold apply_options.
  assert (Hs : forall f, f ∈ config_steps booted global options -> forall c, f c <> None).
  { intros f (l & Hf & Hl)%list_elem_of_join c0. apply list_elem_of_fmap in Hl as (o & -> & Hin). apply list_elem_of_fmap in Hf as (co & -> & Hco).
    apply sent_runs; [|done]. rewrite Forall_forall in Ho. by apply Ho. }
  revert c. induction (config_steps booted global options) as [|f steps IH]; intros c; cbn; [eauto|].
  destruct (f c) as [[c1 l1]|] eqn:E; [|by apply Hs in E; [|apply list_elem_of_here]]. cbn.
  destruct (IH (fun g Hg => Hs g (list_elem_of_further _ _ _ Hg)) c1) as (c2 & l2 & E2). rewrite E2. cbn. eauto.
Qed.
End limits.

(** ** Examples *)
Module ConfigCommandDemo.
#[local] Existing Instance ascii_tables.

Definition int_option (name : string) (z : Z) : io_option := mkIO name OptInteger None None (Some z) None (Some (Itoa z)) [].
Definition bool_option (name : string) (b : bool) : io_option := mkIO name OptBoolean None (Some b) None None None [].
Definition text_option (name v : string) : io_option := mkIO name OptString (Some v) None None None (Some v) [].
Definition number_option (name : string) (n : num) : io_option := mkIO name OptNumber None None None (Some n) None [].
Definition channel_option (name v : string) : io_option := mkIO name OptChannel None None None None (Some v) [].

Definition options : list io_option :=
  [text_option "name" "alpha"; int_option "afk-kick-mins" 500; bool_option "members-only" true; text_option "map-preset" "flat"; number_option "speed" (mkNum 1 (-1))].
Example options_set : apply_options true false options ∅ =
  Some (<["Local.Options.Speed" := CFloat (mkNum 1 (-1))]> (<["Local.Options.MembersOnly" := CBool true]> {["Local.Name" := CStr "alpha"]}),
        [SetTo "name" (CStr "alpha") true; InvalidValue "afk-kick-mins" (CInt 500); SetTo "members-only" (CBool true) false;
         InvalidValue "map-preset" (CStr "flat"); SetTo "Speed" (CFloat (mkNum 1 (-1))) true]).
Proof. vm_decide. Qed.

Lemma answer_says_what_was_set_witness : exists res lines,
  run_command true false true true options ∅ = Some res /\ cr_answer res = Status lines /\ length lines = 5%nat /\
  Forall2 (fun x r => says true x.1 x.2 r) (named_settings false options) lines /\ cr_config res = foldl (replay false) ∅ lines.
Proof.
  assert (Hr : exists res, run_command true false true true options ∅ = Some res)
    by (unfold run_command, ConfigServer; rewrite options_set; cbn; eauto).
  destruct Hr as [res Hr]. destruct (answer_says_what_was_set true false true true options ∅ res Hr) as (lines & Hf & Hc & Ha).
  assert (Hl : length lines = 5%nat) by (rewrite <-(Forall2_length _ _ _ Hf); vm_compute; reflexivity).
  exists res, lines. split_and!; [done| |done..]. rewrite Ha. cbn. by destruct lines.
Defined.

(** The global configuration with a value for every setting. *)
Definition global_config : config := list_to_map
  [("Global.GroupName", CStr "M45"); ("Global.PrimaryServer", CStr "a"); ("Global.Discord.ReportChannel", CStr ""); ("Global.Discord.AnnounceChannel", CStr "");
   ("Global.Options.Description", CStr "a server"); ("Global.Options.AutosaveMax", CInt 250); ("Global.Options.ShutupSusWarn", CBool false);
   ("Global.Options.DisableSpamProtect", CBool false); ("Global.Options.FCLWarnOnly", CBool false); ("Global.Options.FCLWarnRegulars", CBool false)].
Lemma global_config_well_formed : well_formed true global_config.
Proof.
  intros co p Hco. unfold settings_of, GSettingList in Hco. rewrite !elem_of_cons, elem_of_nil in Hco.
  repeat destruct Hco as [->|Hco]; [intros [= <-]; eexists; (split; [by vm_compute|]); (split; [done|]); cbn; repeat split; try done; try lia; right; by vm_compute..|done].
Qed.
Definition two_options : list io_option := [text_option "group-name" "toolong"; int_option "autosave-max" 100].
Lemma settings_keep_types_and_limits_witness : exists c lines, apply_options true true two_options global_config = Some (c, lines) /\ well_formed true c.
Proof.
  assert (Hs : match apply_options true true two_options global_config with Some _ => true | None => false end = true) by (by vm_compute).
  destruct (apply_options true true two_options global_config) as [[c lines]|] eqn:E; [clear Hs|done]. exists c, lines. split; [done|].
  exact (settings_keep_types_and_limits true true two_options global_config c lines global_config_well_formed E).
Defined.

Lemma discord_options_never_crash_witness : exists c lines, apply_options true false [bool_option "one-life" true] ∅ = Some (c, lines).
Proof.
  apply (discord_options_never_crash true false). constructor; [|constructor]. split; [by eexists|].
  assert (Hin : List.find (fun cmd => bool_decide (rg_Name cmd = "config-server")) (RegisterCommands cmds) <> None) by (by vm_compute).
  destruct (List.find _ _) as [cmd|] eqn:Ec; [clear Hin|done].
  assert (Hro : match List.find (fun cmd => bool_decide (rg_Name cmd = "config-server")) (RegisterCommands cmds) with
                | Some cmd => match List.find (fun ro => bool_decide (ro_Name ro = "one-life") && bool_decide (ro_Type ro = OptBoolean)) (rg_Options cmd) with Some _ => true | None => false end
                | None => false end = true) by (by vm_compute).
  rewrite Ec in Hro. destruct (List.find _ (rg_Options cmd)) as [ro|] eqn:Er; [|done].
  apply find_some in Ec as [Ec1 Ec2%bool_decide_eq_true]. apply find_some in Er as [Er1 Er2]. apply andb_true_iff in Er2 as [Er2%bool_decide_eq_true Er3%bool_decide_eq_true].
  exists cmd, ro. rewrite !list_elem_of_In. done.
Defined.

(** The seed of the map has no limits in the table, which makes both of them 0: no seed but
    0 is ever accepted ([src/commands/moderator/settings.go:346]). *)
Theorem seed_is_never_set booted z c : z <> 0 -> apply_options booted false [int_option "map-seed" z] c = Some (c, [InvalidValue "map-seed" (CInt z)]).
Proof.
  intros Hz. destruct z as [|z|z]; [done|by vm_compute..].
Qed.

(** The channels of the global settings are registered as options that are channels, and the
    command ignores options of that type: neither of them can be set
    ([src/commands/admin/newGConfig.go:26]). *)
Theorem channels_are_never_set booted v c :
  GConfigServer booted true [channel_option "report-channel" v] c = Some (mkResult c [] NoMatchingOption) /\
  GConfigServer booted true [channel_option "announce-channel" v] c = Some (mkResult c [] NoMatchingOption).
Proof. split; reflexivity. Qed.

(** The greatest port is computed before the configuration is read, when the offset of the
    RCON port is still 0: the command takes a port whose RCON port is no port, which the
    web settings refuse ([src/commands/moderator/settings.go:169]). *)
Theorem port_leaves_no_room_for_rcon :
  apply_options false false [int_option "port" 65535] ∅ = Some ({["Local.Port" := CInt 65535]}, [SetTo "port" (CInt 65535) false]) /\
  check_scope false (Some {["Options.RconOffset" := JNum (num_of_Z 10000)]}) {["Port" := JNum (num_of_Z 65535)]} = Err "computed RCON port exceeds 65535".
Proof. split; vm_decide. Qed.
End ConfigCommandDemo.
