(* ===== verification/Whitelist.v ===== *)
(** * The lists the game starts with: [WriteAdminlist] and [WriteWhitelist] of
    [src/fact/util.go]

    Before the game starts, the names of those who may administer it and, on a server for
    members or regulars, of those who may join are written next to it; on a private
    server the invitations that are there are kept.  The records come in the order in
    which the map is iterated, [sort_seen] is what [sort.Slice] makes of them: it is not
    stable, so all that is known is that the result is a sorted permutation. *)
From Stdlib Require Import Ascii.
From S2P Require Import Prelude.
From S2P Require Import GoInt.
From S2P Require Import GoString.
From S2P Require Import Glob.

Definition MaxWhitelist : Z := 1500.

(** [cfg.Local.Options], as far as it says who may join. *)
Record join_options := mkJoin { jo_CustomWhitelist : bool; jo_MembersOnly : bool; jo_RegularsOnly : bool }.

(** What there is of the file of invitations. *)
Inductive invite_file := NoInvites | Unreadable | NotJSON | Invites (names : list string).

(** What is done to a list file, and the number that is returned. *)
Inductive list_write := Wrote (names : list string) | Removed | Untouched.
#[export] Instance list_write_eq_dec : EqDecision list_write.
Proof. solve_decision. Defined.

Definition staff_level (p : PlayerData) : bool := 254 <=? pd_Level p.

Definition admins (players : list PlayerData) : list string := sort_strings (pd_Name <$> List.filter staff_level players).

(** [ok]: whether the file could be written. *)
Definition written (ok : bool) (names : list string) : Z * list_write := if ok then (Z.of_nat (length names), Wrote names) else (-1, Untouched).

Definition WriteAdminlist (ok : bool) (players : list PlayerData) : Z * list_write := written ok (admins players).

Section whitelist.
Variable sort_seen : list PlayerData -> list PlayerData.

Definition may_join (o : join_options) (p : PlayerData) : bool := if jo_RegularsOnly o then 1 <? pd_Level p else 0 <? pd_Level p.
Definition veteran (p : PlayerData) : bool := 3 <=? pd_Level p.
Definition junior (p : PlayerData) : bool := pd_Level p <? 3.

(** The names up to the limit: the loop stops once there are enough. *)
Fixpoint add_others (names : list string) (others : list PlayerData) : list string :=
  match others with
  | [] => names
  | p :: others =>
      if MaxWhitelist <=? Z.of_nat (length names) then names
      else add_others (if junior p then names ++ [pd_Name p] else names) others
  end.

Definition whitelist_names (o : join_options) (players : list PlayerData) : list string :=
  let localPlayerList := sort_seen (List.filter (may_join o) players) in
  let newest := rev localPlayerList in
  add_others (pd_Name <$> List.filter veteran newest) newest.

Section custom.
Context `{UnicodeTables}.

(** The names of the staff that the invitations lack, each once, and what has been seen. *)
Fixpoint missing_staff (seen : list string) (players : list PlayerData) : list string :=
  match players with
  | [] => []
  | p :: players =>
      if staff_level p && negb (bool_decide (ToLower (pd_Name p) ∈ seen)) then pd_Name p :: missing_staff (ToLower (pd_Name p) :: seen) players
      else missing_staff seen players
  end.

Definition custom_names (names : list string) (players : list PlayerData) : list string :=
  names ++ sort_strings (missing_staff (ToLower <$> names) players).

Definition writeCustomWhitelist (ok : bool) (file : invite_file) (players : list PlayerData) : Z * list_write :=
  match file with
  | Unreadable | NotJSON => (-1, Untouched)
  | NoInvites => written ok (custom_names [] players)
  | Invites names => written ok (custom_names names players)
  end.

Definition WriteWhitelist (o : join_options) (ok : bool) (file : invite_file) (players : list PlayerData) : Z * list_write :=
  if jo_CustomWhitelist o then writeCustomWhitelist ok file players
  else if jo_MembersOnly o || jo_RegularsOnly o then written ok (whitelist_names o players)
  else (0, Removed).
End custom.

(** ** Who may join *)
(** What is known of [sort.Slice] with the given order. *)
Hypothesis sort_seen_perm : forall l, sort_seen l ≡ₚ l.
Hypothesis sort_seen_sorted : forall l, StronglySorted (fun p q => pd_LastSeen p <= pd_LastSeen q) (sort_seen l).

Lemma add_others_spec names others :
  exists n, add_others names others = names ++ (pd_Name <$> take n (List.filter junior others)) /\
    ((n >= length (List.filter junior others))%nat \/ MaxWhitelist <= Z.of_nat (length names) + Z.of_nat n) /\
    (Z.of_nat (length (add_others names others)) <= Z.max MaxWhitelist (Z.of_nat (length names))).
Proof.
  revert names. induction others as [|p others IH]; intros names; cbn [add_others]; [exists 0%nat; cbn; rewrite app_nil_r; split; [done|lia]|].
  destruct (MaxWhitelist <=? Z.of_nat (length names)) eqn:Em.
  { exists 0%nat. cbn. rewrite take_0, app_nil_r. split; [done|]. lia. }
  cbn [List.filter]. destruct (junior p) eqn:El.
  - destruct (IH (names ++ [pd_Name p])) as (n & E & Hn & Hl). rewrite length_app in Hn, Hl. cbn [length] in Hn, Hl. exists (S n).
    split; [by rewrite E, <-app_assoc|]. cbn [length]. split; lia.
  - apply IH.
Qed.

(** The records that are let in, in the order of the list. *)
Definition joiners (o : join_options) (players : list PlayerData) (n : nat) : list PlayerData :=
  let newest := rev (sort_seen (List.filter (may_join o) players)) in
  List.filter veteran newest ++ take n (List.filter junior newest).

Lemma whitelist_is_joiners o players : exists n, whitelist_names o players = pd_Name <$> joiners o players n /\
  let newest := rev (sort_seen (List.filter (may_join o) players)) in
  ((n >= length (List.filter junior newest))%nat \/ MaxWhitelist <= Z.of_nat (length (List.filter veteran newest)) + Z.of_nat n) /\
  Z.of_nat (length (joiners o players n)) <= Z.max MaxWhitelist (Z.of_nat (length (List.filter veteran newest))).
Proof.
  unfold whitelist_names, joiners. cbv zeta. set (newest := rev _). destruct (add_others_spec (pd_Name <$> List.filter veteran newest) newest) as (n & E & Hn & Hl).
  exists n. rewrite E in Hl |- *. rewrite length_app, !length_fmap in Hl. rewrite length_fmap in Hn. rewrite fmap_app. split; [done|].
  rewrite length_app. split; lia.
Qed.

Lemma StronglySorted_filter {A} (R : A -> A -> Prop) f (l : list A) : StronglySorted R l -> StronglySorted R (List.filter f l).
Proof.
  induction 1 as [|x l Hl IH Hx]; [constructor|]. cbn. destruct (f x); [|done]. constructor; [done|].
  rewrite Forall_forall in *. intros y Hy. apply Hx. rewrite list_elem_of_In in *. by apply filter_In in Hy as [? _].
Qed.
Lemma StronglySorted_rev {A} (R : A -> A -> Prop) (l : list A) : StronglySorted R l -> StronglySorted (flip R) (rev l).
Proof.
  induction 1 as [|x l Hl IH Hx]; [constructor|]. cbn. apply StronglySorted_app. split_and!; [|done|by repeat constructor].
  intros y z Hy ->%list_elem_of_singleton. rewrite Forall_forall in Hx. apply Hx. rewrite list_elem_of_In, in_rev, <-list_elem_of_In. done.
Qed.

Lemma filter_perm {A} (f : A -> bool) (l l' : list A) : l ≡ₚ l' -> List.filter f l ≡ₚ List.filter f l'.
Proof. induction 1; cbn; repeat case_match; try done; [by constructor|by constructor|by etrans]. Qed.

Lemma veterans_juniors l : List.filter veteran l ++ List.filter junior l ≡ₚ l.
Proof.
  induction l as [|p l IH]; [done|]. cbn. assert (E : junior p = negb (veteran p)) by (unfold junior, veteran; lia). rewrite E.
  destruct (veteran p); cbn; [by constructor|]. by rewrite <-Permutation_middle, IH.
Qed.

(** C21: (functional) in whatever order the records are iterated and sorted, the players who may
    join a server for members or regulars are divided into those whose names are on its
    list, each once, and those who are left out.  Someone is left out only if the list is
    full, is no veteran or above, and was seen no later than anyone on the list who is no
    veteran; and the list is no longer than its limit, or than the number of veterans. *)
Theorem whitelist_admits_the_latest o players : exists admitted left_out,
  whitelist_names o players = pd_Name <$> admitted /\ admitted ++ left_out ≡ₚ List.filter (may_join o) players /\
  (forall q, q ∈ left_out -> MaxWhitelist <= Z.of_nat (length admitted) /\ veteran q = false /\
     forall p, p ∈ admitted -> veteran p = false -> pd_LastSeen q <= pd_LastSeen p) /\
  Z.of_nat (length admitted) <= Z.max MaxWhitelist (Z.of_nat (length (List.filter veteran (List.filter (may_join o) players)))).
Proof.
  destruct (whitelist_is_joiners o players) as (n & E & Hn & Hl). rewrite E. clear E.
  assert (Hperm : rev (sort_seen (List.filter (may_join o) players)) ≡ₚ List.filter (may_join o) players)
    by (rewrite <-Permutation_rev; apply sort_seen_perm).
  pose proof (Permutation_length (filter_perm veteran _ _ Hperm)) as Hv.
  unfold joiners in *. cbv zeta in *. rewrite Hv in Hn, Hl. pose proof (sort_seen_sorted (List.filter (may_join o) players)) as Hs.
  apply StronglySorted_rev, (StronglySorted_filter _ junior) in Hs. set (newest := rev _) in *.
  exists (List.filter veteran newest ++ take n (List.filter junior newest)), (drop n (List.filter junior newest)).
  split; [done|]. split; [by rewrite <-app_assoc, take_drop, veterans_juniors|]. split; [|lia].
  intros q Hq. assert (Hlt : (n < length (List.filter junior newest))%nat).
  { destruct (decide (n < length (List.filter junior newest))%nat); [done|]. rewrite drop_ge in Hq by lia. by apply elem_of_nil in Hq. }
  split; [rewrite length_app, Hv, length_take; lia|].
  assert (Hj : forall x, x ∈ List.filter junior newest -> junior x = true) by (intros x; rewrite list_elem_of_In, filter_In; tauto).
  split.
  - apply (subseteq_drop n) in Hq. apply Hj in Hq. unfold junior, veteran in *. lia.
  - intros p [Hp|Hp]%elem_of_app Hvp.
    + rewrite list_elem_of_In, filter_In in Hp. destruct Hp. congruence.
    + rewrite <-(take_drop n (List.filter junior newest)) in Hs. exact (StronglySorted_app_1_elem_of _ _ _ p q Hs Hp Hq).
Qed.
End whitelist.

(** ** Private servers *)
Section private.
Context `{UnicodeTables}.

Definition fold_in (name : string) (names : list string) : Prop := ToLower name ∈ ToLower <$> names.

Lemma missing_staff_spec seen players :
  (forall x, x ∈ missing_staff seen players -> ToLower x ∉ seen /\ exists p, p ∈ players /\ staff_level p = true /\ pd_Name p = x) /\
  NoDup (ToLower <$> missing_staff seen players) /\
  (forall p, p ∈ players -> staff_level p = true -> ToLower (pd_Name p) ∈ seen \/ fold_in (pd_Name p) (missing_staff seen players)).
Proof.
  revert seen. induction players as [|p players IH]; intros seen; cbn [missing_staff].
  { split; [by intros x ?%elem_of_nil|]. split; [constructor|by intros p ?%elem_of_nil]. }
  destruct (staff_level p && _) eqn:E.
  - apply andb_true_iff in E as [Es En%negb_true_iff%bool_decide_eq_false]. destruct (IH (ToLower (pd_Name p) :: seen)) as (H1 & H2 & H3). unfold fold_in in *. cbn.
    split; [|split].
    + intros x [->|Hx]%elem_of_cons; [split; [done|]; exists p; rewrite elem_of_cons; auto|].
      destruct (H1 x Hx) as [Hn (q & Hq & ? & ?)]. rewrite not_elem_of_cons in Hn. split; [tauto|]. exists q. rewrite elem_of_cons. auto.
    + apply NoDup_cons. split; [|done]. intros (x & Ex & Hx)%list_elem_of_fmap. destruct (H1 x Hx) as [Hn _]. apply Hn. rewrite <-Ex. by left.
    + intros q [->|Hq]%elem_of_cons Hst; [right; by left|]. destruct (H3 q Hq Hst) as [[->|?]%elem_of_cons|?]; [right; by left|by left|right; by right].
  - destruct (IH seen) as (H1 & H2 & H3). split; [|split; [done|]].
    + intros x Hx. destruct (H1 x Hx) as [Hn (q & Hq & ? & ?)]. split; [done|]. exists q. rewrite elem_of_cons. auto.
    + intros q [->|Hq]%elem_of_cons Hst; [|by apply H3]. rewrite Hst in E. apply negb_false_iff, bool_decide_eq_true in E. by left.
Qed.

Lemma missing_staff_none seen players : (forall p, p ∈ players -> staff_level p = true -> ToLower (pd_Name p) ∈ seen) -> missing_staff seen players = [].
Proof.
  intros Hall. destruct (missing_staff seen players) as [|x l] eqn:E; [done|]. exfalso.
  destruct (missing_staff_spec seen players) as (H1 & _ & _). rewrite E in H1. destruct (H1 x (list_elem_of_here _ _)) as [Hn (p & Hp & Hs & <-)].
  by apply Hn, Hall.
Qed.

Lemma custom_has_staff names players p : p ∈ players -> staff_level p = true -> fold_in (pd_Name p) (custom_names names players).
Proof.
  intros Hp Hs. unfold fold_in, custom_names. rewrite fmap_app, elem_of_app, sort_strings_perm.
  destruct (missing_staff_spec (ToLower <$> names) players) as (_ & _ & H3). by apply H3.
Qed.

(** (functional) the list of a private server keeps its invitations, in their order, and
    admits the registered staff: what is added is sorted, names staff only and nobody twice
    or who is invited already; every member of the staff is on the list, however the name
    is spelled; and writing the list again changes nothing. *)
Theorem private_list_keeps_invitations names players o ok : jo_CustomWhitelist o = true ->
  let list := custom_names names players in
  (forall sort_seen, WriteWhitelist sort_seen o ok (Invites names) players = written ok list) /\
  (exists added, list = names ++ added /\ StronglySorted String.le added /\ NoDup (ToLower <$> added) /\
     forall x, x ∈ added -> ~ fold_in x names /\ exists p, p ∈ players /\ staff_level p = true /\ pd_Name p = x) /\
  (forall p, p ∈ players -> staff_level p = true -> fold_in (pd_Name p) list) /\
  (forall sort_seen, WriteWhitelist sort_seen o ok (Invites list) players = written ok list).
Proof.
  intros Ho list. unfold WriteWhitelist. rewrite Ho. split; [done|]. split; [|split].
  - destruct (missing_staff_spec (ToLower <$> names) players) as (H1 & H2 & _). exists (sort_strings (missing_staff (ToLower <$> names) players)).
    split; [done|]. split; [apply (StronglySorted_merge_sort _)|]. split; [by rewrite sort_strings_perm|]. intros x Hx. rewrite elem_of_sort_strings in Hx. exact (H1 x Hx).
  - intros p. apply custom_has_staff.
  - intros _. cbn. f_equal. unfold custom_names at 1. rewrite missing_staff_none; [by rewrite app_nil_r|]. intros p Hp Hs. by apply custom_has_staff.
Qed.

(** (error) a list of invitations that cannot be read, or is no list, is not overwritten, and
    a list that cannot be written is left as it is; the number returned says so. *)
Theorem unreadable_invitations_are_kept sort_seen o ok file players : jo_CustomWhitelist o = true ->
  (file = Unreadable \/ file = NotJSON \/ ok = false) -> WriteWhitelist sort_seen o ok file players = (-1, Untouched).
Proof. intros Ho Hf. unfold WriteWhitelist. rewrite Ho. unfold writeCustomWhitelist, written. destruct Hf as [->|[->| ->]]; [done..|by destruct file]. Qed.
End private.

(** ** Examples *)
Module WhitelistDemo.
#[local] Existing Instance ascii_tables.

Definition seen_le (p q : PlayerData) : Prop := pd_LastSeen p <= pd_LastSeen q.
#[local] Instance seen_le_dec p q : Decision (seen_le p q) := decide (pd_LastSeen p <= pd_LastSeen q).
#[local] Instance seen_le_total : Total seen_le.
Proof. intros p q. unfold seen_le. lia. Qed.
#[local] Instance seen_le_trans : Transitive seen_le.
Proof. intros p q r. unfold seen_le. lia. Qed.
Definition by_seen : list PlayerData -> list PlayerData := merge_sort seen_le.

Definition player (name : string) (level seen : Z) : PlayerData := mkPlayer name level "" "" 0 seen 0 0 false 0.
Definition players : list PlayerData := [player "new" 0 9; player "old" 1 2; player "vet" 3 1; player "mod" 255 3; player "reg" 2 8].
Example members : whitelist_names by_seen (mkJoin false true false) players = ["mod"; "vet"; "reg"; "old"].
Proof. by vm_compute. Qed.
Example regulars : whitelist_names by_seen (mkJoin false false true) players = ["mod"; "vet"; "reg"].
Proof. by vm_compute. Qed.

Lemma whitelist_admits_the_latest_witness : exists (admitted left_out : list PlayerData),
  ["mod"; "vet"; "reg"; "old"] = pd_Name <$> admitted /\ length admitted = 4%nat /\ length left_out = 0%nat.
Proof.
  destruct (whitelist_admits_the_latest by_seen (fun l => merge_sort_Permutation seen_le l) (fun l => StronglySorted_merge_sort seen_le l) (mkJoin false true false) players)
    as (admitted & left_out & E & _ & Hq & _). exists admitted, left_out. rewrite members in E. split; [done|].
  apply (f_equal length) in E. rewrite length_fmap in E. split; [done|].
  destruct left_out as [|q l]; [done|]. destruct (Hq q (list_elem_of_here _ _)) as [Hm _]. rewrite <-E in Hm. by cbv in Hm.
Defined.

Example private : custom_names ["Ann"; "MOD"] (player "boss" 254 0 :: players) = ["Ann"; "MOD"; "boss"].
Proof. by vm_compute. Qed.
Lemma private_list_keeps_invitations_witness : custom_names ["Ann"] players = ["Ann"; "mod"] /\
  WriteWhitelist by_seen (mkJoin true false false) true (Invites ["Ann"; "mod"]) players = (2, Wrote ["Ann"; "mod"]).
Proof.
  assert (E : custom_names ["Ann"] players = ["Ann"; "mod"]) by (by vm_compute). split; [done|].
  destruct (private_list_keeps_invitations ["Ann"] players (mkJoin true false false) true eq_refl) as (_ & _ & _ & Hw). rewrite E in Hw. exact (Hw by_seen).
Defined.
Lemma unreadable_invitations_are_kept_witness : WriteWhitelist by_seen (mkJoin true false false) true NotJSON players = (-1, Untouched).
Proof. apply unreadable_invitations_are_kept; [reflexivity|right; left; reflexivity]. Defined.
End WhitelistDemo.
