(* ===== verification/Firewall.v ===== *)
(** * The firewall of the host: [src/firewall/firewall.go]

    Moderators may deny an address at the firewall of the host.  The tool that is run, the
    addresses of the host and the name server answer as [host] says; every command line
    that is run is recorded.  An address is the list of its bytes. *)
From Stdlib Require Import Ascii.
From S2P Require Import Prelude.
From S2P Require Import GoInt.
From S2P Require Import GoString.
From S2P Require Import GoPath.
From S2P Require Import GoTime.
From S2P Require Import Sanitize.

(** ** [net.ParseIP] *)
Definition dot_char : ascii := "."%char.
Definition colon : ascii := ":"%char.

(** A number of an IPv4 address: no leading zero, at most 255. *)
Definition octet (s : string) : option Z :=
  match s with
  | EmptyString => None
  | String c tl =>
      if Ascii.eqb c "0"%char && negb (bool_decide (tl = "")) then None
      else n ← digits_val 0 s; if n <=? 255 then Some n else None
  end.

Definition parseIPv4Fields (s : string) : option (list Z) :=
  match Split s dot_char with
  | [a; b; c; d] => a ← octet a; b ← octet b; c ← octet c; d ← octet d; Some [a; b; c; d]
  | _ => None
  end.

Definition hex_val (c : ascii) : option Z :=
  if is_digit c then Some (byte_val c - 48)
  else if in_range 97 102 c then Some (byte_val c - 87) else if in_range 65 70 c then Some (byte_val c - 55) else None.

(** The digits of a group, how many, and what follows; [None] for a fifth one. *)
Fixpoint hex_group (acc : Z) (off : nat) (s : string) : option (Z * nat * string) :=
  match s with
  | String c tl =>
      match hex_val c with
      | Some v => if (3 <? off)%nat then None else hex_group (acc * 16 + v) (S off) tl
      | None => Some (acc, off, s)
      end
  | EmptyString => Some (acc, off, s)
  end.

(** The loop of [parseIPv6]: the bytes so far, and where the ellipsis is. *)
Fixpoint groups6 (fuel : nat) (ip : list Z) (ellipsis : option nat) (s : string) : option (list Z * option nat) :=
  match fuel with
  | O => if bool_decide (s = "") then Some (ip, ellipsis) else None
  | S fuel =>
      '(acc, off, rest) ← hex_group 0 0 s;
      if (off =? 0)%nat then None
      else if HasPrefix rest "." then
        if bool_decide (ellipsis = None) && negb (length ip =? 12)%nat then None
        else if (12 <? length ip)%nat then None
        else v4 ← parseIPv4Fields s; Some (ip ++ v4, ellipsis)
      else
        let ip := ip ++ [acc / 256; acc mod 256] in
        match rest with
        | EmptyString => Some (ip, ellipsis)
        | String c s =>
            if negb (Ascii.eqb c colon) || bool_decide (s = "") then None
            else match s with
                 | String c' s' =>
                     if Ascii.eqb c' colon then
                       if negb (bool_decide (ellipsis = None)) then None
                       else if bool_decide (s' = "") then Some (ip, Some (length ip)) else groups6 fuel ip (Some (length ip)) s'
                     else groups6 fuel ip ellipsis s
                 | EmptyString => None
                 end
        end
  end.

Definition expand6 (ip : list Z) (ellipsis : option nat) : option (list Z) :=
  if (length ip <? 16)%nat then
    e ← ellipsis; Some (take e ip ++ replicate (16 - length ip) 0 ++ drop e ip)
  else match ellipsis with Some _ => None | None => Some ip end.

Definition parseIPv6 (s : string) : option (list Z) :=
  if HasPrefix s "::" then
    let s := string_drop 2 s in
    if bool_decide (s = "") then Some (replicate 16 0) else '(ip, e) ← groups6 8 [] (Some 0%nat) s; expand6 ip e
  else '(ip, e) ← groups6 8 [] None s; expand6 ip e.

Definition mapped_prefix : list Z := replicate 10 0 ++ [255; 255].

(** The first of the characters that tell the kinds apart. *)
Fixpoint first_mark (s : string) : option ascii :=
  match s with
  | EmptyString => None
  | String c tl => if existsb (Ascii.eqb c) [dot_char; colon; "%"%char] then Some c else first_mark tl
  end.

Definition ParseIP (s : string) : option (list Z) :=
  match first_mark s with
  | Some c =>
      if Ascii.eqb c dot_char then v4 ← parseIPv4Fields s; Some (mapped_prefix ++ v4)
      else if Ascii.eqb c colon then if ContainsAny s ["%"%char] then None else parseIPv6 s
      else None
  | None => None
  end.

Definition To4 (ip : list Z) : option (list Z) := if bool_decide (take 12 ip = mapped_prefix) then Some (drop 12 ip) else None.
(** [ip.String()] of an IPv4 address. *)
Definition ip_String (ip : list Z) : string := Join (Itoa <$> ip) ".".

(** ** The addresses that are not public *)
Definition blockedIPv4Ranges : list string :=
  ["0.0.0.0/8"; "10.0.0.0/8"; "100.64.0.0/10"; "127.0.0.0/8"; "169.254.0.0/16"; "172.16.0.0/12"; "192.0.0.0/24"; "192.0.2.0/24";
   "192.88.99.0/24"; "192.168.0.0/16"; "198.18.0.0/15"; "198.51.100.0/24"; "203.0.113.0/24"; "224.0.0.0/4"; "240.0.0.0/4"].

(** [net.CIDRMask(n, 32)] *)
Definition mask_byte (n : Z) : Z := 255 - 255 / 2 ^ (Z.max 0 (Z.min 8 n)).
Definition CIDRMask (n : Z) : list Z := [mask_byte n; mask_byte (n - 8); mask_byte (n - 16); mask_byte (n - 24)].

(** [net.ParseCIDR] of an IPv4 network. *)
Definition ParseCIDR (s : string) : option (list Z * list Z) :=
  match Split s "/"%char with
  | [addr; mask] =>
      ip ← parseIPv4Fields addr; n ← ParseUint mask;
      if n <=? 32 then Some (zip_with Z.land ip (CIDRMask n), CIDRMask n) else None
  | _ => None
  end.

Definition mustParseCIDRs (cidrs : list string) : list (list Z * list Z) := omap ParseCIDR cidrs.
Definition blockedIPv4Nets : list (list Z * list Z) := mustParseCIDRs blockedIPv4Ranges.

Definition Contains_ip (net : list Z * list Z) (ip : list Z) : bool := bool_decide (zip_with Z.land ip net.2 = zip_with Z.land net.1 net.2).
Definition isBlockedIPv4 (ip : list Z) : bool := existsb (fun blocked => Contains_ip blocked ip) blockedIPv4Nets.

(** ** The host *)
Inductive ufw_state := UFWPresent | UFWMissing | UFWUnknown (text : string).

(** A command line, with what it reads. *)
Record command_line := mkLine { cl_argv : list string; cl_stdin : string }.

Record host := mkHost {
  h_ufw : ufw_state; h_root : bool; h_sudo : bool;
  h_run : command_line -> result string string;      (* the output, or the error *)
  h_addrs : option (list (list Z));                  (* [net.InterfaceAddrs] *)
  h_lookup : string -> option (list (list Z));       (* [net.LookupIP] *)
  h_domain : string }.                               (* [cfg.Global.Paths.URLs.Domain] *)

Definition ufwPath : string := "/usr/sbin/ufw".

(** [slices.Compact] *)
Fixpoint Compact (l : list string) : list string :=
  match l with
  | x :: (y :: _) as tl => if bool_decide (x = y) then Compact tl else x :: Compact tl
  | _ => l
  end.

(** [strings.Fields] *)
Fixpoint fields_go (fuel : nat) (cur s : string) : list string :=
  let flush (l : list string) := if bool_decide (cur = "") then l else cur :: l in
  match fuel with
  | O => flush []
  | S fuel =>
      match trim_left1 s with
      | Some rest => flush (fields_go fuel "" rest)
      | None => match s with EmptyString => flush [] | String c tl => fields_go fuel (cur +:+ String c "") tl end
      end
  end.
Definition Fields (s : string) : list string := fields_go (S (String.length s)) "" s.

Section firewall.
Context `{UnicodeTables}.
Variable h : host.

(** What was run, and the result. *)
Definition runUFW (mutating : bool) (args : list string) : list command_line * result string string :=
  match h_ufw h with
  | UFWMissing => ([], Err ("UFW is not installed at " +:+ ufwPath))
  | UFWUnknown text => ([], Err ("unable to check UFW availability: " +:+ text))
  | UFWPresent =>
      let confirms := mutating && match args with a :: _ => EqualFold a "delete" | [] => false end in
      let stdin := if confirms then "y" +:+ String (ascii_of_nat 10) "" else "" in
      let run argv := let c := mkLine argv stdin in ([c], TrimSpace <$> h_run h c) in
      if h_root h then run (ufwPath :: args)
      else if negb (h_sudo h) then ([], Err "sudo is not installed, so ChatWire cannot run UFW")
      else run (["sudo"; "-n"; ufwPath] ++ args)
  end.

Definition deny_ip (line : string) : option string :=
  match Fields line with
  | _ :: action :: addr :: _ => if EqualFold action "DENY" then ip ← ParseIP addr; ip4 ← To4 ip; Some (ip_String ip4) else None
  | _ => None
  end.

Definition getCurrentUFWDenyIPs : list command_line * result string (list string) :=
  let '(ran, r) := runUFW false ["status"] in
  (ran,
   match r with
   | Err e => Err e
   | Ok output =>
       if Contains (ToLower output) "status: inactive" then Err "UFW is inactive"
       else Ok (Compact (sort_strings (omap deny_ip (Split output (ascii_of_nat 10)))))
   end).

(** [unicode.IsControl] *)
Definition IsControl (r : Z) : bool := between 0 31 r || between 127 159 r.
(** [strings.Map] that drops the control characters; an invalid byte becomes U+FFFD. *)
Fixpoint drop_controls (fuel : nat) (b : bytes) : bytes :=
  match fuel, b with
  | S fuel, _ :: tl =>
      match decode_rune b with
      | None => (byte_of <$> [239; 191; 189]) ++ drop_controls fuel tl
      | Some (r, n) => (if IsControl r then [] else take n b) ++ drop_controls fuel (drop n b)
      end
  | _, _ => []
  end.
Definition sanitizeIPInput (input : string) : string := TrimSpace (of_bytes (drop_controls (String.length input) (to_bytes input))).

Definition public4 (ip : list Z) : option string := ip4 ← To4 ip; if isBlockedIPv4 ip4 then None else Some (ip_String ip4).

Definition getLocalPublicIPv4s : option (list string) := addrs ← h_addrs h; Some (Compact (sort_strings (omap public4 addrs))).

Definition protectedDomains : list string :=
  let domain := TrimSpace (h_domain h) in
  "m45sci.xyz" :: (if negb (bool_decide (domain = "")) && negb (EqualFold domain "localhost") then [domain] else []).
Definition getProtectedDomainIPv4s : option (list string) :=
  ips ← mapM (h_lookup h) protectedDomains; Some (Compact (sort_strings (omap public4 (mjoin ips)))).

Definition validatePublicIPv4 (input : string) : result string (list Z) :=
  if bool_decide (input = "") then Err "You must supply an IP address."
  else
    match ParseIP input with
    | None => Err "That is not a valid IP address."
    | Some ip =>
        match To4 ip with
        | None => Err "Only IPv4 addresses are allowed."
        | Some ipv4 =>
            if isBlockedIPv4 ipv4 then Err "Only public IPv4 addresses are allowed."
            else
              match getLocalPublicIPv4s with
              | None => Err "Unable to verify the server's own IP addresses."
              | Some own =>
                  if bool_decide (ip_String ipv4 ∈ own) then Err "Refusing to ban this server's own IP address."
                  else
                    match getProtectedDomainIPv4s with
                    | None => Err "Unable to verify protected public domain IP addresses."
                    | Some protected =>
                        if bool_decide (ip_String ipv4 ∈ protected) then Err "Refusing to ban a protected public domain IP address."
                        else Ok ipv4
                    end
              end
        end
    end.
End firewall.

(** ** The limit *)
Definition firewallBurstGrace : Z := 4.
Definition firewallResetWindow : duration := 15 * Minute.
Definition firewallBaseDelay : duration := 10 * Second.
Definition firewallMaxDelay : duration := 15 * Minute.

Record firewallRateLimiter := mkLimiter { fl_streak : Z; fl_lastAction : time; fl_nextAllowed : time }.
Definition fresh_limiter : firewallRateLimiter := mkLimiter 0 zeroTime zeroTime.

Definition limiter_Check (now : time) (r : firewallRateLimiter) : option duration :=
  if Before now (fl_nextAllowed r) then Some (Sub (fl_nextAllowed r) now) else None.

(** [1 << shift] of a duration. *)
Definition one_shl (shift : Z) : Z := swrap 64 (2 ^ shift).
Definition delay_of (streak : Z) : duration :=
  let shift := streak - firewallBurstGrace - 1 in
  let delay := if 0 <? shift then swrap 64 (firewallBaseDelay * one_shl shift) else firewallBaseDelay in
  if firewallMaxDelay <? delay then firewallMaxDelay else delay.

Definition RecordSuccess (now : time) (r : firewallRateLimiter) : firewallRateLimiter :=
  let reset := IsZero (fl_lastAction r) || (firewallResetWindow <? Sub now (fl_lastAction r)) in
  let streak := (if reset then 0 else fl_streak r) + 1 in
  mkLimiter streak now (if streak <=? firewallBurstGrace then zeroTime else Add now (delay_of streak)).

(** ** [Execute] *)
Section execute.
Context `{UnicodeTables}.

(** [checked], [ended]: the times of the two calls of the limiter. *)
Record fw_call := mkFwCall { fc_action : string; fc_ip : string; fc_actor : string; fc_host : host; fc_checked : time; fc_ended : time }.

(** What was run, the result, and the audit line, if any. *)
Record fw_done := mkDone { fd_ran : list command_line; fd_result : result string string; fd_audit : option string }.

Definition mutate (c : fw_call) (ran : list command_line) (ip : list Z) (args : list string) (r : firewallRateLimiter) : fw_done * firewallRateLimiter :=
  let '(ran', out) := runUFW (fc_host c) true args in
  match out with
  | Err _ => (mkDone (ran ++ ran') (Err "UFW command failed; check passwordless sudo and instance logs") None, r)
  | Ok out =>
      (mkDone (ran ++ ran') (Ok out) (Some ("IP-" +:+ fc_action c +:+ " actor=" +:+ fc_actor c +:+ " ip=" +:+ ip_String ip)),
       RecordSuccess (fc_ended c) r)
  end.

Definition Execute (c : fw_call) (r : firewallRateLimiter) : fw_done * firewallRateLimiter :=
  let fails ran e := (mkDone ran (Err e) None, r) in
  if bool_decide (fc_action c = "list") then
    let '(ran, ips) := getCurrentUFWDenyIPs (fc_host c) in (mkDone ran ((fun ips => Join ips (String (ascii_of_nat 10) "")) <$> ips) None, r)
  else if negb (bool_decide (fc_action c = "ban")) && negb (bool_decide (fc_action c = "unban")) then fails [] "choose ban, unban, or list"
  else
    match validatePublicIPv4 (fc_host c) (sanitizeIPInput (fc_ip c)) with
    | Err msg => fails [] msg
    | Ok ip =>
        match limiter_Check (fc_checked c) r with
        | Some wait => fails [] ("firewall commands are cooling down; retry in " +:+ duration_String (Round wait Second))
        | None =>
            if bool_decide (fc_action c = "unban") then
              let '(ran, ips) := getCurrentUFWDenyIPs (fc_host c) in
              match ips with
              | Err _ => fails ran "unable to read firewall rules"
              | Ok ips =>
                  if negb (bool_decide (ip_String ip ∈ ips)) then fails ran "IP has no deny rule"
                  else mutate c ran ip ["delete"; "deny"; "from"; ip_String ip] r
              end
            else mutate c [] ip ["insert"; "1"; "deny"; "from"; ip_String ip] r
        end
    end.

(** [moderator.IPBan]: what the member is told. *)
Definition IPBan_answer (r : result string string) : string * string :=
  match r with
  | Err e => ("Error", e)
  | Ok out => ("Firewall", if bool_decide (out = "") then "No matching deny rules." else out)
  end.

(** Calls one after the other: [actionMu] is held over each of them. *)
Fixpoint execute_all (calls : list fw_call) (r : firewallRateLimiter) : list (fw_call * fw_done) * firewallRateLimiter :=
  match calls with
  | [] => ([], r)
  | c :: calls => let '(d, r) := Execute c r in let '(l, r) := execute_all calls r in ((c, d) :: l, r)
  end.
End execute.

(** ** Addresses *)
Definition is_byte (z : Z) : Prop := 0 <= z <= 255.

Lemma byte_in_seq n : is_byte n -> In (Z.to_nat n) (seq 0 256).
Proof. unfold is_byte. intros Hn. apply in_seq. split; [apply Nat.le_0_l|]. apply Nat2Z.inj_lt. rewrite Z2Nat.id by apply Hn. change (Z.of_nat (0 + 256)) with 256. lia. Qed.

Lemma octet_byte s n : octet s = Some n -> is_byte n.
Proof.
  unfold octet. destruct s as [|c tl]; [done|]. destruct (_ && _); [done|]. intros (m & Hm & Hn)%bind_Some.
  destruct (Z.leb_spec m 255); [|done]. injection Hn as <-. apply digits_val_range in Hm; [|lia]. unfold is_byte. lia.
Qed.
Lemma octet_Itoa n : is_byte n -> octet (Itoa n) = Some n.
Proof.
  intros Hn. assert (Hb : bool_decide (octet (Itoa (Z.of_nat (Z.to_nat n))) = Some (Z.of_nat (Z.to_nat n))) = true).
  { assert (Hall : forallb (fun k => bool_decide (octet (Itoa (Z.of_nat k)) = Some (Z.of_nat k))) (seq 0 256) = true) by (by vm_compute).
    rewrite forallb_forall in Hall. exact (Hall _ (byte_in_seq n Hn)). }
  apply bool_decide_eq_true in Hb. rewrite Z2Nat.id in Hb by (unfold is_byte in Hn; lia). exact Hb.
Qed.

Lemma parse4_bytes s ip : parseIPv4Fields s = Some ip -> length ip = 4%nat /\ Forall is_byte ip.
Proof.
  unfold parseIPv4Fields. intros Hs. repeat case_match; simplify_eq. repeat (apply bind_Some in Hs as (? & ?%octet_byte & Hs)). injection Hs as <-.
  split; [done|]. by repeat (apply Forall_cons; split; [done|]).
Qed.

(** What a ban of an address may not hit: the ranges that are reserved, private or not of
    single hosts. *)
Definition reserved (ip : list Z) : Prop :=
  match ip with
  | [a; b; c; d] =>
      a = 0 \/ a = 10 \/ (a = 100 /\ 64 <= b <= 127) \/ a = 127 \/ (a = 169 /\ b = 254) \/ (a = 172 /\ 16 <= b <= 31)
      \/ (a = 192 /\ b = 0 /\ c = 0) \/ (a = 192 /\ b = 0 /\ c = 2) \/ (a = 192 /\ b = 88 /\ c = 99) \/ (a = 192 /\ b = 168)
      \/ (a = 198 /\ 18 <= b <= 19) \/ (a = 198 /\ b = 51 /\ c = 100) \/ (a = 203 /\ b = 0 /\ c = 113) \/ 224 <= a <= 239 \/ 240 <= a <= 255
  | _ => False
  end.

Definition masked_between (m lo hi v x : Z) : bool := Bool.eqb (Z.land x m =? v) ((lo <=? x) && (x <=? hi)).
Lemma land_range m lo hi v x : forallb (fun k => masked_between m lo hi v (Z.of_nat k)) (seq 0 256) = true -> is_byte x ->
  Z.land x m = v <-> lo <= x <= hi.
Proof.
  intros Hall Hx. rewrite forallb_forall in Hall. specialize (Hall (Z.to_nat x) (byte_in_seq x Hx)).
  unfold is_byte in Hx. rewrite Z2Nat.id in Hall by lia. unfold masked_between in Hall. apply Bool.eqb_prop in Hall.
  by rewrite <-Z.eqb_eq, Hall, andb_true_iff, !Z.leb_le.
Qed.
Lemma byte_land_255 x : is_byte x -> Z.land x 255 = x.
Proof. intros Hx. unfold is_byte in Hx. change 255 with (Z.ones 8). rewrite Z.land_ones by done. apply Z.mod_small. lia. Qed.
Lemma or_iff_both (A B C D : Prop) : (A <-> C) -> (B <-> D) -> (A \/ B <-> C \/ D).
Proof. tauto. Qed.
(** Evaluate the masks of constants. *)
Ltac eval_masks :=
  repeat match goal with
  | |- context [Z.land (Zpos ?u) ?v] => let r := eval vm_compute in (Z.land (Zpos u) v) in change (Z.land (Zpos u) v) with r
  | |- context [Z.land 0 ?v] => change (Z.land 0 v) with 0
  end.

Definition blocked_nets : list (list Z * list Z) := Eval vm_compute in blockedIPv4Nets.
Lemma blocked_nets_eq : blockedIPv4Nets = blocked_nets.
Proof. by vm_compute. Qed.

Lemma list4_eq (a b c d a' b' c' d' : Z) : [a; b; c; d] = [a'; b'; c'; d'] <-> a = a' /\ b = b' /\ c = c' /\ d = d'.
Proof. split; [by intros [= -> -> -> ->]|by intros (-> & -> & -> & ->)]. Qed.

Lemma Contains4 a b c d na nb nc nd ma mb mc md :
  Contains_ip ([na; nb; nc; nd], [ma; mb; mc; md]) [a; b; c; d] = true <->
  Z.land a ma = Z.land na ma /\ Z.land b mb = Z.land nb mb /\ Z.land c mc = Z.land nc mc /\ Z.land d md = Z.land nd md.
Proof. unfold Contains_ip. rewrite bool_decide_eq_true. apply list4_eq. Qed.

(** The networks of the table are exactly the reserved ranges. *)
Lemma isBlockedIPv4_reserved ip : length ip = 4%nat -> Forall is_byte ip -> isBlockedIPv4 ip = true <-> reserved ip.
Proof.
  intros Hl Hb. destruct ip as [|a [|b [|c [|d [|]]]]]; try done. rewrite !Forall_cons in Hb. destruct Hb as (Ha & Hb & Hc & Hd & _).
  unfold isBlockedIPv4. rewrite blocked_nets_eq. unfold blocked_nets. cbn [existsb]. rewrite !orb_true_iff, !Contains4.
  rewrite !Z.land_0_r, !(byte_land_255 a), !(byte_land_255 b), !(byte_land_255 c) by done. eval_masks.
  rewrite (land_range 192 64 127 64 b), (land_range 240 16 31 16 b), (land_range 254 18 19 18 b), (land_range 240 224 239 224 a), (land_range 240 240 255 240 a)
    by first [done|by vm_compute].
  unfold reserved. repeat (apply or_iff_both; [clear; tauto|]). split; [by intros [(? & _)|?]|by left].
Qed.

(** ** What may be denied *)
Lemma Compact_elem x l : x ∈ Compact l <-> x ∈ l.
Proof.
  induction l as [|a l IH]; [done|]. destruct l as [|b l]; [done|]. cbn [Compact] in *. case_bool_decide as E; rewrite ?elem_of_cons, ?IH, ?elem_of_cons; [|done].
  subst. tauto.
Qed.

Lemma To4_drop ip ip4 : To4 ip = Some ip4 -> ip4 = drop 12 ip.
Proof. unfold To4. case_bool_decide; [|done]. by intros [= <-]. Qed.

(** The bytes of an address that was read are bytes. *)
Lemma hex_group_range acc off s acc' off' rest : hex_group acc off s = Some (acc', off', rest) ->
  0 <= acc < 16 ^ Z.of_nat off -> (off <= 4)%nat -> 0 <= acc' < 65536.
Proof.
  revert acc off. induction s as [|c s IH]; intros acc off; cbn [hex_group].
  { intros [= <- <- <-] Ha Ho. pose proof (Z.pow_le_mono_r 16 (Z.of_nat off) 4 ltac:(lia) ltac:(lia)). change (16 ^ 4) with 65536 in *. lia. }
  destruct (hex_val c) as [v|] eqn:Ev.
  - destruct (3 <? off)%nat eqn:Eo; [done|]. intros Hs Ha Ho. eapply IH; [exact Hs| |apply Nat.ltb_ge in Eo; lia].
    assert (Hv : 0 <= v < 16). { unfold hex_val, is_digit, in_range in Ev. repeat case_match; simplify_eq; bool_hyps; lia. }
    rewrite Nat2Z.inj_succ, Z.pow_succ_r by lia. nia.
  - intros [= <- <- <-] Ha Ho. pose proof (Z.pow_le_mono_r 16 (Z.of_nat off) 4 ltac:(lia) ltac:(lia)). change (16 ^ 4) with 65536 in *. lia.
Qed.

Lemma groups6_bytes fuel ip e s ip' e' : groups6 fuel ip e s = Some (ip', e') -> Forall is_byte ip -> Forall is_byte ip'.
Proof.
  revert ip e s. induction fuel as [|fuel IH]; intros ip e s; cbn [groups6]; [case_bool_decide; [by intros [= <- <-]|done]|].
  intros ([[acc off] rest] & Hg & Hs)%bind_Some Hip. apply hex_group_range in Hg; [|cbn; lia|lia]. revert Hs. destruct (off =? 0)%nat; [done|].
  assert (Hnew : Forall is_byte (ip ++ [acc / 256; acc mod 256])).
  { apply Forall_app. split; [done|]. unfold is_byte. repeat (apply Forall_cons; split; [div_lia|]). constructor. }
  destruct (HasPrefix rest ".").
  - do 2 (case_match; [done|]). intros (v4 & [_ Hv]%parse4_bytes & [= <- <-])%bind_Some. by apply Forall_app.
  - destruct rest as [|c s']; [by intros [= <- <-]|]. case_match; [done|]. destruct s' as [|c' s']; [done|].
    case_match; [|intros Hs; by eapply IH]. case_match; [done|]. case_match; [by intros [= <- <-]|intros Hs; by eapply IH].
Qed.

Lemma ParseIP_bytes s ip16 ip : ParseIP s = Some ip16 -> To4 ip16 = Some ip -> Forall is_byte ip.
Proof.
  intros Hp ->%To4_drop. apply Forall_drop. revert Hp. unfold ParseIP.
  assert (Hz : forall n, Forall is_byte (replicate n 0)) by (intros n; apply Forall_replicate; unfold is_byte; lia).
  assert (Hex : forall l e k, Forall is_byte l -> expand6 l e = Some k -> Forall is_byte k).
  { intros l e k Hl. unfold expand6. case_match; [|by destruct e; intros [= <-]]. intros (n & _ & [= <-])%bind_Some. rewrite !Forall_app.
    split; [by apply Forall_take|]. split; [apply Hz|by apply Forall_drop]. }
  destruct (first_mark s) as [c|]; [|done]. case_match.
  - intros (v4 & [_ Hv]%parse4_bytes & [= <-])%bind_Some. apply (Forall_app_2 is_byte mapped_prefix v4); [|done]. unfold mapped_prefix, is_byte. cbn.
    repeat (apply Forall_cons; split; [lia|]). constructor.
  - case_match; [|done]. case_match; [done|]. unfold parseIPv6. case_match.
    + case_match; [intros [= <-]; exact (Hz 16%nat)|]. intros ([l e] & Hg & He)%bind_Some. eapply Hex, He. by eapply groups6_bytes.
    + intros ([l e] & Hg & He)%bind_Some. eapply Hex, He. by eapply groups6_bytes.
Qed.

Section safety.
Context `{UnicodeTables}.

(** An address that a member may deny: it is what the input is read as, it is public, and
    the addresses of the host and of every protected domain were found out and do not hold
    it. *)
Record bannable (h : host) (input : string) (ip : list Z) : Prop := mkBannable {
  bn_input : exists ip16, ParseIP (sanitizeIPInput input) = Some ip16 /\ To4 ip16 = Some ip;
  bn_public : ~ reserved ip;
  bn_own : exists addrs, h_addrs h = Some addrs /\ forall addr, addr ∈ addrs -> To4 addr <> Some ip;
  bn_protected : forall domain, domain ∈ protectedDomains h ->
    exists ips, h_lookup h domain = Some ips /\ forall addr, addr ∈ ips -> To4 addr <> Some ip }.

Lemma public4_listed addrs addr ip : addr ∈ addrs -> To4 addr = Some ip -> isBlockedIPv4 ip = false -> ip_String ip ∈ Compact (sort_strings (omap public4 addrs)).
Proof.
  intros Ha Ht Hb. apply Compact_elem, elem_of_sort_strings, list_elem_of_omap. exists addr. split; [done|]. unfold public4. rewrite Ht.
  transitivity (if isBlockedIPv4 ip then None else Some (ip_String ip)); [done|]. by rewrite Hb.
Qed.

Lemma mapM_elem {A B} (f : A -> option B) l k x : mapM f l = Some k -> x ∈ l -> exists y, f x = Some y /\ y ∈ k.
Proof.
  revert k. induction l as [|a l IH]; intros k Hm Hx; [by apply elem_of_nil in Hx|]. cbn in Hm. apply bind_Some in Hm as (y & Hy & Hm).
  apply bind_Some in Hm as (k' & Hk & [= <-]). apply elem_of_cons in Hx as [->|Hx]; [exists y; split; [done|by left]|].
  destruct (IH k' Hk Hx) as (z & Hz & Hin). exists z. split; [done|by right].
Qed.

Lemma validate_bannable h input ip : validatePublicIPv4 h (sanitizeIPInput input) = Ok ip -> bannable h input ip.
Proof.
  unfold validatePublicIPv4. case_bool_decide; [done|]. destruct (ParseIP _) as [ip16|] eqn:Ep; [|done]. destruct (To4 ip16) as [ip4|] eqn:E4; [|done].
  destruct (isBlockedIPv4 ip4) eqn:Eb; [done|].
  destruct (getLocalPublicIPv4s h) as [own|] eqn:Eo; [|done]. case_bool_decide as Ho; [done|].
  destruct (getProtectedDomainIPv4s h) as [prot|] eqn:Em; [|done]. case_bool_decide as Hp; [done|]. intros E. injection E as <-.
  apply bind_Some in Eo as (addrs & Ea & Eo%(inj Some)). apply bind_Some in Em as (ips & Em & Ep'%(inj Some)). subst own prot.
  split; [by eexists| | |].
  - intros Hr. assert (Hl : length ip4 = 4%nat) by (by destruct ip4 as [|? [|? [|? [|? [|]]]]]). apply isBlockedIPv4_reserved in Hr; [congruence|done|].
    by eapply ParseIP_bytes.
  - exists addrs. split; [done|]. intros addr Hin Ht. apply Ho. by eapply public4_listed.
  - intros domain Hd. destruct (mapM_elem _ _ _ domain Em Hd) as (l & Hl & Hk). exists l. split; [done|]. intros addr Hin Ht. apply Hp.
    eapply public4_listed; [|exact Ht|done]. apply list_elem_of_join. by exists l.
Qed.

(** A command line of the tool, with these arguments. *)
Definition runs_ufw (args : list string) (line : command_line) : Prop := cl_argv line = ufwPath :: args \/ cl_argv line = ["sudo"; "-n"; ufwPath] ++ args.

Lemma runUFW_lines h mutating args line : line ∈ (runUFW h mutating args).1 -> runs_ufw args line.
Proof.
  unfold runUFW, runs_ufw. destruct (h_ufw h); [|by intros ?%elem_of_nil..]. destruct (h_root h); [intros ->%list_elem_of_singleton; by left|].
  destruct (h_sudo h); [intros ->%list_elem_of_singleton; by right|by intros ?%elem_of_nil].
Qed.
Lemma denied_lines h line : line ∈ (getCurrentUFWDenyIPs h).1 -> runs_ufw ["status"] line.
Proof. unfold getCurrentUFWDenyIPs. destruct (runUFW h false ["status"]) as [ran r] eqn:E. cbn. intros Hl. apply (runUFW_lines h false). by rewrite E. Qed.

Lemma mutate_lines c ran ip args r line : line ∈ fd_ran (mutate c ran ip args r).1 -> line ∈ ran \/ runs_ufw args line.
Proof.
  unfold mutate. destruct (runUFW _ _ _) as [ran' out] eqn:E. destruct out; cbn; rewrite elem_of_app; (intros [?|Hl]; [by left|]); right;
    apply (runUFW_lines (fc_host c) true); by rewrite E.
Qed.

(** The rule that a call may make, and the deny rule that one may remove. *)
Definition change_of (c : fw_call) (ip : list Z) (args : list string) : Prop :=
  (fc_action c = "ban" /\ args = ["insert"; "1"; "deny"; "from"; ip_String ip]) \/
  (fc_action c = "unban" /\ args = ["delete"; "deny"; "from"; ip_String ip] /\
   exists ips, (getCurrentUFWDenyIPs (fc_host c)).2 = Ok ips /\ ip_String ip ∈ ips).

(** C19: (safety) whatever a moderator enters, the tool of the firewall is run for nothing but its
    status, to list or to unban, and the rule that was asked for, of one IPv4 address: a ban
    inserts its rule, an unban deletes one that the status shows, and another action runs
    nothing.  The address is the one that the input, with its control characters dropped,
    is read as; it is in none of the ranges that are not public; the addresses of this host
    and those of every protected domain could be found out, and it is none of them; and the
    limiter let the call through. *)
Theorem only_public_addresses_denied c r line : line ∈ fd_ran (Execute c r).1 ->
  (runs_ufw ["status"] line /\ fc_action c = "list") \/
  exists ip, bannable (fc_host c) (fc_ip c) ip /\ limiter_Check (fc_checked c) r = None /\
    ((runs_ufw ["status"] line /\ fc_action c = "unban") \/ exists args, runs_ufw args line /\ change_of c ip args).
Proof.
  unfold Execute. case_bool_decide as Hlist.
  { intros Hl. left. split; [|done]. apply (denied_lines (fc_host c)). by destruct (getCurrentUFWDenyIPs _). }
  destruct (negb _ && negb _) eqn:Ea; [by intros ?%elem_of_nil|]. destruct (validatePublicIPv4 _ _) as [ip|] eqn:Ev; [|by intros ?%elem_of_nil].
  apply validate_bannable in Ev. destruct (limiter_Check _ _) eqn:Ec; [by intros ?%elem_of_nil|]. intros Hran. right. exists ip. split; [done|]. split; [done|]. revert Hran.
  destruct (bool_decide_reflect (fc_action c = "unban")) as [Hu|Hu].
  - pose proof (denied_lines (fc_host c)) as Hst. destruct (getCurrentUFWDenyIPs (fc_host c)) as [ran [ips|e]] eqn:Eg; cbn [fst] in Hst; [|intros Hl; left; split; [by apply Hst|done]].
    destruct (bool_decide_reflect (ip_String ip ∈ ips)) as [Hin|Hin]; cbn [negb]; [|intros Hl; left; split; [by apply Hst|done]]. intros [Hl|Hl]%mutate_lines; [left; split; [by apply Hst|done]|].
    right. eexists. split; [exact Hl|]. right. rewrite Eg. split; [done|]. split; [done|]. by exists ips.
  - intros [?%elem_of_nil|Hl]%mutate_lines; [done|]. right. eexists. split; [exact Hl|]. left. split; [|done].
    destruct (decide (fc_action c = "ban")) as [|Hb]; [done|]. by rewrite (bool_decide_eq_false_2 _ Hb) in Ea.
Qed.
End safety.

(** ** How often *)

(** Successful changes: the time at which the limiter was asked and the time at which the
    change had ended. *)
Fixpoint changes_run (l : list (time * time)) (r : firewallRateLimiter) : option firewallRateLimiter :=
  match l with
  | [] => Some r
  | (checked, ended) :: l => match limiter_Check checked r with Some _ => None | None => changes_run l (RecordSuccess ended r) end
  end.

(** Each change takes time, and comes after the one before. *)
Fixpoint in_turn (last : time) (l : list (time * time)) : Prop :=
  match l with
  | [] => True
  | (checked, ended) :: l => last <= checked /\ checked < ended /\ modern checked /\ modern ended /\ in_turn ended l
  end.

(** The delay after the change with this number. *)
Definition delay_spec (streak : Z) : duration := if streak <=? 4 then 0 else Z.min (10 * Second * 2 ^ (streak - 5)) (15 * Minute).

Record limiter_inv (now : time) (r : firewallRateLimiter) : Prop := mkLimInv {
  lm_streak : 0 <= fl_streak r <= 12;
  lm_last : fl_lastAction r <= now;
  lm_modern : fl_streak r = 0 \/ modern (fl_lastAction r);
  lm_fresh : fl_streak r = 0 -> fl_lastAction r = zeroTime;
  lm_next : if fl_streak r <=? 4 then fl_nextAllowed r = zeroTime else fl_nextAllowed r = fl_lastAction r + delay_spec (fl_streak r) }.

Lemma delay_of_spec s : 5 <= s <= 12 -> delay_of s = delay_spec s.
Proof.
  intros Hs. assert (Hin : s ∈ [5; 6; 7; 8; 9; 10; 11; 12]) by (rewrite !elem_of_cons, elem_of_nil; lia).
  revert s Hs Hin. assert (Hall : Forall (fun s => delay_of s = delay_spec s) [5; 6; 7; 8; 9; 10; 11; 12]) by (repeat (apply Forall_cons; split; [by vm_compute|]); constructor).
  intros s _ Hin. rewrite Forall_forall in Hall. by apply Hall.
Qed.

(** A change that is let through: the streak goes on, after the delay, or starts again, after
    more than a quarter of an hour. *)
Lemma change_step now r checked ended : limiter_inv now r -> now <= checked -> checked < ended -> modern checked -> modern ended ->
  limiter_Check checked r = None ->
  limiter_inv ended (RecordSuccess ended r) /\ fl_lastAction (RecordSuccess ended r) = ended /\
  ((fl_streak (RecordSuccess ended r) = 1 /\ (fl_streak r = 0 \/ 15 * Minute < ended - fl_lastAction r)) \/
   (fl_streak (RecordSuccess ended r) = fl_streak r + 1 /\ 1 <= fl_streak r /\ delay_spec (fl_streak r) < ended - fl_lastAction r)).
Proof.
  intros [Hs Hl Hm Hf Hn] H1 H2 Hc He Hchk. unfold limiter_Check, Before in Hchk. destruct (checked <? fl_nextAllowed r) eqn:Eb; [done|]. clear Hchk.
  unfold RecordSuccess. set (reset := IsZero (fl_lastAction r) || (firewallResetWindow <? Sub ended (fl_lastAction r))).
  assert (Hsub : forall t, modern t -> Sub ended t = ended - t).
  { intros t Ht. unfold Sub, clamp_duration, modern, maxDuration, minDuration in *. lia. }
  assert (Hreset : reset = true -> fl_streak r = 0 \/ 15 * Minute < ended - fl_lastAction r).
  { unfold reset, IsZero. intros Hr. destruct Hm as [|Hm]; [by left|]. right. rewrite Hsub in Hr by done. unfold firewallResetWindow, zeroTime, modern in *. lia. }
  assert (Hno : reset = false -> 1 <= fl_streak r /\ modern (fl_lastAction r) /\ ended - fl_lastAction r <= 15 * Minute).
  { unfold reset, IsZero. intros Hr. destruct (decide (fl_streak r = 0)) as [E|E]; [rewrite (Hf E), Z.eqb_refl in Hr; done|]. destruct Hm as [|Hm]; [done|].
    rewrite Hsub in Hr by done. unfold firewallResetWindow in Hr. split; [lia|]. split; [done|]. lia. }
  set (streak := (if reset then 0 else fl_streak r) + 1).
  assert (Hst : 1 <= streak <= 12).
  { unfold streak. destruct reset eqn:Er; [lia|]. destruct (Hno eq_refl) as (? & ? & Hle). split; [lia|]. destruct (decide (fl_streak r = 12)) as [E|]; [|lia]. exfalso.
    rewrite E in Hn. change (12 <=? 4) with false in Hn. change (delay_spec 12) with (15 * Minute) in Hn. cbn in Hn. lia. }
  split; [|split; [done|]].
  - split; cbn; [lia|lia|by right|lia|]. unfold firewallBurstGrace. destruct (streak <=? 4) eqn:E4; [done|]. unfold Add. by rewrite delay_of_spec by lia.
  - cbn. unfold streak. destruct reset eqn:Er; [left; split; [lia|by apply Hreset]|]. right. destruct (Hno eq_refl) as (Hpos & Hmod & _). split; [lia|]. split; [done|].
    revert Hn. unfold delay_spec. destruct (fl_streak r <=? 4); lia.
Qed.

(** The least time that this many changes take after one with a given number, if none of
    them comes after a pause. *)
Fixpoint least_time (n : nat) (streak : Z) : Z := match n with O => 0 | S n => delay_spec streak + least_time n (streak + 1) end.

Lemma changes_later l : forall r r', in_turn (fl_lastAction r) l -> changes_run l r = Some r' -> fl_lastAction r <= fl_lastAction r'.
Proof.
  induction l as [|[checked ended] l IH]; intros r r' Ht Hr; cbn in *; [by injection Hr as <-|]. destruct Ht as (H1 & H2 & _ & _ & Ht).
  destruct (limiter_Check checked r); [done|]. specialize (IH (RecordSuccess ended r) r' Ht Hr). cbn in IH. lia.
Qed.

Lemma window_bound l : forall now r r', limiter_inv now r -> 1 <= fl_streak r -> fl_lastAction r = now -> in_turn now l -> changes_run l r = Some r' ->
  limiter_inv (fl_lastAction r') r' /\ 1 <= fl_streak r' /\
  (15 * Minute < fl_lastAction r' - now \/ (fl_streak r' = fl_streak r + Z.of_nat (length l) /\ least_time (length l) (fl_streak r) <= fl_lastAction r' - now)).
Proof.
  induction l as [|[checked ended] l IH]; intros now r r' Hi Hs Hn Ht Hr; cbn in *.
  { injection Hr as <-. rewrite Hn. split; [done|]. split; [done|]. right. lia. }
  destruct Ht as (H1 & H2 & Hc & He & Ht). destruct (limiter_Check checked r) eqn:Ec; [done|].
  destruct (change_step now r checked ended Hi H1 H2 Hc He Ec) as (Hi' & Hl' & Hcase).
  assert (Hs' : 1 <= fl_streak (RecordSuccess ended r)) by lia.
  destruct (IH ended _ r' Hi' Hs' Hl' Ht Hr) as (Hir & Hsr & Hw). split; [done|]. split; [done|].
  assert (Hge : ended <= fl_lastAction r') by (rewrite <-Hl' in Ht |- *; by apply (changes_later l)).
  rewrite Hn in Hcase. destruct Hcase as [[_ Hp]|(E & _ & Hd)]; [left; lia|]. destruct Hw as [?|[Es Hlt]]; [left; lia|]. right. rewrite E in *. lia.
Qed.

Lemma least_time_bound s : 1 <= s <= 12 -> 15 * Minute < least_time 11 s.
Proof.
  intros Hs. assert (Hall : forallb (fun k => 15 * Minute <? least_time 11 (Z.of_nat k)) (seq 1 12) = true) by (by vm_compute).
  rewrite forallb_forall in Hall. specialize (Hall (Z.to_nat s) ltac:(apply in_seq; clear Hall; lia)). rewrite Z2Nat.id in Hall by lia. by apply Z.ltb_lt in Hall.
Qed.

Lemma fresh_inv now : zeroTime <= now -> limiter_inv now fresh_limiter.
Proof. intros Hn. split; cbn; [lia|done|by left|done|done]. Qed.

Lemma changes_app l1 l2 r : changes_run (l1 ++ l2) r = changes_run l1 r ≫= changes_run l2.
Proof. revert r. induction l1 as [|[c e] l1 IH]; intros r; [done|]. cbn. destruct (limiter_Check c r); [done|apply IH]. Qed.
Lemma in_turn_app l1 l2 last : in_turn last (l1 ++ l2) -> in_turn last l1 /\ in_turn (default last (snd <$> list.last l1)) l2.
Proof.
  revert last. induction l1 as [|[c e] l1 IH]; intros last; [done|]. cbn [app in_turn]. intros (H1 & H2 & Hc & He & Ht%IH). split; [tauto|].
  destruct Ht as [_ Ht]. rewrite last_cons. by destruct (list.last l1).
Qed.
Lemma in_turn_sublist l l' last last' : sublist l' l -> last' <= last -> in_turn last l -> in_turn last' l'.
Proof.
  intros Hs. revert last last'. induction Hs as [|[c e] l' l Hs IH|[c e] l' l Hs IH]; intros last last' Hle; cbn; [done| |].
  - intros (H1 & H2 & Hc & He & Ht). split; [lia|]. split; [done|]. split; [done|]. split; [done|]. by apply (IH e).
  - intros (H1 & H2 & Hc & He & Ht). apply (IH e); [lia|done].
Qed.

(** The limiter after some changes, and the time of the last. *)
Lemma changes_inv l : forall now r r', limiter_inv now r -> in_turn now l -> changes_run l r = Some r' -> limiter_inv (default now (snd <$> list.last l)) r'.
Proof.
  induction l as [|[c e] l IH]; intros now r r' Hi Ht Hr; cbn in *; [by injection Hr as <-|]. destruct Ht as (H1 & H2 & Hc & He & Ht).
  destruct (limiter_Check c r) eqn:Ec; [done|]. destruct (change_step now r c e Hi H1 H2 Hc He Ec) as (Hi' & _ & _).
  specialize (IH e _ r' Hi' Ht Hr). rewrite last_cons. by destruct (list.last l).
Qed.
Lemma changes_last l r r' : changes_run l r = Some r' -> fl_lastAction r' = default (fl_lastAction r) (snd <$> list.last l).
Proof.
  revert r. induction l as [|[c e] l IH]; intros r; cbn; [by intros [= <-]|]. destruct (limiter_Check c r); [done|]. intros Hr%IH. rewrite Hr, last_cons.
  by destruct (list.last l).
Qed.

Section executions.
Context `{UnicodeTables}.

Definition call_times (c : fw_call) : time * time := (fc_checked c, fc_ended c).
(** The calls that changed the rules. *)
Definition changed (l : list (fw_call * fw_done)) : list (time * time) :=
  omap (fun cd => match fd_audit cd.2 with Some _ => Some (call_times cd.1) | None => None end) l.

Lemma Execute_limiter c r : match fd_audit (Execute c r).1 with
  | Some _ => limiter_Check (fc_checked c) r = None /\ (Execute c r).2 = RecordSuccess (fc_ended c) r
  | None => (Execute c r).2 = r
  end.
Proof.
  assert (Hm : limiter_Check (fc_checked c) r = None -> forall ran ip args, match fd_audit (mutate c ran ip args r).1 with
    | Some _ => limiter_Check (fc_checked c) r = None /\ (mutate c ran ip args r).2 = RecordSuccess (fc_ended c) r
    | None => (mutate c ran ip args r).2 = r end).
  { intros Hc ran ip args. unfold mutate. destruct (runUFW _ _ _) as [ran' [out|e]]; done. }
  unfold Execute. case_bool_decide; [by destruct (getCurrentUFWDenyIPs _)|]. destruct (negb _ && negb _); [done|].
  destruct (validatePublicIPv4 _ _); [|done]. destruct (limiter_Check (fc_checked c) r) eqn:Ec; [done|].
  case_bool_decide; [|by apply Hm]. destruct (getCurrentUFWDenyIPs _) as [ran [ips|]]; [|done]. destruct (negb _); [done|by apply Hm].
Qed.

Lemma changed_cons c d l : changed ((c, d) :: l) = match fd_audit d with Some _ => call_times c :: changed l | None => changed l end.
Proof. unfold changed. cbn. by destruct (fd_audit d). Qed.

Lemma execute_all_changes calls : forall r, changes_run (changed (execute_all calls r).1) r = Some (execute_all calls r).2 /\
  sublist (changed (execute_all calls r).1) (call_times <$> calls).
Proof.
  induction calls as [|c calls IH]; intros r; [by split|]. cbn [execute_all]. pose proof (Execute_limiter c r) as Hl. destruct (Execute c r) as [d r1]. cbn in Hl.
  specialize (IH r1). destruct (execute_all calls r1) as [l r2]. cbn [fst snd fmap list_fmap] in *. rewrite changed_cons. destruct (fd_audit d).
  - destruct Hl as [Hc ->]. unfold call_times at 1. cbn [changes_run]. rewrite Hc. destruct IH as [IH1 IH2]. split; [done|]. by constructor.
  - subst r1. destruct IH as [IH1 IH2]. split; [done|]. by constructor.
Qed.

(** C20: (bounds) however often the firewall is asked for, from the start of the program: of its
    successful changes, twelve in a row always take more than a quarter of an hour; the
    streak never exceeds twelve, so the delay, whose shift overflows from sixty-three on,
    is always the doubled delay, cut at a quarter of an hour. *)
Theorem firewall_changes_are_limited calls before first twelve after :
  in_turn 0 (call_times <$> calls) -> changed (execute_all calls fresh_limiter).1 = before ++ first :: twelve ++ after -> length twelve = 11%nat ->
  (exists final, list.last twelve = Some final /\ 15 * Minute < final.2 - first.2) /\
  fl_streak (execute_all calls fresh_limiter).2 <= 12 /\
  forall s, 5 <= s <= fl_streak (execute_all calls fresh_limiter).2 -> delay_of s = Z.min (10 * Second * 2 ^ (s - 5)) (15 * Minute).
Proof.
  intros Ht Hch Hlen. destruct (execute_all_changes calls fresh_limiter) as [Hrun Hsub]. apply (in_turn_sublist _ _ 0 0 Hsub) in Ht; [|lia].
  assert (Hf : limiter_inv 0 fresh_limiter) by (by apply fresh_inv). pose proof (changes_inv _ 0 _ _ Hf Ht Hrun) as [Hstreak _ _ _ _].
  split; [|split; [lia|]].
  2:{ intros s Hs. rewrite delay_of_spec by lia. unfold delay_spec. by rewrite (proj2 (Z.leb_gt s 4)) by lia. }
  rewrite Hch in Ht, Hrun. clear Hch Hsub Hstreak. apply in_turn_app in Ht as [Hb Ht]. rewrite changes_app in Hrun. apply bind_Some in Hrun as (r1 & Hr1 & Hrun).
  pose proof (changes_inv _ 0 _ _ Hf Hb Hr1) as Hi1.  destruct first as [c e]. cbn [in_turn changes_run] in Ht, Hrun.
  destruct Ht as (H1 & H2 & Hc & He & Ht). destruct (limiter_Check c r1) eqn:Ec; [done|].
  destruct (change_step _ r1 c e Hi1 H1 H2 Hc He Ec) as (Hi2 & Hl2 & Hcase). apply in_turn_app in Ht as [Htw _]. rewrite changes_app in Hrun.
  apply bind_Some in Hrun as (r3 & Hr3 & _). assert (Hs2 : 1 <= fl_streak (RecordSuccess e r1)) by lia.
  destruct (window_bound twelve e _ r3 Hi2 Hs2 Hl2 Htw Hr3) as (_ & _ & Hw). apply changes_last in Hr3.
  destruct (list.last twelve) as [final|] eqn:El; [|apply last_None in El; by subst]. exists final. split; [done|]. cbn in Hr3 |- *. rewrite Hr3 in Hw. rewrite Hlen in Hw.
  destruct Hw as [?|[_ Hw]]; [done|]. destruct Hi2 as [Hs12 _ _ _ _]. pose proof (least_time_bound _ (conj Hs2 (proj2 Hs12))). lia.
Qed.
End executions.

(** ** Examples *)
Module FirewallDemo.
#[local] Existing Instance ascii_tables.

Example parses : ParseIP "203.0.113.9" = Some (mapped_prefix ++ [203; 0; 113; 9]). Proof. by vm_compute. Qed.
Example no_leading_zero : ParseIP "8.8.8.08" = None. Proof. by vm_compute. Qed.
Example parses_six : ParseIP "2001:db8::a:1" = Some [32; 1; 13; 184; 0; 0; 0; 0; 0; 0; 0; 0; 0; 10; 0; 1]. Proof. by vm_compute. Qed.
Example mapped : (ParseIP "::ffff:8.8.4.4" ≫= To4) = Some [8; 8; 4; 4]. Proof. by vm_compute. Qed.

Definition answers (c : command_line) : result string string :=
  if bool_decide (last (cl_argv c) = Some "status")
  then Ok (Join ["Status: active"; "To   Action  From"; "Anywhere DENY 8.8.4.4"; "22/tcp ALLOW Anywhere"] (String (ascii_of_nat 10) "")) else Ok "Rule inserted".
Definition server : host := mkHost UFWPresent false true answers (Some [mapped_prefix ++ [9; 9; 9; 9]]) (fun _ => Some []) "".
Definition ban (ip : string) (checked ended : time) : fw_call := mkFwCall "ban" ip "42" server checked ended.
Definition start : time := 1700000000 * Second.

Example bans : (Execute (ban " 8.8.8.8 " start (start + 1)) fresh_limiter).1 =
  mkDone [mkLine ["sudo"; "-n"; ufwPath; "insert"; "1"; "deny"; "from"; "8.8.8.8"] ""] (Ok "Rule inserted") (Some "IP-ban actor=42 ip=8.8.8.8").
Proof. by vm_compute. Qed.
Example own_is_refused : fd_result (Execute (ban "9.9.9.9" start (start + 1)) fresh_limiter).1 = Err "Refusing to ban this server's own IP address.".
Proof. by vm_compute. Qed.
Example private_is_refused : fd_result (Execute (ban "172.20.1.2" start (start + 1)) fresh_limiter).1 = Err "Only public IPv4 addresses are allowed.".
Proof. by vm_compute. Qed.
Example unbans : fd_ran (Execute (mkFwCall "unban" "8.8.4.4" "42" server start (start + 1)) fresh_limiter).1 =
  [mkLine ["sudo"; "-n"; ufwPath; "status"] ""; mkLine ["sudo"; "-n"; ufwPath; "delete"; "deny"; "from"; "8.8.4.4"] ("y" +:+ String (ascii_of_nat 10) "")].
Proof. by vm_compute. Qed.

Lemma only_public_addresses_denied_witness : exists ip, ip <> [] /\ bannable server "8.8.8.8" ip.
Proof.
  destruct (only_public_addresses_denied (ban "8.8.8.8" start (start + 1)) fresh_limiter (mkLine ["sudo"; "-n"; ufwPath; "insert"; "1"; "deny"; "from"; "8.8.8.8"] ""))
    as [[Hs _]|(ip & Hb & _)]; [by left|by destruct Hs|]. exists ip. split; [|exact Hb].
  intros ->. destruct Hb as [(ip16 & Hp & Ht) _ _ _]. vm_compute in Hp. injection Hp as <-. by vm_compute in Ht.
Defined.

(** Five changes at once, then each after the delay. *)
Definition seconds : list Z := [0; 1; 2; 3; 4; 20; 50; 100; 200; 400; 800; 1500].
Definition calls : list fw_call := (fun s => ban "8.8.8.8" (start + s * Second) (start + s * Second + 1)) <$> seconds.
Example sixth_waits : fd_result (Execute (ban "8.8.8.8" (start + 9 * Second) (start + 10 * Second)) (execute_all (take 5 calls) fresh_limiter).2).1 =
  Err "firewall commands are cooling down; retry in 5s".
Proof. by vm_compute. Qed.
Lemma firewall_changes_are_limited_witness : length (changed (execute_all calls fresh_limiter).1) = 12%nat /\
  exists first twelve final, changed (execute_all calls fresh_limiter).1 = first :: twelve /\ list.last twelve = Some final /\ 15 * Minute < final.2 - first.2.
Proof.
  split; [by vm_compute|].
  destruct (firewall_changes_are_limited calls [] (start, start + 1) (drop 1 (call_times <$> calls)) []) as [(final & Hl & Ht) _].
  - cbn. unfold modern, start, Second, maxDuration. lia.
  - by vm_compute.
  - done.
  - eexists _, _, final. split; [|split; [exact Hl|exact Ht]]. by vm_compute.
Defined.
End FirewallDemo.
