(* ===== verification/Hours.v ===== *)
(** * Playing hours: [src/support/hours.go], [src/commands/moderator/hourLimits.go]

    A map may be open for some hours of the day only.  The loop looks every fifteen
    seconds; when the hours are over it announces the end, waits for the players for ten
    minutes at most, and stops the game.  What the loop sees of the rest of the program
    when it looks is a [view]; the wait consumes one for every second. *)
From Stdlib Require Import Ascii.
From S2P Require Import Prelude.
From S2P Require Import GoInt.
From S2P Require Import GoString.
From S2P Require Import GoTime.
From S2P Require Import CommandTable.
From S2P Require Import Commands.

(** [cfg.Local.Options], as far as it concerns the hours. *)
Record play_hours := mkHours { ph_PlayHourEnable : bool; ph_PlayStartHour : Z; ph_PlayEndHour : Z }.
#[export] Instance play_hours_eq_dec : EqDecision play_hours.
Proof. solve_decision. Defined.
#[export] Instance play_hours_settable : Settable play_hours := mkSettable (fun r => mkHours (ph_PlayHourEnable r) (ph_PlayStartHour r) (ph_PlayEndHour r)).

(** The hour of the day, UTC. *)
Definition utc_hour (t : time) : Z := t / Hour mod 24.

Definition WithinHours (o : play_hours) (now : time) : bool :=
  if ph_PlayHourEnable o then
    let curTime := utc_hour now in
    if ph_PlayEndHour o <? ph_PlayStartHour o then (ph_PlayStartHour o <=? curTime) || (curTime <? ph_PlayEndHour o)
    else (ph_PlayStartHour o <=? curTime) && (curTime <? ph_PlayEndHour o)
  else true.

(** ** The loop *)
Record view := mkView { vw_now : time; vw_hours : play_hours; vw_players : Z; vw_running : bool; vw_autostart : bool }.

Inductive hours_action := Chat (text : string) | ReportLine (text : string) | SetAutolaunch (on : bool) | SubmitStop (reason : string).
#[export] Instance hours_action_eq_dec : EqDecision hours_action.
Proof. solve_decision. Defined.

Definition within (v : view) : bool := WithinHours (vw_hours v) (vw_now v).
Definition hours_text (v : view) (sep : string) : string := Itoa (ph_PlayStartHour (vw_hours v)) +:+ sep +:+ Itoa (ph_PlayEndHour (vw_hours v)).

Definition closing_text (v : view) : string :=
  "It is now time for the map to close (" +:+ hours_text v "-" +:+ " GMT)."
  +:+ (if 0 <? vw_players v then " Server will shut down in 10 minutes." else " Server shutting down.").
Definition opening_text (v : view) : string := "It is now time for the map to open (" +:+ hours_text v "-" +:+ " GMT). Server starting.".
Definition aborted_text (v : view) : string := "Time was adjusted to " +:+ hours_text v " - " +:+ " GMT, shutdown timer aborted.".

(** The wait for the players: what it does, and the views that are left; [None] while it
    waits. *)
Fixpoint wait_players (shutTime : time) (views : list view) : option (list hours_action * list view) :=
  match views with
  | [] => None
  | v :: views =>
      if 0 <? vw_players v then
        if After (vw_now v) shutTime then Some ([], views)
        else if within v then Some ([ReportLine (aborted_text v)], views)
        else wait_players shutTime views
      else Some ([], views)
  end.

(** One round of the loop: [v] is what it sees first, [views] what comes after. *)
Definition check_round (v : view) (views : list view) : option (list hours_action) :=
  if negb (ph_PlayHourEnable (vw_hours v)) then Some []
  else if negb (within v) && vw_running v && vw_autostart v then
    let buf := closing_text v in
    '(waited, views) ← wait_players (Add (vw_now v) (10 * Minute)) views;
    last ← head views;
    Some ([Chat buf; Chat buf; Chat buf; ReportLine buf] ++ waited
          ++ if negb (within last) then [SetAutolaunch false; SubmitStop "Time is up..."] else [])
  else if within v && negb (vw_running v) && negb (vw_autostart v) then Some [ReportLine (opening_text v); SetAutolaunch true]
  else Some [].

(** ** [/config-hours] *)
Section config_hours.
Context `{UnicodeTables}.

Definition bool_text (b : bool) : string := if b then "true" else "false".

(** One option: the options after it, and its line; [None] is a panic. *)
Definition hours_option (o : io_option) (h : play_hours) : option (play_hours * string) :=
  if EqualFold (io_Name o) "enabled" then
    b ← io_BoolValue o; Some (h <| ph_PlayHourEnable := b |>, "hour limits: " +:+ bool_text b)
  else if EqualFold (io_Name o) "start-hour" then
    arg ← io_IntValue o;
    if (0 <? arg) && (arg <? 24) then Some (h <| ph_PlayStartHour := arg |>, "start hour is (GMT): " +:+ Itoa arg) else Some (h, "")
  else if EqualFold (io_Name o) "end-hour" then
    arg ← io_IntValue o;
    if (0 <? arg) && (arg <? 24) then Some (h <| ph_PlayEndHour := arg |>, "end hour is (GMT): " +:+ Itoa arg) else Some (h, "")
  else Some (h, "").

Fixpoint hours_options (options : list io_option) (h : play_hours) (buf : string) : option (play_hours * string) :=
  match options with
  | [] => Some (h, buf)
  | o :: options =>
      '(h, lbuf) ← hours_option o h;
      hours_options options h (if negb (bool_decide (lbuf = "")) then buf +:+ lbuf +:+ String (ascii_of_nat 10) "" else buf)
  end.

(** The hours, the answer, and whether the configuration is written. *)
Definition ConfigHours (options : list io_option) (h : play_hours) : option (play_hours * (string * string) * bool) :=
  '(h, buf) ← hours_options options h "";
  Some (if negb (bool_decide (buf = "")) then (h, ("Status:", buf), true) else (h, ("Error:", "Didn't find any valid options!"), false)).
End config_hours.

(** ** Theorems *)
Definition hour_ok (h : Z) : Prop := 0 <= h < 24.

(** (equivalence) the hours are an interval of the clock: with hours of the day as limits, the map
    is open while fewer hours have passed since the start than there are from the start
    to the end, across midnight or not. *)
Theorem hours_are_an_interval o now : ph_PlayHourEnable o = true -> hour_ok (ph_PlayStartHour o) -> hour_ok (ph_PlayEndHour o) ->
  WithinHours o now = ((utc_hour now - ph_PlayStartHour o) mod 24 <? (ph_PlayEndHour o - ph_PlayStartHour o) mod 24).
Proof.
  intros He Hs Hen. unfold WithinHours. rewrite He. pose proof (Z.mod_pos_bound (now / Hour) 24 ltac:(lia)) as Hh. fold (utc_hour now) in Hh.
  set (h := utc_hour now) in *. set (s := ph_PlayStartHour o) in *. set (e := ph_PlayEndHour o) in *. clearbody h s e. unfold hour_ok in *.
  assert (Hm : forall a, - 24 < a < 24 -> a mod 24 = if a <? 0 then a + 24 else a).
  { intros a Ha. destruct (Z.ltb_spec a 0); [|apply Z.mod_small; lia]. rewrite <-(Z_mod_plus_full a 1 24). rewrite Z.mod_small; lia. }
  rewrite !Hm by lia. destruct (e <? s) eqn:E1, (h - s <? 0) eqn:E2, (e - s <? 0) eqn:E3; lia.
Qed.

(** What the wait saw: players all the time, inside the ten minutes and outside the hours,
    until one of these changed. *)
Lemma wait_players_spec shut views did rest : wait_players shut views = Some (did, rest) ->
  exists waited v, views = waited ++ v :: rest /\ Forall (fun w => 0 < vw_players w /\ vw_now w <= shut /\ within w = false) waited /\
    (vw_players v <= 0 \/ shut < vw_now v \/ within v = true) /\ Forall (fun a => match a with ReportLine _ => True | _ => False end) did.
Proof.
  revert did rest. induction views as [|v views IH]; intros did rest; [done|]. cbn [wait_players]. unfold After.
  destruct (0 <? vw_players v) eqn:Ep; [|intros [= <- <-]; exists [], v; repeat split; [constructor|left; lia|constructor]].
  destruct (shut <? vw_now v) eqn:Ea; [intros [= <- <-]; exists [], v; repeat split; [constructor|right; left; lia|constructor]|].
  destruct (within v) eqn:Ew; [intros [= <- <-]; exists [], v; repeat split; [constructor|by right; right|by repeat constructor]|].
  intros (waited & w & -> & Hw & Hc & Hd)%IH. exists (v :: waited), w. split; [done|]. split; [|done]. constructor; [|done]. split; [lia|]. split; [lia|done].
Qed.

(** (safety) the loop stops the game only after it has said so, when the players are gone or ten
    minutes have passed since, and only if it is outside the hours at that moment; and it
    does nothing to the game while the limits are off. *)
Theorem stopped_only_after_hours v views acts reason : check_round v views = Some acts -> SubmitStop reason ∈ acts ->
  ph_PlayHourEnable (vw_hours v) = true /\ within v = false /\ vw_running v = true /\ vw_autostart v = true /\
  Chat (closing_text v) ∈ acts /\ SetAutolaunch false ∈ acts /\
  exists waited w last rest, views = waited ++ w :: last :: rest /\
    (vw_players w <= 0 \/ vw_now v + 10 * Minute < vw_now w \/ within w = true) /\ within last = false.
Proof.
  unfold check_round. destruct (ph_PlayHourEnable (vw_hours v)); [cbn [negb]|by intros [= <-] ?%elem_of_nil].
  destruct (negb (within v) && vw_running v && vw_autostart v) eqn:E1.
  - bool_hyps. intros ([did views'] & Hw & Ha)%bind_Some Hin. apply wait_players_spec in Hw as (waited & w & -> & _ & Hc & Hd).
    destruct views' as [|last rest]; [done|]. apply (inj Some) in Ha. subst acts. rewrite !elem_of_app in Hin |- *.
    assert (Hl : within last = false).
    { destruct (within last); [|done]. rewrite Forall_forall in Hd. destruct Hin as [Hin|[Hin|Hin]]; [|by apply Hd in Hin|by apply elem_of_nil in Hin].
      rewrite !elem_of_cons, elem_of_nil in Hin. naive_solver. }
    rewrite Hl. split_and!; try done; [rewrite !elem_of_cons; tauto|rewrite !elem_of_app; cbn [negb]; rewrite !elem_of_cons; tauto|]. exists waited, w, last, rest. done.
  - case_match; [intros [= <-]; rewrite !elem_of_cons, elem_of_nil; naive_solver|by intros [= <-] ?%elem_of_nil].
Qed.

(** (termination) the wait ends: if the loop looks at times at least a second apart, it looks no
    more than six hundred and one times. *)
Theorem wait_for_players_ends start views :
  (forall i v, views !! i = Some v -> start + Z.of_nat i * Second <= vw_now v) -> (602 <= length views)%nat ->
  exists did rest, wait_players (Add start (10 * Minute)) views = Some (did, rest).
Proof.
  intros Ht Hl.
  assert (Hgen : forall views k, (forall i v, views !! i = Some v -> start + Z.of_nat (k + i) * Second <= vw_now v) -> (602 <= k + length views)%nat -> (k <= 601)%nat ->
    exists did rest, wait_players (Add start (10 * Minute)) views = Some (did, rest)).
  { clear. induction views as [|v views IH]; intros k Ht Hl Hk; cbn [length] in Hl; [lia|]. cbn [wait_players].
    destruct (0 <? vw_players v); [|eauto]. destruct (After _ _) eqn:Ea; [eauto|]. destruct (within v); [eauto|].
    pose proof (Ht 0%nat v eq_refl) as H0. unfold After, Add, Minute, Second in *. apply (IH (S k)); [|lia|].
    - intros i w Hi. specialize (Ht (S i) w Hi). by rewrite Nat.add_succ_comm.
    - assert (k <> 601%nat); [|lia]. intros ->. lia. }
  apply (Hgen views 0%nat); [exact Ht|lia|lia].
Qed.

(** ** Examples *)
Module HoursDemo.
#[local] Existing Instance ascii_tables.

Definition night : play_hours := mkHours true 22 4.
Definition at_hour (h : Z) : time := 19000 * Day + h * Hour.
Example open_at : (WithinHours night (at_hour 23), WithinHours night (at_hour 3), WithinHours night (at_hour 4)) = (true, true, false).
Proof. by vm_compute. Qed.
Lemma hours_are_an_interval_witness : WithinHours night (at_hour 1) = ((1 - 22) mod 24 <? (4 - 22) mod 24).
Proof. apply (hours_are_an_interval night (at_hour 1)); [reflexivity|unfold hour_ok; simpl; lia..]. Defined.

Definition seen (h s players : Z) : view := mkView (at_hour h + s * Second) night players true true.
Definition closing : list view := [seen 4 1 2; seen 4 2 2; seen 4 3 0; seen 4 3 0].
Example closes : check_round (seen 4 0 2) closing =
  Some ([Chat (closing_text (seen 4 0 2)); Chat (closing_text (seen 4 0 2)); Chat (closing_text (seen 4 0 2)); ReportLine (closing_text (seen 4 0 2));
         SetAutolaunch false; SubmitStop "Time is up..."]).
Proof. by vm_compute. Qed.
Lemma stopped_only_after_hours_witness : exists waited w last rest, closing = waited ++ w :: last :: rest /\ within last = false.
Proof.
  destruct (stopped_only_after_hours (seen 4 0 2) closing _ "Time is up..." closes ltac:(vm_decide)) as (_ & _ & _ & _ & _ & _ & waited & w & last & rest & E & _ & Hl).
  exists waited, w, last, rest. split; [exact E|exact Hl].
Defined.

(** The players stay; the loop looks every second. *)
Definition staying (n : nat) : list view := (fun i => seen 4 (Z.of_nat i) 1) <$> seq 0 n.
Lemma wait_for_players_ends_witness : exists did rest, wait_players (Add (at_hour 4) (10 * Minute)) (staying 602) = Some (did, rest).
Proof.
  apply wait_for_players_ends; [|by vm_compute; lia]. intros i v Hv. unfold staying in Hv. rewrite list_lookup_fmap in Hv.
  destruct (seq 0 602 !! i) as [j|] eqn:E; [|discriminate Hv]. apply lookup_seq in E as [-> _]. simpl in Hv. injection Hv as <-. simpl. lia.
Defined.

(** The limits can be any hour of the day, but the command takes no midnight
    ([src/commands/moderator/hourLimits.go:26]), which the option it is registered with
    allows. *)
Definition hour_option (name : string) (h : Z) : io_option := mkIO name OptInteger None None (Some h) None (Some (Itoa h)) [].
Theorem midnight_is_refused h : ConfigHours [hour_option "end-hour" 0] h = Some (h, ("Error:", "Didn't find any valid options!"), false) /\
  (ConfigHours [hour_option "end-hour" 23] h = Some (h <| ph_PlayEndHour := 23 |>, ("Status:", "end hour is (GMT): 23" +:+ String (ascii_of_nat 10) ""), true)).
Proof. split; by vm_compute. Qed.
End HoursDemo.
