(* ===== verification/Launcher.v ===== *)
(** * Launching the game: [src/support/launcher_factorio.go], [launcher_saves.go],
    [launcher_softmod.go] and the folders of [src/cfg/pathutil.go]

    The choice of the save, the soft mod that is packed into it, the command line, the
    guards in the order the code has them, and the reader that must not let the game block
    on its output.  The saves folder is the list [os.ReadDir] returns; [newest] is what
    [sort.Slice] makes of it.  The archive format, the process and the operations that can
    fail are parameters; what is done is recorded in order. *)
From Stdlib Require Import Ascii.
From S2P Require Import Prelude.
From S2P Require Import GoInt.
From S2P Require Import GoString.
From S2P Require Import GoPath.
From S2P Require Import GoTime.
From S2P Require Import Glob.
From S2P Require Import ModVersion.
From S2P Require Import ModDeps.
From S2P Require Import ModHistory.
From S2P Require Import ModDownload.
From S2P Require Import VoteMap.
From S2P Require Import ResetSchedule.
From S2P Require Import MapReset.
From S2P Require Import OutputLine.
From S2P Require Import OutputServer.
From S2P Require Import Whitelist.
#[local] Close Scope handler_scope.

Record launch_config := mkLaunchConfig {
  la_ServersRoot : string; la_ChatWirePrefix : string; la_Callsign : string; la_FactorioDir : string; la_Saves : string; la_FactBinary : string;
  la_Port : Z; la_RconOffset : Z; la_UseAuthserver : bool; la_joins : join_options;
  la_InjectSoftMod : bool; la_Scenario : string; la_NewMap : bool; la_PendingSave : string; la_LocalTestMode : bool }.

(** ** Folders *)
Definition GetFactorioFolder (c : launch_config) : string := la_ServersRoot c +:+ la_ChatWirePrefix c +:+ la_Callsign c +:+ "/" +:+ la_FactorioDir c +:+ "/".
Definition GetSavesFolder (c : launch_config) : string := la_ServersRoot c +:+ la_ChatWirePrefix c +:+ la_Callsign c +:+ "/" +:+ la_FactorioDir c +:+ "/" +:+ la_Saves c.
Definition GetFactorioBinary (c : launch_config) : string :=
  if HasPrefix (la_FactBinary c) "/" then la_FactBinary c
  else la_ServersRoot c +:+ la_ChatWirePrefix c +:+ la_Callsign c +:+ "/" +:+ la_FactorioDir c +:+ "/" +:+ la_FactBinary c.

(** ** The save that is launched *)
Record save_file := mkSaveFile { sf_Name : string; sf_IsDir : bool; sf_ModTime : time; sf_Content : option string }.
Definition found_save : Type := bool * string * string.
Definition no_save : found_save := (false, "", "").

Definition is_save (f : save_file) : bool := negb (sf_IsDir f) && (HasSuffix (sf_Name f) ".zip" && negb (HasSuffix (sf_Name f) "tmp.zip")).

Section saves.
Context `{Archives}.
Variable zip_opens : zip_entry -> bool.
Variable newest : list save_file -> list save_file.

Fixpoint first_good (path : string) (l : list save_file) : found_save :=
  match l with
  | [] => no_save
  | f :: l =>
      if bool_decide (sf_Name f = "") then first_good path l
      else
        let '(good, folder) := CheckSave zip_opens (sf_Content f) in
        if (good : bool) then (true, path +:+ "/" +:+ sf_Name f, folder) else first_good path l
  end.

(** [saves] is [None] where the folder cannot be read. *)
Definition GetSaveGame (c : launch_config) (saves : option (list save_file)) : found_save :=
  match saves with
  | None => no_save
  | Some files => first_good (GetSavesFolder c) (newest (List.filter is_save files))
  end.

Definition content_of (saves : option (list save_file)) (name : string) : option string :=
  files ← saves; f ← List.find (fun f => bool_decide (sf_Name f = name)) files; sf_Content f.

Definition selectLaunchSave (c : launch_config) (saves : option (list save_file)) (saveName : string) : found_save :=
  let saveName := if bool_decide (saveName = "") then la_PendingSave c else saveName in
  if bool_decide (saveName = "") then GetSaveGame c saves
  else if negb (bool_decide (saveName = Base saveName)) then no_save
  else
    let '(good, folder) := CheckSave zip_opens (content_of saves saveName) in
    if (good : bool) then (true, path_Join [GetSavesFolder c; saveName], folder) else no_save.
End saves.

(** ** The soft mod *)
Record zipFilesData := mkZipFile { zf_Name : string; zf_Data : string }.
#[export] Instance zipFilesData_eq_dec : EqDecision zipFilesData.
Proof. solve_decision. Defined.

(** A folder of the disk: [None] is a file, or a folder, that cannot be read. *)
Inductive disk_node :=
  | DiskFile (name : string) (data : option string)
  | DiskFolder (name : string) (entries : option (list disk_node)).

Fixpoint read_node (sdir : string) (n : disk_node) : list zipFilesData :=
  match n with
  | DiskFile name (Some dat) => [mkZipFile (sdir +:+ "/" +:+ name) dat]
  | DiskFile name None => []
  | DiskFolder name (Some entries) => mjoin (read_node (sdir +:+ "/" +:+ name) <$> entries)
  | DiskFolder name None => []
  end.
Definition readFolder (entries : option (list disk_node)) (sdir : string) : list zipFilesData :=
  match entries with Some l => mjoin (read_node sdir <$> l) | None => [] end.

Definition blackList : list string := ["img-source"; "out"].
Definition allowList : list string := ["README.md"; "preview.jpg"; "LICENSE"].
Definition allowExt : list string := [".lua"; ".png"; ".cfg"].

(** The copies of one file of the soft mod that are added. *)
Definition softmod_copies (tf : zipFilesData) : list zipFilesData :=
  ((fun _ => tf) <$> List.filter (HasSuffix (zf_Name tf)) allowList)
  ++ (if existsb (Contains (zf_Name tf)) blackList then [] else (fun _ => tf) <$> List.filter (HasSuffix (zf_Name tf)) allowExt).
Definition softmod_files (tfiles : list zipFilesData) : list zipFilesData := mjoin (softmod_copies <$> tfiles).

Section inject.
Context `{UnicodeTables, Archives}.

Definition keepSaveEntry (name folderName : string) : bool :=
  if negb (bool_decide (Dir name = folderName)) then false
  else
    let fileName := Base name in
    HasPrefix fileName "level.dat" || HasSuffix fileName ".json" || HasSuffix fileName ".dat"
    || EqualFold fileName "level-init.dat" || EqualFold fileName "level.datmetadata".

Variable zip_opens : zip_entry -> bool.

Definition read_entry (folderName : string) (f : zip_entry) : list zipFilesData :=
  if keepSaveEntry (ze_Name f) folderName && zip_opens f then
    match ze_Content f with
    | Some data => if slen data =? ze_UncompressedSize64 f then [mkZipFile (ze_Name f) data] else []
    | None => []
    end
  else [].
Definition read_save (folderName : string) (l : list zip_entry) : list zipFilesData := mjoin (read_entry folderName <$> l).

(** What can fail while the new save is written. *)
Record inject_env := mkInjectEnv { ie_close : bool; ie_create : bool; ie_write : zipFilesData -> bool; ie_finish : bool; ie_rename : bool }.

(** The entries of the archive that replaces the save, [None] where the save is left. *)
Definition injectSoftMod (e : inject_env) (softmod : option (list disk_node)) (content : option string) (folderName : string) : option (list zipFilesData) :=
  archive ← content ≫= zip_files;
  let zipFiles := read_save folderName archive in
  if negb (ie_close e) then None
  else
    let zipFiles := zipFiles ++ softmod_files (readFolder softmod folderName) in
    if bool_decide (zipFiles = []) then None
    else if ie_create e && forallb (ie_write e) zipFiles && ie_finish e && ie_rename e then Some zipFiles
    else None.
End inject.

(** ** The command line *)
Definition scenario_start (c : launch_config) : bool := la_NewMap c && (negb (bool_decide (la_Scenario c = "none")) && negb (bool_decide (la_Scenario c = ""))).
Definition use_whitelist (o : join_options) : bool := jo_MembersOnly o || jo_RegularsOnly o || jo_CustomWhitelist o.

Definition launch_args (c : launch_config) (fileName rconpass : string) : list string :=
  (if scenario_start c then ["--start-server-load-scenario"; la_Scenario c] else ["--start-server"; fileName])
  ++ ["--rcon-port"; Itoa (la_Port c + la_RconOffset c); "--rcon-password"; rconpass; "--port"; Itoa (la_Port c);
      "--server-settings"; GetFactorioFolder c +:+ "server-settings.json"]
  ++ (if la_UseAuthserver c then ["--use-authserver-bans"] else [])
  ++ (if use_whitelist (la_joins c) then ["--use-server-whitelist"; "true"] else [])
  ++ ["--server-adminlist"; GetFactorioFolder c +:+ "server-adminlist.json"].

(** The arguments as they are logged. *)
Definition hide_private (rconpass rconportStr targ : string) : string :=
  if bool_decide (targ = rconpass) then "***private***" else if bool_decide (targ = rconportStr) then "69420" else targ.

(** ** The launch *)
Inductive launch_effect :=
  | LastBan (name : string)
  | Embed (title text : string)
  | ConfigWritten
  | SaveRewritten (path : string) (entries : list zipFilesData)
  | FactorioConfig
  | Adminlist (w : list_write)
  | WhitelistWritten (w : list_write)
  | ResetGametime
  | Executing (binary : string) (args : list string)   (* the line of the log *)
  | Started (binary : string) (args : list string)
  | ContextReleased
  | ChannelLine (text : string)
  | PipeSet (generation : Z)
  | LinesSet (generation : Z).

Record launch_world := mkLaunchWorld {
  lw_Autostart : bool; lw_RelaunchThrottle : Z; lw_SoftModVersion : string; lw_OnlineCommand : string;
  lw_OnlinePlayers : list string; lw_LastCrashReport : time; lw_RCONPass : string; lw_NoResponse : Z;
  lw_process : option (string * list string);          (* [glob.FactorioCmd] *)
  lw_effects : list launch_effect }.
#[export] Instance launch_world_settable : Settable launch_world := mkSettable (fun r =>
  mkLaunchWorld (lw_Autostart r) (lw_RelaunchThrottle r) (lw_SoftModVersion r) (lw_OnlineCommand r)
    (lw_OnlinePlayers r) (lw_LastCrashReport r) (lw_RCONPass r) (lw_NoResponse r) (lw_process r) (lw_effects r)).

Definition L (A : Type) : Type := launch_world -> result string A * launch_world.
#[export] Instance L_ret : MRet L := fun A a w => (Ok a, w).
#[export] Instance L_bind : MBind L := fun A B f m w => match m w with (Ok a, w) => f a w | (Err e, w) => (Err e, w) end.
Definition fails {A} (e : string) : L A := fun w => (Err e, w).
Definition change (f : launch_world -> launch_world) : L unit := fun w => (Ok tt, f w).
Definition emit (x : launch_effect) : L unit := change (fun w => w <| lw_effects ::= fun l => l ++ [x] |>).
Definition read {A} (f : launch_world -> A) : L A := fun w => (Ok (f w), w).

(** What the launch reads of the rest of the program, and what fails. *)
Record launch_env := mkLaunchEnv {
  le_installed : bool; le_saves : option (list save_file);
  le_waits : nat -> bool * Z;             (* each tenth of a second of the wait: the server runs, [RelaunchThrottle] *)
  le_rconpass : string; le_softmod : option (list disk_node); le_inject : inject_env;
  le_config : bool; le_admins : bool; le_whitelist : bool; le_invites : invite_file; le_players : list PlayerData;
  le_BootedAt : time; le_now : time; le_stdout : option string; le_stdin : option string; le_start : option string }.

(** The wait: how many tenths of a second, and the throttle after it. *)
Fixpoint throttle_wait (views : nat -> bool * Z) (rounds i : nat) : nat * Z :=
  match rounds with
  | O => (i, (views i).2)
  | S rounds => if (views i).1 && (0 <? (views i).2) then throttle_wait views rounds (S i) else (i, (views i).2)
  end.

Definition SetAutolaunch (autolaunch report : bool) : L unit :=
  on ← read lw_Autostart;
  if negb autolaunch && on then
    change (fun w => w <| lw_Autostart := false |>) ;;
    if report then emit (Embed "Notice" "Auto-reboot has been turned OFF.") else mret tt
  else if autolaunch && negb on then
    change (fun w => w <| lw_Autostart := true |>) ;;
    if report then emit (Embed "Notice" "Auto-reboot has been ENABLED.") else mret tt
  else mret tt.

Definition launch_failed (e : string) (what : string) : L unit :=
  emit (ChannelLine (what +:+ e)) ;; emit (Embed "ERROR" "Launching Factorio failed!") ;; emit ContextReleased ;; fails e.

Section launch.
Context `{UnicodeTables, Archives}.
Variable zip_opens : zip_entry -> bool.
Variable newest : list save_file -> list save_file.
Variable sort_seen : list PlayerData -> list PlayerData.
Variable c : launch_config.
Variable e : launch_env.

(** The guards before anything is prepared; the save that is launched. *)
Definition check_install : L unit :=
  if le_installed e then mret tt
  else
    emit (Embed "ERROR" "Factorio is not installed. Use `/factorio install-factorio` to install it.") ;;
    SetAutolaunch false true ;;
    fails ("factorio is not installed at " +:+ (la_ServersRoot c +:+ la_ChatWirePrefix c +:+ la_Callsign c +:+ "/" +:+ la_FactorioDir c)).

Definition choose_save (saveName : string) : L (string * string) :=
  let '(found, fileName, folderName) := selectLaunchSave zip_opens newest c (le_saves e) saveName in
  if (found : bool) then mret (fileName, folderName)
  else emit (Embed "ERROR" "Unable to access save-games.") ;; SetAutolaunch false true ;; fails "unable to access save-games".

Definition throttle : L unit :=
  throt ← read lw_RelaunchThrottle;
  (if negb (la_LocalTestMode c) && (0 <? throt) then
     let delay := throt * throt * 10 in
     if 0 <? delay then
       emit (Embed "Warning" ("Rate limiting: Waiting for " +:+ Itoa delay +:+ " seconds before launching Factorio.")) ;;
       change (fun w => w <| lw_RelaunchThrottle := (throttle_wait (le_waits e) (Z.to_nat (delay * 11)) 0).2 |>)
     else mret tt
   else mret tt) ;;
  change (fun w => w <| lw_RelaunchThrottle ::= Z.add 1 |>).

Definition inject_step (fileName folderName : string) : L unit :=
  if la_InjectSoftMod c && (bool_decide (la_Scenario c = "") || bool_decide (la_Scenario c = "none")) then
    match injectSoftMod zip_opens (le_inject e) (le_softmod e) (content_of (le_saves e) (Base fileName)) folderName with
    | Some entries => emit (SaveRewritten fileName entries)
    | None => mret tt
    end
  else mret tt.

(** The files the game reads when it starts. *)
Definition write_files : L unit :=
  (if le_config e then emit FactorioConfig
   else SetAutolaunch false true ;; emit (Embed "ERROR" "Unable to write a config file for Fatorio.") ;; fails "unable to write factorio config") ;;
  let '(n, w) := WriteAdminlist (le_admins e) (le_players e) in
  emit (Adminlist w) ;;
  (if n <? 0 then fails "unable to write Factorio admin list" else mret tt) ;;
  let '(count, w) := WriteWhitelist sort_seen (la_joins c) (le_whitelist e) (le_invites e) (le_players e) in
  emit (WhitelistWritten w) ;;
  if count <? 0 then fails "unable to write Factorio whitelist" else mret tt.

Definition start_process (generation : Z) (args : list string) : L unit :=
  match le_stdout e with
  | Some err => launch_failed err "An error occurred when attempting to execute cmd.StdoutPipe() Details: "
  | None =>
      match le_stdin e with
      | Some err => launch_failed err "An error occurred when attempting to execute cmd.StdinPipe() Details: "
      | None =>
          match le_start e with
          | Some err => launch_failed err "An error occurred when attempting to start the game. Details: "
          | None =>
              emit (Started (GetFactorioBinary c) args) ;;
              change (fun w => w <| lw_process := Some (GetFactorioBinary c, args) |>) ;;
              emit (PipeSet generation) ;; emit (LinesSet generation)
          end
      end
  end.

(** All that comes before the process: the path of the save. *)
Definition prepare (saveName : string) : L string :=
  emit (LastBan "") ;;
  change (fun w => w <| lw_LastCrashReport := zeroTime |> <| lw_SoftModVersion := "Unknown" |> <| lw_OnlineCommand := "/p o c" |> <| lw_OnlinePlayers := [] |>) ;;
  check_install ;;
  '(fileName, folderName) ← choose_save saveName;
  throttle ;;
  change (fun w => w <| lw_RCONPass := le_rconpass e |>) ;;
  emit ConfigWritten ;;
  inject_step fileName folderName ;;
  write_files ;;
  mret fileName.

(** The throttle is forgotten after an hour. *)
Definition reset_throttle : L unit :=
  if negb (IsZero (le_BootedAt e)) && (Hour <? Sub (le_now e) (le_BootedAt e)) then change (fun w => w <| lw_RelaunchThrottle := 0 |>) else mret tt.

Definition run_game (generation : Z) (fileName : string) : L unit :=
  let args := launch_args c fileName (le_rconpass e) in
  reset_throttle ;;
  emit ResetGametime ;;
  change (fun w => w <| lw_NoResponse := 0 |>) ;;
  emit (Executing (GetFactorioBinary c) (hide_private (le_rconpass e) (Itoa (la_Port c + la_RconOffset c)) <$> args)) ;;
  start_process generation args.

Definition LaunchFactorio (generation : Z) (saveName : string) : L unit := fileName ← prepare saveName; run_game generation fileName.
End launch.

(** ** The reader of the output *)
Section lines.
Context `{UnicodeTables}.

Definition FactorioStdoutChannelCapacity : Z := 8192.
Definition isCriticalFactorioLine (line : string) : bool := isFactorioReadyLine line || Contains line "[CHATWIRE]" || Contains line "Goodbye".

(** The channel, and what became of the lines: taken by the consumer, handled by the reader
    itself, or lost. *)
Record line_world := mkLines { li_queue : list string; li_taken : list string; li_handled : list string; li_lost : list string }.
#[export] Instance line_world_settable : Settable line_world := mkSettable (fun r => mkLines (li_queue r) (li_taken r) (li_handled r) (li_lost r)).

(** [current]: the process is still the one of the manager. *)
Definition read_line (current : bool) (line : string) (w : line_world) : line_world :=
  if Z.of_nat (length (li_queue w)) <? FactorioStdoutChannelCapacity then w <| li_queue ::= fun q => q ++ [line] |>
  else if isCriticalFactorioLine line && current then w <| li_handled ::= fun l => l ++ [line] |>
  else w <| li_lost ::= fun l => l ++ [line] |>.

Inductive line_step : line_world -> line_world -> Prop :=
  | step_read current line w : line_step w (read_line current line w)
  | step_take line q w : li_queue w = line :: q -> line_step w (w <| li_queue := q |> <| li_taken ::= fun l => l ++ [line] |>).
End lines.

(** ** Which save is launched *)
Section saves_theorems.
Context `{Archives}.
Variable zip_opens : zip_entry -> bool.
Variable newest : list save_file -> list save_file.

Lemma first_good_spec path l p folder : first_good zip_opens path l = (true, p, folder) ->
  exists before f after, l = before ++ f :: after /\ p = path +:+ "/" +:+ sf_Name f /\ CheckSave zip_opens (sf_Content f) = (true, folder) /\
    Forall (fun g => sf_Name g = "" \/ (CheckSave zip_opens (sf_Content g)).1 = false) before.
Proof.
  induction l as [|f l IH]; cbn [first_good]; [done|]. destruct (bool_decide (sf_Name f = "")) eqn:En.
  - intros (before & g & after & -> & Hp & Hc & Hb)%IH. exists (f :: before), g, after. bool_hyps. split_and!; [done..|]. constructor; [by left|done].
  - destruct (CheckSave zip_opens (sf_Content f)) as [[] fo] eqn:Ec.
    + intros [= <- <-]. exists [], f, l. by repeat split.
    + intros (before & g & after & -> & Hp & Hc & Hb)%IH. exists (f :: before), g, after. split_and!; [done..|]. constructor; [right; by rewrite Ec|done].
Qed.

Lemma first_good_finds path l f : f ∈ l -> sf_Name f <> "" -> (CheckSave zip_opens (sf_Content f)).1 = true -> (first_good zip_opens path l).1.1 = true.
Proof.
  intros Hf Hn Hc. induction l as [|g l IH]; [by apply elem_of_nil in Hf|]. cbn [first_good].
  destruct (bool_decide (sf_Name g = "")) eqn:En; bool_hyps.
  - apply IH. apply elem_of_cons in Hf as [->|Hf]; [done|exact Hf].
  - destruct (CheckSave zip_opens (sf_Content g)) as [[] fo] eqn:Ec; [done|]. apply IH. apply elem_of_cons in Hf as [->|Hf]; [by rewrite Ec in Hc|exact Hf].
Qed.

(** What is known of [sort.Slice] with the newer one first. *)
Hypothesis newest_perm : forall l, newest l ≡ₚ l.
Hypothesis newest_sorted : forall l, StronglySorted (fun f g => sf_ModTime g <= sf_ModTime f) (newest l).

(** (functional) a save that was asked for, by the request or by the configuration, is the one
    that is launched, or none is; without a request it is a good save of the folder, and no
    good save is newer; and when there is a good save, one is found. *)
Theorem launched_save_is_the_right_one c files saveName found path folder :
  selectLaunchSave zip_opens newest c (Some files) saveName = (found, path, folder) ->
  let asked := if bool_decide (saveName = "") then la_PendingSave c else saveName in
  (asked <> "" -> found = true -> path = path_Join [GetSavesFolder c; asked] /\ CheckSave zip_opens (content_of (Some files) asked) = (true, folder)) /\
  (asked = "" -> found = true -> exists f, f ∈ files /\ is_save f = true /\ path = GetSavesFolder c +:+ "/" +:+ sf_Name f /\ CheckSave zip_opens (sf_Content f) = (true, folder) /\
     forall g, g ∈ files -> is_save g = true -> sf_Name g <> "" -> (CheckSave zip_opens (sf_Content g)).1 = true -> sf_ModTime g <= sf_ModTime f) /\
  (asked = "" -> (exists g, g ∈ files /\ is_save g = true /\ sf_Name g <> "" /\ (CheckSave zip_opens (sf_Content g)).1 = true) -> found = true).
Proof.
  unfold selectLaunchSave. cbv zeta. set (asked := if bool_decide (saveName = "") then la_PendingSave c else saveName). intros Hs. split_and!.
  - intros Ha ->. rewrite bool_decide_eq_false_2 in Hs by done. destruct (bool_decide (asked = Base asked)); [cbn [negb] in Hs|done].
    destruct (CheckSave zip_opens (content_of (Some files) asked)) as [[] fo]; [by injection Hs as <- <-|done].
  - intros Ha ->. rewrite bool_decide_eq_true_2 in Hs by done. unfold GetSaveGame in Hs. pose proof (newest_sorted (List.filter is_save files)) as Hsort.
    pose proof (newest_perm (List.filter is_save files)) as Hp. apply first_good_spec in Hs as (before & f & after & E & -> & Hc & Hb). exists f.
    assert (Hin : forall g, g ∈ before ++ f :: after <-> g ∈ files /\ is_save g = true).
    { intros g. rewrite <-E, Hp, !list_elem_of_In, filter_In. tauto. }
    assert (Hf : f ∈ before ++ f :: after) by (rewrite elem_of_app; right; left). apply Hin in Hf as [Hf1 Hf2]. split_and!; try done.
    intros g Hg1 Hg2 Hgn Hgc. assert (Hg : g ∈ before ++ f :: after) by by apply Hin. rewrite elem_of_app, elem_of_cons in Hg.
    destruct Hg as [Hg|[->|Hg]]; [|lia|].
    + rewrite Forall_forall in Hb. destruct (Hb g Hg) as [?|Hgf]; [done|]. rewrite Hgf in Hgc. discriminate.
    + rewrite E in Hsort. apply StronglySorted_app_1_r, StronglySorted_inv in Hsort as [_ Hall]. rewrite Forall_forall in Hall. by apply Hall.
  - intros Ha (g & Hg1 & Hg2 & Hgn & Hgc). rewrite bool_decide_eq_true_2 in Hs by done. unfold GetSaveGame in Hs.
    change found with ((found, path, folder).1.1). rewrite <-Hs. apply (first_good_finds _ _ g); [|done..].
    rewrite newest_perm, list_elem_of_In, filter_In, <-list_elem_of_In. done.
Qed.
End saves_theorems.

(** ** The save with the soft mod *)
Section inject_theorems.
Context `{UnicodeTables, Archives}.
Variable zip_opens : zip_entry -> bool.
(** The archive writer: what it writes can be read again, entry by entry. *)
Variable zip_write : list zipFilesData -> string.
Definition entry_of (f : zipFilesData) : zip_entry := {| ze_Name := zf_Name f; ze_Content := Some (zf_Data f); ze_UncompressedSize64 := slen (zf_Data f) |}.
Hypothesis zip_written : forall l, zip_files (zip_write l) = Some (entry_of <$> l).
Hypothesis written_opens : forall f, zip_opens (entry_of f) = true.

Lemma check_level_split l folder : check_level zip_opens l = (true, folder) ->
  exists before f after data, l = before ++ f :: after /\ HasSuffix (ze_Name f) "level.dat0" = true /\ zip_opens f = true /\ ze_Content f = Some data /\
    LevelDatMinSize < slen data /\ folder = Dir (ze_Name f) /\ Forall (fun g => HasSuffix (ze_Name g) "level.dat0" = false) before.
Proof.
  induction l as [|f l IH]; cbn [check_level]; [done|]. destruct (zip_opens f) eqn:Eo; [cbn [negb]|done]. destruct (HasSuffix (ze_Name f) "level.dat0") eqn:Es.
  - destruct (ze_Content f) as [data|] eqn:Ec; [|done]. destruct (LevelDatMinSize <? slen data) eqn:El; [|done]. intros [= <-].
    exists [], f, l, data. bool_hyps. by repeat split.
  - intros (before & g & after & data & -> & Q1 & Q2 & Q3 & Q4 & Q5 & Q6)%IH. exists (f :: before), g, after, data. split_and!; try done. by constructor.
Qed.

Lemma check_level_first before f after data :
  HasSuffix (zf_Name f) "level.dat0" = true -> zf_Data f = data -> LevelDatMinSize < slen data ->
  Forall (fun g => HasSuffix (zf_Name g) "level.dat0" = false) before -> check_level zip_opens (entry_of <$> before ++ f :: after) = (true, Dir (zf_Name f)).
Proof.
  intros Hs <- Hd Hb. induction before as [|g before IH]; cbn [fmap list_fmap app check_level]; rewrite written_opens; cbn [negb entry_of ze_Name ze_Content].
  - rewrite Hs. apply Z.ltb_lt in Hd. by rewrite Hd.
  - inversion Hb as [|? ? Hg Hb']. subst. rewrite Hg. by apply IH.
Qed.

Lemma read_entry_name folder f g : g ∈ read_entry zip_opens folder f -> zf_Name g = ze_Name f /\ ze_Content f = Some (zf_Data g) /\ keepSaveEntry (ze_Name f) folder = true.
Proof.
  unfold read_entry. destruct (keepSaveEntry (ze_Name f) folder && zip_opens f) eqn:Ek; [|by intros ?%elem_of_nil]. bool_hyps.
  destruct (ze_Content f) as [data|]; [|by intros ?%elem_of_nil]. destruct (slen data =? ze_UncompressedSize64 f); [|by intros ?%elem_of_nil].
  intros ->%list_elem_of_singleton. done.
Qed.

(** (safety) packing the soft mod into a save leaves a save that is good and has its level in the
    same folder, when the level of the old one can be read; whatever it holds is the data of
    the old save, unchanged, from the folder of the level, or a file of the soft mod. *)
Theorem softmod_keeps_the_level e softmod old entries folder :
  CheckSave zip_opens (Some old) = (true, folder) -> injectSoftMod zip_opens e softmod (Some old) folder = Some entries ->
  (forall l f, zip_files old = Some l -> f ∈ l -> HasSuffix (ze_Name f) "level.dat0" = true ->
     HasPrefix (Base (ze_Name f)) "level.dat" = true /\ (forall d, ze_Content f = Some d -> ze_UncompressedSize64 f = slen d)) ->
  CheckSave zip_opens (Some (zip_write entries)) = (true, folder) /\
  exists l, zip_files old = Some l /\
    forall g, g ∈ entries -> (exists f, f ∈ l /\ zf_Name g = ze_Name f /\ ze_Content f = Some (zf_Data g) /\ keepSaveEntry (ze_Name f) folder = true) \/ g ∈ readFolder softmod folder.
Proof.
  unfold CheckSave, injectSoftMod. cbn [mbind option_bind]. rewrite zip_written. destruct (zip_files old) as [l|] eqn:El; [|done]. cbn [mbind option_bind].
  intros Hc Hi Hlev. destruct (ie_close e); [cbn [negb] in Hi|done]. case_bool_decide as Hne; [done|].
  destruct (ie_create e && _ && ie_finish e && ie_rename e); [|done]. injection Hi as <-. split.
  - apply check_level_split in Hc as (before & f & after & data & -> & Hs & Ho & Hd & Hmin & -> & Hb).
    destruct (Hlev _ f eq_refl ltac:(rewrite elem_of_app; right; left) Hs) as [Hpre Hsize]. specialize (Hsize _ Hd).
    unfold read_save. rewrite (fmap_app (read_entry _ _)), join_app. cbn [fmap list_fmap mjoin list_join].
    assert (Hf : read_entry zip_opens (Dir (ze_Name f)) f = [mkZipFile (ze_Name f) data]).
    { unfold read_entry, keepSaveEntry. rewrite bool_decide_eq_true_2 by done. cbn [negb]. rewrite Hpre, Ho, Hd, Hsize, Z.eqb_refl. done. }
    rewrite Hf, <-!app_assoc. cbn [app]. apply (check_level_first _ (mkZipFile (ze_Name f) data) _ data); [done..|].
    rewrite Forall_forall. intros g (k & Hg & (h & -> & Hh)%list_elem_of_fmap)%list_elem_of_join. apply read_entry_name in Hg as (-> & _).
    rewrite Forall_forall in Hb. by apply Hb.
  - exists l. split; [done|]. intros g [Hg|Hg]%elem_of_app.
    + left. apply list_elem_of_join in Hg as (k & Hg & (h & -> & Hh)%list_elem_of_fmap). exists h. split; [done|]. by apply read_entry_name in Hg as (? & ? & ?).
    + right. apply list_elem_of_join in Hg as (k & Hg & (h & -> & Hh)%list_elem_of_fmap). unfold softmod_copies in Hg.
      apply elem_of_app in Hg as [Hg|Hg]; [by apply list_elem_of_fmap in Hg as (? & -> & _)|].
      destruct (existsb _ _); [by apply elem_of_nil in Hg|by apply list_elem_of_fmap in Hg as (? & -> & _)].
Qed.
End inject_theorems.

(** ** The launch *)
(** An effect that hands a process to the rest of the program. *)
Definition starts (x : launch_effect) : bool := match x with Started _ _ | PipeSet _ | LinesSet _ => true | _ => false end.

(** A computation that starts no process. *)
Class Quiet {A} (m : L A) : Prop := quiet : forall w r w', m w = (r, w') ->
  lw_process w' = lw_process w /\ exists l, lw_effects w' = lw_effects w ++ l /\ Forall (fun x => starts x = false) l.
#[export] Instance quiet_ret {A} (a : A) : Quiet (mret a).
Proof. intros w r w' [= _ <-]. split; [done|]. exists []. by rewrite app_nil_r. Qed.
#[export] Instance quiet_fails {A} e : Quiet (fails (A := A) e).
Proof. intros w r w' [= _ <-]. split; [done|]. exists []. by rewrite app_nil_r. Qed.
#[export] Instance quiet_read {A} (f : launch_world -> A) : Quiet (read f).
Proof. intros w r w' [= _ <-]. split; [done|]. exists []. by rewrite app_nil_r. Qed.
#[export] Instance quiet_bind {A B} (m : L A) (f : A -> L B) : Quiet m -> (forall a, Quiet (f a)) -> Quiet (m ≫= f).
Proof.
  intros Hm Hf w r w'. unfold mbind, L_bind. destruct (m w) as [[a|e] w1] eqn:E; apply Hm in E as (E1 & l1 & E2 & Hl1).
  - intros (E3 & l2 & E4 & Hl2)%Hf. split; [congruence|]. exists (l1 ++ l2). rewrite E4, E2, <-app_assoc. split; [done|]. by apply Forall_app.
  - intros [= _ <-]. eauto.
Qed.
#[export] Instance quiet_if {A} (b : bool) (m k : L A) : Quiet m -> Quiet k -> Quiet (if b then m else k).
Proof. by destruct b. Qed.
Lemma quiet_emit x : starts x = false -> Quiet (emit x).
Proof. intros Hx w r w' [= _ <-]. split; [done|]. exists [x]. split; [done|]. by constructor. Qed.
Lemma quiet_change f : (forall w, lw_process (f w) = lw_process w) -> (forall w, lw_effects (f w) = lw_effects w) -> Quiet (change f).
Proof. intros Hp He w r w' [= _ <-]. split; [apply Hp|]. exists []. by rewrite app_nil_r, He. Qed.
#[export] Hint Extern 1 (Quiet (emit _)) => apply quiet_emit; reflexivity : typeclass_instances.
#[export] Hint Extern 1 (Quiet (change _)) => apply quiet_change; reflexivity : typeclass_instances.

#[export] Instance quiet_SetAutolaunch a report : Quiet (SetAutolaunch a report).
Proof. unfold SetAutolaunch. apply _. Qed.
#[export] Instance quiet_launch_failed e what : Quiet (launch_failed e what).
Proof. unfold launch_failed. apply _. Qed.

Lemma L_bind_ok {A B} (m : L A) (f : A -> L B) w b w' : (m ≫= f) w = (Ok b, w') <-> exists a w1, m w = (Ok a, w1) /\ f a w1 = (Ok b, w').
Proof. unfold mbind, L_bind. destruct (m w) as [[a|e] w1]; naive_solver. Qed.

Lemma change_ok f w r w' : change f w = (r, w') -> w' = f w.
Proof. by intros [= _ <-]. Qed.

Lemma change_bind {A} f (k : unit -> L A) w : (change f ≫= k) w = k tt (f w).
Proof. done. Qed.
Lemma launch_emit_bind {A} x (k : unit -> L A) w : (emit x ≫= k) w = k tt (w <| lw_effects ::= fun l => l ++ [x] |>).
Proof. done. Qed.

Lemma bind_done {A B} (m : L A) (k : A -> L B) w a w1 : m w = (Ok a, w1) -> (m ≫= k) w = k a w1.
Proof. intros E. unfold mbind, L_bind. by rewrite E. Qed.

Section launch_theorems.
Context `{UnicodeTables, Archives}.
Variable zip_opens : zip_entry -> bool.
Variable newest : list save_file -> list save_file.
Variable sort_seen : list PlayerData -> list PlayerData.
Variable c : launch_config.
Variable e : launch_env.
Notation prep := (prepare zip_opens newest sort_seen c e).
Notation launch := (LaunchFactorio zip_opens newest sort_seen c e).

#[local] Instance quiet_choose n : Quiet (choose_save zip_opens newest c e n).
Proof. unfold choose_save. destruct (selectLaunchSave _ _ _ _ _) as [[found p] f]. apply _. Qed.
#[local] Instance quiet_inject p f : Quiet (inject_step zip_opens c e p f).
Proof. unfold inject_step. apply quiet_if; [|apply _]. destruct (injectSoftMod _ _ _ _ _); apply _. Qed.
#[local] Instance quiet_files : Quiet (write_files sort_seen c e).
Proof. unfold write_files. destruct (WriteAdminlist _ _), (WriteWhitelist _ _ _ _ _). apply _. Qed.
#[local] Instance quiet_prepare n : Quiet (prep n).
Proof. unfold prepare, check_install, throttle. repeat (apply quiet_bind; [apply _|intros ?]). case_match. apply _. Qed.
#[local] Instance quiet_reset : Quiet (reset_throttle e).
Proof. unfold reset_throttle. apply _. Qed.

Lemma choose_ok n w p f w' : choose_save zip_opens newest c e n w = (Ok (p, f), w') -> selectLaunchSave zip_opens newest c (le_saves e) n = (true, p, f) /\ w' = w.
Proof.
  unfold choose_save. destruct (selectLaunchSave _ _ _ _ _) as [[[] p'] f']; [by intros [= <- <- <-]|].
  intros (u & w1 & _ & (u' & w2 & _ & E)%L_bind_ok)%L_bind_ok. discriminate E.
Qed.

Lemma write_files_ok w w' : write_files sort_seen c e w = (Ok tt, w') ->
  le_config e = true /\ 0 <= (WriteAdminlist (le_admins e) (le_players e)).1 /\
  0 <= (WriteWhitelist sort_seen (la_joins c) (le_whitelist e) (le_invites e) (le_players e)).1 /\ lw_RCONPass w' = lw_RCONPass w.
Proof.
  unfold write_files. destruct (WriteAdminlist _ _) as [n aw], (WriteWhitelist _ _ _ _ _) as [k ww]. cbn [fst].
  intros ([] & w1 & E1 & ([] & w2 & E2 & ([] & w3 & E3 & ([] & w4 & E4 & E5)%L_bind_ok)%L_bind_ok)%L_bind_ok)%L_bind_ok.
  destruct (le_config e); [apply change_ok in E1|apply L_bind_ok in E1 as (? & ? & _ & (? & ? & _ & E1)%L_bind_ok); discriminate E1].
  apply change_ok in E2, E4. destruct (Z.ltb_spec n 0) as [Hn|Hn]; [discriminate E3|injection E3 as <-].
  destruct (Z.ltb_spec k 0) as [Hk|Hk]; [discriminate E5|injection E5 as <-]. by subst.
Qed.

Lemma prepare_ok n w p w' : prep n w = (Ok p, w') ->
  le_installed e = true /\ (exists folder, selectLaunchSave zip_opens newest c (le_saves e) n = (true, p, folder)) /\ lw_RCONPass w' = le_rconpass e /\
  le_config e = true /\ 0 <= (WriteAdminlist (le_admins e) (le_players e)).1 /\ 0 <= (WriteWhitelist sort_seen (la_joins c) (le_whitelist e) (le_invites e) (le_players e)).1.
Proof.
  unfold prepare. intros (? & w1 & _ & (? & w2 & _ & (? & w3 & E3 & ([p' f] & w4 & E4 & (? & w5 & _ & (? & w6 & E6 & (? & w7 & E7 & (? & w8 & E8 & ([] & w9 & E9 & E10)%L_bind_ok)%L_bind_ok)%L_bind_ok)%L_bind_ok)%L_bind_ok)%L_bind_ok)%L_bind_ok)%L_bind_ok)%L_bind_ok.
  apply choose_ok in E4 as [E4 _]. apply write_files_ok in E9 as (Hc & Ha & Hw & Hr). injection E10 as -> ->. apply change_ok in E6, E7.
  assert (Hi : lw_RCONPass w8 = le_rconpass e).
  { unfold inject_step in E8. destruct (_ && _); [destruct (injectSoftMod _ _ _ _ _); [apply change_ok in E8|injection E8 as _ <-]|injection E8 as _ <-]; by subst. }
  split; [by unfold check_install in E3; destruct (le_installed e); [|apply L_bind_ok in E3 as (? & ? & _ & (? & ? & _ & E3)%L_bind_ok)]|].
  split_and!; try done; [by exists f|congruence].
Qed.

Lemma hidden_args rconpass port (args : list string) : rconpass <> "***private***" -> rconpass <> "69420" -> rconpass ∉ hide_private rconpass port <$> args.
Proof.
  intros Hp1 Hp2 (a & E & _)%list_elem_of_fmap. unfold hide_private in E. repeat case_bool_decide; congruence.
Qed.

Lemma start_process_spec generation args w r w' : start_process c e generation args w = (r, w') ->
  (r = Ok tt /\ lw_process w' = Some (GetFactorioBinary c, args) /\ lw_RCONPass w' = lw_RCONPass w /\
   lw_effects w' = lw_effects w ++ [Started (GetFactorioBinary c) args; PipeSet generation; LinesSet generation]) \/
  exists er, r = Err er /\ lw_process w' = lw_process w /\ exists new, lw_effects w' = lw_effects w ++ new /\ Forall (fun x => starts x = false) new.
Proof.
  unfold start_process. intros Hl.
  assert (Hfail : forall er what, launch_failed er what w = (r, w') ->
    exists er, r = Err er /\ lw_process w' = lw_process w /\ exists new, lw_effects w' = lw_effects w ++ new /\ Forall (fun x => starts x = false) new).
  { intros er what E. pose proof (quiet_launch_failed er what w _ _ E) as [Hq Hn]. exists er. split; [by injection E as <-|by split]. }
  destruct (le_stdout e); [right; by eapply Hfail|]. destruct (le_stdin e); [right; by eapply Hfail|]. destruct (le_start e); [right; by eapply Hfail|].
  rewrite launch_emit_bind, change_bind, launch_emit_bind in Hl. injection Hl as <- <-. left. cbn. by rewrite <-!app_assoc.
Qed.

(** (error) a launch that succeeds has started the game with the arguments of the configuration,
    the save that was chosen and the new password, after the files it reads were written,
    and then handed its pipe and its lines to the generation; the log does not show the
    password; a launch that fails has started nothing and handed over nothing. *)
Theorem launch_starts_the_game_or_nothing generation saveName w r w' : launch generation saveName w = (r, w') ->
  exists new, lw_effects w' = lw_effects w ++ new /\
  match r with
  | Ok _ =>
      exists fileName folder pre, selectLaunchSave zip_opens newest c (le_saves e) saveName = (true, fileName, folder) /\
      let args := launch_args c fileName (le_rconpass e) in
      lw_process w' = Some (GetFactorioBinary c, args) /\ lw_RCONPass w' = le_rconpass e /\
      le_installed e = true /\ le_config e = true /\ 0 <= (WriteAdminlist (le_admins e) (le_players e)).1 /\
      0 <= (WriteWhitelist sort_seen (la_joins c) (le_whitelist e) (le_invites e) (le_players e)).1 /\
      new = pre ++ [Executing (GetFactorioBinary c) (hide_private (le_rconpass e) (Itoa (la_Port c + la_RconOffset c)) <$> args);
                    Started (GetFactorioBinary c) args; PipeSet generation; LinesSet generation] /\
      Forall (fun x => starts x = false) pre /\
      (le_rconpass e <> "***private***" -> le_rconpass e <> "69420" -> le_rconpass e ∉ hide_private (le_rconpass e) (Itoa (la_Port c + la_RconOffset c)) <$> args)
  | Err _ => lw_process w' = lw_process w /\ Forall (fun x => starts x = false) new
  end.
Proof.
  unfold LaunchFactorio. intros Hl.
  destruct (prep saveName w) as [[fileName|er] w1] eqn:Ep; cycle 1.
  { pose proof (quiet_prepare saveName w _ _ Ep) as (Hp & new & He & Hn). unfold mbind, L_bind in Hl. rewrite Ep in Hl. injection Hl as <- <-. by exists new. }
  pose proof (quiet_prepare saveName w _ _ Ep) as (Hp & new1 & He1 & Hn1). pose proof (prepare_ok _ _ _ _ Ep) as (Hi & (folder & Hs) & Hr & Hc & Ha & Hw).
  unfold mbind at 1, L_bind at 1 in Hl. rewrite Ep in Hl. unfold run_game in Hl. cbv zeta in Hl.
  destruct (reset_throttle e w1) as [r2 w2] eqn:E2. pose proof (quiet_reset w1 _ _ E2) as (Hp2 & new2 & He2 & Hn2).
  assert (r2 = Ok tt /\ lw_RCONPass w2 = lw_RCONPass w1) as [-> Hr2] by (unfold reset_throttle in E2; destruct (_ && _); by injection E2 as <- <-).
  unfold mbind at 1, L_bind at 1 in Hl. rewrite E2 in Hl.
  rewrite launch_emit_bind, change_bind, launch_emit_bind in Hl. apply start_process_spec in Hl.
  destruct Hl as [(-> & Hp3 & Hr3 & He3)|(er & -> & Hp3 & new3 & He3 & Hn3)]; cbn [lw_process lw_RCONPass lw_effects] in Hp3, He3.
  - eexists. split; [rewrite He3; cbn; rewrite He2, He1, <-!app_assoc; reflexivity|].
    exists fileName, folder, (new1 ++ new2 ++ [ResetGametime]). split; [done|]. cbv zeta. split_and!; try done.
    + rewrite Hr3. cbn. congruence.
    + by rewrite <-!app_assoc.
    + rewrite !Forall_app. split_and!; [done..|by constructor].
    + apply hidden_args.
  - eexists. split; [rewrite He3; cbn; rewrite He2, He1, <-!app_assoc; reflexivity|]. split; [rewrite Hp3; cbn; congruence|].
    rewrite !Forall_app. split_and!; try done; by repeat constructor.
Qed.

Lemma launch_prepared generation n w p w1 : prep n w = (Ok p, w1) -> launch generation n w = run_game c e generation p w1.
Proof. intros E. unfold LaunchFactorio. by rewrite (bind_done _ _ _ _ _ E). Qed.
End launch_theorems.

(** ** The throttle and the output *)
Lemma throttle_wait_bound views n i : (fst (throttle_wait views n i) <= i + n)%nat.
Proof. revert i. induction n as [|n IH]; intros i; cbn [throttle_wait]; [cbn; lia|]. destruct (_ && _); [|cbn; lia]. specialize (IH (S i)). lia. Qed.

Section line_theorems.
Context `{UnicodeTables}.

(** The runs of the reader and its consumer, with the lines that were read so far; a line is
    marked when its process was the current one. *)
Inductive line_run : list (bool * string) -> line_world -> Prop :=
  | run_start : line_run [] (mkLines [] [] [] [])
  | run_read ls w current line : line_run ls w -> line_run (ls ++ [(current, line)]) (read_line current line w)
  | run_take ls w line q : line_run ls w -> li_queue w = line :: q -> line_run ls (w <| li_queue := q |> <| li_taken ::= fun l => l ++ [line] |>).

(** (invariant) no line is read twice or forgotten: each was taken, waits, was handled at once or
    was given up; the taken ones keep their order and the waiting ones follow; the channel
    never holds more than its capacity; and a line of the current process that changes its
    state is never given up. *)
Theorem critical_lines_are_never_lost ls w : line_run ls w ->
  ls.*2 ≡ₚ li_taken w ++ li_queue w ++ li_handled w ++ li_lost w /\
  sublist (li_taken w ++ li_queue w) ls.*2 /\
  Z.of_nat (length (li_queue w)) <= FactorioStdoutChannelCapacity /\
  Forall (fun line => isCriticalFactorioLine line = false \/ (false, line) ∈ ls) (li_lost w) /\
  Forall (fun line => isCriticalFactorioLine line = true) (li_handled w).
Proof.
  induction 1 as [|ls w current line Hr (Hp & Hs & Hc & Hl & Hh)|ls w line q Hr (Hp & Hs & Hc & Hl & Hh) E].
  - split_and!; try done; by constructor.
  - rewrite fmap_app. cbn [fmap list_fmap snd]. unfold read_line.
    assert (Hl' : Forall (fun l => isCriticalFactorioLine l = false \/ (false, l) ∈ ls ++ [(current, line)]) (li_lost w)).
    { eapply Forall_impl; [exact Hl|]. intros l [?|?]; [by left|right; rewrite elem_of_app; by left]. }
    destruct (Z.ltb_spec (Z.of_nat (length (li_queue w))) FactorioStdoutChannelCapacity) as [Hlt|Hge]; [|destruct (isCriticalFactorioLine line && current) eqn:Ec];
      cbn.
    + split_and!; try done; [rewrite Hp; solve_Permutation|rewrite app_assoc; by apply sublist_app|rewrite length_app; cbn; lia].
    + bool_hyps. split_and!; try done; [rewrite Hp; solve_Permutation|by apply sublist_inserts_r|rewrite Forall_app; split; [done|by repeat constructor]].
    + split_and!; try done; [rewrite Hp; solve_Permutation|by apply sublist_inserts_r|].
      rewrite Forall_app. split; [done|]. constructor; [|constructor]. apply andb_false_iff in Ec as [Ec|Ec]; [by left|]. subst current. right. rewrite elem_of_app. right. by left.
  - rewrite E in Hp, Hs, Hc. cbn in *. rewrite <-!app_assoc. cbn [app]. split_and!; try done; lia.
Qed.
End line_theorems.

(** ** Examples *)
Module LauncherDemo.
#[local] Existing Instance ascii_tables.

(** An archive format: each file as the lengths of its name and its data, in unary, and the two. *)
Definition unary (n : nat) : bytes := repeat "a"%char n ++ ["b"%char].
Definition pack_file (f : zipFilesData) : bytes :=
  unary (length (to_bytes (zf_Name f))) ++ unary (length (to_bytes (zf_Data f))) ++ to_bytes (zf_Name f) ++ to_bytes (zf_Data f).
Definition zip_write (l : list zipFilesData) : string := of_bytes (mjoin (pack_file <$> l)).

Fixpoint read_unary (b : bytes) : nat * bytes :=
  match b with "a"%char :: b => let '(n, b) := read_unary b in (S n, b) | _ :: b => (0%nat, b) | [] => (0%nat, []) end.
Fixpoint unpack (fuel : nat) (b : bytes) : option (list zip_entry) :=
  match fuel, b with
  | _, [] => Some []
  | O, _ => None
  | S fuel, b =>
      let '(n, b) := read_unary b in
      let '(m, b) := read_unary b in
      let data := of_bytes (take m (drop n b)) in
      cons {| ze_Name := of_bytes (take n b); ze_Content := Some data; ze_UncompressedSize64 := slen data |} <$> unpack fuel (drop m (drop n b))
  end.
#[local] Instance launch_archives : Archives := {|
  zip_files := fun data => if String.eqb data "damaged" then Some [{| ze_Name := "s/level.dat0"; ze_Content := Some (of_bytes (repeat "x"%char 9)); ze_UncompressedSize64 := 9 |};
                                                                 {| ze_Name := "s/level.dat1"; ze_Content := None; ze_UncompressedSize64 := 9 |}]
                           else unpack (String.length data) (to_bytes data);
  unmarshal_mod_info := fun _ => None;
  sha1_sum := to_bytes |}.

Lemma read_unary_app n b : read_unary (unary n ++ b) = (n, b).
Proof. unfold unary. rewrite <-app_assoc. induction n as [|n IH]; [done|]. cbn [repeat app read_unary] in *. by rewrite IH. Qed.

Lemma unpack_pack fuel l : (length l <= fuel)%nat -> unpack fuel (mjoin (pack_file <$> l)) = Some (entry_of <$> l).
Proof.
  revert fuel. induction l as [|f l IH]; intros [|fuel] Hf; cbn [length] in Hf; [done|done|lia|].
  change (mjoin (pack_file <$> f :: l)) with (pack_file f ++ mjoin (pack_file <$> l)). unfold pack_file at 1. rewrite <-!app_assoc.
  assert (exists x b, unary (length (to_bytes (zf_Name f))) ++ unary (length (to_bytes (zf_Data f))) ++ to_bytes (zf_Name f) ++ to_bytes (zf_Data f) ++ mjoin (pack_file <$> l) = x :: b)
    as (x & b & E) by (destruct (to_bytes (zf_Name f)); cbn; eauto).
  rewrite E. cbn [unpack]. rewrite <-E, !read_unary_app, take_app_length, !drop_app_length, take_app_length, !of_to_bytes, IH by lia. done.
Qed.

Lemma zip_written l : zip_files (zip_write l) = Some (entry_of <$> l).
Proof.
  assert (Hlen : (length l <= length (mjoin (pack_file <$> l)))%nat).
  { induction l as [|f l IH]; [done|]. change (mjoin (pack_file <$> f :: l)) with (pack_file f ++ mjoin (pack_file <$> l)). rewrite length_app. cbn [length]. assert (1 <= length (pack_file f))%nat; [|lia].
    unfold pack_file, unary. rewrite !length_app. cbn. lia. }
  unfold zip_files, launch_archives, zip_write. destruct (String.eqb_spec (of_bytes (mjoin (pack_file <$> l))) "damaged") as [E|_].
  - exfalso. apply (f_equal to_bytes) in E. rewrite to_of_bytes in E. destruct l as [|f l]; [discriminate E|]. change (mjoin (pack_file <$> f :: l)) with (pack_file f ++ mjoin (pack_file <$> l)) in E.
    unfold pack_file, unary in E. destruct (to_bytes (zf_Name f)); discriminate E.
  - rewrite to_of_bytes. apply unpack_pack. pose proof (length_to_bytes (of_bytes (mjoin (pack_file <$> l)))) as Hl. rewrite to_of_bytes in Hl. unfold slen in Hl. lia.
Qed.

(** The old save and the soft mod of the examples. *)
Definition big : string := of_bytes (repeat "x"%char (Z.to_nat 51201)).
Lemma big_size : LevelDatMinSize < slen big.
Proof. unfold big. rewrite <-length_to_bytes, to_of_bytes, repeat_length, Z2Nat.id by lia. unfold LevelDatMinSize. lia. Qed.
Definition old_files : list zipFilesData := [mkZipFile "s/control.lua" "old"; mkZipFile "s/level.dat0" big].
Definition opens (f : zip_entry) : bool := true.
Definition softmod : option (list disk_node) := Some [DiskFile "control.lua" (Some "new"); DiskFolder "out" (Some [DiskFile "x.lua" (Some "")]); DiskFile "README.md" (Some "")].
Definition no_failure : inject_env := mkInjectEnv true true (fun _ => true) true true.
Definition packed : list zipFilesData := [mkZipFile "s/level.dat0" big; mkZipFile "s/control.lua" "new"; mkZipFile "s/README.md" ""].

Lemma old_save_good : CheckSave opens (Some (zip_write old_files)) = (true, "s").
Proof.
  unfold CheckSave. cbn [mbind option_bind]. rewrite zip_written. pose proof big_size as Hb. apply Z.ltb_lt in Hb. unfold old_files. cbn [fmap list_fmap check_level].
  change (opens _) with true. cbn [negb]. change (HasSuffix _ "level.dat0") with false at 1. change (HasSuffix (ze_Name (entry_of (mkZipFile "s/level.dat0" big))) "level.dat0") with true.
  cbn [ze_Content entry_of zf_Data ze_Name]. by rewrite Hb.
Qed.
Lemma read_entry_of folder f : read_entry opens folder (entry_of f) = if keepSaveEntry (zf_Name f) folder then [f] else [].
Proof. unfold read_entry, opens. cbn [entry_of ze_Name ze_Content ze_UncompressedSize64]. rewrite Z.eqb_refl, andb_true_r. by destruct f. Qed.
Lemma old_save_packed : injectSoftMod opens no_failure softmod (Some (zip_write old_files)) "s" = Some packed.
Proof.
  unfold injectSoftMod. cbn [mbind option_bind]. rewrite zip_written. unfold old_files. cbn [mbind option_bind].
  change (read_save opens "s" _) with (read_entry opens "s" (entry_of (mkZipFile "s/control.lua" "old")) ++ read_entry opens "s" (entry_of (mkZipFile "s/level.dat0" big)) ++ []).
  rewrite !read_entry_of. reflexivity.
Qed.
Lemma softmod_keeps_the_level_witness : CheckSave opens (Some (zip_write packed)) = (true, "s").
Proof.
  apply (softmod_keeps_the_level opens zip_write zip_written (fun _ => eq_refl) no_failure softmod (zip_write old_files) packed "s" old_save_good old_save_packed).
  rewrite zip_written. intros l f Hl. apply (inj Some) in Hl. subst l. unfold old_files. cbn [fmap list_fmap]. rewrite !elem_of_cons, elem_of_nil. intros [->|[->|[]]]; [discriminate|]. intros _. split; [reflexivity|].
  intros d Hd. apply (inj Some) in Hd. by subst d.
Defined.

(** The newest save is damaged, the one before is launched. *)
Definition newer (f g : save_file) : Prop := sf_ModTime g <= sf_ModTime f.
#[local] Instance newer_dec f g : Decision (newer f g).
Proof. unfold newer. apply _. Defined.
#[local] Instance newer_total : Total newer.
Proof. intros f g. unfold newer. lia. Qed.
#[local] Instance newer_trans : Transitive newer.
Proof. intros f g h. unfold newer. lia. Qed.
Definition newest_first : list save_file -> list save_file := merge_sort newer.
Definition good_save : save_file := mkSaveFile "a.zip" false 5 (Some (zip_write old_files)).
Definition saves : list save_file := [good_save; mkSaveFile "b.zip" false 9 None; mkSaveFile "c.tmp.zip" false 11 None; mkSaveFile "d.zip" true 12 None].
Definition config : launch_config :=
  mkLaunchConfig "/srv/" "cw-" "a" "factorio" "saves" "bin/x64/factorio" 10000 100 true (mkJoin false true false) false "" false "" false.

Lemma good_save_selected : selectLaunchSave opens newest_first config (Some saves) "" = (true, "/srv/cw-a/factorio/saves/a.zip", "s").
Proof.
  unfold selectLaunchSave. cbn [bool_decide]. change (GetSaveGame opens newest_first config (Some saves) = (true, "/srv/cw-a/factorio/saves/a.zip", "s")).
  unfold GetSaveGame. change (newest_first (List.filter is_save saves)) with [mkSaveFile "b.zip" false 9 None; good_save]. cbn [first_good]. change (CheckSave opens (sf_Content (mkSaveFile "b.zip" false 9 None))) with (false, "").
  change (CheckSave opens (sf_Content good_save)) with (CheckSave opens (Some (zip_write old_files))). rewrite old_save_good. reflexivity.
Qed.
Lemma launched_save_is_the_right_one_witness : exists f, f ∈ saves /\ is_save f = true /\ "/srv/cw-a/factorio/saves/a.zip" = GetSavesFolder config +:+ "/" +:+ sf_Name f.
Proof.
  destruct (launched_save_is_the_right_one opens newest_first (fun l => merge_sort_Permutation newer l) (fun l => StronglySorted_merge_sort newer l)
    config saves "" _ _ _ good_save_selected) as (_ & Hs & _). destruct (Hs eq_refl eq_refl) as (f & Hf1 & Hf2 & Hf3 & _). by exists f.
Defined.

(** A launch, three minutes after the last one, which ran for a week. *)
Definition env : launch_env := mkLaunchEnv true (Some saves) (fun _ => (true, 2)) "secret" None no_failure true true true NoInvites []
  (20000 * Day) (20000 * Day + Minute) None None None.
Definition world : launch_world := mkLaunchWorld true 2 "1.0" "/p" ["someone"] 5 "old" 3 None [].
Definition launched : result string unit * launch_world := LaunchFactorio opens newest_first (fun l => l) config env 7 "" world.
Definition launch_line : list string :=
  ["--start-server"; "/srv/cw-a/factorio/saves/a.zip"; "--rcon-port"; "10100"; "--rcon-password"; "secret"; "--port"; "10000";
   "--server-settings"; "/srv/cw-a/factorio/server-settings.json"; "--use-authserver-bans"; "--use-server-whitelist"; "true";
   "--server-adminlist"; "/srv/cw-a/factorio/server-adminlist.json"].

Lemma save_chosen w : choose_save opens newest_first config env "" w = (Ok ("/srv/cw-a/factorio/saves/a.zip", "s"), w).
Proof. unfold choose_save. change (le_saves env) with (Some saves). by rewrite good_save_selected. Qed.
Lemma launched_ok : launched.1 = Ok tt /\ lw_RelaunchThrottle launched.2 = 3 /\ lw_process launched.2 = Some ("/srv/cw-a/factorio/bin/x64/factorio", launch_line).
Proof.
  assert (exists w1, prepare opens newest_first (fun l => l) config env "" world = (Ok "/srv/cw-a/factorio/saves/a.zip", w1) /\ lw_RelaunchThrottle w1 = 3) as (w1 & E & Ht).
  { unfold prepare. rewrite launch_emit_bind, change_bind, (bind_done _ _ _ _ _ (eq_refl : check_install config env _ = (Ok tt, _))), (bind_done _ _ _ _ _ (save_chosen _)).
    eexists. split; reflexivity. }
  assert (El : launched = run_game config env 7 "/srv/cw-a/factorio/saves/a.zip" w1) by exact (launch_prepared _ _ _ _ _ _ _ _ _ _ E).
  rewrite El. split_and!; [reflexivity|exact Ht|reflexivity].
Qed.
Lemma launch_starts_the_game_or_nothing_witness : exists pre, lw_effects launched.2 =
  [] ++ pre ++ [Executing "/srv/cw-a/factorio/bin/x64/factorio" (hide_private "secret" "10100" <$> launch_line); Started "/srv/cw-a/factorio/bin/x64/factorio" launch_line; PipeSet 7; LinesSet 7].
Proof.
  destruct (launch_starts_the_game_or_nothing opens newest_first (fun l => l) config env 7 "" world launched.1 launched.2) as (new & E & Hn); [unfold launched; by destruct (LaunchFactorio _ _ _ _ _ _ _ _)|].
  destruct launched_ok as (Hok & _ & Hp). rewrite Hok in Hn. destruct Hn as (fileName & folder & pre & Hs & _ & _ & _ & _ & _ & _ & En & _).
  change (le_saves env) with (Some saves) in Hs. rewrite good_save_selected in Hs. injection Hs as <- <-. exists pre. rewrite E, En. reflexivity.
Defined.
(** The manager sets the time of the start before it launches, so the throttle counts every start
    since the last stop by hand, however long the game has run
    ([src/support/launcher_factorio.go:176]). *)
Theorem long_run_is_still_throttled : lw_RelaunchThrottle world = 2 /\ lw_RelaunchThrottle launched.2 = 3.
Proof. split; [done|apply launched_ok]. Qed.

Definition line_state : line_world := read_line true "1.0 Goodbye" (mkLines [] [] [] []).
Lemma critical_lines_are_never_lost_witness : [ "1.0 Goodbye" ] ≡ₚ li_taken line_state ++ li_queue line_state ++ li_handled line_state ++ li_lost line_state.
Proof. destruct (critical_lines_are_never_lost [(true, "1.0 Goodbye")] line_state) as [Hp _]; [exact (run_read [] _ true "1.0 Goodbye" run_start)|exact Hp]. Defined.

(** An entry that cannot be read is left out of the new save, which then replaces the only copy
    ([src/support/launcher_softmod.go:86]). *)
Example damaged_entry_is_dropped : zf_Name <$> default [] (injectSoftMod opens no_failure softmod (Some "damaged") "s") = ["s/level.dat0"; "s/control.lua"; "s/README.md"].
Proof. by vm_compute. Qed.
(** The words of the black list are searched in the whole name, which begins with the folder of
    the save: no script is packed into a save whose folder is called [outpost]
    ([src/support/launcher_softmod.go:122]). *)
Example folder_name_hides_softmod : zf_Name <$> softmod_files (readFolder softmod "outpost") = ["outpost/README.md"].
Proof. by vm_compute. Qed.
End LauncherDemo.
