(* ===== verification/DiscordMsg.v ===== *)
(** * Messages from Discord: [src/discordMsg.go]

    What is written in a channel of the guild is searched for registration codes, and what
    members write in the chat channel of the server is said in the game, with the name of
    the author and a word for the highest role.  What the Discord library makes of a
    message (its text with the mentions replaced, the author, the roles) comes with it; the
    answer of the library to a request is not used. *)
From Stdlib Require Import Ascii.
From S2P Require Import Prelude.
From S2P Require Import GoInt.
From S2P Require Import GoString.
From S2P Require Import GoTime.
From S2P Require Import Glob.
From S2P Require Import PlayerDB.
From S2P Require Import Moderation.
From S2P Require Import Sanitize.
From S2P Require Import SanitizeSafety.
From S2P Require Import OutputLine.
From S2P Require Import OutputAccess.
From S2P Require Import Commands.
From S2P Require Import Console.
#[local] Open Scope handler_scope.

Record author := mkAuthor { au_ID : string; au_Username : string; au_GlobalName : string; au_Bot : bool }.
Record attachment := mkAttachment { at_ContentType : string; at_URL : string }.
Record discord_message := mkMessage {
  dm_ID : string; dm_ChannelID : string; dm_Author : author; dm_Content : string;
  dm_Attachments : list attachment; dm_Stickers : list string; dm_Member : option Member }.

Inductive msg_effect :=
  | WarningEmbed (channel text : string)
  | DeleteMessage (channel id : string)
  | BreakContinuity
  | Seen (name : string)
  | ToGame (text : string)
  | ToLog (text : string).
#[export] Instance msg_effect_eq_dec : EqDecision msg_effect.
Proof. solve_decision. Defined.

(** The members of the guild with their roles, where it is known ([disc.Guild]). *)
Record msg_env := mkMsgEnv { me_self : string; me_members : list (string * list string); me_cfg : commands_config; me_booted : bool; me_running : bool }.

Section messages.
Context `{UnicodeTables, PrintTable}.
Variable env : msg_env.
Variables order players_order : list string.   (* of the codes, of the players *)

(** [src/disc/playerRoles.go] *)
Definition IsPatreon (id : string) : bool :=
  if bool_decide (id = "") then false
  else
    let rc := cc_Roles (me_cfg env) in
    existsb (fun m => bool_decide (m.1 = id) && existsb (fun r => EqualFold r (rc_Patreon rc) || EqualFold r (rc_Supporter rc)) m.2) (me_members env).

(** What is joined to the text. *)
Definition join_more (head : string) (present : bool) (items : list string) : string :=
  (if present then head else "") +:+ Join (List.filter (fun i => negb (bool_decide (i = ""))) items) ", ".
Definition attachment_text (a : attachment) : string := if bool_decide (at_URL a = "") then "" else at_ContentType a +:+ ": " +:+ at_URL a.
Definition full_text (m : discord_message) : string :=
  UnicodeCleanup (dm_Content m)
  +:+ join_more "Attachments: " (negb (bool_decide (dm_Attachments m = []))) (attachment_text <$> dm_Attachments m)
  +:+ join_more "Stickers: " (negb (bool_decide (dm_Stickers m = []))) (dm_Stickers m).
Definition limit_size (message : string) : string :=
  if 500 <? slen message then TruncateStringEllipsis message 500 +:+ "(cut, too long!)" else message.

(** The role that is shown. *)
Definition namePrefix (m : discord_message) : string :=
  let interaction := mkInteraction "" "" "" (dm_Member m) OtherInteraction in
  let cfg := me_cfg env in
  if CheckAdmin cfg interaction then "(Admin) "
  else if CheckModerator cfg interaction then "(Moderator) "
  else if IsPatreon (au_ID (dm_Author m)) || CheckSupporter cfg interaction then "(Supporter) "
  else if CheckVeteran cfg interaction then "(Veteran) "
  else if CheckRegular cfg interaction then "(Regular) "
  else if CheckMember cfg interaction then "(Member) "
  else "".

(** The name that is shown; [None] where the user of the member is a nil pointer. *)
Definition discord_name (m : discord_message) : option string :=
  let name := UnicodeCleanup (au_GlobalName (dm_Author m)) in
  let name := if slen name <? 2 then au_Username (dm_Author m) else name in
  name ← (if slen name <? 2 then id ← dm_Member m ≫= mb_User; Some ("ID#" +:+ id) else Some name);
  Some (TruncateString name 64).

Definition game_text (m : discord_message) (name factName cleanedMessage : string) : string :=
  let factNameReduced := AlphaOnly (ToLower factName) in
  let discNameReduced := AlphaOnly (ToLower (au_GlobalName (dm_Author m))) in
  let factorioName := TruncateString (UnicodeCleanup factName) 64 in
  if negb (bool_decide (factName = "")) && negb (Contains factNameReduced discNameReduced) && negb (Contains discNameReduced factNameReduced)
  then "[Discord] " +:+ namePrefix m +:+ name +:+ "(" +:+ factorioName +:+ "): " +:+ cleanedMessage
  else "[Discord] " +:+ namePrefix m +:+ name +:+ ": " +:+ cleanedMessage.

Definition misplaced_text : string :=
  "You are supposed to type that into Factorio, not Discord... Invalidating code. Please read the directions more carefully...".

(** A message that reached the chat channel: what is said and logged. *)
Definition relay_message (m : discord_message) (message : string) : H (list msg_effect) :=
  let cleanedMessage := RemoveDiscordMarkdown message in
  factName ← get (fun w => GetFactorioNameFromDiscordID players_order (au_ID (dm_Author m)) (ow_db w));
  match discord_name m with
  | None => panic
  | Some name =>
      let output := game_text m name factName cleanedMessage in
      mret ([Seen factName] ++ (if me_booted env && me_running env then [ToGame output] else []) ++ [ToLog output])
  end.

Definition handleDiscordMessages (m : discord_message) : H (list msg_effect) :=
  found ← ProtectIdiots order (UnicodeCleanup (dm_Content m));
  let withdrawn : list msg_effect :=
    if (found : bool) then [WarningEmbed (dm_ChannelID m) (au_Username (dm_Author m) +:+ ": " +:+ misplaced_text); DeleteMessage (dm_ChannelID m) (dm_ID m)] else [] in
  if bool_decide (au_ID (dm_Author m) = me_self env) then mret withdrawn
  else if au_Bot (dm_Author m) then mret withdrawn
  else
    let message := full_text m in
    if bool_decide (message = "") then mret withdrawn
    else
      let message := limit_size message in
      if EqualFold (cc_ChatChannel (me_cfg env)) (dm_ChannelID m) && negb (bool_decide (cc_ChatChannel (me_cfg env) = "")) then
        said ← relay_message m message;
        mret (withdrawn ++ [BreakContinuity] ++ said)
      else mret (withdrawn ++ [BreakContinuity]).
End messages.

(** ** Lengths *)
Lemma slen_app s t : slen (s +:+ t) = slen s + slen t.
Proof. rewrite <-!length_to_bytes, to_bytes_app, length_app. lia. Qed.
Lemma slice_length s n : 0 <= n -> slen (slice_to s n) <= n.
Proof. intros Hn. unfold slice_to, slen. pose proof (take_length_le (Z.to_nat n) s). lia. Qed.
Lemma TruncateString_length s n : 0 <= n -> slen (TruncateString s n) <= n.
Proof. intros Hn. unfold TruncateString. destruct (Z.ltb_spec n (slen s)); [by apply slice_length|done]. Qed.
Lemma limit_size_length s : slen (limit_size s) <= 516.
Proof.
  unfold limit_size. destruct (Z.ltb_spec 500 (slen s)) as [Hl|Hl]; [|lia]. rewrite slen_app. unfold TruncateStringEllipsis.
  destruct (Z.ltb_spec 500 (slen s)); [|lia]. cbv zeta. change (if 3 <? 500 then 500 - 3 else 500) with 497. rewrite slen_app.
  pose proof (slice_length s 497 ltac:(lia)). change (slen "...") with 3. change (slen "(cut, too long!)") with 16. lia.
Qed.
Lemma markdown_shorter s : slen (RemoveDiscordMarkdown s) <= slen s.
Proof.
  unfold RemoveDiscordMarkdown. generalize (S (String.length s)) as fuel. intros fuel. revert s. induction fuel as [|fuel IH]; intros s; cbn [remove_markdown]; [done|].
  destruct (all_bytes plain_byte s); [done|]. etransitivity; [apply IH|]. unfold slen.
  pose proof (keep_bytes_length plain_byte s). pose proof (keep_bytes_length (fun c => negb (Ascii.eqb c "`"%char)) (keep_bytes plain_byte s)). lia.
Qed.

Section said.
Context `{UnicodeTables, PrintTable}.
Variable env : msg_env.
Variables order players_order : list string.
Notation handle := (handleDiscordMessages env order players_order).

Lemma prefix_length m : slen (namePrefix env m) <= 12.
Proof. unfold namePrefix. repeat case_match; unfold slen; cbn; lia. Qed.
Lemma name_length m name : discord_name m = Some name -> slen name <= 64.
Proof. unfold discord_name. intros (n & _ & E)%bind_Some. apply (inj Some) in E. subst name. by apply TruncateString_length. Qed.
Lemma game_text_length m name factName cleaned : slen name <= 64 -> slen cleaned <= 516 -> slen (game_text env m name factName cleaned) <= 670.
Proof.
  intros Hn Hc. pose proof (prefix_length m). pose proof (TruncateString_length (UnicodeCleanup factName) 64 ltac:(lia)). unfold game_text.
  destruct (_ && _); rewrite !slen_app; change (slen "[Discord] ") with 10; change (slen "(") with 1; change (slen "): ") with 3; change (slen ": ") with 2; lia.
Qed.

Lemma game_text_parts m name factName cleaned : exists rest, game_text env m name factName cleaned = "[Discord] " +:+ namePrefix env m +:+ name +:+ rest.
Proof.
  unfold game_text. set (fn := TruncateString (UnicodeCleanup factName) 64). destruct (_ && _); [exists ("(" +:+ fn +:+ "): " +:+ cleaned)|exists (": " +:+ cleaned)]; exact eq_refl.
Qed.

(** What the search for codes does when its lock is free. *)
Lemma ProtectIdiots_free text w : passwordLocked w = false ->
  ProtectIdiots order text w = Done (negb (bool_decide (leaked_code order text (ow_PassList w) = "")))
    (if bool_decide (leaked_code order text (ow_PassList w) = "") then w else w <| ow_PassList ::= delete (leaked_code order text (ow_PassList w)) |>).
Proof.
  intros Hw. unfold ProtectIdiots, lock_passwords, unlock_passwords, get, modify, mbind, H_bind, mret, H_ret. rewrite Hw. cbn.
  destruct (bool_decide (leaked_code order text (ow_PassList w) = "")); cbn; destruct w; cbn in *; by subst.
Qed.

(** (safety) what is said in the game was written by a member in the chat channel of this server
    while the game runs, by no bot and not by the bot of this program; it begins with the mark
    of Discord and the word for the role of the author, and is short enough that the
    console of the game takes it whole. *)
Theorem only_members_are_relayed m w l w' t : handle m w = Done l w' -> ToGame t ∈ l ->
  au_Bot (dm_Author m) = false /\ au_ID (dm_Author m) <> me_self env /\ EqualFold (cc_ChatChannel (me_cfg env)) (dm_ChannelID m) = true /\
  me_booted env = true /\ me_running env = true /\
  (exists name rest, discord_name m = Some name /\ t = "[Discord] " +:+ namePrefix env m +:+ name +:+ rest) /\
  slen t <= 670 /\ TruncateStringEllipsis t 2048 = t.
Proof.
  unfold handleDiscordMessages. unfold mbind at 1, H_bind at 1. destruct (ProtectIdiots _ _ _) as [found w1| |]; [|done|done]. intros Hh Ht.
  set (withdrawn := if found then _ else _) in *. assert (Hno : ToGame t ∉ withdrawn).
  { subst withdrawn. destruct found; rewrite ?elem_of_cons, elem_of_nil; naive_solver. }
  case_bool_decide as Hself; [injection Hh as <- _; done|]. destruct (au_Bot (dm_Author m)); [injection Hh as <- _; done|].
  case_bool_decide; [injection Hh as <- _; done|]. destruct (EqualFold _ _ && _) eqn:Ec; cycle 1.
  { injection Hh as <- _. rewrite elem_of_app in Ht. destruct Ht as [?|Ht]; [done|]. apply list_elem_of_singleton in Ht. discriminate. }
  bool_hyps. unfold relay_message in Hh. cbn [mbind H_bind get] in Hh. destruct (discord_name m) as [name|] eqn:En; [|done]. injection Hh as <- _.
  rewrite elem_of_app, !elem_of_cons, elem_of_app in Ht. destruct Ht as [?|[Ht|[Ht|[Ht|Ht]]]]; [done|discriminate..| |apply list_elem_of_singleton in Ht; discriminate].
  destruct (me_booted env && me_running env) eqn:Eb; [|by apply elem_of_nil in Ht]. apply list_elem_of_singleton in Ht. injection Ht as ->. bool_hyps.
  set (cleaned := RemoveDiscordMarkdown _). set (factName := GetFactorioNameFromDiscordID _ _ _).
  assert (Hl : slen (game_text env m name factName cleaned) <= 670).
  { apply game_text_length; [by apply name_length in En|]. subst cleaned. etransitivity; [apply markdown_shorter|apply limit_size_length]. }
  split_and!; try done.
  - exists name. destruct (game_text_parts m name factName cleaned) as [rest E]. by exists rest.
  - unfold TruncateStringEllipsis. destruct (Z.ltb_spec 2048 (slen (game_text env m name factName cleaned))); [lia|done].
Qed.

(** (safety) a registration code that is written in any channel, by anyone, is withdrawn, and the
    message deleted: as long as the lock of the codes is free, and the author has a name,
    the handler ends with the lock free and all other codes as they were. *)
Theorem code_in_discord_is_withdrawn m w : passwordLocked w = false -> discord_name m <> None ->
  let leaked := leaked_code order (UnicodeCleanup (dm_Content m)) (ow_PassList w) in
  exists l w', handle m w = Done l w' /\ passwordLocked w' = false /\
    (leaked = "" -> w' = w /\ forall c id, DeleteMessage c id ∉ l) /\
    (leaked <> "" -> ow_PassList w' = delete leaked (ow_PassList w) /\ DeleteMessage (dm_ChannelID m) (dm_ID m) ∈ l).
Proof.
  intros Hw Hn leaked. unfold handleDiscordMessages. unfold mbind at 1, H_bind at 1. rewrite ProtectIdiots_free by done. fold leaked.
  set (w1 := if bool_decide (leaked = "") then w else _). set (withdrawn := if negb _ then _ else _).
  assert (Hw1 : passwordLocked w1 = false /\ (leaked = "" -> w1 = w) /\ (leaked <> "" -> ow_PassList w1 = delete leaked (ow_PassList w))).
  { subst w1. case_bool_decide as El; [by rewrite El|]. by destruct w. }
  assert (Hd : (leaked = "" -> withdrawn = []) /\ (leaked <> "" -> DeleteMessage (dm_ChannelID m) (dm_ID m) ∈ withdrawn)).
  { subst withdrawn. case_bool_decide as El; [done|]. split; [done|]. intros _. right. left. }
  destruct Hw1 as (Hw1 & H2 & H3), Hd as [H4 H5].
  assert (Hend : forall more, (forall c id, DeleteMessage c id ∉ more) -> exists l w', Done (withdrawn ++ more) w1 = Done l w' /\ passwordLocked w' = false /\
    (leaked = "" -> w' = w /\ forall c id, DeleteMessage c id ∉ l) /\ (leaked <> "" -> ow_PassList w' = delete leaked (ow_PassList w) /\ DeleteMessage (dm_ChannelID m) (dm_ID m) ∈ l)).
  { intros more Hm. exists (withdrawn ++ more), w1. split_and!; try done.
    - intros El. rewrite (H4 El). split; [by apply H2|]. exact Hm.
    - intros El. split; [by apply H3|]. rewrite elem_of_app. left. by apply H5. }
  assert (Hnil : (mret withdrawn : H _) w1 = Done (withdrawn ++ []) w1) by by rewrite app_nil_r.
  assert (Hnone : forall c id, DeleteMessage c id ∉ ([] : list msg_effect)) by (intros c id Hin; by apply elem_of_nil in Hin).
  case_bool_decide; [rewrite Hnil; by apply Hend|]. destruct (au_Bot (dm_Author m)); [rewrite Hnil; by apply Hend|]. case_bool_decide; [rewrite Hnil; by apply Hend|].
  destruct (EqualFold _ _ && _); [|apply Hend; intros c id Hin; apply list_elem_of_singleton in Hin; discriminate].
  unfold relay_message. cbn [mbind H_bind get]. destruct (discord_name m) as [name|]; [|done]. apply Hend. intros c id.
  destruct (me_booted env && me_running env); cbn [app]; rewrite !elem_of_cons, elem_of_nil; naive_solver.
Qed.
End said.

(** ** Examples *)
Module DiscordMsgDemo.
#[local] Existing Instance ascii_tables.
#[local] Instance demo_print : PrintTable := {| uni_print := fun _ => false |}.

Definition roles : RoleCache := mkRoles "1" "2" "3" "4" "5" "6" "7".
Definition env : msg_env := mkMsgEnv "bot" [] (mkCmdCfg "app" "guild" "chat" "a" "a" roles) true true.
Definition message (name : string) (roles : list string) (text : string) : discord_message :=
  mkMessage "m" "chat" (mkAuthor "9" "user" name false) text [] [] (Some (mkMember None roles)).
Definition world : out_world :=
  mkOut emptyDB [] ∅ ∅ false {["9" := mkPass "secretcode" "9" 0]} false 0 [] false "" false zeroTime "" zeroTime zeroTime "" "" "" 0 "" "" 0 "Unknown" 0.
Definition said (m : discord_message) : list string :=
  match handleDiscordMessages env ["9"] [] m world with Done l _ => omap (fun e => match e with ToGame t => Some t | _ => None end) l | _ => [] end.

Example regular_speaks : said (message "Ann" ["3"] "hello *all*") = ["[Discord] (Regular) Ann: hello all"].
Proof. by vm_compute. Qed.

(** A member who calls himself a moderator looks like one in the game. *)
Theorem role_can_be_imitated text : said (message "Ann" ["2"] "bye") = ["[Discord] (Moderator) Ann: bye"] /\ said (message "(Moderator) Ann" [] "bye") = ["[Discord] (Moderator) Ann: bye"] /\
  namePrefix env (message "(Moderator) Ann" [] text) = "".
Proof. split_and!; by vm_compute. Qed.

Definition leak : discord_message := message "Ann" [] "secret code".
Definition handled : ran (list msg_effect) := handleDiscordMessages env ["9"] [] leak world.
Lemma code_in_discord_is_withdrawn_witness : exists l w', handled = Done l w' /\ ow_PassList w' = delete "9" (ow_PassList world) /\ DeleteMessage "chat" "m" ∈ l.
Proof.
  assert (E : leaked_code ["9"] (UnicodeCleanup (dm_Content leak)) (ow_PassList world) = "9") by (by vm_compute).
  destruct (code_in_discord_is_withdrawn env ["9"] [] leak world eq_refl ltac:(discriminate)) as (l & w' & El & _ & _ & Hd). rewrite E in Hd. exists l, w'. split; [exact El|].
  apply Hd. discriminate.
Defined.
Lemma only_members_are_relayed_witness : exists l w', handleDiscordMessages env ["9"] [] (message "Ann" ["3"] "hello") world = Done l w' /\
  slen "[Discord] (Regular) Ann: hello" <= 670 /\ EqualFold "chat" "chat" = true.
Proof.
  destruct (handleDiscordMessages env ["9"] [] (message "Ann" ["3"] "hello") world) as [l w'| |] eqn:E; [|by vm_compute in E..].
  assert (El : l = [BreakContinuity; Seen ""; ToGame "[Discord] (Regular) Ann: hello"; ToLog "[Discord] (Regular) Ann: hello"]).
  { assert (match handleDiscordMessages env ["9"] [] (message "Ann" ["3"] "hello") world with Done l _ => l | _ => [] end = [BreakContinuity; Seen ""; ToGame "[Discord] (Regular) Ann: hello"; ToLog "[Discord] (Regular) Ann: hello"]) as Hl by (by vm_compute).
    by rewrite E in Hl. }
  exists l, w'. split; [reflexivity|]. subst l.
  destruct (only_members_are_relayed env ["9"] [] _ world _ w' "[Discord] (Regular) Ann: hello" E ltac:(vm_decide)) as (_ & _ & Hc & _ & _ & _ & Hl & _). split; [exact Hl|exact Hc].
Defined.
End DiscordMsgDemo.
