(* ===== verification/MapList.v ===== *)
(** * Choosing a map: [ShowMapList], [ShowFullMapList] and [DoChangeMap] of [src/fact/util.go]

    The menu of the saves that members vote on and moderators choose from, the full list,
    and what a choice does.  The saves folder is the list [os.ReadDir] returns and [newest]
    what [sort.Slice] makes of it, as in Launcher.v; the names of durations come from the
    third-party package durafmt. *)
From Stdlib Require Import Ascii.
From S2P Require Import Prelude.
From S2P Require Import GoInt.
From S2P Require Import GoString.
From S2P Require Import GoTime.
From S2P Require Import GoCalendar.
From S2P Require Import ResetSchedule.
From S2P Require Import Launcher.
From S2P Require Import DiscordMsg.

Definition MaxMapResults : Z := 25.
Definition MaxFullMapResults : Z := 500.

Record menu_option := mkOption { mo_Label : string; mo_Description : string; mo_Value : string; mo_Emoji : string }.
Inductive map_answer :=
  | MapError (text : string)
  | MapMenu (custom_id content : string) (options : list menu_option)
  | MapEmbed (description : string).

Definition temporary (cfgName name : string) : bool := HasSuffix name "tmp.zip" || HasSuffix name (cfgName +:+ "_new.zip").
Definition in_menu (cfgName : string) (f : save_file) : bool :=
  HasPrefix (sf_Name f) "_autosave" && HasSuffix (sf_Name f) ".zip" && negb (temporary cfgName (sf_Name f)).
Definition in_full_list (cfgName : string) (f : save_file) : bool := HasSuffix (sf_Name f) ".zip" && negb (temporary cfgName (sf_Name f)).

Section lists.
Context `{Durafmt}.
Variable newest : list save_file -> list save_file.
Variable cfgName : string.
Variable now : time.
Variable s : schedule.

Definition age (f : save_file) : string := durafmt_First2 (Round (Sub now (sf_ModTime f)) Second).

Definition save_option (f : save_file) : menu_option :=
  let saveName := TrimSuffix (sf_Name f) ".zip" in mkOption saveName (age f +:+ " ago") saveName "💾".

Definition static_options : list menu_option :=
  [mkOption "NEW-MAP" "Archive the current map, and generate a new one." "NEW-MAP" "⭐"]
  ++ (if HasResetInterval s && HasResetTime s then
        if negb (sc_SkipReset s) then [mkOption "SKIP-RESET" "Skip the next map reset." "SKIP-RESET" "❇️"]
        else [mkOption "SKIP-RESET" "ALREADY SKIPPED!" "ALREADY-SKIPPED" "🚫"]
      else []).

(** The saves that are listed. *)
Definition listed (limit : Z) (tempf : list save_file) : list save_file := take (Z.to_nat limit) tempf.
Definition menu_saves (files : list save_file) : list save_file := listed (MaxMapResults - 2) (newest (List.filter (in_menu cfgName) files)).

(** [files] is [None] where the folder cannot be read. *)
Definition ShowMapList (voteMode : bool) (files : option (list save_file)) : map_answer :=
  match files with
  | None => MapError "Unable to read saves directory."
  | Some files =>
      if units_fail then MapError "Unable to process save durations."
      else
        let saves := menu_saves files in
        let availableMaps := static_options ++ (save_option <$> saves) in
        if bool_decide (saves = []) then MapError "No saves were found."
        else if voteMode then MapMenu "VoteMap" "Vote for 'new-map', 'skip-reset' or a specific save-game. (two votes needed):" availableMaps
        else MapMenu "ChangeMap" "Change Map:" availableMaps
  end.

Definition newline : string := String (ascii_of_nat 10) "".
Definition full_entry (idx : nat) (f : save_file) : string :=
  TrimPrefix (TrimSuffix (sf_Name f) ".zip") "_autosave" +:+ ": " +:+ age f +:+ (if Nat.even idx then newline else ", ").

Fixpoint full_text (idx : nat) (l : list save_file) (mapList : string) : string :=
  match l with
  | [] => mapList
  | f :: l =>
      let tempStr := full_entry idx f in
      if 4080 <? slen mapList + slen tempStr then mapList +:+ "...(cut, max)"
      else full_text (S idx) l (mapList +:+ tempStr)
  end.

(** A folder that cannot be read is reported, and then taken for an empty one. *)
Definition ShowFullMapList (files : option (list save_file)) : list map_answer :=
  (match files with None => [MapError "Unable to read saves directory."] | Some _ => [] end)
  ++ (if units_fail then [MapError "Unable to process save durations."]
      else
        let saves := listed MaxFullMapResults (newest (List.filter (in_full_list cfgName) (default [] files))) in
        if bool_decide (saves = []) then [MapError "No saves were found."] else [MapEmbed (full_text 0 saves "")]).
End lists.

(** ** What a choice does *)
Inductive change_effect :=
  | CallMapReset
  | ChannelLine (text : string)
  | GameLine (text : string)
  | RequestMap (reason save : string).

Section change.
Context `{UnicodeTables}.

(** [reset_error], [submit_error]: what [Map_reset] and the life cycle answer. *)
Definition DoChangeMap (reset_error submit_error : option string) (arg : string) (s : schedule) : list change_effect * schedule :=
  if EqualFold arg "new-map" then
    ([CallMapReset] ++ match reset_error with
                       | Some err => [ChannelLine ("Unable to reset map: " +:+ err); GameLine ("Unable to reset map: " +:+ err)]
                       | None => []
                       end, s)
  else if EqualFold arg "skip-reset" then
    if HasResetInterval s && HasResetTime s then if negb (sc_SkipReset s) then ([], skip_next s) else ([], s) else ([], s)
  else if EqualFold arg "already-skipped" then ([], s)
  else
    ([RequestMap "Server rebooting to change map!" arg]
     ++ match submit_error with Some err => [ChannelLine ("Unable to change map: " +:+ err)] | None => [] end, s).
End change.

(** ** Theorems *)
Section menu.
Context `{UnicodeTables, Durafmt}.
Variable newest : list save_file -> list save_file.
Hypothesis newest_perm : forall l, newest l ≡ₚ l.
Hypothesis newest_sorted : forall l, StronglySorted (fun f g => sf_ModTime g <= sf_ModTime f) (newest l).
Variable cfgName : string.
Variable now : time.
Variable s : schedule.

Lemma static_values opt : opt ∈ static_options s -> mo_Value opt ∈ ["NEW-MAP"; "SKIP-RESET"; "ALREADY-SKIPPED"].
Proof.
  unfold static_options. destruct (HasResetInterval s && HasResetTime s); [destruct (negb (sc_SkipReset s))|]; cbn [app];
    set_solver.
Qed.
Lemma static_short : (length (static_options s) <= 2)%nat /\ NoDup (mo_Value <$> static_options s).
Proof.
  unfold static_options. destruct (HasResetInterval s && HasResetTime s); [destruct (negb (sc_SkipReset s))|]; (split; [cbn; lia|]);
    cbn; repeat constructor; rewrite ?elem_of_cons, elem_of_nil; naive_solver.
Qed.

(** A file of the menu: its name with the suffix put back, and how it begins. *)
Lemma in_menu_name f : in_menu cfgName f = true -> exists v, sf_Name f = v +:+ ".zip" /\ TrimSuffix (sf_Name f) ".zip" = v /\ HasPrefix v "_" = true.
Proof.
  unfold in_menu. intros Hf. apply andb_true_iff in Hf as [Hf _]. apply andb_true_iff in Hf as [Hp Hs]. apply HasSuffix_spec in Hs as [v Ev].
  exists v. rewrite Ev in *. rewrite TrimSuffix_app. split_and!; try done. clear Ev.
  apply HasPrefix_spec in Hp as [t Et]. destruct v as [|c v]; [discriminate Et|]. injection Et as -> _. apply HasPrefix_spec. by exists v.
Qed.

Lemma menu_saves_in files f : f ∈ menu_saves newest cfgName files -> f ∈ files /\ in_menu cfgName f = true.
Proof.
  unfold menu_saves, listed. intros Hf. assert (Hin : f ∈ newest (List.filter (in_menu cfgName) files)).
  { rewrite <-(take_drop (Z.to_nat (MaxMapResults - 2))), elem_of_app. by left. }
  rewrite newest_perm in Hin. rewrite list_elem_of_In, filter_In, <-list_elem_of_In in Hin. done.
Qed.

Lemma shown_menu vote files id content opts : ShowMapList newest cfgName now s vote (Some files) = MapMenu id content opts ->
  opts = static_options s ++ (save_option now <$> menu_saves newest cfgName files).
Proof. unfold ShowMapList. destruct units_fail; [done|]. case_bool_decide; [done|]. destruct vote; by intros [= _ _ <-]. Qed.

(** (bounds) the menu of the saves fits into a menu of Discord, has no value twice, and holds the
    newest autosaves: no autosave that is left out is newer than one that is shown. *)
Theorem menu_offers_the_newest_saves vote files id content opts : ShowMapList newest cfgName now s vote (Some files) = MapMenu id content opts ->
  Z.of_nat (length opts) <= 25 /\
  (NoDup (sf_Name <$> files) -> NoDup (mo_Value <$> opts)) /\
  (forall f g, f ∈ menu_saves newest cfgName files -> g ∈ files -> in_menu cfgName g = true -> g ∉ menu_saves newest cfgName files -> sf_ModTime g <= sf_ModTime f).
Proof.
  intros ->%shown_menu. split_and!.
  - rewrite length_app, length_fmap. pose proof (proj1 static_short). unfold menu_saves, listed. rewrite length_take. unfold MaxMapResults. lia.
  - intros Hn. rewrite fmap_app. apply NoDup_app. split_and!; [apply static_short| |].
    + intros v Hv (o & -> & (f & -> & Hf)%list_elem_of_fmap)%list_elem_of_fmap. apply list_elem_of_fmap in Hv as (o & Ev & Ho%static_values). rewrite <-Ev in Ho.
      apply menu_saves_in in Hf as [_ (v & _ & Et & Hp)%in_menu_name]. cbn in Ho. rewrite Et in Ho. rewrite !elem_of_cons, elem_of_nil in Ho. destruct Ho as [->|[->|[->|[]]]]; discriminate Hp.
    + rewrite <-list_fmap_compose. assert (Hs : NoDup (menu_saves newest cfgName files)).
      { apply NoDup_fmap_1 in Hn. unfold menu_saves, listed. eapply sublist_NoDup; [|apply sublist_take]. rewrite newest_perm. apply NoDup_ListNoDup, List.NoDup_filter, NoDup_ListNoDup. done. }
      apply NoDup_fmap_2_strong; [|done]. intros f g [Hf (v & Ef & Etf & _)%in_menu_name]%menu_saves_in [Hg (v' & Eg & Etg & _)%in_menu_name]%menu_saves_in E.
      cbn in E. rewrite Etf, Etg in E. subst v'. apply (NoDup_fmap_eq sf_Name files); [done..|congruence].
  - intros f g Hf Hg Hgm Hout. pose proof (newest_sorted (List.filter (in_menu cfgName) files)) as Hs. unfold menu_saves, listed in *.
    set (n := Z.to_nat (MaxMapResults - 2)) in *. set (l := newest (List.filter (in_menu cfgName) files)) in *.
    assert (Hgl : g ∈ l). { subst l. rewrite newest_perm, list_elem_of_In, filter_In, <-list_elem_of_In. done. }
    rewrite <-(take_drop n l), elem_of_app in Hgl. destruct Hgl as [?|Hgl]; [done|]. rewrite <-(take_drop n l) in Hs.
    exact (StronglySorted_app_1_elem_of _ _ _ _ _ Hs Hf Hgl).
Qed.

(** (functional) every value of the menu does what its label says: the first generates a map, the
    second skips the reset that is coming or, when it is skipped already, does nothing, and
    every other one loads the save of that name, which is in the folder. *)
Theorem every_choice_does_what_it_says vote files id content opts opt e1 e2 :
  ShowMapList newest cfgName now s vote (Some files) = MapMenu id content opts -> opt ∈ opts -> all_bytes is_ascii_byte (mo_Value opt) = true ->
  let done := DoChangeMap e1 e2 (mo_Value opt) s in
  (mo_Label opt = "NEW-MAP" /\ head done.1 = Some CallMapReset /\ done.2 = s) \/
  (mo_Label opt = "SKIP-RESET" /\ sc_SkipReset s = false /\ HasResetTime s = true /\ done = ([], skip_next s)) \/
  (mo_Label opt = "SKIP-RESET" /\ sc_SkipReset s = true /\ done = ([], s)) \/
  (exists f, f ∈ files /\ in_menu cfgName f = true /\ sf_Name f = mo_Label opt +:+ ".zip" /\ head done.1 = Some (RequestMap "Server rebooting to change map!" (mo_Label opt)) /\ done.2 = s).
Proof.
  intros ->%shown_menu Ho Ha. cbv zeta. apply elem_of_app in Ho as [Ho|Ho].
  - unfold static_options in Ho. rewrite elem_of_app in Ho. destruct Ho as [->%list_elem_of_singleton|Ho]; [by left|].
    destruct (HasResetInterval s && HasResetTime s) eqn:Er; [|by apply elem_of_nil in Ho]. destruct (sc_SkipReset s) eqn:Es; cbn [negb] in Ho; apply list_elem_of_singleton in Ho as ->.
    + right. right. left. split_and!; try done.
    + right. left. unfold DoChangeMap. cbn [mo_Value mo_Label]. change (EqualFold "SKIP-RESET" "new-map") with false. change (EqualFold "SKIP-RESET" "skip-reset") with true. cbn iota.
      rewrite Er, Es. bool_hyps. done.
  - right. right. right. apply list_elem_of_fmap in Ho as (f & -> & Hf). apply menu_saves_in in Hf as [Hf Hm]. destruct (in_menu_name f Hm) as (v & Ev & Et & Hp).
    unfold save_option in *. cbn [mo_Value mo_Label] in *. rewrite Et in *. exists f. unfold DoChangeMap.
    assert (Hne : forall t, all_bytes is_ascii_byte t = true -> HasPrefix t "_" = false -> (forall c t', t = String c t' -> Ascii.eqb (lower_byte c) "_"%char = false) -> EqualFold v t = false).
    { intros t Hat Hpt Hc. unfold EqualFold. rewrite Ha, Hat. cbn [andb]. apply String.eqb_neq. intros E. destruct v as [|x v]; [done|].
      destruct t as [|c t]; [done|]. cbn in E. injection E as E _. specialize (Hc c t eq_refl). rewrite <-E in Hc. apply HasPrefix_spec in Hp as [v' Ev']. injection Ev' as -> _. discriminate Hc. }
    rewrite !Hne by (try reflexivity; intros ? ? [= <- _]; reflexivity). done.
Qed.

(** (bounds) the full list is short enough for an embed of Discord. *)
Theorem full_list_fits_an_embed files answer : answer ∈ ShowFullMapList newest cfgName now files ->
  match answer with MapEmbed description => slen description <= 4093 | _ => True end.
Proof.
  assert (Hg : forall l idx m, slen m <= 4080 -> slen (full_text now idx l m) <= 4093).
  { induction l as [|f l IH]; intros idx m Hm; cbn [full_text]; [lia|]. destruct (Z.ltb_spec 4080 (slen m + slen (full_entry now idx f))).
    - rewrite slen_app. change (slen "...(cut, max)") with 13. lia.
    - apply IH. rewrite slen_app. lia. }
  unfold ShowFullMapList. rewrite elem_of_app. intros [Ha|Ha].
  - destruct files; [by apply elem_of_nil in Ha|]. by apply list_elem_of_singleton in Ha as ->.
  - destruct units_fail; [by apply list_elem_of_singleton in Ha as ->|]. case_bool_decide; apply list_elem_of_singleton in Ha as ->; [done|]. apply Hg. done.
Qed.
End menu.

(** ** Examples *)
Module MapListDemo.
#[local] Existing Instance ascii_tables.
#[local] Existing Instance LauncherDemo.newer_total.
#[local] Existing Instance LauncherDemo.newer_trans.
#[local] Instance demo_durafmt : Durafmt := {| units_fail := false; durafmt_Format := duration_String; durafmt_First2 := duration_String |}.
Notation newest := LauncherDemo.newest_first.

Definition file (name : string) (t : time) : save_file := mkSaveFile name false t None.
Definition files : list save_file := [file "_autosave1.zip" (3 * Minute); file "_autosave2.zip" (5 * Minute); file "a_new.zip" 0; file "own.zip" Minute; file "_autosavetmp.zip" 0].
Definition weekly : schedule := mkSchedule (20000 * Day) 0 (mkInterval 0 1 0 0) 0 false zeroTime zeroTime [].
Definition menu : list menu_option :=
  [mkOption "NEW-MAP" "Archive the current map, and generate a new one." "NEW-MAP" "⭐"; mkOption "SKIP-RESET" "Skip the next map reset." "SKIP-RESET" "❇️";
   mkOption "_autosave2" "1m0s ago" "_autosave2" "💾"; mkOption "_autosave1" "3m0s ago" "_autosave1" "💾"].
Lemma shown : ShowMapList newest "a" (6 * Minute) weekly false (Some files) = MapMenu "ChangeMap" "Change Map:" menu.
Proof. by vm_compute. Qed.

Lemma menu_offers_the_newest_saves_witness : Z.of_nat (length menu) <= 25 /\ NoDup (mo_Value <$> menu).
Proof.
  destruct (menu_offers_the_newest_saves newest (fun l => merge_sort_Permutation _ l) (fun l => StronglySorted_merge_sort _ l) "a" (6 * Minute) weekly _ _ _ _ _ shown) as (Hl & Hn & _).
  split; [exact Hl|]. apply Hn. vm_decide.
Defined.
Lemma every_choice_does_what_it_says_witness : exists f, f ∈ files /\ sf_Name f = "_autosave2.zip" /\
  head (DoChangeMap None None "_autosave2" weekly).1 = Some (RequestMap "Server rebooting to change map!" "_autosave2").
Proof.
  destruct (every_choice_does_what_it_says newest (fun l => merge_sort_Permutation _ l) "a" (6 * Minute) weekly _ _ _ _ _
    (mkOption "_autosave2" "1m0s ago" "_autosave2" "💾") None None shown ltac:(right; right; left) eq_refl) as [[E _]|[[E _]|[[E _]|(f & Hf & _ & En & Hh & _)]]]; [discriminate E..|].
  exists f. split; [exact Hf|]. split; [exact En|exact Hh].
Defined.
Lemma full_list_fits_an_embed_witness : slen (full_text (6 * Minute) 0 [file "_autosave2.zip" (5 * Minute)] "") <= 4093.
Proof.
  apply (full_list_fits_an_embed newest "a" (6 * Minute) (Some [file "_autosave2.zip" (5 * Minute)]) (MapEmbed (full_text (6 * Minute) 0 [file "_autosave2.zip" (5 * Minute)] ""))).
  vm_compute. left.
Defined.

(** A folder that cannot be read is answered twice: the function goes on after the error
    ([src/fact/util.go:1011]). *)
Theorem unreadable_folder_answered_twice : ShowFullMapList newest "a" 0 None = [MapError "Unable to read saves directory."; MapError "No saves were found."].
Proof. by vm_compute. Qed.
End MapListDemo.
