(* ===== verification/Channel.v ===== *)
(** * The name of the chat channel: [UpdateChannelName], [DoUpdateChannelName] and the
    cooldown of [src/fact/util.go]

    The name of the channel tells how many play and who may join, its topic the next reset
    and where to connect.  Discord allows few renames, so one that comes too early waits on
    a timer.  A timer that fires runs the update and only then, under the lock again,
    forgets the timer that is remembered: in between another call may have set a new one,
    which is then armed without being remembered ([ch_loose]).  The measured speed of the
    game is a float, of which only the comparison is used. *)
From Stdlib Require Import Ascii.
From S2P Require Import Prelude.
From S2P Require Import GoInt.
From S2P Require Import GoString.
From S2P Require Import GoTime.
From S2P Require Import GoCalendar.
From S2P Require Import ResetSchedule.
From S2P Require Import Whitelist.

(** ** The name and the topic *)
Definition icon (o : join_options) (nump : Z) (slow : bool) : string :=
  if slow then
    if nump =? 0 then "⬛" else if jo_RegularsOnly o then "🟧" else if jo_MembersOnly o then "🟩" else if jo_CustomWhitelist o then "🟥" else "⬜"
  else if nump =? 0 then "⚫" else if jo_RegularsOnly o then "🟠" else if jo_MembersOnly o then "🟢" else if jo_CustomWhitelist o then "🔴" else "⚪".

Definition channel_name (o : join_options) (Callsign Name : string) (nump : Z) (slow : bool) : string :=
  if nump =? 0 then icon o nump slow +:+ (Callsign +:+ "-" +:+ Name) else Itoa nump +:+ icon o nump slow +:+ (Callsign +:+ "-" +:+ Name).

Record url_config := mkUrls { uc_EnableSteamURL : bool; uc_Domain : string; uc_SteamURLDomain : string; uc_Port : Z }.
Definition MakeSteamURL (c : url_config) : string * bool :=
  if uc_EnableSteamURL c && negb (bool_decide (uc_Domain c = "localhost")) && negb (bool_decide (uc_Domain c = "")) && negb (bool_decide (uc_SteamURLDomain c = "")) then
    ("https://" +:+ uc_SteamURLDomain c +:+ "/gosteam/427520.--mp-connect%20" +:+ uc_Domain c +:+ ":" +:+ Itoa (uc_Port c), true)
  else ("", false).

Definition new_topic (s : schedule) (c : url_config) : string :=
  let '(url, found) := MakeSteamURL c in
  (if HasResetTime s then "MAP RESET: <t:" +:+ Itoa (sc_NextReset s / Second) +:+ ":F>(LOCAL)" else "")
  +:+ (if (found : bool) then ", CONNECT: " +:+ url else "").

(** ** The cooldown *)
Definition channelUpdateCooldown : duration := 5 * Minute.

(** [ch_timer] is the timer that is remembered, with [None] once it has fired, [ch_loose] the armed ones that are not,
    [ch_ending] the callbacks that have yet to forget the timer, [ch_file] the file the last
    attempt is kept in, [ch_edits] the names that were sent and [ch_attempts] when. *)
Record channel_state := mkChannel {
  ch_New : string; ch_Old : string; ch_oldTopic : string; ch_last : time; ch_timer : option (option time);
  ch_loose : list time; ch_ending : nat; ch_file : option time; ch_edits : list (string * string); ch_attempts : list time }.
#[export] Instance channel_state_settable : Settable channel_state := mkSettable (fun r =>
  mkChannel (ch_New r) (ch_Old r) (ch_oldTopic r) (ch_last r) (ch_timer r) (ch_loose r) (ch_ending r) (ch_file r) (ch_edits r) (ch_attempts r)).

(** What Discord answers, and the configuration that is read. *)
Record channel_env := mkChannelEnv { ce_connected : bool; ce_ChatChannel : string; ce_found : bool; ce_edited : bool; ce_written : bool; ce_topic : string }.

Definition markChannelUpdateAttempted (e : channel_env) (now : time) (c : channel_state) : channel_state :=
  let c := c <| ch_last := now |> <| ch_attempts ::= fun l => l ++ [now] |> in
  if ce_written e then c <| ch_file := Some now |> else c.

Definition resetChannelUpdateCooldown (c : channel_state) : channel_state := c <| ch_timer := None |> <| ch_last := zeroTime |>.

Definition channel_set (e : channel_env) : bool := negb (bool_decide (ce_ChatChannel e = "")) && negb (bool_decide (ce_ChatChannel e = "MY DISCORD CHANNEL ID")).

Definition DoUpdateChannelName (e : channel_env) (now : time) (c : channel_state) : channel_state :=
  if negb (ce_connected e) then c
  else
    let elapsed := Sub now (ch_last c) in
    if negb (IsZero (ch_last c)) && (elapsed <? channelUpdateCooldown) then c <| ch_timer := Some (Some (Add now (channelUpdateCooldown - elapsed))) |>
    else
      let c := c <| ch_timer := None |> in
      if (negb (bool_decide (ch_New c = ch_Old c)) || negb (bool_decide (ch_oldTopic c = ce_topic e))) && channel_set e then
        let c := markChannelUpdateAttempted e now c in
        let chname := ch_New c in
        let c := c <| ch_Old := ch_New c |> in
        if negb (ce_found e) then c
        else
          let c := c <| ch_edits ::= fun l => l ++ [(chname, ce_topic e)] |> in
          if ce_edited e then c <| ch_oldTopic := ce_topic e |> else c
      else c.

Definition DoUpdateChannelNameForce (e : channel_env) (now : time) (c : channel_state) : channel_state := DoUpdateChannelName e now (resetChannelUpdateCooldown c).

(** [when] is what the text in the file parses to. *)
Definition LoadChannelUpdateCooldown (when : option time) (c : channel_state) : channel_state :=
  match ch_file c with
  | None => c
  | Some _ => let c := c <| ch_file := None |> in match when with Some t => c <| ch_last := t |> | None => c end
  end.

(** ** The calls, in any order; [asked] says that the present name was asked to be shown. *)
Inductive channel_step (e : channel_env) : bool * channel_state -> bool * channel_state -> Prop :=
  | step_name a name c : channel_step e (a, c) (false, c <| ch_New := name |>)
  | step_update a now c : channel_step e (a, c) (true, DoUpdateChannelName e now c)
  | step_force a now c : channel_step e (a, c) (true, DoUpdateChannelNameForce e now c)
  | step_fire a t now c : ch_timer c = Some (Some t) -> t <= now -> channel_step e (a, c) (true, DoUpdateChannelName e now (c <| ch_timer := Some None |>) <| ch_ending ::= S |>)
  | step_fire_loose a i t now c : ch_loose c !! i = Some t -> t <= now ->
      channel_step e (a, c) (true, DoUpdateChannelName e now (c <| ch_loose ::= delete i |>) <| ch_ending ::= S |>)
  | step_forget a n c : ch_ending c = S n ->
      channel_step e (a, c) (a, c <| ch_ending := n |> <| ch_timer := None |> <| ch_loose ::= fun l => match ch_timer c with Some (Some t) => t :: l | _ => l end |>).

(** ** Theorems *)
Definition armed (c : channel_state) : Prop := (exists t, ch_timer c = Some (Some t)) \/ ch_loose c <> [].

Lemma update_shows_or_waits e now c : ce_connected e = true -> channel_set e = true ->
  let c' := DoUpdateChannelName e now c in ch_New c' = ch_New c /\ (ch_Old c' = ch_New c' \/ exists t, ch_timer c' = Some (Some t)).
Proof.
  intros Hc Hs. cbv zeta. unfold DoUpdateChannelName. rewrite Hc. cbn [negb]. destruct (negb (IsZero (ch_last c)) && _); [split; [done|right; by eexists]|].
  rewrite Hs, andb_true_r. cbn [ch_New ch_Old ch_oldTopic]. case_bool_decide as En; cbn [negb orb].
  - case_bool_decide; cbn [negb]; unfold markChannelUpdateAttempted; [by split; [|left]|]. destruct (ce_written e), (ce_found e), (ce_edited e); cbn; by split; [|left].
  - unfold markChannelUpdateAttempted. destruct (ce_written e), (ce_found e), (ce_edited e); cbn; by split; [|left].
Qed.

(** (liveness) a name that was asked to be shown was sent to Discord, or a timer is armed that
    will try it again, whatever the calls and the timers do in between. *)
Theorem asked_name_is_sent_or_waits e a c a' c' : ce_connected e = true -> channel_set e = true -> rtc (channel_step e) (a, c) (a', c') ->
  (a = true -> ch_Old c = ch_New c \/ armed c) -> a' = true -> ch_Old c' = ch_New c' \/ armed c'.
Proof.
  intros Hc Hs Hr. remember (a, c) as x eqn:Ex. remember (a', c') as y eqn:Ey. revert a c Ex. induction Hr as [x|x y z Hxy _ IH]; intros a c Ex Hi.
  { rewrite Ex in Ey. injection Ey as <- <-. exact Hi. }
  assert (Hu : forall now k, ch_Old (DoUpdateChannelName e now k) = ch_New (DoUpdateChannelName e now k) \/ exists t, ch_timer (DoUpdateChannelName e now k) = Some (Some t))
    by (intros now k; apply (update_shows_or_waits e now k Hc Hs)).
  subst x. destruct y as [b k]. apply (IH Ey b k eq_refl). clear IH. inversion Hxy; subst.
  - done.
  - intros _. destruct (Hu now c) as [?|?]; [by left|right; by left].
  - intros _. destruct (Hu now (resetChannelUpdateCooldown c)) as [?|?]; [by left|right; by left].
  - intros _. destruct (Hu now (c <| ch_timer := Some None |>)) as [?|?]; [by left|right; by left].
  - intros _. destruct (Hu now (c <| ch_loose ::= delete i |>)) as [?|?]; [by left|right; by left].
  - intros Ht. destruct (Hi Ht) as [?|[[t Et]|Hl]]; [by left|..]; right; right; cbn; [by rewrite Et|by destruct (ch_timer c) as [[]|]].
Qed.

(** (safety) without a forced update two attempts are at least five minutes apart: the attempts
    are in order and the last one is remembered, however often the update is called. *)
Theorem renames_are_five_minutes_apart e times c0 : ch_attempts c0 = [] -> Forall (fun t => t <> zeroTime) times ->
  let c := fold_left (fun c t => DoUpdateChannelName e t c) times c0 in
  forall i t1 t2, ch_attempts c !! i = Some t1 -> ch_attempts c !! S i = Some t2 -> channelUpdateCooldown <= Sub t2 t1.
Proof.
  intros H0 Ht. cbv zeta.
  set (inv := fun c => (forall i t1 t2, ch_attempts c !! i = Some t1 -> ch_attempts c !! S i = Some t2 -> channelUpdateCooldown <= Sub t2 t1) /\
    (forall t, last (ch_attempts c) = Some t -> ch_last c = t /\ t <> zeroTime)).
  assert (Hstep : forall c t, t <> zeroTime -> inv c -> inv (DoUpdateChannelName e t c)).
  { clear. intros c t Ht [Ha Hl]. unfold DoUpdateChannelName. destruct (negb (ce_connected e)); [done|].
    destruct (negb (IsZero (ch_last c)) && (Sub t (ch_last c) <? channelUpdateCooldown)) eqn:Ec; [done|].
    destruct (_ && channel_set e); [|done]. unfold markChannelUpdateAttempted.
    assert (Hnew : (forall i t1 t2, (ch_attempts c ++ [t]) !! i = Some t1 -> (ch_attempts c ++ [t]) !! S i = Some t2 -> channelUpdateCooldown <= Sub t2 t1) /\
                   (forall u, last (ch_attempts c ++ [t]) = Some u -> t = u /\ u <> zeroTime)).
    { split; [|intros u; rewrite last_snoc; by intros [= <-]]. intros i t1 t2 H1 H2. destruct (decide (S i < length (ch_attempts c))%nat) as [Hi|Hi].
      - rewrite lookup_app_l in H1, H2 by lia. by apply (Ha i).
      - pose proof (lookup_lt_Some _ _ _ H2) as Hlen. rewrite length_app in Hlen. cbn in Hlen. assert (Ei : S i = length (ch_attempts c)) by lia.
        rewrite Ei, list_lookup_middle in H2 by done. injection H2 as ->. rewrite lookup_app_l in H1 by lia.
        assert (Hlast : last (ch_attempts c) = Some t1) by (rewrite last_lookup, <-Ei; done). destruct (Hl _ Hlast) as [El Hz]. rewrite El in Ec.
        apply andb_false_iff in Ec as [Ec|Ec]; [|lia]. apply negb_false_iff in Ec. unfold IsZero in Ec. lia. }
    destruct (ce_written e), (ce_found e), (ce_edited e); exact Hnew. }
  assert (Hinv : inv c0). { split; intros *; rewrite H0; done. }
  clear H0. revert c0 Hinv. induction times as [|t times IH]; intros c0 Hinv; [apply Hinv|]. apply Forall_cons in Ht as [Htz Ht]. cbn [fold_left]. apply (IH Ht). by apply Hstep.
Qed.

(** ** Examples *)
Module ChannelDemo.
Definition start : channel_state := mkChannel "5⚪a-Alpha" "" "" zeroTime None [] 0 None [] [].
Definition online : channel_env := mkChannelEnv true "123" true true true "".
Definition offline : channel_env := mkChannelEnv true "123" false false true "".
Definition refused : channel_env := mkChannelEnv true "123" true false true "MAP RESET".
Definition noon : time := 20000 * Day.

Example public_and_slow : channel_name (mkJoin false false true) "a" "Alpha" 3 true = "3🟧a-Alpha" /\ channel_name (mkJoin true false false) "a" "Alpha" 0 false = "⚫a-Alpha".
Proof. by vm_compute. Qed.

(** An attempt that fails counts as a name that is shown: it is not tried again, neither by later
    calls nor by a timer ([src/fact/util.go:807]). *)
Theorem failed_rename_is_forgotten : let c := DoUpdateChannelName online (noon + Hour) (DoUpdateChannelName offline noon start) in
  ch_edits c = [] /\ ch_timer c = None /\ ch_Old c = ch_New c.
Proof. split_and!; by vm_compute. Qed.

Definition shown : channel_state := DoUpdateChannelName online noon start.
Definition renamed : channel_state := shown <| ch_New := "6⚪a-Alpha" |>.
Definition early : channel_state := DoUpdateChannelName online (noon + Minute) renamed.
Lemma asked_name_is_sent_or_waits_witness : ch_Old early = ch_New early \/ armed early.
Proof.
  apply (asked_name_is_sent_or_waits online false start true early eq_refl eq_refl); [|discriminate|reflexivity].
  exact (rtc_l _ _ _ _ (step_update online false noon start) (rtc_l _ _ _ _ (step_name online true "6⚪a-Alpha" shown) (rtc_l _ _ _ _ (step_update online false (noon + Minute) renamed) (rtc_refl _ (true, early))))).
Defined.
Lemma renames_are_five_minutes_apart_witness : channelUpdateCooldown <= Sub (noon + 10 * Minute) noon.
Proof.
  apply (renames_are_five_minutes_apart refused [noon; noon + Minute; noon + 10 * Minute] start eq_refl ltac:(vm_decide) 0%nat); vm_compute; reflexivity.
Defined.
End ChannelDemo.
