(* ===== verification/EditMods.v ===== *)
(** * Editing the mods: [src/commands/moderator/editMods.go]

    The command [/edit-mods]: adding, switching, clearing and pinning mods.  The list of mods
    and the mods folder are files that may be missing or unreadable; the history is the one
    of ModHistory.v, the merge of the list with the folder the one of ModPlan.v.  The mod
    portal ([resolve]), the update that downloads what is listed and the parser of URLs are
    parameters. *)
From Stdlib Require Import Ascii.
From S2P Require Import Prelude.
From S2P Require Import GoInt.
From S2P Require Import GoString.
From S2P Require Import GoTime.
From S2P Require Import Sanitize.
From S2P Require Import ModVersion.
From S2P Require Import ModDeps.
From S2P Require Import ModHistory.
From S2P Require Import ModPlan.

(** A file that is not there, or cannot be read. *)
Inductive file_error := NotExist | Failed (text : string).
#[export] Instance file_error_eq_dec : EqDecision file_error.
Proof. solve_decision. Defined.

Record edit_world := mkEdit {
  ew_list : result file_error ModListData; ew_files : result file_error (list modZipInfo);
  ew_history : history_state; ew_prefs : VersionPrefs }.
#[export] Instance edit_world_settable : Settable edit_world := mkSettable (fun r => mkEdit (ew_list r) (ew_files r) (ew_history r) (ew_prefs r)).

Record edit_env := mkEditEnv {
  ee_running : bool;                                 (* [FactorioBooted || FactIsRunning] *)
  ee_write : bool; ee_write_history : bool;          (* whether the list, and the history, can be written *)
  ee_write_prefs : option string;                    (* the error of writing the preferences *)
  ee_builtins : result string (list modZipInfo);     (* [GetBuiltinModFiles] *)
  ee_FactorioVersion : string; ee_now : time; ee_user : string;
  ee_remove : option string; ee_mkdir : option string;   (* the errors of clearing the folder *)
  ee_update : option string; ee_after : result file_error (list modZipInfo)   (* the update: its error, the folder after it *) }.

(** A list that is not there is an empty one. *)
Definition readable {A} (empty : A) (r : result file_error A) : result string A :=
  match r with Ok a => Ok a | Err NotExist => Ok empty | Err (Failed e) => Err e end.

Definition error_text (e : file_error) : string := match e with NotExist => "file does not exist" | Failed e => e end.

Definition WriteModsList (e : edit_env) (l : ModListData) (w : edit_world) : bool * edit_world :=
  if ee_write e then (true, w <| ew_list := Ok l |>) else (false, w).

Definition note (e : edit_env) (name notes : string) : ModHistoryItem :=
  {| h_InfoItem := false; h_Name := name; h_Notes := notes; h_Version := ""; h_OldVersion := ""; h_Filename := ""; h_OldFilename := ""; h_Date := ee_now e |}.
Definition add_note (e : edit_env) (item : ModHistoryItem) (w : edit_world) : edit_world := w <| ew_history ::= AddModHistory (ee_write_history e) item |>.

Definition enableStr (b pastTense : bool) : string :=
  if pastTense then if b then "enabled" else "disabled" else if b then "enable" else "disable".

Definition nl : string := String (ascii_of_nat 10) "".
Definition comma : ascii := ","%char.

Definition clearAllMods (e : edit_env) (w : edit_world) : string * edit_world :=
  if ee_running e then ("Factorio is currently running. You must stop Factorio first.", w)
  else
    match ee_remove e with
    | Some err => ("Unable to delete mods folder: " +:+ err, w)
    | None =>
        let w := w <| ew_list := Err NotExist |> <| ew_files := Err NotExist |> <| ew_prefs := [] |> in
        match ee_mkdir e with
        | Some err => ("Unable to create a new mods folder: " +:+ err, w)
        | None => ("All mods, settings and old mods were deleted.", (WriteModsList e {| Mods := [] |} (w <| ew_files := Ok [] |>)).2)
        end
    end.

Section edit.
Context `{UnicodeTables}.

(** ** Adding *)
Record add_state := mkAdd { as_list : list ModData; as_responses : list string; as_requested : list string; as_added : list string; as_seen : list string }.
#[export] Instance add_state_settable : Settable add_state := mkSettable (fun r =>
  mkAdd (as_list r) (as_responses r) (as_requested r) (as_added r) (as_seen r)).
Definition say (text : string) (s : add_state) : add_state := s <| as_responses ::= fun l => l ++ [text] |>.

Definition request (listed : bool) (name : string) (s : add_state) : add_state :=
  let s := s <| as_requested ::= fun l => l ++ [name] |> in
  if listed then s else s <| as_list ::= fun l => l ++ [{| md_Name := name; md_Enabled := true |}] |> <| as_added ::= fun l => l ++ [name] |>.

(** One name of the input; [resolve] is its name at the portal, or the text of an error. *)
Definition add_one (resolve : string -> string * bool) (installed : list string) (s : add_state) (inputName : string) : add_state :=
  let inputName := TrimSpace inputName in
  if bool_decide (inputName = "") then s
  else
    let '(name, ok) := resolve inputName in
    if negb ok then say name s
    else
      let key := ToLower name in
      if bool_decide (key ∈ as_seen s) then s
      else
        let s := s <| as_seen ::= cons key |> in
        let listed := List.find (fun item => EqualFold (md_Name item) name) (as_list s) in
        if match listed with Some item => negb (md_Enabled item) | None => false end then say (name +:+ ": already listed but disabled; use enable-mod first.") s
        else if bool_decide (name = "") then s
        else if bool_decide (key ∈ installed) || IsBaseMod name then say (name +:+ ": already installed.") s
        else request (bool_decide (is_Some listed)) name s.

Definition lower_names (files : list modZipInfo) : list string := (fun f => ToLower (z_Name f)) <$> files.

(** What is said of a requested mod after the update. *)
Definition verify_one (installed : list string) (updateErr : option string) (name : string) : string :=
  if bool_decide (ToLower name ∈ installed) then
    match updateErr with
    | Some _ => name +:+ ": downloaded, but the batch failed; resolve the reported errors before restarting."
    | None => name +:+ ": installed; applies on the next Factorio start."
    end
  else name +:+ ": not installed. Still listed for retry; check release compatibility and the reported errors, then run add-mod again.".

Definition added_responses (responses : list string) : string :=
  if bool_decide (responses = []) then "You must specify mods to add." else Join responses nl.

Definition addMods (e : edit_env) (resolve : string -> string * bool) (input : string) (w : edit_world) : string * edit_world :=
  match readable {| Mods := [] |} (ew_list w) with
  | Err err => ("Unable to read mod list: " +:+ err, w)
  | Ok modList =>
      match readable [] (ew_files w) with
      | Err err => ("Unable to read mod files: " +:+ err, w)
      | Ok files =>
          let installed := lower_names files in
          let s := fold_left (add_one resolve installed) (Split input comma) (mkAdd (Mods modList) [] [] [] []) in
          if bool_decide (as_requested s = []) then (added_responses (as_responses s), w)
          else
            let '(wrote, w) := if bool_decide (as_added s = []) then (true, w) else WriteModsList e {| Mods := as_list s |} w in
            if negb wrote then (Join (as_responses s ++ ["Unable to save mod list; no downloads were attempted."]) nl, w)
            else
              let w := fold_left (fun w name => add_note e (note e name ("Added by " +:+ ee_user e)) w) (as_added s) w in
              let responses := as_responses s ++ match ee_update e with Some err => ["Mod installation/update failed: " +:+ err] | None => [] end in
              let w := w <| ew_files := ee_after e |> in
              match ee_after e with
              | Err err => (Join (responses ++ ["Unable to verify downloaded mods: " +:+ error_text err]) nl, w)
              | Ok files => (Join (responses ++ (verify_one (lower_names files ++ installed) (ee_update e) <$> as_requested s)) nl, w)
              end
      end
  end.
End edit.

Section toggle.
Context `{UnicodeTables}.

(** ** Switching *)
Record toggle_state := mkToggle { ts_mods : list modZipInfo; ts_responses : list string; ts_history : list string; ts_seen : list string }.
#[export] Instance toggle_state_settable : Settable toggle_state := mkSettable (fun r => mkToggle (ts_mods r) (ts_responses r) (ts_history r) (ts_seen r)).
Definition tell (text : string) (s : toggle_state) : toggle_state := s <| ts_responses ::= fun l => l ++ [text] |>.

Definition toggle_one (value : bool) (configured : list string) (s : toggle_state) (part : string) : toggle_state :=
  let part := TrimSpace part in
  let key := ToLower part in
  if bool_decide (part = "") || bool_decide (key ∈ ts_seen s) then s
  else
    let s := s <| ts_seen ::= cons key |> in
    if bool_decide (key = "base") then tell "The base mod is required and cannot be toggled." s
    else
      match find_index (fun m => EqualFold (z_Name m) part) (ts_mods s) with
      | None => tell ("There is no mod by the name: " +:+ part) s
      | Some m =>
          let name := default "" (z_Name <$> ts_mods s !! m) in
          let enabled := default false (z_Enabled <$> ts_mods s !! m) in
          if negb (eqb enabled value) || (IsBaseMod name && negb (bool_decide (name ∈ configured))) then
            tell ("The mod '" +:+ name +:+ "' is now " +:+ enableStr value true +:+ ".")
              (s <| ts_mods ::= alter (fun item => item <| z_Enabled := value |>) m |> <| ts_history ::= fun l => l ++ [name] |>)
          else tell ("The mod '" +:+ name +:+ "' was already " +:+ enableStr value true +:+ "!") s
      end.

Definition requested_names (name : string) : list string :=
  ToLower <$> List.filter (fun part => negb (bool_decide (part = ""))) (TrimSpace <$> Split name comma).
Definition chosen_builtins (requested : list string) (builtins : list modZipInfo) : list modZipInfo :=
  List.filter (fun b => negb (bool_decide (z_Name b = "base")) && bool_decide (ToLower (z_Name b) ∈ requested)) builtins.
Definition out_mods (l : list modZipInfo) : list ModData := (fun item => {| md_Name := z_Name item; md_Enabled := z_Enabled item |}) <$> l.

Definition toggleMod (e : edit_env) (name : string) (value : bool) (w : edit_world) : string * edit_world :=
  if ee_running e then ("Factorio is currently running. You must stop Factorio first.", w)
  else
    let parts := Split name comma in
    let requested := requested_names name in
    if bool_decide (requested = []) then ("You must specify a mod(s) to " +:+ enableStr value false +:+ ".", w)
    else
      match readable [] (ew_files w) with
      | Err err => ("Unable to read mod files: " +:+ err, w)
      | Ok modFiles =>
          match readable {| Mods := [] |} (ew_list w) with
          | Err err => ("Unable to read mod list: " +:+ err, w)
          | Ok modList =>
              match ee_builtins e with
              | Err err => ("Unable to read built-in mods: " +:+ err, w)
              | Ok builtins =>
                  let merged := MergeModLists (ee_FactorioVersion e) (modFiles ++ chosen_builtins requested builtins) modList in
                  let s := fold_left (toggle_one value (md_Name <$> Mods modList)) parts (mkToggle merged [] [] []) in
                  if bool_decide (ts_history s = []) then (Join (ts_responses s) nl, w)
                  else
                    let '(wrote, w) := WriteModsList e {| Mods := out_mods (ts_mods s) |} w in
                    if negb wrote then ("Unable to save mod list; mod settings were not changed.", w)
                    else
                      (Join (ts_responses s) nl,
                       fold_left (fun w name => add_note e (note e name (enableStr value true +:+ " by " +:+ ee_user e)) w) (ts_history s) w)
              end
          end
      end.

(** ** Preferred versions *)
Definition SetVersion (e : edit_env) (name version : string) (w : edit_world) : option string * edit_world :=
  match ee_write_prefs e with Some err => (Some err, w) | None => (None, w <| ew_prefs ::= fun prefs => set_pref prefs name version |>) end.

(** [strings.SplitN(p, "=", 2)]: the text before and after the first equals sign. *)
Fixpoint cut_equals (p : string) : option (string * string) :=
  match p with
  | EmptyString => None
  | String c p => if Ascii.eqb c "="%char then Some ("", p) else '(a, b) ← cut_equals p; Some (String c a, b)
  end.

Definition set_one (e : edit_env) (valid : list string) (w : edit_world) (p : string) : list string * edit_world :=
  if bool_decide (p = "") then ([], w)
  else
    match cut_equals p with
    | None => ([p +:+ ": invalid format"], w)
    | Some (seg, vers) =>
        let name := ToLower seg in
        if negb (bool_decide (name ∈ valid)) then ([seg +:+ ": mod not installed"], w)
        else
          let '(err, w) := SetVersion e name vers w in
          match err with Some err => ([seg +:+ ": " +:+ err], w) | None => ([seg +:+ " set to " +:+ vers], w) end
    end.

Definition setVersion (e : edit_env) (input : string) (w : edit_world) : string * edit_world :=
  if bool_decide (input = "") then ("You must specify a mod=version pair.", w)
  else
    let parts := Split (ReplaceAll input " " "") comma in
    let valid := lower_names (match ew_files w with Ok files => files | Err _ => [] end) in
    let '(lines, w) := fold_left (fun '(lines, w) p => let '(l, w) := set_one e valid w p in (lines ++ l, w)) parts ([], w) in
    (Join lines nl, w <| ew_files := ee_after e |>).

(** ** The command *)
(** [url.Parse]: the scheme, the host and the decoded path. *)
Definition modInputName (url_Parse : string -> result string (string * string * string)) (input : string) : result string string :=
  let name := TrimSpace input in
  name ← (if Contains name "://" then
            match url_Parse name with
            | Err err => Err ("invalid mod URL: " +:+ err)
            | Ok (scheme, host, path) =>
                if negb (bool_decide (scheme = "https") || bool_decide (scheme = "http")) || negb (EqualFold host "mods.factorio.com") then Err "expected a mods.factorio.com URL"
                else
                  match Split (TrimPrefix path "/") "/"%char with
                  | first :: second :: _ =>
                      if negb (bool_decide (first = "mod") || bool_decide (first = "download")) then Err "expected a mod or download URL" else Ok second
                  | _ => Err "expected a mod or download URL"
                  end
            end
          else Ok name);
  if bool_decide (TrimSpace name = "") then Err "missing mod name" else Ok name.

(** [portal]: [DownloadModInfo], the name the portal gives the mod. *)
Definition parseModName (url_Parse : string -> result string (string * string * string)) (portal : string -> result string string) (input : string) : string * bool :=
  match modInputName url_Parse input with
  | Err err => (input +:+ ": " +:+ err, false)
  | Ok name =>
      if IsBaseMod name then (name, true)
      else match portal name with Err err => ("Error looking up mod " +:+ name +:+ ": " +:+ err, false) | Ok found => (found, true) end
  end.

(** The options of the command, with [history] for the texts of the history commands. *)
Definition edit_option (e : edit_env) (resolve : string -> string * bool) (history : bool -> string) (w : edit_world) (oName value : string) : string * edit_world :=
  if bool_decide (oName = "mod-history") then (history false, w)
  else if bool_decide (oName = "full-history") then (history true, w)
  else if bool_decide (oName = "clear-history") then let '(t, h) := ClearHistory (ee_write_history e) (ew_history w) in (t, w <| ew_history := h |>)
  else if bool_decide (oName = "enable-mod") then let '(t, w) := toggleMod e value true w in (t +:+ nl, w)
  else if bool_decide (oName = "disable-mod") then let '(t, w) := toggleMod e value false w in (t +:+ nl, w)
  else if bool_decide (oName = "add-mod") then let '(t, w) := addMods e resolve value w in (t +:+ nl, w)
  else if bool_decide (oName = "set-version-pref") then setVersion e value w
  else if bool_decide (oName = "clear-all-mods") then let '(t, w) := clearAllMods e w in (t +:+ nl, w)
  else (oName +:+ " is not a valid option." +:+ nl, w).

Inductive edit_answer := EditError (text : string) | EditResult (text : string) | EditFile (text : string).
Definition EditMods (e : edit_env) (resolve : string -> string * bool) (history : bool -> string) (options : list (string * string)) (w : edit_world) : edit_answer * edit_world :=
  match options with
  | [] => (EditError "You must choose at least one option.", w)
  | _ =>
      let '(tmsg, w) := fold_left (fun '(tmsg, w) o => let '(t, w) := edit_option e resolve history w (ToLower o.1) o.2 in (tmsg +:+ t, w)) options ("", w) in
      let tmsg := if bool_decide (tmsg = "") then "Unknown error" else tmsg in
      ((if 2000 <? slen tmsg then EditFile tmsg else EditResult tmsg), w)
  end.
End toggle.

(** ** Theorems *)
Lemma fold_left_inv {A B} (P : B -> Prop) (f : B -> A -> B) l b : P b -> (forall b a, a ∈ l -> P b -> P (f b a)) -> P (fold_left f l b).
Proof.
  revert b. induction l as [|a l IH]; intros b Hb Hf; [done|]. cbn [fold_left]. apply IH; [apply Hf; [left|done]|]. intros c x Hx. apply Hf. by right.
Qed.

Section edit_theorems.
Context `{UnicodeTables}.

(** No two entries have names that Go takes for the same. *)
Definition names_apart (l : list ModData) : Prop :=
  forall i j x y, (i < j)%nat -> l !! i = Some x -> l !! j = Some y -> EqualFold (md_Name x) (md_Name y) = false.

Lemma names_apart_snoc l x : names_apart l -> (forall y, y ∈ l -> EqualFold (md_Name y) (md_Name x) = false) -> names_apart (l ++ [x]).
Proof.
  intros Hl Hx i j y z Hij Hi Hj. destruct (decide (j < length l)%nat) as [Hlt|Hge].
  - rewrite lookup_app_l in Hi, Hj by lia. by apply (Hl i j).
  - assert (Hj' : j = length l) by (apply lookup_lt_Some in Hj; rewrite length_app in Hj; cbn in Hj; lia). subst j.
    rewrite list_lookup_middle in Hj by done. injection Hj as ->. rewrite lookup_app_l in Hi by lia. apply Hx. by eapply list_elem_of_lookup_2.
Qed.

Definition enabled_mod (name : string) : ModData := {| md_Name := name; md_Enabled := true |}.

(** What the loop over the input keeps. *)
Record add_inv (resolve : string -> string * bool) (installed parts : list string) (l0 : list ModData) (s : add_state) : Prop := {
  ai_list : as_list s = l0 ++ (enabled_mod <$> as_added s);
  ai_apart : names_apart l0 -> names_apart (as_list s);
  ai_added : forall name, name ∈ as_added s -> name ∈ as_requested s /\ ToLower name ∉ installed /\ IsBaseMod name = false;
  ai_requested : forall name, name ∈ as_requested s -> (exists part, part ∈ parts /\ resolve (TrimSpace part) = (name, true)) /\ exists x, x ∈ as_list s /\ md_Enabled x = true /\ (x = enabled_mod name \/ EqualFold (md_Name x) name = true) }.

Lemma add_one_inv resolve installed parts l0 s part : part ∈ parts -> add_inv resolve installed parts l0 s -> add_inv resolve installed parts l0 (add_one resolve installed s part).
Proof.
  intros Hpart Hs. unfold add_one. cbv zeta. case_bool_decide; [done|]. destruct (resolve (TrimSpace part)) as [name ok] eqn:Er.
  destruct ok; [cbn [negb]|destruct Hs; by split]. case_bool_decide; [done|].
  assert (Hseen : add_inv resolve installed parts l0 (s <| as_seen ::= cons (ToLower name) |>)) by (destruct Hs; by split).
  set (s' := s <| as_seen ::= cons (ToLower name) |>) in *. clearbody s'. clear dependent s. rename s' into s.
  assert (Hsay : forall t, add_inv resolve installed parts l0 (say t s)) by (intros t; destruct Hseen; by split).
  destruct (match List.find _ _ with Some item => _ | None => false end) eqn:Ed; [apply Hsay|]. case_bool_decide as En; [done|].
  case_bool_decide as Ei; [apply Hsay|]. destruct (IsBaseMod name) eqn:Eb; [apply Hsay|]. cbn [orb]. destruct Hseen as [Hl Ha Had Hr]. unfold request.
  destruct (List.find (fun item => EqualFold (md_Name item) name) (as_list s)) as [x|] eqn:Ef.
  - rewrite bool_decide_eq_true_2 by by eexists. apply find_some in Ef as [Hx Hxe]. apply list_elem_of_In in Hx. apply negb_false_iff in Ed.
    split; cbn; [exact Hl|exact Ha| |].
    + intros n Hn. destruct (Had n Hn) as (Q1 & Q2 & Q3). rewrite elem_of_app. split_and!; [by left|done|done].
    + intros n [Hn|Hn]%elem_of_app; [by apply Hr|]. apply list_elem_of_singleton in Hn as ->. split; [by exists part|]. exists x. split_and!; [done|done|by right].
  - rewrite bool_decide_eq_false_2 by (intros [? ?]; discriminate).
    assert (Hnone : forall y, y ∈ as_list s -> EqualFold (md_Name y) name = false).
    { intros y Hy%list_elem_of_In. exact (find_none _ _ Ef y Hy). }
    split; cbn.
    + by rewrite fmap_app, Hl, <-app_assoc.
    + intros H0'. apply names_apart_snoc; [by apply Ha|exact Hnone].
    + intros n [Hn|Hn]%elem_of_app; [destruct (Had n Hn) as (Q1 & Q2 & Q3); rewrite elem_of_app; by split_and!; [left|..]|].
      apply list_elem_of_singleton in Hn as ->. rewrite elem_of_app. split_and!; [right; by apply list_elem_of_singleton|done|done].
    + intros n [Hn|Hn]%elem_of_app.
      * destruct (Hr n Hn) as [Q1 (x & Hx & Q2)]. split; [done|]. exists x. rewrite elem_of_app. split; [by left|done].
      * apply list_elem_of_singleton in Hn as ->. split; [by exists part|]. exists (enabled_mod name). rewrite elem_of_app. split_and!; [right; by apply list_elem_of_singleton|done|by left].
Qed.

Lemma add_notes e names (text : string -> string) w : ew_list (fold_left (fun w name => add_note e (note e name (text name)) w) names w) = ew_list w /\
  ew_prefs (fold_left (fun w name => add_note e (note e name (text name)) w) names w) = ew_prefs w /\ ew_files (fold_left (fun w name => add_note e (note e name (text name)) w) names w) = ew_files w.
Proof. revert w. induction names as [|n names IH]; intros w; [done|]. cbn [fold_left]. destruct (IH (add_note e (note e n (text n)) w)) as (-> & -> & ->). done. Qed.

(** (invariant) adding mods never removes an entry of the list, changes one, or writes a name twice:
    the list is the old one followed by enabled entries for names of the input that the
    portal knows and that were not installed; where it cannot be read or written nothing
    changes at all; and every mod that was asked for is listed and enabled, so that it is
    tried again. *)
Theorem adding_only_appends e resolve input w msg w' : addMods e resolve input w = (msg, w') ->
  ew_prefs w' = ew_prefs w /\
  (w' = w \/ exists old (added requested : list string), readable {| Mods := [] |} (ew_list w) = Ok old /\
     let new : list ModData := Mods old ++ (enabled_mod <$> added) in
     (added = [] /\ ew_list w' = ew_list w \/ added <> [] /\ ee_write e = true /\ ew_list w' = Ok {| Mods := new |}) /\
     (names_apart (Mods old) -> names_apart new) /\
     (forall name, name ∈ added -> IsBaseMod name = false /\ forall files, ew_files w = Ok files -> ToLower name ∉ lower_names files) /\
     (forall name, name ∈ requested -> exists part, part ∈ Split input comma /\ resolve (TrimSpace part) = (name, true)) /\
     (forall name, name ∈ requested -> exists x, x ∈ new /\ md_Enabled x = true /\ (x = enabled_mod name \/ EqualFold (md_Name x) name = true)) /\
     (forall name, name ∈ added -> name ∈ requested)).
Proof.
  unfold addMods. destruct (readable {| Mods := [] |} (ew_list w)) as [old|err] eqn:El; [|intros [= _ <-]; by split; [|left]].
  destruct (readable [] (ew_files w)) as [files|err] eqn:Ef; [|intros [= _ <-]; by split; [|left]].
  set (s := fold_left _ _ _). assert (Hs : add_inv resolve (lower_names files) (Split input comma) (Mods old) s).
  { apply fold_left_inv; [|intros b part Hp; by apply add_one_inv]. split; cbn; [by rewrite app_nil_r|done|intros n Hn; by apply elem_of_nil in Hn|intros n Hn; by apply elem_of_nil in Hn]. }
  destruct Hs as [Hl Ha Had Hr]. clearbody s. cbv zeta. case_bool_decide as Er; [intros [= _ <-]; by split; [|left]|].
  set (wrote := if bool_decide (as_added s = []) then (true, w) else WriteModsList e {| Mods := as_list s |} w).
  destruct wrote as [ok w1] eqn:Ew. destruct ok; cbn [negb]; cycle 1.
  { intros [= _ <-]. subst wrote. unfold WriteModsList in Ew. case_bool_decide; [discriminate|]. destruct (ee_write e); [discriminate|]. injection Ew as <-. by split; [|left]. }
  set (w2 := fold_left _ (as_added s) w1). set (w3 := w2 <| ew_files := ee_after e |>). intros Hres.
  assert (Hw' : w' = w3) by (destruct (ee_after e); by injection Hres). subst w'. clear Hres.
  destruct (add_notes e (as_added s) (fun _ => "Added by " +:+ ee_user e) w1) as (Hn1 & Hn2 & _). fold w2 in Hn1, Hn2.
  assert (Hw1 : ew_prefs w1 = ew_prefs w /\ (as_added s = [] /\ ew_list w1 = ew_list w \/ as_added s <> [] /\ ee_write e = true /\ ew_list w1 = Ok {| Mods := as_list s |})).
  { subst wrote. unfold WriteModsList in Ew. case_bool_decide; [injection Ew as <-; split; [done|by left]|]. destruct (ee_write e); [injection Ew as <-; split; [done|by right]|discriminate]. }
  destruct Hw1 as [Hp1 Hl1]. split; [subst w3; cbn; congruence|]. right. exists old, (as_added s), (as_requested s). split; [done|]. cbv zeta. rewrite <-Hl.
  split_and!.
  - subst w3. cbn. rewrite Hn1. exact Hl1.
  - exact Ha.
  - intros n Hn. destruct (Had n Hn) as (_ & Hi & Hb). split; [done|]. intros files' Hf. rewrite Hf in Ef. cbn in Ef. injection Ef as <-. exact Hi.
  - intros n Hn. apply (Hr n Hn).
  - intros n Hn. apply (Hr n Hn).
  - intros n Hn. apply (Had n Hn).
Qed.
End edit_theorems.

Section toggle_theorems.
Context `{UnicodeTables}.

(** How an entry may differ after mods were switched. *)
Definition switched (value : bool) (parts : list string) (a b : modZipInfo) : Prop :=
  z_Name b = z_Name a /\
  (z_Enabled b = z_Enabled a \/
   z_Enabled b = value /\ exists part, part ∈ parts /\ EqualFold (z_Name a) (TrimSpace part) = true /\ ToLower (TrimSpace part) <> "base").

Lemma toggle_one_switched value configured parts merged s part : part ∈ parts ->
  Forall2 (switched value parts) merged (ts_mods s) -> Forall2 (switched value parts) merged (ts_mods (toggle_one value configured s part)).
Proof.
  intros Hp Hs. unfold toggle_one. cbv zeta. destruct (bool_decide (TrimSpace part = "") || _); [done|]. case_bool_decide as Hb; [done|].
  destruct (find_index _ _) as [m|] eqn:Ef; [|done]. apply find_index_Some in Ef as (x & Hx & Hxe & _). cbn in Hx.
  destruct (negb _ || _); [|done]. cbn. apply Forall2_alter_r; [done|]. intros a b Ha Hb' [Hn _]. assert (b = x) as -> by (cbn in Hb'; congruence).
  split; [done|]. right. split; [done|]. exists part. by rewrite <-Hn.
Qed.

(** (safety) switching mods changes nothing while the game runs or where a file cannot be read or
    the list not be written; otherwise it writes the merged list, in which an entry differs
    only if its name was given, other than the required mod, and then it is what was asked. *)
Theorem switching_changes_only_what_was_named e name value w msg w' : toggleMod e name value w = (msg, w') ->
  ew_files w' = ew_files w /\ ew_prefs w' = ew_prefs w /\
  (w' = w \/ ee_running e = false /\ ee_write e = true /\ exists files list builtins mods,
     readable [] (ew_files w) = Ok files /\ readable {| Mods := [] |} (ew_list w) = Ok list /\ ee_builtins e = Ok builtins /\
     ew_list w' = Ok {| Mods := out_mods mods |} /\
     Forall2 (switched value (Split name comma)) (MergeModLists (ee_FactorioVersion e) (files ++ chosen_builtins (requested_names name) builtins) list) mods).
Proof.
  unfold toggleMod. destruct (ee_running e) eqn:Er; [intros [= _ <-]; split_and!; [done..|by left]|]. cbv zeta.
  case_bool_decide; [intros [= _ <-]; split_and!; [done..|by left]|].
  destruct (readable [] (ew_files w)) as [files|err] eqn:Ef; [|intros [= _ <-]; split_and!; [done..|by left]].
  destruct (readable {| Mods := [] |} (ew_list w)) as [list|err] eqn:El; [|intros [= _ <-]; split_and!; [done..|by left]].
  destruct (ee_builtins e) as [builtins|err] eqn:Eb; [|intros [= _ <-]; split_and!; [done..|by left]].
  set (merged := MergeModLists _ _ _). set (s := fold_left _ _ _).
  assert (Hs : Forall2 (switched value (Split name comma)) merged (ts_mods s)).
  { apply fold_left_inv; [cbn; apply Forall_Forall2_diag, Forall_true; intros a; by split; [|left]|]. intros b part Hp. by apply toggle_one_switched. }
  clearbody s. case_bool_decide; [intros [= _ <-]; split_and!; [done..|by left]|]. unfold WriteModsList.
  destruct (ee_write e); cbn [negb]; [|intros [= _ <-]; split_and!; [done..|by left]]. set (w1 := w <| ew_list := _ |>). intros [= _ <-].
  destruct (add_notes e (ts_history s) (fun _ => enableStr value true +:+ " by " +:+ ee_user e) w1) as (Hl & Hp & Hf).
  split_and!; [exact Hf|exact Hp|]. right. split_and!; [done..|]. exists files, list, builtins, (ts_mods s). split_and!; [done..|exact Hl|exact Hs].
Qed.

(** (safety) the mods are cleared only while the game is stopped, and when the command says that
    they were, the folder is empty. *)
Theorem cleared_only_when_stopped e w msg w' : clearAllMods e w = (msg, w') ->
  (ee_running e = true -> w' = w) /\ ew_history w' = ew_history w /\ (msg = "All mods, settings and old mods were deleted." -> ew_files w' = Ok [] /\ ew_prefs w' = []).
Proof.
  unfold clearAllMods. destruct (ee_running e); [intros [= <- <-]; done|]. destruct (ee_remove e) as [err|]; [intros [= <- <-]; split_and!; [done..|discriminate]|].
  destruct (ee_mkdir e) as [err|]; [intros [= <- <-]; split_and!; [done..|discriminate]|]. unfold WriteModsList. destruct (ee_write e); intros [= <- <-]; done.
Qed.
End toggle_theorems.

(** ** Examples *)
Module EditModsDemo.
#[local] Existing Instance ascii_tables.

Definition env (after : list modZipInfo) : edit_env := mkEditEnv false true true None (Ok []) "2.0.0" 0 "ann" None None None (Ok after).
Definition zip (name : string) : modZipInfo := noZip <| z_Name := name |> <| z_Version := "1.0.0" |>.
Definition no_history : history_state := {| ModHistory := {| History := []; Blacklist := [] |}; history_file := None |}.
Definition world : edit_world := mkEdit (Ok {| Mods := [{| md_Name := "base"; md_Enabled := true |}] |}) (Ok [zip "alpha"]) no_history [].
Definition portal (name : string) : result string string := if bool_decide (name = "nope") then Err "404" else Ok name.
Definition resolve : string -> string * bool := parseModName (fun _ => Err "no URL") portal.

Definition added : string * edit_world := addMods (env [zip "alpha"; zip "beta"]) resolve "beta, nope, Beta,alpha" world.
Example add_answer : added.1 = "Error looking up mod nope: 404" +:+ nl +:+ "alpha: already installed." +:+ nl +:+ "beta: installed; applies on the next Factorio start.".
Proof. by vm_compute. Qed.
Lemma adding_only_appends_witness : ew_prefs added.2 = [].
Proof. destruct (adding_only_appends (env [zip "alpha"; zip "beta"]) resolve "beta, nope, Beta,alpha" world added.1 added.2) as [Hp _]; [unfold added; by destruct (addMods _ _ _ _)|exact Hp]. Defined.

Definition off : edit_world := (toggleMod (env []) "Alpha" false world).2.
Definition on_again : edit_world := (toggleMod (env []) "Alpha" true off).2.
Lemma switching_changes_only_what_was_named_witness : ew_files off = Ok [zip "alpha"].
Proof. destruct (switching_changes_only_what_was_named (env []) "Alpha" false world (toggleMod (env []) "Alpha" false world).1 off) as [Hf _]; [unfold off; by destruct (toggleMod _ _ _ _)|exact Hf]. Defined.
Lemma cleared_only_when_stopped_witness : ew_files (clearAllMods (env []) world).2 = Ok [].
Proof.
  destruct (cleared_only_when_stopped (env []) world (clearAllMods (env []) world).1 (clearAllMods (env []) world).2) as (_ & _ & Hc); [by destruct (clearAllMods _ _)|].
  apply Hc. reflexivity.
Defined.

(** The entries for switching carry no version, and the history takes a second entry of the same
    mod and version for a repetition: only the first switch of a mod is recorded
    ([src/modupdate/modHistory.go:125]). *)
Theorem second_switch_is_not_recorded : ew_list on_again = Ok {| Mods := [{| md_Name := "alpha"; md_Enabled := true |}; {| md_Name := "base"; md_Enabled := true |}] |} /\
  (h_Notes <$> History (ModHistory (ew_history off))) = ["disabled by ann"] /\ (h_Notes <$> History (ModHistory (ew_history on_again))) = ["disabled by ann"].
Proof. split_and!; by vm_compute. Qed.

(** A mod whose name has a space can be added and switched but no version be set for it: all
    spaces of the input are removed before it is taken apart
    ([src/commands/moderator/editMods.go:352]). *)
Theorem spaces_hide_the_mod : let w := world <| ew_files := Ok [zip "Orphan Finder"] |> in
  (toggleMod (env []) "Orphan Finder" false w).1 = "The mod 'Orphan Finder' is now disabled." /\
  (setVersion (env []) "Orphan Finder=1.0.0" w).1 = "OrphanFinder: mod not installed".
Proof. split; by vm_compute. Qed.
End EditModsDemo.
